(* ===== verification/_CoqProject ===== *)
-Q . S2P
Prelude.v
Bytes.v
Sdk.v
PaymentTypes.v
PaymentStore.v
PaymentStream.v
PaymentStreamFacts.v
PaymentSolvency.v
PaymentFlows.v
PaymentFlowsFacts.v
PaymentBooks.v
PaymentPaid.v
PaymentEndBlock.v
PaymentSettle.v
PaymentEndBlockFacts.v
PaymentConserve.v
PaymentMsg.v
PaymentMsgFacts.v
PaymentAccounts.v
PaymentKeys.v
PaymentInstance.v
PaymentTheorems.v
StateDB.v
StateDBFacts.v
StateDBRevert.v
StateDBCommit.v
EvmKeeper.v
StateDBReads.v
StateDBTheorems.v
FeeMarket.v
FeeMarketTheorems.v
EvmTx.v
EvmGas.v
EvmAnte.v
EvmTxFacts.v
EvmGasFacts.v
EvmAnteFacts.v
EvmTxTheorems.v
Grn.v
Permission.v
PermissionKeeper.v
PermissionFacts.v
PermissionRefine.v
PermissionRemove.v
StorageTypes.v
StoragePermission.v
PermissionEval.v
StoragePermissionFacts.v
StorageGC.v
StorageGCFacts.v
PermissionTheorems.v
SpTypes.v
SpKeeper.v
SpMsg.v
SpFacts.v
VirtualGroupTypes.v
VirtualGroupKeeper.v
VirtualGroupMsg.v
VirtualGroupFacts.v
VirtualGroupEffects.v
VirtualGroupWf.v
VirtualGroupDeposits.v
VirtualGroupCounts.v
VirtualGroupPayment.v
VirtualGroupReach.v
VirtualGroupTheorems.v
StorageStore.v
StorageCharge.v
StorageGroups.v
StorageObjects.v
StorageBuckets.v
StorageCheck.v
StorageBills.v
StorageLedger.v
StorageRuns.v
StorageBucketRuns.v
StorageTheorems.v
Challenge.v
ChallengeTheorems.v
