(* ===== verification/Prelude.v ===== *)
(** * Moca: a verification of the chain's modules

    Moca is a Cosmos SDK chain with an Ethereum virtual machine and a storage
    marketplace.  This library models modules of the Go sources under [src/]
    as executable definitions and proves what they promise.  This file is the
    root: it holds this overview, and below it the prelude the other files
    share (machine integers, the state and error monad, sums over finite
    maps, ordered iteration).

    ** The program and its parts

    - x/payment keeps streams of payments: a stream record per account with a
      static balance, a buffer and a rate; out flows from payers to
      receivers; queues of accounts to settle and to resume; delayed
      withdrawals.  The end blocker freezes accounts that ran out and thaws
      those that were topped up.
    - x/evm/statedb is the state the EVM interpreter works on: cached state
      objects, an access list, transient storage, and a journal that undoes
      changes back to a snapshot; Commit writes to the EVM keeper, which
      stores accounts in the SDK's auth keeper and balances in the bank.
    - x/evm/keeper applies Ethereum transactions: it runs the interpreter on
      a StateDB, then the hooks, refunds the gas left and counts the gas used.
      The ante handler of app/ante/evm admits them first: it recovers the
      sender, deducts the fee of the whole gas limit and takes the nonce.
    - x/feemarket sets the EIP-1559 base fee from the gas of the last block.
    - x/permission stores policies: statements that allow or deny actions on
      a bucket, an object or a group to an account or a group of accounts,
      with expiration times and size limits.  x/storage asks it for verdicts,
      and has the policies of deleted resources collected.
    - x/sp is the registry of storage providers: their addresses and keys
      with an index for each, deposits, prices, status and maintenance
      windows; its end blocker closes overdue maintenance and updates the
      global price.
    - x/virtualgroup groups providers: a family belongs to a primary
      provider, its groups name the secondaries, hold a deposit for the bytes
      they may store and a payment account that is settled among the
      providers.  Places in groups are swapped out and in, and a provider
      exits once it has none.  It reads the registry of x/sp and calls
      x/payment and the bank.
    - x/storage keeps buckets and objects.  A bucket belongs to a family of
      x/virtualgroup, is paid for by an account of x/payment and bills it for
      the read quota and the bytes of its sealed objects; an object locks a
      fee until its provider seals it on a group.  Objects are updated,
      copied, deleted or discontinued by the provider, and then deleted at the
      end of a later block; buckets migrate between providers; a payer limits
      what a bucket may cost.  It asks x/permission for verdicts, mints and
      burns tokens in the EVM, and can compare its bills with the stream
      records.
    - x/challenge challenges providers to prove that they store a segment of
      an object: users submit challenges and the end blocker draws some from
      the randomness of the block.  The validator in turn attests what more
      than two thirds of the validators signed: a provider that failed loses
      part of its deposit in x/sp to them, or the heartbeat pays them from the
      tax pool of x/payment.
    - types/grn.go names resources in text; internal/sequence numbers ids.

    ** Conventions

    A Go call is a function of the monad [M S E A] below: it returns a value
    ([Ret]), a non-nil error ([Err]) or panics ([Panic]), always with the
    state reached, since a caller that handles an error goes on from there.
    Reads that cannot fail are plain functions of the state.  A store prefix
    is a finite map from the data its keys are built from; the key files show
    that the byte keys keep these apart and in the order the iterators use.
    An iterator is the list of entries present when it is opened.  Integers
    are [Z]; where the width matters the wrap-around ([u64], [i64]) or the
    bound of the library type is written out.  Addresses are numbers below
    2^160; hexadecimal text is a parameter where the code parses it.  Events,
    logs, telemetry and gas metering of store access are left out.

    Code outside [src/] is a parameter, a type class of operations with a
    class of the laws relied on, and an instance that shows the laws hold of
    something: the bank ([BankKeeper], [BankLaws]), address derivation and
    text ([Addresses], [AddressLaws], [AddressText], [AddressTextLaws],
    [UintText]), hashing, the StateDB's keeper ([Keeper], [KeeperLaws],
    discharged by [EvmKeeper] for the EVM keeper itself), the SDK's auth and
    bank keepers below it ([AuthKeeper], [EvmBank], [FeeBank]), go-ethereum's
    interpreter, messages, transactions, chain rules and hexadecimal text
    ([EthVM], [EthVMLaws], [EthMessageLaws], [EthTransactions], [ChainRules],
    [Hexing]), the hooks of the EVM keeper ([EvmSetup]), regular expressions
    ([Regexps]), the text of times ([TimeText]), coin denominations
    ([Denoms]), BLS signatures ([Bls]), authorizations ([AuthzKeeper]), the
    hash that derives payment accounts ([VgAddresses], [VgAddressLaws]), the
    token contracts of x/storage ([NftContracts]), its hashes and signatures
    ([StorageCrypto]), the staking keeper, bit sets with aggregated signatures
    and Keccak-256 of x/challenge ([StakingKeeper], [Votes], [Keccak],
    [KeccakLaws]).
    What x/virtualgroup asks of x/payment is an interface too
    ([PaymentKeeper], [PaymentLaws]): its theorems are proved against it, and
    VirtualGroupPayment discharges it with the definitions of x/payment.

    ** Files

    - Prelude: this file.  Bytes: big-endian bytes and [sequence.go].  Sdk:
      coins, the bank and addresses.
    - PaymentTypes ([types/types.go], [params.go], [stream_record.go],
      [keeper/v2]), PaymentStore (the store files of [keeper/]),
      PaymentStream ([UpdateStreamRecord], [ForceSettle] of
      [stream_record.go]), PaymentFlows ([storage_fee_charge.go]),
      PaymentEndBlock ([AutoSettle], [AutoResume], [TryResumeStreamRecord],
      the end blocker), PaymentMsg (the message handlers, queries and
      genesis), PaymentKeys ([types/keys.go]): the definitions of x/payment.
    - PaymentStreamFacts, PaymentSolvency, PaymentFlowsFacts, PaymentBooks,
      PaymentSettle, PaymentEndBlockFacts, PaymentConserve, PaymentMsgFacts,
      PaymentAccounts: its invariants and lemmas.  PaymentPaid: what one
      account pays another, for the modules that charge.  PaymentInstance has
      the concrete states and decides the invariants on them,
      PaymentTheorems the theorems.
    - StateDB ([statedb.go], [state_object.go], [journal.go],
      [access_list.go], [transient_storage.go]) and EvmKeeper
      ([x/evm/keeper/statedb.go] and the account reads of [keeper.go]): the
      definitions.  StateDBFacts, StateDBRevert, StateDBCommit,
      StateDBReads: lemmas; StateDBTheorems.
    - FeeMarket (x/feemarket) and FeeMarketTheorems.
    - EvmTx (the transaction types of [x/evm/types]), EvmGas
      ([state_transition.go], [gas.go], [fees.go], [config.go], [hooks.go] and
      the counters of [keeper.go], with [chain_config.go] and [gasmeter.go]),
      EvmAnte (the decorators of [app/ante/evm]): the definitions.
      EvmTxFacts, EvmGasFacts, EvmAnteFacts: lemmas; EvmTxTheorems.
    - Grn ([types/grn.go], [types/s3util]) with its round trip.
    - Permission ([types/types.go], [common.go], [params.go]),
      PermissionKeeper ([keeper/keeper.go] and the rest of the keeper): the
      definitions of x/permission.
      PermissionFacts, PermissionRefine, PermissionRemove, PermissionEval:
      the map of grants and the reading of policies.
    - StoragePermission ([x/storage/keeper/permission.go] and the policy
      messages), StorageGC (the stale policy functions of
      [x/storage/keeper/keeper.go]); StoragePermissionFacts, StorageGCFacts;
      PermissionTheorems, with the byte keys of [types/keys.go].
    - SpTypes ([x/sp/types]), SpKeeper ([sp.go], [sp_status.go],
      [sp_storage_price.go], [abci.go]), SpMsg ([msg_server.go], [slash.go],
      [authz.go], genesis): the definitions of x/sp.  SpFacts: the registry
      and its indexes, medians of prices, deposits.
    - VirtualGroupTypes ([x/virtualgroup/types]), VirtualGroupKeeper
      ([keeper.go], [payment.go]), VirtualGroupMsg ([msg_server.go], the
      migration and genesis): the definitions of x/virtualgroup.
      VirtualGroupFacts, VirtualGroupEffects (what each
      handler writes), VirtualGroupWf (well-formed stores),
      VirtualGroupDeposits, VirtualGroupCounts, VirtualGroupReach (reachable
      states): lemmas; VirtualGroupPayment: the instance of its interface to
      x/payment; VirtualGroupTheorems: both modules, with a small chain.
    - StorageTypes ([x/storage/types]), StorageStore (the store prefixes,
      [keeper/params.go], the getters and setters of [keeper/keeper.go], and
      the chain of all the modules around it, [Chain]), StorageCharge
      ([payment.go], [bucket_rate_limit.go]), StorageGroups
      ([virtualgroup.go]), StorageObjects and StorageBuckets (the operations
      of [keeper.go] on objects and on buckets, the queues of deletions),
      StorageCheck ([payment_check.go], the end blocker): the definitions.
      StorageBills: what a bucket costs; StorageLedger: the invariant;
      StorageRuns, StorageBucketRuns: its preservation by each operation;
      StorageTheorems.
    - Challenge (all of [x/challenge/keeper], its [abci.go], [genesis.go] and
      [types]): the definitions, over [ChallengeChain], the chain of x/storage
      with the store of the module and the challenges it announced.
      ChallengeTheorems: lemmas, the runs of the module ([history]) and
      theorems.

    ** What the theorems show

    - Solvency of x/payment: the surplus of the module account's coins over
      what all records and delayed withdrawals are worth is unchanged by
      settling, by withdrawals, by record updates and by time, and never
      lowered by resuming and deposits.
    - Books of x/payment: rates, frozen rates and flow counts of the records
      agree with the flow store, through charging, the end blocker and
      deposits; limits on the work per block; settling an account below the
      limit freezes all its flows; the recursion of
      [UpdateStreamRecord] through the governance account stops at the second
      level, so that a fuel of two ([update_fuel]) is enough.
    - Who may withdraw and when; settle times; merging; key codecs; payment
      accounts; genesis.
    - StateDB: reverting to a snapshot restores every answer of the state,
      the journal and the revisions, after any operations with nested
      snapshots; Commit persists what the StateDB showed where the keeper
      can store it ([keeper_accepts], [one_code]), leaves the rest, and never
      meets a missing object; writes are read back; the access list is
      exactly what was prepared; the EVM keeper deletes accounts.
    - Ethereum transactions: from admission to refund exactly the gas used
      times the effective price moves from the sender to the fee collector; a
      failed transaction leaves its refund and the counters of the block;
      bounds of the gas charged; nonces are used once; the gas wanted wraps around 2^64; the gas search
      finds the least limit; transactions convert there and back.
    - Fee market: bounds of the base fee and when its update panics.
    - Permissions: the store refines a map of grants under put, delete,
      expiry and garbage collection; the object check allows exactly what its
      documentation says, with denials first, for operators that own both the
      bucket and the object or neither (otherwise the owner of the object
      counts, where the documentation names that of the bucket); a size limit is never exceeded;
      the group check panics where it should deny; resource names round
      trip.
    - x/sp: messages, slashes and end blocks keep every provider under its
      id and every index exact, keep the deposits backed, and the global
      price is a median.
    - x/virtualgroup: every message keeps the store well formed and the
      deposits backed by the module account; in states reachable by messages
      whose senders own what they act on ([honest], [reachable]) the counters
      of a provider count exactly its places, so that a provider that exits
      has none left and gets its deposit back; a settlement pays equal
      shares; deleting a group pays its deposit to the sender.
    - x/storage: in every state reachable by its operations ([reached]) every
      account pays every other exactly what the bills of its buckets say,
      except rate-limited ones, and the charged bytes are those of the sealed
      objects ([Ledger]): charging an object by the change of its group is
      charging the change of the whole bill, and giving it up undoes it.  The
      bytes of a bucket are assumed to fit in 64 bits ([roomy]), and copies
      not to overwrite an object ([copies_to_free]): a theorem shows what
      such a copy does.
    - x/challenge: over every run from genesis with changes of parameters
      ([history]) slashes of a provider for one object are a cooling-off
      period apart, the losses of a window of fixed length are bounded, and a
      challenge is open until it expires ([open_challenges]: up to the height
      before); what an attestation needs and does (the shares of validators
      when all voted, in general [attestation_effect]); the
      end blocker never fails on a sound chain ([sound]) and starts valid,
      distinct challenges; the ring of attested challenges is a bounded
      queue; the signed bytes determine the vote; validators take turns.

    Three definitions need fuel: [UpdateStreamRecord]; [BinSearch], whose
    range halves 64 times at most ([BinSearch_least]); and the walk over the
    ring of attested challenges, which visits each slot once ([read_ring]).
    Every other loop
    recurses over the list it iterates.

    ** Not modelled

    x/erc20 is not modelled, nor are the group operations of x/storage (members of groups are modelled in x/permission), its tags,
    the wrappers of its messages and the validation of its parameters.
    Tokens are minted and burned by contracts whose code is not part of the
    sources.  Amounts are unbounded: the panics of the SDK's integers beyond
    256 bits are left out.  The queries of x/sp, x/virtualgroup and x/storage
    page over the stores.  Of x/evm the queries, genesis and the interpreter itself,
    a third-party package, are not.  The precompiles are ABI glue over
    generated bindings to the message servers.  The migration of x/permission
    keys rewrites a layout that is no longer written.  The application
    wiring, the ante handlers of Cosmos transactions, JSON-RPC, command
    lines, clients, indexer and wallets are I/O over
    libraries; [api] is generated. *)

From stdpp Require Export base tactics option list numbers gmap sorting strings.
From Stdlib Require Export ZArith Lia ZifyBool.

Global Open Scope Z_scope.

(** ** Machine integers *)

Definition two32 : Z := 2 ^ 32.
Definition two63 : Z := 2 ^ 63.
Definition two64 : Z := 2 ^ 64.

(** [uint64(z)]: conversion to Go's [uint64], modulo 2^64. *)
Definition u64 (z : Z) : Z := z mod two64.
Definition u32 (z : Z) : Z := z mod two32.

(** [int64(z)]: conversion to Go's [int64], two's complement. *)
Definition i64 (z : Z) : Z := (z + two63) mod two64 - two63.

Definition is_i64 (z : Z) : bool := (- two63 <=? z) && (z <? two63).
Definition is_u64 (z : Z) : bool := (0 <=? z) && (z <? two64).

Lemma i64_id z : is_i64 z = true -> i64 z = z.
Proof.
  unfold is_i64, i64. intros [H1 H2]%andb_true_iff.
  apply Z.leb_le in H1. apply Z.ltb_lt in H2.
  rewrite Z.mod_small; unfold two63, two64 in *; lia.
Qed.

Lemma i64_range z : is_i64 (i64 z) = true.
Proof.
  unfold is_i64, i64. pose proof (Z.mod_pos_bound (z + two63) two64 eq_refl) as H.
  apply andb_true_iff. rewrite Z.leb_le, Z.ltb_lt. unfold two63, two64 in *. lia.
Qed.

Lemma u64_id z : is_u64 z = true -> u64 z = z.
Proof.
  unfold is_u64, u64. intros [H1 H2]%andb_true_iff.
  apply Z.leb_le in H1. apply Z.ltb_lt in H2. apply Z.mod_small; lia.
Qed.

Lemma u64_range z : 0 <= u64 z < two64.
Proof. apply Z.mod_pos_bound. reflexivity. Qed.

(** ** Outcomes of Go code

    A call returns a value, returns a non-nil error, or panics.  [NoFuel]
    is the model's own outcome for a recursion deeper than its fuel. *)
Inductive outcome (E A : Type) : Type :=
| Ret (a : A)
| Err (e : E)
| Panic
| NoFuel.
Arguments Ret {E A} a.
Arguments Err {E A} e.
Arguments Panic {E A}.
Arguments NoFuel {E A}.

(** Stateful code: the state reached is kept on every outcome, because a
    caller that handles an error goes on with the writes made before it. *)
Definition M (S E A : Type) : Type := S -> outcome E A * S.

Section Monad.
Context {S E : Type}.

Definition ret {A} (a : A) : M S E A := fun s => (Ret a, s).
Definition fail {A} (e : E) : M S E A := fun s => (Err e, s).
Definition panic {A} : M S E A := fun s => (Panic, s).
Definition nofuel {A} : M S E A := fun s => (NoFuel, s).

Definition bind {A B} (c : M S E A) (k : A -> M S E B) : M S E B :=
  fun s => match c s with
           | (Ret a, s') => k a s'
           | (Err e, s') => (Err e, s')
           | (Panic, s') => (Panic, s')
           | (NoFuel, s') => (NoFuel, s')
           end.

Definition get : M S E S := fun s => (Ret s, s).
Definition modify (f : S -> S) : M S E unit := fun s => (Ret tt, f s).

(** [if err := c; err != nil { h }]: run [c]; an error is handled by [h]
    in the state [c] reached. *)
Definition on_err {A} (c : M S E A) (h : E -> M S E A) : M S E A :=
  fun s => match c s with
           | (Err e, s') => h e s'
           | r => r
           end.

(** [err := c; if err != nil { continue }]: the error as a value. *)
Definition attempt {A} (c : M S E A) : M S E (option A) :=
  fun s => match c s with
           | (Ret a, s') => (Ret (Some a), s')
           | (Err _, s') => (Ret None, s')
           | (Panic, s') => (Panic, s')
           | (NoFuel, s') => (NoFuel, s')
           end.

(** [if b { return err }] *)
Definition guard (b : bool) (e : E) : M S E unit := if b then fail e else ret tt.

Lemma bind_Ret {A B} (c : M S E A) (k : A -> M S E B) s b s' :
  bind c k s = (Ret b, s') <->
  exists a s1, c s = (Ret a, s1) /\ k a s1 = (Ret b, s').
Proof.
  unfold bind. destruct (c s) as [[a|e| |] s1]; split;
    (intros (a0 & s0 & H1 & H2) || intros H); simplify_eq; eauto.
Qed.

Lemma bind_run {A B} (c : M S E A) (k : A -> M S E B) s a s1 :
  c s = (Ret a, s1) -> bind c k s = k a s1.
Proof. unfold bind. by intros ->. Qed.

Lemma bind_get {A} (k : S -> M S E A) s : bind get k s = k s s.
Proof. done. Qed.

Lemma bind_ext {A B} (c : M S E A) (k k' : A -> M S E B) s :
  (forall a s1, c s = (Ret a, s1) -> k a s1 = k' a s1) -> bind c k s = bind c k' s.
Proof. unfold bind. intros Hk. destruct (c s) as [[]]; auto. Qed.

(** A run that does not stop for lack of fuel. *)
Definition terminates {A} (c : M S E A) s : Prop := (c s).1 <> NoFuel.

Lemma bind_terminates {A B} (c : M S E A) (k : A -> M S E B) s :
  terminates c s -> (forall a s1, c s = (Ret a, s1) -> terminates (k a) s1) ->
  terminates (bind c k) s.
Proof.
  unfold terminates, bind. intros Hc Hk. destruct (c s) as [[]]; simpl in *; auto.
Qed.

Lemma ret_terminates {A} (a : A) s : terminates (ret a) s.
Proof. done. Qed.
Lemma panic_terminates {A} s : terminates (@panic A) s.
Proof. done. Qed.
Lemma fail_terminates {A} e s : terminates (@fail A e) s.
Proof. done. Qed.
Lemma get_terminates s : terminates get s.
Proof. done. Qed.
Lemma modify_terminates f s : terminates (modify f) s.
Proof. done. Qed.
Lemma guard_terminates b e s : terminates (guard b e) s.
Proof. by destruct b. Qed.

Lemma guard_Ret b e (s : S) u s' :
  guard b e s = (Ret u, s') <-> b = false /\ s' = s.
Proof.
  unfold guard, fail, ret. destruct b, u; split; intros; naive_solver.
Qed.

Lemma on_err_panic_Ret {A} (c : M S E A) s a s' :
  on_err c (fun _ => panic) s = (Ret a, s') -> c s = (Ret a, s').
Proof. unfold on_err, panic. destruct (c s) as [[]]; naive_solver. Qed.

Lemma on_err_fail_Ret {A} (c : M S E A) (f : E -> E) s a s' :
  on_err c (fun e => fail (f e)) s = (Ret a, s') -> c s = (Ret a, s').
Proof. unfold on_err, fail. destruct (c s) as [[]]; naive_solver. Qed.

Lemma attempt_Some {A} (c : M S E A) s a s' :
  attempt c s = (Ret (Some a), s') -> c s = (Ret a, s').
Proof. unfold attempt. destruct (c s) as [[]]; naive_solver. Qed.

Lemma attempt_None {A} (c : M S E A) s s' :
  attempt c s = (Ret None, s') -> exists e, c s = (Err e, s').
Proof. unfold attempt. destruct (c s) as [[]]; naive_solver. Qed.

Lemma ret_Ret {A} (a b : A) (s s' : S) :
  @ret A a s = (Ret b, s') <-> a = b /\ s = s'.
Proof. unfold ret. naive_solver. Qed.

Lemma fail_Ret {A} (e : E) (b : A) (s s' : S) :
  @fail A e s = (Ret b, s') <-> False.
Proof. unfold fail. naive_solver. Qed.

Lemma panic_Ret {A} (b : A) (s s' : S) : @panic A s = (Ret b, s') <-> False.
Proof. unfold panic. naive_solver. Qed.

Lemma nofuel_Ret {A} (b : A) (s s' : S) : @nofuel A s = (Ret b, s') <-> False.
Proof. unfold nofuel. naive_solver. Qed.

Lemma get_Ret (a s s' : S) : get s = (Ret a, s') <-> a = s /\ s' = s.
Proof. unfold get. naive_solver. Qed.

Lemma modify_Ret (f : S -> S) u s s' :
  modify f s = (Ret u, s') <-> s' = f s.
Proof. unfold modify. destruct u. naive_solver. Qed.
End Monad.

(** A computation on a part of the state, its errors turned into the
    caller's. *)
Definition map_err {E F A} (f : E -> F) (o : outcome E A) : outcome F A :=
  match o with Ret a => Ret a | Err e => Err (f e) | Panic => Panic | NoFuel => NoFuel end.

Definition zoom {S T E F A} (view : T -> S) (put : S -> T -> T) (f : E -> F) (c : M S E A)
    : M T F A :=
  fun t => let '(o, s) := c (view t) in (map_err f o, put s t).

Lemma zoom_Ret {S T E F A} (view : T -> S) (put : S -> T -> T) (f : E -> F) (c : M S E A) t a t' :
  zoom view put f c t = (Ret a, t') <->
  exists s', c (view t) = (Ret a, s') /\ t' = put s' t.
Proof. unfold zoom, map_err. destruct (c (view t)) as [[]]; naive_solver. Qed.

(** A value that must be there, or else a panic; or else an error. *)
Definition must {S E A} (o : option A) : M S E A :=
  match o with Some a => ret a | None => panic end.
Definition or_fail {S E A} (o : option A) (e : E) : M S E A :=
  match o with Some a => ret a | None => fail e end.

Lemma must_Ret {S E A} (o : option A) (s s' : S) a :
  @must S E A o s = (Ret a, s') <-> o = Some a /\ s' = s.
Proof. unfold must, ret, panic. destruct o; naive_solver. Qed.
Lemma or_fail_Ret {S E A} (o : option A) (e : E) (s s' : S) a :
  or_fail o e s = (Ret a, s') <-> o = Some a /\ s' = s.
Proof. unfold or_fail, ret, fail. destruct o; naive_solver. Qed.

Arguments must : simpl never.
Arguments or_fail : simpl never.
Arguments zoom : simpl never.
Arguments bind : simpl never.
Arguments guard : simpl never.
Arguments on_err : simpl never.
Arguments attempt : simpl never.
Arguments ret : simpl never.
Arguments fail : simpl never.
Arguments panic : simpl never.
Arguments nofuel : simpl never.
Arguments get : simpl never.
Arguments modify : simpl never.

Declare Scope go_scope.
Delimit Scope go_scope with go.
Notation "'let!' x ':=' c 'in' k" := (bind c (fun x => k))
  (at level 10, x pattern, c at level 99, k at level 200,
   format "'[v' 'let!'  x  ':='  c  'in' '//' k ']'") : go_scope.
Notation "'do!' c ';;' k" := (bind c (fun _ => k))
  (at level 10, c at level 99, k at level 200,
   format "'[v' 'do!'  c  ';;' '//' k ']'") : go_scope.
Global Open Scope go_scope.

Create HintDb go.
#[export] Hint Resolve ret_terminates panic_terminates fail_terminates get_terminates
  modify_terminates guard_terminates : go.

(** [minv] inverts every successful run of a monadic term in the context. *)
Ltac minv_step :=
  match goal with
  | H : False |- _ => destruct H
  | H : _ /\ _ |- _ => destruct H
  | H : exists _, _ |- _ => destruct H
  | H : bind _ _ _ = (Ret _, _) |- _ => apply bind_Ret in H
  | H : ret _ _ = (Ret _, _) |- _ => apply ret_Ret in H
  | H : guard _ _ _ = (Ret _, _) |- _ => apply guard_Ret in H
  | H : get _ = (Ret _, _) |- _ => apply get_Ret in H
  | H : modify _ _ = (Ret _, _) |- _ => apply modify_Ret in H
  | H : fail _ _ = (Ret _, _) |- _ => apply fail_Ret in H
  | H : panic _ = (Ret _, _) |- _ => apply panic_Ret in H
  | H : nofuel _ = (Ret _, _) |- _ => apply nofuel_Ret in H
  | H : must _ _ = (Ret _, _) |- _ => apply must_Ret in H
  | H : or_fail _ _ _ = (Ret _, _) |- _ => apply or_fail_Ret in H
  | H : on_err _ (fun _ => panic) _ = (Ret _, _) |- _ => apply on_err_panic_Ret in H
  | H : on_err _ (fun e => fail _) _ = (Ret _, _) |- _ => apply on_err_fail_Ret in H
  | H : (_, _) = (_, _) |- _ => injection H as ? ?
  | u : unit |- _ => destruct u
  end.
Ltac minv := repeat (minv_step; subst); subst.

(** [mstep H] inverts the first statement of the successful run [H]. *)
Ltac mstep H :=
  match type of H with
  | bind get _ _ = _ => rewrite bind_get in H
  | bind (bind _ _) _ _ = _ => apply bind_Ret in H as (?x & ?s & ?Hx & H)
  | bind (guard _ _) _ _ = _ => apply bind_Ret in H as ([] & ?s & [?Hx ->]%guard_Ret & H)
  | bind (must _) _ _ = _ => apply bind_Ret in H as (?x & ?s & [?Hx ->]%must_Ret & H)
  | bind (or_fail _ _) _ _ = _ => apply bind_Ret in H as (?x & ?s & [?Hx ->]%or_fail_Ret & H)
  | bind (modify _) _ _ = _ => apply bind_Ret in H as ([] & ?s & ->%modify_Ret & H)
  | bind (ret _) _ _ = _ =>
      first [apply bind_Ret in H as (?x & ?s & [<- <-]%ret_Ret & H)
            |apply bind_Ret in H as (?x & ?s & [?Hx <-]%ret_Ret & H)]
  | guard _ _ _ = _ => apply guard_Ret in H as [?Hx ->]
  | must _ _ = _ => apply must_Ret in H as [?Hx ->]
  | or_fail _ _ _ = _ => apply or_fail_Ret in H as [?Hx ->]
  | modify _ _ = _ => apply modify_Ret in H as ->
  | ret _ _ = _ => first [apply ret_Ret in H as [<- <-]|apply ret_Ret in H as [?Hx <-]]
  end.
Ltac msteps H := repeat mstep H.

(** A run from its outcome. *)
Lemma run_outcome {S E X} (c : outcome E X * S) x : c.1 = Ret x -> c = (Ret x, c.2).
Proof. destruct c. simpl. by intros ->. Qed.

(** [by_eval] decides a closed goal by evaluating it. *)
Ltac by_eval := vm_compute; first [reflexivity | discriminate | (intros ?; discriminate)].

(** ** Frames

    [keeps f c]: running [c] leaves the part [f] of the state as it was, on
    every outcome. *)
Section Frames.
Context {S E X : Type} (f : S -> X).

Definition keeps {A} (c : M S E A) : Prop := forall s, f (c s).2 = f s.

Lemma keeps_ret {A} (a : A) : keeps (ret a).
Proof. done. Qed.
Lemma keeps_fail {A} e : keeps (@fail _ _ A e).
Proof. done. Qed.
Lemma keeps_panic {A} : keeps (@panic _ _ A).
Proof. done. Qed.
Lemma keeps_nofuel {A} : keeps (@nofuel _ _ A).
Proof. done. Qed.
Lemma keeps_get : keeps get.
Proof. done. Qed.
Lemma keeps_guard b e : keeps (guard b e).
Proof. by destruct b. Qed.
Lemma keeps_modify g : (forall s, f (g s) = f s) -> keeps (modify g).
Proof. done. Qed.

Lemma keeps_bind {A B} (c : M S E A) (k : A -> M S E B) :
  keeps c -> (forall a, keeps (k a)) -> keeps (bind c k).
Proof.
  intros Hc Hk s. unfold bind. specialize (Hc s). destruct (c s) as [[a|e| |] s1]; simpl in *; try done.
  by rewrite Hk.
Qed.

Lemma keeps_must {A} (o : option A) : keeps (must o).
Proof. by destruct o. Qed.
Lemma keeps_or_fail {A} (o : option A) e : keeps (or_fail o e).
Proof. by destruct o. Qed.

Lemma keeps_on_err {A} (c : M S E A) h :
  keeps c -> (forall e, keeps (h e)) -> keeps (on_err c h).
Proof.
  intros Hc Hh s. unfold on_err. specialize (Hc s). destruct (c s) as [[] s1]; simpl in *; try done.
  by rewrite Hh.
Qed.

Lemma keeps_attempt {A} (c : M S E A) : keeps c -> keeps (attempt c).
Proof. intros Hc s. unfold attempt. specialize (Hc s). by destruct (c s) as [[] s1]. Qed.

Lemma keeps_zoom {T F A} (view : S -> T) put (g : F -> E) (c : M T F A) :
  (forall v s, f (put v s) = f s) -> keeps (zoom view put g c).
Proof. intros Hput s. unfold zoom. destruct (c (view s)). apply Hput. Qed.

Lemma keeps_run {A} (c : M S E A) s o s' : keeps c -> c s = (o, s') -> f s' = f s.
Proof. intros Hc Hs. specialize (Hc s). by rewrite Hs in Hc. Qed.
End Frames.

Create HintDb frames.
#[export] Hint Resolve keeps_ret keeps_fail keeps_panic keeps_nofuel keeps_get keeps_guard
  keeps_must keeps_or_fail : frames.

(** Proves a frame by following the code, with the callees' frames as hints. *)
Ltac frame :=
  repeat first
    [ solve [auto with frames nocore]
    | apply keeps_bind; [|intros ?]
    | apply keeps_modify; intros ?; reflexivity
    | apply keeps_on_err; [|intros ?]
    | apply keeps_attempt
    | apply keeps_zoom; intros ? ?; reflexivity
    | match goal with |- keeps _ (match ?x with _ => _ end) => destruct x end ].

(** ** Sums over finite maps *)
Section MapSum.
Context {K V : Type} `{Countable K}.
Implicit Types (m : gmap K V) (f g : K -> V -> Z).

Definition map_sum f m : Z := map_fold (fun k v acc => f k v + acc) 0 m.

Lemma map_sum_empty f : map_sum f ∅ = 0.
Proof. apply map_fold_empty. Qed.

Lemma map_sum_insert_fresh f m k v :
  m !! k = None -> map_sum f (<[k:=v]> m) = f k v + map_sum f m.
Proof.
  intros Hk. unfold map_sum.
  rewrite (map_fold_insert_L _ 0 k v m); [done| |done]. intros; lia.
Qed.

Lemma map_sum_delete f m k v :
  m !! k = Some v -> map_sum f m = f k v + map_sum f (delete k m).
Proof.
  intros Hk. rewrite <- (insert_delete_id m k v Hk) at 1.
  apply map_sum_insert_fresh, lookup_delete_eq.
Qed.

(** The contribution of key [k]. *)
Definition contrib f m k : Z := match m !! k with Some v => f k v | None => 0 end.

Lemma map_sum_delete_contrib f m k :
  map_sum f (delete k m) = map_sum f m - contrib f m k.
Proof.
  unfold contrib. destruct (m !! k) as [v|] eqn:E.
  - rewrite (map_sum_delete f m k v E). lia.
  - rewrite delete_id by done. lia.
Qed.

Lemma map_sum_insert f m k v :
  map_sum f (<[k:=v]> m) = f k v + map_sum f m - contrib f m k.
Proof.
  rewrite <- insert_delete_eq, map_sum_insert_fresh by apply lookup_delete_eq.
  rewrite map_sum_delete_contrib. lia.
Qed.

Lemma map_sum_ext f g m :
  (forall k v, m !! k = Some v -> f k v = g k v) -> map_sum f m = map_sum g m.
Proof.
  induction m as [|k v m Hk IH] using map_ind; intros Hfg; [done|].
  rewrite !map_sum_insert_fresh by done. rewrite Hfg by apply lookup_insert_eq.
  rewrite IH; [done|]. intros k' v' Hk'. apply Hfg.
  rewrite lookup_insert_ne by congruence. done.
Qed.

Lemma map_sum_zero f m :
  (forall k v, m !! k = Some v -> f k v = 0) -> map_sum f m = 0.
Proof.
  intros Hf. rewrite (map_sum_ext f (fun _ _ => 0)) by done. clear Hf.
  induction m as [|k v m Hk IH] using map_ind; [done|].
  rewrite map_sum_insert_fresh by done. lia.
Qed.

Lemma map_sum_add f g m :
  map_sum (fun k v => f k v + g k v) m = map_sum f m + map_sum g m.
Proof.
  induction m as [|k v m Hk IH] using map_ind; [done|].
  rewrite !map_sum_insert_fresh by done. lia.
Qed.

Lemma map_sum_opp f m : map_sum (fun k v => - f k v) m = - map_sum f m.
Proof.
  induction m as [|k v m Hk IH] using map_ind; [done|].
  rewrite !map_sum_insert_fresh by done. lia.
Qed.

Lemma map_sum_mul f m c : map_sum (fun k v => f k v * c) m = map_sum f m * c.
Proof.
  induction m as [|k v m Hk IH] using map_ind; [done|].
  rewrite !map_sum_insert_fresh by done. lia.
Qed.

Lemma map_sum_nonneg f m :
  (forall k v, m !! k = Some v -> 0 <= f k v) -> 0 <= map_sum f m.
Proof.
  induction m as [|k v m Hk IH] using map_ind; intros Hf; [done|].
  rewrite map_sum_insert_fresh by done.
  pose proof (Hf k v (lookup_insert_eq _ _ _)).
  enough (0 <= map_sum f m) by lia. apply IH. intros k' v' Hk'. apply Hf.
  rewrite lookup_insert_ne by congruence. done.
Qed.
End MapSum.

Lemma map_sum_swap {V W} `{Countable K} `{Countable L} (f : K -> V -> L -> W -> Z)
    (m : gmap K V) (n : gmap L W) :
  map_sum (fun k v => map_sum (f k v) n) m =
  map_sum (fun l w => map_sum (fun k v => f k v l w) m) n.
Proof.
  induction m as [|k v m Hk IH] using map_ind.
  - rewrite map_sum_empty. symmetry. apply map_sum_zero. intros. apply map_sum_empty.
  - rewrite map_sum_insert_fresh, IH, <- map_sum_add by done.
    apply map_sum_ext. intros l w _. by rewrite map_sum_insert_fresh.
Qed.


(** Summing a list of integers. *)
Definition zsum {A} (f : A -> Z) (l : list A) : Z := foldr (fun x acc => f x + acc) 0 l.

Lemma zsum_app {A} (f : A -> Z) l1 l2 : zsum f (l1 ++ l2) = zsum f l1 + zsum f l2.
Proof. induction l1 as [|x l1 IH]; simpl; [done|]. unfold zsum in *; simpl; lia. Qed.

Lemma zsum_perm {A} (f : A -> Z) l1 l2 : l1 ≡ₚ l2 -> zsum f l1 = zsum f l2.
Proof. induction 1; unfold zsum in *; simpl; lia. Qed.

#[global] Instance zsum_proper {A} (f : A -> Z) : Proper ((≡ₚ) ==> eq) (zsum f).
Proof. intros l1 l2. apply zsum_perm. Qed.

Lemma zsum_map_to_list {V} `{Countable K} (g : K * V -> Z) (m : gmap K V) :
  zsum g (map_to_list m) = map_sum (fun k v => g (k, v)) m.
Proof.
  induction m as [|k v m Hk IH] using map_ind.
  - by rewrite map_to_list_empty.
  - rewrite map_sum_insert_fresh, map_to_list_insert by done.
    unfold zsum in *; simpl. by rewrite IH.
Qed.

(** ** Sorted lists *)

Lemma StronglySorted_filter {A} (R : relation A) (P : A -> Prop) `{!forall x, Decision (P x)} l :
  StronglySorted R l -> StronglySorted R (filter P l).
Proof.
  induction 1 as [|x l Hs IH Hall]; [constructor|]. rewrite filter_cons.
  case_decide; [|done]. constructor; [done|].
  apply Forall_forall. intros y [_ Hy]%list_elem_of_filter.
  rewrite Forall_forall in Hall. auto.
Qed.

Lemma last_sorted_max {A} (R : relation A) l x y :
  StronglySorted R l -> last l = Some x -> y ∈ l -> R y x \/ y = x.
Proof.
  induction 1 as [|z l Hs IH Hall]; intros Hlast Hin; [by apply not_elem_of_nil in Hin|].
  destruct l as [|w l].
  - simpl in Hlast. set_solver.
  - rewrite last_cons_cons in Hlast. apply elem_of_cons in Hin as [->|Hin].
    + left. rewrite Forall_forall in Hall. apply Hall.
      rewrite last_Some in Hlast. destruct Hlast as [l' ->]. set_solver.
    + by apply IH.
Qed.

(** ** Ordered iteration

    An iterator over a store prefix visits the keys present when it is
    opened, in key order. *)
Section Iterate.
Context {K V : Type} `{Countable K} (leb : K -> K -> bool).
Implicit Types (m : gmap K V).

Definition key_le (a b : K * V) : Prop := leb a.1 b.1 = true.

#[global] Instance key_le_dec : RelDecision key_le.
Proof. intros a b. unfold key_le. apply _. Defined.

Definition iterate m : list (K * V) := merge_sort key_le (map_to_list m).

Lemma iterate_perm m : iterate m ≡ₚ map_to_list m.
Proof. apply merge_sort_Permutation. Qed.

Lemma elem_of_iterate m k v : (k, v) ∈ iterate m <-> m !! k = Some v.
Proof. rewrite iterate_perm. apply elem_of_map_to_list. Qed.

Lemma iterate_NoDup m : NoDup (iterate m).*1.
Proof. rewrite iterate_perm. apply NoDup_fst_map_to_list. Qed.

Context (leb_total : forall a b, leb a b = true \/ leb b a = true).
Context (leb_trans : forall a b c, leb a b = true -> leb b c = true -> leb a c = true).

Lemma iterate_sorted m : StronglySorted key_le (iterate m).
Proof.
  apply StronglySorted_merge_sort.
  - intros a b c. unfold key_le. eauto.
  - intros a b. unfold key_le. auto.
Qed.
End Iterate.

(** Inserting the entries of an iterator one by one rebuilds the map. *)
Lemma foldl_insert_list {K V} `{Countable K} (l : list (K * V)) (acc : gmap K V) :
  foldl (fun acc e => <[e.1 := e.2]> acc) acc l = list_to_map (reverse l) ∪ acc.
Proof.
  revert acc. induction l as [|[k v] l IH]; intros acc; simpl.
  - by rewrite (left_id_L ∅ (∪)).
  - rewrite IH, reverse_cons, list_to_map_app. simpl.
    rewrite <- (assoc_L (∪)). f_equal. by rewrite insert_empty, <- insert_union_singleton_l.
Qed.

Lemma foldl_insert_iterate {K V} `{Countable K} leb (m : gmap K V) :
  foldl (fun acc e => <[e.1 := e.2]> acc) ∅ (iterate leb m) = m.
Proof.
  rewrite foldl_insert_list, (right_id_L ∅ (∪)).
  rewrite <- (list_to_map_to_list m) at 2. apply list_to_map_proper.
  - rewrite fmap_reverse. rewrite reverse_Permutation; apply iterate_NoDup.
  - by rewrite reverse_Permutation, iterate_perm.
Qed.
