(* ===== verification/Bytes.v ===== *)
(** * Bytes and sequences

    Big-endian byte strings, their order and their values, shared by the
    store keys of the modules, and the id sequences of
    [internal/sequence/sequence.go]. *)

From S2P Require Import Prelude.

(** ** Big-endian bytes *)

(** [binary.BigEndian.PutUint64] for [n = 8]; the bytes of an address for
    [n = 20]. *)
Fixpoint be_bytes (n : nat) (x : Z) : list Z :=
  match n with
  | O => []
  | S n' => Z.land (Z.shiftr x (8 * Z.of_nat n')) 255 :: be_bytes n' x
  end.

(** [binary.BigEndian.Uint64] *)
Definition be_val (l : list Z) : Z := foldl (fun acc b => acc * 256 + b) 0 l.

(** [bytes.Compare(a, b) <= 0] *)
Fixpoint bytes_leb (l1 l2 : list Z) : bool :=
  match l1, l2 with
  | [], _ => true
  | _ :: _, [] => false
  | b1 :: l1', b2 :: l2' => (b1 <? b2) || ((b1 =? b2) && bytes_leb l1' l2')
  end.

Lemma byte_at x n : Z.land (Z.shiftr x (8 * Z.of_nat n)) 255 = (x / 256 ^ Z.of_nat n) mod 256.
Proof.
  change 255 with (Z.ones 8). rewrite Z.land_ones, Z.shiftr_div_pow2 by lia.
  rewrite Z.pow_mul_r by lia. done.
Qed.

Lemma pow_succ n : 256 ^ Z.of_nat (S n) = 256 ^ Z.of_nat n * 256.
Proof. rewrite Nat2Z.inj_succ, Z.pow_succ_r by lia. lia. Qed.

Lemma pow_pos n : 0 < 256 ^ Z.of_nat n.
Proof. apply Z.pow_pos_nonneg; lia. Qed.

Lemma be_bytes_length n x : length (be_bytes n x) = n.
Proof. induction n; simpl; congruence. Qed.

(** The low bytes depend on the low part of the number. *)
Lemma be_bytes_mod n x y :
  x mod 256 ^ Z.of_nat n = y mod 256 ^ Z.of_nat n -> be_bytes n x = be_bytes n y.
Proof.
  induction n as [|n IH]; intros Heq; [done|]. cbn [be_bytes]. rewrite !byte_at.
  rewrite pow_succ in Heq. pose proof (pow_pos n).
  rewrite !Z.rem_mul_r in Heq by lia.
  pose proof (Z.mod_pos_bound x (256 ^ Z.of_nat n) ltac:(lia)).
  pose proof (Z.mod_pos_bound y (256 ^ Z.of_nat n) ltac:(lia)).
  pose proof (Z.mod_pos_bound (x / 256 ^ Z.of_nat n) 256 ltac:(lia)).
  pose proof (Z.mod_pos_bound (y / 256 ^ Z.of_nat n) 256 ltac:(lia)).
  assert ((x / 256 ^ Z.of_nat n) mod 256 = (y / 256 ^ Z.of_nat n) mod 256) as Hhi.
  { destruct (Z.lt_trichotomy ((x / 256 ^ Z.of_nat n) mod 256) ((y / 256 ^ Z.of_nat n) mod 256))
      as [?|[?|?]]; [nia|done|nia]. }
  rewrite Hhi in *. rewrite IH; [done|lia].
Qed.

Lemma be_val_acc acc l :
  foldl (fun acc b => acc * 256 + b) acc l = acc * 256 ^ Z.of_nat (length l) + be_val l.
Proof.
  unfold be_val. revert acc. induction l as [|b l IH]; intros acc; cbn [foldl length].
  - simpl. lia.
  - rewrite (IH (acc * 256 + b)), (IH (0 * 256 + b)), pow_succ. lia.
Qed.

Lemma be_val_bytes n x : be_val (be_bytes n x) = x mod 256 ^ Z.of_nat n.
Proof.
  induction n as [|n IH]; cbn [be_bytes].
  - simpl. by rewrite Z.mod_1_r.
  - unfold be_val. cbn [foldl]. rewrite be_val_acc, be_bytes_length, IH, byte_at, pow_succ.
    pose proof (pow_pos n). rewrite Z.rem_mul_r by lia. lia.
Qed.

(** Fixed-width big-endian prefixes compare as the numbers do. *)
Lemma be_bytes_leb n x y l1 l2 :
  0 <= x < 256 ^ Z.of_nat n -> 0 <= y < 256 ^ Z.of_nat n ->
  bytes_leb (be_bytes n x ++ l1) (be_bytes n y ++ l2) =
  (x <? y) || ((x =? y) && bytes_leb l1 l2).
Proof.
  revert x y. induction n as [|n IH]; intros x y Hx Hy.
  { simpl in *. replace x with 0 by lia. replace y with 0 by lia. done. }
  pose proof (pow_pos n) as Hp. rewrite pow_succ in Hx, Hy.
  cbn [be_bytes app bytes_leb]. rewrite !byte_at.
  set (p := 256 ^ Z.of_nat n) in *.
  pose proof (Z.div_mod x p ltac:(lia)) as Dx. pose proof (Z.div_mod y p ltac:(lia)) as Dy.
  pose proof (Z.mod_pos_bound x p Hp) as Bx. pose proof (Z.mod_pos_bound y p Hp) as By.
  assert (0 <= x / p < 256) as Qx by (split; [apply Z.div_pos|apply Z.div_lt_upper_bound]; lia).
  assert (0 <= y / p < 256) as Qy by (split; [apply Z.div_pos|apply Z.div_lt_upper_bound]; lia).
  rewrite (Z.mod_small (x / p)), (Z.mod_small (y / p)) by lia.
  rewrite (be_bytes_mod n x (x mod p)), (be_bytes_mod n y (y mod p))
    by (fold p; rewrite Z.mod_mod by lia; done).
  rewrite (IH (x mod p) (y mod p)) by done. clear IH.
  destruct (bytes_leb l1 l2); rewrite ?andb_true_r, ?andb_false_r, ?orb_false_r; nia.
Qed.

(** ** Minimal big-endian bytes *)

Definition nbytes (x : Z) : nat := if x <=? 0 then 0%nat else Z.to_nat (Z.log2 x / 8 + 1).

(** [big.Int.Bytes] of a non-negative number: no leading zero byte. *)
Definition big_bytes (x : Z) : list Z := be_bytes (nbytes x) x.

Lemma nbytes_bound x : 0 <= x -> x < 256 ^ Z.of_nat (nbytes x).
Proof.
  intros Hx. unfold nbytes. destruct (Z.leb_spec x 0); [simpl; lia|].
  pose proof (Z.log2_spec x ltac:(lia)) as [_ Hlog]. pose proof (Z.log2_nonneg x).
  rewrite Z2Nat.id by (pose proof (Z.div_pos (Z.log2 x) 8); lia).
  change 256 with (2 ^ 8). rewrite <- Z.pow_mul_r by (pose proof (Z.div_pos (Z.log2 x) 8); lia).
  eapply Z.lt_le_trans; [exact Hlog|]. apply Z.pow_le_mono_r; [lia|].
  pose proof (Z.mul_succ_div_gt (Z.log2 x) 8). lia.
Qed.

Lemma be_val_big x : 0 <= x -> be_val (big_bytes x) = x.
Proof.
  intros Hx. unfold big_bytes. rewrite be_val_bytes. apply Z.mod_small.
  pose proof (nbytes_bound x Hx). lia.
Qed.

Lemma big_bytes_inj x y : 0 <= x -> 0 <= y -> big_bytes x = big_bytes y -> x = y.
Proof. intros Hx Hy Heq. by rewrite <- (be_val_big x), <- (be_val_big y), Heq. Qed.

(** ** Sequences *)

(** The two instances of the type parameter [Number]. *)
Inductive Number : Type := Uint32 | Uint256.

Definition number_bound (k : Number) : Z :=
  match k with Uint32 => 2 ^ 32 | Uint256 => 2 ^ 256 end.

Definition EncodedSeqLength : nat := 4.

Definition EncodeSequence (k : Number) (t : Z) : list Z :=
  match k with
  | Uint256 => big_bytes t
  | Uint32 => be_bytes EncodedSeqLength t
  end.

(** [binary.BigEndian.Uint32] reads four bytes; the cell holds what
    [EncodeSequence] wrote. *)
Definition DecodeSequence (k : Number) (bz : option (list Z)) : Z :=
  match bz with
  | None => 0
  | Some l => match k with
              | Uint256 => be_val l
              | Uint32 => be_val (take EncodedSeqLength l)
              end
  end.

(** [math.Uint.Incr] panics past 256 bits ([None]); [uint32] wraps around. *)
Definition IncreaseSequence (k : Number) (t : Z) : option Z :=
  match k with
  | Uint256 => if t + 1 <? 2 ^ 256 then Some (t + 1) else None
  | Uint32 => Some ((t + 1) mod 2 ^ 32)
  end.

(** The next value and the new content of the sequence's cell. *)
Definition NextVal (k : Number) (cell : option (list Z)) : option (Z * list Z) :=
  match IncreaseSequence k (DecodeSequence k cell) with
  | None => None
  | Some seq => Some (seq, EncodeSequence k seq)
  end.

Definition CurVal (k : Number) (cell : option (list Z)) : Z := DecodeSequence k cell.

(** [None] is [ErrSequenceUniqueConstraint]. *)
Definition InitVal (k : Number) (cell : option (list Z)) (seq : Z) : option (list Z) :=
  match cell with
  | Some _ => None
  | None => Some (EncodeSequence k seq)
  end.

Lemma sequence_codec k t :
  0 <= t < number_bound k -> DecodeSequence k (Some (EncodeSequence k t)) = t.
Proof.
  intros Ht. destruct k; cbn [DecodeSequence EncodeSequence number_bound] in *.
  - rewrite take_ge by (by rewrite be_bytes_length). rewrite be_val_bytes. by apply Z.mod_small.
  - apply be_val_big. lia.
Qed.

(** A sequence counts: the next value is one more than the current one, until
    the type's bound, where the 256-bit one panics and the 32-bit one starts
    again at zero. *)
Lemma NextVal_counts k cell :
  0 <= CurVal k cell < number_bound k ->
  if CurVal k cell + 1 <? number_bound k
  then exists cell', NextVal k cell = Some (CurVal k cell + 1, cell') /\
                     CurVal k (Some cell') = CurVal k cell + 1
  else match k with
       | Uint256 => NextVal k cell = None
       | Uint32 => exists cell', NextVal k cell = Some (0, cell') /\ CurVal k (Some cell') = 0
       end.
Proof.
  unfold CurVal, NextVal. intros Hcur. set (t := DecodeSequence k cell) in *.
  destruct (Z.ltb_spec (t + 1) (number_bound k)).
  - exists (EncodeSequence k (t + 1)). split; [|apply sequence_codec; lia].
    destruct k; cbn [IncreaseSequence number_bound] in *.
    + by rewrite Z.mod_small by lia.
    + by rewrite (proj2 (Z.ltb_lt _ _)).
  - destruct k; cbn [IncreaseSequence number_bound] in *.
    + replace (t + 1) with (2 ^ 32) by lia. eexists. split; [done|]. by apply sequence_codec.
    + by rewrite (proj2 (Z.ltb_ge _ _)).
Qed.

(** A 32-bit sequence that has not reached its end. *)
Lemma next_id c id cell :
  NextVal Uint32 c = Some (id, cell) -> 0 <= CurVal Uint32 c -> CurVal Uint32 c + 1 < two32 ->
  id = CurVal Uint32 c + 1 /\ CurVal Uint32 (Some cell) = id.
Proof.
  unfold two32. intros Hn H0 H1. pose proof (NextVal_counts Uint32 c) as Hc. simpl in Hc.
  specialize (Hc ltac:(lia)).
  rewrite (proj2 (Z.ltb_lt _ _)) in Hc by lia. destruct Hc as (cell' & Heq & Hcur).
  rewrite Heq in Hn. injection Hn as <- <-. done.
Qed.
