(* ===== verification/Sdk.v ===== *)
(** * The Cosmos SDK the modules call

    Interfaces of the SDK's address functions and of its bank and account
    keepers, with the laws the modules rely on, and the coins they move.  An
    address ([sdk.AccAddress], 20 bytes) is the integer its bytes spell, so
    byte order is integer order. *)

From S2P Require Import Prelude.

Abbreviation Addr := Z (only parsing).
Abbreviation Coins := (list (string * Z)) (only parsing).

(** ** Text *)

(** ASCII white space, what [strings.TrimSpace] strips. *)
Definition is_space (c : Ascii.ascii) : bool :=
  match Ascii.nat_of_ascii c with
  | 9%nat | 10%nat | 11%nat | 12%nat | 13%nat | 32%nat => true
  | _ => false
  end.

Definition is_blank (s : string) : bool := forallb is_space (String.list_ascii_of_string s).

(** ** Addresses, coins and the bank *)

(** Constants and address functions of the SDK. *)
Class Addresses : Type := {
  AccAddress_String : Addr -> string;
  AccAddressFromHexUnsafe : string -> option Addr;
  GovernanceAddress : Addr;
  ModuleAddress : string -> Addr;
  AddressDerive : Addr -> list Z -> Addr;
}.

Class AddressLaws `{Addresses} : Prop := {
  AccAddressFromHex_String : forall a, AccAddressFromHexUnsafe (AccAddress_String a) = Some a;
}.

Lemma AccAddress_String_inj `{AddressLaws} a b :
  AccAddress_String a = AccAddress_String b -> a = b.
Proof.
  intros Heq. pose proof (AccAddressFromHex_String a) as Ha. rewrite Heq in Ha.
  rewrite AccAddressFromHex_String in Ha. congruence.
Qed.

(** The bank and account keepers over a state [B].  A failed transfer
    ([None]) leaves the balances as they were. *)
Class BankKeeper (B : Type) : Type := {
  HasAccount : B -> Addr -> bool;
  GetBalance : B -> Addr -> string -> Z;
  SendCoinsFromAccountToModule : B -> Addr -> string -> Coins -> option B;
  SendCoinsFromModuleToAccount : B -> string -> Addr -> Coins -> option B;
  SendCoinsFromModuleToModule : B -> string -> string -> Coins -> option B;
  SendCoins : B -> Addr -> Addr -> Coins -> option B;
}.

(** [coins.AmountOf(denom)] *)
Definition AmountOf (denom : string) (cs : Coins) : Z :=
  zsum (fun c => if decide (c.1 = denom) then c.2 else 0) cs.

(** [sdk.NewCoins(sdk.NewCoin(denom, amount))]: a negative amount panics, a
    zero coin is dropped. *)
Definition NewCoins (denom : string) (amount : Z) : option Coins :=
  if amount <? 0 then None
  else if amount =? 0 then Some [] else Some [(denom, amount)].

Lemma NewCoins_nonneg d x cs : NewCoins d x = Some cs -> 0 <= x /\ AmountOf d cs = x.
Proof.
  unfold NewCoins, AmountOf, zsum. destruct (Z.ltb_spec x 0); [done|]. intros Hc.
  destruct (Z.eqb_spec x 0) as [->|]; injection Hc as <-; simpl; [done|].
  rewrite decide_True by done. lia.
Qed.

Lemma AmountOf_NewCoins denom x cs d :
  NewCoins denom x = Some cs -> AmountOf d cs = if decide (d = denom) then x else 0.
Proof.
  unfold NewCoins, AmountOf, zsum. destruct (Z.ltb_spec x 0); [done|].
  destruct (Z.eqb_spec x 0) as [->|]; intros [= <-]; simpl; [by case_decide|].
  repeat case_decide; try congruence; lia.
Qed.

(** A transfer moves the coins from the sender to the recipient and touches
    no other balance. *)
Definition moves {B} `{BankKeeper B} (b b' : B) (src dst : Addr) (cs : Coins) : Prop :=
  forall a d, GetBalance b' a d =
    GetBalance b a d - (if decide (a = src) then AmountOf d cs else 0)
                     + (if decide (a = dst) then AmountOf d cs else 0).

Class BankLaws (B : Type) `{BankKeeper B} `{Addresses} : Prop := {
  send_a2m : forall b a m cs b', SendCoinsFromAccountToModule b a m cs = Some b' ->
    moves b b' a (ModuleAddress m) cs;
  send_m2a : forall b m a cs b', SendCoinsFromModuleToAccount b m a cs = Some b' ->
    moves b b' (ModuleAddress m) a cs;
  send_m2m : forall b m n cs b', SendCoinsFromModuleToModule b m n cs = Some b' ->
    moves b b' (ModuleAddress m) (ModuleAddress n) cs;
  send_a2a : forall b a a' cs b', SendCoins b a a' cs = Some b' -> moves b b' a a' cs;
}.
