(* ===== verification/PaymentTypes.v ===== *)
(** * x/payment: data model, parameters and external keepers

    The types of [x/payment/types]: stream records, their changes, out flows,
    payment accounts, delayed withdrawals and the module parameters, with the
    state of the module ([State], one field per store prefix).

    An address ([sdk.AccAddress], 20 bytes) is the integer its bytes spell,
    so byte order is integer order; its hexadecimal text, where the code
    stores text, is the same integer.  An amount ([sdkmath.Int]) is an
    integer.  A nil [sdkmath.Int] is encoded as 0 when the record is stored
    and no code path reads [FrozenNetflowRate] before that, so nil is 0. *)

From S2P Require Import Prelude Sdk.

(** ** Status enumerations *)

Inductive StreamAccountStatus : Type :=
| STREAM_ACCOUNT_STATUS_ACTIVE
| STREAM_ACCOUNT_STATUS_FROZEN.

Inductive OutFlowStatus : Type :=
| OUT_FLOW_STATUS_ACTIVE
| OUT_FLOW_STATUS_FROZEN.

#[global] Instance StreamAccountStatus_eq_dec : EqDecision StreamAccountStatus.
Proof. solve_decision. Defined.
#[global] Instance OutFlowStatus_eq_dec : EqDecision OutFlowStatus.
Proof. solve_decision. Defined.

(** The status byte of an out flow key. *)
Definition status_code (st : OutFlowStatus) : Z :=
  match st with OUT_FLOW_STATUS_ACTIVE => 0 | OUT_FLOW_STATUS_FROZEN => 1 end.

#[global] Instance OutFlowStatus_countable : Countable OutFlowStatus.
Proof.
  refine (inj_countable' status_code
    (fun c => if c =? 0 then OUT_FLOW_STATUS_ACTIVE else OUT_FLOW_STATUS_FROZEN) _).
  by intros [].
Defined.

Definition is_frozen (st : StreamAccountStatus) : bool :=
  match st with STREAM_ACCOUNT_STATUS_FROZEN => true | _ => false end.

(** ** Stream records *)

Record StreamRecord : Type := mkStreamRecord {
  Account : Addr;
  CrudTimestamp : Z;
  NetflowRate : Z;
  StaticBalance : Z;
  BufferBalance : Z;
  LockBalance : Z;
  Status : StreamAccountStatus;
  SettleTimestamp : Z;
  OutFlowCount : Z;
  FrozenNetflowRate : Z;
}.

Definition set_account (a : Addr) (r : StreamRecord) : StreamRecord :=
  mkStreamRecord a (CrudTimestamp r) (NetflowRate r) (StaticBalance r) (BufferBalance r)
    (LockBalance r) (Status r) (SettleTimestamp r) (OutFlowCount r) (FrozenNetflowRate r).
Definition set_crud (t : Z) (r : StreamRecord) : StreamRecord :=
  mkStreamRecord (Account r) t (NetflowRate r) (StaticBalance r) (BufferBalance r)
    (LockBalance r) (Status r) (SettleTimestamp r) (OutFlowCount r) (FrozenNetflowRate r).
Definition set_rate (v : Z) (r : StreamRecord) : StreamRecord :=
  mkStreamRecord (Account r) (CrudTimestamp r) v (StaticBalance r) (BufferBalance r)
    (LockBalance r) (Status r) (SettleTimestamp r) (OutFlowCount r) (FrozenNetflowRate r).
Definition set_static (v : Z) (r : StreamRecord) : StreamRecord :=
  mkStreamRecord (Account r) (CrudTimestamp r) (NetflowRate r) v (BufferBalance r)
    (LockBalance r) (Status r) (SettleTimestamp r) (OutFlowCount r) (FrozenNetflowRate r).
Definition set_buffer (v : Z) (r : StreamRecord) : StreamRecord :=
  mkStreamRecord (Account r) (CrudTimestamp r) (NetflowRate r) (StaticBalance r) v
    (LockBalance r) (Status r) (SettleTimestamp r) (OutFlowCount r) (FrozenNetflowRate r).
Definition set_lock (v : Z) (r : StreamRecord) : StreamRecord :=
  mkStreamRecord (Account r) (CrudTimestamp r) (NetflowRate r) (StaticBalance r) (BufferBalance r)
    v (Status r) (SettleTimestamp r) (OutFlowCount r) (FrozenNetflowRate r).
Definition set_status (v : StreamAccountStatus) (r : StreamRecord) : StreamRecord :=
  mkStreamRecord (Account r) (CrudTimestamp r) (NetflowRate r) (StaticBalance r) (BufferBalance r)
    (LockBalance r) v (SettleTimestamp r) (OutFlowCount r) (FrozenNetflowRate r).
Definition set_settle (v : Z) (r : StreamRecord) : StreamRecord :=
  mkStreamRecord (Account r) (CrudTimestamp r) (NetflowRate r) (StaticBalance r) (BufferBalance r)
    (LockBalance r) (Status r) v (OutFlowCount r) (FrozenNetflowRate r).
Definition set_count (v : Z) (r : StreamRecord) : StreamRecord :=
  mkStreamRecord (Account r) (CrudTimestamp r) (NetflowRate r) (StaticBalance r) (BufferBalance r)
    (LockBalance r) (Status r) (SettleTimestamp r) v (FrozenNetflowRate r).
Definition set_frozen (v : Z) (r : StreamRecord) : StreamRecord :=
  mkStreamRecord (Account r) (CrudTimestamp r) (NetflowRate r) (StaticBalance r) (BufferBalance r)
    (LockBalance r) (Status r) (SettleTimestamp r) (OutFlowCount r) v.

Definition NewStreamRecord (account : Addr) (crudTimestamp : Z) : StreamRecord :=
  {| Account := account; CrudTimestamp := crudTimestamp;
     NetflowRate := 0; StaticBalance := 0; BufferBalance := 0; LockBalance := 0;
     Status := STREAM_ACCOUNT_STATUS_ACTIVE; SettleTimestamp := 0;
     OutFlowCount := 0; FrozenNetflowRate := 0 |}.

(** Everything the record holds on behalf of its account. *)
Definition holdings (r : StreamRecord) : Z :=
  StaticBalance r + BufferBalance r + LockBalance r.

Record StreamRecordChange : Type := mkChange {
  ChangeAddr : Addr;
  RateChange : Z;
  StaticBalanceChange : Z;
  LockBalanceChange : Z;
  FrozenRateChange : Z;
}.

Definition NewDefaultStreamRecordChangeWithAddr (addr : Addr) : StreamRecordChange :=
  mkChange addr 0 0 0 0.
Definition WithRateChange (v : Z) (c : StreamRecordChange) : StreamRecordChange :=
  mkChange (ChangeAddr c) v (StaticBalanceChange c) (LockBalanceChange c) (FrozenRateChange c).
Definition WithStaticBalanceChange (v : Z) (c : StreamRecordChange) : StreamRecordChange :=
  mkChange (ChangeAddr c) (RateChange c) v (LockBalanceChange c) (FrozenRateChange c).
Definition WithLockBalanceChange (v : Z) (c : StreamRecordChange) : StreamRecordChange :=
  mkChange (ChangeAddr c) (RateChange c) (StaticBalanceChange c) v (FrozenRateChange c).
Definition WithFrozenRateChange (v : Z) (c : StreamRecordChange) : StreamRecordChange :=
  mkChange (ChangeAddr c) (RateChange c) (StaticBalanceChange c) (LockBalanceChange c) v.

(** ** Out flows, accounts, delayed withdrawals *)

Record OutFlow : Type := mkOutFlow {
  ToAddress : Addr;
  Rate : Z;
  FlowStatus : OutFlowStatus;
}.

Record UserFlows : Type := mkUserFlows { From : Addr; Flows : list OutFlow }.

(** The owner is the text of the message that created the account. *)
Record PaymentAccount : Type := mkPaymentAccount { Owner : string; Refundable : bool }.

Record DelayedWithdrawalRecord : Type := mkDelayed {
  DelayedAmount : Z;
  DelayedFrom : Addr;
  UnlockTimestamp : Z;
}.

(** ** Parameters

    A [LegacyDec] is its integer numerator over 10^18; [None] is nil. *)

Record VersionedParams : Type := mkVersionedParams {
  ReserveTime : Z;
  ValidatorTaxRate : option Z;
}.

Record Params : Type := mkParams {
  Versioned : VersionedParams;
  ForcedSettleTime : Z;
  PaymentAccountCountLimit : Z;
  MaxAutoSettleFlowCount : Z;
  MaxAutoResumeFlowCount : Z;
  FeeDenom : string;
  WithdrawTimeLockThreshold : option Z;
  WithdrawTimeLockDuration : Z;
}.

Definition one_dec : Z := 10 ^ 18.

Definition NewParams (reserveTime : Z) (validatorTaxRate : option Z)
    (forcedSettleTime paymentAccountCountLimit maxAutoSettleFlowCount
     maxAutoResumeFlowCount : Z) (feeDenom : string)
    (withdrawTimeLockThreshold withdrawTimeLockDuration : Z) : Params :=
  {| Versioned := mkVersionedParams reserveTime validatorTaxRate;
     ForcedSettleTime := forcedSettleTime;
     PaymentAccountCountLimit := paymentAccountCountLimit;
     MaxAutoSettleFlowCount := maxAutoSettleFlowCount;
     MaxAutoResumeFlowCount := maxAutoResumeFlowCount;
     FeeDenom := feeDenom;
     WithdrawTimeLockThreshold := Some withdrawTimeLockThreshold;
     WithdrawTimeLockDuration := withdrawTimeLockDuration |}.

Definition DefaultReserveTime : Z := 180 * 24 * 60 * 60.
Definition DefaultForcedSettleTime : Z := 24 * 60 * 60.
Definition DefaultWithdrawTimeLockThreshold : Z := 10 ^ 18 * 100.
Definition DefaultWithdrawTimeLockDuration : Z := 24 * 60 * 60.

Definition DefaultParams : Params :=
  NewParams DefaultReserveTime (Some (10 ^ 16)) DefaultForcedSettleTime 200 100 100
    "amoca" DefaultWithdrawTimeLockThreshold DefaultWithdrawTimeLockDuration.

(** The zero value [GetParams] returns from an empty store. *)
Definition zero_params : Params :=
  {| Versioned := mkVersionedParams 0 None; ForcedSettleTime := 0;
     PaymentAccountCountLimit := 0; MaxAutoSettleFlowCount := 0;
     MaxAutoResumeFlowCount := 0; FeeDenom := EmptyString; WithdrawTimeLockThreshold := None;
     WithdrawTimeLockDuration := 0 |}.

Definition validateReserveTime (v : Z) : bool := negb (v <=? 0).
Definition validateForcedSettleTime (v : Z) : bool := negb (v <=? 0).
Definition validatePaymentAccountCountLimit (v : Z) : bool := negb (v <=? 0).
Definition validateMaxAutoSettleFlowCount (v : Z) : bool := negb (v <=? 0).
Definition validateMaxAutoResumeFlowCount (v : Z) : bool := negb (v <=? 0).
Definition validateFeeDenom (v : string) : bool := negb (is_blank v).
Definition validateValidatorTaxRate (v : option Z) : bool :=
  match v with
  | None => false
  | Some d => negb ((d <? 0) || (one_dec <? d))
  end.
Definition validateWithdrawTimeLockThreshold (v : option Z) : bool :=
  match v with
  | None => true
  | Some d => 0 <? d
  end.
Definition validateWithdrawTimeLockDuration (v : Z) : bool := true.

(** [Params.Validate]: [true] is the nil error. *)
Definition Validate (p : Params) : bool :=
  validateReserveTime (ReserveTime (Versioned p)) &&
  validateValidatorTaxRate (ValidatorTaxRate (Versioned p)) &&
  validateForcedSettleTime (ForcedSettleTime p) &&
  validatePaymentAccountCountLimit (PaymentAccountCountLimit p) &&
  validateMaxAutoSettleFlowCount (MaxAutoSettleFlowCount p) &&
  validateMaxAutoResumeFlowCount (MaxAutoResumeFlowCount p) &&
  validateFeeDenom (FeeDenom p) &&
  validateWithdrawTimeLockThreshold (WithdrawTimeLockThreshold p) &&
  validateWithdrawTimeLockDuration (WithdrawTimeLockDuration p) &&
  negb (ReserveTime (Versioned p) <=? ForcedSettleTime p).

(** [MigrateStore]: the v1 parameters keep their values and receive the
    default withdrawal time lock. *)
Record ParamsV1 : Type := mkParamsV1 {
  v1_Versioned : VersionedParams;
  v1_ForcedSettleTime : Z;
  v1_PaymentAccountCountLimit : Z;
  v1_MaxAutoSettleFlowCount : Z;
  v1_MaxAutoResumeFlowCount : Z;
  v1_FeeDenom : string;
}.

Definition MigrateStore (old : ParamsV1) : Params :=
  NewParams (ReserveTime (v1_Versioned old)) (ValidatorTaxRate (v1_Versioned old))
    (v1_ForcedSettleTime old) (v1_PaymentAccountCountLimit old)
    (v1_MaxAutoSettleFlowCount old) (v1_MaxAutoResumeFlowCount old) (v1_FeeDenom old)
    DefaultWithdrawTimeLockThreshold DefaultWithdrawTimeLockDuration.

Lemma DefaultParams_valid : Validate DefaultParams = true.
Proof. reflexivity. Qed.

(** ** Errors *)

Inductive error : Type :=
| ErrReachPaymentAccountLimit
| ErrPaymentAccountNotFound
| ErrStreamRecordNotFound
| ErrNotPaymentAccountOwner
| ErrPaymentAccountAlreadyNonRefundable
| ErrInsufficientBalance
| ErrReceiveAccountNotExist
| ErrInvalidStreamAccountStatus
| ErrInvalidParams
| ErrNoDelayedWithdrawal
| ErrIncorrectWithdrawAmount
| ErrNotReachTimeLockDuration
| ErrExistsDelayedWithdrawal
| ErrNoVersionedParams
| ErrInvalidSigner
| ErrRecordFrozen          (* stream record %s is frozen *)
| ErrBalanceNotEnough      (* stream account %s balance not enough *)
| ErrAccountLacks          (* stream account %s lacks of %s *)
| ErrNotFrozen             (* stream account %s status is not frozen *)
| ErrResuming              (* stream account %s status is resuming *)
| ErrBank.                 (* an error of the bank keeper *)

Definition ModuleName : string := "payment".
Definition DistrModuleName : string := "distribution".

(** ** Module state and block context *)

(** Key of an out flow: payer, status, receiver. *)
Abbreviation FlowKey := (Z * OutFlowStatus * Z)%type (only parsing).

Record State (B : Type) : Type := mkState {
  params : Params;
  versioned_params : gmap Z VersionedParams;
  stream_records : gmap Addr StreamRecord;
  out_flows : gmap FlowKey Z;
  auto_settle : gmap (Z * Addr) unit;
  auto_resume : gmap (Z * Addr) unit;
  payment_accounts : gmap Addr PaymentAccount;
  payment_account_counts : gmap Addr Z;
  delayed_withdrawals : gmap Addr DelayedWithdrawalRecord;
  bank : B;
}.
Arguments mkState {B}.
Arguments params {B}.
Arguments versioned_params {B}.
Arguments stream_records {B}.
Arguments out_flows {B}.
Arguments auto_settle {B}.
Arguments auto_resume {B}.
Arguments payment_accounts {B}.
Arguments payment_account_counts {B}.
Arguments delayed_withdrawals {B}.
Arguments bank {B}.

Section Setters.
Context {B : Type}.
Implicit Types s : State B.

Definition with_params v s := mkState v (versioned_params s) (stream_records s) (out_flows s)
  (auto_settle s) (auto_resume s) (payment_accounts s) (payment_account_counts s)
  (delayed_withdrawals s) (bank s).
Definition with_versioned v s := mkState (params s) v (stream_records s) (out_flows s)
  (auto_settle s) (auto_resume s) (payment_accounts s) (payment_account_counts s)
  (delayed_withdrawals s) (bank s).
Definition with_records v s := mkState (params s) (versioned_params s) v (out_flows s)
  (auto_settle s) (auto_resume s) (payment_accounts s) (payment_account_counts s)
  (delayed_withdrawals s) (bank s).
Definition with_flows v s := mkState (params s) (versioned_params s) (stream_records s) v
  (auto_settle s) (auto_resume s) (payment_accounts s) (payment_account_counts s)
  (delayed_withdrawals s) (bank s).
Definition with_settle v s := mkState (params s) (versioned_params s) (stream_records s)
  (out_flows s) v (auto_resume s) (payment_accounts s) (payment_account_counts s)
  (delayed_withdrawals s) (bank s).
Definition with_resume v s := mkState (params s) (versioned_params s) (stream_records s)
  (out_flows s) (auto_settle s) v (payment_accounts s) (payment_account_counts s)
  (delayed_withdrawals s) (bank s).
Definition with_accounts v s := mkState (params s) (versioned_params s) (stream_records s)
  (out_flows s) (auto_settle s) (auto_resume s) v (payment_account_counts s)
  (delayed_withdrawals s) (bank s).
Definition with_counts v s := mkState (params s) (versioned_params s) (stream_records s)
  (out_flows s) (auto_settle s) (auto_resume s) (payment_accounts s) v
  (delayed_withdrawals s) (bank s).
Definition with_delayed v s := mkState (params s) (versioned_params s) (stream_records s)
  (out_flows s) (auto_settle s) (auto_resume s) (payment_accounts s)
  (payment_account_counts s) v (bank s).
Definition with_bank (v : B) s := mkState (params s) (versioned_params s) (stream_records s)
  (out_flows s) (auto_settle s) (auto_resume s) (payment_accounts s)
  (payment_account_counts s) (delayed_withdrawals s) v.
End Setters.

(** The parts of [sdk.Context] the module reads: the block time and the
    [force_update_stream_record] value, set in end blockers. *)
Record Ctx : Type := mkCtx { BlockTime : Z; Forced : bool }.

(** The module's computations. *)
Abbreviation PM B := (M (State B) error).
