(* ===== verification/PaymentStore.v ===== *)
(** * x/payment: the keeper's stores

    Reads and writes of every store prefix of the payment keeper: stream
    records, out flows, the auto settle and auto resume queues, payment
    accounts and their counts, delayed withdrawals and (versioned)
    parameters. *)

From S2P Require Import Prelude Sdk PaymentTypes.

(** Order of the out flow keys: payer bytes, status byte, receiver bytes. *)
Definition flow_leb (k1 k2 : FlowKey) : bool :=
  let '(f1, s1, t1) := k1 in
  let '(f2, s2, t2) := k2 in
  (f1 <? f2) || ((f1 =? f2) &&
    ((status_code s1 <? status_code s2) ||
     ((status_code s1 =? status_code s2) && (t1 <=? t2)))).

(** Order of the queue keys: big-endian timestamp, then address bytes. *)
Definition queue_leb (k1 k2 : Z * Addr) : bool :=
  (u64 k1.1 <? u64 k2.1) || ((u64 k1.1 =? u64 k2.1) && (k1.2 <=? k2.2)).

Section Store.
Context {B : Type}.
Implicit Types (s : State B) (ctx : Ctx).

(** ** Stream records *)

(** [CheckStreamRecord]: [true] when it does not panic.  The account text of
    a record is an address and its amounts are not nil. *)
Definition CheckStreamRecord (r : StreamRecord) : bool :=
  negb (0 <? FrozenNetflowRate r) &&
  negb (LockBalance r <? 0) &&
  negb (BufferBalance r <? 0) &&
  negb ((NetflowRate r <? 0) && (OutFlowCount r =? 0)).

Definition SetStreamRecord (r : StreamRecord) : PM B unit :=
  if CheckStreamRecord r then
    modify (fun s => with_records (<[Account r := r]> (stream_records s)) s)
  else panic.

Definition GetStreamRecord ctx (account : Addr) s : StreamRecord * bool :=
  match stream_records s !! account with
  | None => (NewStreamRecord account (BlockTime ctx), false)
  | Some r => (set_account account r, true)
  end.

Definition IsEmptyNetFlow ctx (account : Addr) s : bool :=
  let '(record, found) := GetStreamRecord ctx account s in
  if negb found then true
  else (NetflowRate record =? 0) && (FrozenNetflowRate record =? 0).

Definition GetAllStreamRecord s : list StreamRecord :=
  (fun kv => set_account kv.1 kv.2) <$> iterate Z.leb (stream_records s).

(** ** Out flows *)

Definition SetOutFlow (addr : Addr) (o : OutFlow) s : State B :=
  with_flows (<[(addr, FlowStatus o, ToAddress o) := Rate o]> (out_flows s)) s.

Definition GetOutFlow (addr : Addr) (st : OutFlowStatus) (toAddr : Addr) s : option OutFlow :=
  match out_flows s !! (addr, st, toAddr) with
  | None => None
  | Some rate => Some (mkOutFlow toAddr rate st)
  end.

Definition DeleteOutFlow (key : FlowKey) s : State B :=
  with_flows (delete key (out_flows s)) s.

(** [flowStore.Iterator(OutFlowKey(addr, st, nil), nil)]: every flow of the
    store from that key on, of [addr] and of the payers after it. *)
Definition flow_iterator (addr : Addr) (st : OutFlowStatus) s : list (FlowKey * Z) :=
  filter (fun kv => let '(f, st', _) := kv.1 in
            (addr <? f) || ((addr =? f) && (status_code st <=? status_code st')) = true)
    (iterate flow_leb (out_flows s)).

Fixpoint collect_flows (addr : Addr) (l : list (FlowKey * Z)) : list OutFlow :=
  match l with
  | [] => []
  | ((f, st, t), rate) :: l' =>
      if negb (f =? addr) then [] else mkOutFlow t rate st :: collect_flows addr l'
  end.

Definition GetOutFlows (addr : Addr) s : list OutFlow :=
  collect_flows addr (flow_iterator addr OUT_FLOW_STATUS_ACTIVE s).

Fixpoint mergeOutFlows_loop (addr : Addr) (st : OutFlowStatus) (outFlows : list OutFlow)
    (deltaCount : Z) s : Z * State B :=
  match outFlows with
  | [] => (deltaCount, s)
  | o :: rest =>
      match out_flows s !! (addr, st, ToAddress o) with
      | None =>
          mergeOutFlows_loop addr st rest (deltaCount + 1)
            (SetOutFlow addr (mkOutFlow (ToAddress o) (Rate o) st) s)
      | Some value =>
          let rate := value + Rate o in
          if rate =? 0 then
            mergeOutFlows_loop addr st rest (deltaCount - 1)
              (DeleteOutFlow (addr, st, ToAddress o) s)
          else
            mergeOutFlows_loop addr st rest deltaCount
              (SetOutFlow addr (mkOutFlow (ToAddress o) rate st) s)
      end
  end.

Definition mergeOutFlows (addr : Addr) (st : OutFlowStatus) (outFlows : list OutFlow)
    : PM B Z :=
  fun s => let '(d, s') := mergeOutFlows_loop addr st outFlows 0 s in (Ret d, s').

Definition MergeActiveOutFlows (addr : Addr) (outFlows : list OutFlow) : PM B Z :=
  mergeOutFlows addr OUT_FLOW_STATUS_ACTIVE outFlows.

Definition MergeFrozenOutFlows (addr : Addr) (outFlows : list OutFlow) : PM B Z :=
  mergeOutFlows addr OUT_FLOW_STATUS_FROZEN outFlows.

(** ** Auto settle queue *)

Definition SetAutoSettleRecord (timestamp : Z) (addr : Addr) s : State B :=
  with_settle (<[(timestamp, addr) := tt]> (auto_settle s)) s.

Definition RemoveAutoSettleRecord (timestamp : Z) (addr : Addr) s : State B :=
  with_settle (delete (timestamp, addr) (auto_settle s)) s.

Definition GetAllAutoSettleRecord s : list (Z * Addr) :=
  (iterate queue_leb (auto_settle s)).*1.

Definition UpdateAutoSettleRecord (addr : Addr) (oldTime newTime : Z) s : State B :=
  let s1 := if negb (oldTime =? 0) then RemoveAutoSettleRecord oldTime addr s else s in
  if negb (newTime =? 0) then SetAutoSettleRecord newTime addr s1 else s1.

(** ** Auto resume queue *)

Definition SetAutoResumeRecord (timestamp : Z) (addr : Addr) s : State B :=
  with_resume (<[(timestamp, addr) := tt]> (auto_resume s)) s.

Definition GetAutoResumeRecord (timestamp : Z) (addr : Addr) s : option (Z * Addr) :=
  match auto_resume s !! (timestamp, addr) with
  | None => None
  | Some _ => Some (timestamp, addr)
  end.

Definition RemoveAutoResumeRecord (timestamp : Z) (addr : Addr) s : State B :=
  with_resume (delete (timestamp, addr) (auto_resume s)) s.

Fixpoint exists_resume_loop (timestamp : Z) (addr : Addr) (l : list (Z * Addr)) : bool :=
  match l with
  | [] => false
  | (ts, a) :: l' =>
      if (0 <? timestamp) && (timestamp <? ts) then false
      else if a =? addr then true
      else exists_resume_loop timestamp addr l'
  end.

Definition ExistsAutoResumeRecord (timestamp : Z) (addr : Addr) s : bool :=
  exists_resume_loop timestamp addr (iterate queue_leb (auto_resume s)).*1.

(** ** Payment accounts *)

Definition SetPaymentAccount (addr : Addr) (a : PaymentAccount) s : State B :=
  with_accounts (<[addr := a]> (payment_accounts s)) s.

Definition GetPaymentAccount (addr : Addr) s : option PaymentAccount :=
  payment_accounts s !! addr.

Definition IsPaymentAccount (addr : Addr) s : bool :=
  bool_decide (is_Some (payment_accounts s !! addr)).

(** The owner text of an absent account is the zero value. *)
Definition IsPaymentAccountOwner `{Addresses} (addr owner : Addr) s : bool :=
  if addr =? owner then true
  else bool_decide (default EmptyString (Owner <$> GetPaymentAccount addr s) = AccAddress_String owner).

Definition GetAllPaymentAccount s : list (Addr * PaymentAccount) :=
  iterate Z.leb (payment_accounts s).

Definition SetPaymentAccountCount (owner : Addr) (count : Z) s : State B :=
  with_counts (<[owner := count]> (payment_account_counts s)) s.

(** The count of an owner without a record is the zero value. *)
Definition GetPaymentAccountCount (owner : Addr) s : Z * bool :=
  match payment_account_counts s !! owner with
  | None => (0, false)
  | Some c => (c, true)
  end.

Definition GetAllPaymentAccountCount s : list (Addr * Z) :=
  iterate Z.leb (payment_account_counts s).

(** ** Delayed withdrawals *)

Definition SetDelayedWithdrawalRecord (addr : Addr) (d : DelayedWithdrawalRecord) s : State B :=
  with_delayed (<[addr := d]> (delayed_withdrawals s)) s.

Definition GetDelayedWithdrawalRecord (addr : Addr) s : option DelayedWithdrawalRecord :=
  delayed_withdrawals s !! addr.

Definition RemoveDelayedWithdrawalRecord (addr : Addr) s : State B :=
  with_delayed (delete addr (delayed_withdrawals s)) s.

(** ** Parameters *)

Definition GetParams s : Params := params s.

Definition SetVersionedParamsWithTS ctx (v : VersionedParams) s : State B :=
  with_versioned (<[u64 (BlockTime ctx) := v]> (versioned_params s)) s.

Definition SetParams ctx (p : Params) : PM B unit :=
  if Validate p then
    modify (fun s => SetVersionedParamsWithTS ctx (Versioned p) (with_params p s))
  else fail ErrInvalidParams.

(** [store.ReverseIterator(nil, startKey)] visits the keys below [startKey]
    from the greatest; only the first is read. *)
Definition GetVersionedParamsWithTs (ts : Z) s : outcome error VersionedParams :=
  match last (filter (fun kv => kv.1 < u64 ts) (iterate Z.leb (versioned_params s))) with
  | None => Err ErrNoVersionedParams
  | Some kv => Ret kv.2
  end.

End Store.
