(* ===== verification/PaymentStream.v ===== *)
(** * x/payment: updating one stream record

    [UpdateStreamRecord], [ForceSettle] and their callers of
    [keeper/stream_record.go] and [keeper/keeper.go].  A record passed by
    pointer is returned updated; every caller drops the record when the call
    returns an error.  [UpdateStreamRecord] and [ForceSettle] call each other
    through the governance account, so the recursion has fuel;
    [update_fuel] levels are enough as long as the governance account pays
    no flow ([UpdateStreamRecord_fuel]). *)

From S2P Require Import Prelude Sdk PaymentTypes PaymentStore.

Section Stream.
Context {B : Type} {HBank : BankKeeper B} {HAddr : Addresses}.
Implicit Types (s : State B) (ctx : Ctx) (r : StreamRecord) (ch : StreamRecordChange).

(** ** The stages of [UpdateStreamRecord] *)

(** Flow accrued since the last update, in [int64] seconds. *)
Definition accrued ctx r : Z :=
  if CrudTimestamp r <? BlockTime ctx then
    if negb (NetflowRate r =? 0) then
      NetflowRate r * i64 (BlockTime ctx - CrudTimestamp r)
    else 0
  else 0.

(** update delta balance *)
Definition accrue ctx r : StreamRecord :=
  if CrudTimestamp r <? BlockTime ctx then
    let r1 := if negb (NetflowRate r =? 0) then
                let flowDelta := NetflowRate r * i64 (BlockTime ctx - CrudTimestamp r) in
                set_static (StaticBalance r + flowDelta) r
              else r in
    set_crud (BlockTime ctx) r1
  else r.

(** update lock balance *)
Definition apply_lock ch r : StreamRecord :=
  if negb (LockBalanceChange ch =? 0) then
    let r1 := set_lock (LockBalance r + LockBalanceChange ch) r in
    let r2 := set_static (StaticBalance r1 - LockBalanceChange ch) r1 in
    if LockBalance r2 <? 0 then
      set_lock 0 (set_static (StaticBalance r2 + LockBalance r2) r2)
    else r2
  else r.

(** The buffer a rate needs: [ReserveTime] seconds of a negative rate. *)
Definition buffer_for (p : Params) (rate : Z) : Z :=
  if rate <? 0 then Z.abs rate * ReserveTime (Versioned p) else 0.

(** update buffer balance *)
Definition apply_rate (p : Params) ch r : StreamRecord :=
  let r1 := set_rate (NetflowRate r + RateChange ch) r in
  let newBufferBalance := buffer_for p (NetflowRate r1) in
  if negb (newBufferBalance =? BufferBalance r1) then
    set_buffer newBufferBalance
      (set_static (StaticBalance r1 - newBufferBalance + BufferBalance r1) r1)
  else r1.

(** update static balance *)
Definition apply_static ch r : StreamRecord :=
  if negb (StaticBalanceChange ch =? 0) then
    set_static (StaticBalance r + StaticBalanceChange ch) r
  else r.

Definition staged ctx (p : Params) ch r : StreamRecord :=
  apply_static ch (apply_rate p ch (apply_lock ch (accrue ctx r))).

(** A negative static balance is paid from the bank account of the stream
    account, when it has one and the transfer succeeds. *)
Definition auto_transfer (p : Params) r : PM B StreamRecord :=
  if StaticBalance r <? 0 then
    let! s := get in
    if HasAccount (bank s) (Account r) then
      match NewCoins (FeeDenom p) (Z.abs (StaticBalance r)) with
      | None => panic
      | Some coins =>
          match SendCoinsFromAccountToModule (bank s) (Account r) ModuleName coins with
          | None => ret r
          | Some b' => do! modify (with_bank b') ;; ret (set_static 0 r)
          end
      end
    else ret r
  else ret r.

Definition UpdateFrozenStreamRecord ctx r ch : PM B StreamRecord :=
  do! guard (negb (Forced ctx)) ErrRecordFrozen ;;
  let r1 := apply_lock ch r in
  let r2 := if negb (RateChange ch =? 0) then
              set_rate (NetflowRate r1 + RateChange ch) r1 else r1 in
  let r3 := if negb (FrozenRateChange ch =? 0) then
              set_frozen (FrozenNetflowRate r2 + FrozenRateChange ch) r2 else r2 in
  ret r3.

Definition isPay ch : bool := (StaticBalanceChange ch <? 0) || (RateChange ch <? 0).

(** Seconds the record can still pay for, [Quo] truncating towards zero. *)
Definition payDuration r : Z :=
  Z.quot (StaticBalance r + BufferBalance r) (Z.abs (NetflowRate r)).

(** [currentTimestamp - int64(ForcedSettleTime) + payDuration] in [int64]. *)
Definition settle_time ctx (p : Params) (d : Z) : Z :=
  i64 (i64 (BlockTime ctx - i64 (ForcedSettleTime p)) + d).

(** What [ForceSettle] leaves of a record. *)
Definition settled r : StreamRecord :=
  set_status STREAM_ACCOUNT_STATUS_FROZEN (set_buffer 0 (set_static 0 r)).

(** ** The functions, over the update [upd] they recurse into *)

Definition UpdateByAddr_with (upd : StreamRecord -> StreamRecordChange -> PM B StreamRecord)
    ctx ch : PM B StreamRecord :=
  let! s := get in
  let streamRecord := (GetStreamRecord ctx (ChangeAddr ch) s).1 in
  let! r' := upd streamRecord ch in
  do! SetStreamRecord r' ;;
  ret r'.

Definition ForceSettle_with (upd : StreamRecord -> StreamRecordChange -> PM B StreamRecord)
    ctx r : PM B StreamRecord :=
  let totalBalance := StaticBalance r + BufferBalance r in
  let change := WithStaticBalanceChange totalBalance
                  (NewDefaultStreamRecordChangeWithAddr GovernanceAddress) in
  do! UpdateByAddr_with upd ctx change ;;
  ret (settled r).

Fixpoint UpdateStreamRecord (fuel : nat) ctx r ch : PM B StreamRecord :=
  match fuel with
  | O => nofuel
  | S fuel =>
      if is_frozen (Status r) then UpdateFrozenStreamRecord ctx r ch
      else
        let! s := get in
        let p := GetParams s in
        let! r1 := auto_transfer p (staged ctx p ch r) in
        do! guard (negb (Forced ctx) && isPay ch && (StaticBalance r1 <? 0))
              ErrBalanceNotEnough ;;
        let! x :=
          if NetflowRate r1 <? 0 then
            let d := payDuration r1 in
            let! r2 :=
              if d <=? ForcedSettleTime p then
                do! guard (negb (Forced ctx)) ErrAccountLacks ;;
                ForceSettle_with (UpdateStreamRecord fuel ctx) ctx r1
              else ret r1 in
            if is_i64 d then ret (r2, settle_time ctx p d) else panic
          else ret (r1, 0) in
        do! modify (UpdateAutoSettleRecord (Account x.1) (SettleTimestamp x.1) x.2) ;;
        ret (set_settle x.2 x.1)
  end.

(** Levels of recursion: a record, then the governance account. *)
Definition update_fuel : nat := 2.

Definition UpdateStreamRecordByAddr ctx ch : PM B StreamRecord :=
  UpdateByAddr_with (UpdateStreamRecord update_fuel ctx) ctx ch.

Definition ForceSettle ctx r : PM B StreamRecord :=
  ForceSettle_with (UpdateStreamRecord update_fuel ctx) ctx r.

Definition QueryDynamicBalance ctx (addr : Addr) : PM B Z :=
  let! s := get in
  let '(streamRecord, found) := GetStreamRecord ctx addr s in
  if negb found then ret 0
  else
    let! r' := UpdateStreamRecord update_fuel ctx streamRecord
                 (NewDefaultStreamRecordChangeWithAddr addr) in
    ret (StaticBalance r').

(** [Keeper.Withdraw] *)
Definition Keeper_Withdraw ctx (fromAddr toAddr : Addr) (amount : Z) : PM B unit :=
  let! s := get in
  let '(streamRecord, found) := GetStreamRecord ctx fromAddr s in
  do! guard (negb found) ErrStreamRecordNotFound ;;
  let change := WithStaticBalanceChange (- amount)
                  (NewDefaultStreamRecordChangeWithAddr fromAddr) in
  let! r' := UpdateStreamRecord update_fuel ctx streamRecord change in
  do! SetStreamRecord r' ;;
  let! s := get in
  match NewCoins (FeeDenom (GetParams s)) amount with
  | None => panic
  | Some coins =>
      let sent := if toAddr =? ModuleAddress DistrModuleName
                  then SendCoinsFromModuleToModule (bank s) ModuleName DistrModuleName coins
                  else SendCoinsFromModuleToAccount (bank s) ModuleName toAddr coins in
      match sent with
      | None => fail ErrBank
      | Some b' => modify (with_bank b')
      end
  end.

(** [DynamicBalance], the query: what the account's record is worth now. *)
Record DynamicBalanceResponse : Type := mkDynamicBalance {
  DynamicBalance : Z;
  BankBalance : Z;
  AvailableBalance : Z;
  LockedFee : Z;
  ChangeRate : Z;
}.

Definition DynamicBalanceQuery ctx (account : Addr) s : DynamicBalanceResponse :=
  let streamRecord := (GetStreamRecord ctx account s).1 in
  let flowDelta := NetflowRate streamRecord * i64 (BlockTime ctx - CrudTimestamp streamRecord) in
  let dynamicBalance := StaticBalance streamRecord + flowDelta in
  let bankBalance := if HasAccount (bank s) account
                     then GetBalance (bank s) account (FeeDenom (GetParams s)) else 0 in
  let lockedFee := LockBalance streamRecord + BufferBalance streamRecord in
  let positive := 0 <? StaticBalance streamRecord in
  {| DynamicBalance := dynamicBalance;
     BankBalance := bankBalance;
     AvailableBalance := if positive then bankBalance + StaticBalance streamRecord
                         else bankBalance;
     LockedFee := if positive then lockedFee else lockedFee + StaticBalance streamRecord;
     ChangeRate := NetflowRate streamRecord |}.

End Stream.
