(* ===== verification/PaymentStreamFacts.v ===== *)
(** * x/payment: facts about the update of one stream record *)

From S2P Require Import Prelude Sdk PaymentTypes PaymentStore PaymentStream.

(** ** Records *)

Ltac record_eq := 
  repeat match goal with r : StreamRecord |- _ => destruct r end; simpl in *; congruence.

Lemma set_static_id r : set_static (StaticBalance r) r = r.
Proof. by destruct r. Qed.

Lemma with_bank_id {B} (s : State B) : with_bank (bank s) s = s.
Proof. by destruct s. Qed.

(** [case_ifs] splits every conditional of the goal and the context. *)
Ltac case_ifs := repeat (case_match; simpl in *).

Section Staged.
Implicit Types (ctx : Ctx) (r : StreamRecord) (ch : StreamRecordChange).

Lemma holdings_accrue ctx r : holdings (accrue ctx r) = holdings r + accrued ctx r.
Proof. unfold holdings, accrue, accrued. case_ifs; lia. Qed.

Lemma holdings_apply_lock ch r : holdings (apply_lock ch r) = holdings r.
Proof. unfold holdings, apply_lock. case_ifs; lia. Qed.

Lemma holdings_apply_rate p ch r : holdings (apply_rate p ch r) = holdings r.
Proof. unfold holdings, apply_rate. case_ifs; lia. Qed.

Lemma holdings_apply_static ch r :
  holdings (apply_static ch r) = holdings r + StaticBalanceChange ch.
Proof. unfold holdings, apply_static. case_ifs; lia. Qed.

Lemma holdings_staged ctx p ch r :
  holdings (staged ctx p ch r) = holdings r + accrued ctx r + StaticBalanceChange ch.
Proof.
  unfold staged.
  rewrite holdings_apply_static, holdings_apply_rate, holdings_apply_lock, holdings_accrue.
  lia.
Qed.

(** The stages touch each field once. *)
Ltac staged_tac :=
  unfold staged, apply_static, apply_rate, apply_lock, accrue; case_ifs; try done; try lia.

Lemma staged_rate ctx p ch r :
  NetflowRate (staged ctx p ch r) = NetflowRate r + RateChange ch.
Proof. staged_tac. Qed.

Lemma staged_buffer ctx p ch r :
  BufferBalance (staged ctx p ch r) = buffer_for p (NetflowRate r + RateChange ch).
Proof. staged_tac. Qed.

Lemma staged_lock ctx p ch r :
  0 <= LockBalance r ->
  LockBalance (staged ctx p ch r) = Z.max 0 (LockBalance r + LockBalanceChange ch).
Proof. intros. staged_tac. Qed.

Lemma staged_crud ctx p ch r :
  CrudTimestamp (staged ctx p ch r) = Z.max (CrudTimestamp r) (BlockTime ctx).
Proof. staged_tac. Qed.

Lemma staged_account ctx p ch r : Account (staged ctx p ch r) = Account r.
Proof. staged_tac. Qed.

Lemma staged_status ctx p ch r : Status (staged ctx p ch r) = Status r.
Proof. staged_tac. Qed.

Lemma staged_settle ctx p ch r : SettleTimestamp (staged ctx p ch r) = SettleTimestamp r.
Proof. staged_tac. Qed.

Lemma staged_count ctx p ch r : OutFlowCount (staged ctx p ch r) = OutFlowCount r.
Proof. staged_tac. Qed.

Lemma staged_frozen ctx p ch r :
  FrozenNetflowRate (staged ctx p ch r) = FrozenNetflowRate r.
Proof. staged_tac. Qed.
End Staged.

Create Rewrite HintDb payment.
#[export] Hint Rewrite holdings_staged staged_rate staged_buffer staged_crud staged_account
  staged_status staged_settle staged_count staged_frozen : payment.

Section Update.
Context {B : Type} {HBank : BankKeeper B} {HAddr : Addresses}.
Implicit Types (s : State B) (ctx : Ctx) (r : StreamRecord) (ch : StreamRecordChange).

(** ** The auto transfer

    [paid_from p a b b' amt]: the bank went from [b] to [b'] by account [a]
    paying [amt] of the fee coin to the module, or not at all. *)
Definition paid_from (p : Params) (a : Addr) (b b' : B) (amt : Z) : Prop :=
  (amt = 0 /\ b' = b) \/
  (0 < amt /\ SendCoinsFromAccountToModule b a ModuleName [(FeeDenom p, amt)] = Some b').

Lemma auto_transfer_Ret p r s r' s' :
  auto_transfer p r s = (Ret r', s') ->
  exists amt b', paid_from p (Account r) (bank s) b' amt /\
    r' = set_static (StaticBalance r + amt) r /\ s' = with_bank b' s /\
    (amt = 0 \/ StaticBalance r + amt = 0).
Proof.
  unfold auto_transfer, NewCoins. intros Hrun.
  destruct (StaticBalance r <? 0) eqn:Hneg; minv.
  2: { exists 0, (bank s'). rewrite Z.add_0_r, set_static_id, with_bank_id.
       split_and!; auto. by left. }
  destruct (HasAccount _ _) eqn:Hacc; minv.
  2: { exists 0, (bank s'). rewrite Z.add_0_r, set_static_id, with_bank_id.
       split_and!; auto. by left. }
  replace (Z.abs (StaticBalance r) <? 0) with false in * by lia.
  replace (Z.abs (StaticBalance r) =? 0) with false in * by lia.
  destruct (SendCoinsFromAccountToModule _ _ _ _) as [b'|] eqn:Hsend; minv.
  - exists (Z.abs (StaticBalance r)), b'. split_and!; auto; try lia.
    + right. split; [lia|done].
    + f_equal. lia.
  - exists 0, (bank s'). rewrite Z.add_0_r, set_static_id, with_bank_id.
    split_and!; auto. by left.
Qed.

(** ** The shape of a successful update of an active record *)

(** The record when the settle time is computed: staged, then topped up
    from the bank by [amt]. *)
Definition topped ctx (p : Params) ch r (amt : Z) : StreamRecord :=
  set_static (StaticBalance (staged ctx p ch r) + amt) (staged ctx p ch r).

Definition gov_change (amt : Z) : StreamRecordChange :=
  WithStaticBalanceChange amt (NewDefaultStreamRecordChangeWithAddr GovernanceAddress).

Inductive update_spec (fuel : nat) ctx r ch s r' s' : Prop :=
| update_kept amt b' ts :
    paid_from (params s) (Account r) (bank s) b' amt ->
    let r1 := topped ctx (params s) ch r amt in
    (Forced ctx = false -> isPay ch = true -> 0 <= StaticBalance r1) ->
    ts = (if NetflowRate r1 <? 0 then settle_time ctx (params s) (payDuration r1) else 0) ->
    (NetflowRate r1 < 0 ->
       ForcedSettleTime (params s) < payDuration r1 /\ is_i64 (payDuration r1) = true) ->
    r' = set_settle ts r1 ->
    s' = UpdateAutoSettleRecord (Account r) (SettleTimestamp r) ts (with_bank b' s) ->
    update_spec fuel ctx r ch s r' s'
| update_force_settled amt b' g s1 ts :
    paid_from (params s) (Account r) (bank s) b' amt ->
    let r1 := topped ctx (params s) ch r amt in
    Forced ctx = true ->
    NetflowRate r1 < 0 ->
    payDuration r1 <= ForcedSettleTime (params s) ->
    is_i64 (payDuration r1) = true ->
    ts = settle_time ctx (params s) (payDuration r1) ->
    UpdateByAddr_with (UpdateStreamRecord fuel ctx) ctx
      (gov_change (StaticBalance r1 + BufferBalance r1)) (with_bank b' s) = (Ret g, s1) ->
    r' = set_settle ts (settled r1) ->
    s' = UpdateAutoSettleRecord (Account r) (SettleTimestamp r) ts s1 ->
    update_spec fuel ctx r ch s r' s'.

Lemma UpdateStreamRecord_active fuel ctx r ch s r' s' :
  UpdateStreamRecord fuel ctx r ch s = (Ret r', s') ->
  Status r = STREAM_ACCOUNT_STATUS_ACTIVE ->
  exists fuel', fuel = S fuel' /\ update_spec fuel' ctx r ch s r' s'.
Proof.
  destruct fuel as [|fuel]; simpl; intros Hrun Hact; [by minv|].
  exists fuel. split; [done|]. rewrite Hact in Hrun. simpl in Hrun.
  apply bind_Ret in Hrun as (s0 & ? & [-> ->]%get_Ret & Hrun).
  apply bind_Ret in Hrun as (r1 & s1 & Hauto & Hrun).
  apply auto_transfer_Ret in Hauto as (amt & b' & Hpaid & -> & -> & Hamt).
  rewrite staged_account in Hpaid. unfold GetParams in *.
  fold (topped ctx (params s) ch r amt) in Hrun.
  apply bind_Ret in Hrun as (? & ? & [Hg ->]%guard_Ret & Hrun).
  assert (Forced ctx = false -> isPay ch = true ->
          0 <= StaticBalance (topped ctx (params s) ch r amt)) as Hpay.
  { intros Hf Hp. rewrite Hf, Hp in Hg. by apply Z.ltb_ge. }
  apply bind_Ret in Hrun as ([r2 ts] & s2 & Hset & Hrun). simpl in Hrun.
  apply bind_Ret in Hrun as (? & ? & ->%modify_Ret & [<- <-]%ret_Ret).
  destruct (NetflowRate (topped _ _ _ _ _) <? 0) eqn:Hneg.
  - apply bind_Ret in Hset as (r3 & s3 & Hfs & Hset).
    destruct (is_i64 _) eqn:Hi64; [|by minv].
    apply ret_Ret in Hset as [[= <- <-] <-].
    destruct (payDuration _ <=? ForcedSettleTime _) eqn:Hdur.
    + apply bind_Ret in Hfs as (? & ? & [Hforced ->]%guard_Ret & Hfs).
      unfold ForceSettle_with in Hfs.
      apply bind_Ret in Hfs as (g & s4 & Hgov & [<- <-]%ret_Ret).
      eapply update_force_settled; eauto.
      * by destruct (Forced ctx).
      * lia.
      * lia.
      * unfold settled, topped. simpl. by rewrite staged_account, staged_settle.
    + apply ret_Ret in Hfs as [<- <-].
      eapply update_kept with
        (ts := settle_time ctx (params s) (payDuration (topped ctx (params s) ch r amt))); eauto.
      * by rewrite Hneg.
      * intros _. split; [lia|done].
      * unfold topped. simpl. by rewrite staged_account, staged_settle.
  - apply ret_Ret in Hset as [[= <- <-] <-].
    eapply update_kept with (ts := 0); eauto.
    + by rewrite Hneg.
    + lia.
    + unfold topped. simpl. by rewrite staged_account, staged_settle.
Qed.

Lemma UpdateStreamRecord_frozen fuel ctx r ch s r' s' :
  UpdateStreamRecord fuel ctx r ch s = (Ret r', s') ->
  Status r = STREAM_ACCOUNT_STATUS_FROZEN ->
  Forced ctx = true /\ s' = s /\ holdings r' = holdings r /\
  r' = set_frozen (FrozenNetflowRate r + FrozenRateChange ch)
         (set_rate (NetflowRate r + RateChange ch) (apply_lock ch r)).
Proof.
  destruct fuel as [|fuel]; simpl; intros Hrun Hfr; [by minv|].
  rewrite Hfr in Hrun. simpl in Hrun. unfold UpdateFrozenStreamRecord in Hrun. minv.
  rewrite <- (holdings_apply_lock ch r).
  assert (NetflowRate (apply_lock ch r) = NetflowRate r) as Hn
    by (unfold apply_lock; case_ifs; done).
  assert (FrozenNetflowRate (apply_lock ch r) = FrozenNetflowRate r) as Hf
    by (unfold apply_lock; case_ifs; done).
  rewrite <- Hn, <- Hf. clear Hn Hf Hfr.
  destruct (apply_lock ch r) as [ac cr nr st bu lo sta se co fr]; simpl in *.
  unfold holdings, set_frozen, set_rate.
  destruct (Forced ctx); [|done].
  destruct (RateChange ch =? 0) eqn:E1, (FrozenRateChange ch =? 0) eqn:E2; simpl in *;
    split_and!; try done; f_equal; lia.
Qed.

(** ** Framing: what an update leaves alone *)

Record frame s s' : Prop := mkFrame {
  frame_params : params s' = params s;
  frame_versioned : versioned_params s' = versioned_params s;
  frame_flows : out_flows s' = out_flows s;
  frame_resume : auto_resume s' = auto_resume s;
  frame_accounts : payment_accounts s' = payment_accounts s;
  frame_counts : payment_account_counts s' = payment_account_counts s;
  frame_delayed : delayed_withdrawals s' = delayed_withdrawals s;
}.

#[global] Instance frame_refl : Reflexive frame.
Proof. by constructor. Qed.
#[global] Instance frame_trans : Transitive frame.
Proof. intros s1 s2 s3 [] []. constructor; congruence. Qed.

Lemma frame_bank b s : frame s (with_bank b s).
Proof. by constructor. Qed.
Lemma frame_records m s : frame s (with_records m s).
Proof. by constructor. Qed.
Lemma frame_auto_settle a t1 t2 s : frame s (UpdateAutoSettleRecord a t1 t2 s).
Proof.
  unfold UpdateAutoSettleRecord, SetAutoSettleRecord, RemoveAutoSettleRecord.
  case_ifs; by constructor.
Qed.
Lemma records_auto_settle a t1 t2 s :
  stream_records (UpdateAutoSettleRecord a t1 t2 s) = stream_records s.
Proof.
  unfold UpdateAutoSettleRecord, SetAutoSettleRecord, RemoveAutoSettleRecord. by case_ifs.
Qed.
Lemma bank_auto_settle a t1 t2 s : bank (UpdateAutoSettleRecord a t1 t2 s) = bank s.
Proof.
  unfold UpdateAutoSettleRecord, SetAutoSettleRecord, RemoveAutoSettleRecord. by case_ifs.
Qed.

Lemma SetStreamRecord_Ret r s u s' :
  SetStreamRecord r s = (Ret u, s') <->
  CheckStreamRecord r = true /\ s' = with_records (<[Account r := r]> (stream_records s)) s.
Proof.
  unfold SetStreamRecord. destruct (CheckStreamRecord r).
  - rewrite modify_Ret. naive_solver.
  - rewrite panic_Ret. naive_solver.
Qed.

Lemma UpdateByAddr_with_Ret upd ctx ch s r' s' :
  UpdateByAddr_with upd ctx ch s = (Ret r', s') <->
  exists s1, upd (GetStreamRecord ctx (ChangeAddr ch) s).1 ch s = (Ret r', s1) /\
    CheckStreamRecord r' = true /\
    s' = with_records (<[Account r' := r']> (stream_records s1)) s1.
Proof.
  unfold UpdateByAddr_with. rewrite bind_Ret. setoid_rewrite get_Ret.
  split.
  - intros (? & ? & [-> ->] & H). apply bind_Ret in H as (r1 & s1 & Hu & H).
    apply bind_Ret in H as (? & ? & [Hc ->]%SetStreamRecord_Ret & [<- <-]%ret_Ret). eauto.
  - intros (s1 & Hu & Hc & ->). exists s, s. split; [done|].
    apply bind_Ret. exists r', s1. split; [done|]. apply bind_Ret.
    eexists tt, _. split; [by apply SetStreamRecord_Ret|]. by apply ret_Ret.
Qed.

(** ** The books: rates and flow counts per address *)

Definition book r : Z * Z * Z := (NetflowRate r, FrozenNetflowRate r, OutFlowCount r).
Definition book_of s (a : Addr) : Z * Z * Z :=
  match stream_records s !! a with Some r => book r | None => (0, 0, 0) end.

(** The effect of a change on the books of a record. *)
Definition booked ch r : Z * Z * Z :=
  (NetflowRate r + RateChange ch,
   FrozenNetflowRate r + (if is_frozen (Status r) then FrozenRateChange ch else 0),
   OutFlowCount r).

Lemma GetStreamRecord_account ctx a s : Account (GetStreamRecord ctx a s).1 = a.
Proof. unfold GetStreamRecord. by case_match. Qed.

Lemma GetStreamRecord_book ctx a s : book (GetStreamRecord ctx a s).1 = book_of s a.
Proof. unfold GetStreamRecord, book_of. by case_match. Qed.

Lemma book_of_insert a r m s a' :
  book_of (with_records (<[a := r]> m) s) a' =
  if decide (a' = a) then book r
  else match m !! a' with Some r => book r | None => (0, 0, 0) end.
Proof.
  unfold book_of. simpl. destruct (decide (a' = a)) as [->|].
  - by rewrite lookup_insert_eq.
  - by rewrite lookup_insert_ne by done.
Qed.

(** What every successful update does to the books: those of the record
    change by the change, those of the store do not. *)
Definition keeps_books (upd : StreamRecord -> StreamRecordChange -> PM B StreamRecord) : Prop :=
  forall r ch s r' s', upd r ch s = (Ret r', s') ->
    frame s s' /\ Account r' = Account r /\ book r' = booked ch r /\
    forall a, book_of s' a = book_of s a.

Lemma UpdateByAddr_with_books upd ctx ch s r' s' :
  keeps_books upd ->
  UpdateByAddr_with upd ctx ch s = (Ret r', s') ->
  let r := (GetStreamRecord ctx (ChangeAddr ch) s).1 in
  frame s s' /\ Account r' = ChangeAddr ch /\ book r' = booked ch r /\
  forall a, book_of s' a = if decide (a = ChangeAddr ch) then booked ch r else book_of s a.
Proof.
  intros Hupd (s1 & Hu & Hc & ->)%UpdateByAddr_with_Ret.
  apply Hupd in Hu as (Hf & Ha & Hb & Hs).
  rewrite GetStreamRecord_account in Ha. split_and!; try done.
  - etrans; [done|]. apply frame_records.
  - intros a. rewrite Ha, book_of_insert. destruct (decide (a = _)); [done|].
    rewrite <- Hs. done.
Qed.

Lemma booked_gov ctx amt s a :
  (if decide (a = GovernanceAddress)
   then booked (gov_change amt) (GetStreamRecord ctx GovernanceAddress s).1
   else book_of s a) = book_of s a.
Proof.
  destruct (decide (a = GovernanceAddress)) as [->|]; [|done].
  rewrite <- (GetStreamRecord_book ctx). unfold booked, book. simpl.
  destruct (is_frozen _); repeat f_equal; lia.
Qed.

Lemma UpdateStreamRecord_books fuel ctx : keeps_books (UpdateStreamRecord fuel ctx).
Proof.
  induction fuel as [|fuel IH]; intros r ch s r' s' Hrun; [simpl in Hrun; by minv|].
  destruct (Status r) eqn:Hst.
  - apply UpdateStreamRecord_active in Hrun as (? & [= <-] & Hspec); [|done].
    unfold booked. rewrite Hst. simpl.
    destruct Hspec as [amt b' ts Hpaid r1 Hpay Hts Hdur -> ->
                      |amt b' g s1 ts Hpaid r1 Hforced Hneg Hdur Hi Hts Hgov -> ->].
    + split_and!.
      * etrans; [apply frame_bank|]. apply frame_auto_settle.
      * unfold r1, topped. simpl. apply staged_account.
      * unfold book, r1, topped. simpl.
        rewrite staged_rate, staged_frozen, staged_count. repeat f_equal. lia.
      * intros a. unfold book_of. by rewrite records_auto_settle.
    + eapply UpdateByAddr_with_books in Hgov as (Hf & _ & _ & Hs); [|done].
      split_and!.
      * etrans; [apply frame_bank|]. etrans; [done|]. apply frame_auto_settle.
      * unfold r1, topped, settled. simpl. apply staged_account.
      * unfold book, r1, topped, settled. simpl.
        rewrite staged_rate, staged_frozen, staged_count. repeat f_equal. lia.
      * intros a. unfold book_of at 1. rewrite records_auto_settle. fold (book_of s1 a).
        rewrite Hs. simpl. rewrite booked_gov. done.
  - apply UpdateStreamRecord_frozen in Hrun as (Hforced & -> & _ & ->); [|done].
    split_and!; try done.
    + simpl. unfold apply_lock. by case_ifs.
    + unfold book, booked. rewrite Hst. simpl. unfold apply_lock. by case_ifs.
Qed.

Lemma UpdateStreamRecordByAddr_books ctx ch s r' s' :
  UpdateStreamRecordByAddr ctx ch s = (Ret r', s') ->
  let r := (GetStreamRecord ctx (ChangeAddr ch) s).1 in
  frame s s' /\ Account r' = ChangeAddr ch /\ book r' = booked ch r /\
  forall a, book_of s' a = if decide (a = ChangeAddr ch) then booked ch r else book_of s a.
Proof. apply UpdateByAddr_with_books, UpdateStreamRecord_books. Qed.

End Update.
