(* ===== verification/PaymentSolvency.v ===== *)
(** * x/payment: value and solvency of stream records

    The value of a record at a time is what it holds plus, while it is
    active, the flow accrued since its last update.  An update moves value
    between the record, the governance account and the bank, and creates or
    destroys none. *)

From S2P Require Import Prelude Sdk PaymentTypes PaymentStore PaymentStream PaymentStreamFacts.

Section Value.
Context {B : Type} {HBank : BankKeeper B} {HAddr : Addresses}.
Implicit Types (s : State B) (ctx : Ctx) (r : StreamRecord) (ch : StreamRecordChange).

Definition value_at (t : Z) r : Z :=
  holdings r + (if is_frozen (Status r) then 0 else NetflowRate r * (t - CrudTimestamp r)).

Definition total_value (t : Z) s : Z := map_sum (fun _ r => value_at t r) (stream_records s).

(** The fee coins the module account holds. *)
Definition module_balance s : Z :=
  GetBalance (bank s) (ModuleAddress ModuleName) (FeeDenom (params s)).

(** The governance account pays no flow: its record, if any, is active and
    its rate is not negative. *)
Definition gov_ok s : Prop :=
  forall g, stream_records s !! GovernanceAddress = Some g ->
    Status g = STREAM_ACCOUNT_STATUS_ACTIVE /\ 0 <= NetflowRate g.

(** A record was last updated in the past, less than 2^63 seconds ago. *)
Definition timely ctx r : Prop := 0 <= BlockTime ctx - CrudTimestamp r < two63.

Definition timely_state ctx s : Prop :=
  forall a r, stream_records s !! a = Some r -> timely ctx r.

(** ** Recursion depth *)

Lemma auto_transfer_rate p r s r' s' :
  auto_transfer p r s = (Ret r', s') -> NetflowRate r' = NetflowRate r.
Proof. by intros (amt & b' & _ & -> & _ & _)%auto_transfer_Ret. Qed.

Lemma UpdateStreamRecord_no_recursion f f' ctx r ch s :
  (Status r = STREAM_ACCOUNT_STATUS_ACTIVE -> 0 <= NetflowRate r + RateChange ch) ->
  UpdateStreamRecord (S f) ctx r ch s = UpdateStreamRecord (S f') ctx r ch s.
Proof.
  intros Hrate. cbn [UpdateStreamRecord].
  destruct (Status r) eqn:Hst; [|done]. cbn [is_frozen].
  rewrite !bind_get. apply bind_ext. intros r1 s1 Hauto.
  apply auto_transfer_rate in Hauto. rewrite staged_rate in Hauto.
  specialize (Hrate eq_refl).
  replace (NetflowRate r1 <? 0) with false by lia. done.
Qed.

Lemma gov_change_no_recursion f f' ctx amt s :
  gov_ok s ->
  UpdateByAddr_with (UpdateStreamRecord (S f) ctx) ctx (gov_change amt) s =
  UpdateByAddr_with (UpdateStreamRecord (S f') ctx) ctx (gov_change amt) s.
Proof.
  intros Hgov. unfold UpdateByAddr_with. rewrite !bind_get. unfold bind at 1 3.
  rewrite (UpdateStreamRecord_no_recursion f f'); [done|].
  unfold GetStreamRecord, gov_change. simpl. intros _.
  destruct (stream_records s !! GovernanceAddress) as [g|] eqn:Hg; simpl; [|lia].
  apply Hgov in Hg as [_ ?]. lia.
Qed.

Lemma gov_ok_bank b s : gov_ok s -> gov_ok (with_bank b s).
Proof. done. Qed.

Lemma UpdateStreamRecord_fuel f ctx r ch s :
  gov_ok s ->
  UpdateStreamRecord (S (S f)) ctx r ch s = UpdateStreamRecord update_fuel ctx r ch s.
Proof.
  intros Hgov. unfold update_fuel.
  remember (S f) as f1 eqn:Hf1. remember 1%nat as one eqn:Hone. cbn [UpdateStreamRecord].
  destruct (is_frozen (Status r)); [done|]. rewrite !bind_get.
  apply bind_ext. intros r1 s1 (amt & b' & _ & _ & -> & _)%auto_transfer_Ret.
  apply bind_ext. intros _ ? [_ ->]%guard_Ret.
  destruct (NetflowRate r1 <? 0); [|done].
  unfold bind at 1 4. unfold bind at 1 4.
  destruct (payDuration r1 <=? _); [|done].
  unfold ForceSettle_with. fold (gov_change (StaticBalance r1 + BufferBalance r1)).
  destruct (Forced ctx); [|done]. unfold bind at 1 2 4 5, guard, ret. simpl.
  subst. by rewrite (gov_change_no_recursion f 0 ctx) by apply gov_ok_bank, Hgov.
Qed.

Lemma auto_transfer_terminates p r s : terminates (auto_transfer p r) s.
Proof.
  unfold auto_transfer. case_match; [|auto with go].
  apply bind_terminates; [auto with go|]. intros ? ? _.
  repeat case_match; auto with go.
  apply bind_terminates; auto with go.
Qed.

Lemma SetStreamRecord_terminates r s : terminates (SetStreamRecord r) s.
Proof. unfold SetStreamRecord. case_match; auto with go. Qed.

Lemma UpdateFrozen_terminates ctx r ch s : terminates (UpdateFrozenStreamRecord ctx r ch) s.
Proof. apply bind_terminates; auto with go. Qed.

Lemma UpdateStreamRecord_terminates f ctx r ch s :
  (NetflowRate r + RateChange ch < 0 ->
     forall amt b, terminates (UpdateByAddr_with (UpdateStreamRecord f ctx) ctx (gov_change amt))
                     (with_bank b s)) ->
  terminates (UpdateStreamRecord (S f) ctx r ch) s.
Proof.
  intros Hrec. cbn [UpdateStreamRecord].
  case_match; [apply UpdateFrozen_terminates|].
  apply bind_terminates; [auto with go|]. intros ? ? [-> ->]%get_Ret.
  apply bind_terminates; [apply auto_transfer_terminates|]. intros r1 s1 Hauto.
  pose proof (auto_transfer_rate _ _ _ _ _ Hauto) as Hrate. rewrite staged_rate in Hrate.
  apply auto_transfer_Ret in Hauto as (amt & b' & _ & _ & -> & _).
  apply bind_terminates; [auto with go|]. intros _ ? [_ ->]%guard_Ret.
  apply bind_terminates.
  2: { intros ? ? _. apply bind_terminates; auto with go. }
  destruct (NetflowRate r1 <? 0) eqn:Hneg; [|auto with go].
  apply bind_terminates.
  2: { intros ? ? _. case_match; auto with go. }
  case_match; [|auto with go].
  apply bind_terminates; [auto with go|]. intros _ ? [_ ->]%guard_Ret.
  apply bind_terminates; [|auto with go]. apply Hrec. lia.
Qed.

Lemma UpdateByAddr_terminates f ctx ch s :
  terminates (UpdateStreamRecord f ctx (GetStreamRecord ctx (ChangeAddr ch) s).1 ch) s ->
  terminates (UpdateByAddr_with (UpdateStreamRecord f ctx) ctx ch) s.
Proof.
  intros Hupd. apply bind_terminates; [auto with go|]. intros ? ? [-> ->]%get_Ret.
  apply bind_terminates; [done|]. intros.
  apply bind_terminates; [apply SetStreamRecord_terminates|auto with go].
Qed.

Lemma gov_rate ctx s :
  gov_ok s -> 0 <= NetflowRate (GetStreamRecord ctx GovernanceAddress s).1.
Proof.
  intros Hgov. unfold GetStreamRecord.
  destruct (stream_records s !! GovernanceAddress) as [g|] eqn:Hg; simpl; [|lia].
  by apply Hgov in Hg as [_ ?].
Qed.

Lemma UpdateStreamRecord_enough_fuel ctx r ch s :
  gov_ok s -> terminates (UpdateStreamRecord update_fuel ctx r ch) s.
Proof.
  intros Hgov. apply UpdateStreamRecord_terminates. intros _ amt b.
  apply UpdateByAddr_terminates, UpdateStreamRecord_terminates.
  intros Hneg. exfalso.
  pose proof (gov_rate ctx (with_bank b s) (gov_ok_bank b s Hgov)).
  change (RateChange (gov_change amt)) with 0 in Hneg.
  change (ChangeAddr (gov_change amt)) with GovernanceAddress in Hneg. lia.
Qed.

(** ** Conservation of value *)

Lemma value_topped ctx p ch r amt :
  Status r = STREAM_ACCOUNT_STATUS_ACTIVE -> timely ctx r ->
  value_at (BlockTime ctx) (topped ctx p ch r amt) =
  value_at (BlockTime ctx) r + StaticBalanceChange ch + amt.
Proof.
  intros Hst Ht. unfold value_at, topped. simpl.
  rewrite staged_status, Hst, staged_rate, staged_crud. simpl.
  assert (holdings (set_static (StaticBalance (staged ctx p ch r) + amt) (staged ctx p ch r)) =
          holdings (staged ctx p ch r) + amt) as -> by (unfold holdings; simpl; lia).
  rewrite holdings_staged. unfold timely in Ht.
  rewrite Z.max_r by lia.
  assert (accrued ctx r = NetflowRate r * (BlockTime ctx - CrudTimestamp r)) as ->; [|lia].
  unfold accrued. destruct (CrudTimestamp r <? BlockTime ctx) eqn:E1.
  - destruct (NetflowRate r =? 0) eqn:E2; simpl; [lia|].
    rewrite i64_id; [lia|]. unfold is_i64, two63 in *. lia.
  - assert (BlockTime ctx - CrudTimestamp r = 0) as -> by lia. lia.
Qed.

(** The value of a settled record moves to the governance account. *)
Lemma value_settled ctx ts r :
  CrudTimestamp r = BlockTime ctx -> Status r = STREAM_ACCOUNT_STATUS_ACTIVE ->
  value_at (BlockTime ctx) (set_settle ts (settled r)) =
  value_at (BlockTime ctx) r - (StaticBalance r + BufferBalance r).
Proof.
  intros Hc Hs. unfold value_at, holdings, settled. simpl. rewrite Hs, Hc. simpl. lia.
Qed.

Lemma total_value_insert t a r s :
  total_value t (with_records (<[a := r]> (stream_records s)) s) =
  total_value t s + value_at t r -
    match stream_records s !! a with Some r0 => value_at t r0 | None => 0 end.
Proof. unfold total_value. simpl. rewrite map_sum_insert. unfold contrib. lia. Qed.

Lemma total_value_auto_settle t a t1 t2 s :
  total_value t (UpdateAutoSettleRecord a t1 t2 s) = total_value t s.
Proof. unfold total_value. by rewrite records_auto_settle. Qed.

Lemma module_balance_auto_settle a t1 t2 s :
  module_balance (UpdateAutoSettleRecord a t1 t2 s) = module_balance s.
Proof.
  unfold module_balance. rewrite bank_auto_settle.
  by rewrite (frame_params _ _ (frame_auto_settle a t1 t2 s)).
Qed.

(** The record read for an address is worth what the store holds there. *)
Lemma value_GetStreamRecord ctx a s :
  value_at (BlockTime ctx) (GetStreamRecord ctx a s).1 =
  match stream_records s !! a with Some r => value_at (BlockTime ctx) r | None => 0 end.
Proof.
  unfold GetStreamRecord. destruct (stream_records s !! a) as [r|]; [done|].
  unfold value_at, holdings. simpl. lia.
Qed.

Lemma timely_GetStreamRecord ctx a s :
  timely_state ctx s -> timely ctx (GetStreamRecord ctx a s).1.
Proof.
  intros Ht. unfold GetStreamRecord. destruct (stream_records s !! a) as [r|] eqn:Ha.
  - apply Ht in Ha. done.
  - unfold timely, two63. simpl. lia.
Qed.

Lemma timely_topped ctx p ch r amt ts :
  timely ctx r -> timely ctx (set_settle ts (topped ctx p ch r amt)).
Proof.
  unfold timely, topped. simpl. intros. rewrite staged_crud, Z.max_r by lia.
  unfold two63. lia.
Qed.

Lemma timely_insert ctx a r s :
  timely ctx r -> timely_state ctx s ->
  timely_state ctx (with_records (<[a := r]> (stream_records s)) s).
Proof.
  intros Hr Hs a' r'. simpl. rewrite lookup_insert_Some. intros [[_ <-]|[_ H']]; eauto.
Qed.

Lemma timely_auto_settle ctx a t1 t2 s :
  timely_state ctx s -> timely_state ctx (UpdateAutoSettleRecord a t1 t2 s).
Proof. unfold timely_state. by rewrite records_auto_settle. Qed.

Lemma gov_ok_auto_settle a t1 t2 s : gov_ok s -> gov_ok (UpdateAutoSettleRecord a t1 t2 s).
Proof. unfold gov_ok. by rewrite records_auto_settle. Qed.

Context {HLaws : BankLaws B}.

Lemma paid_from_balance p a b b' amt d :
  paid_from p a b b' amt -> a <> ModuleAddress ModuleName -> d = FeeDenom p ->
  GetBalance b' (ModuleAddress ModuleName) d = GetBalance b (ModuleAddress ModuleName) d + amt.
Proof.
  intros [[-> ->]|[Hpos Hsend]] Hne ->; [lia|].
  rewrite (send_a2m _ _ _ _ _ Hsend (ModuleAddress ModuleName) (FeeDenom p)).
  rewrite decide_False by congruence. rewrite decide_True by done.
  unfold AmountOf, zsum. simpl. rewrite decide_True by done. lia.
Qed.

(** A governance top-up stores the governance account with [amt] more. *)
Lemma gov_update_value f ctx amt s g s' :
  UpdateByAddr_with (UpdateStreamRecord f ctx) ctx (gov_change amt) s = (Ret g, s') ->
  gov_ok s -> timely_state ctx s -> GovernanceAddress <> ModuleAddress ModuleName ->
  total_value (BlockTime ctx) s' =
    total_value (BlockTime ctx) s + amt + (module_balance s' - module_balance s) /\
  timely_state ctx s' /\ gov_ok s' /\
  (forall a, a <> GovernanceAddress -> stream_records s' !! a = stream_records s !! a).
Proof.
  intros (s1 & Hupd & Hcheck & ->)%UpdateByAddr_with_Ret Hgov Ht Hne.
  change (ChangeAddr (gov_change amt)) with GovernanceAddress in Hupd.
  set (g0 := (GetStreamRecord ctx GovernanceAddress s).1) in *.
  assert (Status g0 = STREAM_ACCOUNT_STATUS_ACTIVE) as Hact.
  { unfold g0, GetStreamRecord. case_match eqn:Hg; [|done]. by apply Hgov in Hg as [? _]. }
  pose proof (gov_rate ctx s Hgov) as Hrate. fold g0 in Hrate.
  pose proof (timely_GetStreamRecord ctx GovernanceAddress s Ht) as Htg. fold g0 in Htg.
  apply UpdateStreamRecord_active in Hupd as (f' & -> & Hspec); [|done].
  destruct Hspec as [amt1 b' ts Hpaid r1 Hpay Hts Hdur -> ->
                    |amt1 b' g' s2 ts Hpaid r1 Hforced Hneg Hdur Hi Hts Hrec -> ->].
  2: { exfalso. unfold r1, topped in Hneg. simpl in Hneg. rewrite staged_rate in Hneg.
       simpl in Hneg. lia. }
  assert (Account g0 = GovernanceAddress) as Hag by apply GetStreamRecord_account.
  assert (Account (set_settle ts r1) = GovernanceAddress) as Ha1.
  { unfold r1, topped. simpl. by rewrite staged_account. }
  rewrite Ha1, records_auto_settle. rewrite Hag in Hpaid.
  split_and!.
  - unfold total_value at 1. simpl. rewrite map_sum_insert. unfold contrib.
    rewrite <- (value_GetStreamRecord ctx). fold g0.
    change (value_at (BlockTime ctx) (set_settle ts r1)) with (value_at (BlockTime ctx) r1).
    unfold r1. rewrite value_topped by done. simpl.
    unfold module_balance at 1. simpl.
    rewrite bank_auto_settle.
    rewrite (frame_params _ _ (frame_auto_settle _ _ _ (with_bank b' s))). simpl.
    rewrite (paid_from_balance _ _ _ _ _ _ Hpaid Hne eq_refl).
    unfold module_balance, total_value. lia.
  - intros a r. simpl. rewrite lookup_insert_Some. intros [[_ <-]|[_ H']]; [|by eapply Ht].
    by apply timely_topped.
  - intros r. simpl. rewrite lookup_insert_eq. intros [= <-]. unfold r1, topped. simpl.
    rewrite staged_status, staged_rate. split; [done|]. simpl. lia.
  - intros a Ha. simpl. by rewrite lookup_insert_ne.
Qed.

(** The side conditions of the value lemmas, kept by every update. *)
Record sane ctx s : Prop := mkSane {
  sane_gov : gov_ok s;
  sane_timely : timely_state ctx s;
  sane_module : GovernanceAddress <> ModuleAddress ModuleName;
}.

Lemma sane_auto_settle ctx a t1 t2 s :
  sane ctx s -> sane ctx (UpdateAutoSettleRecord a t1 t2 s).
Proof.
  intros []. constructor; [by apply gov_ok_auto_settle|by apply timely_auto_settle|done].
Qed.

Lemma UpdateStreamRecord_value f ctx r ch s r' s' :
  UpdateStreamRecord f ctx r ch s = (Ret r', s') ->
  Status r = STREAM_ACCOUNT_STATUS_ACTIVE -> timely ctx r -> sane ctx s ->
  Account r <> ModuleAddress ModuleName ->
  total_value (BlockTime ctx) s' + value_at (BlockTime ctx) r' =
    total_value (BlockTime ctx) s + value_at (BlockTime ctx) r + StaticBalanceChange ch
      + (module_balance s' - module_balance s) /\
  sane ctx s' /\ timely ctx r' /\
  (forall a, a <> GovernanceAddress -> stream_records s' !! a = stream_records s !! a) /\
  (0 <= NetflowRate r + RateChange ch ->
     stream_records s' = stream_records s /\ Status r' = STREAM_ACCOUNT_STATUS_ACTIVE).
Proof.
  intros Hrun Hact Ht Hsane Hne.
  apply UpdateStreamRecord_active in Hrun as (f' & -> & Hspec); [|done].
  destruct Hspec as [amt b' ts Hpaid r1 Hpay Hts Hdur -> ->
                    |amt b' g s1 ts Hpaid r1 Hforced Hneg Hdur Hi Hts Hgov -> ->].
  - assert (module_balance (with_bank b' s) = module_balance s + amt) as Hmb.
    { unfold module_balance. simpl. by rewrite (paid_from_balance _ _ _ _ _ _ Hpaid Hne eq_refl). }
    rewrite total_value_auto_settle, module_balance_auto_settle, Hmb.
    change (total_value (BlockTime ctx) (with_bank b' s)) with (total_value (BlockTime ctx) s).
    change (value_at (BlockTime ctx) (set_settle ts r1)) with (value_at (BlockTime ctx) r1).
    unfold r1 at 1. rewrite value_topped by done.
    split_and!; try lia.
    + apply sane_auto_settle. by destruct Hsane.
    + by apply timely_topped.
    + intros a _. by rewrite records_auto_settle.
    + intros _. rewrite records_auto_settle. split; [done|].
      unfold r1, topped. simpl. by rewrite staged_status.
  - assert (CrudTimestamp r1 = BlockTime ctx) as Hcrud.
    { unfold r1, topped. simpl. rewrite staged_crud. unfold timely in Ht. lia. }
    assert (Status r1 = STREAM_ACCOUNT_STATUS_ACTIVE) as Hact1.
    { unfold r1, topped. simpl. by rewrite staged_status. }
    rewrite value_settled by done. unfold r1 at 1. rewrite value_topped by done.
    pose proof Hsane as [Hg Hts' Hm].
    apply gov_update_value in Hgov as (Hval & Ht1 & Hg1 & Hfr); try done.
    rewrite total_value_auto_settle, module_balance_auto_settle, Hval.
    assert (module_balance (with_bank b' s) = module_balance s + amt) as ->.
    { unfold module_balance. simpl. by rewrite (paid_from_balance _ _ _ _ _ _ Hpaid Hne eq_refl). }
    change (total_value (BlockTime ctx) (with_bank b' s)) with (total_value (BlockTime ctx) s).
    split_and!; try lia.
    + by apply sane_auto_settle.
    + unfold timely. change (CrudTimestamp (set_settle ts (settled r1))) with (CrudTimestamp r1).
      rewrite Hcrud. unfold two63. lia.
    + intros a Ha. rewrite records_auto_settle. by apply Hfr.
    + intros Hnn. exfalso. unfold r1, topped in Hneg. simpl in Hneg.
      rewrite staged_rate in Hneg. lia.
Qed.

Lemma GetStreamRecord_status ctx a s :
  is_frozen (Status (GetStreamRecord ctx a s).1) =
  match stream_records s !! a with Some r => is_frozen (Status r) | None => false end.
Proof. unfold GetStreamRecord. by case_match. Qed.

(** Updating a stored record: the value of the module's records changes by
    the static balance change and by what the bank moved; a frozen record
    takes no static balance. *)
Lemma UpdateByAddr_value f ctx ch s r' s' :
  UpdateByAddr_with (UpdateStreamRecord f ctx) ctx ch s = (Ret r', s') ->
  sane ctx s -> ChangeAddr ch <> ModuleAddress ModuleName ->
  let r := (GetStreamRecord ctx (ChangeAddr ch) s).1 in
  (ChangeAddr ch = GovernanceAddress -> 0 <= NetflowRate r + RateChange ch) ->
  total_value (BlockTime ctx) s' - module_balance s' =
    total_value (BlockTime ctx) s - module_balance s
      + (if is_frozen (Status r) then 0 else StaticBalanceChange ch) /\
  sane ctx s'.
Proof.
  intros (s1 & Hupd & Hcheck & ->)%UpdateByAddr_with_Ret Hsane Hne r Hgov. fold r in Hupd.
  pose proof (GetStreamRecord_account ctx (ChangeAddr ch) s) as Ha. fold r in Ha.
  pose proof (timely_GetStreamRecord ctx (ChangeAddr ch) s (sane_timely _ _ Hsane)) as Ht.
  fold r in Ht. pose proof (value_GetStreamRecord ctx (ChangeAddr ch) s) as Hv. fold r in Hv.
  destruct (UpdateStreamRecord_books f ctx _ _ _ _ _ Hupd) as (Hf & Ha' & Hbook & _).
  rewrite Ha' , Ha, total_value_insert.
  change (module_balance (with_records _ s1)) with (module_balance s1).
  destruct (Status r) eqn:Hst; simpl.
  - apply UpdateStreamRecord_value in Hupd as (Hval & [Hg1 Ht1 Hm1] & Htr & Hfr & Hnn);
      [|done|done|done|by rewrite Ha].
    assert (stream_records s1 !! ChangeAddr ch = stream_records s !! ChangeAddr ch) as Hsame.
    { destruct (decide (ChangeAddr ch = GovernanceAddress)) as [He|]; [|by apply Hfr].
      destruct (Hnn (Hgov He)) as [-> _]. done. }
    rewrite Hsame, <- Hv. split; [lia|].
    constructor; [|by apply timely_insert|done].
    intros g. simpl. rewrite lookup_insert_Some. intros [[He <-]|[_ Hl]]; [|by apply Hg1].
    split; [by apply Hnn, Hgov|]. injection Hbook as -> _ _. by apply Hgov.
  - apply UpdateStreamRecord_frozen in Hupd as (_ & -> & Hhold & ->); [|done].
    rewrite <- Hv. unfold value_at. simpl. rewrite Hst. simpl.
    assert (Status (apply_lock ch r) = STREAM_ACCOUNT_STATUS_FROZEN) as ->
      by (unfold apply_lock; case_ifs; done).
    simpl. split; [lia|]. destruct Hsane as [Hg Hts Hm].
    constructor; [|apply timely_insert; [|done]|done].
    + intros g. simpl. rewrite lookup_insert_Some. intros [[He <-]|[_ Hl]]; [|by apply Hg].
      exfalso. pose proof (GetStreamRecord_status ctx (ChangeAddr ch) s) as Hs.
      fold r in Hs. rewrite Hst in Hs. simpl in Hs.
      destruct (stream_records s !! ChangeAddr ch) as [g0|] eqn:Hg0; [|done].
      rewrite He in Hg0. apply Hg in Hg0 as [Hg0 _]. by rewrite Hg0 in Hs.
    + unfold timely, set_frozen, set_rate, apply_lock in *. case_ifs; done.
Qed.
End Value.
