(* ===== verification/PaymentFlows.v ===== *)
(** * x/payment: charging flows

    [keeper/storage_fee_charge.go]: merging changes and flows by address and
    applying lists of user flows to payers and receivers.  A Go map keyed by
    address text is a finite map keyed by address; the slices built from it
    are sorted by address text. *)

From S2P Require Import Prelude Sdk PaymentTypes PaymentStore PaymentStream.

Section Flows.
Context {B : Type} {HBank : BankKeeper B} {HAddr : Addresses}.
Implicit Types (s : State B) (ctx : Ctx) (r : StreamRecord).

(** [sort.Slice(l, ...String() < ...String())] *)
Definition text_le {A} (addr : A -> Addr) (x y : A) : Prop :=
  String.le (AccAddress_String (addr x)) (AccAddress_String (addr y)).

#[global] Instance text_le_dec {A} (addr : A -> Addr) : RelDecision (text_le addr).
Proof. intros x y. unfold text_le. apply _. Defined.

Definition sort_by_text {A} (addr : A -> Addr) (l : list A) : list A :=
  merge_sort (text_le addr) l.

(** ** Merging *)

Definition merge_change (m : gmap Addr StreamRecordChange) (change : StreamRecordChange)
    : gmap Addr StreamRecordChange :=
  let currentChange :=
    match m !! ChangeAddr change with
    | Some c => c
    | None => NewDefaultStreamRecordChangeWithAddr (ChangeAddr change)
    end in
  <[ChangeAddr change :=
      mkChange (ChangeAddr currentChange)
        (RateChange currentChange + RateChange change)
        (StaticBalanceChange currentChange + StaticBalanceChange change)
        (LockBalanceChange currentChange + LockBalanceChange change)
        (FrozenRateChange currentChange)]> m.

Definition MergeStreamRecordChanges (changes : list StreamRecordChange)
    : list StreamRecordChange :=
  if (length changes <=? 1)%nat then changes
  else
    let changeMap := foldl merge_change ∅ changes in
    sort_by_text ChangeAddr (map_to_list changeMap).*2.

Definition merge_flow (m : gmap Addr Z) (flow : OutFlow) : gmap Addr Z :=
  match m !! ToAddress flow with
  | Some rate => <[ToAddress flow := rate + Rate flow]> m
  | None => <[ToAddress flow := Rate flow]> m
  end.

Definition MergeOutFlows (flows : list OutFlow) : list OutFlow :=
  if (length flows <=? 1)%nat then flows
  else
    let flowMap := foldl merge_flow ∅ flows in
    let newFlows := (fun kv => mkOutFlow kv.1 kv.2 OUT_FLOW_STATUS_ACTIVE) <$>
                      filter (fun kv => kv.2 <> 0) (map_to_list flowMap) in
    sort_by_text ToAddress newFlows.

Definition merge_user (m : gmap Addr (list OutFlow)) (u : UserFlows) : gmap Addr (list OutFlow) :=
  <[From u := default [] (m !! From u) ++ Flows u]> m.

Definition MergeUserFlows (userFlowsList : list UserFlows) : list UserFlows :=
  if (length userFlowsList <=? 1)%nat then userFlowsList
  else
    let userFlowsMap := foldl merge_user ∅ userFlowsList in
    let newUserFlowsList := (fun kv => mkUserFlows kv.1 (MergeOutFlows kv.2)) <$>
                              map_to_list userFlowsMap in
    sort_by_text From newUserFlowsList.

(** ** Applying *)

Fixpoint apply_changes ctx (l : list StreamRecordChange) : PM B unit :=
  match l with
  | [] => ret tt
  | c :: l' => do! UpdateStreamRecordByAddr ctx c ;; apply_changes ctx l'
  end.

Definition ApplyStreamRecordChanges ctx (changes : list StreamRecordChange) : PM B unit :=
  apply_changes ctx (MergeStreamRecordChanges changes).

(** The rate change a flow makes at its receiver. *)
Definition receiver_change (o : OutFlow) : StreamRecordChange :=
  WithRateChange (Rate o) (NewDefaultStreamRecordChangeWithAddr (ToAddress o)).

(** [uint64(int64(count) + int64(delta))] *)
Definition add_count (count delta : Z) : Z := u64 (i64 (i64 count + delta)).

Definition applyActiveUserFlows ctx (u : UserFlows) (from : Addr) r : PM B unit :=
  let rateChanges := receiver_change <$> Flows u in
  let totalRate := zsum Rate (Flows u) in
  let change := WithRateChange (- totalRate) (NewDefaultStreamRecordChangeWithAddr from) in
  let! r1 := UpdateStreamRecord update_fuel ctx r change in
  let! deltaFlowCount := MergeActiveOutFlows from (Flows u) in
  do! SetStreamRecord (set_count (add_count (OutFlowCount r1) deltaFlowCount) r1) ;;
  ApplyStreamRecordChanges ctx rateChanges.

(** The flows that already have an active out flow of the payer. *)
Definition is_active_flow (from : Addr) s (o : OutFlow) : bool :=
  match GetOutFlow from OUT_FLOW_STATUS_ACTIVE (ToAddress o) s with
  | Some _ => true
  | None => false
  end.

Definition applyFrozenUserFlows ctx (u : UserFlows) (from : Addr) r : PM B unit :=
  do! guard (negb (Forced ctx)) ErrRecordFrozen ;;
  let! s := get in
  let activeOutFlows := List.filter (is_active_flow (Account r) s) (Flows u) in
  let frozenOutFlows := List.filter (fun o => negb (is_active_flow (Account r) s o)) (Flows u) in
  let activeRateChanges := receiver_change <$> activeOutFlows in
  let totalActiveRate := zsum Rate activeOutFlows in
  let totalFrozenRate := zsum Rate frozenOutFlows in
  let change := WithFrozenRateChange (- totalFrozenRate)
                  (WithRateChange (- totalActiveRate)
                    (NewDefaultStreamRecordChangeWithAddr from)) in
  let! r1 := UpdateStreamRecord update_fuel ctx r change in
  let! deltaActiveFlowCount := MergeActiveOutFlows from activeOutFlows in
  let! deltaFrozenFlowCount := MergeFrozenOutFlows from frozenOutFlows in
  do! SetStreamRecord
        (set_count (add_count (OutFlowCount r1) (deltaActiveFlowCount + deltaFrozenFlowCount)) r1) ;;
  ApplyStreamRecordChanges ctx activeRateChanges.

Fixpoint apply_user_flows ctx (l : list UserFlows) : PM B unit :=
  match l with
  | [] => ret tt
  | u :: l' =>
      let! s := get in
      let '(r0, found) := GetStreamRecord ctx (From u) s in
      let streamRecord := if negb found then NewStreamRecord (From u) (BlockTime ctx) else r0 in
      do! (match Status streamRecord with
           | STREAM_ACCOUNT_STATUS_ACTIVE => applyActiveUserFlows ctx u (From u) streamRecord
           | STREAM_ACCOUNT_STATUS_FROZEN => applyFrozenUserFlows ctx u (From u) streamRecord
           end) ;;
      apply_user_flows ctx l'
  end.

Definition ApplyUserFlowsList ctx (userFlowsList : list UserFlows) : PM B unit :=
  apply_user_flows ctx (MergeUserFlows userFlowsList).

End Flows.
