(* ===== verification/PaymentFlowsFacts.v ===== *)
(** * x/payment: facts about merging and applying flows

    Merging keeps the total change of every address; applying user flows
    keeps the books: the rate, frozen rate and flow count of every stream
    record are those of the out flow store. *)

From S2P Require Import Prelude Sdk PaymentTypes PaymentStore PaymentStream PaymentStreamFacts.
From S2P Require Import PaymentFlows.

(** The value of a map at a key, as a sum. *)
Lemma map_sum_at (m : gmap Z Z) (a : Z) :
  map_sum (fun k v => if decide (k = a) then v else 0) m = default 0 (m !! a).
Proof.
  induction m as [|k v m Hk IH] using map_ind.
  - done.
  - rewrite map_sum_insert_fresh by done. rewrite IH, lookup_insert.
    clear IH. destruct (decide (k = a)) as [->|]; [|lia]. rewrite Hk. simpl. lia.
Qed.

Lemma zsum_fmap {A C} (f : C -> Z) (g : A -> C) l : zsum f (g <$> l) = zsum (fun x => f (g x)) l.
Proof.
  induction l as [|x l IH]; [done|]. rewrite fmap_cons. unfold zsum in *. simpl.
  by rewrite IH.
Qed.

Lemma zsum_ext {A} (f g : A -> Z) l :
  (forall x, x ∈ l -> f x = g x) -> zsum f l = zsum g l.
Proof.
  induction l as [|x l IH]; intros Hfg; [done|]. unfold zsum in *. simpl.
  rewrite Hfg by set_solver. rewrite IH; [done|]. set_solver.
Qed.

Lemma zsum_filter {A} (f : A -> Z) (P : A -> Prop) `{!forall x, Decision (P x)} l :
  (forall x, ~ P x -> f x = 0) -> zsum f (filter P l) = zsum f l.
Proof.
  intros Hf. induction l as [|x l IH]; [done|]. rewrite filter_cons.
  unfold zsum in *. destruct (decide (P x)); simpl; [lia|]. rewrite Hf by done. lia.
Qed.

Lemma zsum_filter_split {A} (f : A -> Z) (p : A -> bool) l :
  zsum f (List.filter p l) + zsum f (List.filter (fun x => negb (p x)) l) = zsum f l.
Proof.
  induction l as [|x l IH]; [done|]. simpl. unfold zsum in *.
  destruct (p x); simpl; lia.
Qed.

Section Merge.
Context {HAddr : Addresses} {HLaws : AddressLaws}.

#[local] Instance text_le_total {A} (addr : A -> Addr) : Total (text_le addr).
Proof. intros x y. unfold text_le. apply total, _. Qed.
#[local] Instance text_le_trans {A} (addr : A -> Addr) : Transitive (text_le addr).
Proof. intros x y z. unfold text_le. intros. by etrans. Qed.

Lemma sort_by_text_perm {A} (addr : A -> Addr) l : sort_by_text addr l ≡ₚ l.
Proof. apply merge_sort_Permutation. Qed.

Lemma sort_by_text_sorted {A} (addr : A -> Addr) l :
  StronglySorted (text_le addr) (sort_by_text addr l).
Proof. apply StronglySorted_merge_sort; apply _. Qed.

(** ** Out flows *)

(** The rate a list of flows sends to [a]. *)
Definition rate_to (a : Addr) (l : list OutFlow) : Z :=
  zsum (fun o => if decide (ToAddress o = a) then Rate o else 0) l.

Lemma merge_flow_lookup m l a :
  default 0 (foldl merge_flow m l !! a) = default 0 (m !! a) + rate_to a l.
Proof.
  revert m. induction l as [|o l IH]; intros m; simpl; [unfold rate_to, zsum; simpl; lia|].
  rewrite IH. unfold rate_to, zsum. simpl.
  assert (default 0 (merge_flow m o !! a) =
          default 0 (m !! a) + (if decide (ToAddress o = a) then Rate o else 0)) as ->; [|lia].
  unfold merge_flow. destruct (decide (ToAddress o = a)) as [->|Hne].
  - destruct (m !! a); rewrite lookup_insert_eq; simpl; lia.
  - destruct (m !! ToAddress o); rewrite lookup_insert_ne by done; lia.
Qed.

Lemma MergeOutFlows_rate_to a l : rate_to a (MergeOutFlows l) = rate_to a l.
Proof.
  unfold MergeOutFlows. destruct (length l <=? 1)%nat; [done|].
  unfold rate_to at 1. rewrite sort_by_text_perm, zsum_fmap. simpl.
  rewrite (zsum_filter (fun kv : Z * Z => if decide (kv.1 = a) then kv.2 else 0)).
  2: { intros x Hx. destruct (decide (x.1 = a)); lia. }
  rewrite zsum_map_to_list. simpl.
  rewrite map_sum_at, merge_flow_lookup, lookup_empty. simpl. lia.
Qed.

Lemma MergeOutFlows_shape l :
  (2 <= length l)%nat ->
  StronglySorted (text_le ToAddress) (MergeOutFlows l) /\
  NoDup (ToAddress <$> MergeOutFlows l) /\
  Forall (fun o => Rate o <> 0) (MergeOutFlows l).
Proof.
  intros Hlen. unfold MergeOutFlows.
  destruct (Nat.leb_spec (length l) 1) as [|_]; [lia|].
  set (newFlows := _ <$> filter _ _). split_and!.
  - apply sort_by_text_sorted.
  - rewrite sort_by_text_perm. unfold newFlows. rewrite <- list_fmap_compose. simpl.
    eapply (sublist_NoDup _ (map_to_list (foldl merge_flow ∅ l)).*1).
    + apply NoDup_fst_map_to_list.
    + apply fmap_sublist, sublist_filter.
  - rewrite sort_by_text_perm. unfold newFlows. apply Forall_fmap, Forall_forall.
    intros x [Hx _]%list_elem_of_filter. done.
Qed.

(** ** Stream record changes *)

(** The total change of a component at address [a]. *)
Definition change_at (f : StreamRecordChange -> Z) (a : Addr) (l : list StreamRecordChange) : Z :=
  zsum (fun c => if decide (ChangeAddr c = a) then f c else 0) l.

(** The three components that merging adds up. *)
Definition merged_component (f : StreamRecordChange -> Z) : Prop :=
  f = RateChange \/ f = StaticBalanceChange \/ f = LockBalanceChange.

Lemma merge_change_lookup f m l a :
  merged_component f ->
  match foldl merge_change m l !! a with Some c => f c | None => 0 end =
  match m !! a with Some c => f c | None => 0 end + change_at f a l.
Proof.
  intros Hf. revert m. induction l as [|c l IH]; intros m; simpl.
  { unfold change_at, zsum. simpl. lia. }
  rewrite IH. unfold change_at, zsum. simpl.
  assert (match merge_change m c !! a with Some c => f c | None => 0 end =
          match m !! a with Some c => f c | None => 0 end +
          (if decide (ChangeAddr c = a) then f c else 0)) as ->; [|lia].
  unfold merge_change. destruct (decide (ChangeAddr c = a)) as [->|Hne].
  - rewrite lookup_insert_eq.
    destruct Hf as [->|[->| ->]], (m !! a); simpl; lia.
  - rewrite lookup_insert_ne by done. lia.
Qed.

Lemma merge_change_keys m l :
  (forall a c, m !! a = Some c -> ChangeAddr c = a /\ FrozenRateChange c = 0) ->
  forall a c, foldl merge_change m l !! a = Some c -> ChangeAddr c = a /\ FrozenRateChange c = 0.
Proof.
  revert m. induction l as [|c0 l IH]; intros m Hm; simpl; [done|].
  apply IH. intros a c. unfold merge_change. rewrite lookup_insert_Some.
  intros [[<- <-]|[_ Ha]]; [|by apply Hm]. simpl.
  destruct (m !! ChangeAddr c0) eqn:E; [by apply Hm|done].
Qed.

Lemma MergeStreamRecordChanges_change_at f a l :
  merged_component f -> change_at f a (MergeStreamRecordChanges l) = change_at f a l.
Proof.
  intros Hf. unfold MergeStreamRecordChanges. destruct (length l <=? 1)%nat; [done|].
  unfold change_at at 1. rewrite sort_by_text_perm, zsum_fmap.
  set (m := foldl merge_change ∅ l).
  rewrite (zsum_ext _ (fun kv => if decide (kv.1 = a) then f kv.2 else 0)).
  2: { intros [k c] Hkc%elem_of_map_to_list. simpl.
       apply merge_change_keys in Hkc as [-> _]; [done|]. intros ??. by rewrite lookup_empty. }
  rewrite zsum_map_to_list. simpl.
  transitivity (match m !! a with Some c => f c | None => 0 end).
  - clearbody m. induction m as [|k c m Hk IH] using map_ind; [done|].
    rewrite map_sum_insert_fresh by done. rewrite IH, lookup_insert. clear IH.
    destruct (decide (k = a)) as [->|]; [|lia]. rewrite Hk. lia.
  - unfold m. rewrite merge_change_lookup by done. rewrite lookup_empty. lia.
Qed.

Lemma MergeStreamRecordChanges_frozen l :
  Forall (fun c => FrozenRateChange c = 0) l ->
  Forall (fun c => FrozenRateChange c = 0) (MergeStreamRecordChanges l).
Proof.
  intros Hl. unfold MergeStreamRecordChanges. destruct (length l <=? 1)%nat; [done|].
  rewrite sort_by_text_perm. apply Forall_fmap, Forall_forall.
  intros [k c] Hkc%elem_of_map_to_list. simpl.
  apply merge_change_keys in Hkc as [_ ?]; [done|]. intros ??. by rewrite lookup_empty.
Qed.

Lemma MergeStreamRecordChanges_shape l :
  (2 <= length l)%nat ->
  StronglySorted (text_le ChangeAddr) (MergeStreamRecordChanges l) /\
  NoDup (ChangeAddr <$> MergeStreamRecordChanges l).
Proof.
  intros Hlen. unfold MergeStreamRecordChanges.
  destruct (Nat.leb_spec (length l) 1) as [|_]; [lia|]. split.
  - apply sort_by_text_sorted.
  - rewrite sort_by_text_perm.
    assert (ChangeAddr <$> (map_to_list (foldl merge_change ∅ l)).*2 =
            (map_to_list (foldl merge_change ∅ l)).*1) as ->.
    { rewrite <- list_fmap_compose. apply list_fmap_ext. intros i [k c] Hi. simpl.
      apply list_elem_of_lookup_2, elem_of_map_to_list in Hi.
      apply merge_change_keys in Hi as [? _]; [done|]. intros ??. by rewrite lookup_empty. }
    apply NoDup_fst_map_to_list.
Qed.

(** ** User flows *)

(** The rate a list of user flows sends from [f] to [t]. *)
Definition user_rate (f t : Addr) (l : list UserFlows) : Z :=
  zsum (fun u => if decide (From u = f) then rate_to t (Flows u) else 0) l.

Lemma rate_to_app a l1 l2 : rate_to a (l1 ++ l2) = rate_to a l1 + rate_to a l2.
Proof. apply zsum_app. Qed.

Lemma merge_user_lookup m l f t :
  rate_to t (default [] (foldl merge_user m l !! f)) =
  rate_to t (default [] (m !! f)) + user_rate f t l.
Proof.
  revert m. induction l as [|u l IH]; intros m; simpl.
  { unfold user_rate, zsum. simpl. lia. }
  rewrite IH. unfold user_rate, zsum. simpl.
  assert (rate_to t (default [] (merge_user m u !! f)) =
          rate_to t (default [] (m !! f)) +
          (if decide (From u = f) then rate_to t (Flows u) else 0)) as ->; [|lia].
  unfold merge_user. destruct (decide (From u = f)) as [->|Hne].
  - rewrite lookup_insert_eq. simpl. apply rate_to_app.
  - rewrite lookup_insert_ne by done. lia.
Qed.

Lemma MergeUserFlows_user_rate f t l : user_rate f t (MergeUserFlows l) = user_rate f t l.
Proof.
  unfold MergeUserFlows. destruct (length l <=? 1)%nat; [done|].
  unfold user_rate at 1. rewrite sort_by_text_perm, zsum_fmap. simpl.
  set (m := foldl merge_user ∅ l).
  rewrite (zsum_ext _ (fun kv => if decide (kv.1 = f) then rate_to t kv.2 else 0)).
  2: { intros [k c] _. simpl. by rewrite MergeOutFlows_rate_to. }
  rewrite zsum_map_to_list. simpl.
  transitivity (rate_to t (default [] (m !! f))).
  - clearbody m. induction m as [|k c m Hk IH] using map_ind; [done|].
    rewrite map_sum_insert_fresh by done. rewrite IH, lookup_insert. clear IH.
    destruct (decide (k = f)) as [->|]; [|lia]. rewrite Hk. simpl.
    change (rate_to t []) with 0. lia.
  - unfold m. rewrite merge_user_lookup, lookup_empty. simpl.
    change (rate_to t []) with 0. lia.
Qed.
End Merge.
