(* ===== verification/PaymentBooks.v ===== *)
(** * x/payment: double-entry bookkeeping

    The books of an address are the rate, the frozen rate and the number of
    flows of its stream record.  [books_ok] says that they are what the out
    flow store says: the rate is the active inflow less the active outflow,
    the frozen rate is the frozen outflow with its sign, and the count is the
    number of out flows.  Charging flows keeps the books. *)

From S2P Require Import Prelude Sdk PaymentTypes PaymentStore PaymentStream PaymentStreamFacts.
From S2P Require Import PaymentFlows PaymentFlowsFacts.

(** ** Sums over the out flow store *)

Definition flow_sum (w : FlowKey -> Z) (m : gmap FlowKey Z) : Z :=
  map_sum (fun k rate => w k * rate) m.

Definition indicator (a b : Z) : Z := if decide (a = b) then 1 else 0.

Definition net_weight (a : Addr) (k : FlowKey) : Z :=
  let '(f, st, t) := k in
  match st with
  | OUT_FLOW_STATUS_ACTIVE => indicator t a - indicator f a
  | OUT_FLOW_STATUS_FROZEN => 0
  end.

Definition frozen_weight (a : Addr) (k : FlowKey) : Z :=
  let '(f, st, _) := k in
  match st with
  | OUT_FLOW_STATUS_ACTIVE => 0
  | OUT_FLOW_STATUS_FROZEN => - indicator f a
  end.

(** Sums over the keys alone, and the number of flows of a payer. *)
Definition key_sum (w : FlowKey -> Z) (m : gmap FlowKey Z) : Z := map_sum (fun k _ => w k) m.

Definition flow_count (m : gmap FlowKey Z) (a : Addr) : Z :=
  key_sum (fun k => indicator k.1.1 a) m.

Definition flow_book (m : gmap FlowKey Z) (a : Addr) : Z * Z * Z :=
  (flow_sum (net_weight a) m, flow_sum (frozen_weight a) m, u64 (flow_count m a)).

Lemma flow_sum_insert w m k rate :
  flow_sum w (<[k := rate]> m) =
  flow_sum w m + w k * rate - w k * default 0 (m !! k).
Proof.
  unfold flow_sum. rewrite map_sum_insert. unfold contrib.
  destruct (m !! k); simpl; lia.
Qed.

Lemma flow_sum_delete w m k :
  flow_sum w (delete k m) = flow_sum w m - w k * default 0 (m !! k).
Proof.
  unfold flow_sum. rewrite map_sum_delete_contrib. unfold contrib.
  destruct (m !! k); simpl; lia.
Qed.

Lemma key_sum_insert w m k rate :
  key_sum w (<[k := rate]> m) = key_sum w m + (if m !! k is Some _ then 0 else w k).
Proof.
  unfold key_sum. rewrite map_sum_insert. unfold contrib. destruct (m !! k); lia.
Qed.

Lemma key_sum_delete w m k :
  key_sum w (delete k m) = key_sum w m - (if m !! k is Some _ then w k else 0).
Proof.
  unfold key_sum. rewrite map_sum_delete_contrib. unfold contrib. destruct (m !! k); lia.
Qed.

(** Equal books, component by component. *)
Ltac book_eq := simpl; rewrite ?pair_equal_spec; split_and!; lia.

(** ** Counters at machine width *)

Lemma u64_add_l x y : u64 (u64 x + y) = u64 (x + y).
Proof. unfold u64. by rewrite Z.add_mod_idemp_l. Qed.

Lemma u64_i64 x : u64 (i64 x) = u64 x.
Proof.
  unfold u64, i64. rewrite Zminus_mod_idemp_l. f_equal. lia.
Qed.

Lemma u64_i64_add_l x y : u64 (i64 x + y) = u64 (x + y).
Proof. rewrite <- (u64_add_l (i64 x)), u64_i64. apply u64_add_l. Qed.

Lemma add_count_u64 c d : add_count (u64 c) d = u64 (c + d).
Proof. unfold add_count. by rewrite u64_i64, u64_i64_add_l, u64_add_l. Qed.

Section Books.
Context {B : Type} {HBank : BankKeeper B} {HAddr : Addresses} {HLaws : AddressLaws}.
Implicit Types (s : State B) (ctx : Ctx) (r : StreamRecord).

Definition books_ok s : Prop := forall a, book_of s a = flow_book (out_flows s) a.

(** ** Merging out flows into the store *)

Lemma with_flows_flows m m' s : with_flows m (with_flows m' s) = with_flows m s.
Proof. done. Qed.

Lemma mergeOutFlows_loop_spec addr st l d s d' s' :
  mergeOutFlows_loop addr st l d s = (d', s') ->
  s' = with_flows (out_flows s') s /\
  (forall w, flow_sum w (out_flows s') =
     flow_sum w (out_flows s) + zsum (fun o => w (addr, st, ToAddress o) * Rate o) l) /\
  (forall a, flow_count (out_flows s') a =
     flow_count (out_flows s) a + indicator addr a * (d' - d)).
Proof.
  revert d s. induction l as [|o l IH]; intros d s Hrun; simpl in Hrun.
  { injection Hrun as <- <-. split_and!.
    - by destruct s.
    - intros w. unfold zsum. simpl. lia.
    - intros a. lia. }
  destruct (out_flows s !! (addr, st, ToAddress o)) as [v|] eqn:Hv.
  - destruct (v + Rate o =? 0) eqn:Hz.
    + apply IH in Hrun as (Hs & Hw & Hc). split_and!.
      * by rewrite Hs.
      * intros w. rewrite Hw. unfold DeleteOutFlow. simpl.
        rewrite flow_sum_delete, Hv. unfold zsum. simpl. nia.
      * intros a. rewrite Hc. unfold DeleteOutFlow. simpl.
        unfold flow_count. rewrite key_sum_delete, Hv. simpl. lia.
    + apply IH in Hrun as (Hs & Hw & Hc). split_and!.
      * by rewrite Hs.
      * intros w. rewrite Hw. unfold SetOutFlow. simpl.
        rewrite flow_sum_insert, Hv. unfold zsum. simpl. lia.
      * intros a. rewrite Hc. unfold SetOutFlow. simpl.
        unfold flow_count. rewrite key_sum_insert, Hv. simpl. lia.
  - apply IH in Hrun as (Hs & Hw & Hc). split_and!.
    + by rewrite Hs.
    + intros w. rewrite Hw. unfold SetOutFlow. simpl.
      rewrite flow_sum_insert, Hv. unfold zsum. simpl. lia.
    + intros a. rewrite Hc. unfold SetOutFlow. simpl.
      unfold flow_count. rewrite key_sum_insert, Hv. simpl. lia.
Qed.

Lemma mergeOutFlows_Ret addr st l s d s' :
  mergeOutFlows addr st l s = (Ret d, s') -> mergeOutFlows_loop addr st l 0 s = (d, s').
Proof. unfold mergeOutFlows. destruct (mergeOutFlows_loop _ _ _ _ _). naive_solver. Qed.

(** The weights of a payer's flows. *)
Lemma zsum_net_active from a l :
  zsum (fun o => net_weight a (from, OUT_FLOW_STATUS_ACTIVE, ToAddress o) * Rate o) l =
  rate_to a l - indicator from a * zsum Rate l.
Proof.
  induction l as [|o l IH]; [unfold rate_to, zsum; simpl; lia|].
  unfold rate_to, zsum in *. simpl in *. rewrite IH. unfold indicator.
  destruct (decide (ToAddress o = a)), (decide (from = a)); lia.
Qed.

Lemma zsum_frozen_frozen from a l :
  zsum (fun o => frozen_weight a (from, OUT_FLOW_STATUS_FROZEN, ToAddress o) * Rate o) l =
  - indicator from a * zsum Rate l.
Proof.
  induction l as [|o l IH]; [unfold zsum; simpl; lia|].
  unfold zsum in *. simpl in *. rewrite IH. lia.
Qed.

Lemma zsum_zero {A} (f : A -> Z) l : (forall x, f x = 0) -> zsum f l = 0.
Proof. intros Hf. induction l as [|x l IH]; [done|]. unfold zsum in *. simpl. rewrite Hf. lia. Qed.

(** ** Rate changes at the receivers *)

Lemma apply_changes_books ctx l s u s' :
  apply_changes ctx l s = (Ret u, s') ->
  Forall (fun c => FrozenRateChange c = 0) l ->
  frame s s' /\
  forall a, book_of s' a =
    ((book_of s a).1.1 + change_at RateChange a l, (book_of s a).1.2, (book_of s a).2).
Proof.
  revert s. induction l as [|c l IH]; intros s Hrun Hl; simpl in Hrun.
  { minv. split; [done|]. intros a. unfold change_at, zsum. simpl.
    rewrite Z.add_0_r. by destruct (book_of s' a) as [[]]. }
  apply bind_Ret in Hrun as (r' & s1 & Hupd & Hrun).
  apply Forall_cons in Hl as [Hc Hl].
  apply UpdateStreamRecordByAddr_books in Hupd as (Hf & _ & _ & Hb).
  apply IH in Hrun as [Hf' Hb']; [|done]. split; [by etrans|].
  intros a. rewrite Hb', Hb. unfold change_at, zsum. simpl.
  destruct (decide (a = ChangeAddr c)) as [->|Hne].
  - rewrite decide_True by done. rewrite <- (GetStreamRecord_book ctx (ChangeAddr c) s).
    unfold booked, book. rewrite Hc. simpl. destruct (is_frozen _); book_eq.
  - rewrite decide_False by done. book_eq.
Qed.

Lemma change_at_receivers a l :
  change_at RateChange a (receiver_change <$> l) = rate_to a l.
Proof. unfold change_at, rate_to. by rewrite zsum_fmap. Qed.

Lemma ApplyStreamRecordChanges_books ctx l s u s' :
  ApplyStreamRecordChanges ctx (receiver_change <$> l) s = (Ret u, s') ->
  frame s s' /\
  forall a, book_of s' a =
    ((book_of s a).1.1 + rate_to a l, (book_of s a).1.2, (book_of s a).2).
Proof.
  intros [Hf Hb]%apply_changes_books.
  - split; [done|]. intros a. rewrite Hb.
    rewrite MergeStreamRecordChanges_change_at by (by left).
    by rewrite change_at_receivers.
  - apply MergeStreamRecordChanges_frozen, Forall_fmap, Forall_true. done.
Qed.

(** ** Applying the flows of one payer *)

Lemma GetStreamRecord_found ctx a s :
  (if negb (GetStreamRecord ctx a s).2 then NewStreamRecord a (BlockTime ctx)
   else (GetStreamRecord ctx a s).1) = (GetStreamRecord ctx a s).1.
Proof. unfold GetStreamRecord. by destruct (stream_records s !! a). Qed.

Lemma book_of_flows m s a : book_of (with_flows m s) a = book_of s a.
Proof. done. Qed.

Lemma applyActive_books ctx u from r s v s' :
  applyActiveUserFlows ctx u from r s = (Ret v, s') ->
  r = (GetStreamRecord ctx from s).1 -> Status r = STREAM_ACCOUNT_STATUS_ACTIVE ->
  books_ok s -> books_ok s'.
Proof.
  unfold applyActiveUserFlows. intros Hrun Hr Hst Hok.
  apply bind_Ret in Hrun as (r1 & s1 & Hupd & Hrun).
  apply bind_Ret in Hrun as (d & s2 & Hmerge & Hrun).
  apply bind_Ret in Hrun as (? & s3 & [_ ->]%SetStreamRecord_Ret & Hrun).
  apply ApplyStreamRecordChanges_books in Hrun as [Hf3 Hb3].
  apply mergeOutFlows_Ret, mergeOutFlows_loop_spec in Hmerge as (Hs2 & Hw & Hc).
  apply UpdateStreamRecord_books in Hupd as (Hf1 & Ha1 & Hbr & Hb1).
  assert (Account r = from) as Har by (subst r; apply GetStreamRecord_account).
  assert (book r = flow_book (out_flows s) from) as Hbook
    by (subst r; rewrite GetStreamRecord_book; apply Hok).
  unfold booked in Hbr. rewrite Hst in Hbr. simpl in Hbr.
  unfold book, flow_book in Hbook, Hbr. injection Hbook as Hb01 Hb02 Hb03.
  injection Hbr as Hb11 Hb12 Hb13.
  intros a. rewrite Hb3, (frame_flows _ _ Hf3). simpl. rewrite Ha1, Har, book_of_insert.
  rewrite Hs2. simpl. fold (book_of s1 a). rewrite Hb1.
  unfold flow_book. rewrite !Hw, Hc, (frame_flows _ _ Hf1), zsum_net_active.
  rewrite (zsum_zero (fun o => frozen_weight a _ * _)) by (intros; simpl; lia).
  unfold indicator. destruct (decide (a = from)) as [->|Hne].
  - rewrite decide_True by done. unfold book. simpl.
    rewrite Hb11, Hb12, Hb13, Hb01, Hb02, Hb03, add_count_u64. 
    rewrite !pair_equal_spec; split_and!; try lia. f_equal. lia.
  - rewrite decide_False by congruence. rewrite (Hok a). unfold flow_book. simpl.
    rewrite !pair_equal_spec; split_and!; try lia. f_equal. lia.
Qed.

Lemma applyFrozen_books ctx u from r s v s' :
  applyFrozenUserFlows ctx u from r s = (Ret v, s') ->
  r = (GetStreamRecord ctx from s).1 -> Status r = STREAM_ACCOUNT_STATUS_FROZEN ->
  books_ok s -> books_ok s'.
Proof.
  unfold applyFrozenUserFlows. intros Hrun Hr Hst Hok.
  apply bind_Ret in Hrun as (? & ? & [_ ->]%guard_Ret & Hrun).
  rewrite bind_get in Hrun.
  set (act := List.filter _ (Flows u)) in Hrun. set (fro := List.filter _ (Flows u)) in Hrun.
  apply bind_Ret in Hrun as (r1 & s1 & Hupd & Hrun).
  apply bind_Ret in Hrun as (d & s2 & Hmerge & Hrun).
  apply bind_Ret in Hrun as (d2 & s2' & Hmerge2 & Hrun).
  apply bind_Ret in Hrun as (? & s3 & [_ ->]%SetStreamRecord_Ret & Hrun).
  apply ApplyStreamRecordChanges_books in Hrun as [Hf3 Hb3].
  apply mergeOutFlows_Ret, mergeOutFlows_loop_spec in Hmerge as (Hs2 & Hw & Hc).
  apply mergeOutFlows_Ret, mergeOutFlows_loop_spec in Hmerge2 as (Hs2' & Hw' & Hc').
  apply UpdateStreamRecord_books in Hupd as (Hf1 & Ha1 & Hbr & Hb1).
  assert (Account r = from) as Har by (subst r; apply GetStreamRecord_account).
  assert (book r = flow_book (out_flows s) from) as Hbook
    by (subst r; rewrite GetStreamRecord_book; apply Hok).
  unfold booked in Hbr. rewrite Hst in Hbr. simpl in Hbr.
  unfold book, flow_book in Hbook, Hbr. injection Hbook as Hb01 Hb02 Hb03.
  injection Hbr as Hb11 Hb12 Hb13.
  intros a. rewrite Hb3, (frame_flows _ _ Hf3). simpl. rewrite Ha1, Har, book_of_insert.
  rewrite Hs2'. simpl. rewrite Hs2. simpl. fold (book_of s1 a). rewrite Hb1.
  unfold flow_book. rewrite !Hw', !Hw, Hc', Hc, (frame_flows _ _ Hf1).
  rewrite zsum_net_active, zsum_frozen_frozen.
  rewrite !(zsum_zero (fun o => net_weight a (from, OUT_FLOW_STATUS_FROZEN, _) * _))
    by (intros; simpl; lia).
  rewrite !(zsum_zero (fun o => frozen_weight a (from, OUT_FLOW_STATUS_ACTIVE, _) * _))
    by (intros; simpl; lia).
  unfold indicator. destruct (decide (a = from)) as [->|Hne].
  - rewrite decide_True by done. unfold book. simpl.
    rewrite Hb11, Hb12, Hb13, Hb01, Hb02, Hb03, add_count_u64.
    rewrite !pair_equal_spec; split_and!; try lia. f_equal. lia.
  - rewrite decide_False by congruence. rewrite (Hok a). unfold flow_book. simpl.
    rewrite !pair_equal_spec; split_and!; try lia. f_equal. lia.
Qed.

Lemma apply_user_flows_books ctx l s v s' :
  apply_user_flows ctx l s = (Ret v, s') -> books_ok s -> books_ok s'.
Proof.
  revert s. induction l as [|u l IH]; intros s Hrun Hok; simpl in Hrun; [by minv|].
  rewrite bind_get in Hrun.
  pose proof (GetStreamRecord_found ctx (From u) s) as Hr.
  destruct (GetStreamRecord ctx (From u) s) as [r0 found] eqn:Hget. simpl in Hr.
  rewrite Hr in Hrun. apply bind_Ret in Hrun as (v1 & s1 & Happ & Hrun).
  apply (IH s1); [done|]. destruct (Status r0) eqn:Hst.
  - eapply applyActive_books; [exact Happ|by rewrite Hget|done|done].
  - eapply applyFrozen_books; [exact Happ|by rewrite Hget|done|done].
Qed.
End Books.
