(* ===== verification/PaymentPaid.v ===== *)
(** * x/payment: what one account pays another

    The interface x/storage relies on.  [paid s f t] is the rate [f] pays
    [t], in active and frozen flows together: applying user flows changes it
    by exactly the rates of the list, and nothing else a client calls changes
    it.  [locked s a] is the balance locked for [a]: only a change with a lock
    component moves it. *)

From S2P Require Import Prelude Sdk PaymentTypes PaymentStore PaymentStream PaymentStreamFacts.
From S2P Require Import PaymentFlows PaymentFlowsFacts PaymentBooks.

Definition pair_weight (f t : Addr) (k : FlowKey) : Z := indicator k.1.1 f * indicator k.2 t.

Lemma zsum_pair from st f t l :
  zsum (fun o => pair_weight f t (from, st, ToAddress o) * Rate o) l =
  if decide (from = f) then rate_to t l else 0.
Proof.
  unfold pair_weight, rate_to, indicator. simpl. destruct (decide (from = f)).
  - apply zsum_ext. intros o _. destruct (decide (ToAddress o = t)); lia.
  - apply zsum_zero. intros o. lia.
Qed.

Section Paid.
Context {B : Type} {HBank : BankKeeper B} {HAddr : Addresses}.
Implicit Types (s : State B) (ctx : Ctx) (r : StreamRecord) (ch : StreamRecordChange).

Definition paid s (f t : Addr) : Z := flow_sum (pair_weight f t) (out_flows s).

(** ** What payments leave alone, on every outcome *)

(** The parameters and the payment accounts *)
Definition settings s := (versioned_params s, payment_accounts s).

Lemma keeps_updates {X} (f : State B -> X) fuel ctx r ch :
  (forall b s, f (with_bank b s) = f s) ->
  (forall m s, f (with_records m s) = f s) ->
  (forall m s, f (with_settle m s) = f s) ->
  keeps f (UpdateStreamRecord fuel ctx r ch).
Proof.
  intros Hb Hr Hs.
  assert (forall r, keeps f (SetStreamRecord r)) as Hset.
  { intros r0. unfold SetStreamRecord. destruct (CheckStreamRecord r0).
    - apply keeps_modify. intros s. apply Hr.
    - apply keeps_panic. }
  assert (forall a t1 t2 s, f (UpdateAutoSettleRecord a t1 t2 s) = f s) as Hauto.
  { intros a t1 t2 s. unfold UpdateAutoSettleRecord, SetAutoSettleRecord, RemoveAutoSettleRecord.
    case_ifs; rewrite ?Hs; done. }
  assert (forall p r, keeps f (auto_transfer p r)) as Htr.
  { intros p r0. unfold auto_transfer. frame. apply keeps_modify. intros s. apply Hb. }
  revert r ch. induction fuel as [|fuel IH]; intros r ch; simpl; [apply keeps_nofuel|].
  unfold UpdateFrozenStreamRecord, ForceSettle_with, UpdateByAddr_with.
  frame; auto. apply keeps_modify. intros s. apply Hauto.
Qed.

Lemma keeps_flows_update ctx ch : keeps (@out_flows B) (UpdateStreamRecordByAddr ctx ch).
Proof.
  unfold UpdateStreamRecordByAddr, UpdateByAddr_with, SetStreamRecord. frame.
  by apply keeps_updates.
Qed.
Lemma keeps_settings_update ctx ch : keeps settings (UpdateStreamRecordByAddr ctx ch).
Proof.
  unfold UpdateStreamRecordByAddr, UpdateByAddr_with, SetStreamRecord. frame.
  by apply keeps_updates.
Qed.
#[local] Hint Resolve keeps_settings_update : frames.

Lemma keeps_settings_flows ctx l : keeps settings (ApplyUserFlowsList ctx l).
Proof.
  assert (forall fuel r ch, keeps settings (UpdateStreamRecord fuel ctx r ch)) as Hu
    by (intros; by apply keeps_updates).
  assert (forall l, keeps settings (apply_changes ctx l)) as Hc
    by (intros l'; induction l'; simpl; frame).
  assert (forall a st l, keeps settings (mergeOutFlows a st l)) as Hm.
  { intros a st l0 s. unfold mergeOutFlows.
    destruct (mergeOutFlows_loop a st l0 0 s) as [d s'] eqn:E.
    apply mergeOutFlows_loop_spec in E as [-> _]. done. }
  unfold ApplyUserFlowsList. generalize (MergeUserFlows l). clear l. intros l.
  induction l as [|u l IH]; simpl; frame.
  all: unfold applyActiveUserFlows, applyFrozenUserFlows, ApplyStreamRecordChanges,
    MergeActiveOutFlows, MergeFrozenOutFlows, SetStreamRecord; frame; auto.
Qed.

(** Also a query and a withdrawal, with which groups are settled *)
Lemma keeps_query {X} (f : State B -> X) ctx a :
  (forall b s, f (with_bank b s) = f s) ->
  (forall m s, f (with_records m s) = f s) ->
  (forall m s, f (with_settle m s) = f s) ->
  keeps f (QueryDynamicBalance ctx a).
Proof. intros. unfold QueryDynamicBalance. frame. by apply keeps_updates. Qed.

Lemma keeps_withdraw {X} (f : State B -> X) ctx a a' amount :
  (forall b s, f (with_bank b s) = f s) ->
  (forall m s, f (with_records m s) = f s) ->
  (forall m s, f (with_settle m s) = f s) ->
  keeps f (Keeper_Withdraw ctx a a' amount).
Proof.
  intros Hb Hr Hs. unfold Keeper_Withdraw, SetStreamRecord. frame; try by apply keeps_updates.
  all: apply keeps_modify; intros; auto.
Qed.

(** ** Applying user flows *)

Context {HLaws : AddressLaws}.

Lemma applyActive_paid ctx u from r s v s' f t :
  applyActiveUserFlows ctx u from r s = (Ret v, s') ->
  paid s' f t = paid s f t + if decide (from = f) then rate_to t (Flows u) else 0.
Proof.
  unfold applyActiveUserFlows. intros Hrun.
  apply bind_Ret in Hrun as (r1 & s1 & Hupd & Hrun).
  apply bind_Ret in Hrun as (d & s2 & Hmerge & Hrun).
  apply bind_Ret in Hrun as (? & s3 & [_ ->]%SetStreamRecord_Ret & Hrun).
  apply ApplyStreamRecordChanges_books in Hrun as [Hf3 _].
  apply mergeOutFlows_Ret, mergeOutFlows_loop_spec in Hmerge as (_ & Hw & _).
  apply UpdateStreamRecord_books in Hupd as (Hf1 & _).
  unfold paid. rewrite (frame_flows _ _ Hf3). simpl.
  by rewrite Hw, (frame_flows _ _ Hf1), zsum_pair.
Qed.

Lemma applyFrozen_paid ctx u from r s v s' f t :
  applyFrozenUserFlows ctx u from r s = (Ret v, s') ->
  paid s' f t = paid s f t + if decide (from = f) then rate_to t (Flows u) else 0.
Proof.
  unfold applyFrozenUserFlows. intros Hrun.
  apply bind_Ret in Hrun as (? & ? & [_ ->]%guard_Ret & Hrun).
  rewrite bind_get in Hrun.
  apply bind_Ret in Hrun as (r1 & s1 & Hupd & Hrun).
  apply bind_Ret in Hrun as (d & s2 & Hmerge & Hrun).
  apply bind_Ret in Hrun as (d2 & s2' & Hmerge2 & Hrun).
  apply bind_Ret in Hrun as (? & s3 & [_ ->]%SetStreamRecord_Ret & Hrun).
  apply ApplyStreamRecordChanges_books in Hrun as [Hf3 _].
  apply mergeOutFlows_Ret, mergeOutFlows_loop_spec in Hmerge as (_ & Hw & _).
  apply mergeOutFlows_Ret, mergeOutFlows_loop_spec in Hmerge2 as (_ & Hw' & _).
  apply UpdateStreamRecord_books in Hupd as (Hf1 & _).
  unfold paid. rewrite (frame_flows _ _ Hf3). simpl.
  rewrite Hw', Hw, (frame_flows _ _ Hf1), !zsum_pair.
  destruct (decide (from = f)); [|lia]. unfold rate_to.
  rewrite <- (zsum_filter_split _ (is_active_flow (Account r) s) (Flows u)). lia.
Qed.

Lemma apply_user_flows_paid ctx l s v s' f t :
  apply_user_flows ctx l s = (Ret v, s') -> paid s' f t = paid s f t + user_rate f t l.
Proof.
  revert s. induction l as [|u l IH]; intros s Hrun; simpl in Hrun.
  { minv. unfold user_rate, zsum. simpl. lia. }
  rewrite bind_get in Hrun. destruct (GetStreamRecord ctx (From u) s) as [r0 found].
  apply bind_Ret in Hrun as (v1 & s1 & Happ & Hrun).
  apply IH in Hrun as ->. unfold user_rate, zsum. simpl.
  enough (paid s1 f t =
          paid s f t + if decide (From u = f) then rate_to t (Flows u) else 0) as -> by lia.
  destruct (Status _); [eapply applyActive_paid|eapply applyFrozen_paid]; exact Happ.
Qed.

Lemma ApplyUserFlowsList_paid ctx l s v s' f t :
  ApplyUserFlowsList ctx l s = (Ret v, s') -> paid s' f t = paid s f t + user_rate f t l.
Proof. intros ->%(apply_user_flows_paid _ _ _ _ _ f t). by rewrite MergeUserFlows_user_rate. Qed.

(** ** Locked balances *)

Definition locked s (a : Addr) : Z := default 0 (LockBalance <$> stream_records s !! a).

(** A balance after a lock change; it is not taken below zero. *)
Definition relock (d x : Z) : Z := if d =? 0 then x else Z.max 0 (x + d).

Lemma relock_0 x : relock 0 x = x.
Proof. done. Qed.

Lemma apply_lock_relock ch r :
  LockBalance (apply_lock ch r) = relock (LockBalanceChange ch) (LockBalance r).
Proof. unfold apply_lock, relock. case_ifs; simpl in *; lia. Qed.

Lemma staged_relock ctx p ch r :
  LockBalance (staged ctx p ch r) = relock (LockBalanceChange ch) (LockBalance r).
Proof.
  unfold staged, apply_static, apply_rate.
  assert (LockBalance (accrue ctx r) = LockBalance r) as <- by (unfold accrue; by case_ifs).
  rewrite <- apply_lock_relock. by case_ifs.
Qed.

Definition keeps_locks (upd : StreamRecord -> StreamRecordChange -> PM B StreamRecord) : Prop :=
  forall r ch s r' s', upd r ch s = (Ret r', s') ->
    Account r' = Account r /\ LockBalance r' = relock (LockBalanceChange ch) (LockBalance r) /\
    forall a, locked s' a = locked s a.

Lemma GetStreamRecord_locked ctx a s : LockBalance (GetStreamRecord ctx a s).1 = locked s a.
Proof. unfold GetStreamRecord, locked. by case_match. Qed.

Lemma UpdateByAddr_with_locks upd ctx ch s r' s' a :
  keeps_locks upd -> UpdateByAddr_with upd ctx ch s = (Ret r', s') ->
  locked s' a =
    if decide (a = ChangeAddr ch) then relock (LockBalanceChange ch) (locked s a) else locked s a.
Proof.
  intros Hupd (s1 & Hu & Hc & ->)%UpdateByAddr_with_Ret.
  apply Hupd in Hu as (Ha & Hl & Hs). rewrite GetStreamRecord_account in Ha.
  rewrite GetStreamRecord_locked in Hl. rewrite Ha. unfold locked at 1. simpl.
  destruct (decide (a = ChangeAddr ch)) as [->|].
  - rewrite lookup_insert_eq. simpl. done.
  - rewrite lookup_insert_ne by done. apply Hs.
Qed.

Lemma UpdateStreamRecord_locks fuel ctx : keeps_locks (UpdateStreamRecord fuel ctx).
Proof.
  induction fuel as [|fuel IH]; intros r ch s r' s' Hrun; [simpl in Hrun; by minv|].
  destruct (Status r) eqn:Hst.
  - apply UpdateStreamRecord_active in Hrun as (? & [= <-] & Hspec); [|done].
    destruct Hspec as [amt b' ts Hpaid r1 Hpay Hts Hdur -> ->
                      |amt b' g s1 ts Hpaid r1 Hforced Hneg Hdur Hi Hts Hgov -> ->];
      unfold r1, topped, settled; simpl; rewrite staged_account, staged_relock;
      split_and!; try done; intros a; unfold locked at 1; rewrite records_auto_settle; [done|].
    fold (locked s1 a). rewrite (UpdateByAddr_with_locks _ _ _ _ _ _ a IH Hgov).
    simpl. by destruct (decide _).
  - apply UpdateStreamRecord_frozen in Hrun as (Hforced & -> & _ & ->); [|done].
    simpl. rewrite apply_lock_relock. split_and!; try done.
    unfold apply_lock. by case_ifs.
Qed.

Lemma UpdateStreamRecordByAddr_locks ctx ch s r' s' a :
  UpdateStreamRecordByAddr ctx ch s = (Ret r', s') ->
  locked s' a =
    if decide (a = ChangeAddr ch) then relock (LockBalanceChange ch) (locked s a) else locked s a.
Proof. apply UpdateByAddr_with_locks, UpdateStreamRecord_locks. Qed.

(** ** Flows and withdrawals lock nothing *)

Lemma apply_changes_locks ctx l s u s' a :
  apply_changes ctx l s = (Ret u, s') -> Forall (fun c => LockBalanceChange c = 0) l ->
  locked s' a = locked s a.
Proof.
  revert s. induction l as [|c l IH]; intros s Hrun Hl; simpl in Hrun; [by minv|].
  apply bind_Ret in Hrun as (r' & s1 & Hupd & Hrun).
  apply Forall_cons in Hl as [Hc Hl]. rewrite (IH s1) by done.
  rewrite (UpdateStreamRecordByAddr_locks _ _ _ _ _ a Hupd), Hc, relock_0.
  by destruct (decide _).
Qed.

Lemma MergeStreamRecordChanges_locks l :
  Forall (fun c => LockBalanceChange c = 0) l ->
  Forall (fun c => LockBalanceChange c = 0) (MergeStreamRecordChanges l).
Proof.
  intros Hl. unfold MergeStreamRecordChanges. destruct (length l <=? 1)%nat; [done|].
  rewrite sort_by_text_perm. apply Forall_fmap, Forall_forall.
  intros [k c] Hkc%elem_of_map_to_list. simpl.
  enough (forall m : gmap Addr StreamRecordChange,
    (forall a c, m !! a = Some c -> LockBalanceChange c = 0) ->
    forall a c, foldl merge_change m l !! a = Some c -> LockBalanceChange c = 0) as Hm.
  { eapply Hm, Hkc. intros ??. by rewrite lookup_empty. }
  clear k c Hkc. induction Hl as [|c0 l Hc0 _ IH]; intros m Hm; simpl; [done|].
  apply IH. intros a c. unfold merge_change. rewrite lookup_insert_Some.
  intros [[<- <-]|[_ Ha]]; [|by eapply Hm]. simpl. rewrite Hc0, Z.add_0_r.
  destruct (m !! ChangeAddr c0) eqn:E; [by eapply Hm|done].
Qed.

(** The update of a payer's record, stored with a new flow count *)
Lemma store_counted_locks fuel ctx r ch n s r1 s1 u s2 s3 a :
  UpdateStreamRecord fuel ctx r ch s = (Ret r1, s1) ->
  SetStreamRecord (set_count n r1) s2 = (Ret u, s3) ->
  stream_records s2 = stream_records s1 -> LockBalanceChange ch = 0 ->
  LockBalance r = locked s (Account r) -> locked s3 a = locked s a.
Proof.
  intros (Ha & Hl & Hs)%UpdateStreamRecord_locks [_ ->]%SetStreamRecord_Ret H2 Hc Hr.
  rewrite Hc, relock_0 in Hl. unfold locked at 1. simpl. rewrite H2, Ha.
  destruct (decide (a = Account r)) as [->|].
  - rewrite lookup_insert_eq. simpl. by rewrite Hl.
  - rewrite lookup_insert_ne by done. apply Hs.
Qed.

Lemma receiver_changes_locks ctx l s u s' a :
  ApplyStreamRecordChanges ctx (receiver_change <$> l) s = (Ret u, s') -> locked s' a = locked s a.
Proof.
  intros Hrun. eapply apply_changes_locks; [exact Hrun|].
  apply MergeStreamRecordChanges_locks, Forall_fmap, Forall_true. done.
Qed.

Lemma merge_flows_records addr st l s d s' :
  mergeOutFlows addr st l s = (Ret d, s') -> stream_records s' = stream_records s.
Proof. intros (-> & _)%mergeOutFlows_Ret%mergeOutFlows_loop_spec. done. Qed.

Lemma apply_user_flows_locks ctx l s v s' a :
  apply_user_flows ctx l s = (Ret v, s') -> locked s' a = locked s a.
Proof.
  revert s. induction l as [|u l IH]; intros s Hrun; simpl in Hrun; [by minv|].
  rewrite bind_get in Hrun. pose proof (GetStreamRecord_found ctx (From u) s) as Hr.
  pose proof (GetStreamRecord_locked ctx (From u) s) as Hl.
  pose proof (GetStreamRecord_account ctx (From u) s) as Ha.
  destruct (GetStreamRecord ctx (From u) s) as [r0 found]. simpl in *. rewrite Hr in Hrun.
  apply bind_Ret in Hrun as (v1 & s1 & Happ & Hrun). rewrite (IH s1) by done. clear Hrun IH.
  destruct (Status r0); unfold applyActiveUserFlows, applyFrozenUserFlows in Happ.
  - apply bind_Ret in Happ as (r1 & t1 & Hupd & Happ).
    apply bind_Ret in Happ as (d & t2 & Hm%merge_flows_records & Happ).
    apply bind_Ret in Happ as (? & t3 & Hset & Happ).
    rewrite (receiver_changes_locks _ _ _ _ _ _ Happ).
    eapply store_counted_locks; [exact Hupd|exact Hset|done|done|by rewrite Ha].
  - apply bind_Ret in Happ as (? & ? & [_ ->]%guard_Ret & Happ). rewrite bind_get in Happ.
    apply bind_Ret in Happ as (r1 & t1 & Hupd & Happ).
    apply bind_Ret in Happ as (d & t2 & Hm%merge_flows_records & Happ).
    apply bind_Ret in Happ as (d' & t2' & Hm'%merge_flows_records & Happ).
    apply bind_Ret in Happ as (? & t3 & Hset & Happ).
    rewrite (receiver_changes_locks _ _ _ _ _ _ Happ).
    eapply store_counted_locks; [exact Hupd|exact Hset|congruence|done|by rewrite Ha].
Qed.

Lemma query_locks ctx a s v s' a' :
  QueryDynamicBalance ctx a s = (Ret v, s') -> locked s' a' = locked s a'.
Proof.
  unfold QueryDynamicBalance. rewrite bind_get. destruct (GetStreamRecord ctx a s) as [r found].
  destruct found; cbn [negb]; [|by intros [_ <-]%ret_Ret].
  intros (r' & s1 & (_ & _ & Hs)%UpdateStreamRecord_locks & [_ <-]%ret_Ret)%bind_Ret. apply Hs.
Qed.

Lemma withdraw_locks ctx a a' amount s v s' x :
  Keeper_Withdraw ctx a a' amount s = (Ret v, s') -> locked s' x = locked s x.
Proof.
  unfold Keeper_Withdraw. rewrite bind_get.
  pose proof (GetStreamRecord_locked ctx a s) as Hl.
  pose proof (GetStreamRecord_account ctx a s) as Ha.
  destruct (GetStreamRecord ctx a s) as [r found]. cbn [fst] in *. intros Hrun.
  apply bind_Ret in Hrun as (? & ? & [_ ->]%guard_Ret & Hrun).
  apply bind_Ret in Hrun as (r1 & s1 & (Ha1 & Hl1 & Hs)%UpdateStreamRecord_locks & Hrun).
  apply bind_Ret in Hrun as (? & ? & [_ ->]%SetStreamRecord_Ret & Hrun).
  rewrite bind_get in Hrun. simpl in *. rewrite Hl in Hl1. rewrite Ha1, Ha in Hrun.
  assert (locked (with_records (<[a := r1]> (stream_records s1)) s1) x = locked s x) as Hx.
  { unfold locked at 1. simpl. destruct (decide (x = a)) as [->|].
    - rewrite lookup_insert_eq. simpl. by rewrite Hl1.
    - rewrite lookup_insert_ne by done. apply Hs. }
  destruct (NewCoins _ _); [|by apply panic_Ret in Hrun].
  rewrite <- Hx. destruct (if a' =? _ then _ else _) as [b'|].
  - apply modify_Ret in Hrun as ->. done.
  - by apply fail_Ret in Hrun.
Qed.

End Paid.
