(* ===== verification/PaymentEndBlock.v ===== *)
(** * x/payment: settling and resuming accounts

    [AutoSettle], [TryResumeStreamRecord] and [AutoResume] of
    [keeper/stream_record.go] and the end blocker of [module.go].  A store
    iterator walks the entries present when it was opened (the store isolates
    it from later writes), so each loop recurses over that list. *)

From S2P Require Import Prelude Sdk PaymentTypes PaymentStore PaymentStream.

Section EndBlock.
Context {B : Type} {HBank : BankKeeper B} {HAddr : Addresses}.
Implicit Types (s : State B) (ctx : Ctx) (r : StreamRecord).

(** The rate change of a flow at its receiver. *)
Definition rate_change (to : Addr) (rate : Z) : StreamRecordChange :=
  WithRateChange rate (NewDefaultStreamRecordChangeWithAddr to).

(** [for _, o := range toUpdate { k.SetOutFlow(ctx, addr, &o) }] *)
Definition set_out_flows (addr : Addr) (toUpdate : list OutFlow) s : State B :=
  foldl (fun s o => SetOutFlow addr o s) s toUpdate.

(** ** AutoSettle *)

(** The flow loop of [AutoSettle].  The result is the count, the total rate,
    the flows to store as frozen, and [!flowIterator.Valid() || finished]. *)
Fixpoint settle_flows ctx (addr : Addr) (max : Z) (l : list (FlowKey * Z))
    (count totalRate : Z) (toUpdate : list OutFlow) : PM B (Z * Z * list OutFlow * bool) :=
  match l with
  | [] => ret (count, totalRate, toUpdate, true)
  | ((f, st, t), rate) :: l' =>
      if max <=? count then ret (count, totalRate, toUpdate, false)
      else if negb (f =? addr) then ret (count, totalRate, toUpdate, true)
      else match st with
           | OUT_FLOW_STATUS_FROZEN => ret (count, totalRate, toUpdate, true)
           | OUT_FLOW_STATUS_ACTIVE =>
               do! on_err (UpdateStreamRecordByAddr ctx (rate_change t (- rate)))
                     (fun _ => panic) ;;
               do! modify (DeleteOutFlow (f, st, t)) ;;
               settle_flows ctx addr max l' (count + 1) (totalRate + rate)
                 (toUpdate ++ [mkOutFlow t rate OUT_FLOW_STATUS_FROZEN])
           end
  end.

(** Settling the flows of a frozen record; the result is the count. *)
Definition settle_account ctx (max ts : Z) (addr : Addr) r (count : Z) : PM B Z :=
  let! s := get in
  let! x := settle_flows ctx addr max (flow_iterator addr OUT_FLOW_STATUS_ACTIVE s)
              count 0 [] in
  let '(count', totalRate, toUpdate, done) := x in
  do! modify (set_out_flows addr toUpdate) ;;
  let r1 := set_rate (NetflowRate r + totalRate) r in
  let r2 := set_frozen (FrozenNetflowRate r1 + - totalRate) r1 in
  do! (if done : bool then
         if negb (NetflowRate r2 =? 0) then panic
         else modify (RemoveAutoSettleRecord ts addr)
       else ret tt) ;;
  do! SetStreamRecord r2 ;;
  ret count'.

(** One round of the outer loop; [None] is [return], [Some count] goes on. *)
Definition auto_settle_step ctx (max ts : Z) (addr : Addr) (count : Z) : PM B (option Z) :=
  if max <=? count then ret None
  else if BlockTime ctx <? ts then ret None
  else
    let! s := get in
    let '(r, found) := GetStreamRecord ctx addr s in
    if negb found then ret (Some count)
    else
      let finish r count :=
        let! s := get in
        if ExistsAutoResumeRecord ts addr s then ret (Some count)
        else let! c := settle_account ctx max ts addr r count in ret (Some c) in
      match Status r with
      | STREAM_ACCOUNT_STATUS_ACTIVE =>
          let count := count + 1 in
          let! upd := attempt (UpdateStreamRecord update_fuel ctx r
                                 (NewDefaultStreamRecordChangeWithAddr addr)) in
          match upd with
          | None => ret (Some count)
          | Some r1 =>
              do! SetStreamRecord r1 ;;
              match Status r1 with
              | STREAM_ACCOUNT_STATUS_ACTIVE => ret (Some count)
              | STREAM_ACCOUNT_STATUS_FROZEN =>
                  if max <=? count then ret None else finish r1 count
              end
          end
      | STREAM_ACCOUNT_STATUS_FROZEN => finish r count
      end.

Fixpoint auto_settle_loop ctx (max : Z) (l : list (Z * Addr)) (count : Z) : PM B unit :=
  match l with
  | [] => ret tt
  | (ts, addr) :: l' =>
      let! next := auto_settle_step ctx max ts addr count in
      match next with
      | None => ret tt
      | Some count' => auto_settle_loop ctx max l' count'
      end
  end.

Definition AutoSettle ctx : PM B unit :=
  let! s := get in
  auto_settle_loop ctx (MaxAutoSettleFlowCount (GetParams s)) (GetAllAutoSettleRecord s) 0.

(** ** TryResumeStreamRecord *)

Fixpoint try_resume_flows ctx (addr : Addr) (l : list (FlowKey * Z)) (toUpdate : list OutFlow)
    : PM B (list OutFlow) :=
  match l with
  | [] => ret toUpdate
  | ((f, st, t), rate) :: l' =>
      if negb (f =? addr) then ret toUpdate
      else
        do! UpdateStreamRecordByAddr ctx (rate_change t rate) ;;
        do! modify (DeleteOutFlow (f, st, t)) ;;
        try_resume_flows ctx addr l'
          (toUpdate ++ [mkOutFlow t rate OUT_FLOW_STATUS_ACTIVE])
  end.

Definition TryResumeStreamRecord ctx r (depositBalance : Z) : PM B unit :=
  do! guard (negb (is_frozen (Status r))) ErrNotFrozen ;;
  let! s := get in
  do! guard (ExistsAutoResumeRecord 0 (Account r) s) ErrResuming ;;
  let p := GetParams s in
  let now := BlockTime ctx in
  let totalRate := NetflowRate r + FrozenNetflowRate r in
  let r := set_static (StaticBalance r + depositBalance) r in
  if totalRate =? 0 then
    SetStreamRecord (set_settle 0 (set_crud now (set_status STREAM_ACCOUNT_STATUS_ACTIVE r)))
  else
    let expectedBalanceToResume := - totalRate * ReserveTime (Versioned p) in
    if StaticBalance r <? expectedBalanceToResume then SetStreamRecord r
    else
      let prevSettleTime := SettleTimestamp r in
      let d := Z.quot (StaticBalance r) (Z.abs totalRate) in
      if negb (is_i64 d) then panic
      else
        let r := set_settle (i64 (i64 (now + d) - i64 (ForcedSettleTime p))) r in
        let r := set_buffer expectedBalanceToResume r in
        let r := set_static (StaticBalance r - expectedBalanceToResume) r in
        let r := set_crud now r in
        if OutFlowCount r <=? MaxAutoResumeFlowCount p then
          let r := set_status STREAM_ACCOUNT_STATUS_ACTIVE r in
          let r := set_rate totalRate r in
          let r := set_frozen 0 r in
          let! toUpdate := try_resume_flows ctx (Account r)
                             (flow_iterator (Account r) OUT_FLOW_STATUS_FROZEN s) [] in
          do! modify (set_out_flows (Account r) toUpdate) ;;
          do! SetStreamRecord r ;;
          modify (UpdateAutoSettleRecord (Account r) prevSettleTime (SettleTimestamp r))
        else
          do! SetStreamRecord r ;;
          modify (SetAutoResumeRecord now (Account r)).

(** ** AutoResume *)

Fixpoint resume_flows ctx (addr : Addr) (max : Z) (l : list (FlowKey * Z))
    (count totalRate : Z) (toUpdate : list OutFlow) : PM B (Z * Z * list OutFlow * bool) :=
  match l with
  | [] => ret (count, totalRate, toUpdate, true)
  | ((f, st, t), rate) :: l' =>
      if max <=? count then ret (count, totalRate, toUpdate, false)
      else if negb (f =? addr) then ret (count, totalRate, toUpdate, true)
      else
        do! on_err (UpdateStreamRecordByAddr ctx (rate_change t rate)) (fun _ => panic) ;;
        do! modify (DeleteOutFlow (f, st, t)) ;;
        resume_flows ctx addr max l' (count + 1) (totalRate + rate)
          (toUpdate ++ [mkOutFlow t rate OUT_FLOW_STATUS_ACTIVE])
  end.

Definition auto_resume_step ctx (max ts : Z) (addr : Addr) (count : Z) : PM B Z :=
  let! s := get in
  let '(r, found) := GetStreamRecord ctx addr s in
  if negb found then ret count
  else
    let! x := resume_flows ctx addr max (flow_iterator addr OUT_FLOW_STATUS_FROZEN s)
                count 0 [] in
    let '(count', totalRate, toUpdate, done) := x in
    do! modify (set_out_flows addr toUpdate) ;;
    let r1 := set_rate (NetflowRate r + - totalRate) r in
    let r2 := set_frozen (FrozenNetflowRate r1 + totalRate) r1 in
    let! r3 :=
      if done : bool then
        if negb (FrozenNetflowRate r2 =? 0) then panic
        else
          let! r3 := on_err (UpdateStreamRecord update_fuel ctx
                               (set_status STREAM_ACCOUNT_STATUS_ACTIVE r2)
                               (NewDefaultStreamRecordChangeWithAddr addr))
                       (fun _ => panic) in
          do! modify (RemoveAutoResumeRecord ts addr) ;;
          ret r3
      else ret r2 in
    do! SetStreamRecord r3 ;;
    ret count'.

Fixpoint auto_resume_loop ctx (max : Z) (l : list (Z * Addr)) (count : Z) : PM B unit :=
  match l with
  | [] => ret tt
  | (ts, addr) :: l' =>
      let! count' := auto_resume_step ctx max ts addr count in
      auto_resume_loop ctx max l' count'
  end.

Definition AutoResume ctx : PM B unit :=
  let! s := get in
  auto_resume_loop ctx (MaxAutoResumeFlowCount (GetParams s))
    (iterate queue_leb (auto_resume s)).*1 0.

(** [AppModule.EndBlock]: the forced context, then resume, then settle. *)
Definition EndBlock (now : Z) : PM B unit :=
  let c := mkCtx now true in
  do! AutoResume c ;;
  AutoSettle c.

End EndBlock.
