(* ===== verification/PaymentSettle.v ===== *)
(** * x/payment: facts about settling and resuming

    Settling freezes the active flows of an account one by one, resuming
    activates its frozen flows.  Both keep the books, never split a flow
    between the two statuses, and stay within the configured number of flows
    per block. *)

From S2P Require Import Prelude Sdk PaymentTypes PaymentStore PaymentStream PaymentStreamFacts.
From S2P Require Import PaymentFlows PaymentFlowsFacts PaymentBooks PaymentEndBlock.

Definition other_status (st : OutFlowStatus) : OutFlowStatus :=
  match st with
  | OUT_FLOW_STATUS_ACTIVE => OUT_FLOW_STATUS_FROZEN
  | OUT_FLOW_STATUS_FROZEN => OUT_FLOW_STATUS_ACTIVE
  end.

Section Settle.
Context {B : Type} {HBank : BankKeeper B} {HAddr : Addresses}.
Implicit Types (s : State B) (ctx : Ctx) (r : StreamRecord).

(** No flow is both active and frozen, and no account pays itself. *)
Definition flows_ok s : Prop :=
  (forall f t, out_flows s !! (f, OUT_FLOW_STATUS_ACTIVE, t) = None \/
               out_flows s !! (f, OUT_FLOW_STATUS_FROZEN, t) = None) /\
  (forall f st, out_flows s !! (f, st, f) = None).

(** ** Moving flows between statuses *)

(** [moves_flows ctx addr st sgn ps s s']: the flows [ps] of [addr] with
    status [st] are taken out of the store one by one, each receiver's rate
    changed by [sgn] times the rate of its flow. *)
Inductive moves_flows ctx (addr : Addr) (st : OutFlowStatus) (sgn : Z)
    : list (Addr * Z) -> State B -> State B -> Prop :=
| moves_nil s : moves_flows ctx addr st sgn [] s s
| moves_cons t rate ps s r1 s1 s' :
    UpdateStreamRecordByAddr ctx (rate_change t (sgn * rate)) s = (Ret r1, s1) ->
    out_flows s !! (addr, st, t) = Some rate ->
    moves_flows ctx addr st sgn ps (DeleteOutFlow (addr, st, t) s1) s' ->
    moves_flows ctx addr st sgn ((t, rate) :: ps) s s'.

(** What a sequence of flow moves leaves alone. *)
Definition frame_flows_only s s' : Prop := frame s (with_flows (out_flows s) s').

Lemma frame_flows_only_refl s : frame_flows_only s s.
Proof. by constructor. Qed.

Lemma frame_flows_only_trans s1 s2 s3 :
  frame_flows_only s1 s2 -> frame_flows_only s2 s3 -> frame_flows_only s1 s3.
Proof. intros [] []. simpl in *. constructor; simpl; congruence. Qed.

Definition rate_moved (a : Addr) (ps : list (Addr * Z)) : Z :=
  zsum (fun p => if decide (p.1 = a) then p.2 else 0) ps.

Lemma moves_flows_spec ctx addr st sgn ps s s' :
  moves_flows ctx addr st sgn ps s s' ->
  frame_flows_only s s' /\
  (forall a, book_of s' a =
     ((book_of s a).1.1 + sgn * rate_moved a ps, (book_of s a).1.2, (book_of s a).2)) /\
  (forall w, flow_sum w (out_flows s') =
     flow_sum w (out_flows s) - zsum (fun p => w (addr, st, p.1) * p.2) ps) /\
  (forall w, key_sum w (out_flows s') =
     key_sum w (out_flows s) - zsum (fun p => w (addr, st, p.1)) ps) /\
  (forall k, out_flows s' !! k =
     if decide (k ∈ (fun p : Addr * Z => (addr, st, p.1)) <$> ps) then None
     else out_flows s !! k).
Proof.
  induction 1 as [s|t rate ps s r1 s1 s' Hupd Hin _ (Hf & Hb & Hw & Hc & Hk)].
  - split_and!.
    + apply frame_flows_only_refl.
    + intros a. change (rate_moved a []) with 0. rewrite Z.mul_0_r, Z.add_0_r.
      by destruct (book_of s a) as [[]].
    + intros w. unfold zsum. simpl. lia.
    + intros w. unfold zsum. simpl. lia.
    + intros k. by rewrite decide_False by set_solver.
  - apply UpdateStreamRecordByAddr_books in Hupd as (Hf1 & _ & _ & Hb1).
    pose proof (frame_flows _ _ Hf1) as Hfl. split_and!.
    + eapply frame_flows_only_trans; [|exact Hf]. destruct Hf1. by constructor.
    + intros a. rewrite Hb. simpl. unfold DeleteOutFlow. rewrite book_of_flows, Hb1.
      unfold rate_moved, zsum. simpl.
      destruct (decide (a = t)) as [->|Hne].
      * rewrite decide_True by done. rewrite <- (GetStreamRecord_book ctx t s).
        unfold booked, book. simpl. destruct (is_frozen _); book_eq.
      * rewrite decide_False by done. book_eq.
    + intros w. rewrite Hw. simpl. rewrite Hfl, flow_sum_delete, Hin.
      unfold zsum. simpl. lia.
    + intros w. rewrite Hc. simpl. rewrite Hfl, key_sum_delete, Hin. unfold zsum. simpl. lia.
    + intros k. rewrite Hk, fmap_cons. unfold DeleteOutFlow. cbn [out_flows with_flows fst].
      rewrite Hfl, lookup_delete. repeat case_decide; set_solver.
Qed.

(** Storing the moved flows with their new status. *)
Lemma set_out_flows_spec addr st ps s :
  NoDup ps.*1 -> (forall p, p ∈ ps -> out_flows s !! (addr, st, p.1) = None) ->
  let s' := set_out_flows addr ((fun p => mkOutFlow p.1 p.2 st) <$> ps) s in
  frame_flows_only s s' /\ stream_records s' = stream_records s /\
  auto_settle s' = auto_settle s /\ bank s' = bank s /\
  (forall w, flow_sum w (out_flows s') =
     flow_sum w (out_flows s) + zsum (fun p => w (addr, st, p.1) * p.2) ps) /\
  (forall w, key_sum w (out_flows s') =
     key_sum w (out_flows s) + zsum (fun p => w (addr, st, p.1)) ps) /\
  (forall k, k ∉ (fun p : Addr * Z => (addr, st, p.1)) <$> ps ->
     out_flows s' !! k = out_flows s !! k).
Proof.
  revert s. induction ps as [|[t rate] ps IH]; intros s Hnd Hfresh; simpl.
  { split_and!; try done; intros; unfold zsum; simpl; lia. }
  apply NoDup_cons in Hnd as [Hnin Hnd].
  set (s1 := SetOutFlow addr (mkOutFlow t rate st) s).
  assert (forall p, p ∈ ps -> out_flows s1 !! (addr, st, p.1) = None) as Hfresh1.
  { intros p Hp. unfold s1. simpl. rewrite lookup_insert_ne.
    - apply Hfresh. set_solver.
    - intros Heq. injection Heq as Heq. apply Hnin. rewrite Heq.
      apply list_elem_of_fmap. by exists p. }
  destruct (IH s1 Hnd Hfresh1) as (Hf & Hr & Ha & Hb & Hw & Hc & Hk).
  assert (out_flows s !! (addr, st, t) = None) as Hnone by (apply (Hfresh (t, rate)); set_solver).
  split_and!; try done.
  - eapply frame_flows_only_trans; [|exact Hf]. by constructor.
  - intros w. rewrite Hw. unfold s1. simpl. rewrite flow_sum_insert, Hnone.
    unfold zsum. simpl. lia.
  - intros w. rewrite Hc. unfold s1. simpl. rewrite key_sum_insert, Hnone.
    unfold zsum. simpl. lia.
  - intros k Hin. rewrite Hk by set_solver. unfold s1. simpl.
    rewrite lookup_insert_ne; [done|]. set_solver.
Qed.

(** ** The loops move flows *)

(** The pending entries of an iterator are entries of the store. *)
Definition pending (l : list (FlowKey * Z)) s : Prop :=
  NoDup l.*1 /\ forall k v, (k, v) ∈ l -> out_flows s !! k = Some v.

Lemma pending_tail kv l s s1 r1 ctx ch :
  pending (kv :: l) s ->
  UpdateStreamRecordByAddr ctx ch s = (Ret r1, s1) ->
  pending l (DeleteOutFlow kv.1 s1).
Proof.
  intros [Hnd Hin] Hupd. apply UpdateStreamRecordByAddr_books in Hupd as (Hf & _).
  rewrite fmap_cons in Hnd. apply NoDup_cons in Hnd as [Hnin Hnd].
  split; [done|]. intros k v Hkv. simpl. rewrite (frame_flows _ _ Hf).
  rewrite lookup_delete_ne; [apply Hin; set_solver|].
  intros <-. apply Hnin. apply list_elem_of_fmap. by exists (kv.1, v).
Qed.

Lemma pending_head k v l s : pending ((k, v) :: l) s -> out_flows s !! k = Some v.
Proof. intros [_ Hin]. apply Hin. set_solver. Qed.

Definition to_update (st : OutFlowStatus) (ps : list (Addr * Z)) : list OutFlow :=
  (fun p => mkOutFlow p.1 p.2 st) <$> ps.

(** The flows moved are a prefix of the pending entries, and a loop that
    finishes has reached the end of the account's entries of that status. *)
Definition is_stop (addr : Addr) (st : OutFlowStatus) (kv : FlowKey * Z) : Prop :=
  kv.1.1.1 <> addr \/ (st = OUT_FLOW_STATUS_ACTIVE /\ kv.1.1.2 = OUT_FLOW_STATUS_FROZEN).

Definition prefix_of_entries (addr : Addr) (st : OutFlowStatus) (ps : list (Addr * Z))
    (l : list (FlowKey * Z)) (done : bool) : Prop :=
  exists rest, l = ((fun p => ((addr, st, p.1), p.2)) <$> ps) ++ rest /\
    (done = true -> match rest with [] => True | kv :: _ => is_stop addr st kv end).

(** A loop that stops before its first entry moves nothing. *)
Ltac no_move :=
  minv; exists []; split_and!; try done; try (unfold zsum; simpl; lia);
  [constructor | by rewrite app_nil_r |].

Lemma settle_flows_moves ctx addr max l count total upd s count' total' upd' done s' :
  settle_flows ctx addr max l count total upd s = (Ret (count', total', upd', done), s') ->
  pending l s -> count <= max ->
  exists ps, moves_flows ctx addr OUT_FLOW_STATUS_ACTIVE (-1) ps s s' /\
    upd' = upd ++ to_update OUT_FLOW_STATUS_FROZEN ps /\
    total' = total + zsum snd ps /\ count' = count + Z.of_nat (length ps) /\ count' <= max /\
    prefix_of_entries addr OUT_FLOW_STATUS_ACTIVE ps l done.
Proof.
  revert count total upd s.
  induction l as [|[[[f st] t] rate] l IH]; intros count total upd s Hrun Hp Hmax;
    simpl in Hrun.
  { no_move. by exists []. }
  destruct (max <=? count) eqn:Hc.
  { no_move. by eexists. }
  destruct (f =? addr) eqn:Hf; simpl in Hrun.
  2: { no_move. eexists. split; [done|]. intros _. left. simpl. lia. }
  apply Z.eqb_eq in Hf as ->. destruct st.
  2: { no_move. eexists. split; [done|]. intros _. by right. }
  apply bind_Ret in Hrun as (r1 & s1 & Hupd%on_err_panic_Ret & Hrun).
  apply bind_Ret in Hrun as (? & ? & ->%modify_Ret & Hrun).
  pose proof (pending_head _ _ _ _ Hp) as Hhead.
  apply IH in Hrun as (ps & Hmv & -> & -> & -> & Hle & (rest & -> & Hrest)); [| |lia].
  2: { by apply (pending_tail (addr, OUT_FLOW_STATUS_ACTIVE, t, rate) l s s1 r1 ctx
         (rate_change t (- rate))). }
  exists ((t, rate) :: ps). split_and!.
  - econstructor; [|done|done]. by replace (-1 * rate) with (- rate) by lia.
  - by rewrite <- app_assoc.
  - unfold zsum. simpl. lia.
  - simpl. lia.
  - simpl. lia.
  - by exists rest.
Qed.

Lemma resume_flows_moves ctx addr max l count total upd s count' total' upd' done s' :
  resume_flows ctx addr max l count total upd s = (Ret (count', total', upd', done), s') ->
  pending l s -> (forall kv, kv ∈ l -> kv.1.1.1 = addr -> kv.1.1.2 = OUT_FLOW_STATUS_FROZEN) ->
  count <= max \/ count = count' ->
  exists ps, moves_flows ctx addr OUT_FLOW_STATUS_FROZEN 1 ps s s' /\
    upd' = upd ++ to_update OUT_FLOW_STATUS_ACTIVE ps /\
    total' = total + zsum snd ps /\ count' = count + Z.of_nat (length ps) /\
    (count <= max -> count' <= max) /\
    prefix_of_entries addr OUT_FLOW_STATUS_FROZEN ps l done.
Proof.
  revert count total upd s.
  induction l as [|[[[f st] t] rate] l IH]; intros count total upd s Hrun Hp Hst Hmax;
    simpl in Hrun.
  { no_move. by exists []. }
  destruct (max <=? count) eqn:Hc.
  { no_move. by eexists. }
  destruct (f =? addr) eqn:Hf; simpl in Hrun.
  2: { no_move. eexists. split; [done|]. intros _. left. simpl. lia. }
  apply Z.eqb_eq in Hf as ->.
  assert (st = OUT_FLOW_STATUS_FROZEN) as ->
    by (apply (Hst (addr, st, t, rate)); [set_solver|done]).
  apply bind_Ret in Hrun as (r1 & s1 & Hupd%on_err_panic_Ret & Hrun).
  apply bind_Ret in Hrun as (? & ? & ->%modify_Ret & Hrun).
  pose proof (pending_head _ _ _ _ Hp) as Hhead.
  apply IH in Hrun as (ps & Hmv & -> & -> & -> & Hle & (rest & -> & Hrest)); [| | |lia].
  2: { by apply (pending_tail (addr, OUT_FLOW_STATUS_FROZEN, t, rate) l s s1 r1 ctx
         (rate_change t rate)). }
  2: { intros kv Hkv. apply Hst. set_solver. }
  exists ((t, rate) :: ps). split_and!.
  - econstructor; [|done|done]. by replace (1 * rate) with rate by lia.
  - by rewrite <- app_assoc.
  - unfold zsum. simpl. lia.
  - simpl. lia.
  - simpl. lia.
  - by exists rest.
Qed.

(** ** Iterators *)

Lemma flow_leb_total k1 k2 : flow_leb k1 k2 = true \/ flow_leb k2 k1 = true.
Proof. destruct k1 as [[f1 s1] t1], k2 as [[f2 s2] t2]. simpl. lia. Qed.

Lemma flow_leb_trans k1 k2 k3 :
  flow_leb k1 k2 = true -> flow_leb k2 k3 = true -> flow_leb k1 k3 = true.
Proof.
  destruct k1 as [[f1 s1] t1], k2 as [[f2 s2] t2], k3 as [[f3 s3] t3]. simpl. lia.
Qed.

Lemma elem_of_flow_iterator addr st s f st' t rate :
  ((f, st', t), rate) ∈ flow_iterator addr st s <->
  (addr < f \/ (addr = f /\ status_code st <= status_code st')) /\
  out_flows s !! (f, st', t) = Some rate.
Proof.
  unfold flow_iterator. rewrite list_elem_of_filter, elem_of_iterate. simpl.
  split; intros [H1 H2]; (split; [lia|done]).
Qed.

Lemma pending_iterator addr st s : pending (flow_iterator addr st s) s.
Proof.
  split.
  - eapply (sublist_NoDup _ (iterate flow_leb (out_flows s)).*1); [apply iterate_NoDup|].
    apply fmap_sublist, sublist_filter.
  - intros [[f st'] t] v Hin. by apply elem_of_flow_iterator in Hin as [_ ?].
Qed.

Lemma flow_iterator_sorted addr st s :
  StronglySorted (key_le flow_leb) (flow_iterator addr st s).
Proof.
  apply StronglySorted_filter, iterate_sorted; [apply flow_leb_total|apply flow_leb_trans].
Qed.

(** A finished loop has moved every flow of the account with the status. *)
Lemma prefix_complete addr st ps s t rate :
  prefix_of_entries addr st ps (flow_iterator addr st s) true ->
  out_flows s !! (addr, st, t) = Some rate -> (t, rate) ∈ ps.
Proof.
  intros (rest & Hl & Hstop) Hin. specialize (Hstop eq_refl).
  assert ((addr, st, t, rate) ∈ flow_iterator addr st s) as Hit
    by (apply elem_of_flow_iterator; split; [right; lia|done]).
  pose proof (flow_iterator_sorted addr st s) as Hsort. rewrite Hl in Hsort, Hit.
  apply elem_of_app in Hit as [Hit|Hit].
  { apply list_elem_of_fmap in Hit as ([t0 v0] & [= -> ->] & Hps). done. }
  exfalso. destruct rest as [|[[[f st'] t'] v'] rest]; [by apply not_elem_of_nil in Hit|].
  assert (((f, st', t'), v') ∈ flow_iterator addr st s) as Hkv by (rewrite Hl; set_solver).
  apply elem_of_flow_iterator in Hkv as [Hge _].
  assert (flow_leb (f, st', t') (addr, st, t) = true) as Hle.
  { apply elem_of_cons in Hit as [[= -> -> -> ->]|Hit].
    - destruct (flow_leb_total (f, st', t') (f, st', t')); done.
    - apply StronglySorted_app in Hsort as (_ & _ & Hsort).
      apply StronglySorted_cons in Hsort as [Hall _].
      rewrite Forall_forall in Hall. apply (Hall _ Hit). }
  unfold is_stop in Hstop. simpl in Hstop, Hle.
  destruct Hstop as [Hne|[-> ->]]; simpl in *; lia.
Qed.

Lemma prefix_entries addr st ps l s done :
  prefix_of_entries addr st ps l done -> pending l s ->
  NoDup ps.*1 /\ forall p, p ∈ ps -> out_flows s !! (addr, st, p.1) = Some p.2.
Proof.
  intros (rest & -> & _) [Hnd Hin]. split.
  - rewrite fmap_app in Hnd. apply NoDup_app in Hnd as [Hnd _].
    rewrite <- list_fmap_compose in Hnd.
    apply (NoDup_fmap_1 (fun t => (addr, st, t))). by rewrite <- list_fmap_compose.
  - intros p Hp. apply Hin, elem_of_app. left. apply list_elem_of_fmap. by exists p.
Qed.

(** ** Relocating the flows of an account keeps the books *)

(** Effect of moving out of [st] on the rate of a receiver. *)
Definition move_sign (st : OutFlowStatus) : Z :=
  match st with OUT_FLOW_STATUS_ACTIVE => -1 | OUT_FLOW_STATUS_FROZEN => 1 end.

Lemma zsum_moved_net st addr a ps :
  zsum (fun p => net_weight a (addr, other_status st, p.1) * p.2) ps -
  zsum (fun p => net_weight a (addr, st, p.1) * p.2) ps =
  move_sign st * (rate_moved a ps - indicator addr a * zsum snd ps).
Proof.
  induction ps as [|[t rate] ps IH]; [unfold rate_moved, zsum; simpl; lia|].
  unfold rate_moved, zsum in *. simpl in *. unfold indicator in *.
  destruct st, (decide (t = a)), (decide (addr = a)); simpl in *; lia.
Qed.

Lemma zsum_moved_frozen st addr a ps :
  zsum (fun p => frozen_weight a (addr, other_status st, p.1) * p.2) ps -
  zsum (fun p => frozen_weight a (addr, st, p.1) * p.2) ps =
  move_sign st * indicator addr a * zsum snd ps.
Proof.
  induction ps as [|[t rate] ps IH]; [unfold zsum; simpl; lia|].
  unfold zsum in *. simpl in *. unfold indicator in *.
  destruct st, (decide (addr = a)); simpl in *; lia.
Qed.

Lemma rate_moved_absent a ps : a ∉ ps.*1 -> rate_moved a ps = 0.
Proof.
  induction ps as [|[t rate] ps IH]; [done|]. rewrite fmap_cons. intros Hni.
  unfold rate_moved, zsum in *. simpl in *.
  rewrite decide_False by set_solver. rewrite IH by set_solver. done.
Qed.

(** A record whose books moved with its flows. *)
Definition moved_book st (total : Z) (b : Z * Z * Z) : Z * Z * Z :=
  (b.1.1 - move_sign st * total, b.1.2 + move_sign st * total, b.2).

Section Relocate.
Context (ctx : Ctx) (addr : Addr) (st : OutFlowStatus) (ps : list (Addr * Z)) (s s1 : State B).
Context (Hok : books_ok s) (Hfok : flows_ok s).
Context (Hmv : moves_flows ctx addr st (move_sign st) ps s s1).
Context (Hnd : NoDup ps.*1)
        (Hin : forall p, p ∈ ps -> out_flows s !! (addr, st, p.1) = Some p.2).

Let s2 := set_out_flows addr (to_update (other_status st) ps) s1.

Lemma relocate_no_self : addr ∉ ps.*1.
Proof.
  intros ([t v] & -> & Hp)%list_elem_of_fmap. apply Hin in Hp. simpl in Hp.
  by rewrite (proj2 Hfok) in Hp.
Qed.

Lemma relocate_fresh p : p ∈ ps -> out_flows s1 !! (addr, other_status st, p.1) = None.
Proof.
  intros Hp. apply moves_flows_spec in Hmv as (_ & _ & _ & _ & Hk). rewrite Hk.
  case_decide; [done|]. apply Hin in Hp. destruct Hfok as [Hdis _].
  destruct st, (Hdis addr p.1) as [H1|H1]; simpl in *; congruence.
Qed.

Lemma relocate_books r :
  Account r = addr -> book r = moved_book st (zsum snd ps) (book_of s addr) ->
  books_ok (with_records (<[addr := r]> (stream_records s2)) s2).
Proof.
  intros Ha Hbook.
  pose proof relocate_no_self as Hns. pose proof (rate_moved_absent _ _ Hns) as Hself.
  apply moves_flows_spec in Hmv as Hm. destruct Hm as (_ & Hb & Hw & Hc & _).
  destruct (set_out_flows_spec addr (other_status st) ps s1 Hnd relocate_fresh)
    as (_ & Hr & _ & _ & Hw2 & Hc2 & _).
  fold (to_update (other_status st) ps) in Hr, Hw2, Hc2. fold s2 in Hr, Hw2, Hc2.
  intros a. rewrite book_of_insert, Hr. fold (book_of s1 a). rewrite Hb, Hbook.
  cbn [out_flows with_records]. unfold flow_book, flow_count.
  rewrite !Hw2, !Hw, Hc2, Hc. cbn [fst].
  pose proof (zsum_moved_net st addr a ps) as Hn.
  pose proof (zsum_moved_frozen st addr a ps) as Hf.
  unfold moved_book. destruct (decide (a = addr)) as [->|Hne].
  - rewrite Hok. unfold flow_book, flow_count. rewrite Hself in Hn. unfold indicator in *.
    destruct (decide (addr = addr)); [|done]. cbn [fst snd]. clear Hb Hw Hc Hw2 Hc2.
    rewrite !pair_equal_spec. split_and!; [lia|lia|f_equal; lia].
  - rewrite Hok. unfold flow_book, flow_count. unfold indicator in *.
    destruct (decide (addr = a)); [congruence|]. cbn [fst snd]. clear Hb Hw Hc Hw2 Hc2.
    rewrite !pair_equal_spec. split_and!; [lia|lia|f_equal; lia].
Qed.

Lemma relocate_lookup k :
  out_flows s2 !! k =
  if decide (k ∈ (fun p : Addr * Z => (addr, other_status st, p.1)) <$> ps)
  then out_flows s2 !! k
  else if decide (k ∈ (fun p : Addr * Z => (addr, st, p.1)) <$> ps) then None
  else out_flows s !! k.
Proof.
  case_decide as Hk1; [done|].
  destruct (set_out_flows_spec addr (other_status st) ps s1 Hnd relocate_fresh)
    as (_ & _ & _ & _ & _ & _ & Hk2).
  unfold s2, to_update. rewrite Hk2 by done.
  apply moves_flows_spec in Hmv as (_ & _ & _ & _ & Hk). apply Hk.
Qed.

Lemma relocate_flows_ok : flows_ok s2.
Proof.
  pose proof relocate_no_self as Hns. split.
  - intros f t. rewrite (relocate_lookup (f, OUT_FLOW_STATUS_ACTIVE, t)).
    rewrite (relocate_lookup (f, OUT_FLOW_STATUS_FROZEN, t)).
    destruct (decide (f = addr /\ t ∈ ps.*1)) as [[-> Ht]|Hno].
    + apply list_elem_of_fmap in Ht as (p & -> & Hp).
      destruct st; simpl in *; repeat case_decide; set_solver.
    + destruct Hfok as [Hdis _]. specialize (Hdis f t).
      repeat case_decide; auto; exfalso; apply Hno; set_solver.
  - intros f st'. rewrite relocate_lookup. destruct Hfok as [_ Hself].
    repeat case_decide; auto. exfalso. set_solver.
Qed.
End Relocate.

(** ** The end blocker keeps the books *)

(** Number of frozen out flows. *)
Definition frozen_flows s : Z := key_sum (fun k => status_code k.1.2) (out_flows s).

Definition flow_state_ok s : Prop := books_ok s /\ flows_ok s.

Lemma flow_state_ok_same s s' :
  out_flows s' = out_flows s -> (forall a, book_of s' a = book_of s a) ->
  flow_state_ok s -> flow_state_ok s'.
Proof.
  unfold flow_state_ok, books_ok, flows_ok. intros -> Hb [Hok Hf]. split; [|done].
  intros a. by rewrite Hb.
Qed.

Lemma zsum_const {A} (c : Z) (l : list A) : zsum (fun _ => c) l = c * Z.of_nat (length l).
Proof. induction l as [|x l IH]; unfold zsum in *; simpl in *; lia. Qed.

(** The payer's record after its moved flows are stored with the other
    status: the state is again consistent, and the number of frozen flows
    changed by the number moved. *)
Lemma relocate_ok ctx addr st ps s s1 s3 r :
  let s2 := set_out_flows addr (to_update (other_status st) ps) s1 in
  flow_state_ok s -> moves_flows ctx addr st (move_sign st) ps s s1 -> NoDup ps.*1 ->
  (forall p, p ∈ ps -> out_flows s !! (addr, st, p.1) = Some p.2) ->
  out_flows s3 = out_flows s2 -> (forall a, a <> addr -> book_of s3 a = book_of s2 a) ->
  Account r = addr -> book r = moved_book st (zsum snd ps) (book_of s addr) ->
  let s4 := with_records (<[addr := r]> (stream_records s3)) s3 in
  flow_state_ok s4 /\
  frozen_flows s4 = frozen_flows s - move_sign st * Z.of_nat (length ps).
Proof.
  intros s2 [Hok Hf] Hmv Hnd Hin Ho Hr Ha Hbook s4. split.
  - eapply (flow_state_ok_same (with_records (<[addr := r]> (stream_records s2)) s2)).
    + exact Ho.
    + intros a. unfold s4. rewrite !book_of_insert. case_decide; [done|]. by apply Hr.
    + split; [by apply (relocate_books ctx addr st ps s s1)|].
      by apply (relocate_flows_ok ctx addr st ps s s1).
  - unfold frozen_flows, s4. simpl. rewrite Ho.
    destruct (set_out_flows_spec addr (other_status st) ps s1 Hnd) as (_&_&_&_&_& Hc2 &_).
    { intros p Hp. by apply (relocate_fresh ctx addr st ps s s1 Hf Hmv Hin). }
    apply moves_flows_spec in Hmv as (_ & _ & _ & Hc & _).
    unfold s2, to_update. rewrite Hc2, Hc. simpl. rewrite !zsum_const.
    destruct st; simpl; lia.
Qed.

End Settle.
