(* ===== verification/PaymentEndBlockFacts.v ===== *)
(** * x/payment: what the end blocker keeps

    [AutoSettle], [AutoResume] and [TryResumeStreamRecord] keep the books and
    the flow store consistent, handle at most the configured number of flows
    in a block, and in the forced context of the end blocker no stream record
    update returns an error. *)

From S2P Require Import Prelude Sdk PaymentTypes PaymentStore PaymentStream PaymentStreamFacts.
From S2P Require Import PaymentSolvency PaymentFlows PaymentFlowsFacts PaymentBooks.
From S2P Require Import PaymentEndBlock PaymentSettle.

Section EndBlockFacts.
Context {B : Type} {HBank : BankKeeper B} {HAddr : Addresses}.
Implicit Types (s : State B) (ctx : Ctx) (r : StreamRecord) (ch : StreamRecordChange).

(** ** Forced updates return no error *)

Definition never_err {A} (c : PM B A) : Prop := forall s e s', c s <> (Err e, s').

Lemma never_err_bind {A C} (c : PM B A) (k : A -> PM B C) :
  never_err c -> (forall a, never_err (k a)) -> never_err (bind c k).
Proof.
  unfold never_err, bind. intros Hc Hk s e s'. specialize (Hc s).
  destruct (c s) as [[] ?] eqn:Hs; [apply Hk|naive_solver|done|done].
Qed.

Lemma never_err_ret {A} (a : A) : never_err (ret a).
Proof. done. Qed.
Lemma never_err_panic {A} : never_err (A := A) panic.
Proof. done. Qed.
Lemma never_err_nofuel {A} : never_err (A := A) nofuel.
Proof. done. Qed.
Lemma never_err_get : never_err get.
Proof. done. Qed.
Lemma never_err_modify f : never_err (modify f).
Proof. done. Qed.
Lemma never_err_guard b e : b = false -> never_err (guard b e).
Proof. by intros ->. Qed.
Lemma never_err_on_err {A} (c : PM B A) : never_err (on_err c (fun _ => panic)).
Proof. intros s e s'. unfold on_err, panic. by destruct (c s) as [[]]. Qed.
Lemma never_err_attempt {A} (c : PM B A) : never_err (attempt c).
Proof. intros s e s'. unfold attempt. by destruct (c s) as [[]]. Qed.
Hint Resolve never_err_ret never_err_panic never_err_nofuel never_err_get never_err_modify
  never_err_guard never_err_on_err never_err_attempt : core.

Lemma never_err_SetStreamRecord r : never_err (SetStreamRecord r).
Proof. unfold SetStreamRecord. case_match; auto. Qed.
Hint Resolve never_err_SetStreamRecord : core.

(** [no_err] walks a computation whose leaves return no error. *)
Ltac no_err :=
  repeat (auto;
    match goal with
    | |- forall _, _ => intros
    | |- never_err (bind _ _) => apply never_err_bind
    | |- never_err (match ?x with _ => _ end) => destruct x
    | |- never_err (guard _ _) => apply never_err_guard
    end).

Lemma forced_no_error fuel ctx r ch :
  Forced ctx = true -> never_err (UpdateStreamRecord fuel ctx r ch).
Proof.
  intros Hf. revert r ch. induction fuel as [|fuel IH]; intros r ch; [simpl; auto|].
  cbn [UpdateStreamRecord].
  unfold UpdateFrozenStreamRecord, auto_transfer, ForceSettle_with, UpdateByAddr_with.
  rewrite Hf. no_err.
Qed.

Lemma forced_no_error_by_addr ctx ch :
  Forced ctx = true -> never_err (UpdateStreamRecordByAddr ctx ch).
Proof.
  intros Hf. unfold UpdateStreamRecordByAddr, UpdateByAddr_with.
  pose proof (forced_no_error update_fuel ctx) as Hupd. no_err.
Qed.

Lemma settle_flows_no_error ctx addr max l count total upd :
  never_err (settle_flows ctx addr max l count total upd).
Proof.
  revert count total upd. induction l as [|[[[f st] t] rate] l IH]; intros; simpl; no_err.
Qed.

Lemma resume_flows_no_error ctx addr max l count total upd :
  never_err (resume_flows ctx addr max l count total upd).
Proof.
  revert count total upd. induction l as [|[[[f st] t] rate] l IH]; intros; simpl; no_err.
Qed.
Hint Resolve settle_flows_no_error resume_flows_no_error : core.

Lemma auto_settle_loop_no_error ctx max l count : never_err (auto_settle_loop ctx max l count).
Proof.
  revert count. induction l as [|[ts addr] l IH]; intros; simpl; [auto|].
  unfold auto_settle_step, settle_account. no_err.
Qed.

Lemma auto_resume_loop_no_error ctx max l count : never_err (auto_resume_loop ctx max l count).
Proof.
  revert count. induction l as [|[ts addr] l IH]; intros; simpl; [auto|].
  unfold auto_resume_step. no_err.
Qed.

Lemma EndBlock_never_err now : never_err (EndBlock now).
Proof.
  pose proof auto_settle_loop_no_error. pose proof auto_resume_loop_no_error.
  unfold EndBlock, AutoResume, AutoSettle. no_err.
Qed.

(** ** Settling one account *)

Lemma settle_account_ok ctx max ts addr r count s c s' :
  settle_account ctx max ts addr r count s = (Ret c, s') ->
  flow_state_ok s -> count <= max -> Account r = addr -> book r = book_of s addr ->
  flow_state_ok s' /\ count <= c <= max /\ frozen_flows s' = frozen_flows s + (c - count).
Proof.
  unfold settle_account. intros Hrun Hok Hmax Ha Hbook.
  rewrite bind_get in Hrun.
  apply bind_Ret in Hrun as ([[[c1 total] upd] fin] & s1 & Hflows & Hrun).
  apply bind_Ret in Hrun as (? & ? & ->%modify_Ret & Hrun).
  apply bind_Ret in Hrun as (? & s3 & Hrem & Hrun).
  apply bind_Ret in Hrun as (? & ? & [_ ->]%SetStreamRecord_Ret & [<- <-]%ret_Ret).
  apply settle_flows_moves in Hflows as (ps & Hmv & -> & -> & -> & Hle & Hpre);
    [|apply pending_iterator|done].
  destruct (prefix_entries _ _ _ _ s _ Hpre (pending_iterator _ _ _)) as [Hnd Hin].
  simpl app in Hrem. set (s2 := set_out_flows addr _ s1) in Hrem.
  assert (out_flows s3 = out_flows s2 /\ stream_records s3 = stream_records s2) as [Ho Hr].
  { destruct fin; [|by minv]. case_match; by minv. }
  set (r2 := set_frozen _ _). assert (Account r2 = addr) as Ha2 by done. rewrite Ha2.
  destruct (relocate_ok ctx addr OUT_FLOW_STATUS_ACTIVE ps s s1 s3 r2) as [Hok' Hfz]; try done.
  - intros a _. unfold book_of. by rewrite Hr.
  - rewrite <- Hbook. unfold book, moved_book. book_eq.
  - split_and!; [exact Hok'|lia|lia|]. rewrite Hfz. simpl. lia.
Qed.

(** Recording an updated record that keeps its books. *)
Lemma update_record_ok fuel ctx r addr s r1 s1 :
  UpdateStreamRecord fuel ctx r (NewDefaultStreamRecordChangeWithAddr addr) s = (Ret r1, s1) ->
  Account r = addr -> book r = book_of s addr ->
  let s2 := with_records (<[Account r1 := r1]> (stream_records s1)) s1 in
  Account r1 = addr /\ book r1 = book_of s2 addr /\ frame s s2 /\
  (forall a, book_of s2 a = book_of s a).
Proof.
  intros (Hf & Ha1 & Hb & Hbooks)%UpdateStreamRecord_books Ha Hbook s2.
  assert (book r1 = book r) as Hb1.
  { rewrite Hb. unfold booked, book. simpl. destruct (is_frozen _); book_eq. }
  rewrite Ha in Ha1. unfold s2. split_and!; [done| | |].
  - rewrite book_of_insert, Ha1. by case_decide.
  - etrans; [done|]. apply frame_records.
  - intros a. rewrite book_of_insert, Ha1. case_decide as Hd; [congruence|]. apply Hbooks.
Qed.

(** What a round of [AutoSettle] does: at most [c - count] flows are frozen,
    and the count stays below the bound. *)
Definition settle_round (max count c : Z) s s' : Prop :=
  flow_state_ok s' /\ count <= c <= max /\
  frozen_flows s <= frozen_flows s' <= frozen_flows s + (c - count).

Lemma settle_round_same max count c s s' :
  frame s s' -> (forall a, book_of s' a = book_of s a) -> flow_state_ok s ->
  count <= c <= max -> settle_round max count c s s'.
Proof.
  intros [] Hb Hok Hc. split_and!; try lia.
  - by eapply flow_state_ok_same.
  - unfold frozen_flows. by rewrite frame_flows.
  - unfold frozen_flows. rewrite frame_flows. lia.
Qed.

Lemma settle_round_trans max c1 c2 c3 s1 s2 s3 :
  settle_round max c1 c2 s1 s2 -> settle_round max c2 c3 s2 s3 -> settle_round max c1 c3 s1 s3.
Proof. unfold settle_round. intros (? & ? & ?) (? & ? & ?). split_and!; try done; lia. Qed.

Lemma auto_settle_step_ok ctx max ts addr count s o s' :
  Forced ctx = true ->
  auto_settle_step ctx max ts addr count s = (Ret o, s') -> flow_state_ok s ->
  count <= max ->
  exists c, settle_round max count c s s' /\ (o = Some c \/ o = None).
Proof.
  intros Hforced. unfold auto_settle_step. intros Hrun Hok Hmax.
  assert (settle_round max count count s s) as Hsame by (by apply settle_round_same).
  case_match eqn:Hlim; [minv; eauto|]. case_match; [minv; eauto|].
  rewrite bind_get in Hrun.
  pose proof (GetStreamRecord_account ctx addr s) as Ha.
  pose proof (GetStreamRecord_book ctx addr s) as Hb.
  destruct (GetStreamRecord ctx addr s) as [r found]. simpl in Ha, Hb.
  destruct found; cbn [negb] in Hrun; [|apply ret_Ret in Hrun as [<- <-]; eauto].
  assert (forall r count s o s',
    (let! s := get in
     if ExistsAutoResumeRecord ts addr s then ret (Some count)
     else let! c := settle_account ctx max ts addr r count in ret (Some c)) s = (Ret o, s') ->
    flow_state_ok s -> count <= max -> Account r = addr -> book r = book_of s addr ->
    exists c, settle_round max count c s s' /\ (o = Some c \/ o = None)) as Hfinish.
  { clear. intros r count s o s' Hrun Hok Hmax Ha Hb. rewrite bind_get in Hrun.
    case_match; minv.
    - exists count. split; [|auto]. by apply settle_round_same.
    - apply settle_account_ok in H0 as (? & ? & ?); try done.
      eexists. split; [|eauto]. split_and!; try done; lia. }
  destruct (Status r); [|by eapply (Hfinish _ _ _ _ _ Hrun)].
  apply bind_Ret in Hrun as ([r1|] & s1 & Hupd & Hrun).
  2: { apply attempt_None in Hupd as [e Hupd]. by apply forced_no_error in Hupd. }
  apply attempt_Some in Hupd.
  apply bind_Ret in Hrun as (? & s2 & [_ Hs2]%SetStreamRecord_Ret & Hrun).
  destruct (update_record_ok _ _ _ _ _ _ _ Hupd Ha Hb) as (Ha1 & Hb1 & Hfr & Hbooks).
  rewrite <- Hs2 in *.
  assert (settle_round max count (count + 1) s s2) as Hround
    by (apply settle_round_same; [done..|lia]).
  case_match; [minv; eauto|]. case_match; [minv; eauto|].
  destruct (Hfinish _ _ _ _ _ Hrun) as (c & Hc & Ho); [apply Hround|lia|done|done|].
  exists c. split; [|done]. by eapply settle_round_trans.
Qed.

Lemma auto_settle_loop_ok ctx max l count s u s' :
  Forced ctx = true ->
  auto_settle_loop ctx max l count s = (Ret u, s') -> flow_state_ok s -> count <= max ->
  exists c, settle_round max count c s s'.
Proof.
  intros Hforced. revert count s. induction l as [|[ts addr] l IH]; simpl; intros count s Hrun Hok Hmax.
  { minv. exists count. by apply settle_round_same. }
  apply bind_Ret in Hrun as (o & s1 & Hstep & Hrun).
  apply auto_settle_step_ok in Hstep as (c & Hc & [-> | ->]); try done; [|minv; eauto].
  apply IH in Hrun as [c' Hc']; [|apply Hc..].
  exists c'. by eapply settle_round_trans.
Qed.

Lemma AutoSettle_ok ctx s u s' :
  Forced ctx = true -> 0 <= MaxAutoSettleFlowCount (params s) ->
  AutoSettle ctx s = (Ret u, s') -> flow_state_ok s ->
  flow_state_ok s' /\
  frozen_flows s <= frozen_flows s' <= frozen_flows s + MaxAutoSettleFlowCount (params s).
Proof.
  intros Hf Hmax Hrun Hok. unfold AutoSettle in Hrun. rewrite bind_get in Hrun.
  apply auto_settle_loop_ok in Hrun as (c & Hok' & Hc & Hle); try done.
  unfold GetParams in *. split; [done|lia].
Qed.

(** ** Resuming one account *)

Lemma frozen_iterator addr s kv :
  kv ∈ flow_iterator addr OUT_FLOW_STATUS_FROZEN s -> kv.1.1.1 = addr ->
  kv.1.1.2 = OUT_FLOW_STATUS_FROZEN.
Proof.
  destruct kv as [[[f st] t] v]. intros [Hk _]%elem_of_flow_iterator <-. simpl in *.
  destruct st; simpl in *; [lia|done].
Qed.

Lemma book_of_flows_only s s' a :
  stream_records s' = stream_records s -> book_of s' a = book_of s a.
Proof. unfold book_of. by intros ->. Qed.

(** The record stored at the end of a round, before the payer's own update. *)
Lemma resume_finish_ok ctx ts addr (fin : bool) r s r3 s' :
  (if fin then
     if negb (FrozenNetflowRate r =? 0) then panic
     else
       let! r3 := on_err (UpdateStreamRecord update_fuel ctx
                            (set_status STREAM_ACCOUNT_STATUS_ACTIVE r)
                            (NewDefaultStreamRecordChangeWithAddr addr))
                    (fun _ => panic) in
       do! modify (RemoveAutoResumeRecord ts addr) ;;
       ret r3
   else ret r) s = (Ret r3, s') ->
  Account r3 = Account r /\ book r3 = book r /\ out_flows s' = out_flows s /\
  params s' = params s /\ forall a, book_of s' a = book_of s a.
Proof.
  intros Hrun. destruct fin; [|by minv].
  destruct (negb _); minv.
  apply UpdateStreamRecord_books in H as (Hf & Ha & Hb & Hbooks). destruct Hf.
  split_and!; try done.
  rewrite Hb. unfold booked, book. simpl. book_eq.
Qed.

(** A round of [AutoResume]: the flows it thaws are counted. *)
Definition resume_round (max count c : Z) s s' : Prop :=
  flow_state_ok s' /\ count <= c <= max /\ frozen_flows s' = frozen_flows s - (c - count) /\
  params s' = params s.

Lemma auto_resume_step_ok ctx max ts addr count s c s' :
  auto_resume_step ctx max ts addr count s = (Ret c, s') -> flow_state_ok s ->
  count <= max -> resume_round max count c s s'.
Proof.
  unfold auto_resume_step. intros Hrun Hok Hmax. rewrite bind_get in Hrun.
  pose proof (GetStreamRecord_account ctx addr s) as Ha.
  pose proof (GetStreamRecord_book ctx addr s) as Hb.
  destruct (GetStreamRecord ctx addr s) as [r found]. simpl in Ha, Hb.
  destruct found; cbn [negb] in Hrun; [|minv; split_and!; try done; lia].
  apply bind_Ret in Hrun as ([[[c1 total] upd] fin] & s1 & Hflows & Hrun).
  apply bind_Ret in Hrun as (? & ? & ->%modify_Ret & Hrun).
  apply bind_Ret in Hrun as (r3 & s3 & Hfin & Hrun).
  apply bind_Ret in Hrun as (? & ? & [_ ->]%SetStreamRecord_Ret & [<- <-]%ret_Ret).
  apply resume_flows_moves in Hflows as (ps & Hmv & -> & -> & -> & Hle & Hpre);
    [|apply pending_iterator|apply frozen_iterator|by left].
  destruct (prefix_entries _ _ _ _ s _ Hpre (pending_iterator _ _ _)) as [Hnd Hin].
  apply resume_finish_ok in Hfin as (Ha3 & Hb3 & Ho & Hp & Hbooks).
  cbn [Account set_frozen set_rate] in Ha3. rewrite Ha3, Ha. simpl app in *.
  destruct (relocate_ok ctx addr OUT_FLOW_STATUS_FROZEN ps s s1 s3 r3) as [Hok' Hfz];
    try done; [congruence| |].
  { rewrite Hb3, <- Hb. unfold book, moved_book. book_eq. }
  unfold resume_round. split_and!; [exact Hok'|lia|auto| |].
  - rewrite Hfz. simpl. lia.
  - simpl. rewrite Hp.
    destruct (set_out_flows_spec addr OUT_FLOW_STATUS_ACTIVE ps s1 Hnd) as ([] & _).
    { intros p Hpin.
      by apply (relocate_fresh ctx addr OUT_FLOW_STATUS_FROZEN ps s s1 (proj2 Hok) Hmv Hin). }
    apply moves_flows_spec in Hmv as ([] & _). unfold to_update. simpl in *. congruence.
Qed.

Lemma auto_resume_loop_ok ctx max l count s u s' :
  auto_resume_loop ctx max l count s = (Ret u, s') -> flow_state_ok s -> count <= max ->
  exists c, resume_round max count c s s'.
Proof.
  revert count s. induction l as [|[ts addr] l IH]; simpl; intros count s Hrun Hok Hmax.
  { minv. exists count. split_and!; try done; lia. }
  apply bind_Ret in Hrun as (c & s1 & Hstep & Hrun).
  apply auto_resume_step_ok in Hstep as (Hok1 & Hc & Hfz & Hp); [|done..].
  apply IH in Hrun as (c' & Hok2 & Hc' & Hfz' & Hp'); [|done|lia].
  exists c'. split_and!; try done; try lia. congruence.
Qed.

Lemma AutoResume_ok ctx s u s' :
  0 <= MaxAutoResumeFlowCount (params s) ->
  AutoResume ctx s = (Ret u, s') -> flow_state_ok s ->
  flow_state_ok s' /\ params s' = params s /\
  frozen_flows s - MaxAutoResumeFlowCount (params s) <= frozen_flows s' <= frozen_flows s.
Proof.
  intros Hmax Hrun Hok. unfold AutoResume in Hrun. rewrite bind_get in Hrun.
  apply auto_resume_loop_ok in Hrun as (c & Hok' & Hc & Hfz & Hp); try done.
  unfold GetParams in *. split_and!; try done; lia.
Qed.

(** ** TryResumeStreamRecord *)

Lemma try_resume_flows_moves ctx addr l upd s upd' s' :
  try_resume_flows ctx addr l upd s = (Ret upd', s') ->
  pending l s -> (forall kv, kv ∈ l -> kv.1.1.1 = addr -> kv.1.1.2 = OUT_FLOW_STATUS_FROZEN) ->
  exists ps, moves_flows ctx addr OUT_FLOW_STATUS_FROZEN 1 ps s s' /\
    upd' = upd ++ to_update OUT_FLOW_STATUS_ACTIVE ps /\
    prefix_of_entries addr OUT_FLOW_STATUS_FROZEN ps l true.
Proof.
  revert upd s. induction l as [|[[[f st] t] rate] l IH]; intros upd s Hrun Hp Hst; simpl in Hrun.
  { minv. exists []. rewrite app_nil_r. split_and!; [constructor|done|by exists []]. }
  destruct (f =? addr) eqn:Hf; simpl in Hrun.
  2: { minv. exists []. rewrite app_nil_r. split_and!; [constructor|done|].
       eexists. split; [done|]. intros _. left. simpl. lia. }
  apply Z.eqb_eq in Hf as ->.
  assert (st = OUT_FLOW_STATUS_FROZEN) as ->
    by (apply (Hst (addr, st, t, rate)); [set_solver|done]).
  apply bind_Ret in Hrun as (r1 & s1 & Hupd & Hrun).
  apply bind_Ret in Hrun as (? & ? & ->%modify_Ret & Hrun).
  pose proof (pending_head _ _ _ _ Hp) as Hhead.
  apply IH in Hrun as (ps & Hmv & -> & (rest & -> & Hrest)).
  2: { by apply (pending_tail (addr, OUT_FLOW_STATUS_FROZEN, t, rate) l s s1 r1 ctx
         (rate_change t rate)). }
  2: { intros kv Hkv. apply Hst. set_solver. }
  exists ((t, rate) :: ps). split_and!.
  - econstructor; [|done|done]. by replace (1 * rate) with rate by lia.
  - by rewrite <- app_assoc.
  - by exists rest.
Qed.

(** The frozen rate of a consistent payer is the sum of its frozen flows. *)
Lemma frozen_rate_total ctx addr ps s s1 :
  flow_state_ok s -> moves_flows ctx addr OUT_FLOW_STATUS_FROZEN 1 ps s s1 ->
  prefix_of_entries addr OUT_FLOW_STATUS_FROZEN ps
    (flow_iterator addr OUT_FLOW_STATUS_FROZEN s) true ->
  (book_of s addr).1.2 = - zsum snd ps.
Proof.
  intros [Hok _] Hmv Hpre. rewrite Hok. cbn [flow_book fst snd].
  apply moves_flows_spec in Hmv as (_ & _ & Hw & _ & Hk).
  assert (flow_sum (frozen_weight addr) (out_flows s1) = 0) as Hz.
  { apply map_sum_zero. intros [[f st] t] v Hl. rewrite Hk in Hl.
    case_decide as Hd; [done|]. simpl. unfold indicator.
    destruct st; [lia|]. destruct (decide (f = addr)) as [->|]; [|lia].
    exfalso. apply Hd. eapply prefix_complete in Hl; [|done].
    apply list_elem_of_fmap. by exists (t, v). }
  specialize (Hw (frozen_weight addr)). rewrite Hz in Hw.
  assert (zsum (fun p : Addr * Z => frozen_weight addr (addr, OUT_FLOW_STATUS_FROZEN, p.1) * p.2) ps
          = - zsum snd ps) as Hs.
  { clear. induction ps as [|p ps IH]; unfold zsum in *; simpl in *; [done|].
    unfold indicator in *. destruct (decide (addr = addr)); [|done]. lia. }
  clear Hk. lia.
Qed.

Lemma set_same_book_ok s r :
  flow_state_ok s -> book r = book_of s (Account r) ->
  flow_state_ok (with_records (<[Account r := r]> (stream_records s)) s).
Proof.
  intros Hok Hb. apply (flow_state_ok_same s); [done| |exact Hok].
  intros a. rewrite book_of_insert. case_decide; [congruence|done].
Qed.

Lemma flow_state_ok_settle_queue a t1 t2 s :
  flow_state_ok s -> flow_state_ok (UpdateAutoSettleRecord a t1 t2 s).
Proof.
  apply flow_state_ok_same; [apply frame_auto_settle|].
  intros. apply book_of_flows_only, records_auto_settle.
Qed.

Lemma TryResume_ok ctx r dep s u s' :
  TryResumeStreamRecord ctx r dep s = (Ret u, s') ->
  flow_state_ok s -> book r = book_of s (Account r) ->
  flow_state_ok s'.
Proof.
  unfold TryResumeStreamRecord. intros Hrun Hok Hb.
  apply bind_Ret in Hrun as (? & ? & [_ ->]%guard_Ret & Hrun). rewrite bind_get in Hrun.
  apply bind_Ret in Hrun as (? & ? & [_ ->]%guard_Ret & Hrun).
  case_match; [apply SetStreamRecord_Ret in Hrun as [_ ->]; by apply (set_same_book_ok s)|].
  case_match; [apply SetStreamRecord_Ret in Hrun as [_ ->]; by apply (set_same_book_ok s)|].
  case_match; [by minv|].
  case_match.
  2: { apply bind_Ret in Hrun as (? & ? & [_ ->]%SetStreamRecord_Ret & ->%modify_Ret).
       match goal with |- flow_state_ok (_ _ _ ?s1) => apply (flow_state_ok_same s1); try done end.
       by apply (set_same_book_ok s). }
  set (r2 := set_frozen 0 _) in Hrun.
  assert (Account r2 = Account r) as Ha2 by done. rewrite Ha2 in Hrun.
  apply bind_Ret in Hrun as (upd & s1 & Hflows & Hrun).
  apply bind_Ret in Hrun as (? & ? & ->%modify_Ret & Hrun).
  apply bind_Ret in Hrun as (? & ? & [_ ->]%SetStreamRecord_Ret & ->%modify_Ret).
  apply flow_state_ok_settle_queue.
  apply try_resume_flows_moves in Hflows as (ps & Hmv & -> & Hpre);
    [|apply pending_iterator|apply frozen_iterator].
  destruct (prefix_entries _ _ _ _ s _ Hpre (pending_iterator _ _ _)) as [Hnd Hin].
  pose proof (frozen_rate_total _ _ _ _ _ Hok Hmv Hpre) as Hfz.
  rewrite Ha2.
  eapply (relocate_ok ctx (Account r) OUT_FLOW_STATUS_FROZEN ps s s1); try done.
  rewrite <- Hb in *. unfold book, moved_book in *. simpl in *.
  rewrite !pair_equal_spec; split_and!; try done; lia.
Qed.

(** ** A frozen account that has been settled has no active flow left *)

(** The flow loop of a round stops early only at the limit. *)
Lemma settle_flows_limit ctx addr max l count total upd s count' total' upd' s' :
  settle_flows ctx addr max l count total upd s = (Ret (count', total', upd', false), s') ->
  max <= count'.
Proof.
  revert count total upd s. induction l as [|[[[f st] t] rate] l IH]; simpl;
    intros count total upd s Hrun; [by minv|].
  case_match; [minv; lia|]. case_match; [by minv|]. case_match; [|by minv].
  minv. eauto.
Qed.

Lemma set_out_flows_other addr st ps s k :
  k ∉ (fun p : Addr * Z => (addr, st, p.1)) <$> ps ->
  out_flows (set_out_flows addr (to_update st ps) s) !! k = out_flows s !! k.
Proof.
  revert s. induction ps as [|[t rate] ps IH]; intros s Hk; [done|]. simpl in *.
  rewrite IH by set_solver. simpl. apply lookup_insert_ne. set_solver.
Qed.

Lemma set_out_flows_lookup addr st ps s t rate :
  NoDup ps.*1 -> (t, rate) ∈ ps ->
  out_flows (set_out_flows addr (to_update st ps) s) !! (addr, st, t) = Some rate.
Proof.
  revert s. induction ps as [|[t' rate'] ps IH]; intros s Hnd Hin; [by apply elem_of_nil in Hin|].
  apply NoDup_cons in Hnd as [Hni Hnd]. apply elem_of_cons in Hin as [[= -> ->]|Hin]; [|by apply IH].
  simpl. rewrite set_out_flows_other; [simpl; apply lookup_insert_eq|].
  intros ([t v] & [= ->] & Hp)%list_elem_of_fmap. apply Hni, list_elem_of_fmap. by exists (t, v).
Qed.

(** The flows of [addr] are frozen, with their rates; those of other senders
    stay. *)
Definition flows_frozen (addr : Addr) s s' : Prop :=
  forall f st t, out_flows s' !! (f, st, t) =
    if decide (f = addr) then
      match st with
      | OUT_FLOW_STATUS_ACTIVE => None
      | OUT_FLOW_STATUS_FROZEN =>
          match out_flows s !! (addr, OUT_FLOW_STATUS_ACTIVE, t) with
          | Some rate => Some rate
          | None => out_flows s !! (addr, OUT_FLOW_STATUS_FROZEN, t)
          end
      end
    else out_flows s !! (f, st, t).

Lemma settle_flows_frozen ctx addr ps s s1 :
  moves_flows ctx addr OUT_FLOW_STATUS_ACTIVE (-1) ps s s1 -> flows_ok s ->
  prefix_of_entries addr OUT_FLOW_STATUS_ACTIVE ps (flow_iterator addr OUT_FLOW_STATUS_ACTIVE s) true ->
  flows_frozen addr s (set_out_flows addr (to_update OUT_FLOW_STATUS_FROZEN ps) s1).
Proof.
  intros Hmv Hok Hpre f st t.
  destruct (prefix_entries _ _ _ _ s _ Hpre (pending_iterator _ _ _)) as [Hnd Hin].
  pose proof (relocate_lookup ctx addr OUT_FLOW_STATUS_ACTIVE ps s s1 Hok Hmv Hnd Hin (f, st, t)) as Hl.
  simpl in Hl. case_decide as Hk.
  - apply list_elem_of_fmap in Hk as ([t' rate] & [= -> -> ->] & Hp). simpl.
    rewrite decide_True by done. rewrite set_out_flows_lookup with (rate := rate) by done.
    pose proof (Hin _ Hp) as E. simpl in E. by rewrite E.
  - rewrite Hl. clear Hl. case_decide as Hk2.
    + apply list_elem_of_fmap in Hk2 as ([t' rate] & [= -> -> ->] & Hp). by rewrite decide_True.
    + case_decide as Hf; [subst f|done].
      destruct (out_flows s !! (addr, OUT_FLOW_STATUS_ACTIVE, t)) as [rate|] eqn:Ha; [|by destruct st].
      apply (prefix_complete _ _ _ _ _ _ Hpre) in Ha. exfalso.
      destruct st; [apply Hk2|apply Hk]; apply list_elem_of_fmap; by exists (t, rate).
Qed.

(** A settled account: its flows frozen, no rate left, the frozen rate with what
    was active, and the queue without the entry [ts] *)
Record account_settled (ts : Z) (addr : Addr) r s s' : Prop := mkSettled {
  se_flows : flows_frozen addr s s';
  se_queue : auto_settle s' !! (ts, addr) = None;
  se_record : stream_records s' !! addr =
    Some (set_frozen (FrozenNetflowRate r + NetflowRate r) (set_rate 0 r));
}.

Lemma settle_account_finished ctx max ts addr r count s c s' :
  settle_account ctx max ts addr r count s = (Ret c, s') ->
  flow_state_ok s -> Account r = addr -> count <= max -> c < max -> account_settled ts addr r s s'.
Proof.
  unfold settle_account. intros Hrun Hok Ha Hmax Hlt. rewrite bind_get in Hrun.
  apply bind_Ret in Hrun as ([[[c1 total] upd] fin] & s1 & Hflows & Hrun).
  apply bind_Ret in Hrun as (? & ? & ->%modify_Ret & Hrun).
  apply bind_Ret in Hrun as (? & s3 & Hrem & Hrun).
  apply bind_Ret in Hrun as (? & ? & [_ ->]%SetStreamRecord_Ret & [<- <-]%ret_Ret).
  destruct fin; [|apply settle_flows_limit in Hflows; lia].
  apply settle_flows_moves in Hflows as (ps & Hmv & -> & -> & _ & _ & Hpre);
    [|apply pending_iterator|done].
  destruct (negb _) eqn:Hz; [by minv|]. apply negb_false_iff, Z.eqb_eq in Hz. simpl in Hz.
  apply modify_Ret in Hrem as ->. split; simpl.
  - exact (settle_flows_frozen _ _ _ _ _ Hmv (proj2 Hok) Hpre).
  - apply lookup_delete_eq.
  - rewrite Ha, lookup_insert_eq. f_equal. unfold set_frozen, set_rate. simpl. rewrite Hz. f_equal. lia.
Qed.
End EndBlockFacts.
