(* ===== verification/PaymentConserve.v ===== *)
(** * x/payment: conservation of value by the end blocker

    The surplus of the module is the fee coins of the module account less the
    value of the stream records and the delayed withdrawals.  Settling and
    resuming accounts keeps it, and so does the passing of time while no
    frozen account has active flows. *)

From S2P Require Import Prelude Sdk PaymentTypes PaymentStore PaymentStream PaymentStreamFacts.
From S2P Require Import PaymentSolvency PaymentFlows PaymentFlowsFacts PaymentBooks.
From S2P Require Import PaymentEndBlock PaymentSettle PaymentEndBlockFacts.

Section Conserve.
Context {B : Type} {HBank : BankKeeper B} {HAddr : Addresses} {HLaws : BankLaws B}.
Implicit Types (s : State B) (ctx : Ctx) (r : StreamRecord) (ch : StreamRecordChange).

(** ** Surplus *)

Definition delayed_total s : Z := map_sum (fun _ d => DelayedAmount d) (delayed_withdrawals s).

Definition surplus (t : Z) s : Z := module_balance s - total_value t s - delayed_total s.

Lemma surplus_update f ctx ch s r' s' :
  UpdateByAddr_with (UpdateStreamRecord f ctx) ctx ch s = (Ret r', s') ->
  sane ctx s -> ChangeAddr ch <> ModuleAddress ModuleName ->
  let r := (GetStreamRecord ctx (ChangeAddr ch) s).1 in
  (ChangeAddr ch = GovernanceAddress -> 0 <= NetflowRate r + RateChange ch) ->
  surplus (BlockTime ctx) s' = surplus (BlockTime ctx) s
    - (if is_frozen (Status r) then 0 else StaticBalanceChange ch) /\
  sane ctx s' /\ frame s s'.
Proof.
  intros Hrun Hsane Hne r Hgov.
  pose proof (UpdateByAddr_with_books _ _ _ _ _ _ (UpdateStreamRecord_books f ctx) Hrun)
    as (Hf & _).
  apply UpdateByAddr_value in Hrun as [Hval Hs']; try done.
  split_and!; try done. unfold surplus, delayed_total. rewrite (frame_delayed _ _ Hf).
  fold r in Hval. lia.
Qed.

(** A payment of [amt] fee coins into and out of the module account. *)
Definition pays_module (d : string) (amt : Z) (b b' : B) : Prop :=
  GetBalance b' (ModuleAddress ModuleName) d =
  GetBalance b (ModuleAddress ModuleName) d + amt.

Lemma NewCoins_amount d amt cs : NewCoins d amt = Some cs -> AmountOf d cs = amt.
Proof.
  unfold NewCoins, AmountOf, zsum. intros. case_ifs; simplify_eq; simpl; [lia|].
  rewrite decide_True by done. lia.
Qed.

Lemma a2m_pays a cs b b' d :
  SendCoinsFromAccountToModule b a ModuleName cs = Some b' ->
  a <> ModuleAddress ModuleName -> pays_module d (AmountOf d cs) b b'.
Proof.
  intros Hs Hne. unfold pays_module. rewrite (send_a2m _ _ _ _ _ Hs).
  rewrite decide_False by congruence. rewrite decide_True by done. lia.
Qed.

Lemma m2a_pays a cs b b' d :
  SendCoinsFromModuleToAccount b ModuleName a cs = Some b' ->
  a <> ModuleAddress ModuleName -> pays_module d (- AmountOf d cs) b b'.
Proof.
  intros Hs Hne. unfold pays_module. rewrite (send_m2a _ _ _ _ _ Hs).
  rewrite decide_True by done. rewrite decide_False by congruence. lia.
Qed.

Lemma surplus_bank t amt b' s :
  pays_module (FeeDenom (params s)) amt (bank s) b' ->
  surplus t (with_bank b' s) = surplus t s + amt.
Proof.
  unfold pays_module, surplus, module_balance, total_value, delayed_total. simpl. lia.
Qed.

Lemma sane_bank ctx b' s : sane ctx s -> sane ctx (with_bank b' s).
Proof. intros []. by constructor. Qed.

(** ** Moving flows keeps the surplus *)

(** The flows of the store pay nothing negative, not to the module, and
    the governance account is no payer. *)
Definition flows_payable s : Prop :=
  forall f st t v, out_flows s !! (f, st, t) = Some v ->
    0 <= v /\ t <> ModuleAddress ModuleName /\ f <> GovernanceAddress.

Lemma update_other_records f ctx ch s r' s' a :
  UpdateByAddr_with (UpdateStreamRecord f ctx) ctx ch s = (Ret r', s') ->
  sane ctx s -> ChangeAddr ch <> ModuleAddress ModuleName ->
  a <> ChangeAddr ch -> a <> GovernanceAddress ->
  stream_records s' !! a = stream_records s !! a.
Proof.
  intros (s1 & Hupd & _ & ->)%UpdateByAddr_with_Ret Hsane Hne Ha Hg.
  pose proof (GetStreamRecord_account ctx (ChangeAddr ch) s) as Hacc.
  pose proof (timely_GetStreamRecord ctx (ChangeAddr ch) s (sane_timely _ _ Hsane)) as Ht.
  set (r := (GetStreamRecord ctx (ChangeAddr ch) s).1) in *.
  destruct (UpdateStreamRecord_books f ctx _ _ _ _ _ Hupd) as (_ & Ha' & _ & _).
  simpl. rewrite Ha', Hacc, lookup_insert_ne by done.
  destruct (Status r) eqn:Hst.
  - apply UpdateStreamRecord_value in Hupd as (_ & _ & _ & Hfr & _); try done; [auto|congruence].
  - by apply UpdateStreamRecord_frozen in Hupd as (_ & -> & _).
Qed.

Lemma gov_rate_nonneg ctx s :
  gov_ok s -> 0 <= NetflowRate (GetStreamRecord ctx GovernanceAddress s).1.
Proof.
  intros Hg. unfold GetStreamRecord. case_match eqn:Hl; [|done]. by apply Hg in Hl as [_ ?].
Qed.

Lemma map_sum_indicator {V} (a : Addr) (m : gmap Addr V) v :
  m !! a = Some v -> map_sum (fun b _ => indicator a b) m = 1.
Proof.
  intros Ha. rewrite (map_sum_delete _ m a v Ha). unfold indicator at 1.
  rewrite decide_True by done. rewrite map_sum_zero; [done|].
  intros b w [Hne _]%lookup_delete_Some. unfold indicator. by rewrite decide_False.
Qed.

(** The governance account receives at least what the active flows pay it. *)
Definition gov_covered s : Prop :=
  flow_sum (net_weight GovernanceAddress) (out_flows s) <= (book_of s GovernanceAddress).1.1.

(** Weights of flows the governance account does not pay are not negative. *)
Lemma gov_flow_nonneg s k v :
  flows_payable s -> out_flows s !! k = Some v ->
  0 <= net_weight GovernanceAddress k * v.
Proof.
  destruct k as [[f st] t]. intros Hp Hl. apply Hp in Hl as (Hv & _ & Hf). simpl.
  destruct st; [|lia]. unfold indicator. rewrite (decide_False (P := f = _)) by done.
  case_decide; lia.
Qed.

Lemma flows_payable_sub s s' :
  (forall k v, out_flows s' !! k = Some v -> out_flows s !! k = Some v) ->
  flows_payable s -> flows_payable s'.
Proof. intros Hsub Hp f st t v Hl. by apply Hsub, Hp in Hl. Qed.

Lemma gov_move_ok ctx addr st t rate s r1 s1 :
  UpdateStreamRecordByAddr ctx (rate_change t (move_sign st * rate)) s = (Ret r1, s1) ->
  out_flows s !! (addr, st, t) = Some rate -> flows_payable s -> gov_covered s ->
  gov_covered (DeleteOutFlow (addr, st, t) s1) /\
  (t = GovernanceAddress ->
     0 <= (book_of s GovernanceAddress).1.1 + move_sign st * rate).
Proof.
  intros Hupd Hl Hp Hg.
  apply UpdateStreamRecordByAddr_books in Hupd as (Hf & _ & _ & Hbook).
  destruct (Hp _ _ _ _ Hl) as (Hv & _ & Hne).
  assert (0 <= flow_sum (net_weight GovernanceAddress) (delete (addr, st, t) (out_flows s)))
    as Hrest.
  { apply map_sum_nonneg. intros k v [_ Hk]%lookup_delete_Some. by apply (gov_flow_nonneg s). }
  unfold gov_covered in *.
  change (book_of (DeleteOutFlow _ s1) GovernanceAddress) with (book_of s1 GovernanceAddress).
  change (out_flows (DeleteOutFlow (addr, st, t) s1)) with (delete (addr, st, t) (out_flows s1)).
  rewrite (frame_flows _ _ Hf), Hbook. rewrite flow_sum_delete, Hl in *.
  simpl default in *. cbn [net_weight] in *.
  unfold booked. cbn [rate_change ChangeAddr WithRateChange RateChange
    NewDefaultStreamRecordChangeWithAddr fst snd].
  pose proof (GetStreamRecord_book ctx t s) as Hb. unfold indicator in *.
  rewrite (decide_False (P := addr = _)) in * by done.
  destruct (decide (t = GovernanceAddress)) as [->|Hn].
  - rewrite <- Hb in *. rewrite decide_True by done. cbn [book fst snd] in *.
    destruct st; simpl move_sign in *; split; intros; lia.
  - rewrite decide_False by congruence. destruct st; simpl move_sign in *; split; intros; lia.
Qed.

Lemma moves_surplus ctx addr st ps s s' :
  moves_flows ctx addr st (move_sign st) ps s s' ->
  sane ctx s -> flows_payable s -> gov_covered s ->
  surplus (BlockTime ctx) s' = surplus (BlockTime ctx) s /\ sane ctx s' /\
  (forall a, a ∉ ps.*1 -> a <> GovernanceAddress ->
     stream_records s' !! a = stream_records s !! a) /\
  (stream_records s !! ModuleAddress ModuleName = None ->
     stream_records s' !! ModuleAddress ModuleName = None).
Proof.
  induction 1 as [|t rate ps s r1 s1 s' Hupd Hl Hmv IH]; intros Hsane Hp Hg; [done|].
  destruct (Hp _ _ _ _ Hl) as (Hv & Ht & _).
  destruct (gov_move_ok _ _ _ _ _ _ _ _ Hupd Hl Hp Hg) as [Hg1 Hrate].
  pose proof Hupd as Hother.
  eapply surplus_update in Hupd as (Hsur & Hs1 & Hf1); [|done|done|].
  2: { simpl. intros ->. specialize (Hrate eq_refl).
       rewrite <- (GetStreamRecord_book ctx) in Hrate. exact Hrate. }
  assert (StaticBalanceChange (rate_change t (move_sign st * rate)) = 0) as Hz by done.
  rewrite Hz in Hsur.
  destruct IH as (Hsur' & Hs' & Hrec & Hmod).
  { destruct Hs1. by constructor. }
  { eapply flows_payable_sub; [|exact Hp]. simpl. rewrite (frame_flows _ _ Hf1).
    intros k v [_ Hk]%lookup_delete_Some. done. }
  { done. }
  split_and!; try done.
  - rewrite Hsur'. change (surplus (BlockTime ctx) (DeleteOutFlow (addr, st, t) s1))
      with (surplus (BlockTime ctx) s1). rewrite Hsur. case_match; lia.
  - intros a Hni Hng. rewrite Hrec by set_solver. simpl.
    eapply update_other_records; try done; simpl; set_solver.
  - intros Hm. apply Hmod. simpl. rewrite <- Hm.
    eapply update_other_records; try done. symmetry. apply Hsane.
Qed.

(** ** The invariant of the module's state *)

Record solid ctx s : Prop := mkSolid {
  solid_sane : sane ctx s;
  solid_flows : flow_state_ok s;
  solid_payable : flows_payable s;
  solid_module : stream_records s !! ModuleAddress ModuleName = None;
}.

Lemma solid_gov_covered ctx s : solid ctx s -> gov_covered s.
Proof.
  intros [_ [Hok _] _ _]. unfold gov_covered. rewrite Hok. simpl. lia.
Qed.

Lemma set_out_flows_payable addr st ps s :
  flows_payable s -> addr <> GovernanceAddress ->
  (forall p, p ∈ ps -> 0 <= p.2 /\ p.1 <> ModuleAddress ModuleName) ->
  flows_payable (set_out_flows addr (to_update st ps) s).
Proof.
  revert s. induction ps as [|[t v] ps IH]; intros s Hp Hg Hps; [done|].
  apply (IH (SetOutFlow addr (mkOutFlow t v st) s)); [|done|set_solver].
  intros f st' t' v'. simpl. rewrite lookup_insert_Some.
  intros [[[= <- <- <-] <-]|[_ Hl]]; [|by apply Hp in Hl].
  destruct (Hps (t, v)) as [? ?]; [set_solver|]. done.
Qed.

Lemma set_out_flows_rest addr l s :
  exists m, set_out_flows addr l s = with_flows m s.
Proof.
  revert s. induction l as [|o l IH]; intros s; simpl.
  - exists (out_flows s). by destruct s.
  - destruct (IH (SetOutFlow addr o s)) as [m Hm]. exists m.
    unfold set_out_flows in *. simpl. rewrite Hm. done.
Qed.

Lemma with_queues_id s : with_settle (auto_settle s) (with_resume (auto_resume s) s) = s.
Proof. by destruct s. Qed.

Lemma surplus_flows t m s : surplus t (with_flows m s) = surplus t s.
Proof. done. Qed.

Lemma sane_records ctx a r s :
  timely ctx r -> a <> GovernanceAddress -> sane ctx s ->
  sane ctx (with_records (<[a := r]> (stream_records s)) s).
Proof.
  intros Hr Ha [Hg Ht Hm]. constructor; [|by apply timely_insert|done].
  intros g. simpl. rewrite lookup_insert_ne by done. apply Hg.
Qed.

(** Moving the flows of a payer [addr] to the other status keeps the surplus
    and the payer's record. *)
Section Relocated.
Context (ctx : Ctx) (addr : Addr) (st : OutFlowStatus) (ps : list (Addr * Z)).
Context (s s1 : State B) (r0 : StreamRecord).
Context (Hsolid : solid ctx s) (Hmv : moves_flows ctx addr st (move_sign st) ps s s1).
Context (Hnd : NoDup ps.*1)
        (Hin : forall p, p ∈ ps -> out_flows s !! (addr, st, p.1) = Some p.2).
Context (Hr0 : stream_records s !! addr = Some r0) (Hgov : addr <> GovernanceAddress).

Let s2 := set_out_flows addr (to_update (other_status st) ps) s1.

Lemma relocated_state :
  sane ctx s2 /\ surplus (BlockTime ctx) s2 = surplus (BlockTime ctx) s /\
  (forall a, a ∉ ps.*1 -> a <> GovernanceAddress ->
     stream_records s2 !! a = stream_records s !! a) /\
  stream_records s2 !! addr = Some r0 /\
  stream_records s2 !! ModuleAddress ModuleName = None.
Proof.
  destruct (moves_surplus _ _ _ _ _ _ Hmv (solid_sane _ _ Hsolid)
    (solid_payable _ _ Hsolid) (solid_gov_covered _ _ Hsolid)) as (Hsur & Hs1 & Hrec & Hmod).
  assert (addr ∉ ps.*1) as Hself
    by (by eapply relocate_no_self; [apply Hsolid|exact Hmv|exact Hin]).
  unfold s2. destruct (set_out_flows_rest addr (to_update (other_status st) ps) s1) as [m ->].
  split_and!; [|done|done| |].
  - destruct Hs1. by constructor.
  - simpl. by rewrite Hrec.
  - simpl. apply Hmod, Hsolid.
Qed.

Lemma relocated_payable : flows_payable s2.
Proof.
  apply set_out_flows_payable; [|done|].
  - apply (flows_payable_sub s); [|apply Hsolid].
    apply moves_flows_spec in Hmv as (_ & _ & _ & _ & Hk).
    intros k v. rewrite Hk. by case_decide.
  - intros p Hp. apply Hin, (solid_payable _ _ Hsolid) in Hp as (? & ? & _). done.
Qed.

(** Storing the payer's record then restores the invariant. *)
Lemma relocated_solid s3 r :
  out_flows s3 = out_flows s2 -> (forall a, a <> addr -> book_of s3 a = book_of s2 a) ->
  sane ctx s3 -> stream_records s3 !! addr = Some r0 ->
  stream_records s3 !! ModuleAddress ModuleName = None ->
  Account r = addr -> book r = moved_book st (zsum snd ps) (book_of s addr) ->
  timely ctx r ->
  let s4 := with_records (<[addr := r]> (stream_records s3)) s3 in
  solid ctx s4 /\
  surplus (BlockTime ctx) s4 = surplus (BlockTime ctx) s3 +
    value_at (BlockTime ctx) r0 - value_at (BlockTime ctx) r.
Proof.
  intros Ho Hbk Hs3 Hr3 Hm3 Ha Hbook Ht s4. split.
  - constructor.
    + by apply sane_records.
    + eapply (relocate_ok ctx addr st ps s s1 s3); try done. apply Hsolid.
    + intros f st' t v. unfold s4. simpl. rewrite Ho. apply relocated_payable.
    + unfold s4. simpl. rewrite lookup_insert_ne; [done|congruence].
  - unfold surplus, s4 in *. rewrite total_value_insert, Hr3.
    change (module_balance (with_records _ s3)) with (module_balance s3).
    change (delayed_total (with_records _ s3)) with (delayed_total s3). lia.
Qed.

(** The same with only the queues changed in between. *)
Lemma relocate_solid s3 r :
  (exists q1 q2, s3 = with_settle q1 (with_resume q2 s2)) ->
  Account r = addr -> book r = moved_book st (zsum snd ps) (book_of s addr) ->
  timely ctx r ->
  let s4 := with_records (<[addr := r]> (stream_records s3)) s3 in
  solid ctx s4 /\
  surplus (BlockTime ctx) s4 = surplus (BlockTime ctx) s +
    value_at (BlockTime ctx) r0 - value_at (BlockTime ctx) r.
Proof.
  intros (q1 & q2 & Hs3) Ha Hbook Ht s4.
  destruct relocated_state as (Hsane2 & Hsur2 & _ & Hr2 & Hm2).
  destruct (relocated_solid s3 r) as [Hsolid4 Hsur4]; try (by rewrite Hs3); try done.
  - rewrite Hs3. destruct Hsane2. by constructor.
  - split; [done|]. unfold s4. rewrite Hsur4, <- Hsur2, Hs3. done.
Qed.
End Relocated.

(** ** Settling keeps the surplus *)

Lemma frozen_not_gov ctx s addr r :
  sane ctx s -> stream_records s !! addr = Some r ->
  Status r = STREAM_ACCOUNT_STATUS_FROZEN -> addr <> GovernanceAddress.
Proof. intros [Hg _ _] Hr Hst ->. apply Hg in Hr as [Hr _]. congruence. Qed.

Lemma value_frozen t r :
  Status r = STREAM_ACCOUNT_STATUS_FROZEN -> value_at t r = holdings r.
Proof. intros Hst. unfold value_at. rewrite Hst. simpl. lia. Qed.

Lemma settle_account_solid ctx max ts addr r0 count s c s' :
  let r := set_account addr r0 in
  settle_account ctx max ts addr r count s = (Ret c, s') ->
  solid ctx s -> count <= max -> stream_records s !! addr = Some r0 ->
  Status r0 = STREAM_ACCOUNT_STATUS_FROZEN ->
  solid ctx s' /\ surplus (BlockTime ctx) s' = surplus (BlockTime ctx) s.
Proof.
  unfold settle_account. intros Hrun Hsolid Hmax Hr0 Hst. rewrite bind_get in Hrun.
  apply bind_Ret in Hrun as ([[[c1 total] upd] fin] & s1 & Hflows & Hrun).
  apply bind_Ret in Hrun as (? & ? & ->%modify_Ret & Hrun).
  apply bind_Ret in Hrun as (? & s3 & Hrem & Hrun).
  apply bind_Ret in Hrun as (? & ? & [_ ->]%SetStreamRecord_Ret & [<- <-]%ret_Ret).
  apply settle_flows_moves in Hflows as (ps & Hmv & -> & -> & -> & Hle & Hpre);
    [|apply pending_iterator|done].
  destruct (prefix_entries _ _ _ _ s _ Hpre (pending_iterator _ _ _)) as [Hnd Hin].
  simpl app in Hrem. set (s2 := set_out_flows addr _ s1) in Hrem.
  assert (exists q1 q2, s3 = with_settle q1 (with_resume q2 s2)) as Hs3.
  { destruct fin; [destruct (negb _)|]; minv.
    - by exists (delete (ts, addr) (auto_settle s2)), (auto_resume s2).
    - exists (auto_settle s2), (auto_resume s2). by rewrite with_queues_id. }
  set (r2 := set_frozen _ _).
  assert (addr <> GovernanceAddress) as Hng
    by (eapply frozen_not_gov; [apply Hsolid|done|done]).
  destruct (relocate_solid ctx addr OUT_FLOW_STATUS_ACTIVE ps s s1 r0 Hsolid Hmv Hnd Hin Hr0 Hng
    s3 r2) as [Hsolid' Hsur]; try done.
  - unfold book_of. rewrite Hr0. unfold book, moved_book. book_eq.
  - apply (sane_timely _ _ (solid_sane _ _ Hsolid)) in Hr0. exact Hr0.
  - split; [done|]. etrans; [exact Hsur|].
    rewrite !value_frozen by done. unfold holdings. simpl. lia.
Qed.

(** An update of a stored record that keeps its books. *)
Lemma update_solid ctx addr r0 ch s r1 s1 :
  let r := set_account addr r0 in
  UpdateStreamRecord update_fuel ctx r ch s = (Ret r1, s1) ->
  ChangeAddr ch = addr -> RateChange ch = 0 -> FrozenRateChange ch = 0 ->
  CheckStreamRecord r1 = true ->
  solid ctx s -> stream_records s !! addr = Some r0 ->
  let s2 := with_records (<[Account r1 := r1]> (stream_records s1)) s1 in
  Account r1 = addr /\ solid ctx s2 /\ frame s s2 /\
  (forall a, book_of s2 a = book_of s a) /\
  surplus (BlockTime ctx) s2 = surplus (BlockTime ctx) s -
    (if is_frozen (Status r0) then 0 else StaticBalanceChange ch).
Proof.
  intros r Hupd Hch Hrate Hfrate Hcheck Hsolid Hr0 s2.
  assert (UpdateStreamRecordByAddr ctx ch s = (Ret r1, s2)) as Hrun.
  { apply UpdateByAddr_with_Ret. exists s1. split_and!; try done.
    unfold GetStreamRecord. by rewrite Hch, Hr0. }
  destruct Hsolid as [Hsane Hflows Hpay Hmod].
  assert (addr <> ModuleAddress ModuleName) as Hne by congruence.
  pose proof (UpdateStreamRecordByAddr_books _ _ _ _ _ Hrun) as (Hf & Ha & _ & Hb).
  assert (forall a, book_of s2 a = book_of s a) as Hbooks.
  { intros a. rewrite Hb. case_decide as Hd; [|done]. subst a.
    rewrite <- (GetStreamRecord_book ctx). unfold booked, book. rewrite Hrate, Hfrate.
    destruct (is_frozen _); book_eq. }
  pose proof Hrun as Hother.
  eapply surplus_update in Hrun as (Hsur & Hs2 & _); [|done|congruence|].
  2: { rewrite Hch, Hrate. intros ->.
       pose proof (gov_rate_nonneg ctx s (sane_gov _ _ Hsane)). lia. }
  split_and!; try done; [congruence| |].
  - constructor; [done| | |].
    + apply (flow_state_ok_same s); [apply Hf|done|done].
    + apply (flows_payable_sub s); [|done]. by rewrite (frame_flows _ _ Hf).
    + rewrite <- Hmod. eapply update_other_records; try done; [congruence..|].
      symmetry. apply Hsane.
  - rewrite Hsur, Hch. unfold GetStreamRecord. by rewrite Hr0.
Qed.

Lemma GetStreamRecord_stored ctx addr s r :
  GetStreamRecord ctx addr s = (r, true) ->
  exists r0, stream_records s !! addr = Some r0 /\ r = set_account addr r0.
Proof. unfold GetStreamRecord. case_match; intros; simplify_eq. eauto. Qed.

(** A step that keeps the invariant and the surplus. *)
Definition conserves ctx s s' : Prop :=
  solid ctx s' /\ surplus (BlockTime ctx) s' = surplus (BlockTime ctx) s.

Lemma auto_settle_finish_solid ctx max ts addr r0 count s o s' :
  (let! s := get in
   if ExistsAutoResumeRecord ts addr s then ret (Some count)
   else let! c := settle_account ctx max ts addr (set_account addr r0) count in
        ret (Some c)) s = (Ret o, s') ->
  solid ctx s -> count <= max -> stream_records s !! addr = Some r0 ->
  Status r0 = STREAM_ACCOUNT_STATUS_FROZEN -> conserves ctx s s'.
Proof.
  intros Hrun Hsolid Hmax Hr0 Hst. rewrite bind_get in Hrun.
  case_match; minv; [by split|]. by eapply settle_account_solid.
Qed.

Lemma auto_settle_step_solid ctx max ts addr count s o s' :
  Forced ctx = true ->
  auto_settle_step ctx max ts addr count s = (Ret o, s') -> solid ctx s ->
  count <= max -> conserves ctx s s'.
Proof.
  intros Hforced. unfold auto_settle_step. intros Hrun Hsolid Hmax.
  case_match; [minv; by split|]. case_match; [minv; by split|]. rewrite bind_get in Hrun.
  destruct (GetStreamRecord ctx addr s) as [r found] eqn:Hget.
  destruct found; cbn [negb] in Hrun; [|apply ret_Ret in Hrun as [_ <-]; by split].
  apply GetStreamRecord_stored in Hget as (r0 & Hr0 & ->).
  cbn [set_account Status] in Hrun. destruct (Status r0) eqn:Hst.
  2: { by eapply auto_settle_finish_solid in Hrun. }
  apply bind_Ret in Hrun as ([r1|] & s1 & Hupd & Hrun).
  2: { apply attempt_None in Hupd as [e Hupd]. by apply forced_no_error in Hupd. }
  apply attempt_Some in Hupd.
  apply bind_Ret in Hrun as (? & s2 & [Hc Hs2]%SetStreamRecord_Ret & Hrun).
  destruct (update_solid _ _ _ _ _ _ _ Hupd eq_refl eq_refl eq_refl Hc Hsolid Hr0)
    as (Ha1 & Hsolid2 & _ & _ & Hsur).
  rewrite <- Hs2, Hst in *. simpl in Hsur.
  assert (conserves ctx s s2) as Hcons by (split; [done|lia]).
  destruct (Status r1) eqn:Hst1; [by minv|]. case_match; [by minv|].
  replace r1 with (set_account addr r1) in Hrun by (rewrite <- Ha1; by destruct r1).
  eapply auto_settle_finish_solid in Hrun as [Hsolid' Hsur']; try done; [|lia|].
  - split; [done|]. rewrite Hsur'. apply Hcons.
  - rewrite Hs2. simpl. rewrite Ha1. apply lookup_insert_eq.
Qed.

Lemma auto_settle_loop_solid ctx max l count s u s' :
  Forced ctx = true ->
  auto_settle_loop ctx max l count s = (Ret u, s') -> solid ctx s -> count <= max ->
  conserves ctx s s'.
Proof.
  intros Hforced. revert count s.
  induction l as [|[ts addr] l IH]; simpl; intros count s Hrun Hsolid Hmax; [by minv|].
  apply bind_Ret in Hrun as (o & s1 & Hstep & Hrun).
  pose proof Hstep as Hcons. apply auto_settle_step_solid in Hcons as [Hs1 Hsur]; try done.
  apply auto_settle_step_ok in Hstep as (c & Hc & [-> | ->]); try done;
    [|by minv|apply Hsolid].
  apply IH in Hrun as [Hs2 Hsur2]; [|done|apply Hc]. split; [done|congruence].
Qed.

Lemma AutoSettle_solid ctx s u s' :
  Forced ctx = true -> 0 <= MaxAutoSettleFlowCount (params s) ->
  AutoSettle ctx s = (Ret u, s') -> solid ctx s -> conserves ctx s s'.
Proof.
  intros Hf Hmax Hrun Hok. unfold AutoSettle in Hrun. rewrite bind_get in Hrun.
  by eapply auto_settle_loop_solid in Hrun.
Qed.

(** ** Resuming keeps the surplus *)

Lemma solid_queues ctx q1 q2 s :
  solid ctx s -> solid ctx (with_settle q1 (with_resume q2 s)).
Proof. intros [[] [] ? ?]. constructor; done. Qed.

Lemma UpdateAutoSettleRecord_queues a t1 t2 s :
  exists q, UpdateAutoSettleRecord a t1 t2 s = with_settle q (with_resume (auto_resume s) s).
Proof.
  unfold UpdateAutoSettleRecord, SetAutoSettleRecord, RemoveAutoSettleRecord.
  case_ifs; eauto. exists (auto_settle s). by rewrite with_queues_id.
Qed.

(** Storing a record with the books of the account. *)
Lemma store_solid ctx r r0 s u s' :
  SetStreamRecord r s = (Ret u, s') ->
  solid ctx s -> stream_records s !! Account r = Some r0 ->
  Account r <> GovernanceAddress -> book r = book_of s (Account r) -> timely ctx r ->
  solid ctx s' /\
  surplus (BlockTime ctx) s' = surplus (BlockTime ctx) s +
    value_at (BlockTime ctx) r0 - value_at (BlockTime ctx) r.
Proof.
  intros [_ ->]%SetStreamRecord_Ret [Hsane Hflows Hpay Hmod] Hr0 Hg Hb Ht. split.
  - constructor; [by apply sane_records|by apply set_same_book_ok|done|].
    simpl. rewrite lookup_insert_ne; [done|congruence].
  - unfold surplus. rewrite total_value_insert, Hr0.
    change (module_balance (with_records _ s)) with (module_balance s).
    change (delayed_total (with_records _ s)) with (delayed_total s). lia.
Qed.

Lemma timely_now ctx r : CrudTimestamp r = BlockTime ctx -> timely ctx r.
Proof. unfold timely, two63. lia. Qed.

Lemma value_now ctx r : CrudTimestamp r = BlockTime ctx -> value_at (BlockTime ctx) r = holdings r.
Proof. intros Hc. unfold value_at. rewrite Hc. case_match; lia. Qed.

(** The direct branch: every frozen flow of the account is thawed. *)
Lemma try_resume_direct ctx addr r0 r t0 s u s' :
  (let! toUpdate := try_resume_flows ctx (Account r)
                      (flow_iterator (Account r) OUT_FLOW_STATUS_FROZEN s) [] in
   do! modify (set_out_flows (Account r) toUpdate) ;;
   do! SetStreamRecord r ;;
   modify (UpdateAutoSettleRecord (Account r) t0 (SettleTimestamp r))) s = (Ret u, s') ->
  solid ctx s -> stream_records s !! addr = Some r0 -> addr <> GovernanceAddress ->
  Account r = addr -> CrudTimestamp r = BlockTime ctx ->
  book r = (NetflowRate r0 + FrozenNetflowRate r0, 0, OutFlowCount r0) ->
  solid ctx s' /\
  surplus (BlockTime ctx) s' = surplus (BlockTime ctx) s
    + value_at (BlockTime ctx) r0 - holdings r.
Proof.
  intros Hrun Hsolid Hr0 Hng Ha Hc Hbr.
  apply bind_Ret in Hrun as (upd & s1 & Hflows & Hrun).
  apply bind_Ret in Hrun as (? & ? & ->%modify_Ret & Hrun).
  apply bind_Ret in Hrun as (? & ? & [_ ->]%SetStreamRecord_Ret & ->%modify_Ret).
  apply try_resume_flows_moves in Hflows as (ps & Hmv & -> & Hpre);
    [|apply pending_iterator|apply frozen_iterator].
  destruct (prefix_entries _ _ _ _ s _ Hpre (pending_iterator _ _ _)) as [Hnd Hin].
  pose proof (frozen_rate_total _ _ _ _ _ (solid_flows _ _ Hsolid) Hmv Hpre) as Hfz.
  rewrite Ha in *. simpl app.
  set (s2 := set_out_flows addr _ s1).
  destruct (relocate_solid ctx addr OUT_FLOW_STATUS_FROZEN ps s s1 r0 Hsolid Hmv Hnd Hin Hr0 Hng
    s2 r) as [Hs Hsur]; try done.
  - exists (auto_settle s2), (auto_resume s2). by rewrite with_queues_id.
  - rewrite Hbr. unfold book_of in *. rewrite Hr0 in *. unfold book, moved_book in *.
    simpl in *. rewrite !pair_equal_spec; split_and!; try done; lia.
  - by apply timely_now.
  - match goal with |- context [UpdateAutoSettleRecord addr t0 ?t1 ?x] =>
      destruct (UpdateAutoSettleRecord_queues addr t0 t1 x) as [q ->] end.
    split; [by apply solid_queues|].
    rewrite (value_now ctx r) in Hsur by done. exact Hsur.
Qed.

(** Resuming an account with a deposit of [dep] adds at most [dep] to the
    claims on the module: exactly [dep] when the frozen record has no buffer. *)
Lemma TryResume_solid ctx addr r0 dep s u s' :
  let r := set_account addr r0 in
  TryResumeStreamRecord ctx r dep s = (Ret u, s') ->
  solid ctx s -> stream_records s !! addr = Some r0 ->
  solid ctx s' /\
  (surplus (BlockTime ctx) s' = surplus (BlockTime ctx) s - dep \/
   surplus (BlockTime ctx) s' = surplus (BlockTime ctx) s - dep + BufferBalance r0).
Proof.
  unfold TryResumeStreamRecord. intros Hrun Hsolid Hr0.
  apply bind_Ret in Hrun as (? & ? & [Hst ->]%guard_Ret & Hrun). rewrite bind_get in Hrun.
  apply bind_Ret in Hrun as (? & ? & [_ ->]%guard_Ret & Hrun).
  assert (Status r0 = STREAM_ACCOUNT_STATUS_FROZEN) as Hst0.
  { simpl in Hst. by destruct (Status r0). }
  assert (addr <> GovernanceAddress) as Hng
    by (eapply frozen_not_gov; [apply Hsolid|done|done]).
  pose proof (sane_timely _ _ (solid_sane _ _ Hsolid) _ _ Hr0) as Ht0.
  assert (book r0 = book_of s addr) as Hb by (unfold book_of; by rewrite Hr0).
  case_match.
  { eapply store_solid in Hrun as [Hs Hsur];
      [|exact Hsolid|exact Hr0|done|exact Hb|by apply timely_now].
    split; [done|left]. rewrite Hsur, (value_frozen _ r0), value_now by done.
    unfold holdings. simpl. lia. }
  case_match.
  { eapply store_solid in Hrun as [Hs Hsur];
      [|exact Hsolid|exact Hr0|done|exact Hb|exact Ht0].
    split; [done|left]. rewrite Hsur, !value_frozen by done. unfold holdings. simpl. lia. }
  case_match; [by minv|]. case_match.
  { eapply (try_resume_direct ctx addr r0) in Hrun as [Hs Hsur]; try done.
    split; [done|right]. rewrite Hsur, value_frozen by done. unfold holdings. simpl. lia. }
  apply bind_Ret in Hrun as (? & s1 & Hset & ->%modify_Ret).
  eapply store_solid in Hset as [Hs Hsur];
    [|exact Hsolid|exact Hr0|done|exact Hb|by apply timely_now].
  split.
  - destruct Hs as [[] [] ? ?]. by constructor.
  - right. change (surplus _ (SetAutoResumeRecord _ _ s1)) with (surplus (BlockTime ctx) s1).
    rewrite Hsur, (value_frozen _ r0), value_now by done. unfold holdings. simpl. lia.
Qed.
(** ** AutoResume: the surplus does not fall *)

(** An account the resume queue may hold: it is frozen and receives no flow. *)
Definition resumable s (a : Addr) : Prop :=
  a <> GovernanceAddress /\
  (forall f st, out_flows s !! (f, st, a) = None) /\
  (forall r, stream_records s !! a = Some r -> Status r = STREAM_ACCOUNT_STATUS_FROZEN).

(** A payer without inflow has no positive rate. *)
Lemma payer_rate ctx s a :
  solid ctx s -> (forall f st, out_flows s !! (f, st, a) = None) -> (book_of s a).1.1 <= 0.
Proof.
  intros [_ [Hok _] Hpay _] Hno. rewrite Hok. simpl.
  assert (0 <= map_sum (fun k v => - (net_weight a k * v)) (out_flows s)) as Hle.
  { apply map_sum_nonneg. intros [[f st] t] v Hl. pose proof (Hpay _ _ _ _ Hl) as (Hv & _).
    simpl. destruct st; [|lia]. unfold indicator.
    rewrite (decide_False (P := t = a)) by (intros ->; by rewrite Hno in Hl).
    case_decide; lia. }
  rewrite map_sum_opp in Hle. unfold flow_sum. lia.
Qed.

Lemma value_resumed ctx r :
  NetflowRate r <= 0 -> timely ctx r ->
  value_at (BlockTime ctx) (set_status STREAM_ACCOUNT_STATUS_ACTIVE r) <= holdings r.
Proof.
  intros Hr Ht. unfold value_at, timely in *. simpl.
  assert (NetflowRate r * (BlockTime ctx - CrudTimestamp r) <= 0) by nia.
  unfold holdings. simpl. lia.
Qed.

(** The payer's update at the end of its last round. *)
Lemma resume_finish_solid ctx ts addr (fin : bool) r s r3 s' :
  (if fin then
     if negb (FrozenNetflowRate r =? 0) then panic
     else
       let! r3 := on_err (UpdateStreamRecord update_fuel ctx
                            (set_status STREAM_ACCOUNT_STATUS_ACTIVE r)
                            (NewDefaultStreamRecordChangeWithAddr addr))
                    (fun _ => panic) in
       do! modify (RemoveAutoResumeRecord ts addr) ;;
       ret r3
   else ret r) s = (Ret r3, s') ->
  sane ctx s -> Account r <> ModuleAddress ModuleName -> NetflowRate r <= 0 ->
  Status r = STREAM_ACCOUNT_STATUS_FROZEN -> timely ctx r ->
  sane ctx s' /\ timely ctx r3 /\
  surplus (BlockTime ctx) s - holdings r <=
    surplus (BlockTime ctx) s' - value_at (BlockTime ctx) r3 /\
  (forall a, a <> GovernanceAddress -> stream_records s' !! a = stream_records s !! a).
Proof.
  intros Hrun Hsane Hne Hrate Hst Ht. destruct fin.
  2: { minv. rewrite value_frozen by done. split_and!; try done; lia. }
  destruct (negb _); minv.
  pose proof (UpdateStreamRecord_books _ _ _ _ _ _ _ H) as (Hf & _).
  apply UpdateStreamRecord_value in H as (Hval & Hs1 & Ht3 & Hrec & _); try done.
  pose proof (value_resumed ctx r Hrate Ht) as Hle.
  split_and!; try done.
  - destruct Hs1. by constructor.
  - match goal with |- context [RemoveAutoResumeRecord ts addr ?x] =>
      change (surplus (BlockTime ctx) (RemoveAutoResumeRecord ts addr x))
        with (surplus (BlockTime ctx) x) end.
    unfold surplus, delayed_total. rewrite (frame_delayed _ _ Hf). simpl in Hval. lia.
Qed.

(** The rates of stored flows are not negative. *)
Lemma flows_nonneg ctx s addr st (ps : list (Addr * Z)) :
  solid ctx s -> (forall p, p ∈ ps -> out_flows s !! (addr, st, p.1) = Some p.2) ->
  0 <= zsum snd ps.
Proof.
  intros Hsolid. induction ps as [|p ps IH]; intros Hin; unfold zsum in *; simpl; [done|].
  destruct (solid_payable _ _ Hsolid _ _ _ _ (Hin p ltac:(set_solver))) as [? _].
  specialize (IH ltac:(set_solver)). lia.
Qed.

(** Thawing the flows of [addr] leaves every other queued account resumable. *)
Lemma relocated_resumable ctx addr ps s s1 s' a :
  solid ctx s -> moves_flows ctx addr OUT_FLOW_STATUS_FROZEN (move_sign OUT_FLOW_STATUS_FROZEN) ps s s1 -> NoDup ps.*1 ->
  (forall p, p ∈ ps -> out_flows s !! (addr, OUT_FLOW_STATUS_FROZEN, p.1) = Some p.2) ->
  out_flows s' = out_flows (set_out_flows addr (to_update OUT_FLOW_STATUS_ACTIVE ps) s1) ->
  (a ∉ ps.*1 -> a <> GovernanceAddress -> stream_records s' !! a = stream_records s !! a) ->
  resumable s a -> resumable s' a.
Proof.
  intros Hsolid Hmv Hnd Hin Ho Hrec (Hga & Hnoa & Hfra).
  assert (a ∉ ps.*1) as Hani.
  { intros (p & -> & Hp)%list_elem_of_fmap. apply Hin in Hp. by rewrite Hnoa in Hp. }
  split_and!; [done| |intros r; rewrite Hrec by done; apply Hfra].
  intros f st. rewrite Ho.
  change OUT_FLOW_STATUS_ACTIVE with (other_status OUT_FLOW_STATUS_FROZEN).
  rewrite (relocate_lookup ctx addr OUT_FLOW_STATUS_FROZEN ps s s1
    (proj2 (solid_flows _ _ Hsolid)) Hmv Hnd Hin).
  case_decide as Hd; [|case_decide; [done|apply Hnoa]].
  apply list_elem_of_fmap in Hd as (p & [= -> -> ->] & Hp).
  exfalso. apply Hani, list_elem_of_fmap. eauto.
Qed.

Lemma auto_resume_step_solid ctx max ts addr count s c s' :
  auto_resume_step ctx max ts addr count s = (Ret c, s') -> solid ctx s -> count <= max ->
  resumable s addr ->
  solid ctx s' /\ surplus (BlockTime ctx) s <= surplus (BlockTime ctx) s' /\
  (forall a, a <> addr -> resumable s a -> resumable s' a).
Proof.
  unfold auto_resume_step. intros Hrun Hsolid Hmax (Hng & Hno & Hfr). rewrite bind_get in Hrun.
  destruct (GetStreamRecord ctx addr s) as [r found] eqn:Hget.
  destruct found; cbn [negb] in Hrun; [|apply ret_Ret in Hrun as [_ <-]; done].
  apply GetStreamRecord_stored in Hget as (r0 & Hr0 & ->).
  pose proof (Hfr _ Hr0) as Hst.
  apply bind_Ret in Hrun as ([[[c1 total] upd] fin] & s1 & Hflows & Hrun).
  apply bind_Ret in Hrun as (? & ? & ->%modify_Ret & Hrun).
  apply bind_Ret in Hrun as (r3 & s3 & Hfin & Hrun).
  apply bind_Ret in Hrun as (? & ? & [_ ->]%SetStreamRecord_Ret & [<- <-]%ret_Ret).
  apply resume_flows_moves in Hflows as (ps & Hmv & -> & -> & -> & Hle & Hpre);
    [|apply pending_iterator|apply frozen_iterator|by left].
  destruct (prefix_entries _ _ _ _ s _ Hpre (pending_iterator _ _ _)) as [Hnd Hin].
  simpl app in Hfin. set (s2 := set_out_flows addr _ s1) in Hfin.
  set (r2 := set_frozen _ _) in Hfin.
  assert (book r2 = moved_book OUT_FLOW_STATUS_FROZEN (zsum snd ps) (book_of s addr)) as Hb2.
  { unfold book_of. rewrite Hr0. unfold r2, book, moved_book. book_eq. }
  assert (NetflowRate r2 <= 0) as Hrate.
  { pose proof (payer_rate ctx s addr Hsolid Hno) as Hp.
    change (NetflowRate r2) with (book r2).1.1. rewrite Hb2.
    pose proof (flows_nonneg ctx s addr _ ps Hsolid Hin). simpl. lia. }
  assert (timely ctx r2) as Ht2.
  { apply (sane_timely _ _ (solid_sane _ _ Hsolid)) in Hr0. exact Hr0. }
  destruct (relocated_state ctx addr OUT_FLOW_STATUS_FROZEN ps s s1 r0 Hsolid Hmv Hin Hr0 Hng)
    as (Hsane2 & Hsur2 & Hrec2 & Hra2 & Hm2). cbn [other_status] in *. fold s2 in Hsane2, Hsur2, Hrec2, Hra2, Hm2.
  pose proof (resume_finish_ok _ _ _ _ _ _ _ _ Hfin) as (Ha3 & Hb3 & Ho3 & _ & Hbk3).
  apply resume_finish_solid in Hfin as (Hsane3 & Ht3 & Hsur3 & Hrec3); try done.
  2: { simpl. intros ->. by rewrite (solid_module _ _ Hsolid) in Hr0. }
  change (Account r2) with addr in Ha3. rewrite Ha3.
  destruct (relocated_solid ctx addr OUT_FLOW_STATUS_FROZEN ps s s1 r0 Hsolid Hmv Hnd Hin Hr0
    Hng s3 r3) as [Hsolid4 Hsur4]; try done.
  { rewrite Hrec3; done. }
  { rewrite Hrec3; [done|]. symmetry. apply Hsane3. }
  { by rewrite Hb3. }
  split_and!; [done| |].
  - rewrite Hsur4, <- Hsur2, (value_frozen _ r0) by done.
    change (holdings r2) with (holdings r0) in Hsur3. lia.
  - intros a Ha. apply (relocated_resumable ctx addr ps s s1); try done.
    intros Hani Hga. simpl. rewrite lookup_insert_ne, Hrec3, Hrec2 by done. done.
Qed.

Lemma auto_resume_loop_solid ctx max l count s u s' :
  auto_resume_loop ctx max l count s = (Ret u, s') -> solid ctx s -> count <= max ->
  NoDup l.*2 -> (forall a, a ∈ l.*2 -> resumable s a) ->
  solid ctx s' /\ surplus (BlockTime ctx) s <= surplus (BlockTime ctx) s'.
Proof.
  revert count s. induction l as [|[ts addr] l IH]; simpl; intros count s Hrun Hsolid Hmax Hnd Hq.
  { minv. split; [done|lia]. }
  apply NoDup_cons in Hnd as [Hni Hnd].
  apply bind_Ret in Hrun as (c & s1 & Hstep & Hrun).
  pose proof Hstep as Hc. apply auto_resume_step_ok in Hc as (_ & Hc & _); [|apply Hsolid|done].
  apply auto_resume_step_solid in Hstep as (Hs1 & Hsur & Hq1); try done; [|apply Hq; set_solver].
  apply IH in Hrun as [Hs' Hsur']; [|done|lia|done|].
  - split; [done|lia].
  - intros a Ha. apply Hq1; [set_solver|]. apply Hq. set_solver.
Qed.

Lemma AutoResume_solid ctx s u s' :
  0 <= MaxAutoResumeFlowCount (params s) ->
  AutoResume ctx s = (Ret u, s') -> solid ctx s ->
  NoDup (iterate queue_leb (auto_resume s)).*1.*2 ->
  (forall ts a, auto_resume s !! (ts, a) = Some tt -> resumable s a) ->
  solid ctx s' /\ surplus (BlockTime ctx) s <= surplus (BlockTime ctx) s'.
Proof.
  intros Hmax Hrun Hok Hnd Hq. unfold AutoResume in Hrun. rewrite bind_get in Hrun.
  eapply auto_resume_loop_solid in Hrun; try done.
  intros a ([ts a'] & -> & Hk)%list_elem_of_fmap.
  apply list_elem_of_fmap in Hk as ([k []] & -> & Hk). apply elem_of_iterate in Hk.
  by apply (Hq k.1); destruct k.
Qed.
(** ** Time keeps the surplus *)

(** Both ends of every flow have a record. *)
Definition flows_recorded s : Prop :=
  forall f st t v, out_flows s !! (f, st, t) = Some v ->
    is_Some (stream_records s !! f) /\ is_Some (stream_records s !! t).

(** No frozen record has a rate: all its flows are settled. *)
Definition frozen_quiet s : Prop :=
  forall a r, stream_records s !! a = Some r ->
    Status r = STREAM_ACCOUNT_STATUS_FROZEN -> NetflowRate r = 0.

Lemma rates_cancel s :
  books_ok s -> flows_recorded s -> map_sum (fun _ r => NetflowRate r) (stream_records s) = 0.
Proof.
  intros Hok Hrec.
  rewrite (map_sum_ext _ (fun a _ => map_sum (fun k v => net_weight a k * v) (out_flows s))).
  2: { intros a r Hr. specialize (Hok a). unfold book_of in Hok. rewrite Hr in Hok.
       by injection Hok. }
  rewrite map_sum_swap. apply map_sum_zero. intros [[f st] t] v Hl.
  rewrite (map_sum_mul (fun a _ => net_weight a (f, st, t))). simpl.
  apply Hrec in Hl as [[rf Hf] [rt Ht]].
  destruct st; [|rewrite map_sum_zero; [lia|done]].
  rewrite (map_sum_ext _ (fun a _ => indicator t a + - indicator f a)) by (intros; lia).
  rewrite (map_sum_add (fun a _ => indicator t a) (fun a _ => - indicator f a)).
  rewrite (map_sum_opp (fun a _ => indicator f a)).
  rewrite (map_sum_indicator t _ rt Ht), (map_sum_indicator f _ rf Hf). lia.
Qed.

Lemma time_keeps_value s t t' :
  books_ok s -> flows_recorded s -> frozen_quiet s -> total_value t' s = total_value t s.
Proof.
  intros Hok Hrec Hq. pose proof (rates_cancel s Hok Hrec) as Hz. unfold total_value.
  assert (map_sum (fun _ r => value_at t' r) (stream_records s) =
          map_sum (fun _ r => value_at t r) (stream_records s) +
          map_sum (fun _ r => NetflowRate r) (stream_records s) * (t' - t)) as ->; [|lia].
  rewrite <- map_sum_mul, <- map_sum_add. apply map_sum_ext. intros a r Hr.
  unfold value_at. destruct (Status r) eqn:Hst; simpl; [lia|].
  rewrite (Hq _ _ Hr Hst). lia.
Qed.
End Conserve.
