(* ===== verification/PaymentMsg.v ===== *)
(** * x/payment: messages, queries and genesis

    The message server of [keeper/msg_server*.go] with the stateless checks of
    [types/message_*.go], the queries of [keeper/grpc_query*.go] that compute,
    and the genesis of [genesis.go] and [types/genesis.go].  Addresses of a
    message are text, parsed by the SDK.  A transaction that fails or panics
    is rolled back ([deliver]). *)

From S2P Require Import Prelude Sdk PaymentTypes PaymentStore PaymentStream PaymentEndBlock.

Record MsgCreatePaymentAccount : Type := mkMsgCreate { cpa_Creator : string }.
Record MsgDeposit : Type := mkMsgDeposit {
  dep_Creator : string; dep_To : string; dep_Amount : option Z }.
Record MsgDisableRefund : Type := mkMsgDisable { dis_Owner : string; dis_Addr : string }.
Record MsgWithdraw : Type := mkMsgWithdraw {
  wd_Creator : string; wd_From : string; wd_Amount : option Z }.
Record MsgUpdateParams : Type := mkMsgUpdate { up_Authority : string; up_Params : Params }.

Section Validate.
Context {HAddr : Addresses}.

Definition is_address (text : string) : bool :=
  match AccAddressFromHexUnsafe text with Some _ => true | None => false end.

(** [msg.Amount.IsNil() || !msg.Amount.IsPositive()] is refused. *)
Definition positive_amount (amount : option Z) : bool :=
  match amount with None => false | Some a => 0 <? a end.

Definition CreatePaymentAccount_ValidateBasic (msg : MsgCreatePaymentAccount) : bool :=
  is_address (cpa_Creator msg).

Definition Deposit_ValidateBasic (msg : MsgDeposit) : bool :=
  is_address (dep_Creator msg) && is_address (dep_To msg) && positive_amount (dep_Amount msg).

Definition DisableRefund_ValidateBasic (msg : MsgDisableRefund) : bool :=
  is_address (dis_Owner msg) && is_address (dis_Addr msg).

Definition UpdateParams_ValidateBasic (msg : MsgUpdateParams) : bool :=
  is_address (up_Authority msg) && Validate (up_Params msg).

Definition Withdraw_ValidateBasic (msg : MsgWithdraw) : bool :=
  is_address (wd_Creator msg) &&
  (if negb (bool_decide (wd_From msg = EmptyString)) then is_address (wd_From msg) else true) &&
  positive_amount (wd_Amount msg).

(** [binary.LittleEndian.PutUint64] *)
Definition little_endian8 (n : Z) : list Z :=
  (fun i => Z.land (Z.shiftr n (8 * Z.of_nat i)) 255) <$> seq 0 8.

Definition DerivePaymentAccountAddress (owner : Addr) (index : Z) : Addr :=
  AddressDerive owner (little_endian8 index).
End Validate.

Section Msg.
Context {B : Type} {HBank : BankKeeper B} {HAddr : Addresses}.
Implicit Types (s : State B) (ctx : Ctx).

Definition MustAccAddressFromHex (text : string) : PM B Addr :=
  must (AccAddressFromHexUnsafe text).

(** A bank transfer that returns its error. *)
Definition transfer (send : B -> option B) : PM B unit :=
  let! s := get in
  match send (bank s) with
  | None => fail ErrBank
  | Some b' => modify (with_bank b')
  end.

Definition UpdateParams (authority : string) ctx (msg : MsgUpdateParams) : PM B unit :=
  do! guard (negb (bool_decide (authority = up_Authority msg))) ErrInvalidSigner ;;
  SetParams ctx (up_Params msg).

Definition CreatePaymentAccount (msg : MsgCreatePaymentAccount) : PM B unit :=
  let! creator := MustAccAddressFromHex (cpa_Creator msg) in
  let! s := get in
  let count := (GetPaymentAccountCount creator s).1 in
  do! guard (PaymentAccountCountLimit (GetParams s) <=? count) ErrReachPaymentAccountLimit ;;
  let paymentAccountAddr := DerivePaymentAccountAddress creator count in
  do! modify (SetPaymentAccountCount creator (u64 (count + 1))) ;;
  modify (SetPaymentAccount paymentAccountAddr (mkPaymentAccount (cpa_Creator msg) true)).

(** The second half of [Deposit]: credit [depositAmount] to [to]. *)
Definition deposit_credit ctx (to : Addr) (depositAmount : Z) : PM B unit :=
  let! s := get in
  let '(streamRecord, found) := GetStreamRecord ctx to s in
  if negb found then
    do! guard (negb (bool_decide (is_Some (GetPaymentAccount to s))) &&
               negb (HasAccount (bank s) to)) ErrReceiveAccountNotExist ;;
    SetStreamRecord (set_static depositAmount (set_crud (BlockTime ctx) streamRecord))
  else
    match Status streamRecord with
    | STREAM_ACCOUNT_STATUS_ACTIVE =>
        let! r' := UpdateStreamRecord update_fuel ctx streamRecord
                     (WithStaticBalanceChange depositAmount
                        (NewDefaultStreamRecordChangeWithAddr to)) in
        SetStreamRecord r'
    | STREAM_ACCOUNT_STATUS_FROZEN => TryResumeStreamRecord ctx streamRecord depositAmount
    end.

(** A payment account's own bank balance is swept into the deposit. *)
Definition deposit_sweep (to : Addr) (depositAmount : Z) : PM B Z :=
  let! s := get in
  if IsPaymentAccount to s then
    let balanceOfToAccount := GetBalance (bank s) to (FeeDenom (GetParams s)) in
    if 0 <? balanceOfToAccount then
      do! transfer (fun b => SendCoinsFromAccountToModule b to ModuleName
                               [(FeeDenom (GetParams s), balanceOfToAccount)]) ;;
      ret (depositAmount + balanceOfToAccount)
    else ret depositAmount
  else ret depositAmount.

Definition Deposit ctx (msg : MsgDeposit) : PM B unit :=
  let! creator := MustAccAddressFromHex (dep_Creator msg) in
  let! to := MustAccAddressFromHex (dep_To msg) in
  let! amount := must (dep_Amount msg) in
  let! s := get in
  let! coinsToDeposit := must (NewCoins (FeeDenom (GetParams s)) amount) in
  do! transfer (fun b => SendCoinsFromAccountToModule b creator ModuleName coinsToDeposit) ;;
  let! depositAmount := deposit_sweep to amount in
  deposit_credit ctx to depositAmount.

Definition DisableRefund (msg : MsgDisableRefund) : PM B unit :=
  let! addr := MustAccAddressFromHex (dis_Addr msg) in
  let! s := get in
  match GetPaymentAccount addr s with
  | None => fail ErrPaymentAccountNotFound
  | Some paymentAccount =>
      do! guard (negb (bool_decide (Owner paymentAccount = dis_Owner msg)))
            ErrNotPaymentAccountOwner ;;
      do! guard (negb (Refundable paymentAccount)) ErrPaymentAccountAlreadyNonRefundable ;;
      modify (SetPaymentAccount addr (mkPaymentAccount (Owner paymentAccount) false))
  end.

Definition bankTransfer (creator : Addr) (amount : Z) : PM B unit :=
  let! s := get in
  let! coins := must (NewCoins (FeeDenom (GetParams s)) amount) in
  transfer (fun b => SendCoinsFromModuleToAccount b ModuleName creator coins).

(** [Withdraw] of the amount locked earlier. *)
Definition withdraw_delayed ctx (creator : Addr) (msg_Amount : option Z) : PM B unit :=
  let! s := get in
  match GetDelayedWithdrawalRecord creator s with
  | None => fail ErrNoDelayedWithdrawal
  | Some delayedWithdrawal =>
      let! amount := must msg_Amount in
      do! guard (negb (DelayedAmount delayedWithdrawal =? amount)) ErrIncorrectWithdrawAmount ;;
      do! guard (BlockTime ctx <=? UnlockTimestamp delayedWithdrawal)
            ErrNotReachTimeLockDuration ;;
      do! modify (RemoveDelayedWithdrawalRecord creator) ;;
      bankTransfer creator amount
  end.

(** The owner check of [Withdraw]. *)
Definition check_withdrawer (creator from : Addr) : PM B unit :=
  let! s := get in
  if negb (creator =? from) then
    match GetPaymentAccount from s with
    | None => fail ErrPaymentAccountNotFound
    | Some paymentAccount =>
        let! owner := MustAccAddressFromHex (Owner paymentAccount) in
        do! guard (negb (creator =? owner)) ErrNotPaymentAccountOwner ;;
        guard (negb (Refundable paymentAccount)) ErrPaymentAccountAlreadyNonRefundable
    end
  else ret tt.

Definition Withdraw ctx (msg : MsgWithdraw) : PM B unit :=
  let! creator := MustAccAddressFromHex (wd_Creator msg) in
  if bool_decide (wd_From msg = EmptyString) then withdraw_delayed ctx creator (wd_Amount msg)
  else
    let! from := MustAccAddressFromHex (wd_From msg) in
    let! s := get in
    let '(streamRecord, found) := GetStreamRecord ctx from s in
    do! guard (negb found) ErrStreamRecordNotFound ;;
    do! guard (is_frozen (Status streamRecord)) ErrInvalidStreamAccountStatus ;;
    do! check_withdrawer creator from ;;
    let! amount := must (wd_Amount msg) in
    let! r' := UpdateStreamRecord update_fuel ctx streamRecord
                 (WithStaticBalanceChange (- amount)
                    (NewDefaultStreamRecordChangeWithAddr from)) in
    do! SetStreamRecord r' ;;
    do! guard (StaticBalance r' <? 0) ErrInsufficientBalance ;;
    let! s := get in
    let! threshold := must (WithdrawTimeLockThreshold (GetParams s)) in
    if threshold <=? amount then
      do! guard (bool_decide (is_Some (GetDelayedWithdrawalRecord creator s)))
            ErrExistsDelayedWithdrawal ;;
      modify (SetDelayedWithdrawalRecord creator
        (mkDelayed amount from
           (i64 (BlockTime ctx + i64 (WithdrawTimeLockDuration (GetParams s))))))
    else bankTransfer creator amount.

(** A transaction commits its writes only when the handler returns. *)
Definition deliver {A} (c : PM B A) s : State B :=
  match c s with (Ret _, s') => s' | _ => s end.

(** ** Queries *)

Definition ParamsByTimestamp ctx (timestamp : Z) s : outcome error Params :=
  let ts := if timestamp =? 0 then i64 (BlockTime ctx + 1) else timestamp in
  let p := GetParams s in
  match GetVersionedParamsWithTs ts s with
  | Ret v => Ret (mkParams v (ForcedSettleTime p) (PaymentAccountCountLimit p)
      (MaxAutoSettleFlowCount p) (MaxAutoResumeFlowCount p) (FeeDenom p)
      (WithdrawTimeLockThreshold p) (WithdrawTimeLockDuration p))
  | Err e => Err e
  | Panic => Panic
  | NoFuel => NoFuel
  end.

Definition PaymentAccountsByOwner (owner : Addr) s : option (list Addr) :=
  let '(count, found) := GetPaymentAccountCount owner s in
  if negb found then None
  else Some ((fun i => DerivePaymentAccountAddress owner (Z.of_nat i)) <$>
               seq 0 (Z.to_nat count)).

(** ** Genesis *)

Record GenesisState : Type := mkGenesis {
  gs_Params : Params;
  StreamRecordList : list StreamRecord;
  PaymentAccountCountList : list (Addr * Z);
  PaymentAccountList : list (Addr * PaymentAccount);
  AutoSettleRecordList : list (Z * Addr);
}.

Definition DefaultGenesis : GenesisState := mkGenesis DefaultParams [] [] [] [].

(** [GenesisState.Validate]: no duplicated key, valid parameters. *)
Definition Genesis_Validate (gs : GenesisState) : bool :=
  bool_decide (NoDup (Account <$> StreamRecordList gs)) &&
  bool_decide (NoDup (PaymentAccountCountList gs).*1) &&
  bool_decide (NoDup (PaymentAccountList gs).*1) &&
  bool_decide (NoDup (AutoSettleRecordList gs)) &&
  Validate (gs_Params gs).

Fixpoint set_stream_records (l : list StreamRecord) : PM B unit :=
  match l with
  | [] => ret tt
  | r :: l' => do! SetStreamRecord r ;; set_stream_records l'
  end.

Definition InitGenesis ctx (gs : GenesisState) : PM B unit :=
  do! set_stream_records (StreamRecordList gs) ;;
  do! modify (fun s => foldl (fun s e => SetPaymentAccountCount e.1 e.2 s) s
                         (PaymentAccountCountList gs)) ;;
  do! modify (fun s => foldl (fun s e => SetPaymentAccount e.1 e.2 s) s
                         (PaymentAccountList gs)) ;;
  do! modify (fun s => foldl (fun s e => SetAutoSettleRecord e.1 e.2 s) s
                         (AutoSettleRecordList gs)) ;;
  on_err (SetParams ctx (gs_Params gs)) (fun _ => panic).

Definition ExportGenesis s : GenesisState :=
  mkGenesis (GetParams s) (GetAllStreamRecord s) (GetAllPaymentAccountCount s)
    (GetAllPaymentAccount s) (GetAllAutoSettleRecord s).

End Msg.
