(* ===== verification/PaymentMsgFacts.v ===== *)
(** * x/payment: what the messages promise

    Deposits and withdrawals keep the module's surplus: the fee coins of the
    module account less the value of the stream records and the delayed
    withdrawals.  Withdrawals are made by the account or the owner of a
    refundable payment account, and large ones wait for the time lock. *)

From S2P Require Import Prelude Sdk PaymentTypes PaymentStore PaymentStream PaymentStreamFacts.
From S2P Require Import PaymentSolvency PaymentFlows PaymentFlowsFacts PaymentBooks.
From S2P Require Import PaymentEndBlock PaymentSettle PaymentEndBlockFacts PaymentConserve.
From S2P Require Import PaymentMsg.

Section MsgFacts.
Context {B : Type} {HBank : BankKeeper B} {HAddr : Addresses} {HLaws : BankLaws B}.
Implicit Types (s : State B) (ctx : Ctx) (r : StreamRecord) (ch : StreamRecordChange).

Lemma transfer_Ret send s u s' :
  transfer send s = (Ret u, s') -> exists b', send (bank s) = Some b' /\ s' = with_bank b' s.
Proof.
  unfold transfer. rewrite bind_get. case_match; intros; minv. eauto.
Qed.

(** ** Deposits *)

(** The records of the store passed [CheckStreamRecord]. *)
Definition checked s : Prop :=
  forall a r, stream_records s !! a = Some r -> CheckStreamRecord r = true.

Lemma checked_buffer s a r :
  checked s -> stream_records s !! a = Some r -> 0 <= BufferBalance r.
Proof. intros Hc Hr. apply Hc in Hr. unfold CheckStreamRecord in Hr. lia. Qed.

Lemma solid_bank ctx b' s : solid ctx s -> solid ctx (with_bank b' s).
Proof. intros [[] [] ? ?]. constructor; done. Qed.

(** Coins paid into the module add to the surplus. *)
Lemma transfer_in ctx a cs s u s' :
  transfer (fun b => SendCoinsFromAccountToModule b a ModuleName cs) s = (Ret u, s') ->
  a <> ModuleAddress ModuleName -> solid ctx s ->
  solid ctx s' /\ (exists b', s' = with_bank b' s) /\
  surplus (BlockTime ctx) s' = surplus (BlockTime ctx) s + AmountOf (FeeDenom (params s)) cs.
Proof.
  intros (b' & Hsend & ->)%transfer_Ret Hne Hs. split_and!; [by apply solid_bank|eauto|].
  by apply surplus_bank, (a2m_pays a).
Qed.

Lemma deposit_sweep_solid ctx to amt s d s' :
  deposit_sweep to amt s = (Ret d, s') -> to <> ModuleAddress ModuleName -> solid ctx s ->
  solid ctx s' /\ (exists b', s' = with_bank b' s) /\ amt <= d /\
  surplus (BlockTime ctx) s' = surplus (BlockTime ctx) s + (d - amt).
Proof.
  unfold deposit_sweep. intros Hrun Hne Hs. rewrite bind_get in Hrun.
  destruct (IsPaymentAccount to s).
  2: { minv. split_and!; [done|exists (bank s'); by rewrite with_bank_id|lia|lia]. }
  destruct (0 <? _) eqn:Hpos.
  2: { minv. split_and!; [done|exists (bank s'); by rewrite with_bank_id|lia|lia]. }
  apply bind_Ret in Hrun as (? & s1 & Htr & [<- <-]%ret_Ret).
  apply (transfer_in ctx) in Htr as (Hs1 & Hb & Hsur); [|done|done].
  unfold AmountOf, zsum, GetParams in *. simpl in Hsur. rewrite decide_True in Hsur by done.
  split_and!; [done|done|lia|lia].
Qed.

Lemma deposit_new_solid ctx to d s u s' :
  SetStreamRecord (set_static d (set_crud (BlockTime ctx) (NewStreamRecord to (BlockTime ctx)))) s
    = (Ret u, s') ->
  stream_records s !! to = None -> to <> ModuleAddress ModuleName -> solid ctx s ->
  solid ctx s' /\ surplus (BlockTime ctx) s' = surplus (BlockTime ctx) s - d.
Proof.
  intros [_ ->]%SetStreamRecord_Ret Hnone Hne [Hsane Hflows Hpay Hmod]. simpl. split.
  - constructor; [|apply (set_same_book_ok s)| |].
    + destruct Hsane as [Hg Ht Hm]. constructor; [| |done].
      * intros g. simpl. rewrite lookup_insert_Some. intros [[-> <-]|[_ Hl]]; [|by apply Hg].
        simpl. split; [done|lia].
      * apply timely_insert; [by apply timely_now|done].
    + done.
    + unfold book_of. simpl. by rewrite Hnone.
    + done.
    + simpl. rewrite lookup_insert_ne; done.
  - unfold surplus. rewrite total_value_insert, Hnone. rewrite value_now by done.
    change (module_balance (with_records _ s)) with (module_balance s).
    change (delayed_total (with_records _ s)) with (delayed_total s).
    unfold holdings. simpl. lia.
Qed.

Lemma deposit_credit_solid ctx to d s u s' :
  deposit_credit ctx to d s = (Ret u, s') -> to <> ModuleAddress ModuleName ->
  solid ctx s -> checked s ->
  solid ctx s' /\ surplus (BlockTime ctx) s - d <= surplus (BlockTime ctx) s'.
Proof.
  unfold deposit_credit. intros Hrun Hne Hsolid Hck. rewrite bind_get in Hrun.
  destruct (GetStreamRecord ctx to s) as [r found] eqn:Hget.
  destruct found; cbn [negb] in Hrun.
  - apply GetStreamRecord_stored in Hget as (r0 & Hr0 & ->).
    cbn [Status set_account] in Hrun. destruct (Status r0) eqn:Hst.
    + apply bind_Ret in Hrun as (r1 & s1 & Hupd & [Hc ->]%SetStreamRecord_Ret).
      destruct (update_solid _ _ _ _ _ _ _ Hupd eq_refl eq_refl eq_refl Hc Hsolid Hr0)
        as (_ & Hs2 & _ & _ & Hsur).
      rewrite Hst in Hsur. simpl in Hsur. split; [done|lia].
    + eapply TryResume_solid in Hrun as [Hs' Hsur]; try done.
      pose proof (checked_buffer _ _ _ Hck Hr0). split; [done|lia].
  - apply bind_Ret in Hrun as (? & ? & [_ ->]%guard_Ret & Hrun).
    unfold GetStreamRecord in Hget. destruct (stream_records s !! to) eqn:Hto; simplify_eq.
    apply (deposit_new_solid ctx) in Hrun as [Hs' Hsur]; try done. split; [done|lia].
Qed.

Lemma Deposit_solid ctx msg creator to s u s' :
  Deposit ctx msg s = (Ret u, s') ->
  AccAddressFromHexUnsafe (dep_Creator msg) = Some creator ->
  AccAddressFromHexUnsafe (dep_To msg) = Some to ->
  creator <> ModuleAddress ModuleName -> to <> ModuleAddress ModuleName ->
  solid ctx s -> checked s ->
  solid ctx s' /\ surplus (BlockTime ctx) s <= surplus (BlockTime ctx) s'.
Proof.
  unfold Deposit, MustAccAddressFromHex. intros Hrun Hcr Hto Hcm Htm Hsolid Hck.
  rewrite Hcr, Hto in Hrun.
  apply bind_Ret in Hrun as (? & ? & [[= <-] ->]%must_Ret & Hrun).
  apply bind_Ret in Hrun as (? & ? & [[= <-] ->]%must_Ret & Hrun).
  apply bind_Ret in Hrun as (amt & ? & [_ ->]%must_Ret & Hrun). rewrite bind_get in Hrun.
  apply bind_Ret in Hrun as (cs & ? & [Hcs ->]%must_Ret & Hrun).
  apply bind_Ret in Hrun as (? & s1 & Htr & Hrun).
  apply bind_Ret in Hrun as (d & s2 & Hsw & Hrun).
  apply (transfer_in ctx) in Htr as (Hs1 & [b1 Hb1] & Hsur1); [|done|done].
  apply NewCoins_amount in Hcs. unfold GetParams in Hcs. rewrite Hcs in Hsur1.
  apply (deposit_sweep_solid ctx) in Hsw as (Hs2 & [b2 Hb2] & Hle & Hsur2); [|done|done].
  apply (deposit_credit_solid ctx) in Hrun as [Hs' Hsur']; [|done|done|].
  - split; [done|lia].
  - rewrite Hb2, Hb1. exact Hck.
Qed.

(** ** Withdrawals *)

Lemma solid_delayed ctx q s : solid ctx s -> solid ctx (with_delayed q s).
Proof. intros [[] [] ? ?]. constructor; done. Qed.

Lemma bankTransfer_solid ctx creator amt s u s' :
  bankTransfer creator amt s = (Ret u, s') ->
  creator <> ModuleAddress ModuleName -> solid ctx s ->
  solid ctx s' /\ surplus (BlockTime ctx) s' = surplus (BlockTime ctx) s - amt.
Proof.
  unfold bankTransfer. intros Hrun Hne Hs. rewrite bind_get in Hrun.
  apply bind_Ret in Hrun as (cs & ? & [Hcs ->]%must_Ret & Hrun).
  apply transfer_Ret in Hrun as (b' & Hsend & ->). split; [by apply solid_bank|].
  apply NewCoins_amount in Hcs. unfold GetParams in Hcs.
  rewrite (surplus_bank _ (- amt)); [lia|]. rewrite <- Hcs. by apply (m2a_pays creator).
Qed.

(** A locked withdrawal is paid once, in full, after its time lock. *)
Lemma withdraw_delayed_Ret ctx creator o s u s' :
  withdraw_delayed ctx creator o s = (Ret u, s') ->
  exists d, delayed_withdrawals s !! creator = Some d /\ o = Some (DelayedAmount d) /\
    UnlockTimestamp d < BlockTime ctx /\
    bankTransfer creator (DelayedAmount d)
      (with_delayed (delete creator (delayed_withdrawals s)) s) = (Ret u, s').
Proof.
  unfold withdraw_delayed. intros Hrun. rewrite bind_get in Hrun.
  unfold GetDelayedWithdrawalRecord in Hrun.
  destruct (delayed_withdrawals s !! creator) as [d|] eqn:Hd; [|by minv].
  apply bind_Ret in Hrun as (amt & ? & [-> ->]%must_Ret & Hrun).
  apply bind_Ret in Hrun as (? & ? & [Heq ->]%guard_Ret & Hrun).
  apply bind_Ret in Hrun as (? & ? & [Hlt ->]%guard_Ret & Hrun).
  apply bind_Ret in Hrun as (? & ? & ->%modify_Ret & Hrun).
  assert (DelayedAmount d = amt) as <- by lia.
  exists d. split_and!; [done|done|lia|exact Hrun].
Qed.

Lemma withdraw_delayed_solid ctx creator o s u s' :
  withdraw_delayed ctx creator o s = (Ret u, s') ->
  creator <> ModuleAddress ModuleName -> solid ctx s ->
  solid ctx s' /\ surplus (BlockTime ctx) s' = surplus (BlockTime ctx) s.
Proof.
  intros (d & Hd & _ & _ & Hrun)%withdraw_delayed_Ret Hne Hs.
  apply (bankTransfer_solid ctx) in Hrun as [Hs' Hsur]; [|done|by apply solid_delayed].
  split; [done|]. rewrite Hsur. unfold surplus, delayed_total. simpl.
  rewrite (map_sum_delete _ (delayed_withdrawals s) creator d Hd).
  change (module_balance (with_delayed _ s)) with (module_balance s).
  change (total_value (BlockTime ctx) (with_delayed _ s)) with (total_value (BlockTime ctx) s).
  lia.
Qed.

(** Who may withdraw from [from]: the account itself or the owner of a
    refundable payment account. *)
Definition may_withdraw (creator from : Addr) s : Prop :=
  creator = from \/
  exists a, payment_accounts s !! from = Some a /\
    AccAddressFromHexUnsafe (Owner a) = Some creator /\ Refundable a = true.

Lemma check_withdrawer_Ret creator from s u s' :
  check_withdrawer creator from s = (Ret u, s') -> s' = s /\ may_withdraw creator from s.
Proof.
  unfold check_withdrawer, may_withdraw. intros Hrun. rewrite bind_get in Hrun.
  destruct (creator =? from) eqn:Heq; cbn [negb] in Hrun.
  { apply ret_Ret in Hrun as [_ <-]. split; [done|left; lia]. }
  unfold GetPaymentAccount in Hrun. destruct (payment_accounts s !! from) as [a|]; [|by minv].
  apply bind_Ret in Hrun as (o & ? & [Ho ->]%must_Ret & Hrun).
  apply bind_Ret in Hrun as (? & ? & [Hown ->]%guard_Ret & Hrun).
  apply guard_Ret in Hrun as [Href ->]. split; [done|right]. exists a.
  assert (creator = o) as -> by lia. split_and!; [done|done|by destruct (Refundable a)].
Qed.

(** What a successful withdrawal from a stream account did. *)
Definition withdrawn ctx (creator from : Addr) (amt : Z) s s' : Prop :=
  exists r0 r1 s1, stream_records s !! from = Some r0 /\
    Status r0 = STREAM_ACCOUNT_STATUS_ACTIVE /\ may_withdraw creator from s /\
    UpdateStreamRecord update_fuel ctx (set_account from r0)
      (WithStaticBalanceChange (- amt) (NewDefaultStreamRecordChangeWithAddr from)) s
      = (Ret r1, s1) /\
    CheckStreamRecord r1 = true /\ 0 <= StaticBalance r1 /\
    let s2 := with_records (<[Account r1 := r1]> (stream_records s1)) s1 in
    exists threshold, WithdrawTimeLockThreshold (params s) = Some threshold /\
      ((threshold <= amt /\ delayed_withdrawals s !! creator = None /\
        s' = with_delayed (<[creator := mkDelayed amt from
               (i64 (BlockTime ctx + i64 (WithdrawTimeLockDuration (params s))))]>
               (delayed_withdrawals s2)) s2) \/
       (amt < threshold /\ exists u, bankTransfer creator amt s2 = (Ret u, s'))).

Lemma Withdraw_Ret ctx msg creator s u s' :
  Withdraw ctx msg s = (Ret u, s') ->
  AccAddressFromHexUnsafe (wd_Creator msg) = Some creator ->
  (wd_From msg = EmptyString /\ withdraw_delayed ctx creator (wd_Amount msg) s = (Ret u, s')) \/
  (exists from amt, wd_From msg <> EmptyString /\ AccAddressFromHexUnsafe (wd_From msg) = Some from /\
     wd_Amount msg = Some amt /\ withdrawn ctx creator from amt s s').
Proof.
  unfold Withdraw, MustAccAddressFromHex. intros Hrun Hcr. rewrite Hcr in Hrun.
  apply bind_Ret in Hrun as (? & ? & [[= <-] ->]%must_Ret & Hrun).
  case_bool_decide as Hfrom; [by left|right].
  apply bind_Ret in Hrun as (from & ? & [Hf ->]%must_Ret & Hrun). rewrite bind_get in Hrun.
  destruct (GetStreamRecord ctx from s) as [r found] eqn:Hget.
  apply bind_Ret in Hrun as (? & ? & [Hfound ->]%guard_Ret & Hrun).
  destruct found; [|done]. apply GetStreamRecord_stored in Hget as (r0 & Hr0 & ->).
  apply bind_Ret in Hrun as (? & ? & [Hst ->]%guard_Ret & Hrun).
  apply bind_Ret in Hrun as (? & ? & [-> Hmay]%check_withdrawer_Ret & Hrun).
  apply bind_Ret in Hrun as (amt & ? & [Hamt ->]%must_Ret & Hrun).
  apply bind_Ret in Hrun as (r1 & s1 & Hupd & Hrun).
  apply bind_Ret in Hrun as (? & s2 & [Hck Hs2]%SetStreamRecord_Ret & Hrun).
  apply bind_Ret in Hrun as (? & ? & [Hneg ->]%guard_Ret & Hrun). rewrite bind_get in Hrun.
  apply bind_Ret in Hrun as (th & ? & [Hth ->]%must_Ret & Hrun).
  pose proof (UpdateStreamRecord_books _ _ _ _ _ _ _ Hupd) as ([] & _).
  assert (params s2 = params s) as Hp by (by rewrite Hs2).
  assert (delayed_withdrawals s2 = delayed_withdrawals s) as Hd by (by rewrite Hs2).
  unfold GetParams, GetDelayedWithdrawalRecord in *. rewrite Hp in *.
  exists from, amt. split_and!; try done. exists r0, r1, s1.
  split_and!; try done; [simpl in Hst; by destruct (Status r0)|lia|]. rewrite <- Hs2.
  exists th. split; [done|].
  destruct (th <=? amt) eqn:Hle; [left|right; split; [lia|eauto]].
  apply bind_Ret in Hrun as (? & ? & [Hex ->]%guard_Ret & ->%modify_Ret).
  rewrite Hd in Hex. split_and!; [lia| |done].
  destruct (delayed_withdrawals s !! creator); [|done].
  by rewrite bool_decide_eq_false in Hex; destruct Hex.
Qed.

Lemma Withdraw_solid ctx msg creator s u s' :
  Withdraw ctx msg s = (Ret u, s') ->
  AccAddressFromHexUnsafe (wd_Creator msg) = Some creator ->
  creator <> ModuleAddress ModuleName -> solid ctx s ->
  solid ctx s' /\ surplus (BlockTime ctx) s' = surplus (BlockTime ctx) s.
Proof.
  intros Hrun Hcr Hne Hs.
  destruct (Withdraw_Ret _ _ _ _ _ _ Hrun Hcr) as [[_ Hdel]|(from & amt & _ & _ & _ & Hw)].
  { by eapply withdraw_delayed_solid. }
  destruct Hw as (r0 & r1 & s1 & Hr0 & Hst & _ & Hupd & Hck & _ & th & _ & Hw).
  destruct (update_solid _ _ _ _ _ _ _ Hupd eq_refl eq_refl eq_refl Hck Hs Hr0)
    as (_ & Hs2 & Hfr & _ & Hsur). rewrite Hst in Hsur. simpl in Hsur.
  destruct Hw as [(_ & Hnone & ->)|(_ & ? & Hbt)].
  - split; [by apply solid_delayed|].
    set (s2 := with_records _ s1) in *.
    unfold surplus in *. 
    change (module_balance (with_delayed _ s2)) with (module_balance s2).
    change (total_value (BlockTime ctx) (with_delayed _ s2)) with (total_value (BlockTime ctx) s2).
    unfold delayed_total in *. simpl.
    pose proof (frame_delayed _ _ Hfr) as Hd. simpl in Hd. simpl in Hsur.
    rewrite Hd in *. rewrite map_sum_insert_fresh by done. simpl. lia.
  - apply (bankTransfer_solid ctx) in Hbt as [Hs' Hsur']; [|done|done]. split; [done|lia].
Qed.
End MsgFacts.
