(* ===== verification/PaymentAccounts.v ===== *)
(** * x/payment: payment accounts, parameter versions and genesis

    The accounts an owner created are the addresses derived from its count,
    all distinct and all owned by it; a parameter lookup by time answers with
    the last version before that time; exporting the genesis and importing it
    gives back the stores it covers. *)

From S2P Require Import Prelude Sdk PaymentTypes PaymentStore PaymentStream PaymentStreamFacts.
From S2P Require Import PaymentMsg.

(** ** Derived addresses *)

Lemma little_endian8_inj n m :
  is_u64 n = true -> is_u64 m = true -> little_endian8 n = little_endian8 m -> n = m.
Proof.
  intros Hn Hm Heq. unfold is_u64, two64 in *. apply Z.bits_inj'. intros j Hj.
  destruct (decide (j < 64)) as [Hlt|].
  2: { rewrite !Z.bits_above_log2; [done|lia| |lia|];
         (apply Z.le_lt_trans with 63; [|lia]);
         (destruct (decide (0 < n)), (decide (0 < m));
          [|replace m with 0 by lia|replace n with 0 by lia|
           replace n with 0 by lia; replace m with 0 by lia]; try (simpl; lia));
         apply Z.lt_succ_r, Z.log2_lt_pow2; simpl; lia. }
  pose proof (Z.div_mod j 8 ltac:(lia)) as Hdm.
  pose proof (Z.mod_pos_bound j 8 ltac:(lia)) as Hb.
  assert (forall x, Z.testbit x j =
            Z.testbit (Z.land (Z.shiftr x (8 * Z.of_nat (Z.to_nat (j / 8)))) 255) (j mod 8)) as Hbit.
  { intros x. rewrite Z.land_spec, Z.shiftr_spec by lia.
    replace (j mod 8 + 8 * Z.of_nat (Z.to_nat (j / 8))) with j by lia.
    change 255 with (Z.ones 8). rewrite Z.ones_spec_low by lia. by rewrite andb_true_r. }
  rewrite (Hbit n), (Hbit m). f_equal.
  assert (forall x, little_endian8 x !! Z.to_nat (j / 8) =
            Some (Z.land (Z.shiftr x (8 * Z.of_nat (Z.to_nat (j / 8)))) 255)) as Hl.
  { intros x. unfold little_endian8. rewrite list_lookup_fmap, lookup_seq_lt; [done|lia]. }
  pose proof (Hl n) as Hln. rewrite Heq, Hl in Hln. congruence.
Qed.

(** Address derivation is a hash: no two inputs give the same address. *)
Class DeriveLaws `{Addresses} : Prop := {
  AddressDerive_inj : forall a k a' k', AddressDerive a k = AddressDerive a' k' -> a = a' /\ k = k';
}.

Section Accounts.
Context {B : Type} {HBank : BankKeeper B} {HAddr : Addresses}.
Implicit Types (s : State B) (ctx : Ctx).

Section Derived.
Context {HDerive : DeriveLaws}.

Lemma derived_inj owner i owner' i' :
  is_u64 i = true -> is_u64 i' = true ->
  DerivePaymentAccountAddress owner i = DerivePaymentAccountAddress owner' i' ->
  owner = owner' /\ i = i'.
Proof.
  intros Hi Hi' [-> Heq]%AddressDerive_inj. split; [done|]. by apply little_endian8_inj.
Qed.

(** The accounts below an owner's count exist and name the owner. *)
Definition accounts_ok s : Prop :=
  forall owner c, payment_account_counts s !! owner = Some c ->
    is_u64 c = true /\
    forall i, 0 <= i < c -> exists a,
      payment_accounts s !! DerivePaymentAccountAddress owner i = Some a /\
      AccAddressFromHexUnsafe (Owner a) = Some owner.

Lemma CreatePaymentAccount_Ret msg s u s' :
  CreatePaymentAccount msg s = (Ret u, s') ->
  exists creator, AccAddressFromHexUnsafe (cpa_Creator msg) = Some creator /\
    let count := (GetPaymentAccountCount creator s).1 in
    count < PaymentAccountCountLimit (params s) /\
    s' = SetPaymentAccount (DerivePaymentAccountAddress creator count)
           (mkPaymentAccount (cpa_Creator msg) true)
           (SetPaymentAccountCount creator (u64 (count + 1)) s).
Proof.
  unfold CreatePaymentAccount, MustAccAddressFromHex. intros Hrun.
  apply bind_Ret in Hrun as (creator & ? & [Hc ->]%must_Ret & Hrun). rewrite bind_get in Hrun.
  apply bind_Ret in Hrun as (? & ? & [Hlim ->]%guard_Ret & Hrun). minv.
  exists creator. split_and!; [done| |done]. unfold GetParams in Hlim. lia.
Qed.

Lemma CreatePaymentAccount_accounts msg s u s' :
  CreatePaymentAccount msg s = (Ret u, s') ->
  is_u64 (PaymentAccountCountLimit (params s)) = true ->
  accounts_ok s -> accounts_ok s'.
Proof.
  intros (creator & Hcr & Hlim & ->)%CreatePaymentAccount_Ret Hu Hok.
  set (count := (GetPaymentAccountCount creator s).1) in *.
  assert (0 <= count) as Hnn.
  { unfold count, GetPaymentAccountCount. case_match eqn:Hc; simpl; [|lia].
    apply Hok in Hc as [Hc _]. unfold is_u64 in Hc. lia. }
  assert (u64 (count + 1) = count + 1) as Hinc
    by (apply u64_id; unfold is_u64 in *; lia).
  intros owner c. simpl. rewrite Hinc, lookup_insert_Some.
  intros [[<- <-]|[Hne Hc]].
  - split; [unfold is_u64 in *; lia|]. intros i Hi.
    destruct (decide (i = count)) as [->|Hic].
    { exists (mkPaymentAccount (cpa_Creator msg) true). by rewrite lookup_insert_eq. }
    rewrite lookup_insert_ne.
    + unfold count, GetPaymentAccountCount in *. case_match eqn:Hc; simpl in *; [|lia].
      apply Hok in Hc as [_ Hc]. apply Hc. lia.
    + intros [_ Heq]%derived_inj; [lia|unfold is_u64 in *; lia..].
  - destruct (Hok _ _ Hc) as [Hcu Hall]. split; [done|]. intros i Hi.
    rewrite lookup_insert_ne; [by apply Hall|].
    intros [Heq _]%derived_inj; [done|unfold is_u64 in *; lia..].
Qed.

Lemma PaymentAccountsByOwner_spec owner s l :
  PaymentAccountsByOwner owner s = Some l -> accounts_ok s ->
  payment_account_counts s !! owner = Some (Z.of_nat (length l)) /\ NoDup l /\
  forall addr, addr ∈ l -> exists a, payment_accounts s !! addr = Some a /\
    AccAddressFromHexUnsafe (Owner a) = Some owner.
Proof.
  unfold PaymentAccountsByOwner, GetPaymentAccountCount. intros Hq Hok.
  destruct (payment_account_counts s !! owner) as [c|] eqn:Hc; [|done].
  injection Hq as <-. destruct (Hok _ _ Hc) as [Hcu Hall]. unfold is_u64 in Hcu. split_and!.
  - rewrite length_fmap, length_seq. f_equal. lia.
  - apply NoDup_fmap_2_strong; [|apply NoDup_seq].
    intros i j Hi Hj Heq. apply elem_of_seq in Hi, Hj.
    apply derived_inj in Heq as [_ Heq]; [lia|unfold is_u64; lia..].
  - intros addr (i & -> & Hi)%list_elem_of_fmap. apply elem_of_seq in Hi. apply Hall. lia.
Qed.
End Derived.

(** ** Parameter versions *)

Lemma versioned_params_spec ts s v :
  GetVersionedParamsWithTs ts s = Ret v <->
  exists t, versioned_params s !! t = Some v /\ t < u64 ts /\
    forall t' v', versioned_params s !! t' = Some v' -> t' < u64 ts -> t' <= t.
Proof.
  unfold GetVersionedParamsWithTs.
  set (l := filter (fun kv : Z * VersionedParams => kv.1 < u64 ts)
              (iterate Z.leb (versioned_params s))).
  assert (StronglySorted (key_le Z.leb) l) as Hs.
  { apply StronglySorted_filter, iterate_sorted; intros; lia. }
  assert (forall k v, (k, v) ∈ l <-> versioned_params s !! k = Some v /\ k < u64 ts) as Hl.
  { intros k w. unfold l. rewrite list_elem_of_filter, elem_of_iterate. simpl. tauto. }
  assert (forall kv, last l = Some kv -> versioned_params s !! kv.1 = Some kv.2 /\
    kv.1 < u64 ts /\
    forall t' v', versioned_params s !! t' = Some v' -> t' < u64 ts -> t' <= kv.1) as Hlast.
  { intros [k w] Hk. simpl. assert ((k, w) ∈ l) as [Hin Hlt]%Hl.
    { apply last_Some in Hk as [l' ->]. set_solver. }
    split_and!; [done|done|]. intros t' v' Ht' Hlt'.
    destruct (last_sorted_max _ _ _ (t', v') Hs Hk) as [Hle|[= -> ->]]; [by apply Hl| |lia].
    unfold key_le in Hle. simpl in Hle. lia. }
  split.
  - destruct (last l) as [kv|] eqn:Hk; [|done]. intros [= <-]. exists kv.1. by apply Hlast.
  - intros (t & Ht & Hlt & Hmax). destruct (last l) as [kv|] eqn:Hk.
    + destruct (Hlast _ eq_refl) as (Hin & Hlt' & Hmax'). f_equal.
      assert (kv.1 = t) as Heq; [|rewrite Heq in Hin; congruence].
      apply Z.le_antisymm; [by eapply Hmax|by eapply Hmax'].
    + apply last_None in Hk. assert ((t, v) ∈ l) as Hin by (by apply Hl).
      rewrite Hk in Hin. by apply not_elem_of_nil in Hin.
Qed.

(** ** Genesis *)

(** A stored record names its account and passed the check. *)
Definition records_ok s : Prop :=
  forall a r, stream_records s !! a = Some r -> Account r = a /\ CheckStreamRecord r = true.

Lemma set_stream_records_spec l s :
  Forall (fun r => CheckStreamRecord r = true) l ->
  set_stream_records l s =
  (Ret tt, with_records (foldl (fun m e => <[e.1 := e.2]> m) (stream_records s)
                           ((fun r => (Account r, r)) <$> l)) s).
Proof.
  intros Hl. revert s. induction Hl as [|r l Hr Hl IH]; intros s; simpl.
  - by destruct s.
  - unfold bind, SetStreamRecord. rewrite Hr. unfold modify. by rewrite IH.
Qed.

(** A loop that stores the entries of a list changes one store. *)
Lemma foldl_counts l s :
  foldl (fun s e => SetPaymentAccountCount e.1 e.2 s) s l =
  with_counts (foldl (fun m e => <[e.1 := e.2]> m) (payment_account_counts s) l) s.
Proof. revert s. induction l; intros s; simpl; [by destruct s|]. by rewrite IHl. Qed.

Lemma foldl_accounts l s :
  foldl (fun s e => SetPaymentAccount e.1 e.2 s) s l =
  with_accounts (foldl (fun m e => <[e.1 := e.2]> m) (payment_accounts s) l) s.
Proof. revert s. induction l; intros s; simpl; [by destruct s|]. by rewrite IHl. Qed.

Lemma foldl_settle l s :
  foldl (fun s e => SetAutoSettleRecord e.1 e.2 s) s l =
  with_settle (foldl (fun m e => <[e.1 := e.2]> m) (auto_settle s) ((fun k => (k, tt)) <$> l)) s.
Proof.
  revert s. induction l as [|[ts a] l IH]; intros s; simpl; [by destruct s|]. by rewrite IH.
Qed.

Lemma exported_records s :
  records_ok s ->
  Forall (fun r => CheckStreamRecord r = true) (GetAllStreamRecord s) /\
  (fun r => (Account r, r)) <$> GetAllStreamRecord s = iterate Z.leb (stream_records s).
Proof.
  intros Hok. unfold GetAllStreamRecord. split.
  - apply Forall_forall. intros r ([a r0] & -> & Hin)%list_elem_of_fmap.
    apply elem_of_iterate, Hok in Hin as [_ Hc]. exact Hc.
  - rewrite <- list_fmap_compose. rewrite <- (list_fmap_id (iterate _ _)) at 2.
    apply list_fmap_ext. intros i [a r] Hi. simpl.
    apply list_elem_of_lookup_2, elem_of_iterate, Hok in Hi as [<- _]. by destruct r.
Qed.

Lemma exported_settle s :
  (fun k => (k, tt)) <$> GetAllAutoSettleRecord s = iterate queue_leb (auto_settle s).
Proof.
  unfold GetAllAutoSettleRecord. rewrite <- list_fmap_compose.
  rewrite <- (list_fmap_id (iterate _ _)) at 2. apply list_fmap_ext. by intros i [k []] _.
Qed.

(** The stores the genesis covers come back; the others keep what they had. *)
Lemma genesis_import ctx s s0 :
  records_ok s -> Validate (params s) = true ->
  stream_records s0 = ∅ -> payment_account_counts s0 = ∅ ->
  payment_accounts s0 = ∅ -> auto_settle s0 = ∅ ->
  InitGenesis ctx (ExportGenesis s) s0 =
  (Ret tt, mkState (params s) (<[u64 (BlockTime ctx) := Versioned (params s)]> (versioned_params s0))
             (stream_records s) (out_flows s0) (auto_settle s) (auto_resume s0)
             (payment_accounts s) (payment_account_counts s) (delayed_withdrawals s0) (bank s0)).
Proof.
  intros Hok Hv Hr Hc Ha Hs. unfold InitGenesis, ExportGenesis. simpl.
  destruct (exported_records s Hok) as [Hck Hrec].
  unfold bind at 1. rewrite set_stream_records_spec, Hrec, Hr, foldl_insert_iterate by done.
  unfold bind, modify. rewrite foldl_counts. simpl. rewrite Hc.
  unfold GetAllPaymentAccountCount. rewrite foldl_insert_iterate, foldl_accounts. simpl.
  rewrite Ha. unfold GetAllPaymentAccount. rewrite foldl_insert_iterate, foldl_settle. simpl.
  rewrite Hs, exported_settle, foldl_insert_iterate.
  unfold on_err, SetParams, GetParams. rewrite Hv. done.
Qed.
End Accounts.
