(* ===== verification/PaymentKeys.v ===== *)
(** * x/payment: store keys

    The byte keys of [types/keys.go] and their parsers.  The store orders its
    keys as byte strings; the theorems show that this order is the one the
    model iterates its finite maps in ([flow_leb], [queue_leb]), that parsing
    inverts building, and where an iterator opened at a payer and a status
    starts. *)

From S2P Require Import Prelude Bytes Sdk PaymentTypes PaymentStore.

(** ** Addresses as bytes *)

Definition AddressLength : nat := 20.
Definition is_addr (a : Addr) : Prop := 0 <= a < 256 ^ Z.of_nat AddressLength.
Definition addr_bytes (a : Addr) : list Z := be_bytes AddressLength a.

(** ** Keys *)

(** [AutoSettleRecordKey] and [AutoResumeRecordKey] have the same body. *)
Definition AutoSettleRecordKey (timestamp : Z) (addr : Addr) : list Z :=
  be_bytes 8 (u64 timestamp) ++ addr_bytes addr.
Definition AutoResumeRecordKey (timestamp : Z) (addr : Addr) : list Z :=
  be_bytes 8 (u64 timestamp) ++ addr_bytes addr.

Definition ParseAutoSettleRecordKey (key : list Z) : Z * Addr :=
  (i64 (be_val (take 8 key)), be_val (drop 8 key)).
Definition ParseAutoResumeRecordKey (key : list Z) : Z * Addr :=
  (i64 (be_val (take 8 key)), be_val (drop 8 key)).

Definition OutFlowKey (addr : Addr) (status : OutFlowStatus) (toAddr : option Addr) : list Z :=
  addr_bytes addr ++
  match status with
  | OUT_FLOW_STATUS_ACTIVE => [0]
  | OUT_FLOW_STATUS_FROZEN => [1]
  end ++
  match toAddr with
  | Some t => addr_bytes t
  | None => []
  end.

(** [key[20]] out of range panics. *)
Definition ParseOutFlowKey (key : list Z) : option (Addr * OutFlowStatus * Addr) :=
  match key !! 20%nat with
  | None => None
  | Some b => Some (be_val (take 20 key),
                    if b =? 0 then OUT_FLOW_STATUS_ACTIVE else OUT_FLOW_STATUS_FROZEN,
                    be_val (drop 21 key))
  end.

Definition VersionedParamsKey (timestamp : Z) : list Z := 7 :: be_bytes 8 (u64 timestamp).

(** ** Facts *)

Lemma be_val_addr a : is_addr a -> be_val (addr_bytes a) = a.
Proof. intros Ha. unfold addr_bytes. rewrite be_val_bytes. by apply Z.mod_small. Qed.

Lemma u64_bound t : 0 <= u64 t < 256 ^ Z.of_nat 8.
Proof. unfold u64, two64. apply Z.mod_pos_bound. done. Qed.

Lemma i64_u64 t : is_i64 t = true -> i64 (u64 t) = t.
Proof.
  intros Ht. unfold i64, u64, is_i64, two63, two64 in *.
  rewrite Zplus_mod_idemp_l. rewrite Z.mod_small by lia. lia.
Qed.

Lemma addr_bytes_length a : length (addr_bytes a) = 20%nat.
Proof. apply be_bytes_length. Qed.

Lemma queue_key_parse t a :
  is_i64 t = true -> is_addr a ->
  ParseAutoSettleRecordKey (AutoSettleRecordKey t a) = (t, a).
Proof.
  intros Ht Ha. unfold ParseAutoSettleRecordKey, AutoSettleRecordKey.
  rewrite take_app_length', drop_app_length' by (by rewrite be_bytes_length).
  rewrite be_val_bytes, be_val_addr by done.
  rewrite (Z.mod_small (u64 t)) by apply u64_bound. by rewrite i64_u64.
Qed.

Lemma queue_key_order t1 a1 t2 a2 :
  is_addr a1 -> is_addr a2 ->
  bytes_leb (AutoSettleRecordKey t1 a1) (AutoSettleRecordKey t2 a2) =
  queue_leb (t1, a1) (t2, a2).
Proof.
  intros H1 H2. unfold AutoSettleRecordKey. rewrite be_bytes_leb by apply u64_bound.
  unfold addr_bytes. rewrite <- (app_nil_r (be_bytes _ a1)), <- (app_nil_r (be_bytes _ a2)).
  rewrite be_bytes_leb by done. unfold queue_leb. cbn [bytes_leb fst snd]. lia.
Qed.

Lemma flow_key_parse f st t :
  is_addr f -> is_addr t ->
  ParseOutFlowKey (OutFlowKey f st (Some t)) = Some (f, st, t).
Proof.
  intros Hf Ht. unfold ParseOutFlowKey, OutFlowKey.
  rewrite lookup_app_r by (by rewrite addr_bytes_length).
  rewrite addr_bytes_length, take_app_length' by (by rewrite addr_bytes_length).
  rewrite be_val_addr by done.
  replace (drop 21 _) with (addr_bytes t).
  - destruct st; simpl; by rewrite be_val_addr.
  - change 21%nat with (20 + 1)%nat.
    rewrite <- drop_drop, drop_app_length' by (by rewrite addr_bytes_length). by destruct st.
Qed.

Lemma flow_key_order f1 s1 t1 f2 s2 t2 :
  is_addr f1 -> is_addr t1 -> is_addr f2 -> is_addr t2 ->
  bytes_leb (OutFlowKey f1 s1 (Some t1)) (OutFlowKey f2 s2 (Some t2)) =
  flow_leb (f1, s1, t1) (f2, s2, t2).
Proof.
  intros Hf1 Ht1 Hf2 Ht2. unfold OutFlowKey. unfold addr_bytes at 1 3.
  rewrite be_bytes_leb by done.
  assert (bytes_leb (addr_bytes t1) (addr_bytes t2) = (t1 <=? t2)) as Ht.
  { unfold addr_bytes.
    rewrite <- (app_nil_r (be_bytes _ t1)), <- (app_nil_r (be_bytes _ t2)).
    rewrite be_bytes_leb by done. cbn [bytes_leb]. lia. }
  destruct s1, s2; cbn [app bytes_leb]; rewrite ?Ht; simpl; lia.
Qed.

(** The start key of an iterator over the flows of a payer and status. *)
Lemma flow_key_start addr st f st' t :
  is_addr addr -> is_addr f ->
  bytes_leb (OutFlowKey addr st None) (OutFlowKey f st' (Some t)) =
  (addr <? f) || ((addr =? f) && (status_code st <=? status_code st')).
Proof.
  intros Ha Hf. unfold OutFlowKey. unfold addr_bytes at 1 2. rewrite be_bytes_leb by done.
  destruct st, st'; cbn [app bytes_leb]; simpl; lia.
Qed.

(** Versions of the parameters are ordered by their unsigned timestamp. *)
Lemma params_key_order t1 t2 :
  bytes_leb (VersionedParamsKey t1) (VersionedParamsKey t2) = (u64 t1 <=? u64 t2).
Proof.
  unfold VersionedParamsKey. cbn [bytes_leb].
  rewrite <- (app_nil_r (be_bytes _ (u64 t1))), <- (app_nil_r (be_bytes _ (u64 t2))).
  rewrite be_bytes_leb by apply u64_bound. cbn [bytes_leb]. lia.
Qed.
