(* ===== verification/PaymentInstance.v ===== *)
(** * x/payment: a ledger and an address codec

    A concrete bank keeper and concrete address functions that satisfy the
    laws the development assumes of the SDK, so that the laws are consistent
    and the theorems about the module can be evaluated on small states; and
    decision procedures for the invariants of the module on such states. *)

From Stdlib Require Import Ascii.
From S2P Require Import PaymentStreamFacts PaymentSolvency PaymentFlowsFacts PaymentBooks.
From S2P Require Import PaymentSettle PaymentEndBlockFacts PaymentConserve PaymentMsgFacts.
From S2P Require Import Prelude Sdk PaymentTypes PaymentStore PaymentStream PaymentFlows.
From S2P Require Import PaymentEndBlock PaymentMsg PaymentAccounts.

(** ** x/payment: executable invariants

    Boolean versions of the invariants of the module's state, with their
    soundness: a concrete state is checked by evaluation. *)

(** A boolean test of every entry of a map. *)
Definition map_all {K V} `{Countable K} (p : K -> V -> bool) (m : gmap K V) : bool :=
  forallb (fun kv => p kv.1 kv.2) (map_to_list m).

Lemma map_all_spec {K V} `{Countable K} (p : K -> V -> bool) (m : gmap K V) k v :
  map_all p m = true -> m !! k = Some v -> p k v = true.
Proof.
  unfold map_all. rewrite forallb_forall. intros Hall Hk.
  apply (Hall (k, v)), list_elem_of_In, elem_of_map_to_list, Hk.
Qed.

Section Check.
Context {B : Type} {HBank : BankKeeper B} {HAddr : Addresses}.
Implicit Types (s : State B) (ctx : Ctx).

Definition book_okb s (a : Addr) : bool :=
  bool_decide (book_of s a = flow_book (out_flows s) a).

Definition books_okb s : bool :=
  map_all (fun a _ => book_okb s a) (stream_records s) &&
  map_all (fun k _ => book_okb s k.1.1 && book_okb s k.2) (out_flows s).

Lemma flow_book_absent m a :
  (forall f st t v, m !! (f, st, t) = Some v -> f <> a /\ t <> a) -> flow_book m a = (0, 0, 0).
Proof.
  intros Hno. unfold flow_book, flow_count, flow_sum, key_sum.
  rewrite !map_sum_zero; [done|..]; intros [[f st] t] v Hk; apply Hno in Hk as [Hf Ht];
    simpl; unfold indicator; rewrite ?(decide_False (P := f = a)), ?(decide_False (P := t = a))
      by done; destruct st; lia.
Qed.

Lemma books_okb_sound s : books_okb s = true -> books_ok s.
Proof.
  unfold books_okb. intros [Hr Hf]%andb_true_iff a.
  destruct (stream_records s !! a) as [r|] eqn:Ha.
  { apply (map_all_spec _ _ _ _ Hr) in Ha. by apply bool_decide_eq_true in Ha. }
  destruct (decide (map_Forall (fun k _ => k.1.1 <> a /\ k.2 <> a) (out_flows s))) as [Hno|Hyes].
  - rewrite flow_book_absent; [unfold book_of; by rewrite Ha|].
    intros f st t v Hk. apply (Hno _ _ Hk).
  - apply map_not_Forall in Hyes as (k & v & Hk & Hn); [|apply _].
    apply (map_all_spec _ _ _ _ Hf) in Hk. apply andb_true_iff in Hk as [H1 H2].
    apply bool_decide_eq_true in H1, H2.
    destruct (decide (k.1.1 = a)) as [<-|]; [done|].
    destruct (decide (k.2 = a)) as [<-|]; [done|]. tauto.
Qed.

Definition flows_okb s : bool :=
  map_all (fun k _ =>
    let '(f, st, t) := k in
    negb (f =? t) && bool_decide (out_flows s !! (f, other_status st, t) = None)) (out_flows s).

Lemma flows_okb_sound s : flows_okb s = true -> flows_ok s.
Proof.
  intros Hall. split.
  - intros f t. destruct (out_flows s !! (f, OUT_FLOW_STATUS_ACTIVE, t)) as [v|] eqn:Hk; [|by left].
    right. apply (map_all_spec _ _ _ _ Hall) in Hk. apply andb_true_iff in Hk as [_ Hk].
    by apply bool_decide_eq_true in Hk.
  - intros f st. destruct (out_flows s !! (f, st, f)) as [v|] eqn:Hk; [|done].
    apply (map_all_spec _ _ _ _ Hall) in Hk. simpl in Hk. lia.
Qed.

Definition timelyb ctx (r : StreamRecord) : bool :=
  (0 <=? BlockTime ctx - CrudTimestamp r) && (BlockTime ctx - CrudTimestamp r <? two63).

Definition gov_okb s : bool :=
  match stream_records s !! GovernanceAddress with
  | None => true
  | Some g => negb (is_frozen (Status g)) && (0 <=? NetflowRate g)
  end.

Definition solidb ctx s : bool :=
  gov_okb s && map_all (fun _ r => timelyb ctx r) (stream_records s) &&
  negb (GovernanceAddress =? ModuleAddress ModuleName) &&
  books_okb s && flows_okb s &&
  map_all (fun k v => let '(f, _, t) := k in
             (0 <=? v) && negb (t =? ModuleAddress ModuleName) &&
             negb (f =? GovernanceAddress)) (out_flows s) &&
  bool_decide (stream_records s !! ModuleAddress ModuleName = None).

Lemma solidb_sound ctx s : solidb ctx s = true -> solid ctx s.
Proof.
  unfold solidb. rewrite !andb_true_iff. intros [[[[[[Hg Ht] Hm] Hb] Hf] Hp] Hmod].
  constructor.
  - constructor.
    + intros g Hr. unfold gov_okb in Hg. rewrite Hr in Hg.
      destruct (Status g); [split; [done|]|done]. simpl in Hg. lia.
    + intros a r Hr. apply (map_all_spec _ _ _ _ Ht) in Hr. unfold timelyb in Hr.
      unfold timely. lia.
    + lia.
  - split; [by apply books_okb_sound|by apply flows_okb_sound].
  - intros f st t v Hk. apply (map_all_spec _ _ _ _ Hp) in Hk. simpl in Hk.
    rewrite !andb_true_iff in Hk. split_and!; lia.
  - by apply bool_decide_eq_true in Hmod.
Qed.

Definition checkedb s : bool := map_all (fun _ r => CheckStreamRecord r) (stream_records s).

Lemma checkedb_sound s : checkedb s = true -> checked s.
Proof. intros Hall a r Hr. by apply (map_all_spec _ _ _ _ Hall) in Hr. Qed.

End Check.

(** ** Addresses as binary text *)

Fixpoint pos_text (p : positive) : string :=
  match p with
  | xH => EmptyString
  | xO p => String "0"%char (pos_text p)
  | xI p => String "1"%char (pos_text p)
  end.

Fixpoint text_pos (t : string) : option positive :=
  match t with
  | EmptyString => Some xH
  | String "0"%char t => xO <$> text_pos t
  | String "1"%char t => xI <$> text_pos t
  | _ => None
  end.

Definition addr_text (a : Z) : string :=
  match a with
  | Z0 => "z"
  | Zpos p => String "+"%char (pos_text p)
  | Zneg p => String "-"%char (pos_text p)
  end.

Definition text_addr (t : string) : option Z :=
  match t with
  | "z" => Some 0
  | String "+"%char t => Zpos <$> text_pos t
  | String "-"%char t => Zneg <$> text_pos t
  | _ => None
  end.

Lemma text_pos_text p : text_pos (pos_text p) = Some p.
Proof. induction p as [p IH|p IH|]; simpl; rewrite ?IH; done. Qed.

Lemma text_addr_text a : text_addr (addr_text a) = Some a.
Proof. destruct a; simpl; rewrite ?text_pos_text; done. Qed.

(** Derived addresses: an injective code of the owner and the key, odd. *)
Definition derive_addr (a : Z) (key : list Z) : Z := Zpos (xI (encode (a, key))).

#[global] Instance test_addresses : Addresses := {
  AccAddress_String := addr_text;
  AccAddressFromHexUnsafe := text_addr;
  GovernanceAddress := 1000;
  ModuleAddress m :=
    if decide (m = ModuleName) then 2000
    else if decide (m = DistrModuleName) then 3000
    else if decide (m = "sp") then 4000
    else if decide (m = "virtualgroup") then 5000 else 6000;
  AddressDerive := derive_addr;
}.

#[global] Instance test_address_laws : AddressLaws.
Proof. constructor. apply text_addr_text. Qed.

#[global] Instance test_derive_laws : DeriveLaws.
Proof.
  constructor. intros a k a' k' Heq. simpl in Heq. injection Heq as Heq.
  apply (inj encode) in Heq. by injection Heq.
Qed.

(** ** A ledger *)

Record Ledger : Type := mkLedger {
  balances : gmap (Z * string) Z;
  accounts : gset Z;
}.

Definition balance (b : Ledger) (a : Z) (d : string) : Z := default 0 (balances b !! (a, d)).

Definition add_balance (b : Ledger) (a : Z) (d : string) (x : Z) : Ledger :=
  mkLedger (<[(a, d) := balance b a d + x]> (balances b)) (accounts b).

Fixpoint send_coins (b : Ledger) (src dst : Z) (cs : Coins) : option Ledger :=
  match cs with
  | [] => Some b
  | (d, x) :: cs' =>
      if balance b src d <? x then None
      else send_coins (add_balance (add_balance b src d (- x)) dst d x) src dst cs'
  end.

#[global] Instance ledger_bank : BankKeeper Ledger := {
  HasAccount b a := bool_decide (a ∈ accounts b);
  GetBalance := balance;
  SendCoinsFromAccountToModule b a m cs := send_coins b a (ModuleAddress m) cs;
  SendCoinsFromModuleToAccount b m a cs := send_coins b (ModuleAddress m) a cs;
  SendCoinsFromModuleToModule b m n cs := send_coins b (ModuleAddress m) (ModuleAddress n) cs;
  SendCoins b a a' cs := send_coins b a a' cs;
}.

Lemma balance_add b a d x a' d' :
  balance (add_balance b a d x) a' d' =
  balance b a' d' + (if decide ((a, d) = (a', d')) then x else 0).
Proof.
  unfold balance, add_balance. simpl. case_decide as Hd.
  - injection Hd as <- <-. by rewrite lookup_insert_eq.
  - rewrite lookup_insert_ne by done. lia.
Qed.

Lemma send_coins_moves b src dst cs b' :
  send_coins b src dst cs = Some b' -> moves b b' src dst cs.
Proof.
  revert b. induction cs as [|[d x] cs IH]; simpl; intros b Hs a d'.
  - injection Hs as <-. unfold AmountOf, zsum. simpl. repeat case_decide; lia.
  - case_match; [done|]. rewrite (IH _ Hs a d'). simpl. rewrite !balance_add.
    unfold AmountOf, zsum. simpl. fold (zsum (fun c => if decide (c.1 = d') then c.2 else 0) cs).
    fold (AmountOf d' cs). repeat case_decide; simplify_eq; try lia; congruence.
Qed.

#[global] Instance ledger_laws : BankLaws Ledger.
Proof. constructor; simpl; intros; by apply send_coins_moves. Qed.

(** ** A small chain

    User 10 deposits 2000 coins and pays flows of 5, 2 and 1 per second to
    20, 30 and 40; with a reserve time of 100 seconds the account can pay
    until time 1250 and is settled from 1240 on. *)

Definition test_params : Params := NewParams 100 (Some 0) 10 5 2 2 "amoca" 1000 50.

Definition state0 : State Ledger :=
  mkState test_params ∅ ∅ ∅ ∅ ∅ ∅ ∅ ∅
    (mkLedger (list_to_map [((10, "amoca"), 2000); ((11, "amoca"), 9000)]) (list_to_set [10; 11; 20])).

Definition ctx0 : Ctx := mkCtx 1000 false.

Definition deposit0 : MsgDeposit := mkMsgDeposit (addr_text 10) (addr_text 10) (Some 2000).

Definition state1 : State Ledger := deliver (Deposit ctx0 deposit0) state0.

Definition flows0 : list UserFlows :=
  [mkUserFlows 10 [mkOutFlow 20 5 OUT_FLOW_STATUS_ACTIVE; mkOutFlow 30 2 OUT_FLOW_STATUS_ACTIVE;
                   mkOutFlow 40 1 OUT_FLOW_STATUS_ACTIVE]].

Definition state2 : State Ledger := deliver (ApplyUserFlowsList ctx0 flows0) state1.

(** The block at 1245 freezes the account and one of its flows, the next one
    the other flows. *)
Definition state3 : State Ledger := deliver (EndBlock 1245) state2.
Definition state4 : State Ledger := deliver (EndBlock 1251) state3.
Definition state5 : State Ledger := deliver (EndBlock 1257) state4.

(** User 11 deposits enough to resume the account; it has more flows than a
    block resumes, so the end blocker does it. *)
Definition deposit1 : MsgDeposit := mkMsgDeposit (addr_text 11) (addr_text 10) (Some 5000).
Definition state6 : State Ledger := deliver (Deposit (mkCtx 1300 false) deposit1) state5.
Definition state7 : State Ledger := deliver (EndBlock 1300) state6.
