(* ===== verification/PaymentTheorems.v ===== *)
(** * x/payment: the theorems

    The promises of the payment module, each with an evaluation on the small
    chain of [PaymentInstance]. *)

From S2P Require Import Prelude Bytes Sdk PaymentTypes PaymentStore PaymentStream PaymentStreamFacts.
From S2P Require Import PaymentSolvency PaymentFlows PaymentFlowsFacts PaymentBooks.
From S2P Require Import PaymentEndBlock PaymentSettle PaymentEndBlockFacts PaymentConserve.
From S2P Require Import PaymentMsg PaymentMsgFacts PaymentAccounts PaymentKeys PaymentInstance.
From S2P Require Import PaymentInstance.

Section Theorems.
Context {B : Type} {HBank : BankKeeper B} {HAddr : Addresses}.
Implicit Types (s : State B) (ctx : Ctx) (r : StreamRecord) (ch : StreamRecordChange).

(** ** Facts about one update *)

(** The settle timestamp of a payer, when no conversion overflows. *)
Definition settle_in_range ctx (p : Params) (d : Z) : Prop :=
  is_i64 (ForcedSettleTime p) = true /\ is_i64 (BlockTime ctx - ForcedSettleTime p) = true /\
  is_i64 (BlockTime ctx - ForcedSettleTime p + d) = true.

Lemma settle_time_id ctx p d :
  settle_in_range ctx p d -> settle_time ctx p d = BlockTime ctx - ForcedSettleTime p + d.
Proof. intros (H1 & H2 & H3). unfold settle_time.
  by rewrite (i64_id (ForcedSettleTime p)), (i64_id (_ - _)), i64_id. Qed.

Lemma payDuration_bounds r :
  NetflowRate r < 0 -> 0 <= StaticBalance r + BufferBalance r ->
  - NetflowRate r * payDuration r <= StaticBalance r + BufferBalance r <
  - NetflowRate r * (payDuration r + 1).
Proof.
  intros Hn Hnn. unfold payDuration. rewrite Z.abs_neq by lia.
  rewrite Z.quot_div_nonneg by lia.
  pose proof (Z.div_mod (StaticBalance r + BufferBalance r) (- NetflowRate r) ltac:(lia)).
  pose proof (Z.mod_pos_bound (StaticBalance r + BufferBalance r) (- NetflowRate r) ltac:(lia)).
  nia.
Qed.

Lemma unforced_update ctx r ch s r' s' :
  UpdateStreamRecord update_fuel ctx r ch s = (Ret r', s') -> Forced ctx = false ->
  Status r = STREAM_ACCOUNT_STATUS_ACTIVE /\ Status r' = STREAM_ACCOUNT_STATUS_ACTIVE /\
  NetflowRate r' = NetflowRate r + RateChange ch /\
  BufferBalance r' = buffer_for (params s) (NetflowRate r') /\
  (isPay ch = true -> 0 <= StaticBalance r') /\
  (NetflowRate r' < 0 ->
     ForcedSettleTime (params s) < payDuration r' /\
     SettleTimestamp r' = settle_time ctx (params s) (payDuration r')) /\
  (SettleTimestamp r' <> 0 ->
     auto_settle s' !! (SettleTimestamp r', Account r) = Some tt).
Proof.
  intros Hrun Hf. destruct (Status r) eqn:Hst.
  2: { by apply UpdateStreamRecord_frozen in Hrun as (? & _); [congruence|]. }
  apply UpdateStreamRecord_active in Hrun as (f' & _ & Hspec); [|done].
  destruct Hspec as [amt b' ts Hpaid r1 Hpay Hts Hdur -> ->|]; [|congruence].
  assert (NetflowRate r1 = NetflowRate r + RateChange ch) as Hrate
    by (unfold r1, topped; simpl; apply staged_rate).
  split_and!; try done.
  - unfold r1, topped. simpl. by rewrite staged_status.
  - change (NetflowRate (set_settle ts r1)) with (NetflowRate r1). rewrite Hrate.
    apply staged_buffer.
  - intros Hp. by apply Hpay.
  - change (payDuration (set_settle ts r1)) with (payDuration r1).
    change (NetflowRate (set_settle ts r1)) with (NetflowRate r1). intros Hn.
    change (SettleTimestamp (set_settle ts r1)) with ts. split; [by apply Hdur|]. rewrite Hts. by replace (NetflowRate r1 <? 0) with true by lia.
  - change (SettleTimestamp (set_settle ts r1)) with ts. intros Hnz. unfold UpdateAutoSettleRecord.
    replace (ts =? 0) with false by lia. simpl. apply lookup_insert_eq.
Qed.
End Theorems.

(** ** Charging and bookkeeping *)

(** Charging a list of user flows keeps the books: after
    [ApplyUserFlowsList] every stream record's rate is again its active
    inflow less its active outflow, its frozen rate its frozen outflow, and
    its count the number of its flows in the store. *)
Lemma ApplyUserFlowsList_keeps_books :
  forall (B : Type) (HBank : BankKeeper B) (HAddr : Addresses) (HLaws : AddressLaws)
    ctx (l : list UserFlows) (s s' : State B) u,
  ApplyUserFlowsList ctx l s = (Ret u, s') -> books_ok s -> books_ok s'.
Proof. intros. by eapply apply_user_flows_books. Qed.

Lemma ApplyUserFlowsList_keeps_books_witness :
  (exists u, ApplyUserFlowsList ctx0 flows0 state1 = (Ret u, state2)) /\ books_ok state2 /\
  book_of state2 10 = (-8, 0, 3) /\ book_of state2 20 = (5, 0, 0).
Proof.
  assert (ApplyUserFlowsList ctx0 flows0 state1 = (Ret tt, state2)) as Hrun
    by (by_eval).
  split_and!; [eauto| |by_eval|by_eval].
  apply (ApplyUserFlowsList_keeps_books _ _ _ _ _ _ _ _ _ Hrun).
  apply books_okb_sound. by_eval.
Defined.

(** C7: the end blocker keeps the books and the flow store consistent (no
    flow both active and frozen, no flow to oneself), and in one block it
    thaws at most [MaxAutoResumeFlowCount] flows and freezes at most
    [MaxAutoSettleFlowCount]. *)
Theorem EndBlock_keeps_books :
  forall (B : Type) (HBank : BankKeeper B) (HAddr : Addresses) now (s s' : State B) u,
  0 <= MaxAutoResumeFlowCount (params s) -> 0 <= MaxAutoSettleFlowCount (params s) ->
  EndBlock now s = (Ret u, s') -> flow_state_ok s ->
  flow_state_ok s' /\
  frozen_flows s - MaxAutoResumeFlowCount (params s) <= frozen_flows s' <=
  frozen_flows s + MaxAutoSettleFlowCount (params s).
Proof.
  intros B HBank HAddr now s s' u Hr Hs Hrun Hok. unfold EndBlock in Hrun.
  apply bind_Ret in Hrun as (? & s1 & Hres & Hset).
  apply AutoResume_ok in Hres as (Hok1 & Hp & Hfz); try done.
  apply AutoSettle_ok in Hset as [Hok2 Hfz2]; try done; [|by rewrite Hp].
  rewrite Hp in Hfz2. split; [done|lia].
Qed.

Lemma EndBlock_keeps_books_witness :
  (exists u, EndBlock 1245 state2 = (Ret u, state3)) /\ flow_state_ok state3 /\
  frozen_flows state2 = 0 /\ frozen_flows state3 = 1.
Proof.
  assert (EndBlock 1245 state2 = (Ret tt, state3)) as Hrun by (by_eval).
  split_and!; [eauto| |by_eval|by_eval].
  apply (EndBlock_keeps_books _ _ _ 1245 state2 state3 tt); [by_eval|by_eval|exact Hrun|].
  split; [apply books_okb_sound|apply flows_okb_sound]; by_eval.
Defined.

(** A deposit that tries to resume a frozen account keeps the books and
    the flow store consistent, whether it resumes the account directly,
    queues it, or only adds to its balance. *)
Lemma TryResume_keeps_books :
  forall (B : Type) (HBank : BankKeeper B) (HAddr : Addresses) ctx addr r found dep
    (s s' : State B) u,
  GetStreamRecord ctx addr s = (r, found) ->
  TryResumeStreamRecord ctx r dep s = (Ret u, s') -> flow_state_ok s -> flow_state_ok s'.
Proof.
  intros B HBank HAddr ctx addr r found dep s s' u Hget Hrun Hok.
  eapply TryResume_ok; [exact Hrun|exact Hok|].
  pose proof (GetStreamRecord_book ctx addr s) as Hb.
  pose proof (GetStreamRecord_account ctx addr s) as Ha.
  rewrite Hget in Ha, Hb. simpl in Ha, Hb. by rewrite Ha.
Qed.

(** The account of the small chain with a limit that lets it resume at once. *)
Definition state_direct : State Ledger :=
  with_params (NewParams 100 (Some 0) 10 5 2 3 "amoca" 1000 50) state5.

Lemma TryResume_keeps_books_witness :
  let c := mkCtx 1300 false in
  let run := TryResumeStreamRecord c (GetStreamRecord c 10 state_direct).1 5000 state_direct in
  flow_state_ok run.2 /\ frozen_flows state_direct = 3 /\ frozen_flows run.2 = 0.
Proof.
  intros c run.
  assert (run = (Ret tt, run.2)) as Hrun by (by_eval).
  split_and!; [|by_eval|by_eval].
  apply (TryResume_keeps_books _ _ _ c 10 (GetStreamRecord c 10 state_direct).1 true 5000
    state_direct run.2 tt); [by_eval|exact Hrun|].
  split; [apply books_okb_sound|apply flows_okb_sound]; by_eval.
Defined.

(** C31: settling a frozen account ([settle_account], the part of [AutoSettle]
    for one entry of the settle queue) without reaching the flow limit, in a
    state with consistent books, freezes all its out flows with their rates, leaves those of other senders, stores
    its record with no net flow rate and the whole rate frozen, and removes the
    entry it was taken from.  An entry at another time, as an update in the same
    round can queue, is not spoken of. *)
Theorem settle_account_completes :
  forall (B : Type) (HBank : BankKeeper B) (HAddr : Addresses) ctx max ts addr r count
    (s s' : State B) c,
  settle_account ctx max ts addr r count s = (Ret c, s') ->
  flow_state_ok s -> Account r = addr -> count <= max -> c < max ->
  account_settled ts addr r s s'.
Proof. intros. by eapply settle_account_finished. Qed.

Definition settled_state : State Ledger :=
  deliver (settle_account (mkCtx 1251 true) 3 1240 10
             (GetStreamRecord (mkCtx 1251 true) 10 state3).1 0) state3.

Lemma settle_account_completes_witness :
  let r := (GetStreamRecord (mkCtx 1251 true) 10 state3).1 in
  frozen_flows state3 = 1 /\ frozen_flows settled_state = 3 /\ account_settled 1240 10 r state3 settled_state.
Proof.
  intros r. split; [by_eval|]. split; [by_eval|].
  apply (settle_account_completes _ _ _ (mkCtx 1251 true) 3 1240 10 r 0 state3 settled_state 2).
  - by_eval.
  - split; [apply books_okb_sound|apply flows_okb_sound]; by_eval.
  - by_eval.
  - by_eval.
  - by_eval.
Defined.

(** ** Value *)

(** Updating a stream record creates and destroys no value: what all
    records are worth at the block time, less the fee coins of the module
    account, changes by exactly the requested static balance change (by
    nothing for a frozen record), also when the update pulls coins from the
    bank or settles the account to the governance address. *)
Lemma UpdateStreamRecordByAddr_conserves :
  forall (B : Type) (HBank : BankKeeper B) (HAddr : Addresses) (HLaws : BankLaws B) ctx ch
    (s s' : State B) r',
  UpdateStreamRecordByAddr ctx ch s = (Ret r', s') ->
  sane ctx s -> ChangeAddr ch <> ModuleAddress ModuleName ->
  (ChangeAddr ch = GovernanceAddress ->
     0 <= NetflowRate (GetStreamRecord ctx (ChangeAddr ch) s).1 + RateChange ch) ->
  total_value (BlockTime ctx) s' - module_balance s' =
    total_value (BlockTime ctx) s - module_balance s
    + (if is_frozen (Status (GetStreamRecord ctx (ChangeAddr ch) s).1) then 0
       else StaticBalanceChange ch).
Proof. intros. by eapply UpdateByAddr_value. Qed.

(** The update that settles account 10 to the governance account. *)
Definition updated_state : State Ledger :=
  deliver (UpdateStreamRecordByAddr (mkCtx 1245 true) (NewDefaultStreamRecordChangeWithAddr 10))
    state2.

Lemma UpdateStreamRecordByAddr_conserves_witness :
  total_value 1245 updated_state - module_balance updated_state =
    total_value 1245 state2 - module_balance state2
    + (if is_frozen (Status (GetStreamRecord (mkCtx 1245 true) 10 state2).1) then 0 else 0) /\
  StaticBalance <$> (stream_records updated_state !! 1000) = Some 40.
Proof.
  split; [|by_eval].
  eapply (UpdateStreamRecordByAddr_conserves _ _ _ _ (mkCtx 1245 true)
    (NewDefaultStreamRecordChangeWithAddr 10) state2 updated_state).
  - by_eval.
  - apply (solid_sane (mkCtx 1245 true)), solidb_sound. by_eval.
  - by_eval.
  - by_eval.
Defined.

(** C2: [AutoSettle] creates and destroys no value: the module's surplus
    (fee coins less the value of the records and the delayed withdrawals) is
    the same after settling, and the invariant of the state is kept. *)
Theorem AutoSettle_conserves :
  forall (B : Type) (HBank : BankKeeper B) (HAddr : Addresses) (HLaws : BankLaws B) ctx
    (s s' : State B) u,
  Forced ctx = true -> 0 <= MaxAutoSettleFlowCount (params s) ->
  AutoSettle ctx s = (Ret u, s') -> solid ctx s ->
  solid ctx s' /\ surplus (BlockTime ctx) s' = surplus (BlockTime ctx) s.
Proof. intros. by eapply AutoSettle_solid. Qed.

Lemma AutoSettle_conserves_witness :
  let c := mkCtx 1245 true in
  solid c state3 /\ surplus 1245 state3 = surplus 1245 state2.
Proof.
  eapply (AutoSettle_conserves _ _ _ _ (mkCtx 1245 true) state2 state3 tt).
  - by_eval.
  - by_eval.
  - by_eval.
  - apply solidb_sound. by_eval.
Defined.

(** [AutoResume] never lowers the surplus: a resumed payer is charged
    from the time its deposit was accepted, its receivers are credited from
    the time their flow is thawed.  The queue holds frozen accounts that
    receive no flow, each once. *)
Lemma AutoResume_keeps_surplus :
  forall (B : Type) (HBank : BankKeeper B) (HAddr : Addresses) (HLaws : BankLaws B) ctx
    (s s' : State B) u,
  0 <= MaxAutoResumeFlowCount (params s) ->
  AutoResume ctx s = (Ret u, s') -> solid ctx s ->
  NoDup (iterate queue_leb (auto_resume s)).*1.*2 ->
  (forall ts a, auto_resume s !! (ts, a) = Some tt -> resumable s a) ->
  solid ctx s' /\ surplus (BlockTime ctx) s <= surplus (BlockTime ctx) s'.
Proof. intros. by eapply AutoResume_solid. Qed.

(** The resume queue of [state6] holds account 10, which nobody pays. *)
Lemma state6_resumable ts a : auto_resume state6 !! (ts, a) = Some tt -> resumable state6 a.
Proof.
  intros Hq.
  assert (map_all (fun k _ => (k.2 =? 10)) (auto_resume state6) = true) as Hall by by_eval.
  apply (map_all_spec _ _ _ _ Hall) in Hq. simpl in Hq. assert (a = 10) as -> by lia.
  split_and!; [by_eval| |].
  - intros f st. destruct (out_flows state6 !! (f, st, 10)) as [v|] eqn:Hk; [|reflexivity].
    assert (map_all (fun k _ => negb (k.2 =? 10)) (out_flows state6) = true) as Hf by by_eval.
    apply (map_all_spec _ _ _ _ Hf) in Hk. clear Hf. simpl in Hk. discriminate Hk.
  - assert (Status <$> (stream_records state6 !! 10) = Some STREAM_ACCOUNT_STATUS_FROZEN) as Hs
      by by_eval.
    intros r Hr. rewrite Hr in Hs. injection Hs as Hs. exact Hs.
Qed.

Definition resumed_state : State Ledger := deliver (AutoResume (mkCtx 1306 true)) state6.

Lemma AutoResume_keeps_surplus_witness :
  solid (mkCtx 1306 true) resumed_state /\
  surplus 1306 state6 <= surplus 1306 resumed_state.
Proof.
  eapply (AutoResume_keeps_surplus _ _ _ _ (mkCtx 1306 true) state6 resumed_state tt).
  - by_eval.
  - by_eval.
  - apply solidb_sound. by_eval.
  - apply (bool_decide_unpack _). by_eval.
  - apply state6_resumable.
Defined.

(** C10: a deposit keeps the module solvent: the coins it brings cover at
    least the balance it credits, on every branch (a new account, an active
    one, a frozen one that is resumed, queued or only credited, and the sweep
    of a payment account's own coins). *)
Theorem Deposit_keeps_surplus :
  forall (B : Type) (HBank : BankKeeper B) (HAddr : Addresses) (HLaws : BankLaws B) ctx msg
    creator to (s s' : State B) u,
  Deposit ctx msg s = (Ret u, s') ->
  AccAddressFromHexUnsafe (dep_Creator msg) = Some creator ->
  AccAddressFromHexUnsafe (dep_To msg) = Some to ->
  creator <> ModuleAddress ModuleName -> to <> ModuleAddress ModuleName ->
  solid ctx s -> checked s ->
  solid ctx s' /\ surplus (BlockTime ctx) s <= surplus (BlockTime ctx) s'.
Proof. intros. by eapply Deposit_solid. Qed.

Lemma Deposit_keeps_surplus_witness :
  solid (mkCtx 1300 false) state6 /\ surplus 1300 state5 <= surplus 1300 state6.
Proof.
  eapply (Deposit_keeps_surplus _ _ _ _ (mkCtx 1300 false) deposit1 11 10 state5 state6 tt).
  - by_eval.
  - by_eval.
  - by_eval.
  - by_eval.
  - by_eval.
  - apply solidb_sound. by_eval.
  - apply checkedb_sound. by_eval.
Defined.

(** C5: a withdrawal, immediate, locked, or of an amount locked earlier,
    takes exactly what it pays: the surplus is unchanged. *)
Theorem Withdraw_keeps_surplus :
  forall (B : Type) (HBank : BankKeeper B) (HAddr : Addresses) (HLaws : BankLaws B) ctx msg
    creator (s s' : State B) u,
  Withdraw ctx msg s = (Ret u, s') ->
  AccAddressFromHexUnsafe (wd_Creator msg) = Some creator ->
  creator <> ModuleAddress ModuleName -> solid ctx s ->
  solid ctx s' /\ surplus (BlockTime ctx) s' = surplus (BlockTime ctx) s.
Proof. intros. by eapply Withdraw_solid. Qed.

Definition withdraw0 : MsgWithdraw := mkMsgWithdraw (addr_text 10) (addr_text 10) (Some 1000).
Definition withdrawn_state : State Ledger := deliver (Withdraw ctx0 withdraw0) state2.

Lemma Withdraw_keeps_surplus_witness :
  solid ctx0 withdrawn_state /\ surplus 1000 withdrawn_state = surplus 1000 state2.
Proof.
  eapply (Withdraw_keeps_surplus _ _ _ _ ctx0 withdraw0 10 state2 withdrawn_state tt).
  - by_eval.
  - by_eval.
  - by_eval.
  - apply solidb_sound. by_eval.
Defined.

(** The passing of time moves value between records and makes none: when
    the books balance, both ends of every flow have records and no frozen
    record has active flows left, the total value is the same at any two
    times. *)
Lemma time_conserves_value :
  forall (B : Type) (s : State B) t t',
  books_ok s -> flows_recorded s -> frozen_quiet s -> total_value t' s = total_value t s.
Proof. intros. by apply time_keeps_value. Qed.

(** Without the last condition it does: the account of the small chain is
    frozen at 1245 with two flows left active; until the next block settles
    them they earn 18 coins that nobody pays. *)
Lemma unsettled_flows_shortfall :
  surplus 1245 state3 = 0 /\ surplus 1251 state4 = -18.
Proof. split; by_eval. Qed.

(** ** Who is paid, and when *)

(** C11: a withdrawal from a stream account succeeds only for the account
    itself or the owner of a refundable payment account, leaves an active
    account with a static balance that is not negative, and from the threshold
    on pays nothing out but records a delayed withdrawal that unlocks after
    the time lock. *)
Theorem Withdraw_guarded :
  forall (B : Type) (HBank : BankKeeper B) (HAddr : Addresses) ctx msg creator from amt
    threshold (s s' : State B) u,
  Withdraw ctx msg s = (Ret u, s') ->
  AccAddressFromHexUnsafe (wd_Creator msg) = Some creator ->
  wd_From msg <> EmptyString -> AccAddressFromHexUnsafe (wd_From msg) = Some from ->
  wd_Amount msg = Some amt -> Forced ctx = false -> 0 < amt ->
  WithdrawTimeLockThreshold (params s) = Some threshold ->
  may_withdraw creator from s /\
  (exists r, stream_records s' !! from = Some r /\ 0 <= StaticBalance r /\
     Status r = STREAM_ACCOUNT_STATUS_ACTIVE) /\
  (threshold <= amt ->
     delayed_withdrawals s !! creator = None /\
     delayed_withdrawals s' !! creator = Some (mkDelayed amt from
       (i64 (BlockTime ctx + i64 (WithdrawTimeLockDuration (params s)))))).
Proof.
  intros B HBank HAddr ctx msg creator from amt th s s' u Hrun Hcr Hne Hfrom Hamt Hf Hpos Hth.
  destruct (Withdraw_Ret _ _ _ _ _ _ Hrun Hcr) as [[? _]|(from' & amt' & _ & Hfrom' & Hamt' & Hw)];
    [done|]. simplify_eq.
  destruct Hw as (r0 & r1 & s1 & Hr0 & Hst & Hmay & Hupd & Hck & Hnn & th' & Hth' & Hw).
  simplify_eq.
  pose proof (unforced_update _ _ _ _ _ _ Hupd Hf) as (_ & Hact & _).
  pose proof (UpdateStreamRecord_books _ _ _ _ _ _ _ Hupd) as (_ & Ha & _).
  simpl in Ha. split_and!; [done| |].
  - exists r1. split_and!; [|done|done].
    destruct Hw as [(_ & _ & ->)|(_ & v & Hbt)]; [simpl; rewrite Ha; apply lookup_insert_eq|].
    unfold bankTransfer in Hbt. rewrite bind_get in Hbt.
    apply bind_Ret in Hbt as (cs & ? & [_ ->]%must_Ret & (b' & _ & ->)%transfer_Ret).
    simpl. rewrite Ha. apply lookup_insert_eq.
  - intros Hle. destruct Hw as [(_ & Hnone & ->)|(? & _)]; [|lia].
    split; [done|]. apply lookup_insert_eq.
Qed.

Lemma Withdraw_guarded_witness :
  may_withdraw 10 10 state2 /\
  (exists r, stream_records withdrawn_state !! 10 = Some r /\ 0 <= StaticBalance r /\
     Status r = STREAM_ACCOUNT_STATUS_ACTIVE) /\
  (1000 <= 1000 ->
     delayed_withdrawals state2 !! 10 = None /\
     delayed_withdrawals withdrawn_state !! 10 = Some (mkDelayed 1000 10
       (i64 (BlockTime ctx0 + i64 (WithdrawTimeLockDuration (params state2)))))).
Proof.
  eapply (Withdraw_guarded _ _ _ ctx0 withdraw0 10 10 1000 1000 state2 withdrawn_state tt);
    by_eval.
Defined.

(** A delayed withdrawal is paid only strictly after its unlock time, for
    exactly the locked amount, and only once: the record is gone afterwards. *)
Lemma delayed_withdrawal_locked :
  forall (B : Type) (HBank : BankKeeper B) (HAddr : Addresses) ctx msg creator
    (s s' : State B) u,
  Withdraw ctx msg s = (Ret u, s') ->
  AccAddressFromHexUnsafe (wd_Creator msg) = Some creator -> wd_From msg = EmptyString ->
  exists d, delayed_withdrawals s !! creator = Some d /\
    wd_Amount msg = Some (DelayedAmount d) /\ UnlockTimestamp d < BlockTime ctx /\
    delayed_withdrawals s' = delete creator (delayed_withdrawals s) /\
    stream_records s' = stream_records s.
Proof.
  intros B HBank HAddr ctx msg creator s s' u Hrun Hcr Hfrom.
  destruct (Withdraw_Ret _ _ _ _ _ _ Hrun Hcr) as [[_ Hd]|(? & ? & ? & _)]; [|done].
  apply withdraw_delayed_Ret in Hd as (d & Hd & Hamt & Hlt & Hbt).
  exists d. unfold bankTransfer in Hbt. rewrite bind_get in Hbt.
  apply bind_Ret in Hbt as (cs & ? & [_ ->]%must_Ret & (b' & _ & ->)%transfer_Ret).
  by split_and!.
Qed.

Definition claim0 : MsgWithdraw := mkMsgWithdraw (addr_text 10) EmptyString (Some 1000).
Definition claimed_state : State Ledger :=
  deliver (Withdraw (mkCtx 1051 false) claim0) withdrawn_state.

Lemma delayed_withdrawal_locked_witness :
  exists d, delayed_withdrawals withdrawn_state !! 10 = Some d /\
    wd_Amount claim0 = Some (DelayedAmount d) /\ UnlockTimestamp d < 1051 /\
    delayed_withdrawals claimed_state = delete 10 (delayed_withdrawals withdrawn_state) /\
    stream_records claimed_state = stream_records withdrawn_state.
Proof.
  eapply (delayed_withdrawal_locked _ _ _ (mkCtx 1051 false) claim0 10 withdrawn_state
    claimed_state tt); by_eval.
Defined.

(** ** One update *)

(** Outside the end blocker an update never freezes an account: it
    refuses frozen records and records that would be settled, keeps the
    buffer at [ReserveTime] seconds of a negative rate, leaves a payer with a
    static balance that is not negative, and queues the account for its
    settle time. *)
Lemma unforced_update_safe :
  forall (B : Type) (HBank : BankKeeper B) (HAddr : Addresses) ctx r ch (s s' : State B) r',
  UpdateStreamRecord update_fuel ctx r ch s = (Ret r', s') -> Forced ctx = false ->
  Status r = STREAM_ACCOUNT_STATUS_ACTIVE /\ Status r' = STREAM_ACCOUNT_STATUS_ACTIVE /\
  NetflowRate r' = NetflowRate r + RateChange ch /\
  BufferBalance r' = buffer_for (params s) (NetflowRate r') /\
  (isPay ch = true -> 0 <= StaticBalance r') /\
  (NetflowRate r' < 0 ->
     ForcedSettleTime (params s) < payDuration r' /\
     SettleTimestamp r' = settle_time ctx (params s) (payDuration r')) /\
  (SettleTimestamp r' <> 0 ->
     auto_settle s' !! (SettleTimestamp r', Account r) = Some tt).
Proof. intros. by apply unforced_update. Qed.

Definition pay0 : StreamRecordChange :=
  WithRateChange (-1) (NewDefaultStreamRecordChangeWithAddr 10).
Definition payer2 : StreamRecord := (GetStreamRecord ctx0 10 state2).1.
Definition paid_record : StreamRecord :=
  match UpdateStreamRecord update_fuel ctx0 payer2 pay0 state2 with
  | (Ret r, _) => r
  | _ => payer2
  end.
Definition paid_state : State Ledger :=
  deliver (UpdateStreamRecord update_fuel ctx0 payer2 pay0) state2.

Lemma unforced_update_safe_witness :
  Status payer2 = STREAM_ACCOUNT_STATUS_ACTIVE /\
  Status paid_record = STREAM_ACCOUNT_STATUS_ACTIVE /\
  NetflowRate paid_record = NetflowRate payer2 + RateChange pay0 /\
  BufferBalance paid_record = buffer_for (params state2) (NetflowRate paid_record) /\
  (isPay pay0 = true -> 0 <= StaticBalance paid_record) /\
  (NetflowRate paid_record < 0 ->
     ForcedSettleTime (params state2) < payDuration paid_record /\
     SettleTimestamp paid_record = settle_time ctx0 (params state2) (payDuration paid_record)) /\
  (SettleTimestamp paid_record <> 0 ->
     auto_settle paid_state !! (SettleTimestamp paid_record, Account payer2) = Some tt).
Proof.
  eapply (unforced_update_safe _ _ _ ctx0 payer2 pay0 state2 paid_state paid_record); by_eval.
Defined.

(** At its settle time a payer still holds [ForcedSettleTime] seconds of
    its rate, and less than a second more: the balance and the buffer, run
    down at the rate until [SettleTimestamp], cover the forced settle time. *)
Lemma settle_time_leaves_margin :
  forall (B : Type) (HBank : BankKeeper B) (HAddr : Addresses) ctx r ch (s s' : State B) r',
  UpdateStreamRecord update_fuel ctx r ch s = (Ret r', s') -> Forced ctx = false ->
  NetflowRate r' < 0 -> 0 < ForcedSettleTime (params s) ->
  settle_in_range ctx (params s) (payDuration r') ->
  let left := StaticBalance r' + BufferBalance r'
              + NetflowRate r' * (SettleTimestamp r' - BlockTime ctx) in
  - NetflowRate r' * ForcedSettleTime (params s) <= left <
  - NetflowRate r' * (ForcedSettleTime (params s) + 1).
Proof.
  intros B HBank HAddr ctx r ch s s' r' Hrun Hf Hn Hpos Hr left.
  apply unforced_update in Hrun as (_ & _ & _ & _ & _ & Hs & _); [|done].
  destruct (Hs Hn) as [Hlt Hts]. rewrite settle_time_id in Hts by done.
  assert (0 <= StaticBalance r' + BufferBalance r') as Hnn.
  { destruct (Z.lt_ge_cases (StaticBalance r' + BufferBalance r') 0) as [Hlt'|]; [|done].
    exfalso. unfold payDuration in Hlt. rewrite Z.abs_neq in Hlt by lia.
    pose proof (Z.quot_opp_l (StaticBalance r' + BufferBalance r') (- NetflowRate r') ltac:(lia)).
    pose proof (Z.quot_pos (- (StaticBalance r' + BufferBalance r')) (- NetflowRate r')
      ltac:(lia) ltac:(lia)). lia. }
  pose proof (payDuration_bounds r' Hn Hnn). unfold left. rewrite Hts. nia.
Qed.

Lemma settle_time_leaves_margin_witness :
  let left := StaticBalance paid_record + BufferBalance paid_record
              + NetflowRate paid_record * (SettleTimestamp paid_record - BlockTime ctx0) in
  - NetflowRate paid_record * ForcedSettleTime (params state2) <= left <
  - NetflowRate paid_record * (ForcedSettleTime (params state2) + 1).
Proof.
  eapply (settle_time_leaves_margin _ _ _ ctx0 payer2 pay0 state2 paid_state paid_record);
    [by_eval|by_eval|by_eval|by_eval|split_and!; by_eval].
Defined.

(** C34: [UpdateStreamRecord] and [ForceSettle] call each other through the
    governance account; while that account pays no flow the recursion stops
    within two levels, and more fuel gives the same result. *)
Theorem UpdateStreamRecord_recursion_bounded :
  forall (B : Type) (HBank : BankKeeper B) (HAddr : Addresses) ctx r ch (s : State B),
  gov_ok s ->
  terminates (UpdateStreamRecord update_fuel ctx r ch) s /\
  forall f, UpdateStreamRecord (S (S f)) ctx r ch s = UpdateStreamRecord update_fuel ctx r ch s.
Proof.
  intros. split; [by apply UpdateStreamRecord_enough_fuel|].
  intros. by apply UpdateStreamRecord_fuel.
Qed.

Lemma UpdateStreamRecord_recursion_bounded_witness :
  terminates (UpdateStreamRecord update_fuel ctx0 payer2 pay0) state2 /\
  forall f, UpdateStreamRecord (S (S f)) ctx0 payer2 pay0 state2 =
            UpdateStreamRecord update_fuel ctx0 payer2 pay0 state2.
Proof.
  apply (UpdateStreamRecord_recursion_bounded _ _ _ ctx0 payer2 pay0 state2).
  apply (sane_gov ctx0), (solid_sane ctx0), solidb_sound. by_eval.
Defined.

(** In the end blocker (the forced context) no stream record update
    returns an error, so the panics and the skipped accounts of [AutoSettle]
    and [AutoResume] on a failed update are never reached. *)
Lemma forced_update_no_error :
  forall (B : Type) (HBank : BankKeeper B) (HAddr : Addresses) ctx ch (s s' : State B) e,
  Forced ctx = true -> UpdateStreamRecordByAddr ctx ch s <> (Err e, s').
Proof. intros. by apply forced_no_error_by_addr. Qed.

(** ** Merging *)

(** Merging user flows changes no rate between any payer and receiver:
    the list charged after [MergeUserFlows] and [MergeOutFlows] asks for the
    same total from each payer to each receiver. *)
Lemma MergeUserFlows_same_rates :
  forall (HAddr : Addresses) (HLaws : AddressLaws) f t (l : list UserFlows),
  user_rate f t (MergeUserFlows l) = user_rate f t l.
Proof. intros. apply MergeUserFlows_user_rate. Qed.

Lemma MergeUserFlows_same_rates_witness :
  user_rate 10 20 (MergeUserFlows (flows0 ++ flows0)) = user_rate 10 20 (flows0 ++ flows0).
Proof.
  exact (MergeUserFlows_same_rates test_addresses test_address_laws 10 20 (flows0 ++ flows0)).
Defined.

(** The merged stream record changes of two or more are one per address,
    in the order of the address texts, so every node applies them in the same
    order; and they add up to the original changes of each address. *)
Lemma MergeStreamRecordChanges_canonical :
  forall (HAddr : Addresses) (HLaws : AddressLaws) (l : list StreamRecordChange),
  (2 <= length l)%nat ->
  StronglySorted (text_le ChangeAddr) (MergeStreamRecordChanges l) /\
  NoDup (ChangeAddr <$> MergeStreamRecordChanges l) /\
  (forall a, change_at RateChange a (MergeStreamRecordChanges l) = change_at RateChange a l) /\
  (forall a, change_at StaticBalanceChange a (MergeStreamRecordChanges l) =
             change_at StaticBalanceChange a l) /\
  (forall a, change_at LockBalanceChange a (MergeStreamRecordChanges l) =
             change_at LockBalanceChange a l).
Proof.
  intros HAddr HLaws l Hl. destruct (MergeStreamRecordChanges_shape l Hl) as [Hs Hn].
  split_and!; [done|done|..]; intros a; apply MergeStreamRecordChanges_change_at;
    unfold merged_component; auto.
Qed.

(** ** Keys *)

(** An out flow key parses back to its payer, status and receiver, and
    the byte order of the store is the order the model iterates flows in, so
    that all flows of a payer with one status are consecutive. *)
Lemma OutFlowKey_codec :
  forall f st t f' st' t',
  is_addr f -> is_addr t -> is_addr f' -> is_addr t' ->
  ParseOutFlowKey (OutFlowKey f st (Some t)) = Some (f, st, t) /\
  bytes_leb (OutFlowKey f st (Some t)) (OutFlowKey f' st' (Some t')) =
    flow_leb (f, st, t) (f', st', t') /\
  bytes_leb (OutFlowKey f st None) (OutFlowKey f' st' (Some t')) =
    ((f <? f') || ((f =? f') && (status_code st <=? status_code st'))).
Proof.
  intros. split_and!; [by apply flow_key_parse|by apply flow_key_order|by apply flow_key_start].
Qed.

Lemma OutFlowKey_codec_witness :
  ParseOutFlowKey (OutFlowKey 300 OUT_FLOW_STATUS_FROZEN (Some 7)) =
    Some (300, OUT_FLOW_STATUS_FROZEN, 7) /\
  bytes_leb (OutFlowKey 300 OUT_FLOW_STATUS_FROZEN (Some 7))
    (OutFlowKey 300 OUT_FLOW_STATUS_ACTIVE (Some 9)) = false.
Proof.
  split; [|by_eval].
  apply (OutFlowKey_codec 300 OUT_FLOW_STATUS_FROZEN 7 300 OUT_FLOW_STATUS_ACTIVE 9);
    split; by_eval.
Defined.

(** A queue key parses back to its timestamp and address, and the byte
    order of the store is by time first, so the end blocker meets the due
    accounts first; timestamps are compared unsigned, a negative one comes
    last. *)
Lemma queue_key_codec :
  forall t a t' a',
  is_i64 t = true -> is_addr a -> is_addr a' ->
  ParseAutoSettleRecordKey (AutoSettleRecordKey t a) = (t, a) /\
  ParseAutoResumeRecordKey (AutoResumeRecordKey t a) = (t, a) /\
  bytes_leb (AutoSettleRecordKey t a) (AutoSettleRecordKey t' a') = queue_leb (t, a) (t', a') /\
  bytes_leb (AutoResumeRecordKey t a) (AutoResumeRecordKey t' a') = queue_leb (t, a) (t', a').
Proof.
  intros. split_and!; [by apply queue_key_parse|by apply queue_key_parse|
    by apply queue_key_order|by apply queue_key_order].
Qed.

(** ** Parameters, accounts and genesis *)

(** Looking up the parameters by time answers with the last version
    stored strictly before that time, and fails exactly when there is none. *)
Lemma GetVersionedParamsWithTs_last_before :
  forall (B : Type) ts (s : State B) v,
  GetVersionedParamsWithTs ts s = Ret v <->
  exists t, versioned_params s !! t = Some v /\ t < u64 ts /\
    forall t' v', versioned_params s !! t' = Some v' -> t' < u64 ts -> t' <= t.
Proof. intros. apply versioned_params_spec. Qed.

(** Creating payment accounts keeps the account table: every address
    derived from an owner and an index below its count is a payment account
    of that owner, and the count never passes the limit. *)
Lemma CreatePaymentAccount_keeps_table :
  forall (B : Type) (HAddr : Addresses) (HDerive : DeriveLaws) msg (s s' : State B) u,
  CreatePaymentAccount msg s = (Ret u, s') ->
  is_u64 (PaymentAccountCountLimit (params s)) = true -> accounts_ok s ->
  accounts_ok s' /\
  exists creator, AccAddressFromHexUnsafe (cpa_Creator msg) = Some creator /\
    (GetPaymentAccountCount creator s').1 <= PaymentAccountCountLimit (params s).
Proof.
  intros B HAddr HDerive msg s s' u Hrun Hlim Hok.
  split; [by eapply CreatePaymentAccount_accounts|].
  apply CreatePaymentAccount_Ret in Hrun as (creator & Hcr & Hlt & ->). exists creator.
  split; [done|]. unfold GetPaymentAccountCount at 1. simpl. rewrite lookup_insert_eq. simpl.
  assert (0 <= (GetPaymentAccountCount creator s).1) as Hnn.
  { unfold GetPaymentAccountCount. case_match eqn:Hc; simpl; [|lia].
    apply Hok in Hc as [Hc _]. unfold is_u64 in Hc. lia. }
  rewrite u64_id; unfold is_u64 in *; lia.
Qed.

Definition create0 : MsgCreatePaymentAccount := mkMsgCreate (addr_text 10).
Definition created_state : State Ledger := deliver (CreatePaymentAccount create0) state0.

Lemma CreatePaymentAccount_keeps_table_witness :
  accounts_ok created_state /\
  exists creator, AccAddressFromHexUnsafe (cpa_Creator create0) = Some creator /\
    (GetPaymentAccountCount creator created_state).1 <= PaymentAccountCountLimit (params state0).
Proof.
  eapply (CreatePaymentAccount_keeps_table _ _ _ create0 state0 created_state tt).
  - by_eval.
  - by_eval.
  - intros owner c Hc. exfalso. unfold state0 in Hc. simpl in Hc.
    rewrite lookup_empty in Hc. discriminate Hc.
Defined.

(** The accounts listed for an owner are as many as it created, all
    different, and each is a payment account owned by it. *)
Lemma PaymentAccountsByOwner_owned :
  forall (B : Type) (HAddr : Addresses) (HDerive : DeriveLaws) owner (s : State B) l,
  PaymentAccountsByOwner owner s = Some l -> accounts_ok s ->
  payment_account_counts s !! owner = Some (Z.of_nat (length l)) /\ NoDup l /\
  forall addr, addr ∈ l -> exists a, payment_accounts s !! addr = Some a /\
    AccAddressFromHexUnsafe (Owner a) = Some owner.
Proof. intros. by apply PaymentAccountsByOwner_spec. Qed.

(** C35: importing an exported genesis restores the stream records, the payment
    accounts and counts, the settle queue and the parameters.  The out flows,
    the resume queue and the delayed withdrawals are not part of the genesis:
    they stay what they were in the importing store. *)
Theorem genesis_roundtrip :
  forall (B : Type) ctx (s s0 : State B),
  records_ok s -> Validate (params s) = true ->
  stream_records s0 = ∅ -> payment_account_counts s0 = ∅ ->
  payment_accounts s0 = ∅ -> auto_settle s0 = ∅ ->
  exists s', InitGenesis ctx (ExportGenesis s) s0 = (Ret tt, s') /\
    params s' = params s /\ stream_records s' = stream_records s /\
    auto_settle s' = auto_settle s /\ payment_accounts s' = payment_accounts s /\
    payment_account_counts s' = payment_account_counts s /\
    out_flows s' = out_flows s0 /\ auto_resume s' = auto_resume s0 /\
    delayed_withdrawals s' = delayed_withdrawals s0.
Proof. intros. eexists. split; [by apply genesis_import|done]. Qed.

Lemma state2_records : records_ok state2.
Proof.
  assert (map_all (fun a r => (Account r =? a) && CheckStreamRecord r) (stream_records state2)
          = true) as Hall by by_eval.
  intros a r Hr. apply (map_all_spec _ _ _ _ Hall) in Hr. clear Hall.
  apply andb_true_iff in Hr as [H1 H2]. split; [lia|exact H2].
Qed.

Lemma genesis_roundtrip_witness :
  exists s', InitGenesis ctx0 (ExportGenesis state2) state0 = (Ret tt, s') /\
    params s' = params state2 /\ stream_records s' = stream_records state2 /\
    auto_settle s' = auto_settle state2 /\ payment_accounts s' = payment_accounts state2 /\
    payment_account_counts s' = payment_account_counts state2 /\
    out_flows s' = out_flows state0 /\ auto_resume s' = auto_resume state0 /\
    delayed_withdrawals s' = delayed_withdrawals state0.
Proof.
  apply (genesis_roundtrip _ ctx0 state2 state0 state2_records); by_eval.
Defined.
