(* ===== verification/StateDB.v ===== *)
(** * x/evm/statedb: the EVM's view of the chain state

    [statedb.go], [state_object.go], [journal.go], [access_list.go] and
    [transient_storage.go].  A [StateDB] caches accounts and storage of the
    keeper it was made for, records every change in a journal, reverts to
    snapshots by undoing journal entries, and writes the dirty accounts back
    on [Commit].

    Addresses, hashes and storage words are integers in the order of their
    bytes.  A live object is a pointer in Go: here it is the entry of its
    address in [stateObjects], and a method that mutates it updates that
    entry.  [nil] code is [None].  The keeper is an interface of the source
    ([interfaces.go]) and a parameter here. *)

From S2P Require Import Prelude.

(** ** Accounts and the keeper *)

Record Account : Type := mkAccount { Nonce : Z; Balance : Z; CodeHash : Z }.

(** The functions of the [Keeper] interface over a keeper state [K]. *)
Class Keeper (K : Type) : Type := {
  keeper_GetAccount : K -> Z -> option Account;
  keeper_GetState : K -> Z -> Z -> Z;
  keeper_GetCode : K -> Z -> option (list Z);
  keeper_SetAccount : K -> Z -> Account -> option K;
  keeper_SetState : K -> Z -> Z -> Z -> K;
  keeper_SetCode : K -> Z -> option (list Z) -> K;
  keeper_DeleteAccount : K -> Z -> option K;
}.

(** [crypto.Keccak256Hash]; nil and empty code have the same hash. *)
Class Hashing : Type := { Keccak256 : list Z -> Z }.

Definition emptyCodeHash `{Hashing} : Z := Keccak256 [].

Definition NewEmptyAccount `{Hashing} : Account := mkAccount 0 0 emptyCodeHash.

Definition IsContract `{Hashing} (acct : Account) : bool := negb (CodeHash acct =? emptyCodeHash).

Abbreviation Storage := (gmap Z Z).

(** [Storage.SortedKeys] *)
Definition SortedKeys (st : Storage) : list Z := (iterate Z.leb st).*1.

(** ** State objects *)

Record stateObject : Type := mkObject {
  account : Account;
  code : option (list Z);
  originStorage : Storage;
  dirtyStorage : Storage;
  address : Z;
  dirtyCode : bool;
  suicided : bool;
  selfDestructed : bool;
  created : bool;
}.

Definition set_account (v : Account) (o : stateObject) : stateObject :=
  mkObject v (code o) (originStorage o) (dirtyStorage o) (address o) (dirtyCode o)
    (suicided o) (selfDestructed o) (created o).
Definition set_code (v : option (list Z)) (o : stateObject) : stateObject :=
  mkObject (account o) v (originStorage o) (dirtyStorage o) (address o) (dirtyCode o)
    (suicided o) (selfDestructed o) (created o).
Definition set_origin (v : Storage) (o : stateObject) : stateObject :=
  mkObject (account o) (code o) v (dirtyStorage o) (address o) (dirtyCode o)
    (suicided o) (selfDestructed o) (created o).
Definition set_dirty (v : Storage) (o : stateObject) : stateObject :=
  mkObject (account o) (code o) (originStorage o) v (address o) (dirtyCode o)
    (suicided o) (selfDestructed o) (created o).
Definition set_dirty_code (v : bool) (o : stateObject) : stateObject :=
  mkObject (account o) (code o) (originStorage o) (dirtyStorage o) (address o) v
    (suicided o) (selfDestructed o) (created o).
Definition set_suicided (v : bool) (o : stateObject) : stateObject :=
  mkObject (account o) (code o) (originStorage o) (dirtyStorage o) (address o) (dirtyCode o)
    v (selfDestructed o) (created o).
Definition set_destructed (v : bool) (o : stateObject) : stateObject :=
  mkObject (account o) (code o) (originStorage o) (dirtyStorage o) (address o) (dirtyCode o)
    (suicided o) v (created o).
Definition set_created (v : bool) (o : stateObject) : stateObject :=
  mkObject (account o) (code o) (originStorage o) (dirtyStorage o) (address o) (dirtyCode o)
    (suicided o) (selfDestructed o) v.

(** [newObject]: nil balance and code hash become their empty values, which
    is what [Account{}] passed by [createObject] needs. *)
Definition newObject (addr : Z) (acct : Account) : stateObject :=
  mkObject acct None ∅ ∅ addr false false false false.

Definition empty `{Hashing} (o : stateObject) : bool :=
  (Nonce (account o) =? 0) && (Balance (account o) =? 0) &&
  (CodeHash (account o) =? emptyCodeHash).

Definition markSuicided (o : stateObject) : stateObject := set_suicided true o.
Definition markSelfdestructed (o : stateObject) : stateObject := set_destructed true o.

Definition obj_setBalance (amount : Z) (o : stateObject) : stateObject :=
  set_account (mkAccount (Nonce (account o)) amount (CodeHash (account o))) o.
Definition obj_setNonce (nonce : Z) (o : stateObject) : stateObject :=
  set_account (mkAccount nonce (Balance (account o)) (CodeHash (account o))) o.
Definition obj_setCode (codeHash : Z) (c : option (list Z)) (o : stateObject) : stateObject :=
  set_dirty_code true
    (set_account (mkAccount (Nonce (account o)) (Balance (account o)) codeHash) (set_code c o)).
Definition obj_setState (key value : Z) (o : stateObject) : stateObject :=
  set_dirty (<[key := value]> (dirtyStorage o)) o.

(** ** Access list *)

(** [slots] is the slice of slot sets; an address maps to its index or -1. *)
Record accessList : Type := mkAccessList {
  addresses : gmap Z Z;
  slots : list (gset Z);
}.

Definition newAccessList : accessList := mkAccessList ∅ [].

Definition ContainsAddress (al : accessList) (addr : Z) : bool :=
  bool_decide (is_Some (addresses al !! addr)).

(** An index outside the slice panics. *)
Definition Contains (al : accessList) (addr slot : Z) : option (bool * bool) :=
  match addresses al !! addr with
  | None => Some (false, false)
  | Some idx =>
      if idx =? -1 then Some (true, false)
      else match slots al !! Z.to_nat idx with
           | None => None
           | Some slotmap => Some (true, bool_decide (slot ∈ slotmap))
           end
  end.

Definition AddAddress (al : accessList) (addr : Z) : bool * accessList :=
  match addresses al !! addr with
  | Some _ => (false, al)
  | None => (true, mkAccessList (<[addr := -1]> (addresses al)) (slots al))
  end.

Definition AddSlot (al : accessList) (addr slot : Z) : option (bool * bool * accessList) :=
  let fresh addrPresent :=
    Some (negb addrPresent, true,
      mkAccessList (<[addr := Z.of_nat (length (slots al))]> (addresses al))
        (slots al ++ [{[ slot ]}])) in
  match addresses al !! addr with
  | None => fresh false
  | Some idx =>
      if idx =? -1 then fresh true
      else match slots al !! Z.to_nat idx with
           | None => None
           | Some slotmap =>
               if bool_decide (slot ∈ slotmap) then Some (false, false, al)
               else Some (false, true,
                 mkAccessList (addresses al) (<[Z.to_nat idx := {[ slot ]} ∪ slotmap]> (slots al)))
           end
  end.

Definition DeleteSlot (al : accessList) (addr slot : Z) : option accessList :=
  match addresses al !! addr with
  | None => None
  | Some idx =>
      match (if idx =? -1 then None else slots al !! Z.to_nat idx) with
      | None => None
      | Some slotmap =>
          let slotmap' := slotmap ∖ {[ slot ]} in
          if bool_decide (slotmap' = ∅) then
            Some (mkAccessList (<[addr := -1]> (addresses al)) (take (Z.to_nat idx) (slots al)))
          else Some (mkAccessList (addresses al) (<[Z.to_nat idx := slotmap']> (slots al)))
      end
  end.

Definition DeleteAddress (al : accessList) (addr : Z) : accessList :=
  mkAccessList (delete addr (addresses al)) (slots al).

(** ** Transient storage *)

Abbreviation transientStorage := (gmap Z (gmap Z Z)).

Definition transient_Set (t : transientStorage) (addr key value : Z) : transientStorage :=
  <[addr := <[key := value]> (default ∅ (t !! addr))]> t.

Definition transient_Get (t : transientStorage) (addr key : Z) : Z :=
  match t !! addr with
  | None => 0
  | Some val => default 0 (val !! key)
  end.

(** ** Journal *)

Inductive JournalEntry : Type :=
| createObjectChange (acct : Z)
| resetObjectChange (prev : stateObject)
| suicideChange (acct : Z) (prev : bool) (prevbalance : Z)
| selfDestructChange (acct : Z) (prev : bool) (prevbalance : Z)
| balanceChange (acct : Z) (prev : Z)
| nonceChange (acct : Z) (prev : Z)
| storageChange (acct key prevalue : Z)
| codeChange (acct : Z) (prevcode : option (list Z)) (prevhash : Z)
| refundChange (prev : Z)
| addLogChange
| accessListAddAccountChange (addr : Z)
| accessListAddSlotChange (addr slot : Z)
| transientStorageChange (acct key prevalue : Z).

Definition Dirtied (e : JournalEntry) : option Z :=
  match e with
  | createObjectChange a | suicideChange a _ _ | selfDestructChange a _ _
  | balanceChange a _ | nonceChange a _ | storageChange a _ _ | codeChange a _ _ => Some a
  | resetObjectChange _ | refundChange _ | addLogChange | accessListAddAccountChange _
  | accessListAddSlotChange _ _ | transientStorageChange _ _ _ => None
  end.

(** ** The state *)

Record TxConfig : Type := mkTxConfig {
  tx_BlockHash : Z; tx_TxHash : Z; tx_TxIndex : Z; tx_LogIndex : Z }.

(** A log: what the EVM fills in, and the fields [AddLog] sets. *)
Record Log : Type := mkLog {
  log_content : Z; log_TxHash : Z; log_BlockHash : Z; log_TxIndex : Z; log_Index : Z }.

Record StateDB (K : Type) : Type := mkStateDB {
  keeper : K;
  entries : list JournalEntry;
  dirties : gmap Z Z;
  validRevisions : list (Z * nat);
  nextRevisionID : Z;
  stateObjects : gmap Z stateObject;
  txConfig : TxConfig;
  refund : Z;
  logs : list Log;
  access : accessList;
  transient : transientStorage;
}.
Arguments mkStateDB {K}.
Arguments keeper {K}.
Arguments entries {K}.
Arguments dirties {K}.
Arguments validRevisions {K}.
Arguments nextRevisionID {K}.
Arguments stateObjects {K}.
Arguments txConfig {K}.
Arguments refund {K}.
Arguments logs {K}.
Arguments access {K}.
Arguments transient {K}.

Section Setters.
Context {K : Type}.
Implicit Types s : StateDB K.

Definition with_keeper (v : K) s := mkStateDB v (entries s) (dirties s) (validRevisions s)
  (nextRevisionID s) (stateObjects s) (txConfig s) (refund s) (logs s) (access s) (transient s).
Definition with_journal es ds s := mkStateDB (keeper s) es ds (validRevisions s)
  (nextRevisionID s) (stateObjects s) (txConfig s) (refund s) (logs s) (access s) (transient s).
Definition with_revisions rs id s := mkStateDB (keeper s) (entries s) (dirties s) rs
  id (stateObjects s) (txConfig s) (refund s) (logs s) (access s) (transient s).
Definition with_objects os s := mkStateDB (keeper s) (entries s) (dirties s) (validRevisions s)
  (nextRevisionID s) os (txConfig s) (refund s) (logs s) (access s) (transient s).
Definition with_refund v s := mkStateDB (keeper s) (entries s) (dirties s) (validRevisions s)
  (nextRevisionID s) (stateObjects s) (txConfig s) v (logs s) (access s) (transient s).
Definition with_logs v s := mkStateDB (keeper s) (entries s) (dirties s) (validRevisions s)
  (nextRevisionID s) (stateObjects s) (txConfig s) (refund s) v (access s) (transient s).
Definition with_access v s := mkStateDB (keeper s) (entries s) (dirties s) (validRevisions s)
  (nextRevisionID s) (stateObjects s) (txConfig s) (refund s) (logs s) v (transient s).
Definition with_transient v s := mkStateDB (keeper s) (entries s) (dirties s) (validRevisions s)
  (nextRevisionID s) (stateObjects s) (txConfig s) (refund s) (logs s) (access s) v.
End Setters.

(** Computations of the StateDB: they panic or return, and keep no error
    value but the keeper's in [Commit]. *)
Abbreviation SM K := (M (StateDB K) unit).

Section StateDB.
Context {K : Type} {HKeeper : Keeper K} {HHash : Hashing}.
Implicit Types (s : StateDB K) (o : stateObject).

Definition New (k : K) (cfg : TxConfig) : StateDB K :=
  mkStateDB k [] ∅ [] 0 ∅ cfg 0 [] newAccessList ∅.

(** [journal.append] *)
Definition journal_append (e : JournalEntry) s : StateDB K :=
  with_journal (entries s ++ [e])
    (match Dirtied e with
     | Some addr => <[addr := default 0 (dirties s !! addr) + 1]> (dirties s)
     | None => dirties s
     end) s.

Definition append (e : JournalEntry) : SM K unit := modify (journal_append e).

(** Mutating the live object of an address. *)
Definition update_object (addr : Z) (f : stateObject -> stateObject) : SM K unit :=
  modify (fun s => with_objects (alter f addr (stateObjects s)) s).

Definition setStateObject (o : stateObject) : SM K unit :=
  modify (fun s => with_objects (<[address o := o]> (stateObjects s)) s).

Definition getStateObject (addr : Z) : SM K (option stateObject) :=
  let! s := get in
  match stateObjects s !! addr with
  | Some obj => ret (Some obj)
  | None =>
      match keeper_GetAccount (keeper s) addr with
      | None => ret None
      | Some acct =>
          let obj := newObject addr acct in
          do! setStateObject obj ;;
          ret (Some obj)
      end
  end.

(** [createObject]; the result is the previous object. *)
Definition createObject (addr : Z) : SM K (option stateObject) :=
  let! prev := getStateObject addr in
  let newobj := newObject addr NewEmptyAccount in
  match prev with
  | None =>
      do! append (createObjectChange addr) ;;
      do! setStateObject (set_created true newobj) ;;
      ret None
  | Some p =>
      do! append (resetObjectChange p) ;;
      do! setStateObject newobj ;;
      ret (Some p)
  end.

Definition getOrNewStateObject (addr : Z) : SM K unit :=
  let! obj := getStateObject addr in
  match obj with
  | None => do! createObject addr ;; ret tt
  | Some _ => ret tt
  end.

(** Reading a live object again after it was mutated. *)
Definition live (addr : Z) : SM K stateObject :=
  let! s := get in
  match stateObjects s !! addr with
  | Some o => ret o
  | None => panic
  end.

Definition CreateAccount (addr : Z) : SM K unit :=
  let! prev := createObject addr in
  match prev with
  | None => ret tt
  | Some p => update_object addr (obj_setBalance (Balance (account p)))
  end.

(** ** Methods of live objects *)

Definition obj_Code (addr : Z) : SM K (option (list Z)) :=
  let! o := live addr in
  match code o with
  | Some c => ret (Some c)
  | None =>
      if CodeHash (account o) =? emptyCodeHash then ret None
      else
        let! s := get in
        let c := keeper_GetCode (keeper s) (CodeHash (account o)) in
        do! update_object addr (set_code c) ;;
        ret c
  end.

Definition obj_GetCommittedState (addr key : Z) : SM K Z :=
  let! o := live addr in
  match originStorage o !! key with
  | Some value => ret value
  | None =>
      let! s := get in
      let value := keeper_GetState (keeper s) addr key in
      do! update_object addr (fun o => set_origin (<[key := value]> (originStorage o)) o) ;;
      ret value
  end.

Definition obj_GetState (addr key : Z) : SM K Z :=
  let! o := live addr in
  match dirtyStorage o !! key with
  | Some value => ret value
  | None => obj_GetCommittedState addr key
  end.

Definition obj_SetBalance (addr amount : Z) : SM K unit :=
  let! o := live addr in
  do! append (balanceChange addr (Balance (account o))) ;;
  update_object addr (obj_setBalance amount).

Definition obj_AddBalance (addr amount : Z) : SM K unit :=
  if amount =? 0 then ret tt
  else let! o := live addr in obj_SetBalance addr (Balance (account o) + amount).

Definition obj_SubBalance (addr amount : Z) : SM K unit :=
  if amount =? 0 then ret tt
  else let! o := live addr in obj_SetBalance addr (Balance (account o) - amount).

Definition obj_SetNonce (addr nonce : Z) : SM K unit :=
  let! o := live addr in
  do! append (nonceChange addr (Nonce (account o))) ;;
  update_object addr (obj_setNonce nonce).

Definition obj_SetCode (addr codeHash : Z) (c : option (list Z)) : SM K unit :=
  let! prevcode := obj_Code addr in
  let! o := live addr in
  do! append (codeChange addr prevcode (CodeHash (account o))) ;;
  update_object addr (obj_setCode codeHash c).

Definition obj_SetState (addr key value : Z) : SM K unit :=
  let! prev := obj_GetState addr key in
  if prev =? value then ret tt
  else
    do! append (storageChange addr key prev) ;;
    update_object addr (obj_setState key value).

(** ** The API: logs and refunds *)

Definition AddLog (content : Z) : SM K unit :=
  do! append addLogChange ;;
  modify (fun s =>
    with_logs (logs s ++ [mkLog content (tx_TxHash (txConfig s)) (tx_BlockHash (txConfig s))
      (tx_TxIndex (txConfig s)) (tx_LogIndex (txConfig s) + Z.of_nat (length (logs s)))]) s).

Definition AddRefund (gas : Z) : SM K unit :=
  let! s := get in
  do! append (refundChange (refund s)) ;;
  modify (fun s => with_refund (u64 (refund s + gas)) s).

Definition SubRefund (gas : Z) : SM K unit :=
  let! s := get in
  do! append (refundChange (refund s)) ;;
  if refund s <? gas then panic
  else modify (fun s => with_refund (refund s - gas) s).

(** ** The API: reads *)

Definition Exist (addr : Z) : SM K bool :=
  let! obj := getStateObject addr in
  ret (match obj with Some _ => true | None => false end).

Definition Empty (addr : Z) : SM K bool :=
  let! obj := getStateObject addr in
  ret (match obj with Some o => empty o | None => true end).

Definition GetBalance (addr : Z) : SM K Z :=
  let! obj := getStateObject addr in
  ret (match obj with Some o => Balance (account o) | None => 0 end).

Definition GetNonce (addr : Z) : SM K Z :=
  let! obj := getStateObject addr in
  ret (match obj with Some o => Nonce (account o) | None => 0 end).

Definition GetCode (addr : Z) : SM K (option (list Z)) :=
  let! obj := getStateObject addr in
  match obj with Some _ => obj_Code addr | None => ret None end.

Definition GetCodeSize (addr : Z) : SM K Z :=
  let! c := GetCode addr in
  ret (Z.of_nat (length (default [] c))).

Definition GetCodeHash (addr : Z) : SM K Z :=
  let! obj := getStateObject addr in
  ret (match obj with Some o => CodeHash (account o) | None => 0 end).

Definition GetState (addr key : Z) : SM K Z :=
  let! obj := getStateObject addr in
  match obj with Some _ => obj_GetState addr key | None => ret 0 end.

Definition GetCommittedState (addr key : Z) : SM K Z :=
  let! obj := getStateObject addr in
  match obj with Some _ => obj_GetCommittedState addr key | None => ret 0 end.

Definition HasSuicided (addr : Z) : SM K bool :=
  let! obj := getStateObject addr in
  ret (match obj with Some o => suicided o | None => false end).

Definition GetTransientState (addr key : Z) s : Z := transient_Get (transient s) addr key.

(** ** The API: setters *)

Definition AddBalance (addr amount : Z) : SM K unit :=
  do! getOrNewStateObject addr ;; obj_AddBalance addr amount.

Definition SubBalance (addr amount : Z) : SM K unit :=
  do! getOrNewStateObject addr ;; obj_SubBalance addr amount.

Definition SetNonce (addr nonce : Z) : SM K unit :=
  do! getOrNewStateObject addr ;; obj_SetNonce addr nonce.

Definition SetCode (addr : Z) (c : option (list Z)) : SM K unit :=
  do! getOrNewStateObject addr ;; obj_SetCode addr (Keccak256 (default [] c)) c.

Definition SetState (addr key value : Z) : SM K unit :=
  do! getOrNewStateObject addr ;; obj_SetState addr key value.

Definition Suicide (addr : Z) : SM K bool :=
  let! obj := getStateObject addr in
  match obj with
  | None => ret false
  | Some o =>
      do! append (suicideChange addr (suicided o) (Balance (account o))) ;;
      do! update_object addr (fun o => obj_setBalance 0 (markSuicided o)) ;;
      ret true
  end.

Definition SelfDestruct (addr : Z) : SM K unit :=
  let! obj := getStateObject addr in
  match obj with
  | None => ret tt
  | Some o =>
      do! append (selfDestructChange addr (selfDestructed o) (Balance (account o))) ;;
      update_object addr (fun o => obj_setBalance 0 (markSelfdestructed o))
  end.

Definition Selfdestruct6780 (addr : Z) : SM K unit :=
  let! obj := getStateObject addr in
  match obj with
  | None => ret tt
  | Some o => if created o then SelfDestruct addr else ret tt
  end.

Definition setTransientState (addr key value : Z) : SM K unit :=
  modify (fun s => with_transient (transient_Set (transient s) addr key value) s).

Definition SetTransientState (addr key value : Z) : SM K unit :=
  let! s := get in
  let prev := GetTransientState addr key s in
  if prev =? value then ret tt
  else
    do! append (transientStorageChange addr key prev) ;;
    setTransientState addr key value.

(** ** The API: access list *)

Definition AddAddressToAccessList (addr : Z) : SM K unit :=
  let! s := get in
  let '(added, al) := AddAddress (access s) addr in
  do! modify (with_access al) ;;
  if added then append (accessListAddAccountChange addr) else ret tt.

Definition AddSlotToAccessList (addr slot : Z) : SM K unit :=
  let! s := get in
  match AddSlot (access s) addr slot with
  | None => panic
  | Some (addrMod, slotMod, al) =>
      do! modify (with_access al) ;;
      do! (if addrMod : bool then append (accessListAddAccountChange addr) else ret tt) ;;
      if slotMod : bool then append (accessListAddSlotChange addr slot) else ret tt
  end.

Fixpoint each {A} (f : A -> SM K unit) (l : list A) : SM K unit :=
  match l with
  | [] => ret tt
  | x :: l' => do! f x ;; each f l'
  end.

(** An entry of the transaction's access list: an address and its keys. *)
Definition PrepareAccessList (sender : Z) (dst : option Z) (precompiles : list Z)
    (l : list (Z * list Z)) : SM K unit :=
  do! AddAddressToAccessList sender ;;
  do! (match dst with Some d => AddAddressToAccessList d | None => ret tt end) ;;
  do! each AddAddressToAccessList precompiles ;;
  each (fun el =>
    do! AddAddressToAccessList el.1 ;;
    each (AddSlotToAccessList el.1) el.2) l.

Definition AddressInAccessList (addr : Z) s : bool := ContainsAddress (access s) addr.
Definition SlotInAccessList (addr slot : Z) s : option (bool * bool) :=
  Contains (access s) addr slot.

(** ** Snapshots *)

(** [JournalEntry.Revert].  [getStateObject] of a missing account is nil, and
    its method call panics. *)
Definition revert_object (addr : Z) (f : stateObject -> stateObject) : SM K unit :=
  let! obj := getStateObject addr in
  match obj with Some _ => update_object addr f | None => panic end.

Definition Revert (e : JournalEntry) : SM K unit :=
  match e with
  | createObjectChange a =>
      modify (fun s => with_objects (delete a (stateObjects s)) s)
  | resetObjectChange prev => setStateObject prev
  | suicideChange a prev prevbalance =>
      let! obj := getStateObject a in
      match obj with
      | Some _ => update_object a (fun o => obj_setBalance prevbalance (set_suicided prev o))
      | None => ret tt
      end
  | selfDestructChange a prev prevbalance =>
      let! obj := getStateObject a in
      match obj with
      | Some _ => update_object a (fun o => obj_setBalance prevbalance (set_destructed prev o))
      | None => ret tt
      end
  | balanceChange a prev => revert_object a (obj_setBalance prev)
  | nonceChange a prev => revert_object a (obj_setNonce prev)
  | storageChange a key prevalue => revert_object a (obj_setState key prevalue)
  | codeChange a prevcode prevhash => revert_object a (obj_setCode prevhash prevcode)
  | refundChange prev => modify (with_refund prev)
  | addLogChange =>
      let! s := get in
      if bool_decide (logs s = []) then panic
      else modify (fun s => with_logs (take (pred (length (logs s))) (logs s)) s)
  | accessListAddAccountChange addr =>
      modify (fun s => with_access (DeleteAddress (access s) addr) s)
  | accessListAddSlotChange addr slot =>
      let! s := get in
      match DeleteSlot (access s) addr slot with
      | None => panic
      | Some al => modify (with_access al)
      end
  | transientStorageChange a key prevalue => setTransientState a key prevalue
  end.

(** The dirty counter of a reverted entry. *)
Definition undirty (e : JournalEntry) (ds : gmap Z Z) : gmap Z Z :=
  match Dirtied e with
  | None => ds
  | Some addr =>
      let c := default 0 (ds !! addr) - 1 in
      if c =? 0 then delete addr ds else <[addr := c]> ds
  end.

(** The loop of [journal.Revert] over the entries from the last one down. *)
Fixpoint revert_entries (l : list JournalEntry) : SM K unit :=
  match l with
  | [] => ret tt
  | e :: l' =>
      do! Revert e ;;
      do! modify (fun s => with_journal (entries s) (undirty e (dirties s)) s) ;;
      revert_entries l'
  end.

Definition journal_Revert (snapshot : nat) : SM K unit :=
  let! s := get in
  do! revert_entries (reverse (drop snapshot (entries s))) ;;
  modify (fun s => with_journal (take snapshot (entries s)) (dirties s) s).

Definition Snapshot : SM K Z :=
  let! s := get in
  let id := nextRevisionID s in
  do! modify (fun s => with_revisions (validRevisions s ++ [(id, length (entries s))]) (id + 1) s) ;;
  ret id.

(** [sort.Search]: the first index whose identifier reaches [revid]. *)
Fixpoint search_revision (revid : Z) (l : list (Z * nat)) : nat :=
  match l with
  | [] => 0%nat
  | (id, _) :: l' => if revid <=? id then 0%nat else S (search_revision revid l')
  end.

Definition RevertToSnapshot (revid : Z) : SM K unit :=
  let! s := get in
  let idx := search_revision revid (validRevisions s) in
  match validRevisions s !! idx with
  | None => panic
  | Some (id, journalIndex) =>
      if negb (id =? revid) then panic
      else
        do! journal_Revert journalIndex ;;
        modify (fun s => with_revisions (take idx (validRevisions s)) (nextRevisionID s) s)
  end.

(** ** Commit *)

Definition sortedDirties s : list Z := (iterate Z.leb (dirties s)).*1.

Fixpoint commit_storage (addr : Z) (o : stateObject) (keys : list Z) (k : K) : K :=
  match keys with
  | [] => k
  | key :: keys' =>
      let value := default 0 (dirtyStorage o !! key) in
      let k' := if value =? default 0 (originStorage o !! key) then k
                else keeper_SetState k addr key value in
      commit_storage addr o keys' k'
  end.

(** One dirty address; a missing object is a nil dereference. *)
Definition commit_account (addr : Z) : SM K unit :=
  let! o := live addr in
  let! s := get in
  if suicided o || selfDestructed o then
    match keeper_DeleteAccount (keeper s) (address o) with
    | None => fail tt
    | Some k => modify (with_keeper k)
    end
  else
    let k1 := if bool_decide (is_Some (code o)) && dirtyCode o
              then keeper_SetCode (keeper s) (CodeHash (account o)) (code o)
              else keeper s in
    do! modify (with_keeper k1) ;;
    match keeper_SetAccount k1 (address o) (account o) with
    | None => fail tt
    | Some k2 =>
        modify (with_keeper
          (commit_storage (address o) o (SortedKeys (dirtyStorage o)) k2))
    end.

Definition Commit : SM K unit :=
  let! s := get in each commit_account (sortedDirties s).

End StateDB.
