(* ===== verification/StateDBFacts.v ===== *)
(** * x/evm/statedb: undoing the journal

    What a [StateDB] shows ([sim]): accounts, code, storage, flags, refund,
    logs, access list and transient storage, whether they are cached or still
    in the keeper.  Every operation of the API only adds journal entries, and
    undoing the entries it added shows the state before it ([journaled]). *)

From S2P Require Import Prelude StateDB.

Section Facts.
Context {K : Type} {HKeeper : Keeper K} {HHash : Hashing}.
Implicit Types (s t u : StateDB K) (o : stateObject).

(** ** What a state shows *)

(** The code, the committed and the current storage of an object. *)
Definition sem_code (k : K) o : option (list Z) :=
  match code o with
  | Some c => Some c
  | None => if CodeHash (account o) =? emptyCodeHash then None
            else keeper_GetCode k (CodeHash (account o))
  end.

Definition sem_committed (k : K) o (key : Z) : Z :=
  default (keeper_GetState k (address o) key) (originStorage o !! key).

Definition sem_state (k : K) o (key : Z) : Z :=
  default (sem_committed k o key) (dirtyStorage o !! key).

(** Every changed slot has its committed value in the cache. *)
Definition dirty_cached o : Prop :=
  forall key, is_Some (dirtyStorage o !! key) -> is_Some (originStorage o !! key).

(** [o1] shows what [o2] shows and caches at least what it caches. *)
Record obj_equiv (k : K) (o1 o2 : stateObject) : Prop := mkObjEquiv {
  eq_address : address o1 = address o2;
  eq_account : account o1 = account o2;
  eq_code : sem_code k o1 = sem_code k o2;
  eq_committed : forall key, sem_committed k o1 key = sem_committed k o2 key;
  eq_state : forall key, sem_state k o1 key = sem_state k o2 key;
  eq_suicided : suicided o1 = suicided o2;
  eq_destructed : selfDestructed o1 = selfDestructed o2;
  eq_created : created o1 = created o2;
  eq_origin : originStorage o2 ⊆ originStorage o1;
  eq_cached : dirty_cached o2 -> dirty_cached o1;
  eq_dirty_code : dirtyCode o2 = true -> dirtyCode o1 = true;
}.

#[global] Instance obj_equiv_refl k : Reflexive (obj_equiv k).
Proof. by constructor. Qed.
#[global] Instance obj_equiv_trans k : Transitive (obj_equiv k).
Proof. intros x y z [] []. constructor; intros; auto; etrans; eauto. Qed.

(** The caches of an object agree with the keeper. *)
Record stored_ok (k : K) o : Prop := mkStored {
  st_origin : forall key v, originStorage o !! key = Some v -> v = keeper_GetState k (address o) key;
  st_dirty : dirty_cached o;
  st_code : forall c, code o = Some c -> dirtyCode o = false ->
    keeper_GetCode k (CodeHash (account o)) = Some c;
}.

Lemma obj_equiv_stored k o1 o2 : obj_equiv k o1 o2 -> stored_ok k o2 -> stored_ok k o1.
Proof.
  intros [Ha Hacc Hc Hcm _ _ _ _ Ho Hca Hdc] [H1 H2 H3]. constructor; [|auto|].
  - intros key v Hv. specialize (Hcm key). unfold sem_committed in Hcm. rewrite Hv, Ha in *.
    simpl in Hcm. destruct (originStorage o2 !! key) eqn:Hv2; simpl in Hcm; [|done].
    rewrite Hcm. by apply H1.
  - intros c Hco Hd. rewrite Hacc. unfold sem_code in Hc. rewrite Hco in Hc.
    destruct (code o2) as [c2|] eqn:Hc2.
    + simplify_eq. apply H3; [done|]. destruct (dirtyCode o2) eqn:E; [|done].
      rewrite Hdc in Hd; done.
    + by destruct (_ =? _).
Qed.

Lemma stored_new k a acct : stored_ok k (newObject a acct).
Proof. constructor; try done. by intros key [? ?]. Qed.

(** The object of an address: the live one, or a fresh one of the keeper. *)
Definition obj_at s (addr : Z) : option stateObject :=
  match stateObjects s !! addr with
  | Some o => Some o
  | None => newObject addr <$> keeper_GetAccount (keeper s) addr
  end.

(** [sim s t]: [s] shows what [t] shows and caches at least its objects. *)
Record sim s t : Prop := mkSim {
  sim_keeper : keeper s = keeper t;
  sim_objects : forall a, option_Forall2 (obj_equiv (keeper t)) (obj_at s a) (obj_at t a);
  sim_live : forall a, is_Some (stateObjects t !! a) -> is_Some (stateObjects s !! a);
  sim_dirties : dirties s = dirties t;
  sim_config : txConfig s = txConfig t;
  sim_refund : refund s = refund t;
  sim_logs : logs s = logs t;
  sim_access : access s = access t;
  sim_transient : forall a key, transient_Get (transient s) a key = transient_Get (transient t) a key;
}.

#[global] Instance sim_refl : Reflexive sim.
Proof. intros s. by constructor. Qed.

#[global] Instance sim_trans : Transitive sim.
Proof.
  intros s t u [] []. constructor; try congruence; auto.
  intros a. etrans; [|apply sim_objects1]. rewrite <- sim_keeper1. apply sim_objects0.
Qed.

(** ** Live objects *)

Definition put (a : Z) o s : StateDB K := with_objects (<[a := o]> (stateObjects s)) s.

Definition load (a : Z) s : StateDB K :=
  match obj_at s a with Some o => put a o s | None => s end.

Lemma put_same a o s : stateObjects s !! a = Some o -> put a o s = s.
Proof. intros Ha. unfold put. rewrite insert_id by done. by destruct s. Qed.

Lemma put_put a o o' s : put a o (put a o' s) = put a o s.
Proof. unfold put. simpl. by rewrite insert_insert_eq. Qed.

Lemma obj_at_put a o s b : obj_at (put a o s) b = if decide (a = b) then Some o else obj_at s b.
Proof.
  unfold obj_at, put. simpl. case_decide as Hd.
  - subst. by rewrite lookup_insert_eq.
  - by rewrite lookup_insert_ne.
Qed.

Lemma put_live a o s b :
  is_Some (stateObjects s !! b) -> is_Some (stateObjects (put a o s) !! b).
Proof.
  unfold put. simpl. intros Hb. destruct (decide (a = b)) as [->|].
  - rewrite lookup_insert_eq. eauto.
  - by rewrite lookup_insert_ne.
Qed.

Lemma getStateObject_eq a s : getStateObject a s = (Ret (obj_at s a), load a s).
Proof.
  unfold getStateObject, load, obj_at. rewrite bind_get.
  destruct (stateObjects s !! a) as [o|] eqn:Ha.
  - by rewrite put_same.
  - by destruct (keeper_GetAccount (keeper s) a).
Qed.

Lemma obj_at_load a s b : obj_at (load a s) b = obj_at s b.
Proof.
  unfold load. destruct (obj_at s a) as [o|] eqn:Ha; [|done].
  rewrite obj_at_put. by case_decide; simplify_eq.
Qed.

Lemma sim_put a o o' s :
  obj_at s a = Some o' -> obj_equiv (keeper s) o o' -> sim (put a o s) s.
Proof.
  intros Ha Heq. constructor; try done.
  - intros b. rewrite obj_at_put. case_decide as Hd.
    + subst. rewrite Ha. by constructor.
    + destruct (obj_at s b); by constructor.
  - intros b. apply put_live.
Qed.

Lemma sim_load a s : sim (load a s) s.
Proof.
  unfold load. destruct (obj_at s a) as [o|] eqn:Ha; [|done]. by eapply sim_put.
Qed.

(** [update_object] on an address with an object. *)
Lemma update_object_eq a f o s :
  stateObjects s !! a = Some o -> update_object a f s = (Ret tt, put a (f o) s).
Proof.
  intros Ha. unfold update_object, modify, put. do 2 f_equal.
  apply map_eq. intros b. destruct (decide (a = b)) as [->|].
  - by rewrite lookup_alter_eq, Ha, lookup_insert_eq.
  - by rewrite lookup_alter_ne, lookup_insert_ne.
Qed.

Lemma load_lookup a o s : obj_at s a = Some o -> stateObjects (load a s) !! a = Some o.
Proof. intros Ha. unfold load. rewrite Ha. unfold put. simpl. apply lookup_insert_eq. Qed.

Lemma load_update a f o s :
  obj_at s a = Some o -> update_object a f (load a s) = (Ret tt, put a (f o) s).
Proof.
  intros Ha. rewrite (update_object_eq _ _ o) by (by apply load_lookup).
  unfold load. by rewrite Ha, put_put.
Qed.

(** ** Reverting respects what is shown *)

Definition respects (f : stateObject -> stateObject) : Prop :=
  forall k o1 o2, obj_equiv k o1 o2 -> obj_equiv k (f o1) (f o2).

Lemma respects_balance x : respects (obj_setBalance x).
Proof.
  intros k o1 o2 [Ha Hac Hc Hcm Hst Hs Hd Hcr Hor Hca Hdc]. unfold obj_setBalance. rewrite <- Hac.
  constructor; try done. unfold sem_code in *. simpl. by rewrite Hac in *.
Qed.
Lemma respects_nonce x : respects (obj_setNonce x).
Proof.
  intros k o1 o2 [Ha Hac Hc Hcm Hst Hs Hd Hcr Hor Hca Hdc]. unfold obj_setNonce. rewrite <- Hac.
  constructor; try done. unfold sem_code in *. simpl. by rewrite Hac in *.
Qed.
Lemma respects_code h c : respects (obj_setCode h c).
Proof.
  intros k o1 o2 [Ha Hac Hc Hcm Hst Hs Hd Hcr Hor Hca Hdc]. unfold obj_setCode. rewrite <- Hac.
  by constructor.
Qed.
Lemma dirty_cached_set key v o :
  dirty_cached (obj_setState key v o) <-> dirty_cached o /\ is_Some (originStorage o !! key).
Proof.
  unfold dirty_cached, obj_setState. simpl. split.
  - intros H. split.
    + intros k Hk. apply H. destruct (decide (key = k)) as [->|].
      * rewrite lookup_insert_eq. eauto.
      * by rewrite lookup_insert_ne.
    + apply H. rewrite lookup_insert_eq. eauto.
  - intros [H Hkey] k. destruct (decide (key = k)) as [->|]; [done|].
    rewrite lookup_insert_ne by done. apply H.
Qed.

Lemma respects_state key v : respects (obj_setState key v).
Proof.
  intros k o1 o2 [Ha Hac Hc Hcm Hst Hs Hd Hcr Hor Hca Hdc]. constructor; try done.
  - intros key'. unfold sem_state, obj_setState. simpl.
    destruct (decide (key = key')) as [->|].
    + by rewrite !lookup_insert_eq.
    + rewrite !lookup_insert_ne by done. apply Hst.
  - rewrite !dirty_cached_set. intros [H [x Hx]]. split; [auto|].
    exists x. by eapply lookup_weaken.
Qed.
Lemma respects_suicided b : respects (set_suicided b).
Proof. by intros k o1 o2 []. Qed.
Lemma respects_destructed b : respects (set_destructed b).
Proof. by intros k o1 o2 []. Qed.
Hint Resolve respects_balance respects_nonce respects_code respects_state respects_suicided
  respects_destructed : core.

Lemma sim_put_both a o1 o2 s t :
  sim s t -> obj_equiv (keeper t) o1 o2 -> sim (put a o1 s) (put a o2 t).
Proof.
  intros [] Ho. constructor; try done.
  - intros b. rewrite !obj_at_put. case_decide; [by constructor|]. apply sim_objects0.
  - intros b. unfold put. simpl. destruct (decide (a = b)) as [->|].
    + rewrite !lookup_insert_eq. eauto.
    + rewrite !lookup_insert_ne by done. apply sim_live0.
Qed.

Lemma sim_load_both a s t : sim s t -> sim (load a s) (load a t).
Proof.
  intros Hs. unfold load. pose proof (sim_objects _ _ Hs a) as Ha.
  destruct Ha as [o1 o2 Ho|]; [|done]. by apply sim_put_both.
Qed.

Lemma sim_journal es1 es2 ds s t :
  sim s t -> sim (with_journal es1 ds s) (with_journal es2 ds t).
Proof. by intros []. Qed.

Lemma revert_object_sim a f s t t' :
  respects f -> sim s t -> revert_object a f t = (Ret tt, t') ->
  exists s', revert_object a f s = (Ret tt, s') /\ sim s' t'.
Proof.
  intros Hf Hs. unfold revert_object, bind. rewrite !getStateObject_eq.
  pose proof (sim_objects _ _ Hs a) as Ha.
  destruct (obj_at t a) as [o2|] eqn:Ht; [|done].
  destruct (obj_at s a) as [o1|] eqn:Hsa; [|by inversion Ha].
  rewrite (load_update _ _ o2), (load_update _ _ o1) by done. intros [= <-].
  eexists. split; [done|]. apply sim_put_both; [done|]. apply Hf. by inversion Ha.
Qed.

(** The same for the entries that ignore a missing account. *)
Lemma revert_flag_sim a f s t t' :
  respects f -> sim s t ->
  (let! obj := getStateObject a in
   match obj with Some _ => update_object a f | None => ret tt end) t = (Ret tt, t') ->
  exists s', (let! obj := getStateObject a in
   match obj with Some _ => update_object a f | None => ret tt end) s = (Ret tt, s') /\ sim s' t'.
Proof.
  intros Hf Hs. unfold bind. rewrite !getStateObject_eq.
  pose proof (sim_objects _ _ Hs a) as Ha.
  destruct (obj_at t a) as [o2|] eqn:Ht; destruct (obj_at s a) as [o1|] eqn:Hsa;
    try by inversion Ha.
  - rewrite (load_update _ _ o2), (load_update _ _ o1) by done. intros [= <-].
    eexists. split; [done|]. apply sim_put_both; [done|]. apply Hf. by inversion Ha.
  - intros [= <-]. eexists. split; [done|]. by apply sim_load_both.
Qed.

Lemma respects_compose f g : respects f -> respects g -> respects (fun o => f (g o)).
Proof. intros Hf Hg k o1 o2 H. auto. Qed.

Lemma Revert_sim e s t t' :
  sim s t -> Revert e t = (Ret tt, t') -> exists s', Revert e s = (Ret tt, s') /\ sim s' t'.
Proof.
  intros Hs. destruct e; simpl.
  - intros ->%modify_Ret. eexists. split; [done|]. destruct Hs. constructor; try done.
    + intros b. unfold obj_at in *. simpl. destruct (decide (acct = b)) as [->|].
      * rewrite !lookup_delete_eq, sim_keeper0. destruct (newObject b <$> _); by constructor.
      * rewrite !lookup_delete_ne by done. apply sim_objects0.
    + intros b. simpl. destruct (decide (acct = b)) as [->|].
      * rewrite lookup_delete_eq. by intros [? ?].
      * rewrite !lookup_delete_ne by done. apply sim_live0.
  - intros ->%modify_Ret. eexists. split; [done|]. by apply sim_put_both.
  - apply revert_flag_sim; [apply respects_compose; auto|done].
  - apply revert_flag_sim; [apply respects_compose; auto|done].
  - by apply revert_object_sim.
  - by apply revert_object_sim.
  - by apply revert_object_sim.
  - by apply revert_object_sim.
  - intros ->%modify_Ret. eexists. split; [done|]. by destruct Hs.
  - rewrite !bind_get, (sim_logs _ _ Hs). case_bool_decide; [by intros ?%panic_Ret|].
    intros ->%modify_Ret. eexists. split; [done|]. destruct Hs. constructor; try done.
    simpl. by rewrite sim_logs0.
  - intros ->%modify_Ret. eexists. split; [done|]. destruct Hs. constructor; try done.
    simpl. by rewrite sim_access0.
  - rewrite !bind_get, (sim_access _ _ Hs). case_match; [|by intros ?%panic_Ret].
    intros ->%modify_Ret. eexists. split; [done|]. by destruct Hs.
  - intros ->%modify_Ret. eexists. split; [done|]. destruct Hs. constructor; try done.
    intros a k. unfold transient_Get, transient_Set in *. simpl.
    pose proof (sim_transient0 a k) as Hk. destruct (decide (acct = a)) as [->|].
    + rewrite !lookup_insert_eq. destruct (decide (key = k)) as [->|].
      * by rewrite !lookup_insert_eq.
      * rewrite !lookup_insert_ne by done.
        destruct (transient s !! a), (transient t !! a); simpl in *; rewrite ?lookup_empty in *; done.
    + by rewrite !lookup_insert_ne.
Qed.
Lemma revert_entries_sim l s t t' :
  sim s t -> revert_entries l t = (Ret tt, t') ->
  exists s', revert_entries l s = (Ret tt, s') /\ sim s' t'.
Proof.
  revert s t. induction l as [|e l IH]; intros s t Hs Hrun; simpl in *.
  { apply ret_Ret in Hrun as [_ <-]. by exists s. }
  apply bind_Ret in Hrun as ([] & t1 & Hrev & Hrun).
  apply bind_Ret in Hrun as ([] & t2 & ->%modify_Ret & Hrun).
  apply (Revert_sim _ s) in Hrev as (s1 & Hrev & Hs1); [|done].
  unfold bind at 1. rewrite Hrev. unfold bind, modify.
  apply (IH (with_journal (entries s1) (undirty e (dirties s1)) s1) _) in Hrun; [done|].
  rewrite (sim_dirties _ _ Hs1). by apply sim_journal.
Qed.

Lemma revert_entries_app l1 l2 s s' :
  revert_entries (l1 ++ l2) s = (Ret tt, s') <->
  exists s1, revert_entries l1 s = (Ret tt, s1) /\ revert_entries l2 s1 = (Ret tt, s').
Proof.
  revert s. induction l1 as [|e l1 IH]; intros s; simpl.
  { setoid_rewrite ret_Ret. naive_solver. }
  unfold bind at 1 3. destruct (Revert e s) as [[] s1]; try (split; [done|naive_solver]).
  unfold bind, modify. apply IH.
Qed.

(** ** Well-formed states *)

Record wf s : Prop := mkWf {
  wf_address : forall a o, stateObjects s !! a = Some o -> address o = a;
  wf_positive : forall a c, dirties s !! a = Some c -> 0 < c;
  wf_dirty_live : forall a, is_Some (dirties s !! a) -> is_Some (stateObjects s !! a);
  wf_stored : forall a o, stateObjects s !! a = Some o -> stored_ok (keeper s) o;
  wf_slots : forall i slotmap, slots (access s) !! i = Some slotmap -> slotmap <> ∅;
}.

Lemma wf_obj_at s a o : wf s -> obj_at s a = Some o -> address o = a.
Proof.
  intros Hwf. unfold obj_at. destruct (stateObjects s !! a) eqn:Ha.
  - intros [= <-]. by apply (wf_address s).
  - destruct (keeper_GetAccount (keeper s) a); simpl; [|done]. by intros [= <-].
Qed.

Lemma stored_obj_at s a o : wf s -> obj_at s a = Some o -> stored_ok (keeper s) o.
Proof.
  intros Hwf. unfold obj_at. destruct (stateObjects s !! a) eqn:Ha.
  - intros [= <-]. by apply (wf_stored s Hwf a).
  - destruct (keeper_GetAccount (keeper s) a); simpl; [|done]. intros [= <-].
    apply stored_new.
Qed.

Lemma wf_put a o s : wf s -> address o = a -> stored_ok (keeper s) o -> wf (put a o s).
Proof.
  intros [] Ha Hst. constructor.
  - intros b o'. unfold put. simpl. rewrite lookup_insert_Some.
    intros [[<- <-]|[_ Hb]]; [done|auto].
  - done.
  - intros b Hb. apply put_live. auto.
  - intros b o'. unfold put. simpl. rewrite lookup_insert_Some.
    intros [[<- <-]|[_ Hb]]; [done|eauto].
  - done.
Qed.

Lemma wf_load a s : wf s -> wf (load a s).
Proof.
  intros Hwf. unfold load. destruct (obj_at s a) as [o|] eqn:Ha; [|done].
  apply wf_put; [done|by eapply wf_obj_at|by eapply stored_obj_at].
Qed.

(** Appending an entry for a live account. *)
Lemma wf_append e s :
  wf s -> (forall a, Dirtied e = Some a -> is_Some (stateObjects s !! a)) ->
  wf (journal_append e s).
Proof.
  intros [] He. constructor; simpl; [done| | |done|done].
  - intros a c. destruct (Dirtied e) as [b|]; [|apply wf_positive0]. rewrite lookup_insert_Some.
    intros [[<- <-]|[_ Ha]]; [|eauto].
    destruct (dirties s !! b) eqn:Hb; simpl; [|lia]. apply wf_positive0 in Hb. lia.
  - intros a. destruct (Dirtied e) as [b|]; [|auto].
    destruct (decide (b = a)) as [->|]; [auto|]. rewrite lookup_insert_ne by done. auto.
Qed.

Lemma undirty_append e s :
  wf s -> undirty e (dirties (journal_append e s)) = dirties s.
Proof.
  intros Hwf. unfold undirty, journal_append. simpl. destruct (Dirtied e) as [a|]; [|done].
  rewrite lookup_insert_eq. simpl. replace (default 0 (dirties s !! a) + 1 - 1)
    with (default 0 (dirties s !! a)) by lia.
  destruct (dirties s !! a) as [c|] eqn:Ha; simpl.
  - apply (wf_positive s Hwf) in Ha as Hc. replace (c =? 0) with false by lia.
    rewrite insert_insert_eq. by apply insert_id.
  - by apply delete_insert_id.
Qed.

(** ** Undoing *)

(** Undoing the entries [es] of [s] shows [u]. *)
Definition undoes (es : list JournalEntry) s u : Prop :=
  exists s', revert_entries (reverse es) s = (Ret tt, s') /\ sim s' u.

Lemma undoes_nil s u : sim s u -> undoes [] s u.
Proof. intros. by exists s. Qed.

Lemma undoes_app es1 es2 s1 s2 u :
  undoes es1 s1 u -> undoes es2 s2 s1 -> undoes (es1 ++ es2) s2 u.
Proof.
  intros (t1 & H1 & Hs1) (t2 & H2 & Hs2).
  destruct (revert_entries_sim _ _ _ _ Hs2 H1) as (t3 & H3 & Hs3).
  exists t3. split; [|by etrans]. rewrite reverse_app. apply revert_entries_app. eauto.
Qed.

(** Undoing one entry, given what its [Revert] does. *)
Lemma undoes_one e s s1 u :
  Revert e s = (Ret tt, s1) ->
  sim (with_journal (entries s1) (undirty e (dirties s1)) s1) u -> undoes [e] s u.
Proof.
  intros Hrev Hs. eexists. split; [|exact Hs].
  simpl. unfold bind, modify. by rewrite Hrev.
Qed.

(** From [s] to [s'] only entries were added, and undoing them shows [s]. *)
Definition stepped s s' : Prop :=
  wf s' /\ validRevisions s' = validRevisions s /\ nextRevisionID s' = nextRevisionID s /\
  exists es, entries s' = entries s ++ es /\ undoes es s' s.

Definition journaled {A} (c : SM K A) : Prop :=
  forall s x s', wf s -> c s = (Ret x, s') -> stepped s s'.

Lemma journaled_ret {A} (x : A) : journaled (ret x).
Proof.
  intros s y s' Hwf [_ <-]%ret_Ret. split_and!; try done. exists [].
  rewrite app_nil_r. split; [done|]. by apply undoes_nil.
Qed.

Lemma journaled_bind {A C} (c : SM K A) (k : A -> SM K C) :
  journaled c -> (forall x, journaled (k x)) -> journaled (bind c k).
Proof.
  intros Hc Hk s y s' Hwf Hrun. apply bind_Ret in Hrun as (x & s1 & H1 & H2).
  apply Hc in H1 as (Hwf1 & Hr1 & Hn1 & es1 & He1 & Hu1); [|done].
  apply Hk in H2 as (Hwf2 & Hr2 & Hn2 & es2 & He2 & Hu2); [|done].
  split_and!; [done|congruence|congruence|]. exists (es1 ++ es2). split.
  - by rewrite He2, He1, app_assoc.
  - by eapply undoes_app.
Qed.

Lemma journaled_get_bind {A} (k : StateDB K -> SM K A) :
  (forall s x s', wf s -> k s s = (Ret x, s') ->
    stepped s s') ->
  journaled (bind get k).
Proof. intros Hk s x s' Hwf. rewrite bind_get. by apply Hk. Qed.

Lemma journaled_panic {A} : journaled (A := A) panic.
Proof. by intros s x s' _ ?%panic_Ret. Qed.

(** A step that leaves the journal alone and shows the same state. *)
Lemma step_silent s s' :
  wf s' -> sim s' s -> validRevisions s' = validRevisions s ->
  nextRevisionID s' = nextRevisionID s -> entries s' = entries s ->
  stepped s s'.
Proof.
  intros. split_and!; try done. exists []. rewrite app_nil_r. split; [done|].
  by apply undoes_nil.
Qed.

Lemma load_fields a s :
  entries (load a s) = entries s /\ validRevisions (load a s) = validRevisions s /\
  nextRevisionID (load a s) = nextRevisionID s /\ keeper (load a s) = keeper s /\
  dirties (load a s) = dirties s.
Proof. unfold load. by destruct (obj_at s a). Qed.

Lemma getStateObject_journaled a : journaled (getStateObject a).
Proof.
  intros s x s' Hwf Hrun. rewrite getStateObject_eq in Hrun. injection Hrun as _ <-.
  destruct (load_fields a s) as (? & ? & ? & _).
  apply step_silent; try done; [by apply wf_load|apply sim_load].
Qed.

(** ** One change of a live object *)

Lemma change_step a e f g o s :
  wf s -> stateObjects s !! a = Some o -> Dirtied e = Some a ->
  (forall s1 o1, stateObjects s1 !! a = Some o1 -> Revert e s1 = (Ret tt, put a (g o1) s1)) ->
  address (f o) = a -> stored_ok (keeper s) (f o) -> obj_equiv (keeper s) (g (f o)) o ->
  let s' := put a (f o) (journal_append e s) in
  stepped s s'.
Proof.
  intros Hwf Ho He Hrev Haddr Hst Hg s'. unfold stepped. split_and!; try done.
  - apply wf_put; [|done|done]. apply wf_append; [done|]. intros b. rewrite He. intros [= <-]. eauto.
  - exists [e]. split; [done|]. eapply undoes_one.
    + apply Hrev. unfold s', put. simpl. apply lookup_insert_eq.
    + unfold s'. rewrite put_put.
      change (dirties (put a (g (f o)) (journal_append e s))) with (dirties (journal_append e s)).
      rewrite undirty_append by done. eapply sim_trans; [|eapply (sim_put a (g (f o)) o s)].
      * by apply (sim_journal (entries s ++ [e]) (entries s) (dirties s)
          (put a (g (f o)) s) (put a (g (f o)) s)).
      * unfold obj_at. by rewrite Ho.
      * done.
Qed.

(** [Revert] of an object change on a live object. *)
Lemma revert_object_live a g s o :
  stateObjects s !! a = Some o -> revert_object a g s = (Ret tt, put a (g o) s).
Proof.
  intros Ho. unfold revert_object, bind. rewrite getStateObject_eq.
  assert (obj_at s a = Some o) as Ha by (unfold obj_at; by rewrite Ho).
  rewrite Ha. by apply load_update.
Qed.

Lemma live_Ret a s o s' :
  live a s = (Ret o, s') -> stateObjects s !! a = Some o /\ s' = s.
Proof. unfold live. rewrite bind_get. case_match; intros; minv; auto. Qed.
Lemma revert_flag_live a g s o :
  stateObjects s !! a = Some o ->
  (let! obj := getStateObject a in
   match obj with Some _ => update_object a g | None => ret tt end) s = (Ret tt, put a (g o) s).
Proof.
  intros Ho. unfold bind. rewrite getStateObject_eq.
  assert (obj_at s a = Some o) as Ha by (unfold obj_at; by rewrite Ho).
  rewrite Ha. by apply load_update.
Qed.

(** [append e ;; update_object a f] on a live object. *)
Lemma append_update e a f o s s' x :
  (do! append e ;; update_object a f) s = (Ret x, s') ->
  stateObjects s !! a = Some o -> s' = put a (f o) (journal_append e s).
Proof.
  intros Hrun Ho. unfold bind, append, modify in Hrun.
  rewrite (update_object_eq a f o) in Hrun by done. congruence.
Qed.

Lemma obj_SetBalance_journaled a x : journaled (obj_SetBalance a x).
Proof.
  intros s y s' Hwf Hrun. unfold obj_SetBalance in Hrun.
  apply bind_Ret in Hrun as (o & s1 & [Ho ->]%live_Ret & Hrun).
  rewrite (append_update _ _ _ _ _ _ _ Hrun Ho).
  eapply (change_step a _ _ (obj_setBalance (Balance (account o))) o); try done.
  - intros. by apply revert_object_live.
  - apply (wf_address s Hwf a o Ho).
  - by destruct (wf_stored s Hwf a o Ho).
  - destruct o as [[]]. by constructor.
Qed.

Lemma obj_SetNonce_journaled a x : journaled (obj_SetNonce a x).
Proof.
  intros s y s' Hwf Hrun. unfold obj_SetNonce in Hrun.
  apply bind_Ret in Hrun as (o & s1 & [Ho ->]%live_Ret & Hrun).
  rewrite (append_update _ _ _ _ _ _ _ Hrun Ho).
  eapply (change_step a _ _ (obj_setNonce (Nonce (account o))) o); try done.
  - intros. by apply revert_object_live.
  - apply (wf_address s Hwf a o Ho).
  - by destruct (wf_stored s Hwf a o Ho).
  - destruct o as [[]]. by constructor.
Qed.

(** Caching a value the keeper would give shows nothing new. *)
Lemma cache_step a f o s :
  wf s -> stateObjects s !! a = Some o -> address (f o) = a -> obj_equiv (keeper s) (f o) o ->
  let s' := put a (f o) s in
  stepped s s'.
Proof.
  intros Hwf Ho Ha Heq s'. apply step_silent; try done.
  { apply wf_put; [done|done|]. eapply obj_equiv_stored; [done|]. by apply (wf_stored s Hwf a). }
  eapply sim_put; [|done]. unfold obj_at. by rewrite Ho.
Qed.

(** The result and the effect of the reads that cache. *)
Lemma obj_Code_Ret a s c s' :
  obj_Code a s = (Ret c, s') -> wf s ->
  exists o o', stateObjects s !! a = Some o /\ s' = put a o' s /\
    address o' = address o /\ obj_equiv (keeper s) o' o /\ c = sem_code (keeper s) o'.
Proof.
  unfold obj_Code. intros Hrun Hwf. apply bind_Ret in Hrun as (o & s1 & [Ho ->]%live_Ret & Hrun).
  destruct (code o) as [c'|] eqn:Hc.
  { apply ret_Ret in Hrun as [<- <-]. exists o, o. rewrite put_same by done.
    split_and!; try done. unfold sem_code. by rewrite Hc. }
  destruct (CodeHash (account o) =? emptyCodeHash) eqn:He.
  { apply ret_Ret in Hrun as [<- <-]. exists o, o. rewrite put_same by done.
    split_and!; try done. unfold sem_code. by rewrite Hc, He. }
  rewrite bind_get in Hrun. apply bind_Ret in Hrun as (? & s2 & Hupd & [<- <-]%ret_Ret).
  rewrite (update_object_eq _ _ o) in Hupd by done. injection Hupd as _ <-.
  exists o, (set_code (keeper_GetCode (keeper s) (CodeHash (account o))) o).
  assert (sem_code (keeper s) (set_code (keeper_GetCode (keeper s) (CodeHash (account o))) o)
          = keeper_GetCode (keeper s) (CodeHash (account o))) as Hsem.
  { unfold sem_code. simpl. rewrite He. by destruct (keeper_GetCode _ _). }
  split_and!; try done. constructor; try done. rewrite Hsem. unfold sem_code. by rewrite Hc, He.
Qed.

Lemma obj_GetCommittedState_Ret a key s v s' :
  obj_GetCommittedState a key s = (Ret v, s') -> wf s ->
  exists o o', stateObjects s !! a = Some o /\ s' = put a o' s /\
    address o' = address o /\ is_Some (originStorage o' !! key) /\
    obj_equiv (keeper s) o' o /\ v = sem_committed (keeper s) o key.
Proof.
  unfold obj_GetCommittedState. intros Hrun Hwf.
  apply bind_Ret in Hrun as (o & s1 & [Ho ->]%live_Ret & Hrun).
  pose proof (wf_address s Hwf _ _ Ho) as Ha.
  destruct (originStorage o !! key) as [v'|] eqn:Hv.
  { apply ret_Ret in Hrun as [<- <-]. exists o, o. rewrite put_same by done.
    split_and!; try done. unfold sem_committed. by rewrite Hv. }
  rewrite bind_get in Hrun. apply bind_Ret in Hrun as (? & s2 & Hupd & [<- <-]%ret_Ret).
  rewrite (update_object_eq _ _ o) in Hupd by done. injection Hupd as _ <-.
  eexists o, _. split_and!; try done.
  { simpl. rewrite lookup_insert_eq. eauto. }
  2: { unfold sem_committed. by rewrite Hv, Ha. }
  assert (forall k, sem_committed (keeper s)
    (set_origin (<[key := keeper_GetState (keeper s) a key]> (originStorage o)) o) k =
    sem_committed (keeper s) o k) as Hcm.
  { intros k. unfold sem_committed. simpl. destruct (decide (key = k)) as [->|].
    - by rewrite lookup_insert_eq, Hv, Ha.
    - by rewrite lookup_insert_ne. }
  constructor; try done.
  - intros k. unfold sem_state. simpl. by rewrite Hcm.
  - simpl. by apply insert_subseteq.
  - intros Hc k Hk. simpl. destruct (decide (key = k)) as [->|].
    + rewrite lookup_insert_eq. eauto.
    + rewrite lookup_insert_ne by done. by apply Hc.
Qed.

Lemma obj_GetState_Ret a key s v s' :
  obj_GetState a key s = (Ret v, s') -> wf s ->
  exists o o', stateObjects s !! a = Some o /\ s' = put a o' s /\
    address o' = address o /\ is_Some (originStorage o' !! key) /\
    obj_equiv (keeper s) o' o /\ v = sem_state (keeper s) o key.
Proof.
  unfold obj_GetState. intros Hrun Hwf.
  apply bind_Ret in Hrun as (o & s1 & [Ho ->]%live_Ret & Hrun).
  destruct (dirtyStorage o !! key) as [v'|] eqn:Hv.
  { apply ret_Ret in Hrun as [<- <-]. exists o, o. rewrite put_same by done.
    split_and!; try done; [|unfold sem_state; by rewrite Hv].
    apply (st_dirty _ _ (wf_stored s Hwf a o Ho)). eauto. }
  apply obj_GetCommittedState_Ret in Hrun as (o1 & o' & Ho1 & -> & Ha & Hor & Heq & ->); [|done].
  simplify_eq. exists o, o'. split_and!; try done. unfold sem_state. by rewrite Hv.
Qed.

Lemma obj_Code_journaled a : journaled (obj_Code a).
Proof.
  intros s c s' Hwf Hrun. apply obj_Code_Ret in Hrun as (o & o' & Ho & -> & Ha & Heq & _); [|done].
  pose proof (wf_address s Hwf _ _ Ho).
  apply (cache_step a (fun _ => o') o); try done. congruence.
Qed.

Lemma obj_GetCommittedState_journaled a key : journaled (obj_GetCommittedState a key).
Proof.
  intros s v s' Hwf Hrun.
  apply obj_GetCommittedState_Ret in Hrun as (o & o' & Ho & -> & Ha & _ & Heq & _); [|done].
  pose proof (wf_address s Hwf _ _ Ho).
  apply (cache_step a (fun _ => o') o); try done. congruence.
Qed.

Lemma obj_GetState_journaled a key : journaled (obj_GetState a key).
Proof.
  intros s v s' Hwf Hrun.
  apply obj_GetState_Ret in Hrun as (o & o' & Ho & -> & Ha & _ & Heq & _); [|done].
  pose proof (wf_address s Hwf _ _ Ho).
  apply (cache_step a (fun _ => o') o); try done. congruence.
Qed.

(** Two steps in a row, the first of which caches. *)
Lemma step_after s s1 s' :
  stepped s s1 ->
  stepped s1 s' ->
  stepped s s'.
Proof.
  intros (_ & Hr1 & Hn1 & es1 & He1 & Hu1) (Hwf & Hr & Hn & es2 & He2 & Hu2).
  split_and!; [done|congruence|congruence|]. exists (es1 ++ es2). split.
  - by rewrite He2, He1, app_assoc.
  - by eapply undoes_app.
Qed.

Lemma obj_SetCode_journaled a h c : journaled (obj_SetCode a h c).
Proof.
  intros s y s' Hwf Hrun. unfold obj_SetCode in Hrun.
  apply bind_Ret in Hrun as (prev & s1 & Hcode & Hrun).
  pose proof (obj_Code_journaled _ _ _ _ Hwf Hcode) as Hstep.
  apply obj_Code_Ret in Hcode as (o0 & o & Ho0 & -> & Ha & _ & ->); [|done].
  apply bind_Ret in Hrun as (o' & ? & [Ho ->]%live_Ret & Hrun).
  assert (o' = o) as -> by (unfold put in Ho; simpl in Ho; rewrite lookup_insert_eq in Ho; congruence).
  rewrite (append_update _ _ _ _ _ _ _ Hrun Ho).
  apply (step_after _ _ _ Hstep).
  eapply (change_step a _ _ (obj_setCode (CodeHash (account o)) (sem_code (keeper s) o)) o);
    try done.
  - apply Hstep.
  - intros. by apply revert_object_live.
  - apply (wf_address s) in Ho0; [|done]. simpl. congruence.
  - by destruct (wf_stored _ (proj1 Hstep) a o Ho).
  - constructor; try done; [by destruct o as [[]]|].
    unfold sem_code at 1. simpl. destruct (sem_code (keeper s) o) eqn:Hsem; [done|].
    unfold sem_code in Hsem. destruct (code o); [done|]. by rewrite Hsem.
Qed.

Lemma obj_SetState_journaled a key v : journaled (obj_SetState a key v).
Proof.
  intros s y s' Hwf Hrun. unfold obj_SetState in Hrun.
  apply bind_Ret in Hrun as (prev & s1 & Hget & Hrun).
  pose proof (obj_GetState_journaled _ _ _ _ _ Hwf Hget) as Hstep.
  apply obj_GetState_Ret in Hget as (o0 & o & Ho0 & -> & Ha & Hor & Heq & ->); [|done].
  case_match; [apply ret_Ret in Hrun as [_ <-]; done|].
  assert (stateObjects (put a o s) !! a = Some o) as Ho by apply lookup_insert_eq.
  rewrite (append_update _ _ _ _ _ _ _ Hrun Ho).
  apply (step_after _ _ _ Hstep).
  eapply (change_step a _ _ (obj_setState key (sem_state (keeper s) o0 key)) o); try done.
  - apply Hstep.
  - intros. by apply revert_object_live.
  - apply (wf_address s) in Ho0; [|done]. simpl. congruence.
  - destruct (wf_stored _ (proj1 Hstep) a o Ho). constructor; try done.
    by apply dirty_cached_set.
  - constructor; try done.
    + intros k. unfold sem_state at 1. simpl. destruct (decide (key = k)) as [->|].
      * rewrite lookup_insert_eq. simpl. symmetry. apply (eq_state _ _ _ Heq).
      * by rewrite !lookup_insert_ne.
    + rewrite !dirty_cached_set. auto.
Qed.
End Facts.
