(* ===== verification/StateDBRevert.v ===== *)
(** * x/evm/statedb: snapshots restore the state

    Every operation of the API is [journaled]; snapshots may be nested, and
    reverting to one shows exactly the state it was taken in. *)

From S2P Require Import Prelude StateDB StateDBFacts.

Create HintDb journal.

Section Revert.
Context {K : Type} {HKeeper : Keeper K} {HHash : Hashing}.
Implicit Types (s t u : StateDB K) (o : stateObject).

(** ** Creating objects *)

(** Replacing the object of an address, journaled by the previous one. *)
Lemma reset_step a o p s :
  wf s -> stateObjects s !! a = Some p -> address o = a -> stored_ok (keeper s) o ->
  let s' := put a o (journal_append (resetObjectChange p) s) in
  stepped s s'.
Proof.
  intros Hwf Hp Ha Hst s'. pose proof (wf_address s Hwf _ _ Hp) as Hpa. split_and!; try done.
  - apply wf_put; [|done|done]. by apply wf_append.
  - exists [resetObjectChange p]. split; [done|]. eapply undoes_one.
    + simpl. unfold setStateObject, modify. rewrite Hpa. reflexivity.
    + simpl. rewrite insert_insert_eq, insert_id by done. by destruct s.
Qed.

Lemma create_step a o s :
  wf s -> obj_at s a = None -> address o = a -> stored_ok (keeper s) o ->
  let s' := put a o (journal_append (createObjectChange a) s) in
  stepped s s'.
Proof.
  intros Hwf Hnone Ha Hst s'.
  assert (stateObjects s !! a = None) as Hno.
  { unfold obj_at in Hnone. by destruct (stateObjects s !! a). }
  split_and!; try done.
  - assert (put a o (journal_append (createObjectChange a) s) =
            journal_append (createObjectChange a) (put a o s)) as Hcomm by done.
    unfold s'. rewrite Hcomm. apply wf_append; [by apply wf_put|].
    intros b [= <-]. unfold put. simpl. rewrite lookup_insert_eq. eauto.
  - exists [createObjectChange a]. split; [done|]. eapply undoes_one; [done|].
    assert (undirty (createObjectChange a) (dirties (journal_append (createObjectChange a) s))
            = dirties s) as Hd by (by apply undirty_append).
    simpl in Hd |- *. rewrite Hd, delete_insert_id by done. by destruct s.
Qed.

Lemma createObject_Ret a s p s' :
  createObject a s = (Ret p, s') -> wf s ->
  p = obj_at s a /\
  s' = match p with
       | None => put a (set_created true (newObject a NewEmptyAccount))
                   (journal_append (createObjectChange a) s)
       | Some q => put a (newObject a NewEmptyAccount)
                     (journal_append (resetObjectChange q) (load a s))
       end.
Proof.
  unfold createObject, bind. rewrite getStateObject_eq. intros Hrun Hwf.
  destruct (obj_at s a) as [q|] eqn:Hq; simpl in Hrun; injection Hrun as <- <-; split; try done.
  unfold load. by rewrite Hq.
Qed.

Lemma load_step a s :
  wf s ->
  stepped s (load a s).
Proof. intros Hwf. apply (getStateObject_journaled a s (obj_at s a)); [done|]. apply getStateObject_eq. Qed.

Lemma createObject_journaled a : journaled (createObject a).
Proof.
  intros s p s' Hwf Hrun. apply createObject_Ret in Hrun as [Hp ->]; [|done].
  destruct p as [q|].
  - apply (step_after _ (load a s)); [by apply load_step|].
    apply reset_step; [by apply wf_load|by apply load_lookup|done|].
    apply stored_new.
  - apply create_step; try done. by destruct (stored_new (keeper s) a NewEmptyAccount).
Qed.

Lemma CreateAccount_journaled a : journaled (CreateAccount a).
Proof.
  intros s y s' Hwf Hrun. unfold CreateAccount in Hrun.
  apply bind_Ret in Hrun as (p & s1 & Hcr & Hrun).
  pose proof (createObject_journaled _ _ _ _ Hwf Hcr) as Hstep.
  apply createObject_Ret in Hcr as [Hp ->]; [|done].
  destruct p as [q|]; [|apply ret_Ret in Hrun as [_ <-]; done].
  rewrite (update_object_eq _ _ (newObject a NewEmptyAccount)) in Hrun by apply lookup_insert_eq.
  injection Hrun as _ <-. rewrite put_put.
  apply (step_after _ (load a s)); [by apply load_step|].
  apply reset_step; [by apply wf_load|by apply load_lookup|done|].
  by destruct (stored_new (keeper (load a s)) a NewEmptyAccount).
Qed.

Lemma getOrNewStateObject_journaled a : journaled (getOrNewStateObject a).
Proof.
  apply journaled_bind; [apply getStateObject_journaled|]. intros [o|].
  - apply journaled_ret.
  - apply journaled_bind; [apply createObject_journaled|]. intros _. apply journaled_ret.
Qed.

(** ** Flags *)

Lemma Suicide_journaled a : journaled (Suicide a).
Proof.
  intros s y s' Hwf Hrun. unfold Suicide, bind in Hrun. rewrite getStateObject_eq in Hrun.
  destruct (obj_at s a) as [o|] eqn:Ho.
  2: { apply ret_Ret in Hrun as [_ <-]. by apply load_step. }
  apply (step_after _ (load a s)); [by apply load_step|].
  assert (stateObjects (load a s) !! a = Some o) as Hl by (by apply load_lookup).
  unfold append, modify in Hrun. rewrite (update_object_eq _ _ o) in Hrun by done.
  injection Hrun as _ <-.
  eapply (change_step a _ (fun o => obj_setBalance 0 (markSuicided o))
    (fun o' => obj_setBalance (Balance (account o)) (set_suicided (suicided o) o')) o); try done.
  - by apply wf_load.
  - intros s1 o1 H1. exact (revert_flag_live a (fun o' =>
      obj_setBalance (Balance (account o)) (set_suicided (suicided o) o')) s1 o1 H1).
  - by eapply wf_obj_at in Ho.
  - by destruct (wf_stored _ (wf_load a s Hwf) a o Hl).
  - destruct o as [[]]. by constructor.
Qed.

Lemma SelfDestruct_journaled a : journaled (SelfDestruct a).
Proof.
  intros s y s' Hwf Hrun. unfold SelfDestruct, bind in Hrun. rewrite getStateObject_eq in Hrun.
  destruct (obj_at s a) as [o|] eqn:Ho.
  2: { apply ret_Ret in Hrun as [_ <-]. by apply load_step. }
  apply (step_after _ (load a s)); [by apply load_step|].
  assert (stateObjects (load a s) !! a = Some o) as Hl by (by apply load_lookup).
  unfold append, modify in Hrun. rewrite (update_object_eq _ _ o) in Hrun by done.
  injection Hrun as _ <-.
  eapply (change_step a _ (fun o => obj_setBalance 0 (markSelfdestructed o))
    (fun o' => obj_setBalance (Balance (account o)) (set_destructed (selfDestructed o) o')) o);
    try done.
  - by apply wf_load.
  - intros s1 o1 H1. exact (revert_flag_live a (fun o' =>
      obj_setBalance (Balance (account o)) (set_destructed (selfDestructed o) o')) s1 o1 H1).
  - by eapply wf_obj_at in Ho.
  - by destruct (wf_stored _ (wf_load a s Hwf) a o Hl).
  - destruct o as [[]]. by constructor.
Qed.

(** ** Refund, logs, access list, transient storage *)

(** A change outside the objects, journaled by one entry. *)
Lemma plain_step e s s' s1 :
  wf s -> Dirtied e = None -> wf s' ->
  validRevisions s' = validRevisions s -> nextRevisionID s' = nextRevisionID s ->
  entries s' = entries s ++ [e] ->
  Revert e s' = (Ret tt, s1) -> dirties s1 = dirties s ->
  (dirties s1 = dirties s -> sim (with_journal (entries s1) (dirties s1) s1) s) ->
  stepped s s'.
Proof.
  intros Hwf He Hwf' Hr Hn Hes Hrev Hd Hs. split_and!; try done. exists [e]. split; [done|].
  eapply undoes_one; [done|]. unfold undirty. rewrite He. auto.
Qed.

Lemma wf_rest s s' :
  stateObjects s' = stateObjects s -> keeper s' = keeper s -> dirties s' = dirties s ->
  access s' = access s -> wf s -> wf s'.
Proof. intros Ho Hk Hd Ha []. constructor; rewrite ?Ho, ?Hk, ?Hd, ?Ha; done. Qed.

Lemma AddRefund_journaled gas : journaled (AddRefund gas).
Proof.
  intros s y s' Hwf Hrun. unfold AddRefund in Hrun. rewrite bind_get in Hrun.
  injection Hrun as _ <-.
  eapply (plain_step (refundChange (refund s))); try done; by apply (wf_rest s).
Qed.

Lemma SubRefund_journaled gas : journaled (SubRefund gas).
Proof.
  intros s y s' Hwf Hrun. unfold SubRefund in Hrun. rewrite bind_get in Hrun.
  unfold bind, append, modify in Hrun. case_match; [done|]. injection Hrun as _ <-.
  eapply (plain_step (refundChange (refund s))); try done; by apply (wf_rest s).
Qed.

Lemma AddLog_journaled c : journaled (AddLog c).
Proof.
  intros s y s' Hwf Hrun. injection Hrun as _ <-.
  match goal with |- stepped _ ?s1 => set (s' := s1) end.
  assert (Revert addLogChange s' = (Ret tt, with_logs (logs s) s')) as Hrev.
  { simpl. rewrite bind_get. simpl. rewrite bool_decide_false by (by destruct (logs s)).
    unfold modify. do 3 f_equal. unfold s'. simpl. rewrite length_app. simpl.
    replace (pred (length (logs s) + 1)) with (length (logs s)) by lia.
    apply take_app_length. }
  apply (plain_step addLogChange s s' (with_logs (logs s) s') Hwf); try done.
  by apply (wf_rest s).
Qed.

Lemma with_access_id s : with_access (access s) s = s.
Proof. by destruct s. Qed.

Lemma wf_access al s :
  wf s -> (forall i slotmap, slots al !! i = Some slotmap -> slotmap <> ∅) ->
  wf (with_access al s).
Proof. intros [] Hal. by constructor. Qed.

(** Changing the access list, journaled by an entry that changes it back. *)
Lemma access_step e al s s1 :
  wf s -> Dirtied e = None ->
  (forall i slotmap, slots al !! i = Some slotmap -> slotmap <> ∅) ->
  (forall t, access t = al -> Revert e t = (Ret tt, with_access (access s) t)) ->
  s1 = journal_append e (with_access al s) ->
  stepped s s1.
Proof.
  intros Hwf He Hal Hrev ->.
  assert (dirties (journal_append e (with_access al s)) = dirties s) as Hd
    by (unfold journal_append; simpl; by rewrite He).
  apply (plain_step e s _ (with_access (access s) (journal_append e (with_access al s))));
    try done.
  - apply (wf_rest (with_access al s)); try done. by apply wf_access.
  - by apply Hrev.
Qed.

Lemma AddAddress_journaled a : journaled (AddAddressToAccessList a).
Proof.
  intros s y s' Hwf Hrun. unfold AddAddressToAccessList in Hrun. rewrite bind_get in Hrun.
  unfold AddAddress in Hrun. destruct (addresses (access s) !! a) eqn:Ha; simpl in Hrun.
  { injection Hrun as _ <-. rewrite with_access_id. by apply step_silent. }
  injection Hrun as _ <-.
  eapply (access_step (accessListAddAccountChange a)); [done|done| | |done].
  - apply (wf_slots s Hwf).
  - intros t Ht. unfold Revert, modify, DeleteAddress. rewrite Ht. simpl.
    rewrite delete_insert_id by done. by destruct (access s).
Qed.

(** Adding a slot to an address whose slots are not listed yet, and to one
    whose slots are. *)
Lemma DeleteSlot_fresh al a slot :
  addresses al !! a = Some (-1) ->
  DeleteSlot (mkAccessList (<[a := Z.of_nat (length (slots al))]> (addresses al))
                (slots al ++ [{[ slot ]}])) a slot = Some al.
Proof.
  intros Ha. unfold DeleteSlot. simpl. rewrite lookup_insert_eq.
  replace (Z.of_nat (length (slots al)) =? -1) with false by lia. rewrite Nat2Z.id.
  rewrite lookup_app_r, Nat.sub_diag by lia. simpl. rewrite bool_decide_true by set_solver.
  rewrite take_app_length, insert_insert_eq, insert_id by done. by destruct al.
Qed.

Lemma DeleteSlot_more al a slot idx slotmap :
  addresses al !! a = Some idx -> (idx =? -1) = false ->
  slots al !! Z.to_nat idx = Some slotmap -> slot ∉ slotmap -> slotmap <> ∅ ->
  DeleteSlot (mkAccessList (addresses al) (<[Z.to_nat idx := {[ slot ]} ∪ slotmap]> (slots al)))
    a slot = Some al.
Proof.
  intros Ha Hidx Hs Hni Hne. unfold DeleteSlot. simpl. rewrite Ha, Hidx.
  rewrite list_lookup_insert_eq by (by eapply lookup_lt_Some).
  assert (({[ slot ]} ∪ slotmap) ∖ {[ slot ]} = slotmap) as -> by set_solver.
  rewrite bool_decide_false by done. rewrite list_insert_insert_eq, list_insert_id by done.
  by destruct al.
Qed.

Lemma slots_app_ok (l : list (gset Z)) slot :
  (forall i slotmap, l !! i = Some slotmap -> slotmap <> ∅) ->
  forall i slotmap, (l ++ [{[ slot ]}]) !! i = Some slotmap -> slotmap <> ∅.
Proof.
  intros Hl i sm. rewrite lookup_app. destruct (l !! i) eqn:Hi.
  - intros [= <-]. eauto.
  - intros Hs. apply list_lookup_singleton_Some in Hs as [_ <-]. set_solver.
Qed.

Lemma revert_slot a slot al t s :
  DeleteSlot al a slot = Some (access s) -> access t = al ->
  Revert (accessListAddSlotChange a slot) t = (Ret tt, with_access (access s) t).
Proof. intros Hd Ht. unfold Revert. rewrite bind_get, Ht, Hd. done. Qed.

(** Listing the first slot of an address that is in the list. *)
Lemma fresh_slot_step a slot s :
  wf s -> addresses (access s) !! a = Some (-1) ->
  let al := mkAccessList (<[a := Z.of_nat (length (slots (access s)))]> (addresses (access s)))
              (slots (access s) ++ [{[ slot ]}]) in
  let s1 := journal_append (accessListAddSlotChange a slot) (with_access al s) in
  stepped s s1.
Proof.
  intros Hwf Ha al s1. eapply (access_step (accessListAddSlotChange a slot)); [done|done| | |done].
  - apply slots_app_ok, (wf_slots s Hwf).
  - intros t Ht. eapply revert_slot; [|done]. by apply DeleteSlot_fresh.
Qed.

Lemma AddSlot_journaled a slot : journaled (AddSlotToAccessList a slot).
Proof.
  intros s y s' Hwf Hrun. unfold AddSlotToAccessList in Hrun. rewrite bind_get in Hrun.
  unfold AddSlot in Hrun. destruct (addresses (access s) !! a) as [idx|] eqn:Ha.
  - destruct (idx =? -1) eqn:Hidx.
    + injection Hrun as _ <-. assert (idx = -1) as -> by lia. by apply fresh_slot_step.
    + destruct (slots (access s) !! Z.to_nat idx) as [sm|] eqn:Hs; [|done].
      case_bool_decide as Hin; injection Hrun as _ <-.
      { rewrite with_access_id. by apply step_silent. }
      eapply (access_step (accessListAddSlotChange a slot)); [done|done| | |done].
      * intros i sm'. simpl. rewrite list_lookup_insert_Some.
        intros [(_ & <- & _)|[_ Hi]]; [set_solver|]. by eapply (wf_slots s Hwf).
      * intros t Ht. eapply revert_slot; [|done]. apply DeleteSlot_more; try done.
        by eapply (wf_slots s Hwf).
  - injection Hrun as _ <-.
    set (s1 := journal_append (accessListAddAccountChange a)
      (with_access (mkAccessList (<[a := -1]> (addresses (access s))) (slots (access s))) s)).
    assert (AddAddressToAccessList a s = (Ret tt, s1)) as Hadd.
    { unfold AddAddressToAccessList. rewrite bind_get. unfold AddAddress. by rewrite Ha. }
    apply AddAddress_journaled in Hadd as Hstep; [|done].
    apply (step_after _ s1 _ Hstep).
    pose proof (fresh_slot_step a slot s1 (proj1 Hstep)) as Hfresh. simpl in Hfresh.
    rewrite lookup_insert_eq in Hfresh. specialize (Hfresh eq_refl).
    rewrite insert_insert_eq in Hfresh. exact Hfresh.
Qed.

Lemma SetTransientState_journaled a key v : journaled (SetTransientState a key v).
Proof.
  intros s y s' Hwf Hrun. unfold SetTransientState in Hrun. rewrite bind_get in Hrun.
  case_match; [injection Hrun as _ <-; by apply step_silent|].
  injection Hrun as _ <-. unfold GetTransientState.
  eapply (plain_step (transientStorageChange a key (transient_Get (transient s) a key)));
    try done; [by apply (wf_rest s)|].
  intros _. constructor; try done. intros b k. simpl. unfold transient_Get, transient_Set.
  destruct (decide (a = b)) as [->|]; [|by rewrite !lookup_insert_ne].
  rewrite !lookup_insert_eq. simpl. destruct (decide (key = k)) as [->|].
  - rewrite lookup_insert_eq. simpl. by destruct (transient s !! b).
  - rewrite !lookup_insert_ne by done. destruct (transient s !! b); simpl; [done|].
    by rewrite lookup_empty.
Qed.
Lemma each_journaled {A} (f : A -> SM K unit) l :
  (forall x, journaled (f x)) -> journaled (each f l).
Proof.
  intros Hf. induction l as [|x l IH]; simpl; [apply journaled_ret|].
  by apply journaled_bind.
Qed.

(** ** Sequences of operations *)

Inductive op : Type :=
| OpAddBalance (a x : Z)
| OpSubBalance (a x : Z)
| OpSetNonce (a n : Z)
| OpSetCode (a : Z) (c : option (list Z))
| OpSetState (a key v : Z)
| OpCreateAccount (a : Z)
| OpSuicide (a : Z)
| OpSelfDestruct (a : Z)
| OpSelfdestruct6780 (a : Z)
| OpAddLog (content : Z)
| OpAddRefund (gas : Z)
| OpSubRefund (gas : Z)
| OpAddAddress (a : Z)
| OpAddSlot (a slot : Z)
| OpPrepareAccessList (sender : Z) (dst : option Z) (precompiles : list Z)
    (l : list (Z * list Z))
| OpSetTransientState (a key v : Z)
| OpGetBalance (a : Z)
| OpGetCode (a : Z)
| OpGetState (a key : Z)
| OpGetCommittedState (a key : Z)
| OpSnapshot
| OpRevertToSnapshot (id : Z).

Definition run_op (p : op) : SM K unit :=
  match p with
  | OpAddBalance a x => AddBalance a x
  | OpSubBalance a x => SubBalance a x
  | OpSetNonce a n => SetNonce a n
  | OpSetCode a c => SetCode a c
  | OpSetState a key v => SetState a key v
  | OpCreateAccount a => CreateAccount a
  | OpSuicide a => do! Suicide a ;; ret tt
  | OpSelfDestruct a => SelfDestruct a
  | OpSelfdestruct6780 a => Selfdestruct6780 a
  | OpAddLog c => AddLog c
  | OpAddRefund g => AddRefund g
  | OpSubRefund g => SubRefund g
  | OpAddAddress a => AddAddressToAccessList a
  | OpAddSlot a slot => AddSlotToAccessList a slot
  | OpPrepareAccessList sender dst pre l => PrepareAccessList sender dst pre l
  | OpSetTransientState a key v => SetTransientState a key v
  | OpGetBalance a => do! GetBalance a ;; ret tt
  | OpGetCode a => do! GetCode a ;; ret tt
  | OpGetState a key => do! GetState a key ;; ret tt
  | OpGetCommittedState a key => do! GetCommittedState a key ;; ret tt
  | OpSnapshot => do! Snapshot ;; ret tt
  | OpRevertToSnapshot id => RevertToSnapshot id
  end.

Definition is_snapshot_op (p : op) : bool :=
  match p with OpSnapshot | OpRevertToSnapshot _ => true | _ => false end.

Hint Resolve journaled_ret journaled_panic getStateObject_journaled createObject_journaled
  CreateAccount_journaled getOrNewStateObject_journaled Suicide_journaled SelfDestruct_journaled
  AddRefund_journaled SubRefund_journaled AddLog_journaled AddAddress_journaled
  AddSlot_journaled SetTransientState_journaled obj_SetBalance_journaled obj_SetNonce_journaled
  obj_SetCode_journaled obj_SetState_journaled obj_Code_journaled obj_GetState_journaled
  obj_GetCommittedState_journaled each_journaled : journal.

Lemma live_journaled a : journaled (live a).
Proof.
  intros s o s' Hwf [_ ->]%live_Ret. by apply step_silent.
Qed.
Hint Resolve live_journaled : journal.

(** [journal_tac] follows the structure of a computation. *)
Ltac journal_tac :=
  repeat (auto with journal;
    match goal with
    | |- forall _, _ => intros
    | |- journaled (bind _ _) => apply journaled_bind
    | |- journaled (match ?x with _ => _ end) => destruct x
    end).

Lemma op_journaled p : is_snapshot_op p = false -> journaled (run_op p).
Proof.
  destruct p; simpl; intros Hp; try discriminate Hp;
    unfold AddBalance, SubBalance, SetNonce, SetCode, SetState, GetBalance, GetCode, GetState,
      GetCommittedState, Selfdestruct6780, PrepareAccessList, obj_AddBalance, obj_SubBalance;
    journal_tac.
  apply each_journaled. journal_tac.
Qed.

(** ** Revisions *)

(** [s] restores [u] at the revision [id] of index [i]: undoing the entries
    after it shows [u]. *)
Record restores s (id : Z) (i : nat) u : Prop := mkRestores {
  rs_entry : validRevisions s !! i = Some (id, length (entries u));
  rs_first : forall j id' m, (j < i)%nat -> validRevisions s !! j = Some (id', m) -> id' < id;
  rs_prefix : exists es, entries s = entries u ++ es /\ undoes es s u;
}.

Record inv s : Prop := mkInv {
  inv_wf : wf s;
  inv_next : forall i id m, validRevisions s !! i = Some (id, m) -> id < nextRevisionID s;
  inv_sorted : forall i j id m id' m', (i < j)%nat ->
    validRevisions s !! i = Some (id, m) -> validRevisions s !! j = Some (id', m') ->
    id < id' /\ (m <= m')%nat;
  inv_restores : forall i id m, validRevisions s !! i = Some (id, m) ->
    exists u, wf u /\ length (entries u) = m /\ restores s id i u;
}.

Lemma inv_New k cfg : inv (New k cfg).
Proof.
  constructor; simpl; [constructor; simpl|..]; intros *; rewrite ?lookup_empty, ?lookup_nil; done.
Qed.

(** A journaled step keeps the revisions. *)
Lemma restores_step s s' es id i u :
  validRevisions s' = validRevisions s -> entries s' = entries s ++ es -> undoes es s' s ->
  restores s id i u -> restores s' id i u.
Proof.
  intros Hr He Hu [H1 H2 (es0 & He0 & Hu0)]. constructor; rewrite ?Hr; try done.
  exists (es0 ++ es). split; [by rewrite He, He0, app_assoc|]. by eapply undoes_app.
Qed.

Lemma inv_journaled {A} (c : SM K A) s x s' :
  journaled c -> c s = (Ret x, s') -> inv s ->
  inv s' /\ validRevisions s' = validRevisions s /\
  forall id i u, restores s id i u -> restores s' id i u.
Proof.
  intros Hc Hrun [Hwf Hnext Hsort Hres].
  apply Hc in Hrun as (Hwf' & Hr & Hn & es & He & Hu); [|done].
  assert (forall id i u, restores s id i u -> restores s' id i u) as Hstep
    by (intros; by eapply restores_step).
  split_and!; [|done|done]. constructor; rewrite ?Hr, ?Hn; try done.
  intros i id m Hi. destruct (Hres i id m Hi) as (u & Hwu & Hl & Hu'). exists u. auto.
Qed.

Lemma inv_Snapshot s id s1 :
  Snapshot s = (Ret id, s1) -> inv s ->
  inv s1 /\ restores s1 id (length (validRevisions s)) s /\
  validRevisions s1 = validRevisions s ++ [(id, length (entries s))] /\
  (forall id' i u, restores s id' i u -> restores s1 id' i u).
Proof.
  intros Hrun [Hwf Hnext Hsort Hres]. unfold Snapshot in Hrun. rewrite bind_get in Hrun.
  injection Hrun as <- <-. simpl.
  set (s1 := with_revisions _ _ s).
  assert (sim s1 s) as Hsim by done.
  assert (forall id' i u, restores s id' i u -> restores s1 id' i u) as Hold.
  { intros id' i u [H1 H2 (es & He & (t & Ht & Hst))].
    pose proof (lookup_lt_Some _ _ _ H1) as Hlt.
    constructor; simpl; [by apply lookup_app_l_Some| |].
    - intros j id'' m Hj. rewrite lookup_app_l by lia. by apply H2.
    - exists es. split; [done|].
      destruct (revert_entries_sim _ _ _ _ Hsim Ht) as (t' & Ht' & Hst').
      exists t'. split; [done|]. by etrans. }
  assert (restores s1 (nextRevisionID s) (length (validRevisions s)) s) as Hnew.
  { constructor; simpl.
    - by rewrite lookup_app_r, Nat.sub_diag by lia.
    - intros j id' m Hj. rewrite lookup_app_l by done. apply Hnext.
    - exists []. rewrite app_nil_r. split; [done|]. by apply undoes_nil. }
  split_and!; [|done|done|done]. constructor; simpl.
  - by apply (wf_rest s).
  - intros i id m [Hi|[_ Hi]]%lookup_app_Some; [apply Hnext in Hi; lia|].
    apply list_lookup_singleton_Some in Hi as [_ [= <- <-]]. lia.
  - intros i j id m id' m' Hij Hi Hj.
    apply lookup_app_Some in Hj as [Hj|[Hge Hj]].
    + rewrite lookup_app_l in Hi by (apply lookup_lt_Some in Hj; lia). by eapply Hsort.
    + apply list_lookup_singleton_Some in Hj as [Hj0 [= <- <-]].
      rewrite lookup_app_l in Hi by lia. split; [by eapply Hnext|].
      apply Hres in Hi as (u & _ & <- & [_ _ (es & -> & _)]). rewrite length_app. lia.
  - intros i id m [Hi|[Hge Hi]]%lookup_app_Some.
    + apply Hres in Hi as (u & Hwu & Hl & Hu). exists u. auto.
    + apply list_lookup_singleton_Some in Hi as [Hi0 [= <- <-]]. exists s. split_and!; [done|done|].
      by replace i with (length (validRevisions s)) by lia.
Qed.

(** ** RevertToSnapshot *)

Lemma search_revision_found l i id m :
  l !! i = Some (id, m) -> (forall j id' m', (j < i)%nat -> l !! j = Some (id', m') -> id' < id) ->
  search_revision id l = i.
Proof.
  revert i. induction l as [|[id0 m0] l IH]; intros i Hi Hlt; [done|].
  destruct i as [|i]; simpl.
  - injection Hi as -> ->. by rewrite Z.leb_refl.
  - specialize (Hlt 0%nat id0 m0 ltac:(lia) eq_refl) as H0.
    replace (id <=? id0) with false by lia. f_equal. apply IH; [done|].
    intros j id' m' Hj Hl. apply (Hlt (S j) id' m'); [lia|done].
Qed.

Lemma search_revision_first id l j id' m :
  (j < search_revision id l)%nat -> l !! j = Some (id', m) -> id' < id.
Proof.
  revert j. induction l as [|[id0 m0] l IH]; simpl; intros j Hj Hl; [lia|].
  destruct (id <=? id0) eqn:Hle; [lia|]. destruct j as [|j]; simpl in Hl.
  - injection Hl as -> ->. lia.
  - apply (IH j); [lia|done].
Qed.

(** What undoing entries leaves alone. *)
Definition addressed (m : gmap Z stateObject) : Prop :=
  forall a o, m !! a = Some o -> address o = a.

Definition keeps_frame s s' : Prop :=
  entries s' = entries s /\ validRevisions s' = validRevisions s /\
  nextRevisionID s' = nextRevisionID s /\ keeper s' = keeper s /\
  (addressed (stateObjects s) -> addressed (stateObjects s')).

Lemma addressed_put a o s :
  address o = a -> addressed (stateObjects s) -> addressed (stateObjects (put a o s)).
Proof.
  intros Ha Hs b o'. unfold put. simpl. rewrite lookup_insert_Some.
  intros [[<- <-]|[_ Hb]]; [done|]. by apply Hs.
Qed.

Lemma addressed_obj_at a o s : addressed (stateObjects s) -> obj_at s a = Some o -> address o = a.
Proof.
  intros Hs. unfold obj_at. destruct (stateObjects s !! a) eqn:Ha.
  - intros [= <-]. by apply Hs.
  - destruct (keeper_GetAccount (keeper s) a); simpl; [|done]. by intros [= <-].
Qed.

Lemma keeps_frame_put a o s :
  (addressed (stateObjects s) -> address o = a) -> keeps_frame s (put a o s).
Proof. intros Ha. split_and!; try done. intros Hs. by apply addressed_put; [apply Ha|]. Qed.

(** Both shapes of an object entry's [Revert]. *)
Lemma keeps_frame_update a f (other : SM K unit) s s' :
  (forall o, address (f o) = address o) -> (forall t t', other t = (Ret tt, t') -> t' = t) ->
  (let! obj := getStateObject a in
   match obj with Some _ => update_object a f | None => other end) s = (Ret tt, s') ->
  keeps_frame s s'.
Proof.
  intros Hf Hother Hrun. unfold bind in Hrun. rewrite getStateObject_eq in Hrun.
  destruct (obj_at s a) as [o|] eqn:Ho.
  - rewrite (load_update _ _ o) in Hrun by done. injection Hrun as <-.
    apply keeps_frame_put. intros Hs. rewrite Hf. by eapply addressed_obj_at.
  - apply Hother in Hrun as ->. unfold load. by rewrite Ho.
Qed.

Lemma Revert_frame e s s' : Revert e s = (Ret tt, s') -> keeps_frame s s'.
Proof.
  destruct e; simpl.
  - intros ->%modify_Ret. split_and!; try done. intros Hs b o.
    simpl. intros [_ Hb]%lookup_delete_Some. by apply Hs.
  - intros ->%modify_Ret. by apply keeps_frame_put.
  - apply keeps_frame_update; [done|]. by intros t t' [_ <-]%ret_Ret.
  - apply keeps_frame_update; [done|]. by intros t t' [_ <-]%ret_Ret.
  - apply keeps_frame_update; [done|]. by intros t t' ?%panic_Ret.
  - apply keeps_frame_update; [done|]. by intros t t' ?%panic_Ret.
  - apply keeps_frame_update; [done|]. by intros t t' ?%panic_Ret.
  - apply keeps_frame_update; [done|]. by intros t t' ?%panic_Ret.
  - by intros ->%modify_Ret.
  - rewrite bind_get. case_match; [by intros ?%panic_Ret|]. by intros ->%modify_Ret.
  - by intros ->%modify_Ret.
  - rewrite bind_get. case_match; [|by intros ?%panic_Ret]. by intros ->%modify_Ret.
  - by intros ->%modify_Ret.
Qed.

Lemma revert_entries_frame l s s' : revert_entries l s = (Ret tt, s') -> keeps_frame s s'.
Proof.
  revert s. induction l as [|e l IH]; intros s Hrun; simpl in Hrun.
  { apply ret_Ret in Hrun as [_ <-]. done. }
  apply bind_Ret in Hrun as ([] & s1 & (H1 & H2 & H3 & Hk1 & H4)%Revert_frame & Hrun).
  apply bind_Ret in Hrun as ([] & ? & ->%modify_Ret & (H5 & H6 & H7 & Hk2 & H8)%IH).
  simpl in *. split_and!; try congruence. auto.
Qed.

(** Undoing a longer journal passes through the shorter one. *)
Lemma undoes_split es' es s t u :
  undoes (es' ++ es) s u -> revert_entries (reverse es) s = (Ret tt, t) -> undoes es' t u.
Proof.
  intros (t' & Hrun & Hs) Ht. rewrite reverse_app in Hrun.
  apply revert_entries_app in Hrun as (t1 & Ht1 & Hrun). rewrite Ht in Ht1.
  injection Ht1 as <-. by exists t'.
Qed.

Lemma undoes_sim es s t u : sim s t -> undoes es t u -> undoes es s u.
Proof.
  intros Hs (t' & Hrun & Ht'). destruct (revert_entries_sim _ _ _ _ Hs Hrun) as (s' & Hs' & Hsim).
  exists s'. split; [done|]. by etrans.
Qed.

(** Reverting to a revision shows the state it was taken in. *)
Lemma RevertToSnapshot_restores s id i u :
  inv s -> restores s id i u -> wf u ->
  exists s', RevertToSnapshot id s = (Ret tt, s') /\ sim s' u /\ entries s' = entries u /\
    validRevisions s' = take i (validRevisions s) /\ inv s' /\
    forall id' j u', (j < i)%nat -> restores s id' j u' -> restores s' id' j u'.
Proof.
  intros Hinv [Hentry Hfirst (es & Hes & (t & Ht & Hsim))] Hwu.
  pose proof (search_revision_found _ _ _ _ Hentry Hfirst) as Hsearch.
  destruct (revert_entries_frame _ _ _ Ht) as (Hte & Htr & Htn & _ & Hta).
  set (s' := with_revisions (take i (validRevisions s)) (nextRevisionID s)
               (with_journal (entries u) (dirties t) t)).
  assert (RevertToSnapshot id s = (Ret tt, s')) as Hrun.
  { unfold RevertToSnapshot. rewrite bind_get, Hsearch, Hentry. rewrite Z.eqb_refl. simpl.
    unfold journal_Revert, bind, get. rewrite Hes, drop_app_length, Ht. unfold modify.
    rewrite Hte, Hes, take_app_length. unfold s'. simpl. by rewrite Htr, Htn. }
  assert (sim s' t) as Hst by done.
  assert (forall id' j u', (j < i)%nat -> restores s id' j u' -> restores s' id' j u') as Hkeep.
  { intros id' j u' Hj [H1 H2 (es0 & He0 & Hu0)].
    destruct (inv_sorted _ Hinv j i _ _ _ _ Hj H1 Hentry) as [_ Hlen].
    assert (exists es', entries u = entries u' ++ es' /\ es0 = es' ++ es) as (es' & Heu & ->).
    { rewrite Hes in He0. apply app_eq_inv in He0 as [(k & -> & ->)|(k & Hk & ->)].
      - exists k. done.
      - rewrite Hk, length_app in Hlen. destruct k; [|simpl in Hlen; lia].
        exists []. rewrite !app_nil_r in *. by subst. }
    constructor; simpl.
    - by rewrite lookup_take_lt.
    - intros j' id'' m Hj' Hl. rewrite lookup_take_lt in Hl by lia. by eapply H2.
    - exists es'. split; [done|]. eapply undoes_sim; [exact Hst|]. by eapply undoes_split. }
  exists s'. split_and!; try done; [by etrans|].
  destruct Hinv as [Hwf Hnext Hsort Hres]. pose proof Hwu as [_ Hpos Hlive Hstored Hslots].
  constructor.
  - constructor; simpl.
    + apply Hta. exact (wf_address s Hwf).
    + rewrite (sim_dirties _ _ Hsim). done.
    + rewrite (sim_dirties _ _ Hsim). intros a Ha. apply (sim_live _ _ Hsim). auto.
    + intros a o Ho. pose proof (sim_objects _ _ Hsim a) as Ha. rewrite (sim_keeper _ _ Hsim).
      unfold obj_at at 1 in Ha. rewrite Ho in Ha. inversion Ha as [? o' Heq|]; subst.
      eapply obj_equiv_stored; [done|]. by eapply (stored_obj_at u a).
    + rewrite (sim_access _ _ Hsim). done.
  - simpl. intros j id' m [Hj _]%lookup_take_Some. by eapply Hnext.
  - simpl. intros j j' id1 m1 id2 m2 Hlt [H1 _]%lookup_take_Some [H2 _]%lookup_take_Some.
    by eapply Hsort.
  - simpl. intros j id' m [Hj Hlt]%lookup_take_Some.
    destruct (Hres _ _ _ Hj) as (u' & Hwu' & Hl & Hu'). exists u'. auto.
Qed.

(** ** Sequences *)

(** The operation reverts, if at all, to a snapshot younger than [id]. *)
Definition younger (id : Z) (p : op) : Prop :=
  match p with OpRevertToSnapshot id' => id < id' | _ => True end.

Definition run_ops (l : list op) : SM K unit := each run_op l.

(** A revert that returns has found its revision. *)
Lemma RevertToSnapshot_Ret s s' id :
  RevertToSnapshot id s = (Ret tt, s') -> inv s ->
  exists j u, restores s id j u /\ validRevisions s' = take j (validRevisions s) /\ inv s' /\
    sim s' u /\
    forall id' i u', (i < j)%nat -> restores s id' i u' -> restores s' id' i u'.
Proof.
  intros Hrun Hinv. pose proof Hrun as Hrun'.
  unfold RevertToSnapshot in Hrun'. rewrite bind_get in Hrun'.
  destruct (validRevisions s !! search_revision id (validRevisions s)) as [[id1 m]|] eqn:Hl;
    [|done].
  destruct (id1 =? id) eqn:Heq; [|done]. assert (id1 = id) as -> by lia. clear Hrun'.
  destruct (inv_restores _ Hinv _ _ _ Hl) as (u & Hwu & _ & Hu).
  destruct (RevertToSnapshot_restores _ _ _ _ Hinv Hu Hwu)
    as (s1 & Hrun1 & Hsim & _ & Hr & Hinv1 & Hkeep).
  rewrite Hrun in Hrun1. injection Hrun1 as <-. eauto 10.
Qed.

(** A revert to a younger snapshot drops later revisions only. *)
Lemma RevertToSnapshot_younger s s' id i u id' :
  RevertToSnapshot id' s = (Ret tt, s') -> inv s -> id < id' -> restores s id i u ->
  inv s' /\ take i (validRevisions s') = take i (validRevisions s) /\ restores s' id i u.
Proof.
  intros Hrun Hinv Hy Hu.
  destruct (RevertToSnapshot_Ret _ _ _ Hrun Hinv) as (j & u' & Hu' & Hr & Hinv' & _ & Hkeep).
  pose proof (rs_entry _ _ _ _ Hu) as He. pose proof (rs_entry _ _ _ _ Hu') as Hl.
  assert (i < j)%nat as Hij.
  { destruct (Nat.lt_trichotomy i j) as [?|[->|Hlt]]; [done| |].
    - rewrite Hl in He. injection He as ? _. lia.
    - destruct (inv_sorted _ Hinv j i _ _ _ _ Hlt Hl He). lia. }
  split_and!; [done| |by apply Hkeep]. rewrite Hr, take_take. f_equal. lia.
Qed.

Lemma run_op_keeps p s s' id i u :
  run_op p s = (Ret tt, s') -> inv s -> younger id p -> restores s id i u ->
  inv s' /\ take i (validRevisions s') = take i (validRevisions s) /\ restores s' id i u.
Proof.
  intros Hrun Hinv Hy Hu. destruct (is_snapshot_op p) eqn:Hp.
  2: { eapply inv_journaled in Hrun as (Hinv' & -> & Hstep); [|by apply op_journaled|done].
       auto. }
  destruct p; try discriminate Hp; simpl in Hrun.
  - apply bind_Ret in Hrun as (id' & s1 & Hsnap & [_ <-]%ret_Ret).
    apply inv_Snapshot in Hsnap as (Hinv1 & _ & Hr & Hold); [|done].
    split_and!; auto. rewrite Hr, take_app_le; [done|].
    apply Nat.lt_le_incl. eapply lookup_lt_Some. exact (rs_entry _ _ _ _ Hu).
  - by eapply RevertToSnapshot_younger.
Qed.

Lemma run_ops_keeps l s s' id i u :
  run_ops l s = (Ret tt, s') -> inv s -> Forall (younger id) l -> restores s id i u ->
  inv s' /\ take i (validRevisions s') = take i (validRevisions s) /\ restores s' id i u.
Proof.
  intros Hrun Hinv Hy Hu. revert s Hrun Hinv Hu.
  induction Hy as [|p l Hp Hl IH]; intros s Hrun Hinv Hu; simpl in Hrun.
  { apply ret_Ret in Hrun as [_ <-]. done. }
  apply bind_Ret in Hrun as ([] & s1 & Hop & Hrun).
  destruct (run_op_keeps _ _ _ _ _ _ Hop Hinv Hp Hu) as (Hinv1 & <- & Hu1). by apply (IH s1).
Qed.

(** Every reachable state satisfies the invariant. *)
Lemma run_op_inv p s s' : run_op p s = (Ret tt, s') -> inv s -> inv s'.
Proof.
  intros Hrun Hinv. destruct (is_snapshot_op p) eqn:Hp.
  2: { eapply inv_journaled in Hrun as (? & _); [done|by apply op_journaled|done]. }
  destruct p; try discriminate Hp; simpl in Hrun.
  - apply bind_Ret in Hrun as (id' & s1 & Hsnap & [_ <-]%ret_Ret).
    by apply inv_Snapshot in Hsnap as (? & _).
  - by apply RevertToSnapshot_Ret in Hrun as (? & ? & _ & _ & ? & _).
Qed.

Lemma run_ops_inv l s s' : run_ops l s = (Ret tt, s') -> inv s -> inv s'.
Proof.
  revert s. induction l as [|p l IH]; intros s Hrun Hinv; simpl in Hrun.
  { by apply ret_Ret in Hrun as [_ <-]. }
  apply bind_Ret in Hrun as ([] & s1 & Hop & Hrun). eapply IH; [done|]. by eapply run_op_inv.
Qed.

(** No operation of the API writes to the keeper. *)
Lemma undoes_keeper es s u : undoes es s u -> keeper s = keeper u.
Proof.
  intros (t & (_ & _ & _ & Hk & _)%revert_entries_frame & Hsim).
  by rewrite <- Hk, (sim_keeper _ _ Hsim).
Qed.

Lemma run_op_keeper p s s' : run_op p s = (Ret tt, s') -> inv s -> keeper s' = keeper s.
Proof.
  intros Hrun Hinv. destruct (is_snapshot_op p) eqn:Hp.
  2: { apply op_journaled in Hrun as (_ & _ & _ & es & _ & Hu); [|done|by apply inv_wf].
       by apply undoes_keeper in Hu. }
  destruct p; try discriminate Hp; simpl in Hrun; [by injection Hrun as <-|].
  apply RevertToSnapshot_Ret in Hrun as (j & u & [_ _ (es & _ & Hu)] & _ & _ & Hsim & _); [|done].
  by rewrite (sim_keeper _ _ Hsim), (undoes_keeper _ _ _ Hu).
Qed.

Lemma run_ops_keeper l s s' : run_ops l s = (Ret tt, s') -> inv s -> keeper s' = keeper s.
Proof.
  revert s. induction l as [|p l IH]; intros s Hrun Hinv; simpl in Hrun.
  { by apply ret_Ret in Hrun as [_ <-]. }
  apply bind_Ret in Hrun as ([] & s1 & Hop & Hrun). rewrite (IH s1); [|done|by eapply run_op_inv].
  by eapply run_op_keeper.
Qed.

(** The operations run after a snapshot, nested snapshots included, are
    undone by reverting to it. *)
Lemma snapshot_restored s id s1 l s2 :
  inv s -> Snapshot s = (Ret id, s1) -> run_ops l s1 = (Ret tt, s2) -> Forall (younger id) l ->
  exists s3, RevertToSnapshot id s2 = (Ret tt, s3) /\ sim s3 s /\ entries s3 = entries s /\
    validRevisions s3 = validRevisions s /\ inv s3.
Proof.
  intros Hinv Hsnap Hrun Hy.
  destruct (inv_Snapshot _ _ _ Hsnap Hinv) as (Hinv1 & Hu1 & Hr1 & _).
  destruct (run_ops_keeps _ _ _ _ _ _ Hrun Hinv1 Hy Hu1) as (Hinv2 & Hr2 & Hu2).
  destruct (RevertToSnapshot_restores _ _ _ _ Hinv2 Hu2 (inv_wf _ Hinv))
    as (s3 & Hrun3 & Hsim & He & Hr & Hinv3 & _).
  exists s3. split_and!; try done. by rewrite Hr, Hr2, Hr1, take_app_length.
Qed.
End Revert.
