(* ===== verification/StateDBCommit.v ===== *)
(** * x/evm/statedb: what [Commit] leaves in the keeper

    [KeeperLaws] is what the StateDB relies on of the keeper behind it;
    [EvmKeeper.v] shows that the EVM module's keeper has it.  Committing a
    well-formed state never dereferences a missing object, deletes the
    destructed accounts, writes accounts, storage and code of the other dirty
    ones, and leaves everything else alone. *)

From S2P Require Import Prelude StateDB StateDBFacts.

(** A write that touches no account and no slot of another address. *)
Record keeps_others {K} `{Keeper K} (a : Z) (k k' : K) : Prop := mkKeepsOthers {
  ko_account : forall b, b <> a -> keeper_GetAccount k' b = keeper_GetAccount k b;
  ko_state : forall b key, b <> a -> keeper_GetState k' b key = keeper_GetState k b key;
}.

(** [keeper_accepts k a x]: [k] can store the account [x] at [a] as it is. *)
Class KeeperLaws (K : Type) `{Keeper K} : Type := {
  keeper_accepts : K -> Z -> Account -> Prop;
  SetAccount_same : forall k a x k', keeper_SetAccount k a x = Some k' ->
    keeper_accepts k a x -> keeper_GetAccount k' a = Some x;
  SetAccount_others : forall k a x k', keeper_SetAccount k a x = Some k' -> keeps_others a k k';
  SetAccount_state : forall k a x k' key, keeper_SetAccount k a x = Some k' ->
    keeper_GetState k' a key = keeper_GetState k a key;
  SetAccount_code : forall k a x k' h, keeper_SetAccount k a x = Some k' ->
    keeper_GetCode k' h = keeper_GetCode k h;
  SetAccount_accepts : forall k a x k' b y, keeper_SetAccount k a x = Some k' -> b <> a ->
    keeper_accepts k b y -> keeper_accepts k' b y;
  SetState_same : forall k a key v, keeper_GetState (keeper_SetState k a key v) a key = v;
  SetState_other : forall k a key v key', key' <> key ->
    keeper_GetState (keeper_SetState k a key v) a key' = keeper_GetState k a key';
  SetState_others : forall k a key v, keeps_others a k (keeper_SetState k a key v);
  SetState_account : forall k a key v,
    keeper_GetAccount (keeper_SetState k a key v) a = keeper_GetAccount k a;
  SetState_code : forall k a key v h,
    keeper_GetCode (keeper_SetState k a key v) h = keeper_GetCode k h;
  SetState_accepts : forall k a key v b y,
    keeper_accepts k b y -> keeper_accepts (keeper_SetState k a key v) b y;
  SetCode_same : forall k h c, c <> [] -> keeper_GetCode (keeper_SetCode k h (Some c)) h = Some c;
  SetCode_other : forall k h c h', h' <> h ->
    keeper_GetCode (keeper_SetCode k h c) h' = keeper_GetCode k h';
  SetCode_account : forall k h c a,
    keeper_GetAccount (keeper_SetCode k h c) a = keeper_GetAccount k a;
  SetCode_state : forall k h c a key,
    keeper_GetState (keeper_SetCode k h c) a key = keeper_GetState k a key;
  SetCode_accepts : forall k h c b y,
    keeper_accepts k b y -> keeper_accepts (keeper_SetCode k h c) b y;
  DeleteAccount_gone : forall k a k', keeper_DeleteAccount k a = Some k' ->
    keeper_GetAccount k' a = None;
  DeleteAccount_state : forall k a k' key, keeper_DeleteAccount k a = Some k' ->
    is_Some (keeper_GetAccount k a) -> keeper_GetState k' a key = 0;
  DeleteAccount_others : forall k a k', keeper_DeleteAccount k a = Some k' -> keeps_others a k k';
  DeleteAccount_code : forall k a k' h, keeper_DeleteAccount k a = Some k' ->
    keeper_GetCode k' h = keeper_GetCode k h;
  DeleteAccount_accepts : forall k a k' b y, keeper_DeleteAccount k a = Some k' -> b <> a ->
    keeper_accepts k b y -> keeper_accepts k' b y;
}.

Section Commit.
Context {K : Type} {HKeeper : Keeper K} {HLaws : KeeperLaws K} {HHash : Hashing}.
Implicit Types (s : StateDB K) (o : stateObject) (k : K).

Definition gone o : bool := suicided o || selfDestructed o.

Lemma keeps_others_refl a k : keeps_others a k k.
Proof. by constructor. Qed.

Lemma keeps_others_trans a k1 k2 k3 :
  keeps_others a k1 k2 -> keeps_others a k2 k3 -> keeps_others a k1 k3.
Proof.
  intros [H1 H2] [H3 H4]. constructor; intros; [rewrite H3|rewrite H4]; auto.
Qed.

(** ** Storage *)

Lemma commit_storage_frame a o keys k :
  let k' := commit_storage a o keys k in
  keeps_others a k k' /\ keeper_GetAccount k' a = keeper_GetAccount k a /\
  (forall h, keeper_GetCode k' h = keeper_GetCode k h) /\
  (forall b y, keeper_accepts k b y -> keeper_accepts k' b y).
Proof.
  revert k. induction keys as [|key keys IH]; intros k; simpl.
  { split_and!; try done. }
  set (v := default 0 (dirtyStorage o !! key)).
  set (k1 := if v =? default 0 (originStorage o !! key) then k else keeper_SetState k a key v).
  destruct (IH k1) as (H1 & H2 & H3 & H4).
  assert (keeps_others a k k1 /\ keeper_GetAccount k1 a = keeper_GetAccount k a /\
    (forall h, keeper_GetCode k1 h = keeper_GetCode k h) /\
    (forall b y, keeper_accepts k b y -> keeper_accepts k1 b y)) as (G1 & G2 & G3 & G4).
  { unfold k1. case_match; [by split_and!|].
    split_and!; [apply SetState_others|apply SetState_account|intros; apply SetState_code|].
    intros. by apply SetState_accepts. }
  split_and!; [by eapply keeps_others_trans|congruence|congruence|auto].
Qed.

Lemma commit_storage_get a o keys k key :
  NoDup keys ->
  keeper_GetState (commit_storage a o keys k) a key =
  if decide (key ∈ keys) then
    if default 0 (dirtyStorage o !! key) =? default 0 (originStorage o !! key)
    then keeper_GetState k a key else default 0 (dirtyStorage o !! key)
  else keeper_GetState k a key.
Proof.
  revert k. induction keys as [|key' keys IH]; intros k Hnd; [done|].
  apply NoDup_cons in Hnd as [Hni Hnd]. simpl. rewrite IH by done.
  destruct (decide (key = key')) as [->|Hne].
  - rewrite (decide_False (P := key' ∈ keys)) by done.
    rewrite decide_True by set_solver. destruct (_ =? _); [done|]. apply SetState_same.
  - assert (forall b : bool, keeper_GetState (if b then k else keeper_SetState k a key'
      (default 0 (dirtyStorage o !! key'))) a key = keeper_GetState k a key) as ->.
    { intros []; [done|]. by rewrite SetState_other. }
    destruct (decide (key ∈ keys)); [by rewrite decide_True by set_solver|].
    by rewrite decide_False by set_solver.
Qed.

Lemma SortedKeys_spec st key : key ∈ SortedKeys st <-> is_Some (st !! key).
Proof.
  unfold SortedKeys. rewrite list_elem_of_fmap. split.
  - intros ([? v] & -> & Hin). apply elem_of_iterate in Hin. eauto.
  - intros [v Hv]. exists (key, v). split; [done|]. by apply elem_of_iterate.
Qed.

(** Writing the changed slots of a well-cached object makes the keeper show
    what the object shows. *)
Lemma commit_storage_shows o k k1 key :
  stored_ok k o -> keeper_GetState k1 (address o) key = keeper_GetState k (address o) key ->
  keeper_GetState (commit_storage (address o) o (SortedKeys (dirtyStorage o)) k1) (address o) key =
  sem_state k o key.
Proof.
  intros [Ho Hd _] Hk. rewrite commit_storage_get by apply iterate_NoDup.
  unfold sem_state, sem_committed. destruct (decide _) as [Hin|Hni].
  - apply SortedKeys_spec in Hin. destruct (Hd _ Hin) as [v0 Hv0]. destruct Hin as [v Hv].
    rewrite Hv, Hv0. simpl. destruct (v =? v0) eqn:E; [|done].
    rewrite Hk. rewrite <- (Ho _ _ Hv0). lia.
  - rewrite SortedKeys_spec, <- eq_None_not_Some in Hni. rewrite Hni, Hk. simpl.
    destruct (originStorage o !! key) eqn:Hv0; [|done]. simpl. by rewrite (Ho _ _ Hv0).
Qed.

(** ** Accounts *)

(** What committing the live object [o] of [a] does to the keeper. *)
Record account_committed a o k k' : Prop := mkAccountCommitted {
  ac_others : keeps_others a k k';
  ac_accepts : forall b y, b <> a -> keeper_accepts k b y -> keeper_accepts k' b y;
  ac_gone : gone o = true ->
    keeper_GetAccount k' a = None /\
    (is_Some (keeper_GetAccount k a) -> forall key, keeper_GetState k' a key = 0);
  ac_kept : gone o = false -> keeper_accepts k a (account o) ->
    keeper_GetAccount k' a = Some (account o);
  ac_state : forall k0 key, gone o = false -> stored_ok k0 o ->
    keeper_GetState k a key = keeper_GetState k0 a key ->
    keeper_GetState k' a key = sem_state k0 o key;
  ac_code_written : forall c, gone o = false -> dirtyCode o = true -> code o = Some c -> c <> [] ->
    keeper_GetCode k' (CodeHash (account o)) = Some c;
  ac_code_kept : forall h, 
    (gone o = false -> dirtyCode o = true -> is_Some (code o) -> CodeHash (account o) <> h) ->
    keeper_GetCode k' h = keeper_GetCode k h;
}.

(** The code write that comes first. *)
Definition code_written k o : K :=
  if bool_decide (is_Some (code o)) && dirtyCode o
  then keeper_SetCode k (CodeHash (account o)) (code o) else k.

Lemma code_written_frame k o :
  (forall a, keeper_GetAccount (code_written k o) a = keeper_GetAccount k a) /\
  (forall a key, keeper_GetState (code_written k o) a key = keeper_GetState k a key) /\
  (forall b y, keeper_accepts k b y -> keeper_accepts (code_written k o) b y).
Proof.
  unfold code_written. case_match; [|done].
  split_and!; intros; [apply SetCode_account|apply SetCode_state|by apply SetCode_accepts].
Qed.

Lemma code_written_get k o c :
  dirtyCode o = true -> code o = Some c -> c <> [] ->
  keeper_GetCode (code_written k o) (CodeHash (account o)) = Some c.
Proof.
  intros Hd Hc Hne. unfold code_written. rewrite Hd, Hc. simpl. by apply SetCode_same.
Qed.

Lemma code_written_other k o h :
  (dirtyCode o = true -> is_Some (code o) -> CodeHash (account o) <> h) ->
  keeper_GetCode (code_written k o) h = keeper_GetCode k h.
Proof.
  intros Hh. unfold code_written. case_bool_decide; [|done]. destruct (dirtyCode o); [|done].
  simpl. apply SetCode_other. intros ->. by apply Hh.
Qed.

Lemma commit_account_Ret a o s s' :
  commit_account a s = (Ret tt, s') -> stateObjects s !! a = Some o -> address o = a ->
  s' = with_keeper (keeper s') s /\ account_committed a o (keeper s) (keeper s').
Proof.
  intros Hrun Ho Ha. unfold commit_account in Hrun.
  apply bind_Ret in Hrun as (o' & s1 & [Ho' ->]%live_Ret & Hrun).
  assert (o' = o) as -> by congruence. subst a.
  rewrite bind_get in Hrun. fold (gone o) in Hrun. destruct (gone o) eqn:Hg.
  - destruct (keeper_DeleteAccount _ _) as [k'|] eqn:Hdel; [|done].
    apply modify_Ret in Hrun as ->. split; [done|]. simpl. constructor; try congruence.
    + by eapply DeleteAccount_others.
    + intros. by eapply DeleteAccount_accepts.
    + intros _. split; [by eapply DeleteAccount_gone|]. intros. by eapply DeleteAccount_state.
    + intros. by eapply DeleteAccount_code.
  - fold (code_written (keeper s) o) in Hrun.
    apply bind_Ret in Hrun as ([] & s1 & ->%modify_Ret & Hrun).
    destruct (keeper_SetAccount _ _ _) as [k2|] eqn:Hset; [|done].
    apply modify_Ret in Hrun as ->. split; [done|]. simpl.
    destruct (code_written_frame (keeper s) o) as (Hca & Hcs & Hcp).
    pose proof (SetAccount_others _ _ _ _ Hset) as [Hoa Hos].
    destruct (commit_storage_frame (address o) o (SortedKeys (dirtyStorage o)) k2)
      as ([Hta Hts] & Htac & Htc & Htp).
    constructor; try congruence.
    + constructor; intros; [rewrite Hta, Hoa|rewrite Hts, Hos]; auto.
    + intros b y Hb Hy. eapply Htp, SetAccount_accepts; [done|done|auto].
    + intros _ Hacc. rewrite Htac. eapply SetAccount_same; [done|auto].
    + intros k0 key _ Hst Hk0. apply commit_storage_shows; [done|].
      rewrite (SetAccount_state _ _ _ _ _ Hset), Hcs. done.
    + intros c _ Hd Hc Hne. rewrite Htc, (SetAccount_code _ _ _ _ _ Hset).
      by apply code_written_get.
    + intros h Hh. rewrite Htc, (SetAccount_code _ _ _ _ _ Hset).
      apply code_written_other. auto.
Qed.

(** ** The loop *)

Definition listed s (l : list Z) : Prop :=
  NoDup l /\ forall a, a ∈ l -> exists o, stateObjects s !! a = Some o /\ address o = a.

(** Committing the addresses [l] one after the other. *)
Lemma commit_each_Ret l s s' :
  each commit_account l s = (Ret tt, s') -> listed s l ->
  s' = with_keeper (keeper s') s /\
  (forall a, a ∉ l -> keeper_GetAccount (keeper s') a = keeper_GetAccount (keeper s) a /\
     (forall key, keeper_GetState (keeper s') a key = keeper_GetState (keeper s) a key) /\
     (forall y, keeper_accepts (keeper s) a y -> keeper_accepts (keeper s') a y)) /\
  (forall a o, a ∈ l -> stateObjects s !! a = Some o ->
     exists k1 k2, account_committed a o k1 k2 /\
       keeper_GetAccount k1 a = keeper_GetAccount (keeper s) a /\
       (forall key, keeper_GetState k1 a key = keeper_GetState (keeper s) a key) /\
       (forall y, keeper_accepts (keeper s) a y -> keeper_accepts k1 a y) /\
       keeper_GetAccount (keeper s') a = keeper_GetAccount k2 a /\
       (forall key, keeper_GetState (keeper s') a key = keeper_GetState k2 a key)).
Proof.
  revert s. induction l as [|a l IH]; intros s Hrun [Hnd Hl]; simpl in Hrun.
  { apply ret_Ret in Hrun as [_ <-]. split_and!; [by destruct s|done|set_solver]. }
  apply NoDup_cons in Hnd as [Hni Hnd].
  apply bind_Ret in Hrun as ([] & s1 & Hrun1 & Hrun).
  destruct (Hl a) as (o & Ho & Ha); [set_solver|].
  destruct (commit_account_Ret _ _ _ _ Hrun1 Ho Ha) as [Hs1 Hac].
  assert (stateObjects s1 = stateObjects s) as Hobj by (by rewrite Hs1).
  apply IH in Hrun as (Hs' & Hout & Hin); [|split; [done|rewrite Hobj; set_solver]].
  destruct (ac_others _ _ _ _ Hac) as [Hoa Hos].
  split_and!.
  - rewrite Hs', Hs1. done.
  - intros b Hb. destruct (Hout b) as (H1 & H2 & H3); [set_solver|].
    assert (b <> a) by set_solver. split_and!; [by rewrite H1, Hoa| |].
    + intros key. by rewrite H2, Hos.
    + intros y Hy. apply H3. by apply (ac_accepts _ _ _ _ Hac).
  - intros b ob Hb Hob. destruct (decide (b = a)) as [->|Hne].
    + simplify_eq. destruct (Hout _ Hni) as (H1 & H2 & _). exists (keeper s), (keeper s1).
      auto 10.
    + destruct (Hin b ob) as (k1 & k2 & Hc & H1 & H2 & H3 & H4 & H5); [set_solver|by rewrite Hobj|].
      exists k1, k2. split_and!; [done|by rewrite H1, Hoa| | |done|done].
      * intros key. by rewrite H2, Hos.
      * intros y Hy. apply H3. by apply (ac_accepts _ _ _ _ Hac).
Qed.

(** No two dirty objects of the state hold different code under the hash [h]. *)
Definition one_code s (l : list Z) (h : Z) (c : list Z) : Prop :=
  forall a o c', a ∈ l -> stateObjects s !! a = Some o -> gone o = false ->
    dirtyCode o = true -> CodeHash (account o) = h -> code o = Some c' -> c' = c.

Lemma commit_each_code l s s' h c :
  each commit_account l s = (Ret tt, s') -> listed s l -> c <> [] -> one_code s l h c ->
  keeper_GetCode (keeper s) h = Some c \/
  (exists a o, a ∈ l /\ stateObjects s !! a = Some o /\ gone o = false /\ dirtyCode o = true /\
    CodeHash (account o) = h /\ code o = Some c) ->
  keeper_GetCode (keeper s') h = Some c.
Proof.
  revert s. induction l as [|a l IH]; intros s Hrun [Hnd Hl] Hne Hone Hc; simpl in Hrun.
  { apply ret_Ret in Hrun as [_ <-]. destruct Hc as [|(? & ? & ? & _)]; [done|set_solver]. }
  apply NoDup_cons in Hnd as [Hni Hnd].
  apply bind_Ret in Hrun as ([] & s1 & Hrun1 & Hrun).
  destruct (Hl a) as (o & Ho & Ha); [set_solver|].
  destruct (commit_account_Ret _ _ _ _ Hrun1 Ho Ha) as [Hs1 Hac].
  assert (stateObjects s1 = stateObjects s) as Hobj by (by rewrite Hs1).
  eapply IH; [done|split; [done|rewrite Hobj; set_solver]|done| |].
  { intros b ob c' Hb. rewrite Hobj. apply Hone. set_solver. }
  destruct Hc as [Hc|(b & ob & Hb & Hob & Hg & Hd & Hh & Hcode)].
  - left. destruct (decide (gone o = false /\ dirtyCode o = true /\ CodeHash (account o) = h /\
      is_Some (code o))) as [(Hg & Hd & Hh & [c' Hc'])|Hnot].
    + rewrite <- Hh. rewrite (ac_code_written _ _ _ _ Hac c'); auto.
      * f_equal. eapply Hone; [|done..]. set_solver.
      * rewrite (Hone a o c'); [done|set_solver|done..].
    + rewrite (ac_code_kept _ _ _ _ Hac); [done|]. intros ? ? ? ?. naive_solver.
  - apply elem_of_cons in Hb as [->|Hb].
    + left. simplify_eq. by apply (ac_code_written _ _ _ _ Hac).
    + right. exists b, ob. rewrite Hobj. auto 10.
Qed.

(** Code under a hash that no written object has stays. *)
Definition code_untouched s (l : list Z) (h : Z) : Prop :=
  forall a o, a ∈ l -> stateObjects s !! a = Some o -> gone o = false ->
    dirtyCode o = true -> is_Some (code o) -> CodeHash (account o) <> h.

Lemma commit_each_code_kept l s s' h :
  each commit_account l s = (Ret tt, s') -> listed s l -> code_untouched s l h ->
  keeper_GetCode (keeper s') h = keeper_GetCode (keeper s) h.
Proof.
  revert s. induction l as [|a l IH]; intros s Hrun [Hnd Hl] Hun; simpl in Hrun.
  { by apply ret_Ret in Hrun as [_ <-]. }
  apply NoDup_cons in Hnd as [_ Hnd].
  apply bind_Ret in Hrun as ([] & s1 & Hrun1 & Hrun).
  destruct (Hl a) as (o & Ho & Ha); [set_solver|].
  destruct (commit_account_Ret _ _ _ _ Hrun1 Ho Ha) as [Hs1 Hac].
  assert (stateObjects s1 = stateObjects s) as Hobj by (by rewrite Hs1).
  rewrite (IH s1); [|done|split; [done|rewrite Hobj; set_solver]|].
  - apply (ac_code_kept _ _ _ _ Hac). intros ? ? ?. apply (Hun a); [set_solver|done..].
  - intros b ob Hb. rewrite Hobj. apply Hun. set_solver.
Qed.

(** ** [Commit] *)

Lemma sortedDirties_spec s a : a ∈ sortedDirties s <-> is_Some (dirties s !! a).
Proof.
  unfold sortedDirties. rewrite list_elem_of_fmap. split.
  - intros ([? v] & -> & Hin). apply elem_of_iterate in Hin. eauto.
  - intros [v Hv]. exists (a, v). split; [done|]. by apply elem_of_iterate.
Qed.

Lemma listed_dirties s : wf s -> listed s (sortedDirties s).
Proof.
  intros Hwf. split; [apply iterate_NoDup|]. intros a Ha%sortedDirties_spec.
  destruct (wf_dirty_live s Hwf a Ha) as [o Ho]. exists o. split; [done|].
  by apply (wf_address s Hwf).
Qed.

Lemma commit_account_terminates a s :
  is_Some (stateObjects s !! a) ->
  (exists s', commit_account a s = (Ret tt, s') /\ stateObjects s' = stateObjects s) \/
  (exists s', commit_account a s = (Err tt, s')).
Proof.
  intros [o Ho]. unfold commit_account, live, bind, get. rewrite Ho. simpl.
  destruct (suicided o || selfDestructed o).
  - destruct (keeper_DeleteAccount _ _); [left|right]; eauto.
  - unfold modify. destruct (keeper_SetAccount _ _ _); [left|right]; eauto.
Qed.

(** No object [Commit] writes is nil: it returns, or the keeper's error. *)
Lemma Commit_terminates s :
  wf s -> exists s', Commit s = (Ret tt, s') \/ Commit s = (Err tt, s').
Proof.
  intros Hwf. unfold Commit. rewrite bind_get. apply listed_dirties in Hwf as [_ Hl].
  assert (forall a, a ∈ sortedDirties s -> is_Some (stateObjects s !! a)) as Hlive
    by (intros a Ha; destruct (Hl a Ha) as (o & ? & _); eauto).
  clear Hl. generalize dependent (sortedDirties s). intros l. revert s.
  induction l as [|a l IH]; intros s Hl; simpl; [by exists s; left|].
  destruct (commit_account_terminates a s) as [(s1 & Hrun & Hobj)|(s1 & Hrun)]; [set_solver| |].
  - destruct (IH s1) as (s' & Hs'); [rewrite Hobj; set_solver|]. exists s'.
    unfold bind. by rewrite Hrun.
  - exists s1. right. unfold bind. by rewrite Hrun.
Qed.

(** What [Commit] is to leave in the keeper for the addresses of [s]. *)
Record persisted s (k' : K) : Prop := mkPersisted {
  ps_clean : forall a, dirties s !! a = None ->
    keeper_GetAccount k' a = keeper_GetAccount (keeper s) a /\
    forall key, keeper_GetState k' a key = keeper_GetState (keeper s) a key;
  ps_gone : forall a o, is_Some (dirties s !! a) -> stateObjects s !! a = Some o ->
    gone o = true ->
    keeper_GetAccount k' a = None /\
    (is_Some (keeper_GetAccount (keeper s) a) -> forall key, keeper_GetState k' a key = 0);
  ps_account : forall a o, is_Some (dirties s !! a) -> stateObjects s !! a = Some o ->
    gone o = false -> keeper_accepts (keeper s) a (account o) ->
    keeper_GetAccount k' a = Some (account o);
  ps_state : forall a o, is_Some (dirties s !! a) -> stateObjects s !! a = Some o ->
    gone o = false -> forall key, keeper_GetState k' a key = sem_state (keeper s) o key;
  ps_code : forall a o c, is_Some (dirties s !! a) -> stateObjects s !! a = Some o ->
    gone o = false -> sem_code (keeper s) o = Some c -> c <> [] ->
    one_code s (sortedDirties s) (CodeHash (account o)) c ->
    keeper_GetCode k' (CodeHash (account o)) = Some c;
  ps_code_kept : forall h, code_untouched s (sortedDirties s) h ->
    keeper_GetCode k' h = keeper_GetCode (keeper s) h;
}.

Lemma Commit_code s s' a o c :
  Commit s = (Ret tt, s') -> wf s -> is_Some (dirties s !! a) -> stateObjects s !! a = Some o ->
  gone o = false -> sem_code (keeper s) o = Some c -> c <> [] ->
  one_code s (sortedDirties s) (CodeHash (account o)) c ->
  keeper_GetCode (keeper s') (CodeHash (account o)) = Some c.
Proof.
  intros Hrun Hwf Hd Ho Hg Hsem Hne Hone. unfold Commit in Hrun. rewrite bind_get in Hrun.
  eapply commit_each_code; [done|by apply listed_dirties|done|done|].
  unfold sem_code in Hsem. destruct (code o) as [c'|] eqn:Hc.
  - injection Hsem as ->. destruct (dirtyCode o) eqn:Hdc.
    + right. exists a, o. by rewrite sortedDirties_spec.
    + left. by apply (st_code _ _ (wf_stored s Hwf a o Ho)).
  - left. by destruct (_ =? _).
Qed.

Lemma Commit_Ret s s' : Commit s = (Ret tt, s') -> wf s -> persisted s (keeper s').
Proof.
  intros Hrun Hwf. pose proof Hrun as Hrun'. unfold Commit in Hrun. rewrite bind_get in Hrun.
  destruct (commit_each_Ret _ _ _ Hrun (listed_dirties s Hwf)) as (_ & Hout & Hin).
  setoid_rewrite sortedDirties_spec in Hin. setoid_rewrite sortedDirties_spec in Hout.
  constructor.
  - intros a Ha%eq_None_not_Some. destruct (Hout a Ha) as (H1 & H2 & _). auto.
  - intros a o Hd Ho Hg. destruct (Hin a o Hd Ho) as (k1 & k2 & Hac & H1 & H2 & H3 & H4 & H5).
    rewrite H4, <- H1. setoid_rewrite H5. by apply (ac_gone _ _ _ _ Hac).
  - intros a o Hd Ho Hg Hy. destruct (Hin a o Hd Ho) as (k1 & k2 & Hac & _ & _ & H3 & -> & _).
    apply (ac_kept _ _ _ _ Hac); auto.
  - intros a o Hd Ho Hg key. destruct (Hin a o Hd Ho) as (k1 & k2 & Hac & _ & H2 & _ & _ & ->).
    apply (ac_state _ _ _ _ Hac); [done|by apply (wf_stored s Hwf a)|done].
  - intros a o c Hd Ho. by apply (Commit_code s s' a o c).
  - intros h. by apply (commit_each_code_kept _ _ _ _ Hrun), listed_dirties.
Qed.
End Commit.
