(* ===== verification/EvmKeeper.v ===== *)
(** * x/evm/keeper: the keeper behind the StateDB

    [keeper/statedb.go], the account reads of [keeper/keeper.go] and
    [EthAccount] of [types/account.go].  The auth and bank keepers of the SDK
    are parameters with the laws the code relies on.  The module's own store
    holds code by hash and storage words by address and key; its EVM
    denomination is read from the parameters, and is a valid denomination or
    empty on a pruned node.

    [evm_keeper] makes it a keeper of the StateDB, and [evm_keeper_laws] shows
    that it is the one [Commit] expects. *)

From S2P Require Import Prelude StateDB StateDBFacts StateDBCommit.

(** ** The SDK keepers *)

(** An account of the auth module: its sequence and, when it is an
    [EthAccountI], its code hash. *)
Record AuthAccount : Type := mkAuth {
  GetSequence : Z;
  eth_CodeHash : option Z;
  account_number : Z;
}.

Definition SetSequence (n : Z) (x : AuthAccount) : AuthAccount :=
  mkAuth n (eth_CodeHash x) (account_number x).

Definition SetCodeHash (h : Z) (x : AuthAccount) : AuthAccount :=
  mkAuth (GetSequence x) (Some h) (account_number x).

Class AuthKeeper (A : Type) : Type := {
  auth_GetAccount : A -> Z -> option AuthAccount;
  auth_NewAccount : A -> Z -> AuthAccount * A;
  auth_SetAccount : A -> Z -> AuthAccount -> A;
  auth_RemoveAccount : A -> Z -> A;
}.

(** The store is a map, and a new account is one of [ProtoAccount]. *)
Class AuthLaws (A : Type) `{AuthKeeper A} `{Hashing} : Prop := {
  auth_get_set : forall m a x b,
    auth_GetAccount (auth_SetAccount m a x) b = if decide (a = b) then Some x else auth_GetAccount m b;
  auth_get_new : forall m a b, auth_GetAccount (auth_NewAccount m a).2 b = auth_GetAccount m b;
  auth_get_remove : forall m a b,
    auth_GetAccount (auth_RemoveAccount m a) b = if decide (a = b) then None else auth_GetAccount m b;
  auth_new_proto : forall m a, eth_CodeHash (auth_NewAccount m a).1 = Some emptyCodeHash;
}.

(** The bank operations of the EVM module, one coin each, and the address of
    its module account. *)
Class EvmBank (B : Type) : Type := {
  evm_module_address : Z;
  bank_GetBalance : B -> Z -> string -> Z;
  bank_MintCoins : B -> string -> Z -> option B;
  bank_BurnCoins : B -> string -> Z -> option B;
  bank_FromModule : B -> Z -> string -> Z -> option B;
  bank_ToModule : B -> Z -> string -> Z -> option B;
}.

(** [b'] is [b] with [x] of [denom] more at [a]. *)
Definition credited {B} `{EvmBank B} (b b' : B) (denom : string) (f : Z -> Z) : Prop :=
  forall a d, bank_GetBalance b' a d = bank_GetBalance b a d + (if decide (d = denom) then f a else 0).

Definition at_addr (a0 x a : Z) : Z := if decide (a = a0) then x else 0.

Class EvmBankLaws (B : Type) `{EvmBank B} : Prop := {
  mint_law : forall b d x b', bank_MintCoins b d x = Some b' ->
    credited b b' d (at_addr evm_module_address x);
  burn_law : forall b d x b', bank_BurnCoins b d x = Some b' ->
    credited b b' d (at_addr evm_module_address (- x));
  from_module_law : forall b a d x b', bank_FromModule b a d x = Some b' ->
    credited b b' d (fun c => at_addr evm_module_address (- x) c + at_addr a x c);
  to_module_law : forall b a d x b', bank_ToModule b a d x = Some b' ->
    credited b b' d (fun c => at_addr a (- x) c + at_addr evm_module_address x c);
}.

(** ** The store *)

Record EvmStore (A B : Type) : Type := mkEvm {
  evm_auth : A;
  evm_bank : B;
  evm_code : gmap Z (list Z);
  evm_storage : gmap (Z * Z) Z;
  EvmDenom : string;
}.
Arguments mkEvm {A B}.
Arguments evm_auth {A B}.
Arguments evm_bank {A B}.
Arguments evm_code {A B}.
Arguments evm_storage {A B}.
Arguments EvmDenom {A B}.

Section EvmKeeper.
Context {A B : Type} {HAuth : AuthKeeper A} {HBank : EvmBank B} {HHash : Hashing}.
Implicit Types k : EvmStore A B.

Definition evm_with_auth (v : A) k := mkEvm v (evm_bank k) (evm_code k) (evm_storage k) (EvmDenom k).
Definition evm_with_bank (v : B) k := mkEvm (evm_auth k) v (evm_code k) (evm_storage k) (EvmDenom k).
Definition evm_with_code v k := mkEvm (evm_auth k) (evm_bank k) v (evm_storage k) (EvmDenom k).
Definition evm_with_storage v k := mkEvm (evm_auth k) (evm_bank k) (evm_code k) v (EvmDenom k).

(** ** Reads *)

Definition GetAccountWithoutBalance k (addr : Z) : option (Z * Z) :=
  match auth_GetAccount (evm_auth k) addr with
  | None => None
  | Some acct =>
      let codeHash := match eth_CodeHash acct with Some h => h | None => emptyCodeHash end in
      Some (GetSequence acct, codeHash)
  end.

Definition evm_GetBalance k (addr : Z) : Z :=
  if bool_decide (EvmDenom k = EmptyString) then -1
  else bank_GetBalance (evm_bank k) addr (EvmDenom k).

Definition evm_GetAccount k (addr : Z) : option Account :=
  match GetAccountWithoutBalance k addr with
  | None => None
  | Some (nonce, codeHash) => Some (mkAccount nonce (evm_GetBalance k addr) codeHash)
  end.

Definition GetAccountOrEmpty k (addr : Z) : Account :=
  match evm_GetAccount k addr with
  | Some acct => acct
  | None => mkAccount 0 0 emptyCodeHash
  end.

Definition evm_GetNonce k (addr : Z) : Z :=
  match auth_GetAccount (evm_auth k) addr with
  | None => 0
  | Some acct => GetSequence acct
  end.

Definition evm_GetState k (addr key : Z) : Z :=
  match evm_storage k !! (addr, key) with
  | None => 0
  | Some value => value
  end.

Definition evm_GetCode k (codeHash : Z) : option (list Z) := evm_code k !! codeHash.

(** The words of an address, in the order of their keys. *)
Definition storage_leb (x y : Z * Z) : bool :=
  (x.1 <? y.1) || ((x.1 =? y.1) && (x.2 <=? y.2)).

Definition account_words k (addr : Z) : list (Z * Z) :=
  (fun kv => (kv.1.2, kv.2)) <$>
    filter (fun kv => kv.1.1 = addr) (iterate storage_leb (evm_storage k)).

(** The callback answers whether to go on. *)
Fixpoint each_word {X} (cb : Z -> Z -> X -> bool * X) (l : list (Z * Z)) (x : X) : X :=
  match l with
  | [] => x
  | (key, value) :: l' => let '(more, x') := cb key value x in
      if more : bool then each_word cb l' x' else x'
  end.

Definition evm_ForEachStorage {X} k (addr : Z) (cb : Z -> Z -> X -> bool * X) (x : X) : X :=
  each_word cb (account_words k addr) x.

Definition GetAccountStorage k (addr : Z) : list (Z * Z) :=
  evm_ForEachStorage k addr (fun key value storage => (true, storage ++ [(key, value)])) [].

(** ** Writes *)

(** [None] is an error of the bank. *)
Definition evm_SetBalance k (addr amount : Z) : option (EvmStore A B) :=
  let balance := bank_GetBalance (evm_bank k) addr (EvmDenom k) in
  let delta := amount - balance in
  if 0 <? delta then
    match bank_MintCoins (evm_bank k) (EvmDenom k) delta with
    | None => None
    | Some b1 =>
        match bank_FromModule b1 addr (EvmDenom k) delta with
        | None => None
        | Some b2 => Some (evm_with_bank b2 k)
        end
    end
  else if delta <? 0 then
    match bank_ToModule (evm_bank k) addr (EvmDenom k) (- delta) with
    | None => None
    | Some b1 =>
        match bank_BurnCoins b1 (EvmDenom k) (- delta) with
        | None => None
        | Some b2 => Some (evm_with_bank b2 k)
        end
    end
  else Some k.

Definition evm_SetAccount k (addr : Z) (acct : Account) : option (EvmStore A B) :=
  let '(x, m) := match auth_GetAccount (evm_auth k) addr with
                 | Some x => (x, evm_auth k)
                 | None => auth_NewAccount (evm_auth k) addr
                 end in
  let x1 := SetSequence (Nonce acct) x in
  let x2 := match eth_CodeHash x1 with
            | Some _ => SetCodeHash (CodeHash acct) x1
            | None => x1
            end in
  evm_SetBalance (evm_with_auth (auth_SetAccount m addr x2) k) addr (Balance acct).

(** An empty value deletes the word. *)
Definition evm_SetState k (addr key : Z) (value : option Z) : EvmStore A B :=
  match value with
  | None => evm_with_storage (delete (addr, key) (evm_storage k)) k
  | Some v => evm_with_storage (<[(addr, key) := v]> (evm_storage k)) k
  end.

Definition evm_SetCode k (codeHash : Z) (c : option (list Z)) : EvmStore A B :=
  match c with
  | None | Some [] => evm_with_code (delete codeHash (evm_code k)) k
  | Some c => evm_with_code (<[codeHash := c]> (evm_code k)) k
  end.

Definition evm_DeleteAccount k (addr : Z) : option (EvmStore A B) :=
  match auth_GetAccount (evm_auth k) addr with
  | None => Some k
  | Some acct =>
      match eth_CodeHash acct with
      | None => None
      | Some _ =>
          match evm_SetBalance k addr 0 with
          | None => None
          | Some k1 =>
              let k2 := evm_ForEachStorage k1 addr
                          (fun key _ k' => (true, evm_SetState k' addr key None)) k1 in
              Some (evm_with_auth (auth_RemoveAccount (evm_auth k2) addr) k2)
          end
      end
  end.

#[export] Instance evm_keeper : Keeper (EvmStore A B) := {|
  keeper_GetAccount := evm_GetAccount;
  keeper_GetState := evm_GetState;
  keeper_GetCode := evm_GetCode;
  keeper_SetAccount := evm_SetAccount;
  keeper_SetState := fun k addr key v => evm_SetState k addr key (Some v);
  keeper_SetCode := evm_SetCode;
  keeper_DeleteAccount := evm_DeleteAccount;
|}.

(** ** The laws of the StateDB's keeper *)

Context {HAuthLaws : AuthLaws A} {HBankLaws : EvmBankLaws B}.

(** A new balance: the difference is minted or burned, and nobody else's
    balance moves. *)
Lemma evm_SetBalance_Some k a x k' :
  evm_SetBalance k a x = Some k' ->
  exists b', k' = evm_with_bank b' k /\ forall c d,
    bank_GetBalance b' c d =
    if decide (c = a /\ d = EvmDenom k) then x else bank_GetBalance (evm_bank k) c d.
Proof.
  unfold evm_SetBalance. set (bal := bank_GetBalance (evm_bank k) a (EvmDenom k)).
  intros Hrun. destruct (0 <? x - bal) eqn:Hpos; [|destruct (x - bal <? 0) eqn:Hneg].
  - destruct (bank_MintCoins _ _ _) as [b1|] eqn:H1; [|done].
    destruct (bank_FromModule _ _ _ _) as [b2|] eqn:H2; [|done]. injection Hrun as <-.
    exists b2. split; [done|]. intros c d. rewrite (from_module_law _ _ _ _ _ H2),
      (mint_law _ _ _ _ H1). unfold at_addr.
    destruct (decide (d = EvmDenom k)) as [->|]; [|by rewrite decide_False by tauto; lia].
    destruct (decide (c = a)) as [->|]; repeat case_decide; subst; fold bal; try tauto; lia.
  - destruct (bank_ToModule _ _ _ _) as [b1|] eqn:H1; [|done].
    destruct (bank_BurnCoins _ _ _) as [b2|] eqn:H2; [|done]. injection Hrun as <-.
    exists b2. split; [done|]. intros c d. rewrite (burn_law _ _ _ _ H2),
      (to_module_law _ _ _ _ _ H1). unfold at_addr.
    destruct (decide (d = EvmDenom k)) as [->|]; [|by rewrite decide_False by tauto; lia].
    destruct (decide (c = a)) as [->|]; repeat case_decide; subst; fold bal; try tauto; lia.
  - injection Hrun as <-. exists (evm_bank k). split; [by destruct k|]. intros c d.
    case_decide as Hd; [destruct Hd as [-> ->]; fold bal; lia|done].
Qed.

(** Only code hashes of Ethereum accounts are stored, and balances need a
    denomination. *)
Definition evm_accepts k (a : Z) (x : Account) : Prop :=
  EvmDenom k <> EmptyString /\
  match auth_GetAccount (evm_auth k) a with
  | Some y => eth_CodeHash y = None -> CodeHash x = emptyCodeHash
  | None => True
  end.

(** The account [SetAccount] writes. *)
Definition written_account k (a : Z) (acct : Account) : AuthAccount * A :=
  let '(x, m) := match auth_GetAccount (evm_auth k) a with
                 | Some x => (x, evm_auth k)
                 | None => auth_NewAccount (evm_auth k) a
                 end in
  let x1 := SetSequence (Nonce acct) x in
  (match eth_CodeHash x1 with Some _ => SetCodeHash (CodeHash acct) x1 | None => x1 end, m).

Lemma evm_SetAccount_Some k a acct k' :
  evm_SetAccount k a acct = Some k' ->
  exists b' m', k' = mkEvm m' b' (evm_code k) (evm_storage k) (EvmDenom k) /\
    (forall c, auth_GetAccount m' c =
       if decide (a = c) then Some (written_account k a acct).1 else auth_GetAccount (evm_auth k) c) /\
    (forall c d, bank_GetBalance b' c d =
       if decide (c = a /\ d = EvmDenom k) then Balance acct else bank_GetBalance (evm_bank k) c d).
Proof.
  unfold evm_SetAccount. intros Hrun.
  set (m := (written_account k a acct).2).
  assert (evm_SetBalance (evm_with_auth (auth_SetAccount m a (written_account k a acct).1) k) a
            (Balance acct) = Some k') as Hbal.
  { rewrite <- Hrun. unfold m, written_account. by destruct (auth_GetAccount (evm_auth k) a) as
      [|]; [|destruct (auth_NewAccount _ _)]. }
  apply evm_SetBalance_Some in Hbal as (b' & -> & Hb).
  exists b', (auth_SetAccount m a (written_account k a acct).1). split_and!; [done| |exact Hb].
  intros c. rewrite auth_get_set. case_decide; [done|]. unfold m, written_account.
  destruct (auth_GetAccount (evm_auth k) a); [done|].
  destruct (auth_NewAccount (evm_auth k) a) as [x m1] eqn:Hnew. simpl.
  by rewrite <- (auth_get_new (evm_auth k) a c), Hnew.
Qed.

Lemma written_account_seq k a acct : GetSequence (written_account k a acct).1 = Nonce acct.
Proof.
  unfold written_account. destruct (auth_GetAccount (evm_auth k) a) as [y|].
  - simpl. by destruct (eth_CodeHash y).
  - destruct (auth_NewAccount _ _) as [y m]. simpl. by destruct (eth_CodeHash y).
Qed.

Lemma written_account_code k a acct :
  evm_accepts k a acct ->
  default emptyCodeHash (eth_CodeHash (written_account k a acct).1) = CodeHash acct.
Proof.
  unfold evm_accepts, written_account. intros [_ Hacc].
  destruct (auth_GetAccount (evm_auth k) a) as [y|].
  - simpl. destruct (eth_CodeHash y) eqn:Hy; simpl; [done|]. rewrite Hy. by rewrite Hacc.
  - pose proof (auth_new_proto (evm_auth k) a) as Hn.
    destruct (auth_NewAccount _ _) as [y m]. simpl in *. by rewrite Hn.
Qed.

(** ** Deleting *)

Lemma delete_words_spec l a k :
  let k' := each_word (fun key _ k' => (true, evm_SetState k' a key None)) l k in
  evm_auth k' = evm_auth k /\ evm_bank k' = evm_bank k /\ evm_code k' = evm_code k /\
  EvmDenom k' = EvmDenom k /\
  forall b key, evm_storage k' !! (b, key) =
    if decide (b = a /\ key ∈ l.*1) then None else evm_storage k !! (b, key).
Proof.
  revert k. induction l as [|[key v] l IH]; intros k; simpl.
  { split_and!; try done. intros b key. case_decide as Hd; [set_solver|done]. }
  destruct (IH (evm_SetState k a key None)) as (H1 & H2 & H3 & H4 & H5).
  split_and!; try done. intros b key'. rewrite H5. simpl.
  destruct (decide (b = a /\ key' ∈ l.*1)) as [Hd|Hd].
  { rewrite decide_True; [done|set_solver]. }
  destruct (decide (b = a /\ key' = key)) as [[-> ->]|Hne].
  - rewrite lookup_delete_eq, decide_True; [done|set_solver].
  - rewrite lookup_delete_ne by naive_solver. rewrite decide_False; [done|set_solver].
Qed.

Lemma account_words_spec k a key :
  key ∈ (account_words k a).*1 <-> is_Some (evm_storage k !! (a, key)).
Proof.
  unfold account_words. rewrite <- list_fmap_compose, list_elem_of_fmap. split.
  - intros ([[b key'] v] & Hk & Hin). simpl in Hk. subst key'.
    apply list_elem_of_filter in Hin as [Hb Hin]. simpl in Hb. subst b.
    apply elem_of_iterate in Hin. eauto.
  - intros [v Hv]. exists ((a, key), v). split; [done|]. apply list_elem_of_filter.
    split; [done|]. by apply elem_of_iterate.
Qed.

Lemma evm_DeleteAccount_Some k a k' :
  evm_DeleteAccount k a = Some k' ->
  (auth_GetAccount (evm_auth k) a = None /\ k' = k) \/
  exists b' m' st', k' = mkEvm m' b' (evm_code k) st' (EvmDenom k) /\
    (forall c, auth_GetAccount m' c = if decide (a = c) then None else auth_GetAccount (evm_auth k) c) /\
    (forall c d, bank_GetBalance b' c d =
       if decide (c = a /\ d = EvmDenom k) then 0 else bank_GetBalance (evm_bank k) c d) /\
    (forall c key, st' !! (c, key) = if decide (c = a) then None else evm_storage k !! (c, key)).
Proof.
  unfold evm_DeleteAccount. intros Hrun.
  destruct (auth_GetAccount (evm_auth k) a) as [y|] eqn:Hy; [|left; split; congruence].
  right. destruct (eth_CodeHash y); [|done].
  destruct (evm_SetBalance k a 0) as [k1|] eqn:Hbal; [|done]. injection Hrun as <-.
  apply evm_SetBalance_Some in Hbal as (b' & -> & Hb). unfold evm_ForEachStorage.
  set (k1 := evm_with_bank b' k).
  destruct (delete_words_spec (account_words k1 a) a k1) as (H1 & H2 & H3 & H4 & H5).
  set (k2 := each_word _ _ _) in *.
  exists b', (auth_RemoveAccount (evm_auth k2) a), (evm_storage k2). split_and!.
  - unfold evm_with_auth. by rewrite H2, H3, H4.
  - intros c. rewrite auth_get_remove, H1. done.
  - exact Hb.
  - intros c key. rewrite H5. destruct (decide (c = a)) as [->|]; [|by rewrite decide_False by tauto].
    case_decide as Hd; [done|]. apply eq_None_not_Some. intros Hs. apply Hd. split; [done|].
    by apply account_words_spec.
Qed.

(** Accounts other than [a] read the same when their auth account and their
    balance do. *)
Lemma evm_GetAccount_same k k' c :
  EvmDenom k' = EvmDenom k ->
  auth_GetAccount (evm_auth k') c = auth_GetAccount (evm_auth k) c ->
  bank_GetBalance (evm_bank k') c (EvmDenom k) = bank_GetBalance (evm_bank k) c (EvmDenom k) ->
  evm_GetAccount k' c = evm_GetAccount k c.
Proof.
  intros Hd Ha Hb. unfold evm_GetAccount, GetAccountWithoutBalance, evm_GetBalance.
  by rewrite Hd, Ha, Hb.
Qed.

Lemma evm_SetAccount_reads k a x k' :
  evm_SetAccount k a x = Some k' -> evm_accepts k a x -> evm_GetAccount k' a = Some x.
Proof.
  intros Hset Hacc. pose proof (written_account_seq k a x) as Hs.
  pose proof (written_account_code k a x Hacc) as Hc.
  apply evm_SetAccount_Some in Hset as (b' & m' & -> & Hm & Hb). destruct Hacc as [Hd _].
  unfold evm_GetAccount, GetAccountWithoutBalance, evm_GetBalance. simpl.
  rewrite Hm, decide_True, bool_decide_false, Hb, decide_True, Hs by done.
  unfold default in Hc. destruct (eth_CodeHash _); simpl in Hc; rewrite Hc; by destruct x.
Qed.

Lemma evm_SetAccount_keeps k a x k' :
  evm_SetAccount k a x = Some k' -> keeps_others a k k'.
Proof.
  intros (b' & m' & -> & Hm & Hb)%evm_SetAccount_Some. constructor; [|done]. intros c Hc.
  apply evm_GetAccount_same; simpl; [done| |].
  - by rewrite Hm, decide_False.
  - rewrite Hb, decide_False; [done|tauto].
Qed.

Lemma evm_DeleteAccount_keeps k a k' :
  evm_DeleteAccount k a = Some k' -> keeps_others a k k'.
Proof.
  intros [[_ ->]|(b' & m' & st' & -> & Hm & Hb & Hst)]%evm_DeleteAccount_Some; [done|].
  constructor.
  - intros c Hc. apply evm_GetAccount_same; simpl; [done| |].
    + by rewrite Hm, decide_False.
    + rewrite Hb, decide_False; [done|tauto].
  - intros c key Hc. simpl. unfold evm_GetState. simpl. by rewrite Hst, decide_False.
Qed.

#[export] Program Instance evm_keeper_laws : KeeperLaws (EvmStore A B) := {|
  keeper_accepts := evm_accepts;
|}.
Next Obligation. exact evm_SetAccount_reads. Qed.
Next Obligation. exact evm_SetAccount_keeps. Qed.
Next Obligation. intros k a x k' key (b' & m' & -> & _)%evm_SetAccount_Some. done. Qed.
Next Obligation. intros k a x k' h (b' & m' & -> & _)%evm_SetAccount_Some. done. Qed.
Next Obligation.
  intros k a x k' c y (b' & m' & -> & Hm & _)%evm_SetAccount_Some Hc.
  unfold evm_accepts. simpl. by rewrite Hm, decide_False.
Qed.
Next Obligation. intros k a key v. simpl. unfold evm_GetState. simpl. by rewrite lookup_insert_eq. Qed.
Next Obligation.
  intros k a key v key' Hne. simpl. unfold evm_GetState. simpl. rewrite lookup_insert_ne; naive_solver.
Qed.
Next Obligation.
  intros k a key v. constructor; [done|]. intros c key' Hc. simpl. unfold evm_GetState. simpl.
  rewrite lookup_insert_ne; naive_solver.
Qed.
Next Obligation. done. Qed.
Next Obligation. done. Qed.
Next Obligation. done. Qed.
Next Obligation.
  intros k h c Hc. simpl. unfold evm_GetCode, evm_SetCode. destruct c as [|x c]; [done|].
  simpl. apply lookup_insert_eq.
Qed.
Next Obligation.
  intros k h c h' Hne. simpl. unfold evm_GetCode, evm_SetCode.
  destruct c as [[|x c]|]; simpl; rewrite ?lookup_delete_ne, ?lookup_insert_ne by done; done.
Qed.
Next Obligation. intros k h c a. by destruct c as [[]|]. Qed.
Next Obligation. intros k h c a key. by destruct c as [[]|]. Qed.
Next Obligation. intros k h c a y. by destruct c as [[]|]. Qed.
Next Obligation.
  intros k a k' [[Ha ->]|(b' & m' & st' & -> & Hm & _)]%evm_DeleteAccount_Some; simpl;
    unfold evm_GetAccount, GetAccountWithoutBalance; simpl.
  - by rewrite Ha.
  - by rewrite Hm, decide_True.
Qed.
Next Obligation.
  intros k a k' key [[Ha ->]|(b' & m' & st' & -> & _ & _ & Hst)]%evm_DeleteAccount_Some Hs;
    simpl in *; unfold evm_GetAccount, GetAccountWithoutBalance in Hs.
  - rewrite Ha in Hs. by destruct Hs.
  - unfold evm_GetState. simpl. by rewrite Hst, decide_True.
Qed.
Next Obligation. exact evm_DeleteAccount_keeps. Qed.
Next Obligation.
  intros k a k' h [[_ ->]|(b' & m' & st' & -> & _)]%evm_DeleteAccount_Some; done.
Qed.
Next Obligation.
  intros k a k' c y [[_ ->]|(b' & m' & st' & -> & Hm & _)]%evm_DeleteAccount_Some Hc; [done|].
  unfold evm_accepts. simpl. by rewrite Hm, decide_False.
Qed.
End EvmKeeper.
