(* ===== verification/StateDBReads.v ===== *)
(** * x/evm/statedb: reads, and what writes change

    What a read returns is a function of the live object or of the keeper
    ([shows_state] and the like); states related by [sim] answer every read
    alike.  Writes change the value they name and no other.  The access list
    holds exactly what was added. *)

From S2P Require Import Prelude StateDB StateDBFacts StateDBRevert.

Section Reads.
Context {K : Type} {HKeeper : Keeper K} {HHash : Hashing}.
Implicit Types (s t : StateDB K) (o : stateObject).

Definition shows_state s (a key : Z) : Z :=
  match obj_at s a with Some o => sem_state (keeper s) o key | None => 0 end.
Definition shows_committed s (a key : Z) : Z :=
  match obj_at s a with Some o => sem_committed (keeper s) o key | None => 0 end.
Definition shows_code s (a : Z) : option (list Z) :=
  match obj_at s a with Some o => sem_code (keeper s) o | None => None end.
Definition shows_account s (a : Z) : option Account := account <$> obj_at s a.
Definition shows_balance s (a : Z) : Z :=
  match shows_account s a with Some x => Balance x | None => 0 end.
Definition shows_nonce s (a : Z) : Z :=
  match shows_account s a with Some x => Nonce x | None => 0 end.
Definition shows_suicided s (a : Z) : bool :=
  match obj_at s a with Some o => suicided o | None => false end.

(** ** Reads *)

(** Running a read on the object it loads. *)
Lemma read_loaded {C} a (f : option stateObject -> SM K C) s :
  (let! obj := getStateObject a in f obj) s = f (obj_at s a) (load a s).
Proof. unfold bind. by rewrite getStateObject_eq. Qed.

Lemma obj_Code_total a s :
  is_Some (stateObjects s !! a) -> exists c s', obj_Code a s = (Ret c, s').
Proof.
  intros [o Ho]. unfold obj_Code, live, bind, get. rewrite Ho. simpl.
  destruct (code o); [eauto|]. destruct (_ =? _); [eauto|]. unfold update_object, modify. eauto.
Qed.

Lemma obj_GetCommittedState_total a key s :
  is_Some (stateObjects s !! a) -> exists v s', obj_GetCommittedState a key s = (Ret v, s').
Proof.
  intros [o Ho]. unfold obj_GetCommittedState, live, bind, get. rewrite Ho. simpl.
  destruct (originStorage o !! key); [eauto|]. unfold update_object, modify. eauto.
Qed.

Lemma obj_GetState_total a key s :
  is_Some (stateObjects s !! a) -> exists v s', obj_GetState a key s = (Ret v, s').
Proof.
  intros Hl. pose proof Hl as [o Ho]. unfold obj_GetState.
  unfold bind at 1, live, bind at 1, get. rewrite Ho. simpl.
  destruct (dirtyStorage o !! key); [eauto|]. by apply obj_GetCommittedState_total.
Qed.

Lemma GetCode_spec a s :
  wf s -> exists s', GetCode a s = (Ret (shows_code s a), s').
Proof.
  intros Hwf. unfold GetCode, shows_code. rewrite read_loaded.
  destruct (obj_at s a) as [o|] eqn:Ho; [|by eexists].
  pose proof (load_lookup _ _ _ Ho) as Hl.
  destruct (obj_Code_total a (load a s)) as (c & s' & Hrun); [eauto|].
  pose proof Hrun as (o1 & o' & Ho1 & _ & _ & Heq & ->)%obj_Code_Ret; [|by apply wf_load].
  rewrite Hl in Ho1. injection Ho1 as <-. exists s'. rewrite Hrun.
  destruct (load_fields a s) as (_ & _ & _ & <- & _). by rewrite (eq_code _ _ _ Heq).
Qed.

Lemma GetState_spec a key s :
  wf s -> exists s', GetState a key s = (Ret (shows_state s a key), s').
Proof.
  intros Hwf. unfold GetState, shows_state. rewrite read_loaded.
  destruct (obj_at s a) as [o|] eqn:Ho; [|by eexists].
  pose proof (load_lookup _ _ _ Ho) as Hl.
  destruct (obj_GetState_total a key (load a s)) as (v & s' & Hrun); [eauto|].
  pose proof Hrun as (o1 & o' & Ho1 & _ & _ & _ & _ & ->)%obj_GetState_Ret; [|by apply wf_load].
  rewrite Hl in Ho1. injection Ho1 as <-. exists s'. rewrite Hrun.
  by destruct (load_fields a s) as (_ & _ & _ & <- & _).
Qed.

Lemma GetCommittedState_spec a key s :
  wf s -> exists s', GetCommittedState a key s = (Ret (shows_committed s a key), s').
Proof.
  intros Hwf. unfold GetCommittedState, shows_committed. rewrite read_loaded.
  destruct (obj_at s a) as [o|] eqn:Ho; [|by eexists].
  pose proof (load_lookup _ _ _ Ho) as Hl.
  destruct (obj_GetCommittedState_total a key (load a s)) as (v & s' & Hrun); [eauto|].
  pose proof Hrun as (o1 & o' & Ho1 & _ & _ & _ & _ & ->)%obj_GetCommittedState_Ret;
    [|by apply wf_load].
  rewrite Hl in Ho1. injection Ho1 as <-. exists s'. rewrite Hrun.
  by destruct (load_fields a s) as (_ & _ & _ & <- & _).
Qed.

Lemma GetBalance_spec a s : exists s', GetBalance a s = (Ret (shows_balance s a), s').
Proof.
  unfold GetBalance, shows_balance, shows_account. rewrite read_loaded. eexists.
  by destruct (obj_at s a).
Qed.

Lemma GetNonce_spec a s : exists s', GetNonce a s = (Ret (shows_nonce s a), s').
Proof.
  unfold GetNonce, shows_nonce, shows_account. rewrite read_loaded. eexists.
  by destruct (obj_at s a).
Qed.

(** ** The answers of the whole interface *)

Record answers : Type := mkAnswers {
  ans_Exist : Z -> outcome unit bool;
  ans_Empty : Z -> outcome unit bool;
  ans_Balance : Z -> outcome unit Z;
  ans_Nonce : Z -> outcome unit Z;
  ans_Code : Z -> outcome unit (option (list Z));
  ans_CodeSize : Z -> outcome unit Z;
  ans_CodeHash : Z -> outcome unit Z;
  ans_State : Z -> Z -> outcome unit Z;
  ans_Committed : Z -> Z -> outcome unit Z;
  ans_Suicided : Z -> outcome unit bool;
  ans_Transient : Z -> Z -> Z;
  ans_Refund : Z;
  ans_Logs : list Log;
  ans_Address : Z -> bool;
  ans_Slot : Z -> Z -> option (bool * bool);
}.

Definition ask s : answers := {|
  ans_Exist a := (Exist a s).1;
  ans_Empty a := (Empty a s).1;
  ans_Balance a := (GetBalance a s).1;
  ans_Nonce a := (GetNonce a s).1;
  ans_Code a := (GetCode a s).1;
  ans_CodeSize a := (GetCodeSize a s).1;
  ans_CodeHash a := (GetCodeHash a s).1;
  ans_State a key := (GetState a key s).1;
  ans_Committed a key := (GetCommittedState a key s).1;
  ans_Suicided a := (HasSuicided a s).1;
  ans_Transient a key := GetTransientState a key s;
  ans_Refund := refund s;
  ans_Logs := logs s;
  ans_Address a := AddressInAccessList a s;
  ans_Slot a slot := SlotInAccessList a slot s;
|}.

(** The two answer every read of the interface alike. *)
Definition same_answers (x y : answers) : Prop :=
  (forall a, ans_Exist x a = ans_Exist y a /\ ans_Empty x a = ans_Empty y a /\
    ans_Balance x a = ans_Balance y a /\ ans_Nonce x a = ans_Nonce y a /\
    ans_Code x a = ans_Code y a /\ ans_CodeSize x a = ans_CodeSize y a /\
    ans_CodeHash x a = ans_CodeHash y a /\ ans_Suicided x a = ans_Suicided y a /\
    ans_Address x a = ans_Address y a) /\
  (forall a key, ans_State x a key = ans_State y a key /\
    ans_Committed x a key = ans_Committed y a key /\
    ans_Transient x a key = ans_Transient y a key /\ ans_Slot x a key = ans_Slot y a key) /\
  ans_Refund x = ans_Refund y /\ ans_Logs x = ans_Logs y.

(** Reads of the object alone. *)
Lemma sim_read {C} a (f : option stateObject -> C) s t :
  sim s t -> (forall o1 o2, obj_equiv (keeper t) o1 o2 -> f (Some o1) = f (Some o2)) ->
  ((let! obj := getStateObject a in ret (f obj)) s).1 =
  ((let! obj := getStateObject a in ret (f obj)) t).1.
Proof.
  intros Hs Hf. rewrite !read_loaded. simpl. f_equal.
  destruct (sim_objects _ _ Hs a); [by apply Hf|done].
Qed.

Lemma sim_code s t a : sim s t -> shows_code s a = shows_code t a.
Proof.
  intros Hs. unfold shows_code. rewrite (sim_keeper _ _ Hs).
  destruct (sim_objects _ _ Hs a) as [o1 o2 Ho|]; [|done]. apply (eq_code _ _ _ Ho).
Qed.

Lemma sim_answers s t : wf s -> wf t -> sim s t -> same_answers (ask s) (ask t).
Proof.
  intros Hs Ht Hst. unfold same_answers. simpl.
  assert (forall a, (GetCode a s).1 = (GetCode a t).1) as Hcode.
  { intros a. destruct (GetCode_spec a s Hs) as [? ->], (GetCode_spec a t Ht) as [? ->]. simpl.
    f_equal. by apply sim_code. }
  split_and!; [intros a|intros a key|by destruct Hst..].
  - split_and!; try (apply sim_read; [done|]; intros o1 o2 Ho).
    + done.
    + unfold empty. by rewrite (eq_account _ _ _ Ho).
    + by rewrite (eq_account _ _ _ Ho).
    + by rewrite (eq_account _ _ _ Ho).
    + done.
    + specialize (Hcode a). unfold GetCodeSize, bind.
      destruct (GetCode a s) as [r1 ?], (GetCode a t) as [r2 ?]. simpl in Hcode. subst.
      by destruct r2.
    + by rewrite (eq_account _ _ _ Ho).
    + apply (eq_suicided _ _ _ Ho).
    + unfold AddressInAccessList. by rewrite (sim_access _ _ Hst).
  - destruct (GetState_spec a key s Hs) as [? ->], (GetState_spec a key t Ht) as [? ->].
    destruct (GetCommittedState_spec a key s Hs) as [? ->],
      (GetCommittedState_spec a key t Ht) as [? ->]. simpl.
    unfold shows_state, shows_committed, SlotInAccessList.
    rewrite (sim_access _ _ Hst), (sim_keeper _ _ Hst). split_and!; try done.
    + f_equal. destruct (sim_objects _ _ Hst a) as [o1 o2 Ho|]; [|done]. apply (eq_state _ _ _ Ho).
    + f_equal. destruct (sim_objects _ _ Hst a) as [o1 o2 Ho|]; [|done].
      apply (eq_committed _ _ _ Ho).
    + apply (sim_transient _ _ Hst).
Qed.

(** ** Writes *)

(** A keeper without storage of missing accounts, as [DeleteAccount] leaves it. *)
Definition no_orphans (k : K) : Prop :=
  forall a key, keeper_GetAccount k a = None -> keeper_GetState k a key = 0.

(** What an address shows: balance, nonce, code and storage. *)
Definition view_of (k : K) (x : option stateObject) : Z * Z * option (list Z) * (Z -> Z) :=
  match x with
  | Some o => (Balance (account o), Nonce (account o), sem_code k o, sem_state k o)
  | None => (0, 0, None, fun _ => 0)
  end.

Definition view s (a : Z) := view_of (keeper s) (obj_at s a).

Definition same_view (v w : Z * Z * option (list Z) * (Z -> Z)) : Prop :=
  v.1 = w.1 /\ forall key, v.2 key = w.2 key.

Lemma view_shows s a :
  view s a = (shows_balance s a, shows_nonce s a, shows_code s a, shows_state s a).
Proof.
  unfold view, shows_balance, shows_nonce, shows_account, shows_code, shows_state.
  by destruct (obj_at s a).
Qed.

Lemma view_put a o s b :
  view (put a o s) b = if decide (a = b) then view_of (keeper s) (Some o) else view s b.
Proof. unfold view. rewrite obj_at_put. by case_decide. Qed.

Lemma view_append e s b : view (journal_append e s) b = view s b.
Proof. done. Qed.

Lemma equiv_view k o1 o2 :
  obj_equiv k o1 o2 -> same_view (view_of k (Some o1)) (view_of k (Some o2)).
Proof.
  intros Ho. split; simpl; [|apply (eq_state _ _ _ Ho)].
  by rewrite (eq_account _ _ _ Ho), (eq_code _ _ _ Ho).
Qed.

(** The object to write: there is one, and it shows what the address did. *)
Lemma getOrNew_view a s :
  wf s -> no_orphans (keeper s) ->
  exists s1, getOrNewStateObject a s = (Ret tt, s1) /\ wf s1 /\ keeper s1 = keeper s /\
    is_Some (stateObjects s1 !! a) /\ forall b, same_view (view s1 b) (view s b).
Proof.
  intros Hwf Hno.
  destruct (getOrNewStateObject a s) as [r s1] eqn:Hrun.
  assert (exists s1, getOrNewStateObject a s = (Ret tt, s1) /\ keeper s1 = keeper s /\
    is_Some (stateObjects s1 !! a) /\ forall b, same_view (view s1 b) (view s b))
    as (s2 & Hrun2 & Hk & Hl & Hv).
  2: { rewrite Hrun in Hrun2. injection Hrun2 as -> ->. exists s2. split_and!; try done.
       by apply getOrNewStateObject_journaled in Hrun as (? & _). }
  clear Hrun. unfold getOrNewStateObject. rewrite read_loaded.
  destruct (obj_at s a) as [o|] eqn:Ho.
  - exists (load a s). split_and!; try done.
    + apply load_fields.
    + rewrite (load_lookup _ _ _ Ho). eauto.
    + intros b. unfold view. rewrite obj_at_load. by destruct (load_fields a s) as (_ & _ & _ & -> & _).
  - assert (load a s = s) as -> by (unfold load; by rewrite Ho).
    set (o := set_created true (newObject a NewEmptyAccount)).
    exists (put a o (journal_append (createObjectChange a) s)). split_and!; [|done|..].
    + unfold createObject, bind. rewrite getStateObject_eq, Ho. unfold load. by rewrite Ho.
    + simpl. rewrite lookup_insert_eq. eauto.
    + intros b.
      rewrite view_put. case_decide as Hd; [|done]. subst b. unfold view. rewrite Ho.
      split; simpl; [|intros key].
      * unfold sem_code. simpl. by rewrite Z.eqb_refl.
      * unfold sem_state, sem_committed. simpl. rewrite !lookup_empty. simpl. apply Hno.
        unfold obj_at in Ho. destruct (stateObjects s !! a); [done|].
        by destruct (keeper_GetAccount (keeper s) a).
Qed.

#[local] Instance same_view_equiv : Equivalence same_view.
Proof.
  split.
  - by intros x.
  - intros x y [H1 H2]. split; [done|]. intros. by rewrite H2.
  - intros x y z [] []. split; [congruence|]. intros. congruence.
Qed.

(** [s'] shows what [s] shows, but at [a] it shows [v]. *)
Definition view_updated s s' (a : Z) v : Prop :=
  same_view (view s' a) v /\ forall b, b <> a -> same_view (view s' b) (view s b).

Lemma view_updated_after s s1 s' a v w :
  (forall b, same_view (view s1 b) (view s b)) -> view_updated s1 s' a v -> same_view v w ->
  view_updated s s' a w.
Proof.
  intros H1 [H2 H3] Hw. split; [by etrans|]. intros b Hb. etrans; [by apply H3|apply H1].
Qed.

Lemma view_updated_put s a o : view_updated s (put a o s) a (view_of (keeper s) (Some o)).
Proof.
  split; [by rewrite view_put, decide_True|]. intros b Hb. by rewrite view_put, decide_False.
Qed.

Lemma view_updated_same s s' a v w :
  view_updated s s' a v -> same_view v w -> view_updated s s' a w.
Proof. intros [H1 H2] Hw. split; [by etrans|done]. Qed.

Lemma live_view s a o :
  stateObjects s !! a = Some o -> view s a = view_of (keeper s) (Some o).
Proof. intros Ho. unfold view, obj_at. by rewrite Ho. Qed.

Definition with_balance (x : Z) (v : Z * Z * option (list Z) * (Z -> Z)) :=
  let '(_, n, c, st) := v in (x, n, c, st).
Definition with_nonce (x : Z) (v : Z * Z * option (list Z) * (Z -> Z)) :=
  let '(b, _, c, st) := v in (b, x, c, st).
Definition with_word (key x : Z) (v : Z * Z * option (list Z) * (Z -> Z)) :=
  let '(b, n, c, st) := v in (b, n, c, fun k => if decide (k = key) then x else st k).

Lemma same_with_balance x v w : same_view v w -> same_view (with_balance x v) (with_balance x w).
Proof. destruct v as [[[]]], w as [[[]]]. intros [[=] Hst]. simpl in *. by subst. Qed.
Lemma same_with_nonce x v w : same_view v w -> same_view (with_nonce x v) (with_nonce x w).
Proof. destruct v as [[[]]], w as [[[]]]. intros [[=] Hst]. simpl in *. by subst. Qed.
Lemma same_with_word key x v w : same_view v w -> same_view (with_word key x v) (with_word key x w).
Proof.
  destruct v as [[[]]], w as [[[]]]. intros [[=] Hst]. simpl in *. subst. split; [done|].
  intros k. simpl. by case_decide.
Qed.

Lemma obj_SetBalance_view s a x :
  is_Some (stateObjects s !! a) -> exists s', obj_SetBalance a x s = (Ret tt, s') /\
  view_updated s s' a (with_balance x (view s a)).
Proof.
  intros [o Ho]. unfold obj_SetBalance, live, bind, get. rewrite Ho. simpl.
  unfold append, modify. rewrite (update_object_eq _ _ o) by done. eexists. split; [done|].
  rewrite (live_view _ _ _ Ho). apply (view_updated_put (journal_append _ s) a).
Qed.

Lemma obj_SetNonce_view s a x :
  is_Some (stateObjects s !! a) -> exists s', obj_SetNonce a x s = (Ret tt, s') /\
  view_updated s s' a (with_nonce x (view s a)).
Proof.
  intros [o Ho]. unfold obj_SetNonce, live, bind, get. rewrite Ho. simpl.
  unfold append, modify. rewrite (update_object_eq _ _ o) by done. eexists. split; [done|].
  rewrite (live_view _ _ _ Ho). apply (view_updated_put (journal_append _ s) a).
Qed.

Lemma sem_state_set k key v o key' :
  sem_state k (obj_setState key v o) key' = if decide (key' = key) then v else sem_state k o key'.
Proof.
  unfold sem_state. simpl. case_decide as Hd.
  - subst. by rewrite lookup_insert_eq.
  - by rewrite lookup_insert_ne.
Qed.

Lemma obj_SetState_view s a key v :
  wf s -> is_Some (stateObjects s !! a) -> exists s', obj_SetState a key v s = (Ret tt, s') /\
  view_updated s s' a (with_word key v (view s a)).
Proof.
  intros Hwf Hl. destruct (obj_GetState_total a key s Hl) as (prev & s1 & Hget).
  pose proof Hget as (o & o' & Ho & -> & _ & _ & Heq & ->)%obj_GetState_Ret; [|done].
  unfold obj_SetState, bind at 1. rewrite Hget. rewrite (live_view _ _ _ Ho).
  destruct (sem_state (keeper s) o key =? v) eqn:Hv.
  - eexists. split; [done|]. eapply view_updated_same; [apply view_updated_put|].
    etrans; [by apply equiv_view|]. split; [done|]. intros k. simpl.
    case_decide; [subst; lia|done].
  - unfold bind, append, modify. rewrite (update_object_eq _ _ o') by apply lookup_insert_eq.
    eexists. split; [done|].
    eapply (view_updated_after s (journal_append (storageChange a key (sem_state (keeper s) o key))
      (put a o' s))); [|apply view_updated_put|].
    + intros b. rewrite view_append, view_put. case_decide as Hd; [|done]. subst.
      rewrite (live_view _ _ _ Ho). by apply equiv_view.
    + split; simpl; [apply (equiv_view _ _ _ Heq)|]. intros k. rewrite sem_state_set.
      case_decide; [done|]. apply (eq_state _ _ _ Heq).
Qed.

(** ** The API's writes *)

Lemma SetState_view s a key v :
  wf s -> no_orphans (keeper s) -> exists s', SetState a key v s = (Ret tt, s') /\
  view_updated s s' a (with_word key v (view s a)).
Proof.
  intros Hwf Hno. destruct (getOrNew_view a s Hwf Hno) as (s1 & Hrun & Hwf1 & _ & Hl & Hv).
  destruct (obj_SetState_view s1 a key v Hwf1 Hl) as (s' & Hrun' & Hu).
  exists s'. unfold SetState, bind. rewrite Hrun. split; [done|].
  eapply view_updated_after; [done..|]. by apply same_with_word.
Qed.

Lemma SetNonce_view s a x :
  wf s -> no_orphans (keeper s) -> exists s', SetNonce a x s = (Ret tt, s') /\
  view_updated s s' a (with_nonce x (view s a)).
Proof.
  intros Hwf Hno. destruct (getOrNew_view a s Hwf Hno) as (s1 & Hrun & Hwf1 & _ & Hl & Hv).
  destruct (obj_SetNonce_view s1 a x Hl) as (s' & Hrun' & Hu).
  exists s'. unfold SetNonce, bind. rewrite Hrun. split; [done|].
  eapply view_updated_after; [done..|]. by apply same_with_nonce.
Qed.

Lemma same_balance s1 s a : same_view (view s1 a) (view s a) -> shows_balance s1 a = shows_balance s a.
Proof. rewrite !view_shows. by intros [[=] _]. Qed.

(** Adding [x], which may be negative. *)
Lemma add_balance_view (f : Z -> Z -> SM K unit) s a x y :
  (forall s1 o, stateObjects s1 !! a = Some o -> f a x s1 =
     if x =? 0 then (Ret tt, s1) else obj_SetBalance a (Balance (account o) + y) s1) ->
  (x = 0 -> y = 0) -> wf s -> no_orphans (keeper s) ->
  exists s', (do! getOrNewStateObject a ;; f a x) s = (Ret tt, s') /\
  view_updated s s' a (with_balance (shows_balance s a + y) (view s a)).
Proof.
  intros Hf Hxy Hwf Hno. destruct (getOrNew_view a s Hwf Hno) as (s1 & Hrun & Hwf1 & _ & Hl & Hv).
  unfold bind. rewrite Hrun. pose proof Hl as [o Ho]. rewrite (Hf _ _ Ho).
  assert (Balance (account o) = shows_balance s a) as Hb.
  { rewrite <- (same_balance _ _ _ (Hv a)). unfold shows_balance, shows_account, obj_at.
    by rewrite Ho. }
  rewrite Hb. destruct (x =? 0) eqn:Hx.
  - exists s1. split; [done|]. split; [|auto]. rewrite Hxy by lia. rewrite Z.add_0_r.
    etrans; [apply Hv|]. rewrite view_shows. done.
  - destruct (obj_SetBalance_view s1 a (shows_balance s a + y) Hl) as (s' & Hrun' & Hu).
    exists s'. split; [done|]. eapply view_updated_after; [done..|]. by apply same_with_balance.
Qed.

Lemma AddBalance_view s a x :
  wf s -> no_orphans (keeper s) -> exists s', AddBalance a x s = (Ret tt, s') /\
  view_updated s s' a (with_balance (shows_balance s a + x) (view s a)).
Proof.
  apply (add_balance_view obj_AddBalance); [|done]. intros s1 o Ho.
  unfold obj_AddBalance. case_match; [done|]. unfold live, bind at 1, bind at 1, get. by rewrite Ho.
Qed.

Lemma SubBalance_view s a x :
  wf s -> no_orphans (keeper s) -> exists s', SubBalance a x s = (Ret tt, s') /\
  view_updated s s' a (with_balance (shows_balance s a - x) (view s a)).
Proof.
  apply (add_balance_view obj_SubBalance s a x (- x)); [|lia]. intros s1 o Ho.
  unfold obj_SubBalance. case_match; [done|]. unfold live, bind at 1, bind at 1, get. by rewrite Ho.
Qed.
End Reads.

(** ** x/evm/statedb: the access list holds exactly what was added

    [access_list.go] keeps the slots of an address in a slice of sets, indexed
    by the address map.  [al_ok]: indices are in range and no two addresses
    share one. *)

Definition al_addr (al : accessList) (a : Z) : Prop := is_Some (addresses al !! a).

Definition al_slot (al : accessList) (a x : Z) : Prop :=
  exists i sm, addresses al !! a = Some (Z.of_nat i) /\ slots al !! i = Some sm /\ x ∈ sm.

Definition al_ok (al : accessList) : Prop :=
  forall a idx, addresses al !! a = Some idx -> idx <> -1 ->
    0 <= idx /\ (Z.to_nat idx < length (slots al))%nat /\
    forall b, addresses al !! b = Some idx -> b = a.

Lemma al_ok_new : al_ok newAccessList.
Proof. intros a idx. simpl. by rewrite lookup_empty. Qed.

Lemma ContainsAddress_spec al a : ContainsAddress al a = true <-> al_addr al a.
Proof. unfold ContainsAddress. by rewrite bool_decide_eq_true. Qed.

Lemma Contains_spec al a x :
  al_ok al -> exists ba bx, Contains al a x = Some (ba, bx) /\
    (ba = true <-> al_addr al a) /\ (bx = true <-> al_slot al a x).
Proof.
  intros Hok. unfold Contains, al_addr, al_slot.
  destruct (addresses al !! a) as [idx|] eqn:Ha.
  2: { exists false, false. split_and!; [done|by split; [|intros []]|].
       split; [done|]. by intros (i & sm & ? & _). }
  destruct (idx =? -1) eqn:Hidx.
  { assert (idx = -1) as -> by lia. exists true, false. split_and!; [done|by split; eauto|].
    split; [done|]. intros (i & sm & [= Hi] & _). lia. }
  destruct (Hok a idx Ha) as (Hpos & Hlt & _); [lia|].
  destruct (lookup_lt_is_Some_2 _ _ Hlt) as [sm Hsm]. rewrite Hsm.
  exists true, (bool_decide (x ∈ sm)). split_and!; [done|by split; eauto|].
  rewrite bool_decide_eq_true. split.
  - intros Hx. exists (Z.to_nat idx), sm. split_and!; [f_equal; lia|done|done].
  - intros (i & sm' & [= ->] & Hsm' & Hx). rewrite Nat2Z.id in Hsm. congruence.
Qed.

(** [al'] is [al] with the addresses [P] and the slots [Q] added. *)
Record al_adds (al al' : accessList) (P : Z -> Prop) (Q : Z -> Z -> Prop) : Prop := mkAdds {
  adds_ok : al_ok al -> al_ok al';
  adds_addr : forall b, al_addr al' b <-> al_addr al b \/ P b;
  adds_slot : al_ok al -> forall b x, al_slot al' b x <-> al_slot al b x \/ Q b x;
}.

Lemma al_adds_refl al : al_adds al al (fun _ => False) (fun _ _ => False).
Proof. constructor; tauto. Qed.

Lemma al_adds_trans al1 al2 al3 P1 P2 Q1 Q2 P Q :
  al_adds al1 al2 P1 Q1 -> al_adds al2 al3 P2 Q2 ->
  (forall b, P b <-> P1 b \/ P2 b) -> (forall b x, Q b x <-> Q1 b x \/ Q2 b x) ->
  al_adds al1 al3 P Q.
Proof.
  intros [H1 H2 H3] [H4 H5 H6] HP HQ. constructor; [tauto| |].
  - intros b. rewrite H5, H2, HP. tauto.
  - intros Hok b x. rewrite H6, H3, HQ by tauto. tauto.
Qed.

Lemma al_adds_iff al al' P Q P' Q' :
  al_adds al al' P Q -> (forall b, P' b <-> P b) -> (forall b x, Q' b x <-> Q b x) ->
  al_adds al al' P' Q'.
Proof.
  intros [H1 H2 H3] HP HQ. constructor; [done| |].
  - intros b. rewrite H2, HP. tauto.
  - intros Hok b x. rewrite H3, HQ by done. tauto.
Qed.

Lemma AddAddress_adds al a :
  al_adds al (AddAddress al a).2 (fun b => b = a) (fun _ _ => False).
Proof.
  unfold AddAddress. destruct (addresses al !! a) as [idx|] eqn:Ha; simpl.
  { constructor; [done| |tauto]. intros b. split; [tauto|]. intros [?| ->]; [done|].
    unfold al_addr. rewrite Ha. eauto. }
  constructor.
  - intros Hok b idx. simpl. rewrite lookup_insert_Some. intros [[_ <-]|[Hne Hb]] Hidx; [done|].
    destruct (Hok b idx Hb Hidx) as (? & ? & Hinj). split_and!; [done|done|]. intros c.
    rewrite lookup_insert_Some. intros [[_ <-]|[_ Hc]]; [done|]. auto.
  - intros b. unfold al_addr. simpl. destruct (decide (a = b)) as [->|].
    + rewrite lookup_insert_eq. naive_solver.
    + rewrite lookup_insert_ne by done. naive_solver.
  - intros Hok b x. unfold al_slot. simpl. destruct (decide (a = b)) as [->|].
    + rewrite lookup_insert_eq, Ha. split; [|naive_solver]. intros (i & ? & [= Hi] & _). lia.
    + rewrite lookup_insert_ne by done. tauto.
Qed.

(** The first slot of an address opens a new set. *)
Lemma fresh_slot_adds al a x :
  (forall idx, addresses al !! a = Some idx -> idx = -1) ->
  al_adds al (mkAccessList (<[a := Z.of_nat (length (slots al))]> (addresses al))
                (slots al ++ [{[ x ]}])) (fun b => b = a) (fun b y => b = a /\ y = x).
Proof.
  intros Ha. constructor.
  - intros Hok b idx. simpl. rewrite lookup_insert_Some, length_app. simpl.
    intros [[<- <-]|[Hne Hb]] Hidx.
    + split_and!; [lia|lia|]. intros c. rewrite lookup_insert_Some.
      intros [[<- _]|[_ Hc]]; [done|]. destruct (Hok c _ Hc) as (_ & Hlt & _); lia.
    + destruct (Hok b idx Hb Hidx) as (Hp & Hlt & Hinj). split_and!; [done|lia|].
      intros c. rewrite lookup_insert_Some. intros [[_ Hc]|[_ Hc]]; [lia|auto].
  - intros b. unfold al_addr. simpl. destruct (decide (a = b)) as [->|].
    + rewrite lookup_insert_eq. naive_solver.
    + rewrite lookup_insert_ne by done. naive_solver.
  - intros Hok b y. unfold al_slot. simpl. destruct (decide (a = b)) as [<-|Hne].
    + rewrite lookup_insert_eq. split.
      * intros (i & sm & [= <-%Nat2Z.inj] & Hsm & Hy).
        rewrite lookup_app_r, Nat.sub_diag in Hsm by lia. injection Hsm as <-.
        apply elem_of_singleton in Hy. auto.
      * intros [(i & sm & Hi & _)|[_ ->]]; [apply Ha in Hi; lia|].
        exists (length (slots al)), {[ x ]}. split_and!; [done| |set_solver].
        by rewrite lookup_app_r, Nat.sub_diag by lia.
    + rewrite lookup_insert_ne by done. split.
      * intros (i & sm & Hi & Hsm & Hy). left. exists i, sm. split_and!; [done| |done].
        destruct (Hok b _ Hi) as (_ & Hlt & _); [lia|].
        rewrite lookup_app_l in Hsm by lia. done.
      * intros [(i & sm & Hi & Hsm & Hy)|[-> _]]; [|done]. exists i, sm. split_and!; [done| |done].
        by apply lookup_app_l_Some.
Qed.

(** A further slot grows the set of its address. *)
Lemma more_slot_adds al a x i sm :
  addresses al !! a = Some (Z.of_nat i) -> slots al !! i = Some sm ->
  al_adds al (mkAccessList (addresses al) (<[i := {[ x ]} ∪ sm]> (slots al)))
    (fun b => b = a) (fun b y => b = a /\ y = x).
Proof.
  intros Ha Hsm. assert (i < length (slots al))%nat as Hi by (by eapply lookup_lt_Some).
  constructor.
  - intros Hok b idx Hb Hidx. simpl. rewrite length_insert. by apply (Hok b).
  - intros b. unfold al_addr. simpl. split; [tauto|]. intros [?| ->]; [done|]. rewrite Ha. eauto.
  - intros Hok b y. unfold al_slot. simpl. destruct (decide (a = b)) as [<-|Hne].
    + setoid_rewrite Ha. split.
      * intros (j & sm' & [= <-%Nat2Z.inj] & Hsm' & Hy).
        rewrite list_lookup_insert_eq in Hsm' by done. injection Hsm' as <-.
        apply elem_of_union in Hy as [->%elem_of_singleton|Hy]; [auto|]. left. eauto 10.
      * intros [(j & sm' & [= <-%Nat2Z.inj] & Hsm' & Hy)|[_ ->]];
          exists i, ({[ x ]} ∪ sm); (split_and!; [done|by apply list_lookup_insert_eq|set_solver]).
    + assert (forall j, addresses al !! b = Some (Z.of_nat j) -> i <> j) as Hdiff.
      { intros j Hb <-. apply Hne. destruct (Hok a _ Ha) as (_ & _ & Hinj); [lia|]. symmetry. auto. }
      split.
      * intros (j & sm' & Hb & Hsm' & Hy). left. rewrite list_lookup_insert_ne in Hsm' by auto. eauto 10.
      * intros [(j & sm' & Hb & Hsm' & Hy)|[-> _]]; [|done]. exists j, sm'.
        rewrite list_lookup_insert_ne by auto. done.
Qed.

Lemma AddSlot_adds al a x :
  al_ok al -> exists m1 m2 al', AddSlot al a x = Some (m1, m2, al') /\
    al_adds al al' (fun b => b = a) (fun b y => b = a /\ y = x).
Proof.
  intros Hok. unfold AddSlot. destruct (addresses al !! a) as [idx|] eqn:Ha.
  2: { do 3 eexists. split; [done|]. apply fresh_slot_adds. congruence. }
  destruct (idx =? -1) eqn:Hidx.
  { do 3 eexists. split; [done|]. apply fresh_slot_adds. intros ? [= <-]%(eq_trans (eq_sym Ha)). lia. }
  destruct (Hok a idx Ha) as (Hp & Hlt & _); [lia|].
  destruct (lookup_lt_is_Some_2 _ _ Hlt) as [sm Hsm]. rewrite Hsm.
  assert (addresses al !! a = Some (Z.of_nat (Z.to_nat idx))) as Ha' by (rewrite Ha; f_equal; lia).
  case_bool_decide as Hin; do 3 eexists; (split; [done|]); [|by apply more_slot_adds].
  constructor; [done| |].
  - intros b. unfold al_addr. split; [tauto|]. intros [?| ->]; [done|]. rewrite Ha. eauto.
  - intros _ b y. split; [tauto|]. intros [?|[-> ->]]; [done|]. by exists (Z.to_nat idx), sm.
Qed.

(** ** The operations of the StateDB *)

Section Access.
Context {K : Type} {HKeeper : Keeper K} {HHash : Hashing}.
Implicit Types s : StateDB K.

(** A computation that runs on every state with a sound access list and adds
    exactly [P] and [Q] to it. *)
Definition lists (c : SM K unit) (P : Z -> Prop) (Q : Z -> Z -> Prop) : Prop :=
  forall s, al_ok (access s) -> exists s', c s = (Ret tt, s') /\ al_adds (access s) (access s') P Q.

Lemma lists_ret : lists (ret tt) (fun _ => False) (fun _ _ => False).
Proof. intros s _. exists s. split; [done|]. apply al_adds_refl. Qed.

Lemma lists_seq c1 c2 P1 P2 P Q1 Q2 Q :
  lists c1 P1 Q1 -> lists c2 P2 Q2 ->
  (forall b, P b <-> P1 b \/ P2 b) -> (forall b x, Q b x <-> Q1 b x \/ Q2 b x) ->
  lists (do! c1 ;; c2) P Q.
Proof.
  intros H1 H2 HP HQ s Hs. destruct (H1 s Hs) as (s1 & Hrun1 & Ha1).
  destruct (H2 s1 (adds_ok _ _ _ _ Ha1 Hs)) as (s2 & Hrun2 & Ha2).
  exists s2. unfold bind. rewrite Hrun1. split; [done|]. by eapply al_adds_trans.
Qed.

Lemma lists_each {X} (f : X -> SM K unit) P Q (l : list X) :
  (forall x, lists (f x) (P x) (Q x)) ->
  lists (each f l) (fun b => exists x, x ∈ l /\ P x b) (fun b y => exists x, x ∈ l /\ Q x b y).
Proof.
  intros Hf. induction l as [|x l IH]; simpl.
  - intros s Hs. exists s. split; [done|]. eapply al_adds_iff; [apply al_adds_refl|..]; set_solver.
  - eapply lists_seq; [apply Hf|apply IH|..]; set_solver.
Qed.

Lemma AddAddress_lists a : lists (AddAddressToAccessList a) (fun b => b = a) (fun _ _ => False).
Proof.
  intros s Hs. unfold AddAddressToAccessList. rewrite bind_get.
  pose proof (AddAddress_adds (access s) a) as Hadd.
  destruct (AddAddress (access s) a) as [added al]. simpl in Hadd.
  unfold bind, modify. destruct added; eexists; (split; [done|]); done.
Qed.

Lemma AddSlot_lists a x :
  lists (AddSlotToAccessList a x) (fun b => b = a) (fun b y => b = a /\ y = x).
Proof.
  intros s Hs. unfold AddSlotToAccessList. rewrite bind_get.
  destruct (AddSlot_adds (access s) a x Hs) as (m1 & m2 & al & -> & Hadd).
  unfold bind, modify. destruct m1, m2; eexists; (split; [done|]); done.
Qed.

Lemma entry_lists (el : Z * list Z) :
  lists (do! AddAddressToAccessList el.1 ;; each (AddSlotToAccessList el.1) el.2)
    (fun b => b = el.1) (fun b y => b = el.1 /\ y ∈ el.2).
Proof.
  eapply lists_seq; [apply AddAddress_lists|apply lists_each, AddSlot_lists|..]; naive_solver.
Qed.

Lemma dst_lists (dst : option Z) :
  lists (match dst with Some d => AddAddressToAccessList d | None => ret tt end)
    (fun b => dst = Some b) (fun _ _ => False).
Proof.
  intros s Hs. destruct dst as [d|].
  - destruct (AddAddress_lists d s Hs) as (s' & Hrun & Hadd).
    exists s'. split; [done|]. eapply al_adds_iff; [done| |]; naive_solver.
  - exists s. split; [done|]. eapply al_adds_iff; [apply al_adds_refl|..]; naive_solver.
Qed.

Lemma PrepareAccessList_lists sender dst precompiles l :
  lists (PrepareAccessList sender dst precompiles l)
    (fun b => b = sender \/ dst = Some b \/ b ∈ precompiles \/ b ∈ l.*1)
    (fun b y => exists keys, (b, keys) ∈ l /\ y ∈ keys).
Proof.
  unfold PrepareAccessList.
  eapply lists_seq; [apply AddAddress_lists| |..].
  { eapply (lists_seq _ _ _ _ (fun b => dst = Some b \/ b ∈ precompiles \/ b ∈ l.*1) _ _
      (fun b y => exists keys, (b, keys) ∈ l /\ y ∈ keys)); [apply dst_lists| |..].
    { eapply (lists_seq _ _ _ _ (fun b => b ∈ precompiles \/ b ∈ l.*1) _ _
        (fun b y => exists keys, (b, keys) ∈ l /\ y ∈ keys));
        [apply (lists_each AddAddressToAccessList), AddAddress_lists
        |apply lists_each, entry_lists|..].
      - intros b. rewrite list_elem_of_fmap. naive_solver.
      - intros b y. split; [intros (keys & ? & ?); right; by exists (b, keys)|].
        intros [(? & ? & [])|([a keys] & ? & [= ->] & ?)]. eauto. }
    all: intros; simpl; tauto. }
  all: intros; simpl; tauto.
Qed.
End Access.
