(* ===== verification/StateDBTheorems.v ===== *)
(** * x/evm: properties of the StateDB and its keeper

    A concrete keeper with a run of the StateDB on it, and the theorems. *)

From S2P Require Import Prelude StateDB StateDBFacts StateDBRevert StateDBCommit.
From S2P Require Import EvmKeeper StateDBReads.

(** ** x/evm: a concrete keeper and a run of the StateDB

    Maps for the SDK's auth and bank keepers, their laws, and the states of a
    transaction on them: two accounts, a contract with storage, snapshots and
    a destructed account. *)

(** A polynomial stands for the hash. *)
#[export] Instance test_hashing : Hashing :=
  {| Keccak256 := fun c => foldr (fun x acc => x + 1 + 257 * acc) 5 c |}.

(** ** Auth and bank *)

Record AuthMap : Type := mkAuthMap { auth_map : gmap Z AuthAccount; next_number : Z }.

#[export] Instance auth_map_keeper : AuthKeeper AuthMap := {|
  auth_GetAccount := fun m a => auth_map m !! a;
  auth_NewAccount := fun m a =>
    (mkAuth 0 (Some emptyCodeHash) (next_number m), mkAuthMap (auth_map m) (next_number m + 1));
  auth_SetAccount := fun m a x => mkAuthMap (<[a := x]> (auth_map m)) (next_number m);
  auth_RemoveAccount := fun m a => mkAuthMap (delete a (auth_map m)) (next_number m);
|}.

#[export] Instance auth_map_laws : AuthLaws AuthMap.
Proof.
  split; simpl; intros; try done.
  - case_decide; [subst; apply lookup_insert_eq|by apply lookup_insert_ne].
  - case_decide; [subst; apply lookup_delete_eq|by apply lookup_delete_ne].
Qed.

Abbreviation Balances := (gmap (Z * string) Z).

Definition balance_of (b : Balances) (a : Z) (d : string) : Z := default 0 (b !! (a, d)).

Definition pay (b : Balances) (a : Z) (d : string) (x : Z) : option Balances :=
  if balance_of b a d + x <? 0 then None
  else Some (<[(a, d) := balance_of b a d + x]> b).

#[export] Instance balances_bank : EvmBank Balances := {|
  evm_module_address := 900;
  bank_GetBalance := balance_of;
  bank_MintCoins := fun b d x => pay b 900 d x;
  bank_BurnCoins := fun b d x => pay b 900 d (- x);
  bank_FromModule := fun b a d x =>
    match pay b 900 d (- x) with Some b1 => pay b1 a d x | None => None end;
  bank_ToModule := fun b a d x =>
    match pay b a d (- x) with Some b1 => pay b1 900 d x | None => None end;
|}.

Lemma pay_credited b a d x b' : pay b a d x = Some b' -> credited b b' d (at_addr a x).
Proof.
  unfold pay. case_match; intros [= <-] a' d'. unfold at_addr, balance_of. simpl.
  unfold balance_of. destruct (decide (d' = d)) as [->|Hd].
  - destruct (decide (a' = a)) as [->|Ha].
    + by rewrite lookup_insert_eq.
    + rewrite lookup_insert_ne by congruence. lia.
  - rewrite lookup_insert_ne by congruence. lia.
Qed.

Lemma credited_trans (b b1 b2 : Balances) d f g :
  credited b b1 d f -> credited b1 b2 d g -> credited b b2 d (fun a => f a + g a).
Proof. intros H1 H2 a d'. rewrite H2, H1. case_decide; lia. Qed.

#[export] Instance balances_laws : EvmBankLaws Balances.
Proof.
  split; simpl; intros b.
  - intros d x b'. apply pay_credited.
  - intros d x b'. apply pay_credited.
  - intros a d x b'. destruct (pay b 900 d (- x)) as [b1|] eqn:H1; [|done]. intros H2.
    apply (credited_trans b b1 b' d (at_addr 900 (- x)) (at_addr a x)); by apply pay_credited.
  - intros a d x b'. destruct (pay b a d (- x)) as [b1|] eqn:H1; [|done]. intros H2.
    apply (credited_trans b b1 b' d (at_addr a (- x)) (at_addr 900 x)); by apply pay_credited.
Qed.

(** ** A transaction *)

Definition store0 : EvmStore AuthMap Balances :=
  mkEvm (mkAuthMap {[ 1 := mkAuth 4 (Some emptyCodeHash) 0;
                      2 := mkAuth 1 (Some 77) 1;
                      3 := mkAuth 0 (Some 78) 2 ]} 3)
    {[ (1, "amoca"%string) := 1000; (2, "amoca"%string) := 50; (3, "amoca"%string) := 20 ]}
    {[ 77 := [96; 0]; 78 := [255] ]}
    {[ (2, 0) := 11; (2, 1) := 12; (3, 5) := 6 ]} "amoca".

Definition cfg0 : TxConfig := mkTxConfig 100 200 0 0.

Definition db0 : StateDB (EvmStore AuthMap Balances) := New store0 cfg0.

Definition ran (c : SM (EvmStore AuthMap Balances) unit) s := (c s).2.

(** Before the snapshot: a payment, a storage write and a log. *)
Definition ops0 : list op :=
  [OpPrepareAccessList 1 (Some 2) [9] [(2, [0; 1])]; OpSetNonce 1 5; OpSubBalance 1 100;
   OpAddBalance 2 100; OpSetState 2 0 21; OpAddLog 3].

Definition db1 : StateDB (EvmStore AuthMap Balances) := ran (run_ops ops0) db0.

Definition db2 : StateDB (EvmStore AuthMap Balances) := (Snapshot db1).2.

(** After it: a new contract, a nested snapshot that is reverted, a
    destructed account. *)
Definition ops1 : list op :=
  [OpCreateAccount 50; OpSetCode 50 (Some [1; 2; 3]); OpSetState 50 0 1; OpSnapshot;
   OpSetState 2 0 99; OpAddSlot 3 5; OpSetCode 2 (Some [7]); OpSuicide 2; OpRevertToSnapshot 1;
   OpSelfDestruct 3; OpSetState 2 1 0; OpAddRefund 4800; OpSetTransientState 2 0 1;
   OpGetState 3 5].

Definition db3 : StateDB (EvmStore AuthMap Balances) := ran (run_ops ops1) db2.

(** The whole run at once, and its commit. *)
Definition ops2 : list op := ops0 ++ OpSnapshot :: ops1.

Definition db4 : StateDB (EvmStore AuthMap Balances) := ran (run_ops ops2) db0.

Definition db5 : StateDB (EvmStore AuthMap Balances) := ran Commit db4.

(** A run that returns, from its outcome alone. *)
Lemma ran_Ret {X} (c : SM (EvmStore AuthMap Balances) X) s x :
  (c s).1 = Ret x -> c s = (Ret x, (c s).2).
Proof. destruct (c s). simpl. by intros ->. Qed.

(** The runs of the example return. *)
Lemma db1_run : run_ops ops0 db0 = (Ret tt, db1).
Proof. unfold db1, ran. apply (ran_Ret (run_ops ops0) db0 tt). by_eval. Qed.

Lemma db2_run : Snapshot db1 = (Ret 0, db2).
Proof. unfold db2. apply (ran_Ret Snapshot db1 0). by_eval. Qed.

Lemma db3_run : run_ops ops1 db2 = (Ret tt, db3).
Proof. unfold db3, ran. apply (ran_Ret (run_ops ops1) db2 tt). by_eval. Qed.

Lemma db4_run : run_ops ops2 db0 = (Ret tt, db4).
Proof. unfold db4, ran. apply (ran_Ret (run_ops ops2) db0 tt). by_eval. Qed.

Lemma db5_run : Commit db4 = (Ret tt, db5).
Proof. unfold db5, ran. apply (ran_Ret Commit db4 tt). by_eval. Qed.

(** [no_orphans] of a store, by looking at its words. *)
Definition words_owned (k : EvmStore AuthMap Balances) : bool :=
  forallb (fun kv => bool_decide (is_Some (evm_GetAccount k kv.1.1))) (map_to_list (evm_storage k)).

Lemma words_owned_spec k a key :
  words_owned k = true -> evm_GetAccount k a = None -> evm_GetState k a key = 0.
Proof.
  unfold words_owned, evm_GetState. rewrite forallb_forall. intros Hall Ha.
  destruct (evm_storage k !! (a, key)) as [v|] eqn:Hv; [|done].
  assert (((a, key), v) ∈ map_to_list (evm_storage k)) as Hin by (by apply elem_of_map_to_list).
  apply list_elem_of_In, Hall, bool_decide_eq_true in Hin. simpl in Hin. rewrite Ha in Hin.
  by destruct Hin.
Qed.

(** One account is written, one deleted. *)
Definition account_one : Account := mkAccount 9 1234 emptyCodeHash.

Definition store_written : EvmStore AuthMap Balances :=
  default store0 (evm_SetAccount store0 1 account_one).

Definition store_deleted : EvmStore AuthMap Balances := default store0 (evm_DeleteAccount store0 2).

Lemma default_Some {X} (d : X) o : bool_decide (is_Some o) = true -> o = Some (default d o).
Proof. by intros [x ->]%bool_decide_eq_true. Qed.

Lemma store_deleted_run : evm_DeleteAccount store0 2 = Some store_deleted.
Proof. unfold store_deleted. apply default_Some. by_eval. Qed.

Section Properties.
Context {K : Type} {HKeeper : Keeper K} {HLaws : KeeperLaws K} {HHash : Hashing}.

(** C6: [Snapshot] and [RevertToSnapshot] of statedb.go.  From any state the
    API can reach, whatever operations run after a snapshot, with nested
    snapshots and reverts to them, reverting to the snapshot does not panic
    and leaves a state that answers every read of the interface as the state
    the snapshot was taken in, with the same journal and the same older
    revisions. *)
Theorem snapshot_restores_everything (k : K) cfg l0 l (s s1 s2 : StateDB K) id :
  run_ops l0 (New k cfg) = (Ret tt, s) ->
  Snapshot s = (Ret id, s1) ->
  run_ops l s1 = (Ret tt, s2) ->
  Forall (younger id) l ->
  exists s3, RevertToSnapshot id s2 = (Ret tt, s3) /\
    same_answers (ask s3) (ask s) /\ entries s3 = entries s /\ dirties s3 = dirties s /\
    validRevisions s3 = validRevisions s /\ keeper s3 = k.
Proof.
  intros H0 Hs Hl Hy. pose proof (run_ops_inv _ _ _ H0 (inv_New k cfg)) as Hinv.
  destruct (snapshot_restored s id s1 l s2 Hinv Hs Hl Hy) as (s3 & Hr & Hsim & He & Hv & Hinv3).
  exists s3. split_and!; try done.
  - by apply sim_answers; [apply (inv_wf s3)|apply (inv_wf s)|].
  - apply (sim_dirties _ _ Hsim).
  - rewrite (sim_keeper _ _ Hsim). by rewrite (run_ops_keeper _ _ _ H0 (inv_New k cfg)).
Qed.


(** [Commit] indexes [stateObjects] with every dirty address and
    dereferences what it finds: after any run of the API it never meets a
    missing object, so it returns or passes on an error of the keeper. *)
Lemma Commit_no_nil_object (k : K) cfg l (s : StateDB K) :
  run_ops l (New k cfg) = (Ret tt, s) ->
  exists s', Commit s = (Ret tt, s') \/ Commit s = (Err tt, s').
Proof.
  intros Hl. apply Commit_terminates. apply inv_wf, (run_ops_inv _ _ _ Hl), inv_New.
Qed.

(** [SetState], [SetNonce], [AddBalance] and [SubBalance] of statedb.go:
    each returns, a following read gives the value written (the balance plus
    or minus the amount), and balance, nonce, code and storage of every
    address are otherwise as before.  The keeper holds no storage of missing
    accounts. *)
Lemma writes_read_back (k : K) cfg l (s : StateDB K) a key x :
  run_ops l (New k cfg) = (Ret tt, s) -> no_orphans k ->
  (exists s', SetState a key x s = (Ret tt, s') /\
     view_updated s s' a (with_word key x (view s a))) /\
  (exists s', SetNonce a x s = (Ret tt, s') /\ view_updated s s' a (with_nonce x (view s a))) /\
  (exists s', AddBalance a x s = (Ret tt, s') /\
     view_updated s s' a (with_balance (shows_balance s a + x) (view s a))) /\
  (exists s', SubBalance a x s = (Ret tt, s') /\
     view_updated s s' a (with_balance (shows_balance s a - x) (view s a))).
Proof.
  intros Hl Hno. rewrite <- (run_ops_keeper _ _ _ Hl (inv_New k cfg) : keeper s = k) in Hno.
  pose proof (inv_wf _ (run_ops_inv _ _ _ Hl (inv_New k cfg))) as Hwf.
  split_and!; [by apply SetState_view|by apply SetNonce_view|by apply AddBalance_view|].
  by apply SubBalance_view.
Qed.

(** [PrepareAccessList] of statedb.go and access_list.go: on a new
    StateDB the list then holds the sender, the destination, the precompiles
    and the addresses of the transaction's list, the slots of that list, and
    nothing else; the slice index of an address is never shared or stale. *)
Lemma PrepareAccessList_exact (k : K) cfg sender dst precompiles l :
  exists s', PrepareAccessList sender dst precompiles l (New k cfg) = (Ret tt, s') /\
    (forall b, AddressInAccessList b s' = true <->
       b = sender \/ dst = Some b \/ b ∈ precompiles \/ b ∈ l.*1) /\
    (forall b x, exists ba bx, SlotInAccessList b x s' = Some (ba, bx) /\
       (bx = true <-> exists keys, (b, keys) ∈ l /\ x ∈ keys)).
Proof.
  destruct (PrepareAccessList_lists sender dst precompiles l (New k cfg) al_ok_new)
    as (s' & Hrun & [Hok Haddr Hslot]). exists s'. split_and!; [done| |].
  - intros b. unfold AddressInAccessList. rewrite ContainsAddress_spec, Haddr.
    unfold al_addr. simpl. rewrite lookup_empty. split; [intros [[? [=]]|?]; done|auto].
  - intros b x. destruct (Contains_spec (access s') b x (Hok al_ok_new)) as (ba & bx & Hc & _ & Hx).
    exists ba, bx. split; [done|]. rewrite Hx, Hslot by apply al_ok_new. unfold al_slot. simpl.
    split; [|auto]. intros [(i & sm & Hi & _)|?]; [|done]. by rewrite lookup_empty in Hi.
Qed.
End Properties.

(** The operations of the example revert to snapshots younger than 0. *)
Lemma snapshot_restores_everything_witness :
  exists s3, RevertToSnapshot 0 db3 = (Ret tt, s3) /\
    same_answers (ask s3) (ask db1) /\ entries s3 = entries db1 /\ dirties s3 = dirties db1 /\
    validRevisions s3 = validRevisions db1 /\ keeper s3 = store0.
Proof.
  eapply (snapshot_restores_everything store0 cfg0 ops0 ops1 db1 db2 db3 0);
    [exact db1_run|exact db2_run|exact db3_run|repeat constructor].
Defined.


Lemma Commit_no_nil_object_witness :
  exists s', Commit db4 = (Ret tt, s') \/ Commit db4 = (Err tt, s').
Proof. eapply (Commit_no_nil_object store0 cfg0 ops2 db4). exact db4_run. Defined.

Lemma writes_read_back_witness :
  (exists s', SetState 3 8 17 db1 = (Ret tt, s') /\
     view_updated db1 s' 3 (with_word 8 17 (view db1 3))) /\
  (exists s', SetNonce 3 17 db1 = (Ret tt, s') /\
     view_updated db1 s' 3 (with_nonce 17 (view db1 3))) /\
  (exists s', AddBalance 3 17 db1 = (Ret tt, s') /\
     view_updated db1 s' 3 (with_balance (shows_balance db1 3 + 17) (view db1 3))) /\
  (exists s', SubBalance 3 17 db1 = (Ret tt, s') /\
     view_updated db1 s' 3 (with_balance (shows_balance db1 3 - 17) (view db1 3))).
Proof.
  eapply (writes_read_back store0 cfg0 ops0 db1 3 8 17); [exact db1_run|].
  intros a key. apply words_owned_spec. by_eval.
Defined.

Section KeeperProperties.
Context {A B : Type} {HAuth : AuthKeeper A} {HBank : EvmBank B} {HHash : Hashing}.
Context {HAuthLaws : AuthLaws A} {HBankLaws : EvmBankLaws B}.
Implicit Types k : EvmStore A B.

(** [SetAccount], [SetBalance] and [GetAccount] of keeper/statedb.go: an
    account written without an error reads back with the same nonce, balance
    and code hash, provided that an account without a code hash field is not
    given code; minting or burning the difference changes no other account,
    no storage and no code. *)
Lemma SetAccount_roundtrip k a x k' :
  evm_SetAccount k a x = Some k' -> evm_accepts k a x ->
  evm_GetAccount k' a = Some x /\
  (forall b, b <> a -> evm_GetAccount k' b = evm_GetAccount k b) /\
  (forall b key, evm_GetState k' b key = evm_GetState k b key) /\
  (forall h, evm_GetCode k' h = evm_GetCode k h).
Proof.
  intros Hset Hacc. split_and!; [by eapply evm_SetAccount_reads| |..].
  - intros b Hb. by apply (ko_account _ _ _ (evm_SetAccount_keeps _ _ _ _ Hset)).
  - by apply evm_SetAccount_Some in Hset as (b' & m' & -> & _).
  - by apply evm_SetAccount_Some in Hset as (b' & m' & -> & _).
Qed.

(** [DeleteAccount] of keeper/statedb.go on an Ethereum account: when the
    bank takes the balance, the account, its balance and all its storage are
    gone, every other account and word is as before, and so is every code. *)
Lemma DeleteAccount_clears k a x k' :
  auth_GetAccount (evm_auth k) a = Some x -> evm_DeleteAccount k a = Some k' ->
  evm_GetAccount k' a = None /\
  bank_GetBalance (evm_bank k') a (EvmDenom k) = 0 /\
  (forall key, evm_GetState k' a key = 0) /\
  (forall b, b <> a -> evm_GetAccount k' b = evm_GetAccount k b /\
     forall key, evm_GetState k' b key = evm_GetState k b key) /\
  (forall h, evm_GetCode k' h = evm_GetCode k h).
Proof.
  intros Hx Hdel. pose proof (evm_DeleteAccount_keeps _ _ _ Hdel) as [Hoa Hos].
  apply evm_DeleteAccount_Some in Hdel as [[Hn _]|(b' & m' & st' & -> & Hm & Hb & Hst)];
    [congruence|]. split_and!; [| | | |done].
  - unfold evm_GetAccount, GetAccountWithoutBalance. simpl. by rewrite Hm, decide_True.
  - simpl. by rewrite Hb, decide_True.
  - intros key. unfold evm_GetState. simpl. by rewrite Hst, decide_True.
  - intros b Hne. split; [by apply Hoa|]. intros key. by apply Hos.
Qed.

(** Code given to an account that is not an [EthAccountI] is not recorded. *)
Lemma SetAccount_plain_loses_code k a x y k' :
  auth_GetAccount (evm_auth k) a = Some y -> eth_CodeHash y = None ->
  EvmDenom k <> EmptyString -> evm_SetAccount k a x = Some k' ->
  evm_GetAccount k' a = Some (mkAccount (Nonce x) (Balance x) emptyCodeHash).
Proof.
  intros Hy He Hd (b' & m' & -> & Hm & Hb)%evm_SetAccount_Some.
  unfold evm_GetAccount, GetAccountWithoutBalance, evm_GetBalance. simpl.
  rewrite Hm, decide_True, bool_decide_false, Hb, decide_True, written_account_seq by done.
  unfold written_account. rewrite Hy. simpl. rewrite He. simpl. by rewrite He.
Qed.
End KeeperProperties.

Lemma DeleteAccount_clears_witness :
  evm_GetAccount store_deleted 2 = None /\
  bank_GetBalance (evm_bank store_deleted) 2 (EvmDenom store0) = 0 /\
  (forall key, evm_GetState store_deleted 2 key = 0) /\
  (forall b, b <> 2 -> evm_GetAccount store_deleted b = evm_GetAccount store0 b /\
     forall key, evm_GetState store_deleted b key = evm_GetState store0 b key) /\
  (forall h, evm_GetCode store_deleted h = evm_GetCode store0 h).
Proof.
  eapply (DeleteAccount_clears store0 2 (mkAuth 1 (Some 77) 1) store_deleted);
    [by_eval|exact store_deleted_run].
Defined.
