(* ===== verification/FeeMarket.v ===== *)
(** * x/feemarket: the base fee

    [keeper/eip1559.go], [keeper/abci.go], [keeper/params.go],
    [keeper/keeper.go], [keeper/grpc_query.go], [keeper/msg_server.go],
    [types/params.go] and the genesis of [genesis.go].  A [LegacyDec] is its
    numerator over 10^18; a nil integer or decimal is [None].  [big.Int.Div]
    is Euclidean, the floor for the positive divisors that reach it, and
    panics on a zero divisor.  Widths of decimals (315 bits) are not reached:
    the factors are an [int64] and a multiplier of at most one. *)

From S2P Require Import Prelude.

(** ** Decimals *)

Definition dec_one : Z := 10 ^ 18.

(** [LegacyNewDec] *)
Definition NewDec (n : Z) : Z := n * dec_one.

(** [chopPrecisionAndRound]: half to even, on the magnitude. *)
Definition chop_round_abs (n : Z) : Z :=
  let quo := n / dec_one in
  let rem := n mod dec_one in
  if rem =? 0 then quo
  else if rem <? dec_one / 2 then quo
  else if dec_one / 2 <? rem then quo + 1
  else if Z.even quo then quo else quo + 1.

Definition chop_round (n : Z) : Z :=
  if n <? 0 then - chop_round_abs (- n) else chop_round_abs n.

Definition dec_Mul (a b : Z) : Z := chop_round (a * b).
Definition dec_Max (a b : Z) : Z := if a <? b then b else a.
Definition TruncateInt (a : Z) : Z := Z.quot a dec_one.

(** ** Parameters *)

Record Params : Type := mkFeeParams {
  NoBaseFee : bool;
  BaseFeeChangeDenominator : Z;
  ElasticityMultiplier : Z;
  BaseFee : option Z;
  EnableHeight : Z;
  MinGasPrice : option Z;
  MinGasMultiplier : option Z;
}.

Definition zero_params : Params := mkFeeParams false 0 0 None 0 None None.

Definition NewParams (noBaseFee : bool) (baseFeeChangeDenom elasticityMultiplier baseFee
    enableHeight : Z) (minGasPrice minGasPriceMultiplier : option Z) : Params :=
  mkFeeParams noBaseFee baseFeeChangeDenom elasticityMultiplier (Some baseFee) enableHeight
    minGasPrice minGasPriceMultiplier.

(** go-ethereum's [BaseFeeChangeDenominator], [ElasticityMultiplier] and
    [InitialBaseFee] are 8, 2 and 10^9. *)
Definition DefaultParams : Params :=
  mkFeeParams false 8 2 (Some 1000000000) 0 (Some 0) (Some (5 * 10 ^ 17)).

Definition validateMinGasPrice (v : option Z) : bool :=
  match v with None => false | Some x => negb (x <? 0) end.

Definition validateMinGasMultiplier (v : option Z) : bool :=
  match v with None => false | Some x => negb (x <? 0) && negb (dec_one <? x) end.

(** [Params.Validate]: [None] is the nil dereference of a nil base fee. *)
Definition Validate (p : Params) : option bool :=
  if BaseFeeChangeDenominator p =? 0 then Some false
  else match BaseFee p with
       | None => None
       | Some fee =>
           if fee <? 0 then Some false
           else if EnableHeight p <? 0 then Some false
           else if negb (validateMinGasMultiplier (MinGasMultiplier p)) then Some false
           else Some (validateMinGasPrice (MinGasPrice p))
       end.

Definition IsBaseFeeEnabled (p : Params) (height : Z) : bool :=
  negb (NoBaseFee p) && (EnableHeight p <=? height).

(** ** State and context *)

(** The persistent and the transient store; absent entries are [None]. *)
Record FeeState : Type := mkFeeState {
  stored_params : option Params;
  block_gas_wanted : option Z;
  transient_gas_wanted : option Z;
  base_fee_v1 : option Z;
}.

(** The height, the consensus parameters' [MaxGas] (when they hold block
    parameters) and the gas consumed to the limit of the block gas meter. *)
Record FeeCtx : Type := mkFeeCtx {
  BlockHeight : Z;
  MaxGas : option Z;
  GasConsumedToLimit : option Z;
}.

Inductive fee_error : Type :=
| ErrNilBlockGasMeter
| ErrGasWantedOverflow
| ErrGasUsedOverflow
| ErrInvalidSigner
| ErrIntOverflowCoin.

Abbreviation FM := (M FeeState fee_error).

Definition GetParams (s : FeeState) : Params := default zero_params (stored_params s).

Definition SetParams (p : Params) (s : FeeState) : FeeState :=
  mkFeeState (Some p) (block_gas_wanted s) (transient_gas_wanted s) (base_fee_v1 s).

Definition SetBlockGasWanted (gas : Z) (s : FeeState) : FeeState :=
  mkFeeState (stored_params s) (Some gas) (transient_gas_wanted s) (base_fee_v1 s).

Definition GetBlockGasWanted (s : FeeState) : Z := default 0 (block_gas_wanted s).

Definition GetTransientGasWanted (s : FeeState) : Z := default 0 (transient_gas_wanted s).

Definition SetTransientBlockGasWanted (gas : Z) (s : FeeState) : FeeState :=
  mkFeeState (stored_params s) (block_gas_wanted s) (Some gas) (base_fee_v1 s).

(** The sum wraps around at 64 bits. *)
Definition AddTransientGasWanted (gasWanted : Z) : FM Z :=
  let! s := get in
  let result := u64 (GetTransientGasWanted s + gasWanted) in
  do! modify (SetTransientBlockGasWanted result) ;;
  ret result.

Definition GetBaseFeeV1 (s : FeeState) : option Z := base_fee_v1 s.

Definition GetBaseFeeEnabled (ctx : FeeCtx) (s : FeeState) : bool :=
  let p := GetParams s in negb (NoBaseFee p) && (EnableHeight p <=? BlockHeight ctx).

Definition GetBaseFee (s : FeeState) : option Z :=
  let p := GetParams s in
  if NoBaseFee p then None
  else match BaseFee p with
       | None => GetBaseFeeV1 s
       | Some fee => if fee =? 0 then GetBaseFeeV1 s else Some fee
       end.

Definition set_base_fee (fee : Z) (p : Params) : Params :=
  mkFeeParams (NoBaseFee p) (BaseFeeChangeDenominator p) (ElasticityMultiplier p) (Some fee)
    (EnableHeight p) (MinGasPrice p) (MinGasMultiplier p).

Definition SetBaseFee (fee : Z) (s : FeeState) : FeeState :=
  SetParams (set_base_fee fee (GetParams s)) s.

(** ** EIP-1559 *)

(** [big.Int.Div] *)
Definition big_Div (x y : Z) : FM Z := if y =? 0 then panic else ret (x / y).

(** The block gas limit, unlimited when the consensus parameters say -1. *)
Definition gas_limit (ctx : FeeCtx) : Z :=
  match MaxGas ctx with
  | Some maxGas => if -1 <? maxGas then maxGas else 2 ^ 64 - 1
  | None => 2 ^ 64 - 1
  end.

(** [parentBaseFee * gasUsedDelta / parentGasTarget / baseFeeChangeDenominator] *)
Definition fee_delta (parentBaseFee gasUsedDelta target denominator : Z) : FM Z :=
  let! y := big_Div (parentBaseFee * gasUsedDelta) target in
  big_Div y denominator.

Definition CalculateBaseFee (ctx : FeeCtx) : FM (option Z) :=
  let! s := get in
  let p := GetParams s in
  if negb (IsBaseFeeEnabled p (BlockHeight ctx)) then ret None
  else if BlockHeight ctx =? EnableHeight p then ret (BaseFee p)
  else match BaseFee p with
  | None => ret None
  | Some parentBaseFee =>
      let parentGasUsed := GetBlockGasWanted s in
      let! target := big_Div (gas_limit ctx) (ElasticityMultiplier p) in
      if negb (is_u64 target) then ret None
      else if parentGasUsed =? target then ret (Some parentBaseFee)
      else if target <? parentGasUsed then
        let! d := fee_delta parentBaseFee (parentGasUsed - target) target
                    (BaseFeeChangeDenominator p) in
        ret (Some (parentBaseFee + Z.max d 1))
      else
        let! d := fee_delta parentBaseFee (target - parentGasUsed) target
                    (BaseFeeChangeDenominator p) in
        match MinGasPrice p with
        | None => panic
        | Some minGasPrice => ret (Some (Z.max (parentBaseFee - d) (TruncateInt minGasPrice)))
        end
  end.

(** ** Blocks *)

Definition BeginBlock (ctx : FeeCtx) : FM unit :=
  let! baseFee := CalculateBaseFee ctx in
  match baseFee with
  | None => ret tt
  | Some fee => modify (SetBaseFee fee)
  end.

Definition EndBlock (ctx : FeeCtx) : FM unit :=
  match GasConsumedToLimit ctx with
  | None => fail ErrNilBlockGasMeter
  | Some gasUsed =>
      let! s := get in
      let gasWanted := GetTransientGasWanted s in
      do! guard (negb (is_i64 gasWanted)) ErrGasWantedOverflow ;;
      do! guard (negb (is_i64 gasUsed)) ErrGasUsedOverflow ;;
      let minGasMultiplier := default 0 (MinGasMultiplier (GetParams s)) in
      let limitedGasWanted := dec_Mul (NewDec gasWanted) minGasMultiplier in
      let updated := TruncateInt (dec_Max limitedGasWanted (NewDec gasUsed)) in
      if is_u64 updated then modify (SetBlockGasWanted updated) else panic
  end.

(** ** Messages, queries, genesis *)

Definition UpdateParams (authority msg_Authority : string) (p : Params) : FM unit :=
  do! guard (negb (bool_decide (authority = msg_Authority))) ErrInvalidSigner ;;
  modify (SetParams p).

Definition BlockGas : FM Z :=
  let! s := get in
  let gas := GetBlockGasWanted s in
  do! guard (negb (is_i64 gas)) ErrIntOverflowCoin ;;
  ret gas.

Record FeeGenesis : Type := mkFeeGenesis { gen_Params : Params; gen_BlockGas : Z }.

Definition DefaultGenesisState : FeeGenesis := mkFeeGenesis DefaultParams 0.

Definition InitGenesis (data : FeeGenesis) (s : FeeState) : FeeState :=
  SetBlockGasWanted (gen_BlockGas data) (SetParams (gen_Params data) s).

Definition ExportGenesis (s : FeeState) : FeeGenesis :=
  mkFeeGenesis (GetParams s) (GetBlockGasWanted s).
