(* ===== verification/FeeMarketTheorems.v ===== *)
(** * x/feemarket: properties

    The EIP-1559 update, its bounds and its only panics, and the gas the end
    blocker reports for the next block. *)

From S2P Require Import Prelude FeeMarket.

(** ** Helpers *)

Lemma Validate_Some p :
  Validate p = Some true -> exists fee m g,
    BaseFee p = Some fee /\ 0 <= fee /\ MinGasPrice p = Some m /\ 0 <= m /\
    MinGasMultiplier p = Some g /\ 0 <= g <= dec_one /\
    BaseFeeChangeDenominator p <> 0 /\ 0 <= EnableHeight p.
Proof.
  unfold Validate, validateMinGasMultiplier, validateMinGasPrice.
  destruct (BaseFeeChangeDenominator p =? 0) eqn:H1; [done|].
  destruct (BaseFee p) as [fee|]; [|done]. destruct (fee <? 0) eqn:H2; [done|].
  destruct (EnableHeight p <? 0) eqn:H3; [done|].
  destruct (MinGasMultiplier p) as [g|]; [|done].
  destruct (negb (g <? 0) && negb (dec_one <? g)) eqn:H4; [|done]. simpl.
  destruct (MinGasPrice p) as [m|]; [|done]. intros [= H5].
  exists fee, m, g. repeat split; try done; lia.
Qed.

(** A state in which the fee is computed from the parent block: past the
    enable height, with validated parameters of their unsigned widths. *)
Record fee_ready (ctx : FeeCtx) (s : FeeState) (fee : Z) : Prop := mkReady {
  rd_enabled : NoBaseFee (GetParams s) = false;
  rd_height : EnableHeight (GetParams s) < BlockHeight ctx;
  rd_valid : Validate (GetParams s) = Some true;
  rd_fee : BaseFee (GetParams s) = Some fee;
  rd_elasticity : 0 <= ElasticityMultiplier (GetParams s);
  rd_denominator : 0 <= BaseFeeChangeDenominator (GetParams s);
  rd_used : 0 <= GetBlockGasWanted s;
  rd_maxgas : match MaxGas ctx with Some g => is_i64 g = true | None => True end;
}.

Definition gas_target (ctx : FeeCtx) (s : FeeState) : Z :=
  gas_limit ctx / ElasticityMultiplier (GetParams s).

Lemma gas_limit_range ctx s fee : fee_ready ctx s fee -> 0 <= gas_limit ctx < two64.
Proof.
  intros H. pose proof (rd_maxgas _ _ _ H) as Hm. unfold gas_limit, is_i64, two63, two64 in *.
  destruct (MaxGas ctx) as [g|]; [|lia]. destruct (-1 <? g) eqn:E; lia.
Qed.

Lemma gas_target_u64 ctx s fee : fee_ready ctx s fee ->
  ElasticityMultiplier (GetParams s) <> 0 -> is_u64 (gas_target ctx s) = true.
Proof.
  intros H He. pose proof (gas_limit_range _ _ _ H) as Hl. pose proof (rd_elasticity _ _ _ H).
  unfold is_u64, gas_target.
  assert (0 <= gas_limit ctx / ElasticityMultiplier (GetParams s)) by (apply Z.div_pos; lia).
  assert (gas_limit ctx / ElasticityMultiplier (GetParams s) <= gas_limit ctx)
    by (apply Z.div_le_upper_bound; nia). lia.
Qed.

(** What the computation is on a ready state, divisions by zero included. *)
Lemma CalculateBaseFee_eq ctx s fee :
  fee_ready ctx s fee ->
  let p := GetParams s in
  let used := GetBlockGasWanted s in
  let target := gas_target ctx s in
  CalculateBaseFee ctx s =
    if ElasticityMultiplier p =? 0 then (Panic, s)
    else if used =? target then (Ret (Some fee), s)
    else if target =? 0 then (Panic, s)
    else if target <? used then
      (Ret (Some (fee + Z.max (fee * (used - target) / target / BaseFeeChangeDenominator p) 1)), s)
    else
      (Ret (Some (Z.max (fee - fee * (target - used) / target / BaseFeeChangeDenominator p)
                    (TruncateInt (default 0 (MinGasPrice p))))), s).
Proof.
  intros H p used target. subst p. pose proof H as [He Hh Hv Hf Hel Hden Hus _].
  destruct (Validate_Some _ Hv) as (fee' & m & g & Hf' & _ & Hm & _ & _ & _ & Hd & _).
  unfold CalculateBaseFee, IsBaseFeeEnabled. rewrite bind_get, He.
  replace (EnableHeight (GetParams s) <=? BlockHeight ctx) with true by lia. simpl.
  replace (BlockHeight ctx =? EnableHeight (GetParams s)) with false by lia. rewrite Hf. unfold big_Div at 1, bind at 1.
  destruct (ElasticityMultiplier (GetParams s) =? 0) eqn:Hz; [done|].
  unfold ret at 1. fold (gas_target ctx s). rewrite (gas_target_u64 ctx s fee H) by lia.
  simpl. fold used target. destruct (used =? target) eqn:Heq; [done|].
  unfold fee_delta, big_Div, bind. destruct (target =? 0) eqn:Ht.
  { by destruct (target <? used). }
  replace (BaseFeeChangeDenominator (GetParams s) =? 0) with false by lia.
  destruct (target <? used); [done|]. by rewrite Hm.
Qed.

(** Dividing by the target first bounds the change by the excess it allows. *)
Lemma fee_delta_bound fee d target denominator k :
  0 <= fee -> 0 <= d -> 0 < target -> 0 < denominator -> 0 <= k -> d <= k * target ->
  0 <= fee * d / target / denominator <= fee * k / denominator.
Proof.
  intros Hf Hd Ht Hn Hk Hle. split.
  - apply Z.div_pos; [|done]. apply Z.div_pos; nia.
  - apply Z.div_le_mono; [done|]. apply Z.div_le_upper_bound; nia.
Qed.

(** C40: [CalculateBaseFee] of keeper/eip1559.go, past the enable height, with
    validated parameters and a positive gas target: it returns a fee that is
    not negative, the parent's fee when the gas wanted was the target; above
    the target a higher fee, by at most a [(elasticity - 1) / denominator]
    share (or by one) as long as the gas wanted was within [elasticity] times
    the target; below the target a fee of at least the minimum gas price that
    falls by at most a [1 / denominator] share and rises only up to that
    minimum. *)
Theorem base_fee_bounds ctx s fee :
  fee_ready ctx s fee -> 0 < gas_target ctx s -> 0 < ElasticityMultiplier (GetParams s) ->
  let p := GetParams s in
  let used := GetBlockGasWanted s in
  let minimum := TruncateInt (default 0 (MinGasPrice p)) in
  exists new, CalculateBaseFee ctx s = (Ret (Some new), s) /\ 0 <= new /\
    (used = gas_target ctx s -> new = fee) /\
    (gas_target ctx s < used -> fee < new /\
       (used <= ElasticityMultiplier p * gas_target ctx s ->
        new <= fee + Z.max 1 (fee * (ElasticityMultiplier p - 1) / BaseFeeChangeDenominator p))) /\
    (used < gas_target ctx s -> minimum <= new <= Z.max fee minimum /\
       fee - fee / BaseFeeChangeDenominator p <= new).
Proof.
  intros H Ht He p used minimum. rewrite (CalculateBaseFee_eq _ _ _ H). fold p used.
  destruct (Validate_Some _ (rd_valid _ _ _ H)) as (fee' & m & g & Hf' & Hpos & Hm & Hm0 & _ & _ & Hd & _).
  assert (fee' = fee) as -> by (pose proof (rd_fee _ _ _ H); congruence).
  pose proof (rd_denominator _ _ _ H). pose proof (rd_used _ _ _ H).
  fold p in Hd, Hm |- *. set (target := gas_target ctx s) in *.
  assert (0 < BaseFeeChangeDenominator p) as Hdp by (unfold p in *; lia).
  assert (0 <= minimum) as Hmin by (unfold minimum, TruncateInt; rewrite Hm; apply Z.quot_pos; [simpl; lia|done]).
  replace (ElasticityMultiplier p =? 0) with false by (unfold p in *; lia).
  destruct (used =? target) eqn:Heq; [|replace (target =? 0) with false by lia].
  { exists fee. repeat split; try done; lia. }
  destruct (target <? used) eqn:Hgt.
  - eexists. split; [done|]. split_and!; [lia|lia| |lia]. intros _. split; [lia|]. intros Hle.
    pose proof (fee_delta_bound fee (used - target) target (BaseFeeChangeDenominator p)
      (ElasticityMultiplier p - 1)) as Hb. fold p in He. lia.
  - eexists. split; [done|]. split_and!; [lia|lia|lia|]. intros Hlt.
    pose proof (fee_delta_bound fee (target - used) target (BaseFeeChangeDenominator p) 1) as Hb.
    rewrite Z.mul_1_r in Hb. unfold used in *. fold minimum. lia.
Qed.

(** Past the enable height and with validated parameters,
    [CalculateBaseFee] (and with it [BeginBlock]) panics exactly when the
    elasticity multiplier is zero, which [Params.Validate] accepts, or when
    the block gas limit is below the multiplier, so that the target is zero,
    and some gas was wanted. *)
Lemma base_fee_panics_iff ctx s fee :
  fee_ready ctx s fee ->
  (exists s', BeginBlock ctx s = (Panic, s')) <->
  ElasticityMultiplier (GetParams s) = 0 \/
  (gas_limit ctx < ElasticityMultiplier (GetParams s) /\ 0 < GetBlockGasWanted s).
Proof.
  intros H. unfold BeginBlock, bind. rewrite (CalculateBaseFee_eq _ _ _ H).
  pose proof (gas_limit_range _ _ _ H) as Hl. pose proof (rd_elasticity _ _ _ H) as He.
  pose proof (rd_used _ _ _ H) as Hu. set (e := ElasticityMultiplier (GetParams s)) in *.
  destruct (e =? 0) eqn:Hz; [split; [lia|eauto]|].
  assert (gas_target ctx s = 0 <-> gas_limit ctx < e) as Htz.
  { unfold gas_target. fold e. rewrite Z.div_small_iff by lia. lia. }
  assert (0 <= gas_target ctx s) as Htp by (apply Z.div_pos; lia).
  destruct (GetBlockGasWanted s =? gas_target ctx s) eqn:Heq.
  { split; [by intros [? ?]|]. lia. }
  destruct (gas_target ctx s =? 0) eqn:Ht; [split; [lia|eauto]|].
  destruct (gas_target ctx s <? GetBlockGasWanted s); (split; [by intros [? ?]|lia]).
Qed.

(** Rounding does nothing to a whole number times a decimal. *)
Lemma dec_Mul_NewDec n m : dec_Mul (NewDec n) m = n * m.
Proof.
  unfold dec_Mul, NewDec, chop_round. replace (n * dec_one * m) with (n * m * dec_one) by lia.
  assert (forall x, chop_round_abs (x * dec_one) = x) as Hx.
  { intros x. unfold chop_round_abs. rewrite Z.mod_mul, Z.div_mul by done. done. }
  destruct (n * m * dec_one <? 0); [|apply Hx].
  replace (- (n * m * dec_one)) with ((- (n * m)) * dec_one) by lia. rewrite Hx. lia.
Qed.

(** [EndBlock] of keeper/abci.go with validated parameters: it fails only
    without a block gas meter or when a gas amount exceeds [int64], and else
    records for the next block the larger of the gas used and the share
    [MinGasMultiplier] of the gas wanted: never less than the gas used, never
    more than the larger of gas used and gas wanted. *)
Lemma EndBlock_gas_bounds ctx s gasUsed :
  Validate (GetParams s) = Some true -> GasConsumedToLimit ctx = Some gasUsed ->
  is_u64 gasUsed = true -> is_u64 (GetTransientGasWanted s) = true ->
  let wanted := GetTransientGasWanted s in
  if is_i64 wanted && is_i64 gasUsed then
    exists g, EndBlock ctx s = (Ret tt, SetBlockGasWanted g s) /\
      gasUsed <= g <= Z.max gasUsed wanted /\
      g = Z.max gasUsed (wanted * default 0 (MinGasMultiplier (GetParams s)) / dec_one)
  else exists e, EndBlock ctx s = (Err e, s).
Proof.
  intros Hv Hg Hu Hw wanted. unfold EndBlock. rewrite Hg, bind_get. fold wanted.
  destruct (Validate_Some _ Hv) as (_ & _ & m & _ & _ & _ & _ & -> & Hm & _). simpl.
  destruct (is_i64 wanted) eqn:Hiw; [|by eexists].
  destruct (is_i64 gasUsed) eqn:Hig; [|by eexists].
  unfold bind, guard, ret. simpl. rewrite dec_Mul_NewDec.
  fold wanted in Hw. unfold is_u64, is_i64, two63, two64 in *.
  set (x := dec_Max (wanted * m) (NewDec gasUsed)).
  assert (TruncateInt x = Z.max gasUsed (wanted * m / dec_one)) as Hx.
  { unfold x, dec_Max, NewDec, TruncateInt.
    destruct (wanted * m <? gasUsed * dec_one) eqn:E.
    - rewrite Z.quot_mul by done. symmetry. apply Z.max_l.
      assert (wanted * m / dec_one < gasUsed); [|lia].
      apply Z.div_lt_upper_bound; [done|lia].
    - rewrite Z.quot_div_nonneg by (try done; nia). symmetry. apply Z.max_r.
      apply Z.div_le_lower_bound; [done|lia]. }
  assert (wanted * m / dec_one <= wanted) as Hle by (apply Z.div_le_upper_bound; [done|nia]).
  rewrite Hx. replace ((0 <=? Z.max gasUsed (wanted * m / dec_one)) &&
    (Z.max gasUsed (wanted * m / dec_one) <? 2 ^ 64)) with true by lia.
  eexists. split; [done|]. split; [lia|done].
Qed.

(** ** Examples: a block that wanted three times its target *)

Definition fee_ctx0 : FeeCtx := mkFeeCtx 12 (Some 40000000) (Some 21000).

Definition fee_state0 : FeeState :=
  mkFeeState (Some DefaultParams) (Some 30000000) (Some 30000000) None.

(** The same parameters with a zero elasticity multiplier, which they may have. *)
Definition fee_state1 : FeeState :=
  mkFeeState (Some (NewParams false 8 0 1000000000 0 (Some 0) (Some (5 * 10 ^ 17))))
    (Some 30000000) None None.

Lemma base_fee_bounds_witness :
  exists new, CalculateBaseFee fee_ctx0 fee_state0 = (Ret (Some new), fee_state0) /\ 0 <= new /\
    (GetBlockGasWanted fee_state0 = gas_target fee_ctx0 fee_state0 -> new = 1000000000) /\
    (gas_target fee_ctx0 fee_state0 < GetBlockGasWanted fee_state0 -> 1000000000 < new /\
       (GetBlockGasWanted fee_state0 <=
          ElasticityMultiplier (GetParams fee_state0) * gas_target fee_ctx0 fee_state0 ->
        new <= 1000000000 + Z.max 1 (1000000000 * (ElasticityMultiplier (GetParams fee_state0) - 1)
                 / BaseFeeChangeDenominator (GetParams fee_state0)))) /\
    (GetBlockGasWanted fee_state0 < gas_target fee_ctx0 fee_state0 ->
       TruncateInt (default 0 (MinGasPrice (GetParams fee_state0))) <= new <=
         Z.max 1000000000 (TruncateInt (default 0 (MinGasPrice (GetParams fee_state0)))) /\
       1000000000 - 1000000000 / BaseFeeChangeDenominator (GetParams fee_state0) <= new).
Proof.
  eapply (base_fee_bounds fee_ctx0 fee_state0 1000000000); [constructor; by_eval|by_eval|by_eval].
Defined.

Lemma base_fee_panics_iff_witness :
  (exists s', BeginBlock fee_ctx0 fee_state1 = (Panic, s')) <->
  ElasticityMultiplier (GetParams fee_state1) = 0 \/
  (gas_limit fee_ctx0 < ElasticityMultiplier (GetParams fee_state1) /\
   0 < GetBlockGasWanted fee_state1).
Proof. eapply (base_fee_panics_iff fee_ctx0 fee_state1 1000000000). constructor; by_eval. Defined.

