(* ===== verification/EvmTx.v ===== *)
(** * x/evm/types: Ethereum transactions

    [legacy_tx.go], [access_list_tx.go], [dynamic_fee_tx.go], [tx_data.go],
    [access_list.go], [tx.go], [chain_config.go], the fee rules and the gas
    search of [utils.go], [utils/eth] and [IsValidInt256] of [types/int.go].

    The three protobuf transactions are records, [TxData] is their interface;
    a nil integer is [None].  Nil and empty access lists are the same list:
    the code only ranges over them.  go-ethereum's transaction structs are
    [EthTxData]; its [NewTx], the accessors of the resulting transaction and
    the hexadecimal forms of [common] are parameters. *)

From S2P Require Import Prelude Bytes.

(** ** go-ethereum *)

(** The hexadecimal forms of 20-byte addresses and 32-byte hashes. *)
Class Hexing : Type := {
  Address_Hex : Z -> string;
  HexToAddress : string -> Z;
  Hash_Hex : Z -> string;
  HexToHash : string -> Z;
  IsHexAddress : string -> bool;
}.

Definition is_address (a : Z) : Prop := 0 <= a < 2 ^ 160.
Definition is_hash (h : Z) : Prop := 0 <= h < 2 ^ 256.

Class HexLaws `{Hexing} : Prop := {
  address_hex : forall a, is_address a -> HexToAddress (Address_Hex a) = a;
  address_hex_shown : forall a, Address_Hex a <> EmptyString;
  hash_hex : forall h, is_hash h -> HexToHash (Hash_Hex h) = h;
}.

(** [ethtypes.AccessList] *)
Abbreviation EthAccessList := (list (Z * list Z)).

(** [ethtypes.LegacyTx], [AccessListTx] and [DynamicFeeTx]; nil is [None]. *)
Inductive EthTxData : Type :=
| EthLegacyTx (nonce : Z) (gasPrice : option Z) (gas : Z) (to : option Z) (value : option Z)
    (data : list Z) (v r s : option Z)
| EthAccessListTx (chainID : option Z) (nonce : Z) (gasPrice : option Z) (gas : Z)
    (to : option Z) (value : option Z) (data : list Z) (al : EthAccessList) (v r s : option Z)
| EthDynamicFeeTx (chainID : option Z) (nonce : Z) (gasTipCap gasFeeCap : option Z) (gas : Z)
    (to : option Z) (value : option Z) (data : list Z) (al : EthAccessList) (v r s : option Z).

(** A transaction of go-ethereum: [NewTx] and what the module reads of it. *)
Class EthTransactions : Type := {
  Transaction : Type;
  ethtypes_NewTx : EthTxData -> Transaction;
  tx_Type : Transaction -> Z;
  tx_Nonce : Transaction -> Z;
  tx_Gas : Transaction -> Z;
  tx_Data : Transaction -> list Z;
  tx_To : Transaction -> option Z;
  tx_Value : Transaction -> option Z;
  tx_GasPrice : Transaction -> option Z;
  tx_GasFeeCap : Transaction -> option Z;
  tx_GasTipCap : Transaction -> option Z;
  tx_AccessList : Transaction -> EthAccessList;
  tx_ChainId : Transaction -> option Z;
  tx_RawSignatureValues : Transaction -> option Z * option Z * option Z;
  tx_Hash : Transaction -> Z;
}.

(** [NewTx] copies its argument with every nil integer made zero. *)
Definition filled (x : option Z) : option Z := Some (default 0 x).

Definition eth_copy (d : EthTxData) : EthTxData :=
  match d with
  | EthLegacyTx n p g t x b v r s =>
      EthLegacyTx n (filled p) g t (filled x) b (filled v) (filled r) (filled s)
  | EthAccessListTx c n p g t x b al v r s =>
      EthAccessListTx (filled c) n (filled p) g t (filled x) b al (filled v) (filled r) (filled s)
  | EthDynamicFeeTx c n p f g t x b al v r s =>
      EthDynamicFeeTx (filled c) n (filled p) (filled f) g t (filled x) b al
        (filled v) (filled r) (filled s)
  end.

(** The accessors of a transaction read the copy.  The chain identifier of a
    legacy transaction comes from its signature; the module ignores it. *)
Class EthTransactionLaws `{EthTransactions} : Prop := {
  NewTx_copies : forall d, ethtypes_NewTx (eth_copy d) = ethtypes_NewTx d;
  legacy_reads : forall n p g t x b v r s,
    let tx := ethtypes_NewTx (EthLegacyTx n (Some p) g t (Some x) b (Some v) (Some r) (Some s)) in
    tx_Type tx = 0 /\ tx_Nonce tx = n /\ tx_Gas tx = g /\ tx_To tx = t /\ tx_Value tx = Some x /\
    tx_Data tx = b /\ tx_GasPrice tx = Some p /\
    tx_RawSignatureValues tx = (Some v, Some r, Some s);
  access_list_reads : forall c n p g t x b al v r s,
    let tx := ethtypes_NewTx (EthAccessListTx (Some c) n (Some p) g t (Some x) b al
                (Some v) (Some r) (Some s)) in
    tx_Type tx = 1 /\ tx_Nonce tx = n /\ tx_Gas tx = g /\ tx_To tx = t /\ tx_Value tx = Some x /\
    tx_Data tx = b /\ tx_GasPrice tx = Some p /\ tx_AccessList tx = al /\ tx_ChainId tx = Some c /\
    tx_RawSignatureValues tx = (Some v, Some r, Some s);
  dynamic_fee_reads : forall c n p f g t x b al v r s,
    let tx := ethtypes_NewTx (EthDynamicFeeTx (Some c) n (Some p) (Some f) g t (Some x) b al
                (Some v) (Some r) (Some s)) in
    tx_Type tx = 2 /\ tx_Nonce tx = n /\ tx_Gas tx = g /\ tx_To tx = t /\ tx_Value tx = Some x /\
    tx_Data tx = b /\ tx_GasTipCap tx = Some p /\ tx_GasFeeCap tx = Some f /\
    tx_AccessList tx = al /\ tx_ChainId tx = Some c /\
    tx_RawSignatureValues tx = (Some v, Some r, Some s);
}.

(** ** The protobuf transactions *)

Record AccessTuple : Type := mkTuple { tuple_Address : string; tuple_StorageKeys : list string }.

Record LegacyTx : Type := mkLegacyTx {
  ltx_Nonce : Z; ltx_GasPrice : option Z; ltx_GasLimit : Z; ltx_To : string;
  ltx_Amount : option Z; ltx_Data : list Z; ltx_V : list Z; ltx_R : list Z; ltx_S : list Z }.

Record AccessListTx : Type := mkAccessListTx {
  atx_ChainID : option Z; atx_Nonce : Z; atx_GasPrice : option Z; atx_GasLimit : Z;
  atx_To : string; atx_Amount : option Z; atx_Data : list Z; atx_Accesses : list AccessTuple;
  atx_V : list Z; atx_R : list Z; atx_S : list Z }.

Record DynamicFeeTx : Type := mkDynamicFeeTx {
  dtx_ChainID : option Z; dtx_Nonce : Z; dtx_GasTipCap : option Z; dtx_GasFeeCap : option Z;
  dtx_GasLimit : Z; dtx_To : string; dtx_Amount : option Z; dtx_Data : list Z;
  dtx_Accesses : list AccessTuple; dtx_V : list Z; dtx_R : list Z; dtx_S : list Z }.

Inductive TxData : Type :=
| TxLegacy (tx : LegacyTx)
| TxAccessList (tx : AccessListTx)
| TxDynamicFee (tx : DynamicFeeTx).

Inductive tx_error : Type :=
| ErrInvalidGasPrice
| ErrInvalidGasCap
| ErrInvalidGasFee
| ErrInvalidAmount
| ErrInvalidToAddress
| ErrInvalidChainID
| ErrBigIntOutOfBound.

(** ** Integers and signature values *)

(** [IsValidInt256]: the bit length of the magnitude, or nil. *)
Definition IsValidInt256 (i : option Z) : bool :=
  match i with None => true | Some x => Z.abs x <? 2 ^ 256 end.

(** [SafeNewIntFromBigInt] of a value that is not nil. *)
Definition SafeNewIntFromBigInt (i : Z) : outcome tx_error Z :=
  if negb (IsValidInt256 (Some i)) then Err ErrBigIntOutOfBound else Ret i.

Definition DeriveChainID (v : option Z) : option Z :=
  match v with
  | None => None
  | Some v =>
      if v <? 1 then None
      else if v <? two64 then
        if (v =? 27) || (v =? 28) then Some 0
        else if v <? 35 then None
        else Some ((v - 35) / 2)
      else Some ((v - 35) / 2)
  end.

Definition raw_value (bz : list Z) : option Z :=
  match bz with [] => None | _ => Some (be_val bz) end.

Definition RawSignatureValues (vBz rBz sBz : list Z) : option Z * option Z * option Z :=
  (raw_value vBz, raw_value rBz, raw_value sBz).

(** [SetSignatureValues]: [big.Int.Bytes] of a value that is not nil. *)
Definition signature_bytes (v : option Z) : list Z :=
  match v with None => [] | Some x => big_bytes (Z.abs x) end.

(** ** Access lists *)

Section Transactions.
Context {HHex : Hexing} {HEth : EthTransactions}.

Definition NewAccessList (al : EthAccessList) : list AccessTuple :=
  (fun t => mkTuple (Address_Hex t.1) (Hash_Hex <$> t.2)) <$> al.

Definition ToEthAccessList (al : list AccessTuple) : EthAccessList :=
  (fun t => (HexToAddress (tuple_Address t), HexToHash <$> tuple_StorageKeys t)) <$> al.

(** ** Getters *)

(** What the getters of the interface answer. *)
Record TxGetters : Type := mkGetters {
  get_TxType : Z; get_ChainID : option Z; get_AccessList : EthAccessList; get_Data : list Z;
  get_Gas : Z; get_GasPrice : option Z; get_GasTipCap : option Z; get_GasFeeCap : option Z;
  get_Value : option Z; get_Nonce : Z; get_To : option Z;
  get_RawSignatureValues : option Z * option Z * option Z }.

Definition hex_to (to : string) : option Z :=
  if bool_decide (to = EmptyString) then None else Some (HexToAddress to).

Definition LegacyTx_getters (tx : LegacyTx) : TxGetters :=
  let sig := RawSignatureValues (ltx_V tx) (ltx_R tx) (ltx_S tx) in
  mkGetters 0 (DeriveChainID sig.1.1) [] (ltx_Data tx) (ltx_GasLimit tx) (ltx_GasPrice tx)
    (ltx_GasPrice tx) (ltx_GasPrice tx) (ltx_Amount tx) (ltx_Nonce tx) (hex_to (ltx_To tx)) sig.

Definition AccessListTx_getters (tx : AccessListTx) : TxGetters :=
  mkGetters 1 (atx_ChainID tx) (ToEthAccessList (atx_Accesses tx)) (atx_Data tx) (atx_GasLimit tx)
    (atx_GasPrice tx) (atx_GasPrice tx) (atx_GasPrice tx) (atx_Amount tx) (atx_Nonce tx)
    (hex_to (atx_To tx)) (RawSignatureValues (atx_V tx) (atx_R tx) (atx_S tx)).

Definition DynamicFeeTx_getters (tx : DynamicFeeTx) : TxGetters :=
  mkGetters 2 (dtx_ChainID tx) (ToEthAccessList (dtx_Accesses tx)) (dtx_Data tx) (dtx_GasLimit tx)
    (dtx_GasFeeCap tx) (dtx_GasTipCap tx) (dtx_GasFeeCap tx) (dtx_Amount tx) (dtx_Nonce tx)
    (hex_to (dtx_To tx)) (RawSignatureValues (dtx_V tx) (dtx_R tx) (dtx_S tx)).

Definition getters (t : TxData) : TxGetters :=
  match t with
  | TxLegacy tx => LegacyTx_getters tx
  | TxAccessList tx => AccessListTx_getters tx
  | TxDynamicFee tx => DynamicFeeTx_getters tx
  end.

Definition TxType (t : TxData) : Z := get_TxType (getters t).
Definition GetChainID (t : TxData) : option Z := get_ChainID (getters t).
Definition GetAccessList (t : TxData) : EthAccessList := get_AccessList (getters t).
Definition GetData (t : TxData) : list Z := get_Data (getters t).
Definition GetNonceOf (t : TxData) : Z := get_Nonce (getters t).
Definition GetGas (t : TxData) : Z := get_Gas (getters t).
Definition GetGasPrice (t : TxData) : option Z := get_GasPrice (getters t).
Definition GetGasTipCap (t : TxData) : option Z := get_GasTipCap (getters t).
Definition GetGasFeeCap (t : TxData) : option Z := get_GasFeeCap (getters t).
Definition GetValue (t : TxData) : option Z := get_Value (getters t).
Definition GetTo (t : TxData) : option Z := get_To (getters t).
Definition GetRawSignatureValues (t : TxData) : option Z * option Z * option Z :=
  get_RawSignatureValues (getters t).

(** ** Fees: [None] is the nil dereference *)

Definition fee (gasPrice : option Z) (gas : Z) : option Z :=
  match gasPrice with None => None | Some p => Some (p * gas) end.

Definition cost (fee value : option Z) : option Z :=
  match value with
  | Some v => match fee with None => None | Some f => Some (f + v) end
  | None => fee
  end.

(** [min(baseFee + tipCap, feeCap)] *)
Definition EffectiveGasPrice (baseFee feeCap tipCap : Z) : Z := Z.min (tipCap + baseFee) feeCap.

Definition Fee (t : TxData) : option Z := fee (GetGasPrice t) (GetGas t).

Definition Cost (t : TxData) : option Z := cost (Fee t) (GetValue t).

Definition EffectiveGasPriceOf (t : TxData) (baseFee : option Z) : option Z :=
  match t with
  | TxLegacy _ | TxAccessList _ => GetGasPrice t
  | TxDynamicFee tx =>
      match dtx_GasFeeCap tx, dtx_GasTipCap tx, baseFee with
      | Some feeCap, Some tipCap, Some b => Some (EffectiveGasPrice b feeCap tipCap)
      | _, _, _ => None
      end
  end.

Definition EffectiveFee (t : TxData) (baseFee : option Z) : option Z :=
  match t with
  | TxLegacy _ | TxAccessList _ => Fee t
  | TxDynamicFee tx => fee (EffectiveGasPriceOf t baseFee) (dtx_GasLimit tx)
  end.

Definition EffectiveCost (t : TxData) (baseFee : option Z) : option Z :=
  match t with
  | TxLegacy _ | TxAccessList _ => Cost t
  | TxDynamicFee _ => cost (EffectiveFee t baseFee) (GetValue t)
  end.

(** [GetTxPriority]; [DefaultPriorityReduction] is 10^6. *)
Definition DefaultPriorityReduction : Z := 10 ^ 6.

Definition GetTxPriority (t : TxData) (baseFee : option Z) : option Z :=
  match EffectiveGasPriceOf t baseFee with
  | None => None
  | Some price =>
      let tipPrice := match baseFee with Some b => price - b | None => price end in
      let priorityBig := Z.quot tipPrice DefaultPriorityReduction in
      Some (if is_i64 priorityBig then priorityBig else two63 - 1)
  end.

(** ** Validation: [None] is no error *)

Definition validate_amount (amount : option Z) : option tx_error :=
  match amount with
  | Some a => if a <? 0 then Some ErrInvalidAmount
              else if negb (IsValidInt256 amount) then Some ErrInvalidAmount else None
  | None => None
  end.

Definition validate_to (to : string) : option tx_error :=
  if bool_decide (to = EmptyString) then None
  else if IsHexAddress to then None else Some ErrInvalidToAddress.

Definition validate_chain (chainID : option Z) : option tx_error :=
  match chainID with None => Some ErrInvalidChainID | Some _ => None end.

(** The first error of a list of checks. *)
Fixpoint first_error (l : list (option tx_error)) : option tx_error :=
  match l with
  | [] => None
  | Some e :: _ => Some e
  | None :: l' => first_error l'
  end.

Definition LegacyTx_Validate (tx : LegacyTx) : option tx_error :=
  let t := TxLegacy tx in
  match GetGasPrice t with
  | None => Some ErrInvalidGasPrice
  | Some gasPrice =>
      if gasPrice <? 0 then Some ErrInvalidGasPrice
      else if negb (IsValidInt256 (Some gasPrice)) then Some ErrInvalidGasPrice
      else if negb (IsValidInt256 (Fee t)) then Some ErrInvalidGasFee
      else first_error [validate_amount (GetValue t); validate_to (ltx_To tx);
                        validate_chain (GetChainID t)]
  end.

Definition AccessListTx_Validate (tx : AccessListTx) : option tx_error :=
  let t := TxAccessList tx in
  match GetGasPrice t with
  | None => Some ErrInvalidGasPrice
  | Some gasPrice =>
      if negb (IsValidInt256 (Some gasPrice)) then Some ErrInvalidGasPrice
      else if gasPrice <? 0 then Some ErrInvalidGasPrice
      else first_error [validate_amount (GetValue t);
                        (if negb (IsValidInt256 (Fee t)) then Some ErrInvalidGasFee else None);
                        validate_to (atx_To tx); validate_chain (GetChainID t)]
  end.

Definition DynamicFeeTx_Validate (tx : DynamicFeeTx) : option tx_error :=
  let t := TxDynamicFee tx in
  match dtx_GasTipCap tx, dtx_GasFeeCap tx with
  | Some tipCap, Some feeCap =>
      if tipCap <? 0 then Some ErrInvalidGasCap
      else if feeCap <? 0 then Some ErrInvalidGasCap
      else if negb (IsValidInt256 (Some tipCap)) then Some ErrInvalidGasCap
      else if negb (IsValidInt256 (Some feeCap)) then Some ErrInvalidGasCap
      else if feeCap <? tipCap then Some ErrInvalidGasCap
      else if negb (IsValidInt256 (Fee t)) then Some ErrInvalidGasFee
      else first_error [validate_amount (GetValue t); validate_to (dtx_To tx);
                        validate_chain (GetChainID t)]
  | _, _ => Some ErrInvalidGasCap
  end.

Definition TxData_Validate (t : TxData) : option tx_error :=
  match t with
  | TxLegacy tx => LegacyTx_Validate tx
  | TxAccessList tx => AccessListTx_Validate tx
  | TxDynamicFee tx => DynamicFeeTx_Validate tx
  end.

(** ** Conversions *)

Definition AsEthereumData (t : TxData) : EthTxData :=
  let '(v, r, s) := GetRawSignatureValues t in
  match t with
  | TxLegacy _ =>
      EthLegacyTx (GetNonceOf t) (GetGasPrice t) (GetGas t) (GetTo t) (GetValue t) (GetData t) v r s
  | TxAccessList _ =>
      EthAccessListTx (GetChainID t) (GetNonceOf t) (GetGasPrice t) (GetGas t) (GetTo t)
        (GetValue t) (GetData t) (GetAccessList t) v r s
  | TxDynamicFee _ =>
      EthDynamicFeeTx (GetChainID t) (GetNonceOf t) (GetGasTipCap t) (GetGasFeeCap t) (GetGas t)
        (GetTo t) (GetValue t) (GetData t) (GetAccessList t) v r s
  end.

(** [if x != nil { xInt, err := SafeNewIntFromBigInt(x); ... }], followed by
    the rest of the constructor. *)
Definition with_safe_int {A} (x : option Z) (k : option Z -> outcome tx_error A) :
    outcome tx_error A :=
  match x with
  | None => k None
  | Some i => match SafeNewIntFromBigInt i with
              | Ret n => k (Some n)
              | Err e => Err e
              | Panic => Panic
              | NoFuel => NoFuel
              end
  end.

Definition to_hex (to : option Z) : string :=
  match to with None => EmptyString | Some a => Address_Hex a end.

(** [sdkmath.NewIntFromBigInt] panics beyond 256 bits. *)
Definition with_chain_id {A} (chainID : option Z) (k : option Z -> outcome tx_error A) :
    outcome tx_error A :=
  if IsValidInt256 chainID then k chainID else Panic.

Definition NewLegacyTx (tx : Transaction) : outcome tx_error LegacyTx :=
  let '(v, r, s) := tx_RawSignatureValues tx in
  with_safe_int (tx_Value tx) (fun amount =>
  with_safe_int (tx_GasPrice tx) (fun gasPrice =>
  Ret (mkLegacyTx (tx_Nonce tx) gasPrice (tx_Gas tx) (to_hex (tx_To tx)) amount (tx_Data tx)
         (signature_bytes v) (signature_bytes r) (signature_bytes s)))).

Definition newAccessListTx (tx : Transaction) : outcome tx_error AccessListTx :=
  let '(v, r, s) := tx_RawSignatureValues tx in
  with_safe_int (tx_Value tx) (fun amount =>
  with_safe_int (tx_GasPrice tx) (fun gasPrice =>
  with_chain_id (tx_ChainId tx) (fun chainID =>
  Ret (mkAccessListTx chainID (tx_Nonce tx) gasPrice (tx_Gas tx) (to_hex (tx_To tx)) amount
         (tx_Data tx) (NewAccessList (tx_AccessList tx))
         (signature_bytes v) (signature_bytes r) (signature_bytes s))))).

Definition NewDynamicFeeTx (tx : Transaction) : outcome tx_error DynamicFeeTx :=
  let '(v, r, s) := tx_RawSignatureValues tx in
  with_safe_int (tx_Value tx) (fun amount =>
  with_safe_int (tx_GasFeeCap tx) (fun gasFeeCap =>
  with_safe_int (tx_GasTipCap tx) (fun gasTipCap =>
  with_chain_id (tx_ChainId tx) (fun chainID =>
  Ret (mkDynamicFeeTx chainID (tx_Nonce tx) gasTipCap gasFeeCap (tx_Gas tx) (to_hex (tx_To tx))
         amount (tx_Data tx) (NewAccessList (tx_AccessList tx))
         (signature_bytes v) (signature_bytes r) (signature_bytes s)))))).

Definition outcome_map {A B} (f : A -> B) (x : outcome tx_error A) : outcome tx_error B :=
  match x with Ret a => Ret (f a) | Err e => Err e | Panic => Panic | NoFuel => NoFuel end.

Definition NewTxDataFromTx (tx : Transaction) : outcome tx_error TxData :=
  if tx_Type tx =? 2 then outcome_map TxDynamicFee (NewDynamicFeeTx tx)
  else if tx_Type tx =? 1 then outcome_map TxAccessList (newAccessListTx tx)
  else outcome_map TxLegacy (NewLegacyTx tx).

End Transactions.

(** ** Searching an executable gas limit *)

(** [executable] answers whether the execution failed, or a consensus error.
    The sums are those of [uint64]; 64 halvings are enough for any range. *)
Fixpoint BinSearch_loop {E} (fuel : nat) (executable : Z -> E + bool) (lo hi : Z) : outcome E Z :=
  if u64 (lo + 1) <? hi then
    match fuel with
    | O => NoFuel
    | S fuel' =>
        let mid := u64 (hi + lo) / 2 in
        match executable mid with
        | inl err => Err err
        | inr failed =>
            if failed : bool then BinSearch_loop fuel' executable mid hi
            else BinSearch_loop fuel' executable lo mid
        end
    end
  else Ret hi.

Definition BinSearch {E} (lo hi : Z) (executable : Z -> E + bool) : outcome E Z :=
  BinSearch_loop 64 executable lo hi.
