(* ===== verification/EvmGas.v ===== *)
(** * x/evm/keeper: applying a transaction

    [state_transition.go], [gas.go], [fees.go], [config.go], [hooks.go], the
    transient counters and fee reads of [keeper.go], [abci.go] and the params
    of [params.go] with [types/chain_config.go] and [types/params.go]; the gas
    meter of [types/gasmeter.go] and the gas limit of [types/block.go].

    go-ethereum's interpreter, its chain rules, its message conversion and the
    bank's fee transfers are parameters.  A cached context is a copy of the
    state, and committing it replaces the state.  Tracing, telemetry and
    events do not change the state and are left out. *)

From S2P Require Import Prelude StateDB EvmKeeper FeeMarket EvmTx.

(** ** Chain configuration and parameters *)

Inductive fork : Type :=
| Homestead | DAOFork | EIP150 | EIP155 | EIP158 | Byzantium | Constantinople | Petersburg
| Istanbul | MuirGlacier | Berlin | London | ArrowGlacier | GrayGlacier | MergeNetsplit
| Shanghai | Cancun.

(** The order in which [Validate] visits the blocks. *)
Definition forks : list fork :=
  [Homestead; DAOFork; EIP150; EIP155; EIP158; Byzantium; Constantinople; Petersburg;
   Istanbul; MuirGlacier; Berlin; London; ArrowGlacier; GrayGlacier; MergeNetsplit;
   Shanghai; Cancun].

Record ChainConfig : Type := mkChainConfig {
  fork_block : fork -> option Z;
  DAOForkSupport : bool;
  EIP150Hash : string;
}.

(** [params.ChainConfig] *)
Record EthChainConfig : Type := mkEthConfig {
  eth_ChainID : option Z;
  eth_block : fork -> option Z;
  eth_DAOForkSupport : bool;
  eth_EIP150Hash : Z;
}.

Class ChainRules : Type := {
  IsHomestead : EthChainConfig -> Z -> bool;
  IsIstanbul : EthChainConfig -> Z -> bool;
  IsBerlin : EthChainConfig -> Z -> bool;
  cfg_IsLondon : EthChainConfig -> Z -> bool;
  CheckConfigForkOrder : EthChainConfig -> bool;
  ValidEip : Z -> bool;
  ValidateDenom : string -> bool;
  TrimSpace : string -> string;
}.

Definition getBlockValue (block : option Z) : option Z :=
  match block with
  | None => None
  | Some b => if b <? 0 then None else Some b
  end.

Definition EthereumConfig `{Hexing} (cc : ChainConfig) (chainID : option Z) : EthChainConfig :=
  mkEthConfig chainID (fun f => getBlockValue (fork_block cc f)) (DAOForkSupport cc)
    (HexToHash (EIP150Hash cc)).

Definition DefaultChainConfig `{Hexing} : ChainConfig :=
  mkChainConfig (fun _ => Some 0) true (Hash_Hex 0).

(** [true] is no error. *)
Definition validateBlock (block : option Z) : bool :=
  match block with None => true | Some b => negb (b <? 0) end.

Definition validateHash `{ChainRules} (hex : string) : bool :=
  negb (negb (bool_decide (hex = EmptyString)) && bool_decide (TrimSpace hex = EmptyString)).

Definition ChainConfig_Validate `{Hexing} `{ChainRules} (cc : ChainConfig) : bool :=
  forallb (fun f => validateBlock (fork_block cc f)) forks && validateHash (EIP150Hash cc) &&
  CheckConfigForkOrder (EthereumConfig cc None).

Definition IsLondon `{ChainRules} (cfg : EthChainConfig) (height : Z) : bool :=
  cfg_IsLondon cfg height.

(** The parameters but the denomination, which the keeper's store holds. *)
Record EvmParams : Type := mkEvmParams {
  EnableCreate : bool;
  EnableCall : bool;
  ExtraEIPs : list Z;
  chain_config : ChainConfig;
  AllowUnprotectedTxs : bool;
}.

Definition EvmParams_Validate `{Hexing} `{ChainRules} (denom : string) (p : EvmParams) : bool :=
  ValidateDenom denom && forallb ValidEip (ExtraEIPs p) && ChainConfig_Validate (chain_config p).

(** ** The gas meter *)

Record GasMeter : Type := mkMeter { meter_consumed : Z; meter_limit : Z }.

Definition NewInfiniteGasMeterWithLimit (limit : Z) : GasMeter := mkMeter 0 limit.

Definition addUint64Overflow (a b : Z) : Z * bool :=
  if two64 - 1 - a <? b then (0, true) else (a + b, false).

(** The meter after the call, and whether it panicked. *)
Definition ConsumeGas (g : GasMeter) (amount : Z) : GasMeter * bool :=
  let '(consumed, overflow) := addUint64Overflow (meter_consumed g) amount in
  (mkMeter consumed (meter_limit g), overflow).

Definition meter_RefundGas (g : GasMeter) (amount : Z) : GasMeter * bool :=
  if meter_consumed g <? amount then (g, true)
  else (mkMeter (meter_consumed g - amount) (meter_limit g), false).

(** ** Context and state *)

(** What the code reads of the SDK context.  The block gas meter is its limit
    and its consumed gas; [MaxGas] is that of the consensus parameters. *)
Record EvmCtx : Type := mkEvmCtx {
  ctx_BlockHeight : Z;
  ctx_Time : Z;
  ctx_HeaderHash : option Z;
  ctx_ComputedHash : option Z;
  ctx_HistoricalHash : Z -> option Z;
  ctx_Coinbase : option Z;
  ctx_BlockGasMeter : option (Z * Z);
  ctx_MaxGas : option Z;
  ctx_MinGasPrices : string -> Z;
  IsCheckTx : bool;
  IsReCheckTx : bool;
}.

Definition BlockGasLimit (ctx : EvmCtx) : Z :=
  let from_params :=
    match ctx_MaxGas ctx with
    | None => 0
    | Some maxGas => if maxGas =? -1 then two64 - 1 else if 0 <? maxGas then maxGas else 0
    end in
  match ctx_BlockGasMeter ctx with
  | Some (limit, _) => if limit =? 0 then from_params else limit
  | None => from_params
  end.

(** The transient store of the module. *)
Record EvmTransient : Type := mkTransient {
  t_bloom : gmap Z Z;
  t_tx_index : option Z;
  t_log_size : option Z;
  t_gas_used : option Z;
}.

Record World (A B : Type) : Type := mkWorld {
  w_store : EvmStore A B;
  w_params : EvmParams;
  w_transient : EvmTransient;
  w_fees : FeeState;
}.
Arguments mkWorld {A B}.
Arguments w_store {A B}.
Arguments w_params {A B}.
Arguments w_transient {A B}.
Arguments w_fees {A B}.

(** The stores of a context and its gas meter, which cached contexts share. *)
Record Chain (A B : Type) : Type := mkChain { world : World A B; meter : GasMeter }.
Arguments mkChain {A B}.
Arguments world {A B}.
Arguments meter {A B}.

Inductive evm_error : Type :=
| ErrCoinbase | ErrAsMessage | ErrCreateDisabled | ErrCallDisabled
| ErrIntrinsicGas | ErrIntrinsicGasOverflow | ErrMaxInitCodeSizeExceeded | ErrGasOverflow
| ErrCommit | ErrInvalidRefund | ErrRefundFunds
| ErrUnknownAddress | ErrDeductFees | ErrInvalidCoins | ErrInsufficientFunds | ErrOutOfGas
| ErrInsufficientFee | ErrInvalidSequence | ErrUnknownRequest | ErrInvalidRequest
| ErrInvalidAddress | ErrInvalidType | ErrNotSupported | ErrInvalidSender | ErrUnpackTxData
| ErrInvalidBaseFee | ErrTxTypeNotSupported | ErrBasicValidation | ErrEvmAuthority
| ErrEvmParams.

(** ** Messages, receipts, responses *)

(** [core.Message] *)
Record Message : Type := mkMessage {
  msg_From : Z; msg_To : option Z; msg_Nonce : Z; msg_Gas : Z;
  msg_GasPrice : Z; msg_GasFeeCap : Z; msg_GasTipCap : Z; msg_Value : Z;
  msg_Data : list Z; msg_AccessList : EthAccessList }.

Record Receipt : Type := mkReceipt {
  receipt_CumulativeGasUsed : Z; receipt_Bloom : Z; receipt_Logs : list Log;
  receipt_TxHash : Z; receipt_ContractAddress : Z; receipt_GasUsed : Z;
  receipt_BlockHash : Z; receipt_BlockNumber : Z; receipt_TransactionIndex : Z;
  receipt_Status : Z }.

Record Response : Type := mkResponse {
  res_GasUsed : Z; res_VmError : string; res_Ret : list Z; res_Logs : list Log; res_Hash : Z }.

Definition Failed (r : Response) : bool := negb (bool_decide (res_VmError r = EmptyString)).

(** [Return] and [Revert] of a response; the text is that of go-ethereum's
    [ErrExecutionReverted]. *)
Definition Return (r : Response) : list Z := if Failed r then [] else res_Ret r.
Definition Response_Revert (r : Response) : list Z :=
  if bool_decide (res_VmError r = "execution reverted"%string) then res_Ret r else [].

(** The block and transaction context of the interpreter. *)
Record VMContext : Type := mkVMContext {
  vmc_GetHash : Z -> Z; vmc_Coinbase : Z; vmc_GasLimit : Z; vmc_BlockNumber : Z; vmc_Time : Z;
  vmc_BaseFee : option Z; vmc_Origin : Z; vmc_GasPrice : Z; vmc_NoBaseFee : bool;
  vmc_ExtraEips : list Z }.

(** [statedb.EVMConfig] *)
Record EVMConfig_t : Type := mkEVMConfig {
  cfg_Params : EvmParams; cfg_Denom : string; cfg_ChainConfig : EthChainConfig;
  cfg_CoinBase : Z; cfg_BaseFee : option Z }.

(** ** Parameters: the interpreter, the fee transfers, the hooks *)

(** Calls return the data, the gas left and the error of the execution. *)
Class EthVM (K : Type) `{EthTransactions} : Type := {
  IntrinsicGas : list Z -> EthAccessList -> bool -> bool -> bool -> option Z;
  tx_AsMessage : EthChainConfig -> Z -> Transaction -> option Z -> option Message;
  signer_Sender : EthChainConfig -> Z -> Transaction -> option Z;
  tx_Protected : Transaction -> bool;
  vm_ActivePrecompiles : list Z;
  vm_Create : VMContext -> Z -> list Z -> Z -> Z -> SM K (list Z * Z * option string);
  vm_Call : VMContext -> Z -> Z -> list Z -> Z -> Z -> SM K (list Z * Z * option string);
  core_CanTransfer : Z -> Z -> SM K bool;
  CreateAddress : Z -> Z -> Z;
  LogsBloom : list Log -> Z;
}.

(** [authante.DeductFees] and the refund from the fee collector. *)
Class FeeBank (B : Type) : Type := {
  fee_collector : Z;
  bank_DeductFees : B -> Z -> list (string * Z) -> option B;
  bank_FromCollector : B -> Z -> string -> Z -> option B;
}.

Class FeeBankLaws (B : Type) `{EvmBank B} `{FeeBank B} : Prop := {
  deduct_nothing : forall b a, bank_DeductFees b a [] = Some b;
  deduct_law : forall b a d x b', bank_DeductFees b a [(d, x)] = Some b' ->
    credited b b' d (fun c => at_addr a (- x) c + at_addr fee_collector x c);
  from_collector_law : forall b a d x b', bank_FromCollector b a d x = Some b' ->
    credited b b' d (fun c => at_addr fee_collector (- x) c + at_addr a x c);
}.

(** A hook runs on the stores and may change the receipt. *)
Definition Hook (A B : Type) : Type := Message -> M (World A B * Receipt) string unit.

(** The keeper's own fields: the hooks, nil until set, and the chain id. *)
Class EvmSetup (A B : Type) : Type := {
  hooks : option (list (Hook A B));
  eip155ChainID : option Z;
}.

Definition MaxInitCodeSize : Z := 2 * 24576.

Section Gas.
Context {A B : Type} {HAuth : AuthKeeper A} {HBank : EvmBank B} {HFee : FeeBank B} {HHash : Hashing}.
Context {HHex : Hexing} {HEth : EthTransactions} {HRules : ChainRules}.
Context {HVM : EthVM (EvmStore A B)} {HSetup : EvmSetup A B}.

Abbreviation W := (World A B).
Abbreviation WM := (M W evm_error).
Abbreviation CM := (M (Chain A B) evm_error).
Implicit Types (w : W) (c : Chain A B).

Definition w_with_store (v : EvmStore A B) w : W := mkWorld v (w_params w) (w_transient w) (w_fees w).
Definition w_with_params v w : W := mkWorld (w_store w) v (w_transient w) (w_fees w).
Definition w_with_transient v w : W := mkWorld (w_store w) (w_params w) v (w_fees w).
Definition w_with_fees v w : W := mkWorld (w_store w) (w_params w) (w_transient w) v.
Definition with_world (w : W) c : Chain A B := mkChain w (meter c).
Definition with_meter (g : GasMeter) c : Chain A B := mkChain (world c) g.

(** Running code of the stores on the chain. *)
Definition on_world {X} (m : WM X) : CM X :=
  fun c => let '(o, w) := m (world c) in (o, with_world w c).

(** ** The transient store *)

Definition GetBlockBloomTransient (ctx : EvmCtx) w : Z :=
  default 0 (t_bloom (w_transient w) !! ctx_BlockHeight ctx).

Definition SetBlockBloomTransient (ctx : EvmCtx) (bloom : Z) w : W :=
  let t := w_transient w in
  w_with_transient (mkTransient (<[ctx_BlockHeight ctx := bloom]> (t_bloom t)) (t_tx_index t)
    (t_log_size t) (t_gas_used t)) w.

Definition GetTxIndexTransient w : Z := default 0 (t_tx_index (w_transient w)).

Definition SetTxIndexTransient (index : Z) w : W :=
  let t := w_transient w in
  w_with_transient (mkTransient (t_bloom t) (Some index) (t_log_size t) (t_gas_used t)) w.

Definition GetLogSizeTransient w : Z := default 0 (t_log_size (w_transient w)).

Definition SetLogSizeTransient (logSize : Z) w : W :=
  let t := w_transient w in
  w_with_transient (mkTransient (t_bloom t) (t_tx_index t) (Some logSize) (t_gas_used t)) w.

Definition GetTransientGasUsed w : Z := default 0 (t_gas_used (w_transient w)).

Definition set_gas_used (v : option Z) w : W :=
  let t := w_transient w in
  w_with_transient (mkTransient (t_bloom t) (t_tx_index t) (t_log_size t) v) w.

Definition SetTransientGasUsed (gasUsed : Z) w : W := set_gas_used (Some gasUsed) w.
Definition ResetTransientGasUsed w : W := set_gas_used None w.

Definition AddTransientGasUsed (gasUsed : Z) : WM Z :=
  let! w := get in
  let result := u64 (GetTransientGasUsed w + gasUsed) in
  do! guard (result <? gasUsed) ErrGasOverflow ;;
  do! modify (SetTransientGasUsed result) ;;
  ret result.

(** ** Configuration *)

Definition evm_eth_config w : EthChainConfig := EthereumConfig (chain_config (w_params w)) eip155ChainID.

Definition getBaseFee (london : bool) w : option Z :=
  if negb london then None
  else Some (default 0 (FeeMarket.GetBaseFee (w_fees w))).

Definition evm_GetBaseFee (ctx : EvmCtx) (cfg : EthChainConfig) w : option Z :=
  getBaseFee (IsLondon cfg (ctx_BlockHeight ctx)) w.

Definition GetMinGasMultiplier w : Z := default 0 (MinGasMultiplier (FeeMarket.GetParams (w_fees w))).

Definition EVMConfig (ctx : EvmCtx) : WM EVMConfig_t :=
  let! w := get in
  let ethCfg := evm_eth_config w in
  match ctx_Coinbase ctx with
  | None => fail ErrCoinbase
  | Some coinbase =>
      ret (mkEVMConfig (w_params w) (EvmDenom (w_store w)) ethCfg coinbase
             (evm_GetBaseFee ctx ethCfg w))
  end.

Definition TxConfig_of (ctx : EvmCtx) (txHash : Z) w : TxConfig :=
  mkTxConfig (default 0 (ctx_HeaderHash ctx)) txHash (GetTxIndexTransient w) (GetLogSizeTransient w).

Definition GetHashFn (ctx : EvmCtx) (height : Z) : Z :=
  if negb (is_i64 height) then 0
  else if ctx_BlockHeight ctx =? height then
    match ctx_HeaderHash ctx with
    | Some h => h
    | None => default 0 (ctx_ComputedHash ctx)
    end
  else if height <? ctx_BlockHeight ctx then default 0 (ctx_HistoricalHash ctx height)
  else 0.

(** [NoBaseFee] of [VMConfig] *)
Definition VMConfig_NoBaseFee (ctx : EvmCtx) (cfg : EVMConfig_t) w : bool :=
  if IsLondon (cfg_ChainConfig cfg) (ctx_BlockHeight ctx)
  then NoBaseFee (FeeMarket.GetParams (w_fees w)) else true.

Definition NewEVM (ctx : EvmCtx) (msg : Message) (cfg : EVMConfig_t) w : VMContext :=
  mkVMContext (GetHashFn ctx) (cfg_CoinBase cfg) (BlockGasLimit ctx) (ctx_BlockHeight ctx)
    (ctx_Time ctx) (cfg_BaseFee cfg) (msg_From msg) (msg_GasPrice msg)
    (VMConfig_NoBaseFee ctx cfg w) (ExtraEIPs (cfg_Params cfg)).

(** ** Gas *)

Definition GetEthIntrinsicGas (ctx : EvmCtx) (msg : Message) (cfg : EthChainConfig)
    (isContractCreation : bool) : option Z :=
  IntrinsicGas (msg_Data msg) (msg_AccessList msg) isContractCreation
    (IsHomestead cfg (ctx_BlockHeight ctx)) (IsIstanbul cfg (ctx_BlockHeight ctx)).

Definition GasToRefund (availableRefund gasConsumed refundQuotient : Z) : Z :=
  let refund := gasConsumed / refundQuotient in
  if availableRefund <? refund then availableRefund else refund.

(** [NewCoin] panics without a denomination, [NewIntFromBigInt] beyond 256
    bits. *)
Definition RefundGas (msg : Message) (leftoverGas : Z) (denom : string) : WM unit :=
  let remaining := leftoverGas * msg_GasPrice msg in
  if remaining <? 0 then fail ErrInvalidRefund
  else if 0 <? remaining then
    if bool_decide (denom = EmptyString) || negb (IsValidInt256 (Some remaining)) then panic
    else
      let! w := get in
      match bank_FromCollector (evm_bank (w_store w)) (msg_From msg) denom remaining with
      | None => fail ErrRefundFunds
      | Some b => modify (fun w => w_with_store (evm_with_bank b (w_store w)) w)
      end
  else ret tt.

Definition ResetGasMeterAndConsumeGas (gasUsed : Z) : CM unit :=
  let! c := get in
  let '(g1, bad1) := meter_RefundGas (meter c) (meter_consumed (meter c)) in
  do! modify (with_meter g1) ;;
  if bad1 : bool then panic
  else
    let '(g2, bad2) := ConsumeGas g1 gasUsed in
    do! modify (with_meter g2) ;;
    if bad2 : bool then panic else ret tt.

(** ** Executing a message *)

(** Methods of the StateDB within the keeper's code. *)
Definition lift {K X} (m : SM K X) : M (StateDB K) evm_error X :=
  fun s => match m s with
           | (Ret a, s') => (Ret a, s')
           | (Err _, s') => (Err ErrCommit, s')
           | (Panic, s') => (Panic, s')
           | (NoFuel, s') => (NoFuel, s')
           end.

Definition refund_quotient (isLondon : bool) : Z := if isLondon then 5 else 2.

(** The gas charged: the minimum share of the limit, or what was used.  An
    amount out of [uint64] panics. *)
Definition charged_gas (gas used multiplier : Z) : option Z :=
  let minimumGasUsed := dec_Mul (NewDec (i64 gas)) multiplier in
  let gasUsed := TruncateInt (dec_Max minimumGasUsed (NewDec (i64 used))) in
  if is_u64 gasUsed then Some gasUsed else None.

(** The call of the interpreter, with the nonce of a creation. *)
Definition run_vm (env : VMContext) (msg : Message) (leftoverGas : Z) :
    M (StateDB (EvmStore A B)) evm_error (list Z * Z * option string) :=
  match msg_To msg with
  | None =>
      do! guard (MaxInitCodeSize <? Z.of_nat (length (msg_Data msg))) ErrMaxInitCodeSizeExceeded ;;
      do! lift (SetNonce (msg_From msg) (msg_Nonce msg)) ;;
      let! r := lift (vm_Create env (msg_From msg) (msg_Data msg) leftoverGas (msg_Value msg)) in
      do! lift (SetNonce (msg_From msg) (u64 (msg_Nonce msg + 1))) ;;
      ret r
  | Some to => lift (vm_Call env (msg_From msg) to (msg_Data msg) leftoverGas (msg_Value msg))
  end.

Definition apply_message (ctx : EvmCtx) (msg : Message) (commit : bool) (cfg : EVMConfig_t)
    (txHash : Z) (env : VMContext) (multiplier : Z) :
    M (StateDB (EvmStore A B)) evm_error Response :=
  let isLondon := cfg_IsLondon (cfg_ChainConfig cfg) (ctx_BlockHeight ctx) in
  match GetEthIntrinsicGas ctx msg (cfg_ChainConfig cfg) (bool_decide (msg_To msg = None)) with
  | None => fail ErrIntrinsicGasOverflow
  | Some intrinsicGas =>
      do! guard (msg_Gas msg <? intrinsicGas) ErrIntrinsicGas ;;
      do! (if IsBerlin (cfg_ChainConfig cfg) (ctx_BlockHeight ctx)
           then lift (PrepareAccessList (msg_From msg) (msg_To msg) vm_ActivePrecompiles
                        (msg_AccessList msg))
           else ret tt) ;;
      let! (data, leftoverGas, vmErr) := run_vm env msg (msg_Gas msg - intrinsicGas) in
      do! guard (msg_Gas msg <? leftoverGas) ErrGasOverflow ;;
      let! s := get in
      let temporaryGasUsed := msg_Gas msg - leftoverGas in
      let gasRefund := GasToRefund (refund s) temporaryGasUsed (refund_quotient isLondon) in
      let leftoverGas := u64 (leftoverGas + gasRefund) in
      let temporaryGasUsed := u64 (temporaryGasUsed - gasRefund) in
      do! (if commit then lift Commit else ret tt) ;;
      do! guard (msg_Gas msg <? leftoverGas) ErrGasOverflow ;;
      match charged_gas (msg_Gas msg) temporaryGasUsed multiplier with
      | None => panic
      | Some gasUsed =>
          let! s := get in
          ret (mkResponse gasUsed (default EmptyString vmErr) data (logs s) txHash)
      end
  end.

(** The stores afterwards are those under the StateDB. *)
Definition ApplyMessageWithConfig (ctx : EvmCtx) (msg : Message) (commit : bool)
    (cfg : EVMConfig_t) (tc : TxConfig) : WM Response :=
  do! guard (negb (EnableCreate (cfg_Params cfg)) && bool_decide (msg_To msg = None))
        ErrCreateDisabled ;;
  do! guard (negb (EnableCall (cfg_Params cfg)) && negb (bool_decide (msg_To msg = None)))
        ErrCallDisabled ;;
  fun w =>
    let '(o, s) := apply_message ctx msg commit cfg (tx_TxHash tc) (NewEVM ctx msg cfg w)
                     (GetMinGasMultiplier w) (New (w_store w) tc) in
    (o, w_with_store (keeper s) w).

Definition ApplyMessage (ctx : EvmCtx) (msg : Message) (commit : bool) : WM Response :=
  let! cfg := EVMConfig ctx in
  ApplyMessageWithConfig ctx msg commit cfg (mkTxConfig (default 0 (ctx_HeaderHash ctx)) 0 0 0).

(** ** Hooks *)

Fixpoint MultiEvmHooks (l : list (Hook A B)) (msg : Message) : M (W * Receipt) string unit :=
  match l with
  | [] => ret tt
  | h :: l' => do! h msg ;; MultiEvmHooks l' msg
  end.

(** ** Applying a transaction *)

Definition cumulative_gas (ctx : EvmCtx) (gasUsed : Z) : Z :=
  match ctx_BlockGasMeter ctx with
  | None => gasUsed
  | Some (limit, consumed) =>
      let sum := u64 (gasUsed + consumed) in if limit <? sum then limit else sum
  end.

Definition new_receipt (ctx : EvmCtx) (msg : Message) (tc : TxConfig) (res : Response) w : Receipt :=
  let bloomReceipt := match res_Logs res with
                      | [] => 0
                      | l => Z.lor (GetBlockBloomTransient ctx w) (LogsBloom l)
                      end in
  mkReceipt (cumulative_gas ctx (res_GasUsed res)) bloomReceipt (res_Logs res) (tx_TxHash tc)
    (match msg_To msg with None => CreateAddress (msg_From msg) (msg_Nonce msg) | Some _ => 0 end)
    (res_GasUsed res) (tx_BlockHash tc) (ctx_BlockHeight ctx) (tx_TxIndex tc)
    (if Failed res then 0 else 1).

Definition ErrPostTxProcessing : string := "failed to execute post processing".

(** The hooks on the stores [tmp] of the cached context: the response and the
    receipt, with the cached stores committed on success. *)
Definition post_process (msg : Message) (res : Response) (receipt : Receipt) (tmp : W) :
    CM (Response * Receipt) :=
  if Failed res then ret (res, receipt)
  else match hooks with
       | None => ret (res, receipt)
       | Some hs =>
           match MultiEvmHooks hs msg (tmp, receipt) with
           | (Ret _, (tmp', receipt')) =>
               do! modify (with_world tmp') ;;
               ret (mkResponse (res_GasUsed res) (res_VmError res) (res_Ret res)
                      (receipt_Logs receipt') (res_Hash res), receipt')
           | (Err _, (_, receipt')) =>
               ret (mkResponse (res_GasUsed res) ErrPostTxProcessing (res_Ret res) []
                      (res_Hash res), receipt')
           | (Panic, _) => panic
           | (NoFuel, _) => nofuel
           end
       end.

(** The message on the cached context when there are hooks. *)
Definition apply_cached (ctx : EvmCtx) (msg : Message) (cfg : EVMConfig_t) (tc : TxConfig) :
    CM (Response * W) :=
  fun c =>
    let '(o, tmp) := ApplyMessageWithConfig ctx msg true cfg tc (world c) in
    let c' := match hooks with None => with_world tmp c | Some _ => c end in
    (match o with
     | Ret res => Ret (res, tmp) | Err e => Err e | Panic => Panic | NoFuel => NoFuel
     end, c').

(** What is left after the message: the refund and the counters. *)
Definition finish_transaction (ctx : EvmCtx) (msg : Message) (cfg : EVMConfig_t) (tc : TxConfig)
    (res : Response) (receipt : Receipt) : CM Response :=
  do! on_world (RefundGas msg (u64 (msg_Gas msg - res_GasUsed res)) (cfg_Denom cfg)) ;;
  do! (match receipt_Logs receipt with
       | [] => ret tt
       | l => do! on_world (modify (SetBlockBloomTransient ctx (receipt_Bloom receipt))) ;;
              on_world (modify (SetLogSizeTransient (u64 (tx_LogIndex tc + Z.of_nat (length l)))))
       end) ;;
  do! on_world (modify (SetTxIndexTransient (u64 (tx_TxIndex tc + 1)))) ;;
  let! totalGasUsed := on_world (AddTransientGasUsed (res_GasUsed res)) in
  do! ResetGasMeterAndConsumeGas totalGasUsed ;;
  ret res.

(** The message, its response and its receipt after the hooks. *)
Definition execute_transaction (ctx : EvmCtx) (tx : Transaction) (cfg : EVMConfig_t) (tc : TxConfig) :
    CM (Message * Response * Receipt) :=
  match tx_AsMessage (cfg_ChainConfig cfg) (ctx_BlockHeight ctx) tx (cfg_BaseFee cfg) with
  | None => fail ErrAsMessage
  | Some msg =>
      let! (res, tmp) := apply_cached ctx msg cfg tc in
      let! c := get in
      let! (res, receipt) := post_process msg res (new_receipt ctx msg tc res (world c)) tmp in
      ret (msg, res, receipt)
  end.

Definition ApplyTransaction (ctx : EvmCtx) (tx : Transaction) : CM Response :=
  let! cfg := on_world (EVMConfig ctx) in
  let! c := get in
  let tc := TxConfig_of ctx (tx_Hash tx) (world c) in
  let! (msg, res, receipt) := execute_transaction ctx tx cfg tc in
  finish_transaction ctx msg cfg tc res receipt.

(** ** Messages of the module and the end of a block *)

Definition EthereumTx (ctx : EvmCtx) (t : TxData) : CM Response :=
  ApplyTransaction ctx (ethtypes_NewTx (AsEthereumData t)).

Definition evm_SetParams (denom : string) (p : EvmParams) : WM unit :=
  do! guard (negb (EvmParams_Validate denom p)) ErrEvmParams ;;
  modify (fun w => w_with_params p (w_with_store
    (mkEvm (evm_auth (w_store w)) (evm_bank (w_store w)) (evm_code (w_store w))
       (evm_storage (w_store w)) denom) w)).

Definition evm_UpdateParams (authority req_Authority denom : string) (p : EvmParams) : WM unit :=
  do! guard (negb (bool_decide (authority = req_Authority))) ErrEvmAuthority ;;
  evm_SetParams denom p.

(** The bloom of the event [EndBlock] emits. *)
Definition evm_EndBlock_bloom (ctx : EvmCtx) w : Z := GetBlockBloomTransient ctx w.

(** ** Fees *)

Definition CheckSenderBalance (balance : Z) (t : TxData) : WM unit :=
  match Cost t with
  | None => panic
  | Some cost =>
      do! guard (cost <? 0) ErrInvalidCoins ;;
      guard ((balance <? 0) || (balance <? cost)) ErrInsufficientFunds
  end.

Definition DeductTxCostsFromUserBalance (fees : list (string * Z)) (from : Z) : WM unit :=
  let! w := get in
  match auth_GetAccount (evm_auth (w_store w)) from with
  | None => fail ErrUnknownAddress
  | Some _ =>
      match bank_DeductFees (evm_bank (w_store w)) from fees with
      | None => fail ErrDeductFees
      | Some b => modify (fun w => w_with_store (evm_with_bank b (w_store w)) w)
      end
  end.

Definition VerifyFee (t : TxData) (denom : string) (baseFee : option Z)
    (homestead istanbul isCheckTx : bool) : WM (list (string * Z)) :=
  match IntrinsicGas (GetData t) (GetAccessList t) (bool_decide (GetTo t = None)) homestead istanbul with
  | None => fail ErrIntrinsicGasOverflow
  | Some intrinsicGas =>
      do! guard (isCheckTx && (GetGas t <? intrinsicGas)) ErrOutOfGas ;;
      do! (match baseFee, GetGasFeeCap t with
           | None, _ => ret tt
           | Some _, None => panic
           | Some b, Some feeCap => guard (feeCap <? b) ErrInsufficientFee
           end) ;;
      match EffectiveFee t baseFee with
      | None => panic
      | Some feeAmt =>
          if feeAmt =? 0 then ret []
          else if IsValidInt256 (Some feeAmt) then ret [(denom, feeAmt)] else panic
      end
  end.

End Gas.
