(* ===== verification/EvmAnte.v ===== *)
(** * app/ante/evm: admitting an Ethereum transaction

    The decorators of [setup_ctx.go], [fees.go], [sigverify.go], [eth.go] and
    [fee_market.go] in the order of [newEVMAnteHandler].  The state is the
    chain, the messages (the signature check writes the sender into them) and
    the priority of the context.  [ValidateBasic] of the SDK's transaction is
    the field [tx_BasicOk]. *)

From S2P Require Import Prelude StateDB EvmKeeper FeeMarket EvmTx EvmGas.

(** ** Transactions *)

(** [MsgEthereumTx]: [None] is data that does not unpack. *)
Record MsgEthereumTx : Type := mkMsgEth {
  m_Data : option TxData; m_From : string; m_Hash : string; m_Size : Z }.

Inductive SdkMsg : Type := EthMsg (m : MsgEthereumTx) | OtherMsg.

(** The fields of the protobuf transaction; lists the code only measures are
    their lengths. *)
Record ProtoTx : Type := mkProtoTx {
  tx_BasicOk : bool;
  tx_Memo : string;
  tx_TimeoutHeight : Z;
  tx_NonCritical : Z;
  tx_Extensions : Z;
  tx_SignerInfos : Z;
  tx_Payer : string;
  tx_Granter : string;
  tx_Signatures : Z;
  tx_FeeAmount : list (string * Z);
  tx_FeeGasLimit : Z;
}.

Record AnteState (A B : Type) : Type := mkAnte {
  ante_chain : Chain A B;
  ante_msgs : list SdkMsg;
  ante_priority : Z;
}.
Arguments mkAnte {A B}.
Arguments ante_chain {A B}.
Arguments ante_msgs {A B}.
Arguments ante_priority {A B}.

Section Ante.
Context {A B : Type} {HAuth : AuthKeeper A} {HBank : EvmBank B} {HFee : FeeBank B} {HHash : Hashing}.
Context {HHex : Hexing} {HEth : EthTransactions} {HRules : ChainRules}.
Context {HVM : EthVM (EvmStore A B)} {HSetup : EvmSetup A B}.

Abbreviation AM := (M (AnteState A B) evm_error).
Abbreviation WM := (M (World A B) evm_error).
Implicit Types (w : World A B) (a : AnteState A B).

Definition ante_with_chain (c : Chain A B) a := mkAnte c (ante_msgs a) (ante_priority a).
Definition ante_with_msgs (l : list SdkMsg) a := mkAnte (ante_chain a) l (ante_priority a).
Definition ante_with_priority (p : Z) a := mkAnte (ante_chain a) (ante_msgs a) p.

Definition in_world {X} (m : WM X) : AM X :=
  fun a => let '(o, c) := on_world m (ante_chain a) in (o, ante_with_chain c a).

Definition set_meter (g : GasMeter) : AM unit :=
  modify (fun a => ante_with_chain (with_meter g (ante_chain a)) a).

(** [for _, msg := range tx.GetMsgs()] with the cast to [MsgEthereumTx]. *)
Fixpoint each_msg (f : MsgEthereumTx -> WM unit) (l : list SdkMsg) : WM unit :=
  match l with
  | [] => ret tt
  | OtherMsg :: _ => fail ErrUnknownRequest
  | EthMsg m :: l' => do! f m ;; each_msg f l'
  end.

Definition unpack (m : MsgEthereumTx) : WM TxData :=
  match m_Data m with None => fail ErrUnpackTxData | Some t => ret t end.

(** [MsgEthereumTx.GetFee], [GetEffectiveFee] and [GetGas]: data that does
    not unpack has no fee and no gas. *)
Definition msg_GetFee (m : MsgEthereumTx) : option Z :=
  match m_Data m with None => None | Some t => Fee t end.
Definition msg_GetEffectiveFee (m : MsgEthereumTx) (baseFee : option Z) : option Z :=
  match m_Data m with None => None | Some t => EffectiveFee t baseFee end.
Definition msg_GetGas (m : MsgEthereumTx) : Z :=
  match m_Data m with None => 0 | Some t => GetGas t end.
Definition msg_GetFrom (m : MsgEthereumTx) : option Z :=
  if bool_decide (m_From m = EmptyString) then None else Some (HexToAddress (m_From m)).

(** [MsgEthereumTx.ValidateBasic]; the hash is compared in hexadecimal. *)
Definition msg_ValidateBasic (m : MsgEthereumTx) : bool :=
  (bool_decide (m_From m = EmptyString) || IsHexAddress (m_From m)) && (m_Size m =? 0) &&
  match m_Data m with
  | None => false
  | Some t =>
      negb (GetGas t =? 0) && is_i64 (GetGas t) && bool_decide (TxData_Validate t = None) &&
      bool_decide (m_Hash m = Hash_Hex (tx_Hash (ethtypes_NewTx (AsEthereumData t))))
  end.

(** ** Setting up and the minimum fees *)

Definition EthSetupContext : AM unit :=
  do! set_meter (mkMeter 0 0) ;;
  in_world (modify ResetTransientGasUsed).

(** [minGasPrice.Mul(gasLimit)] against the fee. *)
Definition fee_too_low (minGasPrice : Z) (fee : Z) (gas : Z) : bool :=
  NewDec fee <? dec_Mul minGasPrice (NewDec gas).

Definition EthMempoolFee (ctx : EvmCtx) (simulate : bool) (msgs : list SdkMsg) : WM unit :=
  if negb (IsCheckTx ctx) || simulate then ret tt
  else
    let! w := get in
    match evm_GetBaseFee ctx (evm_eth_config w) w with
    | Some _ => ret tt
    | None =>
        let minGasPrice := ctx_MinGasPrices ctx (EvmDenom (w_store w)) in
        each_msg (fun m =>
          match msg_GetFee m with
          | None => panic
          | Some fee => guard (fee_too_low minGasPrice fee (msg_GetGas m)) ErrInsufficientFee
          end) msgs
    end.

Definition EthMinGasPrice (ctx : EvmCtx) (msgs : list SdkMsg) : WM unit :=
  let! w := get in
  match MinGasPrice (FeeMarket.GetParams (w_fees w)) with
  | None => ret tt
  | Some minGasPrice =>
      if minGasPrice =? 0 then ret tt
      else
        let baseFee := evm_GetBaseFee ctx (evm_eth_config w) w in
        each_msg (fun m =>
          let! t := unpack m in
          match (if TxType t =? 0 then msg_GetFee m else msg_GetEffectiveFee m baseFee) with
          | None => panic
          | Some feeAmt =>
              guard (fee_too_low minGasPrice feeAmt (msg_GetGas m)) ErrInsufficientFee
          end) msgs
  end.

(** ** Basic validation *)

(** The sum of the fees and of the gas limits, the latter in [uint64]. *)
Fixpoint sum_fees (baseFee : option Z) (p : EvmParams) (l : list SdkMsg) (txFee txGas : Z) :
    WM (Z * Z) :=
  match l with
  | [] => ret (txFee, txGas)
  | OtherMsg :: _ => fail ErrUnknownRequest
  | EthMsg m :: l' =>
      do! guard (negb (bool_decide (m_From m = EmptyString))) ErrInvalidRequest ;;
      let! t := unpack m in
      do! guard (negb (EnableCreate p) && bool_decide (GetTo t = None)) ErrCreateDisabled ;;
      do! guard (negb (EnableCall p) && negb (bool_decide (GetTo t = None))) ErrCallDisabled ;;
      do! guard (bool_decide (baseFee = None) && (TxType t =? 2)) ErrTxTypeNotSupported ;;
      match Fee t with
      | None => panic
      | Some f =>
          if IsValidInt256 (Some f) && IsValidInt256 (Some (txFee + f))
          then sum_fees baseFee p l' (txFee + f) (u64 (txGas + msg_GetGas m)) else panic
      end
  end.

(** Coins hold no zero amounts. *)
Definition coins (denom : string) (x : Z) : list (string * Z) :=
  if x =? 0 then [] else [(denom, x)].

Definition EthValidateBasic (ctx : EvmCtx) (tx : ProtoTx) (msgs : list SdkMsg) : WM unit :=
  if IsReCheckTx ctx then ret tt
  else
    do! guard (negb (tx_BasicOk tx)) ErrBasicValidation ;;
    do! guard (negb (bool_decide (tx_Memo tx = EmptyString)) || negb (tx_TimeoutHeight tx =? 0) ||
               (0 <? tx_NonCritical tx)) ErrInvalidRequest ;;
    do! guard (negb (tx_Extensions tx =? 1)) ErrInvalidRequest ;;
    do! guard (0 <? tx_SignerInfos tx) ErrInvalidRequest ;;
    do! guard (negb (bool_decide (tx_Payer tx = EmptyString)) ||
               negb (bool_decide (tx_Granter tx = EmptyString))) ErrInvalidRequest ;;
    do! guard (0 <? tx_Signatures tx) ErrInvalidRequest ;;
    let! w := get in
    let baseFee := evm_GetBaseFee ctx (evm_eth_config w) w in
    let! (txFee, txGas) := sum_fees baseFee (w_params w) msgs 0 0 in
    do! guard (negb (bool_decide (tx_FeeAmount tx = coins (EvmDenom (w_store w)) txFee)))
          ErrInvalidRequest ;;
    guard (negb (tx_FeeGasLimit tx =? txGas)) ErrInvalidRequest.

(** ** Signatures *)

Definition set_from (from : string) (m : MsgEthereumTx) : MsgEthereumTx :=
  mkMsgEth (m_Data m) from (m_Hash m) (m_Size m).

(** The senders found are written as the loop goes; on an error those of the
    messages before it stay written. *)
Fixpoint verify_signatures (ctx : EvmCtx) (cfg : EthChainConfig) (allowUnprotected : bool)
    (l : list SdkMsg) : outcome evm_error unit * list SdkMsg :=
  match l with
  | [] => (Ret tt, [])
  | OtherMsg :: _ => (Err ErrUnknownRequest, l)
  | EthMsg m :: l' =>
      match m_Data m with
      | None => (Panic, l)
      | Some t =>
          let tx := ethtypes_NewTx (AsEthereumData t) in
          if negb allowUnprotected && negb (tx_Protected tx) then (Err ErrNotSupported, l)
          else match signer_Sender cfg (ctx_BlockHeight ctx) tx with
               | None => (Err ErrInvalidSender, l)
               | Some sender =>
                   let '(o, l1) := verify_signatures ctx cfg allowUnprotected l' in
                   (o, EthMsg (set_from (Address_Hex sender) m) :: l1)
               end
      end
  end.

Definition EthSigVerification (ctx : EvmCtx) : AM unit :=
  let! a := get in
  let w := world (ante_chain a) in
  do! guard (bool_decide (ante_msgs a = [])) ErrUnknownRequest ;;
  let '(o, l) := verify_signatures ctx (evm_eth_config w) (AllowUnprotectedTxs (w_params w))
                   (ante_msgs a) in
  do! modify (ante_with_msgs l) ;;
  fun a => (o, a).

(** ** Accounts and transfers *)

(** An unknown sender gets a new account. *)
Definition verify_account (m : MsgEthereumTx) : WM unit :=
  let! t := unpack m in
  match msg_GetFrom m with
  | None => fail ErrInvalidAddress
  | Some from =>
      let! w := get in
      match evm_GetAccount (w_store w) from with
      | None =>
          let '(x, m1) := auth_NewAccount (evm_auth (w_store w)) from in
          do! modify (fun w => w_with_store (evm_with_auth (auth_SetAccount m1 from x) (w_store w)) w) ;;
          CheckSenderBalance 0 t
      | Some acct =>
          do! guard (IsContract acct) ErrInvalidType ;;
          CheckSenderBalance (Balance acct) t
      end
  end.

Definition EthAccountVerification (ctx : EvmCtx) (msgs : list SdkMsg) : WM unit :=
  if negb (IsCheckTx ctx) then ret tt
  else
    do! guard (bool_decide (msgs = [])) ErrUnknownRequest ;;
    each_msg verify_account msgs.

(** The check on a StateDB that is thrown away. *)
Definition can_transfer (ctx : EvmCtx) (cfg : EthChainConfig) (m : MsgEthereumTx) : WM unit :=
  let! w := get in
  let baseFee := evm_GetBaseFee ctx cfg w in
  match m_Data m with
  | None => panic
  | Some t =>
      match tx_AsMessage cfg (ctx_BlockHeight ctx) (ethtypes_NewTx (AsEthereumData t)) baseFee with
      | None => fail ErrAsMessage
      | Some msg =>
          do! (if IsLondon cfg (ctx_BlockHeight ctx) then
                 match baseFee with
                 | None => fail ErrInvalidBaseFee
                 | Some b => guard (msg_GasFeeCap msg <? b) ErrInsufficientFee
                 end
               else ret tt) ;;
          if msg_Value msg <=? 0 then ret tt
          else match core_CanTransfer (msg_From msg) (msg_Value msg)
                       (New (w_store w) (mkTxConfig (default 0 (ctx_HeaderHash ctx)) 0 0 0)) with
               | (Ret true, _) => ret tt
               | (Ret false, _) => fail ErrInsufficientFunds
               | (Err _, _) | (Panic, _) => panic
               | (NoFuel, _) => nofuel
               end
      end
  end.

Definition CanTransfer (ctx : EvmCtx) (msgs : list SdkMsg) : WM unit :=
  let! w := get in
  do! guard (bool_decide (msgs = [])) ErrUnknownRequest ;;
  each_msg (can_transfer ctx (evm_eth_config w)) msgs.

(** ** Gas *)

(** The loop of [EthGasConsumeDecorator]: the gas wanted, in [uint64], and the
    lowest priority; each message's fee is deducted. *)
Fixpoint consume_gas (ctx : EvmCtx) (maxGasWanted : Z) (denom : string) (baseFee : option Z)
    (homestead istanbul : bool) (l : list SdkMsg) (gasWanted minPriority : Z) : WM (Z * Z) :=
  match l with
  | [] => ret (gasWanted, minPriority)
  | OtherMsg :: _ => fail ErrUnknownRequest
  | EthMsg m :: l' =>
      let! t := unpack m in
      let wanted := if IsCheckTx ctx && negb (maxGasWanted =? 0)
                    then (if maxGasWanted <? GetGas t then maxGasWanted else GetGas t)
                    else GetGas t in
      let! fees := VerifyFee t denom baseFee homestead istanbul (IsCheckTx ctx) in
      do! DeductTxCostsFromUserBalance fees (HexToAddress (m_From m)) ;;
      match GetTxPriority t baseFee with
      | None => panic
      | Some priority =>
          consume_gas ctx maxGasWanted denom baseFee homestead istanbul l'
            (u64 (gasWanted + wanted)) (if priority <? minPriority then priority else minPriority)
      end
  end.

Definition EthGasConsume (ctx : EvmCtx) (maxGasWanted : Z) : AM unit :=
  if IsReCheckTx ctx then set_meter (NewInfiniteGasMeterWithLimit 0)
  else
    let! a := get in
    let w := world (ante_chain a) in
    let ethCfg := evm_eth_config w in
    do! guard (bool_decide (ante_msgs a = [])) ErrUnknownRequest ;;
    let! (gasWanted, minPriority) := in_world
      (consume_gas ctx maxGasWanted (EvmDenom (w_store w)) (evm_GetBaseFee ctx ethCfg w)
         (IsHomestead ethCfg (ctx_BlockHeight ctx)) (IsIstanbul ethCfg (ctx_BlockHeight ctx))
         (ante_msgs a) 0 (two63 - 1)) in
    do! guard (BlockGasLimit ctx <? gasWanted) ErrOutOfGas ;;
    do! set_meter (NewInfiniteGasMeterWithLimit gasWanted) ;;
    modify (ante_with_priority minPriority).

(** ** Nonces *)

Definition increment_sequence (m : MsgEthereumTx) : WM unit :=
  let! t := unpack m in
  let! w := get in
  match msg_GetFrom m with
  | None => fail ErrUnknownAddress
  | Some from =>
      match auth_GetAccount (evm_auth (w_store w)) from with
      | None => fail ErrUnknownAddress
      | Some acc =>
          do! guard (negb (GetNonceOf t =? GetSequence acc)) ErrInvalidSequence ;;
          modify (fun w => w_with_store (evm_with_auth
            (auth_SetAccount (evm_auth (w_store w)) from
               (SetSequence (u64 (GetSequence acc + 1)) acc)) (w_store w)) w)
      end
  end.

Definition EthIncrementSenderSequence (msgs : list SdkMsg) : WM unit :=
  do! guard (bool_decide (msgs = [])) ErrUnknownRequest ;;
  each_msg increment_sequence msgs.

Definition GasWanted (ctx : EvmCtx) (tx : ProtoTx) : WM unit :=
  let! w := get in
  if negb (IsLondon (evm_eth_config w) (ctx_BlockHeight ctx)) then ret tt
  else
    do! guard (BlockGasLimit ctx <? tx_FeeGasLimit tx) ErrOutOfGas ;;
    if GetBaseFeeEnabled (mkFeeCtx (ctx_BlockHeight ctx) (ctx_MaxGas ctx) None) (w_fees w) then
      modify (fun w => w_with_fees (AddTransientGasWanted (tx_FeeGasLimit tx) (w_fees w)).2 w)
    else ret tt.

(** ** The chain of decorators *)

(** A decorator over the messages of the state. *)
Definition over_msgs (f : list SdkMsg -> WM unit) : AM unit :=
  let! a := get in in_world (f (ante_msgs a)).

Definition newEVMAnteHandler (ctx : EvmCtx) (simulate : bool) (maxGasWanted : Z) (tx : ProtoTx) :
    AM unit :=
  do! EthSetupContext ;;
  do! over_msgs (EthMempoolFee ctx simulate) ;;
  do! over_msgs (EthMinGasPrice ctx) ;;
  do! over_msgs (EthValidateBasic ctx tx) ;;
  do! EthSigVerification ctx ;;
  do! over_msgs (EthAccountVerification ctx) ;;
  do! over_msgs (CanTransfer ctx) ;;
  do! EthGasConsume ctx maxGasWanted ;;
  do! over_msgs EthIncrementSenderSequence ;;
  in_world (GasWanted ctx tx).

End Ante.
