(* ===== verification/EvmTxFacts.v ===== *)
(** * x/evm: facts on transactions and gas

    The round trip between go-ethereum's transactions and the protobuf ones,
    the fees of valid transactions, the gas search, and the arithmetic of the
    gas charged for a message. *)

From S2P Require Import Prelude Bytes FeeMarket EvmTx EvmGas.

(** ** Signature values and access lists *)

Lemma nbytes_pos x : 0 < x -> (0 < nbytes x)%nat.
Proof.
  intros Hx. unfold nbytes. destruct (x <=? 0) eqn:H; [lia|].
  pose proof (Z.div_pos (Z.log2 x) 8 (Z.log2_nonneg x) eq_refl). lia.
Qed.

(** Zero has no bytes and reads back as nil. *)
Lemma raw_value_bytes x :
  0 <= x -> filled (raw_value (signature_bytes (Some x))) = Some x.
Proof.
  intros Hx. unfold signature_bytes. rewrite Z.abs_eq by lia.
  destruct (decide (x = 0)) as [->|Hne]; [done|].
  unfold raw_value. destruct (big_bytes x) as [|b l] eqn:Hb.
  - pose proof (be_bytes_length (nbytes x) x) as Hl. unfold big_bytes in Hb. rewrite Hb in Hl.
    pose proof (nbytes_pos x). simpl in Hl. lia.
  - unfold filled. simpl default. by rewrite <- Hb, be_val_big.
Qed.

#[local] Arguments signature_bytes : simpl never.
#[local] Arguments raw_value : simpl never.
#[local] Arguments filled : simpl never.
#[local] Arguments to_hex : simpl never.
#[local] Arguments hex_to : simpl never.
#[local] Arguments ToEthAccessList : simpl never.
#[local] Arguments NewAccessList : simpl never.

Ltac open_getters :=
  unfold AsEthereumData, GetRawSignatureValues, GetTo, GetChainID, GetAccessList, GetData, GetNonceOf,
    GetGas, GetGasPrice, GetGasTipCap, GetGasFeeCap, GetValue; simpl.

Section Roundtrip.
Context {HHex : Hexing} {HEth : EthTransactions} {HHexLaws : HexLaws} {HEthLaws : EthTransactionLaws}.

Definition addressed (al : EthAccessList) : Prop :=
  Forall (fun t => is_address t.1 /\ Forall is_hash t.2) al.

Lemma hashes_roundtrip ks : Forall is_hash ks -> HexToHash <$> (Hash_Hex <$> ks) = ks.
Proof. induction 1 as [|h hs Hh _ IH]; [done|]. rewrite !fmap_cons, IH. by rewrite hash_hex. Qed.

Lemma access_list_roundtrip al : addressed al -> ToEthAccessList (NewAccessList al) = al.
Proof.
  unfold ToEthAccessList, NewAccessList.
  induction 1 as [|[a ks] al [Ha Hks] _ IH]; [done|]. rewrite !fmap_cons, IH. simpl in *.
  by rewrite address_hex, hashes_roundtrip.
Qed.

Lemma GetTo_hex to :
  match to with Some a => is_address a | None => True end -> hex_to (to_hex to) = to.
Proof.
  unfold hex_to, to_hex. destruct to as [a|]; intros Ha.
  - rewrite bool_decide_false by apply address_hex_shown. by rewrite address_hex.
  - done.
Qed.

(** What a decoded transaction of go-ethereum holds: 256-bit amounts that are
    not negative, signature values that are not negative, 20-byte addresses. *)
Definition u256 (x : Z) : Prop := 0 <= x < 2 ^ 256.

Definition optional (P : Z -> Prop) (x : option Z) : Prop :=
  match x with Some a => P a | None => True end.

Definition eth_wf (d : EthTxData) : Prop :=
  match d with
  | EthLegacyTx _ p _ to x _ v r s =>
      optional u256 p /\ optional is_address to /\ optional u256 x /\
      optional (Z.le 0) v /\ optional (Z.le 0) r /\ optional (Z.le 0) s
  | EthAccessListTx c _ p _ to x _ al v r s =>
      optional u256 c /\ optional u256 p /\ optional is_address to /\ optional u256 x /\
      addressed al /\ optional (Z.le 0) v /\ optional (Z.le 0) r /\ optional (Z.le 0) s
  | EthDynamicFeeTx c _ p f _ to x _ al v r s =>
      optional u256 c /\ optional u256 p /\ optional u256 f /\ optional is_address to /\
      optional u256 x /\ addressed al /\
      optional (Z.le 0) v /\ optional (Z.le 0) r /\ optional (Z.le 0) s
  end.

Lemma u256_valid x : u256 x -> IsValidInt256 (Some x) = true.
Proof. unfold u256, IsValidInt256. intros. lia. Qed.

Lemma safe_u256 {A} x (k : option Z -> outcome tx_error A) :
  u256 x -> with_safe_int (Some x) k = k (Some x).
Proof. intros Hx. unfold with_safe_int, SafeNewIntFromBigInt. by rewrite u256_valid. Qed.

Lemma chain_u256 {A} x (k : option Z -> outcome tx_error A) :
  u256 x -> with_chain_id (Some x) k = k (Some x).
Proof. intros Hx. unfold with_chain_id. by rewrite u256_valid. Qed.

Lemma optional_default (P : Z -> Prop) x : optional P x -> P 0 -> P (default 0 x).
Proof. by destruct x. Qed.

Lemma raw_sig v :
  optional (Z.le 0) v -> filled (raw_value (signature_bytes (Some (default 0 v)))) = filled v.
Proof. intros Hv. rewrite raw_value_bytes; [done|]. by apply (optional_default (Z.le 0)). Qed.

(** One transaction type: the protobuf form of [NewTx d] converts back to a
    struct that [NewTx] makes the same transaction. *)
Definition converts_back (d : EthTxData) : Prop :=
  exists t, NewTxDataFromTx (ethtypes_NewTx d) = Ret t /\
    ethtypes_NewTx (AsEthereumData t) = ethtypes_NewTx d.

Lemma same_copy d d' : eth_copy d = eth_copy d' -> ethtypes_NewTx d = ethtypes_NewTx d'.
Proof. intros Hc. by rewrite <- NewTx_copies, Hc, NewTx_copies. Qed.

Lemma legacy_roundtrip n p g to x b v r s :
  eth_wf (EthLegacyTx n p g to x b v r s) -> converts_back (EthLegacyTx n p g to x b v r s).
Proof.
  intros (Hp & Hto & Hx & Hv & Hr & Hs). unfold converts_back.
  rewrite <- NewTx_copies. simpl eth_copy. unfold filled.
  destruct (legacy_reads n (default 0 p) g to (default 0 x) b (default 0 v) (default 0 r)
              (default 0 s)) as (E1 & E2 & E3 & E4 & E5 & E6 & E7 & E8).
  set (tx := ethtypes_NewTx _) in *. unfold NewTxDataFromTx, NewLegacyTx.
  rewrite E1, E2, E3, E4, E5, E6, E7, E8. simpl Z.eqb. cbv iota.
  rewrite !safe_u256 by (by apply optional_default). eexists. split; [reflexivity|].
  unfold tx. apply same_copy. open_getters.
  rewrite GetTo_hex by done. by rewrite !raw_sig.
Qed.

Lemma access_list_tx_roundtrip c n p g to x b al v r s :
  eth_wf (EthAccessListTx c n p g to x b al v r s) ->
  converts_back (EthAccessListTx c n p g to x b al v r s).
Proof.
  intros (Hc & Hp & Hto & Hx & Hal & Hv & Hr & Hs). unfold converts_back.
  rewrite <- NewTx_copies. simpl eth_copy. unfold filled.
  destruct (access_list_reads (default 0 c) n (default 0 p) g to (default 0 x) b al (default 0 v)
              (default 0 r) (default 0 s)) as (E1 & E2 & E3 & E4 & E5 & E6 & E7 & E8 & E9 & E10).
  set (tx := ethtypes_NewTx _) in *. unfold NewTxDataFromTx, newAccessListTx.
  rewrite E1, E2, E3, E4, E5, E6, E7, E8, E9, E10. simpl Z.eqb. cbv iota.
  rewrite !safe_u256, chain_u256 by (by apply optional_default). eexists. split; [reflexivity|].
  unfold tx. apply same_copy. open_getters.
  rewrite GetTo_hex, access_list_roundtrip by done. by rewrite !raw_sig.
Qed.

Lemma dynamic_fee_roundtrip c n p f g to x b al v r s :
  eth_wf (EthDynamicFeeTx c n p f g to x b al v r s) ->
  converts_back (EthDynamicFeeTx c n p f g to x b al v r s).
Proof.
  intros (Hc & Hp & Hf & Hto & Hx & Hal & Hv & Hr & Hs). unfold converts_back.
  rewrite <- NewTx_copies. simpl eth_copy. unfold filled.
  destruct (dynamic_fee_reads (default 0 c) n (default 0 p) (default 0 f) g to (default 0 x) b al
              (default 0 v) (default 0 r) (default 0 s))
    as (E1 & E2 & E3 & E4 & E5 & E6 & E7 & E8 & E9 & E10 & E11).
  set (tx := ethtypes_NewTx _) in *. unfold NewTxDataFromTx, NewDynamicFeeTx.
  rewrite E1, E2, E3, E4, E5, E6, E7, E8, E9, E10, E11. simpl Z.eqb. cbv iota.
  rewrite !safe_u256, chain_u256 by (by apply optional_default). eexists. split; [reflexivity|].
  unfold tx. apply same_copy. open_getters.
  rewrite GetTo_hex, access_list_roundtrip by done. by rewrite !raw_sig.
Qed.

Lemma eth_roundtrip d : eth_wf d -> converts_back d.
Proof.
  destruct d; auto using legacy_roundtrip, access_list_tx_roundtrip, dynamic_fee_roundtrip.
Qed.

End Roundtrip.

(** ** The gas search *)

Section BinSearch.
Context {E : Type} (failed : Z -> bool).
Hypothesis failed_mono : forall g g', g' <= g -> failed g = true -> failed g' = true.

Definition never_errs (g : Z) : E + bool := inr (failed g).

Lemma BinSearch_loop_spec fuel lo hi :
  0 <= lo < hi -> hi <= two63 -> hi - lo <= 2 ^ Z.of_nat fuel ->
  exists r, BinSearch_loop fuel never_errs lo hi = Ret r /\ lo < r <= hi /\
    (r = hi \/ failed r = false) /\ (forall g, lo < g < r -> failed g = true).
Proof.
  revert lo hi. induction fuel as [|fuel IH]; intros lo hi Hlo Hsum Hf; simpl.
  - change (2 ^ Z.of_nat 0) with 1 in Hf. rewrite u64_id by (unfold is_u64, two63, two64 in *; lia).
    destruct (lo + 1 <? hi) eqn:Hc; [lia|]. exists hi. split; [done|].
    split; [lia|]. split; [by left|]. intros g Hg. lia.
  - rewrite u64_id by (unfold is_u64, two63, two64 in *; lia).
    destruct (lo + 1 <? hi) eqn:Hc.
    2:{ exists hi. split; [done|]. split; [lia|]. split; [by left|]. intros g Hg. lia. }
    rewrite u64_id by (unfold is_u64, two63, two64 in *; lia). set (mid := (hi + lo) / 2).
    pose proof (Z.div_mod (hi + lo) 2 ltac:(lia)) as Hdm. fold mid in Hdm.
    pose proof (Z.mod_pos_bound (hi + lo) 2 ltac:(lia)) as Hmod. clearbody mid.
    apply Z.ltb_lt in Hc. assert (lo < mid < hi) as Hmid by lia.
    rewrite Nat2Z.inj_succ, Z.pow_succ_r in Hf by lia.
    destruct (failed mid) eqn:Hm.
    + destruct (IH mid hi) as (r & Hr & Hin & Hok & Hlow); try lia.
      exists r. split; [done|]. split; [lia|]. split; [done|]. intros g Hg.
      destruct (decide (g <= mid)); [by apply (failed_mono mid)|apply Hlow; lia].
    + destruct (IH lo mid) as (r & Hr & Hin & Hok & Hlow); try lia.
      exists r. split; [done|]. split; [lia|]. split; [|done]. right. by destruct Hok as [->|].
Qed.
End BinSearch.

(** ** The gas charged *)

(** Multiplying a whole number is exact. *)
Lemma dec_Mul_whole n m : 0 <= n -> 0 <= m -> dec_Mul (NewDec n) m = n * m.
Proof.
  intros Hn Hm. unfold dec_Mul, NewDec, chop_round.
  assert (0 <= n * dec_one * m) by (unfold dec_one; nia).
  replace (n * dec_one * m) with (n * m * dec_one) in * by lia.
  destruct (n * m * dec_one <? 0) eqn:Hs; [lia|]. unfold chop_round_abs.
  rewrite Z.mod_mul, Z.div_mul by done. done.
Qed.

Lemma charged_gas_spec gas used m :
  0 <= used <= gas -> gas < two63 -> 0 <= m <= dec_one ->
  charged_gas gas used m = Some (Z.max (gas * m / dec_one) used).
Proof.
  intros Hu Hg Hm. unfold charged_gas.
  rewrite !i64_id by (unfold is_i64, two63 in *; lia). rewrite dec_Mul_whole by lia.
  assert (TruncateInt (dec_Max (gas * m) (NewDec used)) = Z.max (gas * m / dec_one) used) as ->.
  { unfold TruncateInt, dec_Max, NewDec.
    assert (0 < dec_one) as H1 by done.
    assert (0 <= gas * m) by nia.
    destruct (gas * m <? used * dec_one) eqn:Hc.
    - rewrite Z.quot_mul by lia.
      assert (gas * m / dec_one < used) by (apply Z.div_lt_upper_bound; lia). lia.
    - rewrite Z.quot_div_nonneg by lia.
      assert (used <= gas * m / dec_one) by (apply Z.div_le_lower_bound; lia). lia. }
  assert (gas * m / dec_one <= gas).
  { apply Z.div_le_upper_bound; [done|]. nia. }
  assert (0 <= gas * m / dec_one) by (apply Z.div_pos; [nia|done]).
  unfold is_u64, two63, two64 in *.
  destruct (_ && _) eqn:Hb; [done|]. lia.
Qed.

Lemma GasToRefund_spec available used q :
  0 <= available -> 0 <= used -> 0 < q -> GasToRefund available used q = Z.min available (used / q).
Proof. intros. unfold GasToRefund. destruct (_ <? _) eqn:H2; lia. Qed.


