(* ===== verification/EvmGasFacts.v ===== *)
(** * x/evm/keeper: facts on applying a transaction

    What the module relies on of go-ethereum's interpreter and message
    conversion, the gas charged for a message, and the state a transaction
    leaves outside the interpreter. *)

From S2P Require Import Prelude StateDB EvmKeeper FeeMarket EvmTx EvmGas EvmTxFacts.

(** ** The refund counter *)

Section Refund.
Context {K : Type} {HKeeper : Keeper K} {HHash : Hashing}.

Abbreviation keeps_refund := (keeps (E := unit) (refund (K := K))).

Lemma append_refund e : keeps_refund (append e).
Proof. frame. Qed.

Lemma update_object_refund a f : keeps_refund (update_object a f).
Proof. frame. Qed.

Lemma setStateObject_refund o : keeps_refund (setStateObject o).
Proof. frame. Qed.

#[local] Hint Resolve append_refund update_object_refund setStateObject_refund : frames.

Lemma getStateObject_refund a : keeps_refund (getStateObject a).
Proof. unfold getStateObject. frame. Qed.

#[local] Hint Resolve getStateObject_refund : frames.

Lemma SetNonce_refund a n : keeps_refund (SetNonce a n).
Proof. unfold SetNonce, getOrNewStateObject, createObject, obj_SetNonce, live. frame. Qed.

Lemma AddAddress_refund a : keeps_refund (AddAddressToAccessList a).
Proof. unfold AddAddressToAccessList. frame. Qed.

Lemma AddSlot_refund a x : keeps_refund (AddSlotToAccessList a x).
Proof. unfold AddSlotToAccessList. frame. Qed.

Lemma each_refund {X} (f : X -> SM K unit) l :
  (forall x, keeps_refund (f x)) -> keeps_refund (each f l).
Proof. intros Hf. induction l as [|x l IH]; simpl; frame. Qed.

Lemma PrepareAccessList_refund sender dst pre l : keeps_refund (PrepareAccessList sender dst pre l).
Proof.
  unfold PrepareAccessList. apply keeps_bind; [apply AddAddress_refund|intros _].
  apply keeps_bind; [destruct dst; [apply AddAddress_refund|apply keeps_ret]|intros _].
  apply keeps_bind; [apply each_refund, AddAddress_refund|intros _].
  apply each_refund. intros el. apply keeps_bind; [apply AddAddress_refund|intros _].
  apply each_refund, AddSlot_refund.
Qed.

Lemma lift_Ret {X} (m : SM K X) s x s' : lift m s = (Ret x, s') -> m s = (Ret x, s').
Proof. unfold lift. destruct (m s) as [[]]; naive_solver. Qed.
End Refund.

(** ** What is assumed of go-ethereum *)

(** Calls return at most the gas they were given and keep the refund counter
    from going below zero; intrinsic gas is a [uint64]. *)
Class EthVMLaws (K : Type) `{EthTransactions} `{!EthVM K} : Prop := {
  vm_Create_gas : forall env from data gas value s d l e s',
    vm_Create env from data gas value s = (Ret (d, l, e), s') ->
    0 <= gas -> 0 <= refund s -> 0 <= l <= gas /\ 0 <= refund s';
  vm_Call_gas : forall env from to data gas value s d l e s',
    vm_Call env from to data gas value s = (Ret (d, l, e), s') ->
    0 <= gas -> 0 <= refund s -> 0 <= l <= gas /\ 0 <= refund s';
  IntrinsicGas_nonneg : forall data al create homestead istanbul g,
    IntrinsicGas data al create homestead istanbul = Some g -> 0 <= g;
}.

(** [AsMessage]: the gas, the price (the effective one under a base fee) and
    the sender recovered from the signature. *)
Definition eth_gas (d : EthTxData) : Z :=
  match d with
  | EthLegacyTx _ _ g _ _ _ _ _ _ => g
  | EthAccessListTx _ _ _ g _ _ _ _ _ _ _ => g
  | EthDynamicFeeTx _ _ _ _ g _ _ _ _ _ _ _ => g
  end.

Definition eth_caps (d : EthTxData) : Z * Z :=
  match d with
  | EthLegacyTx _ p _ _ _ _ _ _ _ => (default 0 p, default 0 p)
  | EthAccessListTx _ _ p _ _ _ _ _ _ _ _ => (default 0 p, default 0 p)
  | EthDynamicFeeTx _ _ tip cap _ _ _ _ _ _ _ _ => (default 0 tip, default 0 cap)
  end.

Class EthMessageLaws (K : Type) `{EthTransactions} `{!EthVM K} : Prop := {
  AsMessage_reads : forall cfg h d baseFee msg,
    tx_AsMessage cfg h (ethtypes_NewTx d) baseFee = Some msg ->
    msg_Gas msg = eth_gas d /\
    msg_GasPrice msg = (match baseFee with
                        | Some b => Z.min ((eth_caps d).1 + b) (eth_caps d).2
                        | None => (eth_caps d).2
                        end) /\
    signer_Sender cfg h (ethtypes_NewTx d) = Some (msg_From msg);
  Sender_address : forall cfg h tx from, signer_Sender cfg h tx = Some from -> is_address from;
}.

(** ** The gas charged for a message *)

Section GasFacts.
Context {A B : Type} {HAuth : AuthKeeper A} {HBank : EvmBank B} {HFee : FeeBank B} {HHash : Hashing}.
Context {HHex : Hexing} {HEth : EthTransactions} {HRules : ChainRules}.
Context {HVM : EthVM (EvmStore A B)} {HSetup : EvmSetup A B}.
Context {HVMLaws : EthVMLaws (EvmStore A B)}.

Implicit Types (w : World A B) (c : Chain A B).

Lemma run_vm_gas env msg g s d l e s' :
  run_vm env msg g s = (Ret (d, l, e), s') -> 0 <= g -> 0 <= refund s ->
  0 <= l <= g /\ 0 <= refund s'.
Proof.
  unfold run_vm. intros Hrun Hg Hs. destruct (msg_To msg) as [to|].
  - apply lift_Ret in Hrun. by eapply vm_Call_gas.
  - minv. repeat match goal with H : lift _ _ = _ |- _ => apply lift_Ret in H end.
    match goal with H1 : SetNonce _ _ s = (_, ?s1), H2 : vm_Create _ _ _ _ _ _ = (_, ?s2) |- _ =>
      pose proof (keeps_run _ _ _ _ _ (SetNonce_refund _ _) H1);
      destruct (vm_Create_gas _ _ _ _ _ _ _ _ _ _ H2) as [Hl Hr]; [done|lia|] end.
    match goal with H : SetNonce _ (u64 _) _ = _ |- _ =>
      pose proof (keeps_run _ _ _ _ _ (SetNonce_refund _ _) H) end.
    split; [done|lia].
Qed.

(** The bounds of the gas charged: the limit above; below, the share of the
    limit that is always charged, and the intrinsic gas less its refund. *)
Record gas_bounds (ctx : EvmCtx) (msg : Message) (cfg : EVMConfig_t) (multiplier used : Z) : Prop :=
  mkGasBounds {
  charged_within : 0 <= used <= msg_Gas msg;
  charged_share : msg_Gas msg * multiplier / dec_one <= used;
  charged_intrinsic : exists g,
    GetEthIntrinsicGas ctx msg (cfg_ChainConfig cfg) (bool_decide (msg_To msg = None)) = Some g /\
    g <= msg_Gas msg /\
    g - g / refund_quotient (cfg_IsLondon (cfg_ChainConfig cfg) (ctx_BlockHeight ctx)) <= used;
}.

Lemma capped_mono q x y : 0 < q -> 0 <= x <= y -> x - x / q <= y - y / q.
Proof.
  intros Hq Hxy. enough (y / q <= x / q + (y - x)) by lia.
  enough (y / q < x / q + (y - x) + 1) by lia. apply Z.div_lt_upper_bound; [done|].
  pose proof (Z.div_mod x q). pose proof (Z.mod_pos_bound x q Hq). nia.
Qed.

Lemma refund_quotient_pos b : 1 < refund_quotient b.
Proof. by destruct b. Qed.

Lemma apply_message_gas ctx msg commit cfg h env m s res s' :
  apply_message ctx msg commit cfg h env m s = (Ret res, s') ->
  refund s = 0 -> 0 <= msg_Gas msg < two63 -> 0 <= m <= dec_one ->
  gas_bounds ctx msg cfg m (res_GasUsed res).
Proof.
  intros Hrun Hs Hgas Hm. unfold apply_message in Hrun.
  set (q := refund_quotient _) in *.
  assert (1 < q) as Hq by apply refund_quotient_pos.
  destruct (GetEthIntrinsicGas _ _ _ _) as [g|] eqn:Hg; [|by minv].
  pose proof (IntrinsicGas_nonneg _ _ _ _ _ _ Hg) as Hg0.
  apply bind_Ret in Hrun as ([] & s0 & [Hlow ->]%guard_Ret & Hrun).
  apply bind_Ret in Hrun as ([] & s1 & Hprep & Hrun).
  assert (refund s1 = 0) as Hs1.
  { destruct (IsBerlin _ _); [apply lift_Ret in Hprep|by minv].
    by rewrite (keeps_run _ _ _ _ _ (PrepareAccessList_refund _ _ _ _) Hprep). }
  apply bind_Ret in Hrun as ([[d l] e] & s2 & Hvm & Hrun).
  destruct (run_vm_gas _ _ _ _ _ _ _ _ Hvm) as [Hl Hr]; [lia|lia|].
  apply bind_Ret in Hrun as ([] & s3 & [Hover ->]%guard_Ret & Hrun). rewrite bind_get in Hrun.
  rewrite GasToRefund_spec in Hrun by lia.
  assert (0 <= msg_Gas msg - l <= msg_Gas msg /\ g <= msg_Gas msg - l) as [Hused Hg1] by lia.
  set (used := msg_Gas msg - l) in *. clearbody used.
  pose proof (capped_mono q g used ltac:(lia) ltac:(lia)) as Hcap.
  assert (0 <= used / q <= used) as Hdiv.
  { split; [apply Z.div_pos; lia|]. apply Z.div_le_upper_bound; nia. }
  set (cap := used / q) in *. set (back := Z.min (refund s2) cap) in *.
  assert (0 <= back <= cap) as Hback by (unfold back; lia). clearbody back cap.
  apply bind_Ret in Hrun as ([] & s4 & _ & Hrun).
  apply bind_Ret in Hrun as ([] & s5 & [_ ->]%guard_Ret & Hrun).
  rewrite (u64_id (used - back)) in Hrun by (unfold is_u64, two63, two64 in *; lia).
  rewrite charged_gas_spec in Hrun by lia. minv. simpl.
  assert (msg_Gas msg * m / dec_one <= msg_Gas msg) by (apply Z.div_le_upper_bound; [done|nia]).
  assert (0 <= msg_Gas msg * m / dec_one) by (apply Z.div_pos; [nia|done]).
  constructor; [lia|lia|]. exists g. split; [done|]. split; [lia|]. fold q. lia.
Qed.

(** The multiplier the fee market's parameters allow. *)
Definition multiplier_ok w : Prop := 0 <= GetMinGasMultiplier w <= dec_one.

Lemma ApplyMessageWithConfig_Ret ctx msg commit cfg tc w res w' :
  ApplyMessageWithConfig ctx msg commit cfg tc w = (Ret res, w') ->
  exists s, apply_message ctx msg commit cfg (tx_TxHash tc) (NewEVM ctx msg cfg w)
              (GetMinGasMultiplier w) (New (w_store w) tc) = (Ret res, s) /\
    w' = w_with_store (keeper s) w.
Proof.
  unfold ApplyMessageWithConfig. intros Hrun.
  apply bind_Ret in Hrun as ([] & w1 & [_ ->]%guard_Ret & Hrun).
  apply bind_Ret in Hrun as ([] & w1 & [_ ->]%guard_Ret & Hrun).
  destruct (apply_message _ _ _ _ _ _ _ _) as [o s] eqn:Hs. injection Hrun as -> <-. eauto.
Qed.

Lemma message_gas ctx msg commit cfg tc w res w' :
  ApplyMessageWithConfig ctx msg commit cfg tc w = (Ret res, w') ->
  0 <= msg_Gas msg < two63 -> multiplier_ok w ->
  gas_bounds ctx msg cfg (GetMinGasMultiplier w) (res_GasUsed res).
Proof.
  intros (s & Hs & _)%ApplyMessageWithConfig_Ret Hgas Hm. by eapply apply_message_gas.
Qed.
(** ** The rest of a transaction *)

Context {HBankLaws : FeeBankLaws B}.

Lemma on_world_Ret {X} (m : M (World A B) evm_error X) c x c' :
  on_world m c = (Ret x, c') -> exists w', m (world c) = (Ret x, w') /\ c' = with_world w' c.
Proof. unfold on_world. destruct (m (world c)) as [o w']. intros [= -> <-]. eauto. Qed.

(** [x] of [denom] moved from one account to another. *)
Definition moved (b b' : B) (denom : string) (from to x : Z) : Prop :=
  credited b b' denom (fun a => at_addr from (- x) a + at_addr to x a).

Lemma moved_nothing b d from to : moved b b d from to 0.
Proof. intros a d'. unfold at_addr. repeat case_decide; lia. Qed.

Lemma RefundGas_Ret msg g denom w u w' :
  RefundGas msg g denom w = (Ret u, w') ->
  exists b', w' = w_with_store (evm_with_bank b' (w_store w)) w /\
    moved (evm_bank (w_store w)) b' denom fee_collector (msg_From msg) (g * msg_GasPrice msg).
Proof.
  unfold RefundGas. intros Hrun. set (x := g * msg_GasPrice msg) in *.
  destruct (x <? 0) eqn:Hneg; [by minv|]. destruct (0 <? x) eqn:Hpos.
  - destruct (_ || _); [by minv|]. rewrite bind_get in Hrun.
    destruct (bank_FromCollector _ _ _ _) as [b'|] eqn:Hb; [|by minv]. minv.
    exists b'. split; [done|]. by apply from_collector_law.
  - minv. replace x with 0 by lia. exists (evm_bank (w_store w')).
    split; [by destruct w' as [[]]|apply moved_nothing].
Qed.

(** The transient store after a transaction: the index and the gas used of the
    block, and for a receipt with logs the bloom filter and the log index *)
Definition counted (ctx : EvmCtx) (tc : TxConfig) (res : Response) (receipt : Receipt)
    (t : EvmTransient) : EvmTransient :=
  let logs := receipt_Logs receipt in
  mkTransient
    (if bool_decide (logs = []) then t_bloom t
     else <[ctx_BlockHeight ctx := receipt_Bloom receipt]> (t_bloom t))
    (Some (u64 (tx_TxIndex tc + 1)))
    (if bool_decide (logs = []) then t_log_size t
     else Some (u64 (tx_LogIndex tc + Z.of_nat (length logs))))
    (Some (u64 (default 0 (t_gas_used t) + res_GasUsed res))).

(** The chain after a transaction, with the bank [b] *)
Definition finished ctx tc res receipt (b : B) (c : Chain A B) : Chain A B :=
  let w := world c in
  let t := counted ctx tc res receipt (w_transient w) in
  mkChain (mkWorld (evm_with_bank b (w_store w)) (w_params w) t (w_fees w))
    (mkMeter (default 0 (t_gas_used t)) (meter_limit (meter c))).

Lemma reset_meter_Ret g c u c' :
  ResetGasMeterAndConsumeGas g c = (Ret u, c') -> c' = with_meter (mkMeter g (meter_limit (meter c))) c.
Proof.
  unfold ResetGasMeterAndConsumeGas, meter_RefundGas, ConsumeGas, addUint64Overflow. rewrite bind_get.
  rewrite Z.ltb_irrefl, Z.sub_diag. cbn [meter_consumed meter_limit].
  destruct (_ <? g); intros; by minv.
Qed.

Lemma record_logs_Ret ctx tc receipt c u c' :
  (match receipt_Logs receipt with
   | [] => ret tt
   | l => do! on_world (modify (SetBlockBloomTransient ctx (receipt_Bloom receipt))) ;;
          on_world (modify (SetLogSizeTransient (u64 (tx_LogIndex tc + Z.of_nat (length l)))))
   end) c = (Ret u, c') ->
  let logs := receipt_Logs receipt in
  let t := w_transient (world c) in
  c' = with_world (w_with_transient (mkTransient
    (if bool_decide (logs = []) then t_bloom t
     else <[ctx_BlockHeight ctx := receipt_Bloom receipt]> (t_bloom t))
    (t_tx_index t)
    (if bool_decide (logs = []) then t_log_size t
     else Some (u64 (tx_LogIndex tc + Z.of_nat (length logs))))
    (t_gas_used t)) (world c)) c.
Proof.
  destruct (receipt_Logs receipt) as [|x l]; intros Hrun; minv; [by destruct c' as [[? ? [] ?] ?]|].
  repeat match goal with H : on_world _ _ = _ |- _ => apply on_world_Ret in H as (? & ? & ->) end.
  by minv.
Qed.

Lemma finish_transaction_Ret ctx msg cfg tc res receipt c res' c' :
  finish_transaction ctx msg cfg tc res receipt c = (Ret res', c') ->
  res' = res /\ exists b', c' = finished ctx tc res receipt b' c /\
    moved (evm_bank (w_store (world c))) b' (cfg_Denom cfg) fee_collector (msg_From msg)
      (u64 (msg_Gas msg - res_GasUsed res) * msg_GasPrice msg).
Proof.
  unfold finish_transaction. intros Hrun.
  apply bind_Ret in Hrun as (u & c1 & (w1 & Hr & ->)%on_world_Ret & Hrun).
  apply RefundGas_Ret in Hr as (b' & -> & Hb).
  apply bind_Ret in Hrun as (u1 & c2 & ->%record_logs_Ret & Hrun).
  apply bind_Ret in Hrun as (u2 & c3 & (w3 & H3 & ->)%on_world_Ret & Hrun).
  apply bind_Ret in Hrun as (total & c4 & (w4 & H4 & ->)%on_world_Ret & Hrun).
  apply bind_Ret in Hrun as (u5 & c5 & ->%reset_meter_Ret & Hrun).
  unfold AddTransientGasUsed in H4. minv. split; [done|]. by exists b'.
Qed.

(** ** Failed transactions *)

Lemma post_process_failed msg res receipt tmp c res' receipt' c' :
  post_process msg res receipt tmp c = (Ret (res', receipt'), c') ->
  Failed res' = true -> c' = c.
Proof.
  unfold post_process. intros Hrun Hf. destruct (Failed res) eqn:Hres; [by minv|].
  destruct hooks as [hs|]; [|by minv].
  destruct (MultiEvmHooks hs msg (tmp, receipt)) as [[] []]; minv; try done.
  unfold Failed in *. simpl in *. congruence.
Qed.

Lemma post_process_gas msg res receipt tmp c res' receipt' c' :
  post_process msg res receipt tmp c = (Ret (res', receipt'), c') ->
  res_GasUsed res' = res_GasUsed res.
Proof.
  unfold post_process. intros Hrun. destruct (Failed res) eqn:Hres; [by minv|].
  destruct hooks as [hs|]; [|by minv].
  by destruct (MultiEvmHooks hs msg (tmp, receipt)) as [[] []]; minv.
Qed.

Lemma apply_cached_Ret ctx msg cfg tc c res tmp c' :
  apply_cached ctx msg cfg tc c = (Ret (res, tmp), c') ->
  ApplyMessageWithConfig ctx msg true cfg tc (world c) = (Ret res, tmp) /\
  c' = (match hooks with None => with_world tmp c | Some _ => c end).
Proof.
  unfold apply_cached. destruct (ApplyMessageWithConfig _ _ _ _ _ _) as [[] ?];
    intros [= -> -> <-]. done.
Qed.

(** What [ApplyTransaction] is made of. *)
Lemma ApplyTransaction_Ret ctx tx c res c' :
  ApplyTransaction ctx tx c = (Ret res, c') ->
  exists cfg msg receipt c1,
    EVMConfig ctx (world c) = (Ret cfg, world c) /\
    cfg_Denom cfg = EvmDenom (w_store (world c)) /\
    execute_transaction ctx tx cfg (TxConfig_of ctx (tx_Hash tx) (world c)) c =
      (Ret (msg, res, receipt), c1) /\
    finish_transaction ctx msg cfg (TxConfig_of ctx (tx_Hash tx) (world c)) res receipt c1 =
      (Ret res, c').
Proof.
  unfold ApplyTransaction. intros Hrun.
  apply bind_Ret in Hrun as (cfg & c0 & (w0 & Hcfg & ->)%on_world_Ret & Hrun).
  assert (w0 = world c /\ cfg_Denom cfg = EvmDenom (w_store (world c))) as [-> Hd].
  { revert Hcfg. unfold EVMConfig. rewrite bind_get. destruct (ctx_Coinbase ctx); intros; by minv. }
  replace (with_world (world c) c) with c in Hrun by by destruct c. rewrite bind_get in Hrun.
  apply bind_Ret in Hrun as ([[msg r] receipt] & c1 & Hex & Hrun).
  destruct (finish_transaction_Ret _ _ _ _ _ _ _ _ _ Hrun) as [-> _].
  by exists cfg, msg, receipt, c1.
Qed.

Lemma execute_transaction_Ret ctx tx cfg tc c msg res receipt c1 :
  execute_transaction ctx tx cfg tc c = (Ret (msg, res, receipt), c1) ->
  tx_AsMessage (cfg_ChainConfig cfg) (ctx_BlockHeight ctx) tx (cfg_BaseFee cfg) = Some msg /\
  exists res0 tmp c0,
    ApplyMessageWithConfig ctx msg true cfg tc (world c) = (Ret res0, tmp) /\
    c0 = (match hooks with None => with_world tmp c | Some _ => c end) /\
    post_process msg res0 (new_receipt ctx msg tc res0 (world c0)) tmp c0 = (Ret (res, receipt), c1).
Proof.
  unfold execute_transaction. intros Hrun.
  destruct (tx_AsMessage _ _ _ _) as [msg'|] eqn:Hm; [|by minv].
  apply bind_Ret in Hrun as ([res0 tmp] & c0 & [Hap Hc0]%apply_cached_Ret & Hrun).
  rewrite bind_get in Hrun.
  apply bind_Ret in Hrun as ([res1 receipt1] & c2 & Hpost & Hrun). minv.
  split; [done|]. exists res0, tmp. eexists. done.
Qed.

End GasFacts.
