(* ===== verification/EvmAnteFacts.v ===== *)
(** * app/ante/evm: facts on admitting a transaction

    Frames of the decorators, the fee a one-message transaction pays, the
    senders the signature check writes, and the nonces. *)

From S2P Require Import Prelude StateDB EvmKeeper FeeMarket EvmTx EvmGas EvmAnte EvmTxFacts EvmGasFacts.

Section AnteFacts.
Context {A B : Type} {HAuth : AuthKeeper A} {HBank : EvmBank B} {HFee : FeeBank B} {HHash : Hashing}.
Context {HHex : Hexing} {HEth : EthTransactions} {HRules : ChainRules}.
Context {HVM : EthVM (EvmStore A B)} {HSetup : EvmSetup A B}.

Implicit Types (w : World A B) (a : AnteState A B).

(** ** Frames *)

(** The settings a transaction's price depends on. *)
Definition settings w : string * EvmParams * option Z * Z :=
  (EvmDenom (w_store w), w_params w, FeeMarket.GetBaseFee (w_fees w), GetMinGasMultiplier w).

(** The settings and the bank. *)
Definition books w : B * (string * EvmParams * option Z * Z) := (evm_bank (w_store w), settings w).

Definition ante_books a := (books (world (ante_chain a)), ante_msgs a).

Lemma in_world_keeps {X} (m : M (World A B) evm_error X) :
  keeps books m -> keeps ante_books (in_world m).
Proof.
  intros Hm a. unfold in_world, on_world. specialize (Hm (world (ante_chain a))).
  destruct (m (world (ante_chain a))) as [o w]. unfold ante_books in *. simpl in *. by rewrite Hm.
Qed.

Lemma each_msg_keeps {X} (f : World A B -> X) g l :
  (forall m, keeps f (g m)) -> keeps f (each_msg g l).
Proof. intros Hg. induction l as [|[m|] l IH]; simpl; frame. Qed.

Lemma unpack_keeps {X} (f : World A B -> X) m : keeps f (unpack m).
Proof. unfold unpack. frame. Qed.

#[local] Hint Resolve unpack_keeps : frames.

Lemma EthMempoolFee_keeps ctx sim l : keeps books (EthMempoolFee ctx sim l).
Proof.
  unfold EthMempoolFee. destruct (_ || _); [frame|]. apply keeps_bind; [frame|intros w].
  destruct (evm_GetBaseFee _ _ _); [frame|]. apply each_msg_keeps. intros m. frame.
Qed.

Lemma EthMinGasPrice_keeps ctx l : keeps books (EthMinGasPrice ctx l).
Proof.
  unfold EthMinGasPrice. apply keeps_bind; [frame|intros w].
  destruct (MinGasPrice _) as [p|]; [|frame]. destruct (p =? 0); [frame|].
  apply each_msg_keeps. intros m. frame.
Qed.

Lemma sum_fees_keeps b p l f g : keeps books (sum_fees (A := A) (B := B) b p l f g).
Proof. revert f g. induction l as [|[m|] l IH]; intros f g; simpl; frame. Qed.

#[local] Hint Resolve sum_fees_keeps : frames.

Lemma EthValidateBasic_keeps ctx tx l : keeps books (EthValidateBasic ctx tx l).
Proof. unfold EthValidateBasic. frame. Qed.

Lemma CheckSenderBalance_keeps {X} (f : World A B -> X) b t : keeps f (CheckSenderBalance b t).
Proof. unfold CheckSenderBalance. frame. Qed.

#[local] Hint Resolve CheckSenderBalance_keeps : frames.

Lemma EthAccountVerification_keeps ctx l : keeps books (EthAccountVerification ctx l).
Proof.
  unfold EthAccountVerification. destruct (negb _); [frame|].
  apply keeps_bind; [frame|intros _]. apply each_msg_keeps. intros m. unfold verify_account. frame.
Qed.

Lemma CanTransfer_keeps ctx l : keeps books (CanTransfer ctx l).
Proof.
  unfold CanTransfer. apply keeps_bind; [frame|intros w]. apply keeps_bind; [frame|intros _].
  apply each_msg_keeps. intros m. unfold can_transfer. frame.
Qed.

Lemma EthIncrementSenderSequence_keeps l : keeps books (EthIncrementSenderSequence l).
Proof.
  unfold EthIncrementSenderSequence. apply keeps_bind; [frame|intros _]. apply each_msg_keeps.
  intros m. unfold increment_sequence. frame.
Qed.

Lemma GasWanted_keeps ctx tx : keeps books (GasWanted ctx tx).
Proof. unfold GasWanted. frame. Qed.

Lemma over_msgs_keeps f : (forall l, keeps books (f l)) -> keeps ante_books (over_msgs f).
Proof. intros Hf. unfold over_msgs. apply keeps_bind; [frame|]. intros a. by apply in_world_keeps. Qed.

Lemma EthSetupContext_keeps : keeps ante_books EthSetupContext.
Proof.
  unfold EthSetupContext, set_meter. apply keeps_bind; [frame|intros _]. apply in_world_keeps. frame.
Qed.

(** ** Signatures *)

Lemma EthSigVerification_one ctx a m u a' :
  ante_msgs a = [EthMsg m] -> EthSigVerification ctx a = (Ret u, a') ->
  exists t from, m_Data m = Some t /\
    signer_Sender (evm_eth_config (world (ante_chain a))) (ctx_BlockHeight ctx)
      (ethtypes_NewTx (AsEthereumData t)) = Some from /\
    ante_chain a' = ante_chain a /\
    ante_msgs a' = [EthMsg (set_from (Address_Hex from) m)].
Proof.
  intros Hm. unfold EthSigVerification. rewrite bind_get, Hm. intros Hrun.
  apply bind_Ret in Hrun as (u1 & a1 & [_ ->]%guard_Ret & Hrun). simpl in Hrun.
  destruct (m_Data m) as [t|]; [|by minv].
  destruct (_ && _); [by minv|].
  destruct (signer_Sender _ _ _) as [from|] eqn:Hs; [|by minv].
  minv. exists t, from. done.
Qed.

(** ** Fees *)

Context {HBankLaws : FeeBankLaws B}.

Lemma VerifyFee_Ret t denom b h i chk w fees w' :
  VerifyFee t denom b h i chk w = (Ret fees, w') ->
  w' = w /\ exists fee, EffectiveFee t b = Some fee /\ fees = (if fee =? 0 then [] else [(denom, fee)]).
Proof.
  unfold VerifyFee. destruct (IntrinsicGas _ _ _ _ _) as [g|]; intros Hrun; [|by minv].
  apply bind_Ret in Hrun as (u & w1 & [_ ->]%guard_Ret & Hrun).
  apply bind_Ret in Hrun as (u1 & w2 & H2 & Hrun).
  assert (w2 = w) as -> by (destruct b, (GetGasFeeCap t); by minv).
  destruct (EffectiveFee t b) as [fee|]; [|by minv].
  destruct (fee =? 0) eqn:Hz.
  - minv. split; [done|]. exists fee. by rewrite Hz.
  - destruct (IsValidInt256 _); [|by minv]. minv. split; [done|]. exists fee. by rewrite Hz.
Qed.

Lemma Deduct_Ret fees from w u w' :
  DeductTxCostsFromUserBalance fees from w = (Ret u, w') ->
  exists b', bank_DeductFees (evm_bank (w_store w)) from fees = Some b' /\
    w' = w_with_store (evm_with_bank b' (w_store w)) w.
Proof.
  unfold DeductTxCostsFromUserBalance. rewrite bind_get.
  destruct (auth_GetAccount _ _); [|intros; by minv].
  destruct (bank_DeductFees _ _ _) as [b'|]; intros; minv. eauto.
Qed.

Lemma deduct_moved b from denom fee b' :
  bank_DeductFees b from (if fee =? 0 then [] else [(denom, fee)]) = Some b' ->
  moved b b' denom from fee_collector fee.
Proof.
  destruct (fee =? 0) eqn:Hz; [|apply deduct_law].
  rewrite deduct_nothing. intros [= <-]. apply Z.eqb_eq in Hz as ->. apply moved_nothing.
Qed.

(** The settings survive, and the fee goes from the sender to the collector. *)
Lemma consume_one ctx mgw denom b h i m t gw pr w r w' :
  m_Data m = Some t ->
  consume_gas ctx mgw denom b h i [EthMsg m] gw pr w = (Ret r, w') ->
  settings w' = settings w /\ exists fee, EffectiveFee t b = Some fee /\
    moved (evm_bank (w_store w)) (evm_bank (w_store w')) denom (HexToAddress (m_From m))
      fee_collector fee.
Proof.
  intros Hm Hrun. simpl in Hrun. unfold unpack in Hrun. rewrite Hm in Hrun.
  apply bind_Ret in Hrun as (t' & w0 & [<- <-]%ret_Ret & Hrun).
  apply bind_Ret in Hrun as (fees & w1 & (-> & fee & Hfee & ->)%VerifyFee_Ret & Hrun).
  apply bind_Ret in Hrun as (u & w2 & (b' & Hb & ->)%Deduct_Ret & Hrun).
  destruct (GetTxPriority _ _); minv. split; [done|]. exists fee. split; [done|].
  by apply deduct_moved.
Qed.

Lemma EthGasConsume_one ctx mgw a m t u a' :
  EthGasConsume ctx mgw a = (Ret u, a') ->
  ante_msgs a = [EthMsg m] -> m_Data m = Some t -> IsReCheckTx ctx = false ->
  let w := world (ante_chain a) in
  let w' := world (ante_chain a') in
  settings w' = settings w /\
  exists fee, EffectiveFee t (evm_GetBaseFee ctx (evm_eth_config w) w) = Some fee /\
    moved (evm_bank (w_store w)) (evm_bank (w_store w')) (EvmDenom (w_store w))
      (HexToAddress (m_From m)) fee_collector fee.
Proof.
  intros Hrun Hm Ht Hre w w'. unfold EthGasConsume in Hrun. rewrite Hre, bind_get in Hrun.
  apply bind_Ret in Hrun as (? & a1 & [_ ->]%guard_Ret & Hrun).
  apply bind_Ret in Hrun as ([gw pr] & a2 & Hc & Hrun).
  apply bind_Ret in Hrun as (? & a3 & [_ ->]%guard_Ret & Hrun). unfold set_meter in Hrun. minv.
  unfold in_world, on_world in Hc. rewrite Hm in Hc. fold w in Hc.
  destruct (consume_gas _ _ _ _ _ _ _ _ _ w) as [o w1] eqn:Hw. injection Hc as -> <-.
  destruct (consume_one _ _ _ _ _ _ _ _ _ _ _ _ _ Ht Hw) as [Hset (fee & Hfee & Hmv)].
  split; [exact Hset|]. exists fee. done.
Qed.

(** ** The whole handler on one message *)

(** Up to the signature check and from the gas to the end. *)
Lemma ante_before ctx sim tx a a4 u :
  (do! EthSetupContext ;; do! over_msgs (EthMempoolFee ctx sim) ;;
   do! over_msgs (EthMinGasPrice ctx) ;; over_msgs (EthValidateBasic ctx tx)) a = (Ret u, a4) ->
  ante_books a4 = ante_books a.
Proof.
  intros Hrun. refine (keeps_run _ _ _ _ _ _ Hrun).
  apply keeps_bind; [apply EthSetupContext_keeps|intros _].
  apply keeps_bind; [apply over_msgs_keeps, EthMempoolFee_keeps|intros _].
  apply keeps_bind; [apply over_msgs_keeps, EthMinGasPrice_keeps|intros _].
  apply over_msgs_keeps, EthValidateBasic_keeps.
Qed.

Lemma ante_between ctx a5 a7 u :
  (do! over_msgs (EthAccountVerification ctx) ;; over_msgs (CanTransfer ctx)) a5 = (Ret u, a7) ->
  ante_books a7 = ante_books a5.
Proof.
  intros Hrun. refine (keeps_run _ _ _ _ _ _ Hrun).
  apply keeps_bind; [apply over_msgs_keeps, EthAccountVerification_keeps|intros _].
  apply over_msgs_keeps, CanTransfer_keeps.
Qed.

Lemma ante_after ctx tx a8 a' u :
  (do! over_msgs EthIncrementSenderSequence ;; in_world (GasWanted ctx tx)) a8 = (Ret u, a') ->
  ante_books a' = ante_books a8.
Proof.
  intros Hrun. refine (keeps_run _ _ _ _ _ _ Hrun).
  apply keeps_bind; [apply over_msgs_keeps, EthIncrementSenderSequence_keeps|intros _].
  apply in_world_keeps, GasWanted_keeps.
Qed.

(** The handler in four parts. *)
Lemma newEVMAnteHandler_parts ctx sim mgw tx a u a' :
  newEVMAnteHandler ctx sim mgw tx a = (Ret u, a') ->
  exists a4 a5 a7 a8, ante_books a4 = ante_books a /\
    EthSigVerification ctx a4 = (Ret tt, a5) /\ ante_books a7 = ante_books a5 /\
    EthGasConsume ctx mgw a7 = (Ret tt, a8) /\ ante_books a' = ante_books a8.
Proof.
  unfold newEVMAnteHandler. intros Hrun.
  apply bind_Ret in Hrun as ([] & a1 & H1 & Hrun). apply bind_Ret in Hrun as ([] & a2 & H2 & Hrun).
  apply bind_Ret in Hrun as ([] & a3 & H3 & Hrun). apply bind_Ret in Hrun as ([] & a4 & H4 & Hrun).
  apply bind_Ret in Hrun as ([] & a5 & H5 & Hrun). apply bind_Ret in Hrun as ([] & a6 & H6 & Hrun).
  apply bind_Ret in Hrun as ([] & a7 & H7 & Hrun). apply bind_Ret in Hrun as ([] & a8 & H8 & Hrun).
  exists a4, a5, a7, a8. split_and!; try done.
  - apply (ante_before ctx sim tx a a4 tt). by rewrite !(bind_run _ _ _ _ _ H1),
      (bind_run _ _ _ _ _ H2), (bind_run _ _ _ _ _ H3).
  - apply (ante_between ctx a5 a7 tt). by rewrite (bind_run _ _ _ _ _ H6).
  - by apply (ante_after ctx tx a8 a' u).
Qed.

Lemma books_eq w w' :
  books w' = books w ->
  evm_bank (w_store w') = evm_bank (w_store w) /\ settings w' = settings w.
Proof. intros H. split; [exact (f_equal fst H)|exact (f_equal snd H)]. Qed.

Lemma ante_books_eq a a' :
  ante_books a' = ante_books a ->
  books (world (ante_chain a')) = books (world (ante_chain a)) /\ ante_msgs a' = ante_msgs a.
Proof. intros H. split; [exact (f_equal fst H)|exact (f_equal snd H)]. Qed.

Lemma settings_eq w w' ctx :
  settings w' = settings w ->
  EvmDenom (w_store w') = EvmDenom (w_store w) /\ evm_eth_config w' = evm_eth_config w /\
  (forall cfg, evm_GetBaseFee ctx cfg w' = evm_GetBaseFee ctx cfg w) /\
  GetMinGasMultiplier w' = GetMinGasMultiplier w.
Proof.
  unfold settings. intros [= Hd Hp Hb Hm]. split_and!; try done.
  - unfold evm_eth_config. by rewrite Hp.
  - intros cfg. unfold evm_GetBaseFee, getBaseFee. by rewrite Hb.
Qed.

Lemma ante_one ctx sim mgw tx a m u a' :
  newEVMAnteHandler ctx sim mgw tx a = (Ret u, a') ->
  ante_msgs a = [EthMsg m] -> IsReCheckTx ctx = false ->
  let w := world (ante_chain a) in
  exists t from fee, m_Data m = Some t /\
    signer_Sender (evm_eth_config w) (ctx_BlockHeight ctx) (ethtypes_NewTx (AsEthereumData t))
      = Some from /\
    EffectiveFee t (evm_GetBaseFee ctx (evm_eth_config w) w) = Some fee /\
    settings (world (ante_chain a')) = settings w /\
    moved (evm_bank (w_store w)) (evm_bank (w_store (world (ante_chain a')))) (EvmDenom (w_store w))
      (HexToAddress (Address_Hex from)) fee_collector fee.
Proof.
  intros (a4 & a5 & a7 & a8 & H4 & Hsig & H7 & Hgas & H8)%newEVMAnteHandler_parts Hm Hre w.
  apply ante_books_eq in H4 as [H4b H4m]. rewrite Hm in H4m.
  destruct (EthSigVerification_one _ _ _ _ _ H4m Hsig) as (t & from & Ht & Hfrom & Hch & Hmsgs).
  apply ante_books_eq in H7 as [H7b H7m]. rewrite Hch in H7b. rewrite Hmsgs in H7m.
  destruct (EthGasConsume_one _ _ _ _ t _ _ Hgas H7m Ht Hre) as (Hset & fee & Hfee & Hmv).
  apply ante_books_eq in H8 as [H8b _]. apply books_eq in H8b as [Hbank8 Hset8].
  destruct (books_eq w _ (eq_trans H7b H4b)) as [Hbank7 Hset7].
  destruct (settings_eq w _ ctx Hset7) as (Hd & Hcfg & Hbf & _).
  destruct (books_eq w _ H4b) as [_ Hset4]. destruct (settings_eq w _ ctx Hset4) as (_ & Hcfg4 & _).
  rewrite Hcfg4 in Hfrom. rewrite Hcfg, Hbf in Hfee. rewrite Hd, Hbank7, <- Hbank8 in Hmv.
  exists t, from, fee. split_and!; try done. congruence.
Qed.

(** ** Nonces *)

Context {HAuthLaws : AuthLaws A}.

(** The messages [a] sent. *)
Fixpoint sent_by (addr : Z) (l : list SdkMsg) : Z :=
  match l with
  | [] => 0
  | OtherMsg :: l' => sent_by addr l'
  | EthMsg m :: l' => (if bool_decide (msg_GetFrom m = Some addr) then 1 else 0) + sent_by addr l'
  end.

Lemma sent_by_bound addr l : 0 <= sent_by addr l <= Z.of_nat (length l).
Proof. induction l as [|[m|] l IH]; simpl; [done| |]; [case_bool_decide|]; lia. Qed.

Lemma increment_sequence_Ret m w u w' :
  increment_sequence m w = (Ret u, w') ->
  exists t from acc, m_Data m = Some t /\ msg_GetFrom m = Some from /\
    auth_GetAccount (evm_auth (w_store w)) from = Some acc /\ GetNonceOf t = GetSequence acc /\
    forall b, evm_GetNonce (w_store w') b =
      if decide (b = from) then u64 (GetSequence acc + 1) else evm_GetNonce (w_store w) b.
Proof.
  unfold increment_sequence, unpack. intros Hrun.
  destruct (m_Data m) as [t|]; [|by minv]. apply bind_Ret in Hrun as (? & w1 & [<- <-]%ret_Ret & Hrun).
  rewrite bind_get in Hrun. destruct (msg_GetFrom m) as [from|]; [|by minv].
  destruct (auth_GetAccount _ _) as [acc|] eqn:Hacc; [|by minv]. minv.
  exists t, from, acc. split_and!; try done; [lia|].
  intros b. unfold evm_GetNonce. simpl. rewrite auth_get_set.
  destruct (decide (from = b)) as [->|]; [by rewrite decide_True|by rewrite decide_False by congruence].
Qed.

(** Room for the nonces of [l]. *)
Definition nonces_fit w (l : list SdkMsg) : Prop :=
  forall b, 0 <= evm_GetNonce (w_store w) b /\
    evm_GetNonce (w_store w) b + Z.of_nat (length l) < two64.

Lemma increments_spec l w u w' :
  each_msg increment_sequence l w = (Ret u, w') -> nonces_fit w l ->
  forall b, evm_GetNonce (w_store w') b = evm_GetNonce (w_store w) b + sent_by b l.
Proof.
  revert w. induction l as [|[m|] l IH]; intros w Hrun Hfit b; simpl in Hrun; [minv; simpl; lia| |by minv].
  apply bind_Ret in Hrun as (? & w1 & Hm & Hrun).
  apply increment_sequence_Ret in Hm as (t & from & acc & Ht & Hfrom & Hacc & Hn & Hw1).
  assert (GetSequence acc = evm_GetNonce (w_store w) from) as Hseq
    by (unfold evm_GetNonce; by rewrite Hacc).
  assert (u64 (GetSequence acc + 1) = GetSequence acc + 1) as Hu.
  { destruct (Hfit from). apply u64_id. unfold is_u64. rewrite Hseq. simpl length in *. lia. }
  rewrite Hu in Hw1. rewrite (IH w1 Hrun); [rewrite Hw1|].
  - simpl. rewrite Hfrom. case_decide as Hb; [subst b|].
    + rewrite bool_decide_true by done. lia.
    + rewrite bool_decide_false by congruence. lia.
  - intros c. destruct (Hfit c). rewrite Hw1. simpl length in *. case_decide; [subst c|]; lia.
Qed.

(** The same messages again: the first nonce is used up. *)
Lemma increments_again l w u w' :
  l <> [] -> each_msg increment_sequence l w = (Ret u, w') -> nonces_fit w l ->
  each_msg increment_sequence l w' = (Err ErrInvalidSequence, w').
Proof.
  intros Hne Hrun Hfit. pose proof (increments_spec l w u w' Hrun Hfit) as Hspec.
  destruct l as [|[m|] l]; [done| |simpl in Hrun; by minv]. simpl in Hrun.
  apply bind_Ret in Hrun as (? & w1 & Hm & Hrun).
  apply increment_sequence_Ret in Hm as (t & from & acc & Ht & Hfrom & Hacc & Hn & Hw1).
  specialize (Hspec from). simpl in Hspec. rewrite Hfrom, bool_decide_true in Hspec by done.
  pose proof (sent_by_bound from l). simpl. unfold bind at 1, increment_sequence, unpack. rewrite Ht.
  unfold bind at 1, ret. rewrite bind_get, Hfrom.
  unfold evm_GetNonce in Hspec. rewrite Hacc in Hspec.
  destruct (auth_GetAccount (evm_auth (w_store w')) from) as [acc'|] eqn:Hacc'.
  - unfold guard, bind. destruct (GetNonceOf t =? GetSequence acc') eqn:Heq; [lia|done].
  - destruct (Hfit from) as [H0 _]. unfold evm_GetNonce in H0. rewrite Hacc in H0. lia.
Qed.
End AnteFacts.
