(* ===== verification/EvmTxTheorems.v ===== *)
(** * x/evm: theorems on Ethereum transactions

    What a transaction costs and leaves behind, from its admission by the ante
    handler to the refund; nonces and gas limits; the gas search; the round
    trip of transactions; with a concrete interpreter, keepers and chain for
    the witnesses. *)

From Stdlib Require Import Ascii.
From S2P Require Import Prelude Bytes StateDB EvmKeeper StateDBTheorems FeeMarket EvmTx EvmGas.
From S2P Require Import EvmAnte EvmTxFacts EvmGasFacts EvmAnteFacts.

(** ** x/evm: a concrete go-ethereum and a chain to run on

    Hexadecimal text, transactions that are their data, an interpreter that
    transfers value, a bank with a fee collector, hooks that refuse one value,
    and the states of the runs in the theorems. *)

(** ** Hexadecimal text *)

Definition hex_digit (d : Z) : ascii := ascii_of_N (Z.to_N (if d <? 10 then 48 + d else 87 + d)).
Definition digit_of (c : ascii) : Z :=
  let n := Z.of_N (N_of_ascii c) in if n <? 58 then n - 48 else n - 87.

(** [n] digits of [x], the last ones first in the recursion. *)
Fixpoint hex_of (n : nat) (x : Z) : string :=
  match n with
  | O => EmptyString
  | S n' => String (hex_digit (x / 16 ^ Z.of_nat n' mod 16)) (hex_of n' x)
  end.

Fixpoint hex_val (acc : Z) (s : string) : Z :=
  match s with EmptyString => acc | String c s' => hex_val (acc * 16 + digit_of c) s' end.

Lemma digit_hex d : 0 <= d < 16 -> digit_of (hex_digit d) = d.
Proof.
  intros Hd. assert (d ∈ seqZ 0 16) as Hin by (apply elem_of_seqZ; lia).
  assert (Forall (fun d => digit_of (hex_digit d) = d) (seqZ 0 16)) as Hall
    by (apply Forall_forall; intros x Hx; vm_compute in Hx; repeat (apply elem_of_cons in Hx as [->|Hx]; [reflexivity|]); by apply not_elem_of_nil in Hx).
  by apply (proj1 (Forall_forall _ _) Hall).
Qed.

Lemma hex_roundtrip n x acc :
  0 <= x -> hex_val acc (hex_of n x) = acc * 16 ^ Z.of_nat n + x mod 16 ^ Z.of_nat n.
Proof.
  intros Hx. revert acc. induction n as [|n IH]; intros acc.
  - simpl. rewrite Z.mod_1_r. lia.
  - cbn [hex_of hex_val]. rewrite IH, digit_hex by (apply Z.mod_pos_bound; lia).
    rewrite Nat2Z.inj_succ, Z.pow_succ_r by lia.
    rewrite (Z.mul_comm 16 (16 ^ Z.of_nat n)), Z.rem_mul_r by lia. lia.
Qed.

#[export] Instance test_hexing : Hexing := {|
  Address_Hex := hex_of 40;
  HexToAddress := hex_val 0;
  Hash_Hex := hex_of 64;
  HexToHash := hex_val 0;
  IsHexAddress := fun s => bool_decide (String.length s = 40%nat);
|}.

#[export] Instance test_hex_laws : HexLaws.
Proof.
  split.
  - intros a Ha. change (hex_val 0 (hex_of 40 a) = a).
    rewrite hex_roundtrip by (destruct Ha; lia). rewrite Z.mod_small; [lia|exact Ha].
  - done.
  - intros h Hh. change (hex_val 0 (hex_of 64 h) = h).
    rewrite hex_roundtrip by (destruct Hh; lia). rewrite Z.mod_small; [lia|exact Hh].
Qed.

(** ** Transactions *)

Definition eth_fields (d : EthTxData) :=
  match d with
  | EthLegacyTx n p g to x b v r s => (0, n, g, to, x, b, p, p, p, [], None, (v, r, s))
  | EthAccessListTx c n p g to x b al v r s => (1, n, g, to, x, b, p, p, p, al, c, (v, r, s))
  | EthDynamicFeeTx c n p f g to x b al v r s => (2, n, g, to, x, b, f, f, p, al, c, (v, r, s))
  end.

#[export] Instance test_transactions : EthTransactions := {|
  Transaction := EthTxData;
  ethtypes_NewTx := eth_copy;
  tx_Type := fun d => let '(ty, _, _, _, _, _, _, _, _, _, _, _) := eth_fields d in ty;
  tx_Nonce := fun d => let '(_, n, _, _, _, _, _, _, _, _, _, _) := eth_fields d in n;
  tx_Gas := fun d => let '(_, _, g, _, _, _, _, _, _, _, _, _) := eth_fields d in g;
  tx_Data := fun d => let '(_, _, _, _, _, b, _, _, _, _, _, _) := eth_fields d in b;
  tx_To := fun d => let '(_, _, _, to, _, _, _, _, _, _, _, _) := eth_fields d in to;
  tx_Value := fun d => let '(_, _, _, _, x, _, _, _, _, _, _, _) := eth_fields d in x;
  tx_GasPrice := fun d => let '(_, _, _, _, _, _, p, _, _, _, _, _) := eth_fields d in p;
  tx_GasFeeCap := fun d => let '(_, _, _, _, _, _, _, p, _, _, _, _) := eth_fields d in p;
  tx_GasTipCap := fun d => let '(_, _, _, _, _, _, _, _, p, _, _, _) := eth_fields d in p;
  tx_AccessList := fun d => let '(_, _, _, _, _, _, _, _, _, al, _, _) := eth_fields d in al;
  tx_ChainId := fun d => let '(_, _, _, _, _, _, _, _, _, _, c, _) := eth_fields d in c;
  tx_RawSignatureValues := fun d => let '(_, _, _, _, _, _, _, _, _, _, _, vrs) := eth_fields d in vrs;
  tx_Hash := fun d => eth_gas d;
|}.

#[export] Instance test_transaction_laws : EthTransactionLaws.
Proof. split; [by intros []| | |]; intros; split_and!; done. Qed.

(** ** The chain rules and the interpreter *)

Definition forked (cfg : EthChainConfig) (f : fork) (h : Z) : bool :=
  match eth_block cfg f with None => false | Some b => b <=? h end.

#[export] Instance test_rules : ChainRules := {|
  IsHomestead := fun cfg => forked cfg Homestead;
  IsIstanbul := fun cfg => forked cfg Istanbul;
  IsBerlin := fun cfg => forked cfg Berlin;
  cfg_IsLondon := fun cfg => forked cfg London;
  CheckConfigForkOrder := fun _ => true;
  ValidEip := fun _ => true;
  ValidateDenom := fun d => negb (bool_decide (d = EmptyString));
  TrimSpace := fun s => s;
|}.

Abbreviation TestStore := (EvmStore AuthMap Balances).

(** A call burns 1,000 gas and transfers; data that starts with 0 reverts. *)
Definition test_call (from to : Z) (data : list Z) (gas value : Z) :
    SM TestStore (list Z * Z * option string) :=
  if gas <? 1000 then ret ([], 0, Some "out of gas"%string)
  else match data with
       | 0 :: _ => ret (data, gas - 1000, Some "execution reverted"%string)
       | _ => do! SubBalance from value ;; do! AddBalance to value ;; ret ([], gas - 1000, None)
       end.

Definition test_message (d : EthTxData) (baseFee : option Z) : option Message :=
  let '(_, n, g, to, x, b, _, _, _, al, _, (_, r, _)) := eth_fields d in
  let '(tip, cap) := eth_caps d in
  Some (mkMessage (default 0 r mod 2 ^ 160) to n g
          (match baseFee with Some f => Z.min (tip + f) cap | None => cap end)
          cap tip (default 0 x) b al).

#[export] Instance test_vm : EthVM TestStore := {|
  IntrinsicGas := fun data _ create _ _ =>
    Some (21000 + 16 * Z.of_nat (length data) + (if create : bool then 32000 else 0));
  tx_AsMessage := fun _ _ d baseFee => test_message d baseFee;
  signer_Sender := fun _ _ d =>
    let '(_, _, _, _, _, _, _, _, _, _, _, (_, r, _)) := eth_fields d in
    Some (default 0 r mod 2 ^ 160);
  tx_Protected := fun _ => true;
  vm_ActivePrecompiles := [];
  vm_Create := fun _ from data gas value => test_call from 77 data gas value;
  vm_Call := fun _ from to data gas value => test_call from to data gas value;
  core_CanTransfer := fun a x => let! b := GetBalance a in ret (x <=? b);
  CreateAddress := fun a n => a + n;
  LogsBloom := fun l => Z.of_nat (length l);
|}.

#[local] Hint Resolve getStateObject_refund append_refund update_object_refund
  setStateObject_refund : frames.

Lemma test_call_gas from to data gas value s d l e s' :
  test_call from to data gas value s = (Ret (d, l, e), s') ->
  0 <= gas -> 0 <= refund s -> 0 <= l <= gas /\ 0 <= refund s'.
Proof.
  intros Hrun Hgas Hs.
  assert (keeps refund (test_call from to data gas value)) as Hk.
  { unfold test_call, SubBalance, AddBalance, getOrNewStateObject, createObject, obj_SubBalance,
      obj_AddBalance, obj_SetBalance, live.
    frame. }
  rewrite (keeps_run _ _ _ _ _ Hk Hrun). split; [|done]. unfold test_call in Hrun.
  destruct (gas <? 1000) eqn:Hg; [minv; lia|]. destruct data as [|[] ?]; minv; lia.
Qed.

#[export] Instance test_vm_laws : EthVMLaws TestStore.
Proof.
  split; simpl; intros.
  - by eapply test_call_gas.
  - by eapply test_call_gas.
  - simplify_eq. destruct create; lia.
Qed.

#[export] Instance test_message_laws : EthMessageLaws TestStore.
Proof.
  split; simpl.
  - intros cfg h d b msg. destruct d; intros [= <-]; split_and!; done.
  - intros cfg h d from. destruct (eth_fields d) as [? [[? r] ?]]. repeat case_match; intros [= <-];
      apply Z.mod_pos_bound; done.
Qed.

(** ** Fees and hooks *)

#[export] Instance test_fee_bank : FeeBank Balances := {|
  fee_collector := 901;
  bank_DeductFees := fun b a fees =>
    match fees with
    | [] => Some b
    | (d, x) :: _ => match pay b a d (- x) with Some b1 => pay b1 901 d x | None => None end
    end;
  bank_FromCollector := fun b a d x =>
    match pay b 901 d (- x) with Some b1 => pay b1 a d x | None => None end;
|}.

#[export] Instance test_fee_laws : FeeBankLaws Balances.
Proof.
  split; simpl; intros b a; [done| |]; intros d x b'.
  - destruct (pay b a d (- x)) as [b1|] eqn:H1; [|done]. intros H2.
    apply (credited_trans b b1 b' d (at_addr a (- x)) (at_addr 901 x)); by apply pay_credited.
  - destruct (pay b 901 d (- x)) as [b1|] eqn:H1; [|done]. intros H2.
    apply (credited_trans b b1 b' d (at_addr 901 (- x)) (at_addr a x)); by apply pay_credited.
Qed.

(** A hook that refuses transfers of 13. *)
#[export] Instance test_setup : EvmSetup AuthMap Balances := {|
  hooks := Some [fun msg => guard (msg_Value msg =? 13) "unlucky"%string];
  eip155ChainID := Some 9000;
|}.

(** ** States *)

Definition denom0 : string := "amoca".

(** Account 1 with sequence 4 and 10^9 coins; account 2 exists. *)
Definition tx_world : World AuthMap Balances :=
  mkWorld
    (mkEvm (mkAuthMap {[ 1 := mkAuth 4 (Some emptyCodeHash) 0; 2 := mkAuth 0 (Some emptyCodeHash) 1 ]} 2)
       {[ (1, denom0) := 1000000000; (901, denom0) := 1000000 ]} ∅ ∅ denom0)
    (mkEvmParams true true [] DefaultChainConfig false)
    (mkTransient ∅ None None None)
    (mkFeeState (Some (mkFeeParams false 8 2 (Some 7) 0 (Some 0) (Some (5 * 10 ^ 17)))) None None None).

Definition tx_ctx : EvmCtx :=
  mkEvmCtx 10 1000 (Some 55) None (fun _ => None) (Some 99) (Some (30000000, 0)) (Some 30000000)
    (fun _ => 0) false false.

(** A dynamic fee transaction of account 1: nonce 4, tip 2, cap 20. *)
Definition tx_of (gas value : Z) (data : list Z) : TxData :=
  TxDynamicFee (mkDynamicFeeTx (Some 9000) 4 (Some 2) (Some 20) gas (hex_of 40 2) (Some value) data []
    [1] [1] [1]).

Definition msg_of (t : TxData) : MsgEthereumTx :=
  mkMsgEth (Some t) EmptyString (Hash_Hex (tx_Hash (ethtypes_NewTx (AsEthereumData t)))) 0.

Definition proto_of (t : TxData) : ProtoTx :=
  mkProtoTx true EmptyString 0 0 1 0 EmptyString EmptyString 0 (coins denom0 (default 0 (Fee t)))
    (GetGas t).

Definition ante0 (l : list SdkMsg) (w : World AuthMap Balances) : AnteState AuthMap Balances :=
  mkAnte (mkChain w (mkMeter 0 0)) l 0.

(** A transfer of 5, admitted and applied. *)
Definition transfer_tx : TxData := tx_of 30000 5 [].
Definition transfer_start : AnteState AuthMap Balances := ante0 [EthMsg (msg_of transfer_tx)] tx_world.
Definition transfer_admitted : AnteState AuthMap Balances :=
  (newEVMAnteHandler tx_ctx false 0 (proto_of transfer_tx) transfer_start).2.
Definition transfer_done : Chain AuthMap Balances :=
  (EthereumTx tx_ctx transfer_tx (ante_chain transfer_admitted)).2.
Definition transfer_response : Response := mkResponse 22000 EmptyString [] [] 30000.

Lemma transfer_admits :
  newEVMAnteHandler tx_ctx false 0 (proto_of transfer_tx) transfer_start = (Ret tt, transfer_admitted).
Proof. unfold transfer_admitted. apply run_outcome. vm_compute. reflexivity. Qed.

Lemma transfer_applies :
  EthereumTx tx_ctx transfer_tx (ante_chain transfer_admitted) = (Ret transfer_response, transfer_done).
Proof. unfold transfer_done. apply run_outcome. vm_compute. reflexivity. Qed.

(** A transfer of 13, which the hook refuses. *)
Definition refused_tx : TxData := tx_of 30000 13 [].
Definition refused_done : Chain AuthMap Balances :=
  (ApplyTransaction tx_ctx (ethtypes_NewTx (AsEthereumData refused_tx)) (mkChain tx_world (mkMeter 0 0))).2.
Definition refused_response : Response := mkResponse 22000 ErrPostTxProcessing [] [] 30000.

Lemma refused_applies :
  ApplyTransaction tx_ctx (ethtypes_NewTx (AsEthereumData refused_tx)) (mkChain tx_world (mkMeter 0 0))
    = (Ret refused_response, refused_done).
Proof. unfold refused_done. apply run_outcome. vm_compute. reflexivity. Qed.

(** A message of 100,000 gas that uses 22,000. *)
Definition call_message : Message := mkMessage 1 (Some 2) 4 100000 9 20 2 5 [] [].
Definition call_config : EVMConfig_t :=
  mkEVMConfig (w_params tx_world) denom0 (evm_eth_config tx_world) 99 (Some 7).
Definition call_done : World AuthMap Balances :=
  (ApplyMessageWithConfig tx_ctx call_message true call_config (mkTxConfig 55 1 0 0) tx_world).2.
Definition call_response : Response := mkResponse 50000 EmptyString [] [] 1.

Lemma call_applies :
  ApplyMessageWithConfig tx_ctx call_message true call_config (mkTxConfig 55 1 0 0) tx_world
    = (Ret call_response, call_done).
Proof. unfold call_done. apply run_outcome. vm_compute. reflexivity. Qed.

(** Two messages of account 1 with consecutive nonces. *)
Definition nonce_msg (n : Z) : SdkMsg :=
  EthMsg (mkMsgEth (Some (TxLegacy (mkLegacyTx n (Some 0) 21000 (hex_of 40 2) None [] [] [] [])))
            (hex_of 40 1) EmptyString 0).
Definition nonce_done : World AuthMap Balances :=
  (EthIncrementSenderSequence [nonce_msg 4; nonce_msg 5] tx_world).2.

Lemma nonces_admitted :
  EthIncrementSenderSequence [nonce_msg 4; nonce_msg 5] tx_world = (Ret tt, nonce_done).
Proof. unfold nonce_done. apply run_outcome. vm_compute. reflexivity. Qed.

(** Without a base fee: three free transactions of account 1 whose gas limits
    sum to 2^64 + 63,000. *)
Definition free_world : World AuthMap Balances :=
  w_with_fees (mkFeeState (Some (mkFeeParams true 8 2 (Some 0) 0 (Some 0) (Some (5 * 10 ^ 17))))
    None None None) tx_world.

Definition free_tx (n gas : Z) : TxData :=
  TxLegacy (mkLegacyTx n (Some 0) gas (hex_of 40 2) (Some 0) [] (big_bytes 18035) [1] [1]).

Definition huge_gas : Z := 2 ^ 63 - 1.
Definition huge_msgs : list MsgEthereumTx :=
  [msg_of (free_tx 4 huge_gas); msg_of (free_tx 5 huge_gas); msg_of (free_tx 6 63002)].

Definition huge_proto : ProtoTx :=
  mkProtoTx true EmptyString 0 0 1 0 EmptyString EmptyString 0 [] 63000.

Definition huge_admitted : AnteState AuthMap Balances :=
  (newEVMAnteHandler tx_ctx false 0 huge_proto (ante0 (EthMsg <$> huge_msgs) free_world)).2.

Lemma huge_admits :
  newEVMAnteHandler tx_ctx false 0 huge_proto (ante0 (EthMsg <$> huge_msgs) free_world)
    = (Ret tt, huge_admitted).
Proof. unfold huge_admitted. apply run_outcome. vm_compute. reflexivity. Qed.

Section Theorems.
Context {A B : Type} {HAuth : AuthKeeper A} {HBank : EvmBank B} {HFee : FeeBank B} {HHash : Hashing}.
Context {HHex : Hexing} {HEth : EthTransactions} {HRules : ChainRules}.
Context {HVM : EthVM (EvmStore A B)} {HSetup : EvmSetup A B}.

(** ** Prices *)

(** The fee deducted is the price of the message times its gas. *)
Lemma effective_fee_price t baseFee fee :
  EffectiveFee t baseFee = Some fee -> match baseFee with Some b => 0 <= b | None => True end ->
  let d := AsEthereumData t in
  eth_gas d = GetGas t /\
  fee = (match baseFee with
         | Some b => Z.min ((eth_caps d).1 + b) (eth_caps d).2
         | None => (eth_caps d).2
         end) * GetGas t.
Proof.
  destruct t as [tx|tx|tx]; simpl; unfold Fee, EvmTx.fee; open_getters.
  - destruct (ltx_GasPrice tx) as [p|]; intros [= <-]. destruct baseFee; intros; simpl; rewrite ?Z.min_r by lia; done.
  - destruct (atx_GasPrice tx) as [p|]; intros [= <-]. destruct baseFee; intros; simpl; rewrite ?Z.min_r by lia; done.
  - destruct (dtx_GasFeeCap tx), (dtx_GasTipCap tx), baseFee; intros [= <-]; done.
Qed.

Lemma execute_gas ctx tx cfg tc c msg res receipt c1 `{!EthVMLaws (EvmStore A B)} :
  execute_transaction ctx tx cfg tc c = (Ret (msg, res, receipt), c1) ->
  0 <= msg_Gas msg < two63 -> multiplier_ok (world c) ->
  gas_bounds ctx msg cfg (GetMinGasMultiplier (world c)) (res_GasUsed res).
Proof.
  intros (Hmsg & res0 & tmp & c0 & Hap & -> & Hpost)%execute_transaction_Ret Hg Hm.
  rewrite (post_process_gas _ _ _ _ _ _ _ _ Hpost). by eapply message_gas.
Qed.

(** [moved] back and forth leaves the difference. *)
Lemma moved_net (b0 b1 b2 b3 : B) denom from to x y :
  moved b0 b1 denom from to x -> moved b2 b3 denom to from y ->
  forall a d,
    (bank_GetBalance b1 a d - bank_GetBalance b0 a d) + (bank_GetBalance b3 a d - bank_GetBalance b2 a d) =
    if decide (d = denom) then at_addr from (- (x - y)) a + at_addr to (x - y) a else 0.
Proof.
  intros H1 H2 a d. rewrite (H1 a d), (H2 a d). unfold at_addr. repeat case_decide; lia.
Qed.


(** ** Failed transactions *)


(** ** Gas of a message *)

(** A message that is applied is charged at most its gas limit, at least
    the share of the limit set by the fee market's [MinGasMultiplier], and at
    least its intrinsic gas less the refund the quotient allows. *)
Lemma message_gas_bounds ctx msg commit cfg tc w res w' `{!EthVMLaws (EvmStore A B)} :
  ApplyMessageWithConfig ctx msg commit cfg tc w = (Ret res, w') ->
  0 <= msg_Gas msg < two63 -> 0 <= GetMinGasMultiplier w <= dec_one ->
  0 <= res_GasUsed res <= msg_Gas msg /\
  msg_Gas msg * GetMinGasMultiplier w / dec_one <= res_GasUsed res /\
  exists g,
    GetEthIntrinsicGas ctx msg (cfg_ChainConfig cfg) (bool_decide (msg_To msg = None)) = Some g /\
    g <= msg_Gas msg /\
    g - g / (if cfg_IsLondon (cfg_ChainConfig cfg) (ctx_BlockHeight ctx) then 5 else 2)
      <= res_GasUsed res.
Proof.
  intros Hrun Hg Hm. destruct (message_gas _ _ _ _ _ _ _ _ Hrun Hg Hm) as [H1 H2 H3]. done.
Qed.

(** ** Nonces *)

(** The sequences advance for every message, also when it creates a contract. *)
Lemma sequences_advance msgs (w w' : World A B) `{!AuthLaws A} :
  EthIncrementSenderSequence msgs w = (Ret tt, w') ->
  (forall a, 0 <= evm_GetNonce (w_store w) a /\
     evm_GetNonce (w_store w) a + Z.of_nat (length msgs) < two64) ->
  (forall a, evm_GetNonce (w_store w') a = evm_GetNonce (w_store w) a + sent_by a msgs) /\
  EthIncrementSenderSequence msgs w' = (Err ErrInvalidSequence, w').
Proof.
  unfold EthIncrementSenderSequence. intros (u & w1 & [Hne ->]%guard_Ret & Hrun)%bind_Ret Hfit.
  apply bool_decide_eq_false in Hne. split; [by eapply increments_spec|].
  rewrite bool_decide_false by done. unfold guard.
  rewrite (bind_run _ _ w' tt w') by done. by eapply increments_again.
Qed.

(** A message with a recipient: not the creation of a contract *)
Definition is_call (msg : SdkMsg) : Prop :=
  match msg with
  | EthMsg m => forall t, m_Data m = Some t -> GetTo t <> None
  | OtherMsg => True
  end.

(** C36: admitting messages that create no contract advances the sequence of
    every account by the number of messages it sent, and the same messages are
    refused the next time, so a transaction is not replayed.  The sequences do
    not pass 2^64. *)
Theorem nonces_used_once msgs (w w' : World A B) `{!AuthLaws A} :
  EthIncrementSenderSequence msgs w = (Ret tt, w') -> Forall is_call msgs ->
  (forall a, 0 <= evm_GetNonce (w_store w) a /\
     evm_GetNonce (w_store w) a + Z.of_nat (length msgs) < two64) ->
  (forall a, evm_GetNonce (w_store w') a = evm_GetNonce (w_store w) a + sent_by a msgs) /\
  EthIncrementSenderSequence msgs w' = (Err ErrInvalidSequence, w').
Proof. intros Hrun _. by apply sequences_advance. Qed.
End Theorems.

(** ** The gas limit of a block *)

Fixpoint gas_of {HHex : Hexing} (l : list SdkMsg) : Z :=
  match l with
  | [] => 0
  | EthMsg m :: l' => msg_GetGas m + gas_of l'
  | OtherMsg :: l' => gas_of l'
  end.

Lemma u64_idem z : u64 z = u64 (u64 z).
Proof. unfold u64. by rewrite Z.mod_mod. Qed.

Lemma consume_gas_sum {A B} `{AuthKeeper A} `{EvmBank B} `{FeeBank B} `{Hashing} `{Hexing}
    `{EthTransactions} `{!EthVM (EvmStore A B)} ctx mgw denom b h i l gw pr (w : World A B) r pr' w' :
  IsCheckTx ctx = false -> gw = u64 gw ->
  consume_gas ctx mgw denom b h i l gw pr w = (Ret (r, pr'), w') -> r = u64 (gw + gas_of l).
Proof.
  intros Hck. revert gw pr w. induction l as [|[m|] l IH]; intros gw pr w Hgw Hrun; simpl in Hrun.
  - minv. by rewrite Z.add_0_r.
  - unfold unpack in Hrun. simpl gas_of. unfold msg_GetGas.
    destruct (m_Data m) as [t|]; [|by minv].
    apply bind_Ret in Hrun as (? & w1 & [<- <-]%ret_Ret & Hrun). rewrite Hck in Hrun. simpl in Hrun.
    apply bind_Ret in Hrun as (? & w2 & _ & Hrun). apply bind_Ret in Hrun as (? & w3 & _ & Hrun).
    destruct (GetTxPriority _ _); [|by minv]. rewrite (IH _ _ _ (u64_idem _) Hrun).
    unfold u64. rewrite Z.add_mod_idemp_l by done. f_equal. lia.
  - by minv.
Qed.

Lemma EthGasConsume_limit {A B} `{AuthKeeper A} `{EvmBank B} `{FeeBank B} `{Hashing} `{Hexing}
    `{EthTransactions} `{ChainRules} `{!EthVM (EvmStore A B)} `{!EvmSetup A B} ctx mgw
    (a a' : AnteState A B) :
  EthGasConsume ctx mgw a = (Ret tt, a') -> IsCheckTx ctx = false -> IsReCheckTx ctx = false ->
  u64 (gas_of (ante_msgs a)) <= BlockGasLimit ctx /\
  meter (ante_chain a') = NewInfiniteGasMeterWithLimit (u64 (gas_of (ante_msgs a))).
Proof.
  unfold EthGasConsume. intros Hrun Hck Hre. rewrite Hre, bind_get in Hrun.
  apply bind_Ret in Hrun as (? & a1 & [_ ->]%guard_Ret & Hrun).
  apply bind_Ret in Hrun as ([gw pr] & a2 & Hc & Hrun).
  apply bind_Ret in Hrun as (? & a3 & [Hlim ->]%guard_Ret & Hrun). unfold set_meter in Hrun. minv.
  unfold in_world, on_world in Hc. destruct (consume_gas _ _ _ _ _ _ _ _ _ _) as [o w1] eqn:Hw.
  injection Hc as -> _. apply consume_gas_sum in Hw; [|done|done]. rewrite Z.add_0_l in Hw. subst gw.
  split; [lia|done].
Qed.

(** C38: in a block the gas wanted of an admitted transaction is within the
    block gas limit only modulo 2^64.  Three valid messages, the first with
    2^63 - 1 gas under a limit of 30 million, are admitted by the whole
    handler with a gas meter of 63,000. *)
Theorem gas_wanted_wraps :
  (forall {A B} `{AuthKeeper A} `{EvmBank B} `{FeeBank B} `{Hashing} `{Hexing} `{EthTransactions}
     `{ChainRules} `{!EthVM (EvmStore A B)} `{!EvmSetup A B} ctx mgw (a a' : AnteState A B),
     EthGasConsume ctx mgw a = (Ret tt, a') -> IsCheckTx ctx = false -> IsReCheckTx ctx = false ->
     u64 (gas_of (ante_msgs a)) <= BlockGasLimit ctx /\
     meter (ante_chain a') = NewInfiniteGasMeterWithLimit (u64 (gas_of (ante_msgs a)))) /\
  newEVMAnteHandler tx_ctx false 0 huge_proto (ante0 (EthMsg <$> huge_msgs) free_world)
    = (Ret tt, huge_admitted) /\
  forallb msg_ValidateBasic huge_msgs = true /\
  BlockGasLimit tx_ctx = 30000000 /\ msg_GetGas <$> head huge_msgs = Some (2 ^ 63 - 1) /\
  meter_limit (meter (ante_chain huge_admitted)) = 63000.
Proof.
  split; [intros; by eapply EthGasConsume_limit|].
  split; [exact huge_admits|]. split_and!; vm_compute; reflexivity.
Qed.

(** ** Searching a gas limit *)

(** When more gas never makes an execution fail, the search of
    [eth_estimateGas] ends within its 64 steps and returns the least gas limit
    above [lo] that executes, or [hi] when none below it does. *)
Lemma BinSearch_least (failed : Z -> bool) lo hi :
  (forall g g', g' <= g -> failed g = true -> failed g' = true) ->
  0 <= lo < hi -> hi <= two63 ->
  exists r, BinSearch (E := unit) lo hi (fun g => inr (failed g)) = Ret r /\ lo < r <= hi /\
    (r = hi \/ failed r = false) /\ (forall g, lo < g < r -> failed g = true).
Proof.
  intros Hmono Hlo Hhi. apply BinSearch_loop_spec; [done|done|done|].
  unfold two63 in *. change (2 ^ Z.of_nat 64) with (2 ^ 64). lia.
Qed.

Lemma BinSearch_least_witness :
  exists r, BinSearch (E := unit) 20999 30000000 (fun g => inr (g <? 53123)) = Ret r /\
    (r = 30000000 \/ (r <? 53123) = false) /\ (forall g, 20999 < g < r -> (g <? 53123) = true).
Proof.
  destruct (BinSearch_least (fun g => g <? 53123) 20999 30000000) as (r & H1 & H2 & H3 & H4).
  - intros g g' Hle Hg. lia.
  - lia.
  - done.
  - exists r. split; [exact H1|]. split; [exact H3|exact H4].
Defined.

(** ** Round trip *)

(** An Ethereum transaction of any of the three types, with 256-bit
    amounts, converts to a protobuf transaction that gives the same Ethereum
    transaction back, its hash included. *)
Lemma eth_transaction_roundtrip `{Hexing} `{EthTransactions} `{!HexLaws} `{!EthTransactionLaws} d :
  eth_wf d ->
  exists t, NewTxDataFromTx (ethtypes_NewTx d) = Ret t /\
    ethtypes_NewTx (AsEthereumData t) = ethtypes_NewTx d.
Proof. apply eth_roundtrip. Qed.

Definition sample_eth_tx : EthTxData :=
  EthDynamicFeeTx (Some 9000) 4 (Some 2) (Some 20) 30000 (Some 77) (Some 5) [1; 2]
    [(77, [3; 4])] (Some 0) (Some 1234567) (Some 89).

Lemma eth_transaction_roundtrip_witness :
  exists t, NewTxDataFromTx (ethtypes_NewTx sample_eth_tx) = Ret t /\
    ethtypes_NewTx (AsEthereumData t) = ethtypes_NewTx sample_eth_tx.
Proof.
  apply eth_transaction_roundtrip. unfold eth_wf, sample_eth_tx, optional, u256, is_address.
  split_and!; try lia. repeat constructor; simpl; lia.
Defined.



Lemma message_gas_bounds_witness : 0 <= 50000 <= 100000.
Proof.
  destruct (message_gas_bounds tx_ctx call_message true call_config (mkTxConfig 55 1 0 0) tx_world
    call_response call_done) as (H & _).
  - exact call_applies.
  - split; [discriminate|reflexivity].
  - vm_compute. split; discriminate.
  - exact H.
Defined.

Lemma nonces_used_once_witness :
  evm_GetNonce (w_store nonce_done) 1 = 6 /\
  EthIncrementSenderSequence [nonce_msg 4; nonce_msg 5] nonce_done = (Err ErrInvalidSequence, nonce_done).
Proof.
  destruct (nonces_used_once [nonce_msg 4; nonce_msg 5] tx_world nonce_done) as [H1 H2].
  - exact nonces_admitted.
  - apply Forall_cons; split; [|apply Forall_cons; split; [|apply Forall_nil; exact I]];
      intros t [= <-]; vm_compute; discriminate.
  - intros a. unfold evm_GetNonce. cbn [auth_GetAccount auth_map_keeper tx_world w_store evm_auth auth_map].
    destruct (decide (a = 1)) as [->|H1]; [split; [discriminate|reflexivity]|].
    destruct (decide (a = 2)) as [->|H2]; [split; [discriminate|reflexivity]|].
    rewrite lookup_insert_ne, lookup_singleton_ne by done. split; [discriminate|reflexivity].
  - split; [|exact H2]. rewrite H1. vm_compute. reflexivity.
Defined.
