(* ===== verification/Grn.v ===== *)
(** * types: Moca resource names

    [types/grn.go], the name checks of [types/s3util/util.go] and the
    resource types of [types/resource].  A Go string is a string of bytes.
    The regular expressions of these files are anchored and of a fixed shape,
    and are written here as the splits and character tests they stand for.
    Parsing and printing an account address is the SDK's
    ([AccAddressFromHexUnsafe], [AccAddress.String]): a parameter,
    [AddressText], with [AddressTextLaws] what the code relies on. *)

From S2P Require Import Prelude.
From Stdlib Require Import Ascii.

(** ** Go's strings package *)

Definition byte_of (c : ascii) : Z := Z.of_N (N_of_ascii c).
Definition bytes_of (s : string) : list Z := map byte_of (String.list_ascii_of_string s).

(** [strings.ContainsRune] for an ASCII character *)
Fixpoint has (c : ascii) (s : string) : bool :=
  match s with
  | EmptyString => false
  | String d s' => Ascii.eqb d c || has c s'
  end.

(** [strings.Contains] *)
Fixpoint contains (sub s : string) : bool :=
  String.prefix sub s || match s with EmptyString => false | String _ s' => contains sub s' end.

(** [strings.Split] by one ASCII character *)
Fixpoint split (sep : ascii) (s : string) : list string :=
  match s with
  | EmptyString => [EmptyString]
  | String c s' =>
      if Ascii.eqb c sep then EmptyString :: split sep s'
      else match split sep s' with
           | [] => [String c EmptyString]
           | w :: ws => String c w :: ws
           end
  end.

(** [strings.Join] *)
Definition join (sep : string) (l : list string) : string := String.concat sep l.

Fixpoint string_drop (n : nat) (s : string) : string :=
  match n, s with
  | S n', String _ s' => string_drop n' s'
  | _, _ => s
  end.

(** [strings.CutPrefix] *)
Definition CutPrefix (s pre : string) : option string :=
  if String.prefix pre s then Some (string_drop (String.length pre) s) else None.

(** [strings.TrimSuffix] of one ASCII character *)
Fixpoint TrimSuffix1 (c : ascii) (s : string) : string :=
  match s with
  | EmptyString => EmptyString
  | String d EmptyString => if Ascii.eqb d c then EmptyString else s
  | String d s' => String d (TrimSuffix1 c s')
  end.

(** White space of [unicode.IsSpace], by the length of its UTF-8 encoding *)
Definition space1 (a : Z) : bool := ((9 <=? a) && (a <=? 13)) || (a =? 32).
Definition space2 (a b : Z) : bool := (a =? 194) && ((b =? 133) || (b =? 160)).
Definition space3 (a b c : Z) : bool :=
  ((a =? 225) && (b =? 154) && (c =? 128)) ||
  ((a =? 226) && (b =? 128) &&
     (((128 <=? c) && (c <=? 138)) || (c =? 168) || (c =? 169) || (c =? 175))) ||
  ((a =? 226) && (b =? 129) && (c =? 159)) ||
  ((a =? 227) && (b =? 128) && (c =? 128)).

(** Drops white space from the front of a list of bytes; the tests get the
    bytes in the order of the list. *)
Fixpoint drop_space (sp2 : Z -> Z -> bool) (sp3 : Z -> Z -> Z -> bool) (l : list Z) : list Z :=
  match l with
  | [] => []
  | a :: t =>
      if space1 a then drop_space sp2 sp3 t
      else match t with
           | [] => l
           | b :: u =>
               if sp2 a b then drop_space sp2 sp3 u
               else match u with
                    | [] => l
                    | c :: v => if sp3 a b c then drop_space sp2 sp3 v else l
                    end
           end
  end.

(** [strings.TrimSpace] *)
Definition TrimSpace (l : list Z) : list Z :=
  reverse (drop_space (fun a b => space2 b a) (fun a b c => space3 c b a)
             (reverse (drop_space space2 space3 l))).

Definition in_range (lo hi b : Z) : bool := (lo <=? b) && (b <=? hi).

(** [utf8.ValidString] *)
Fixpoint ValidString (l : list Z) : bool :=
  match l with
  | [] => true
  | a :: t =>
      if a <? 128 then ValidString t
      else match t with
           | [] => false
           | b :: u =>
               if in_range 194 223 a then in_range 128 191 b && ValidString u
               else match u with
                    | [] => false
                    | c :: v =>
                        if in_range 224 239 a then
                          in_range (if a =? 224 then 160 else 128)
                                   (if a =? 237 then 159 else 191) b &&
                          in_range 128 191 c && ValidString v
                        else match v with
                             | [] => false
                             | d :: w =>
                                 in_range 240 244 a &&
                                 in_range (if a =? 240 then 144 else 128)
                                          (if a =? 244 then 143 else 191) b &&
                                 in_range 128 191 c && in_range 128 191 d && ValidString w
                             end
                    end
           end
  end.

(** ** Names ([s3util]) *)

Definition lower_or_digit (b : Z) : bool := in_range 97 122 b || in_range 48 57 b.

(** The regular expression [^(\d+\.){3}\d+$] *)
Definition ipAddress (s : string) : bool :=
  match split "." s with
  | [a; b; c; d] =>
      forallb (fun p => match bytes_of p with [] => false | l => forallb (in_range 48 57) l end)
              [a; b; c; d]
  | _ => false
  end.

Definition bucket_char (b : Z) : bool := lower_or_digit b || (b =? 46) || (b =? 45).

(** The regular expression [^[a-z0-9][a-z0-9\.\-]{1,61}[a-z0-9]$] *)
Definition validBucketName (s : string) : bool :=
  let l := bytes_of s in
  in_range 3 63 (Z.of_nat (length l)) &&
  match head l, last l with
  | Some a, Some z => lower_or_digit a && lower_or_digit z
  | _, _ => false
  end &&
  forallb bucket_char l.

(** The checks are [true] when the Go function returns a nil error. *)
Definition CheckValidBucketName (bucketName : string) : bool :=
  let l := bytes_of bucketName in
  if (Z.of_nat (length l) =? 0) || bool_decide (TrimSpace l = []) then false
  else if Z.of_nat (length l) <? 3 then false
  else if 63 <? Z.of_nat (length l) then false
  else if ipAddress bucketName then false
  else if contains ".." bucketName || contains ".-" bucketName || contains "-." bucketName
       then false
  else validBucketName bucketName.

Definition split_bytes (sep : Z) (l : list Z) : list (list Z) :=
  foldr (fun b acc => if b =? sep then [] :: acc
                      else match acc with [] => [[b]] | w :: ws => (b :: w) :: ws end) [[]] l.

Definition hasBadPathComponent (path : list Z) : bool :=
  existsb (fun p => let t := TrimSpace p in
                    bool_decide (t = [46; 46]) || bool_decide (t = [46]))
          (split_bytes 47 (TrimSpace path)).

Definition CheckValidObjectName (objectName : string) : bool :=
  let l := bytes_of objectName in
  if (Z.of_nat (length l) =? 0) || bool_decide (TrimSpace l = []) then false
  else if 1024 <? Z.of_nat (length l) then false
  else if hasBadPathComponent l then false
  else if negb (ValidString l) then false
  else negb (contains "//" objectName).

Definition CheckValidGroupName (groupName : string) : bool :=
  let l := bytes_of groupName in
  if (Z.of_nat (length l) =? 0) || bool_decide (TrimSpace l = []) then false
  else if Z.of_nat (length l) <? 3 then false
  else if 63 <? Z.of_nat (length l) then false
  else ValidString l.

(** ** Resource names *)

Inductive ResourceType : Type :=
| RESOURCE_TYPE_UNSPECIFIED
| RESOURCE_TYPE_BUCKET
| RESOURCE_TYPE_OBJECT
| RESOURCE_TYPE_GROUP.

#[global] Instance ResourceType_eq_dec : EqDecision ResourceType.
Proof. solve_decision. Defined.

Definition ResourceType_value (t : ResourceType) : nat :=
  match t with
  | RESOURCE_TYPE_UNSPECIFIED => 0
  | RESOURCE_TYPE_BUCKET => 1
  | RESOURCE_TYPE_OBJECT => 2
  | RESOURCE_TYPE_GROUP => 3
  end.

Definition ResourceType_of (n : nat) : option ResourceType :=
  [RESOURCE_TYPE_UNSPECIFIED; RESOURCE_TYPE_BUCKET; RESOURCE_TYPE_OBJECT;
   RESOURCE_TYPE_GROUP] !! n.

#[global] Instance ResourceType_countable : Countable ResourceType.
Proof. by refine (inj_countable ResourceType_value ResourceType_of _); intros []. Defined.

(** The SDK's text form of account addresses *)
Class AddressText : Type := {
  AccAddressFromHexUnsafe : string -> option Z;
  acc_String : Z -> string;
}.

(** A printed address parses back and has no colon: it is hexadecimal. *)
Class AddressTextLaws `{AddressText} : Prop := {
  address_parses : forall a, 0 <= a < 256 ^ 20 -> AccAddressFromHexUnsafe (acc_String a) = Some a;
  address_no_colon : forall a, has ":" (acc_String a) = false;
}.

Record GRN : Type := mkGRN {
  resType : ResourceType;
  groupOwner : Z;
  name : string;
}.

Inductive grn_error : Type :=
| ErrInvalidGRN
| ErrGRNTypeMismatch.

Section Grn.
Context `{AddressText}.

Definition NewBucketGRN (bucketName : string) : GRN := mkGRN RESOURCE_TYPE_BUCKET 0 bucketName.

Definition NewObjectGRN (bucketName objectName : string) : GRN :=
  mkGRN RESOURCE_TYPE_OBJECT 0 (join "/" [bucketName; objectName]).

Definition NewGroupGRN (owner : Z) (groupName : string) : GRN :=
  mkGRN RESOURCE_TYPE_GROUP owner groupName.

Definition GRN_String (r : GRN) : string :=
  match resType r with
  | RESOURCE_TYPE_BUCKET => TrimSuffix1 ":" (join ":" ["grn"; "b"; EmptyString; name r]%string)
  | RESOURCE_TYPE_OBJECT => TrimSuffix1 ":" (join ":" ["grn"; "o"; EmptyString; name r]%string)
  | RESOURCE_TYPE_GROUP =>
      TrimSuffix1 ":" (join ":" ["grn"; "g"; acc_String (groupOwner r); name r]%string)
  | RESOURCE_TYPE_UNSPECIFIED => EmptyString
  end.

Definition parseBucketAndObjectName (nm : string) : grn_error + string * string :=
  match split "/" nm with
  | bucketName :: _ :: _ =>
      match CutPrefix nm (bucketName ++ "/") with
      | None => inl ErrInvalidGRN
      | Some objectName =>
          if negb (CheckValidBucketName bucketName) then inl ErrInvalidGRN
          else if negb (CheckValidObjectName objectName) then inl ErrInvalidGRN
          else inr (bucketName, objectName)
      end
  | _ => inl ErrInvalidGRN
  end.

Definition GetBucketName (r : GRN) : grn_error + string :=
  match resType r with
  | RESOURCE_TYPE_BUCKET => inr (name r)
  | RESOURCE_TYPE_OBJECT =>
      match parseBucketAndObjectName (name r) with
      | inl e => inl e
      | inr (bucketName, _) => inr bucketName
      end
  | _ => inl ErrGRNTypeMismatch
  end.

Definition GetBucketAndObjectName (r : GRN) : grn_error + string * string :=
  match resType r with
  | RESOURCE_TYPE_OBJECT => parseBucketAndObjectName (name r)
  | _ => inl ErrGRNTypeMismatch
  end.

Definition GetGroupOwnerAndAccount (r : GRN) : grn_error + Z * string :=
  match resType r with
  | RESOURCE_TYPE_GROUP => inr (groupOwner r, name r)
  | _ => inl ErrGRNTypeMismatch
  end.

(** [validGRNRegex], [validGRNRegexNoWild]: the three submatches, the type
    letter, the account and the name, of a text of four parts separated by
    colons; the name has no star without wildcards. *)
Definition validGRNRegex (wildcards : bool) (res : string) : option (string * string * string) :=
  match split ":" res with
  | [g; abbr; acc; nm] =>
      if bool_decide (g = "grn"%string) &&
         bool_decide (abbr ∈ ["b"; "o"; "g"]%string) && (wildcards || negb (has "*" nm))
      then Some (abbr, acc, nm) else None
  | _ => None
  end.

Definition ParseFromString (res : string) (wildcards : bool) : grn_error + GRN :=
  match validGRNRegex wildcards res with
  | None => inl ErrInvalidGRN
  | Some (abbr, acc, nm) =>
      if bool_decide (abbr = "b"%string) then
        if negb (bool_decide (acc = EmptyString)) then inl ErrInvalidGRN
        else if has "/" nm then inl ErrInvalidGRN
        else if negb wildcards && negb (CheckValidBucketName nm) then inl ErrInvalidGRN
        else inr (mkGRN RESOURCE_TYPE_BUCKET 0 nm)
      else if bool_decide (abbr = "o"%string) then
        if negb (bool_decide (acc = EmptyString)) then inl ErrInvalidGRN
        else match parseBucketAndObjectName nm with
             | inl _ => inl ErrInvalidGRN
             | inr _ => inr (mkGRN RESOURCE_TYPE_OBJECT 0 nm)
             end
      else
        match AccAddressFromHexUnsafe acc with
        | None => inl ErrInvalidGRN
        | Some owner =>
            if negb wildcards && negb (CheckValidGroupName nm) then inl ErrInvalidGRN
            else inr (mkGRN RESOURCE_TYPE_GROUP owner nm)
        end
  end.
End Grn.

(** ** Facts *)

Lemma has_app c s1 s2 : has c (s1 ++ s2) = has c s1 || has c s2.
Proof. induction s1 as [|d s1 IH]; simpl; [done|]. by rewrite IH, orb_assoc. Qed.

Lemma append_assoc (s1 s2 s3 : string) : (s1 +:+ s2) +:+ s3 = s1 +:+ (s2 +:+ s3).
Proof.
  induction s1 as [|c s1 IH]; [done|].
  change (String c ((s1 +:+ s2) +:+ s3) = String c (s1 +:+ (s2 +:+ s3))). by rewrite IH.
Qed.

Lemma split_ne sep s : split sep s <> [].
Proof. destruct s; simpl; [done|]. case_match; [done|]. by case_match. Qed.

Lemma split_none sep s : has sep s = false -> split sep s = [s].
Proof.
  induction s as [|c s IH]; simpl; [done|]. intros [-> Hs]%orb_false_iff. by rewrite IH.
Qed.

(** The first part of a split is the text before the first separator. *)
Lemma split_cons sep s1 s2 :
  has sep s1 = false -> split sep (s1 ++ String sep s2) = s1 :: split sep s2.
Proof.
  induction s1 as [|c s1 IH]; simpl; [by rewrite Ascii.eqb_refl|].
  intros [-> Hs]%orb_false_iff. by rewrite IH.
Qed.

Lemma split_length sep s : has sep s = true -> (2 <= length (split sep s))%nat.
Proof.
  induction s as [|c s IH]; simpl; [done|]. pose proof (split_ne sep s).
  destruct (Ascii.eqb c sep); simpl.
  - intros _. destruct (split sep s); simpl; [done|lia].
  - intros Hs%IH. by destruct (split sep s).
Qed.

Lemma split_parts sep s : Forall (fun p => has sep p = false) (split sep s).
Proof.
  induction s as [|c s IH]; cbn [split]; [by repeat constructor|].
  destruct (Ascii.eqb c sep) eqn:E; [by constructor|].
  destruct (split sep s) as [|p ps]; inversion IH; subst; constructor; cbn; by rewrite ?E.
Qed.

Lemma prefix_app s1 s2 : String.prefix s1 (s1 ++ s2) = true.
Proof.
  induction s1 as [|c s1 IH]; simpl; [by destruct s2|].
  by destruct (ascii_dec c c).
Qed.

Lemma string_drop_app s1 s2 : string_drop (String.length s1) (s1 ++ s2) = s2.
Proof. induction s1; simpl; [by destruct s2|done]. Qed.

Lemma CutPrefix_app s1 s2 : CutPrefix (s1 ++ s2) s1 = Some s2.
Proof. unfold CutPrefix. by rewrite prefix_app, string_drop_app. Qed.

Lemma TrimSuffix1_cons c d e s :
  TrimSuffix1 c (String d (String e s)) = String d (TrimSuffix1 c (String e s)).
Proof. done. Qed.

Lemma TrimSuffix1_id c s1 d s2 :
  has c (String d s2) = false -> TrimSuffix1 c (s1 ++ String d s2) = (s1 ++ String d s2)%string.
Proof.
  intros Hs. assert (TrimSuffix1 c (String d s2) = String d s2) as Hid.
  { revert d Hs. induction s2 as [|e s2 IH]; intros d; cbn [has].
    - intros [Hd _]%orb_false_iff. simpl. by rewrite Hd.
    - intros [_ He]%orb_false_iff. by rewrite TrimSuffix1_cons, IH. }
  induction s1 as [|e s1 IH]; [done|].
  change (String e s1 ++ String d s2)%string with (String e (s1 ++ String d s2)).
  rewrite <- IH at 2. by destruct s1.
Qed.

Lemma has_bytes c s : has c s = existsb (Z.eqb (byte_of c)) (bytes_of s).
Proof.
  induction s as [|d s IH]; [done|]. cbn [has]. rewrite IH.
  unfold bytes_of. cbn. f_equal.
  destruct (Ascii.eqb_spec d c) as [->|Hne]; [by rewrite Z.eqb_refl|].
  symmetry. apply Z.eqb_neq. intros Heq. apply Hne.
  unfold byte_of in Heq. apply N2Z.inj in Heq.
  by rewrite <- (ascii_N_embedding d), <- (ascii_N_embedding c), Heq.
Qed.

(** A valid bucket name has only lower case letters, digits, dots and
    hyphens, so none of the characters a resource name gives a meaning. *)
Lemma bucket_name_plain s c :
  CheckValidBucketName s = true ->
  bucket_char (byte_of c) = false -> has c s = false.
Proof.
  unfold CheckValidBucketName. intros Hs Hc. repeat case_match; try done.
  unfold validBucketName in Hs. apply andb_true_iff in Hs as [_ Hall].
  rewrite has_bytes. apply not_true_iff_false. intros (b & Hb & <-%Z.eqb_eq)%existsb_exists.
  rewrite forallb_forall in Hall. by rewrite Hall in Hc.
Qed.

Lemma valid_name_nonempty s :
  CheckValidBucketName s = true \/ CheckValidObjectName s = true \/
  CheckValidGroupName s = true -> exists c s', s = String c s'.
Proof. destruct s as [|c s]; [|eauto]. by intros [|[|]]. Qed.

Section GrnFacts.
Context `{AddressTextLaws}.

Lemma parse_object_name b o :
  CheckValidBucketName b = true -> CheckValidObjectName o = true ->
  parseBucketAndObjectName (join "/" [b; o]) = inr (b, o).
Proof.
  intros Hb Ho. unfold parseBucketAndObjectName.
  change (join "/" [b; o]) with (b +:+ String "/" o).
  rewrite split_cons by by apply bucket_name_plain.
  destruct (split "/" o) eqn:E; [by apply split_ne in E|].
  replace (b +:+ String "/" o) with ((b +:+ "/") +:+ o) by (by rewrite append_assoc).
  by rewrite CutPrefix_app, Hb, Ho.
Qed.

(** What the regular expression makes of a printed name. *)
Lemma validGRNRegex_print w abbr acc nm :
  abbr ∈ ["b"; "o"; "g"]%string -> has ":" acc = false ->
  (exists c nm', nm = String c nm') ->
  validGRNRegex w (join ":" ["grn"; abbr; acc; nm])%string =
  if negb (has ":" nm) && (w || negb (has "*" nm)) then Some (abbr, acc, nm) else None.
Proof.
  intros Habbr Hacc Hnm. unfold validGRNRegex.
  change (join ":" ["grn"; abbr; acc; nm])%string
    with ("grn" +:+ String ":" (abbr +:+ String ":" (acc +:+ String ":" nm))).
  rewrite (split_cons ":" "grn") by done.
  rewrite (split_cons ":" abbr) by (set_unfold in Habbr; naive_solver).
  rewrite split_cons by done.
  destruct (has ":" nm) eqn:E.
  - apply split_length in E. destruct (split ":" nm) as [|? [|? ?]]; simpl in E; done || lia.
  - rewrite split_none by done. rewrite !bool_decide_true by done. done.
Qed.

(** No parsed name has a colon, or a star without wildcards. *)
Lemma parsed_name s w r :
  ParseFromString s w = inr r ->
  has ":" (name r) = false /\ (w = true \/ has "*" (name r) = false).
Proof.
  unfold ParseFromString, validGRNRegex. pose proof (split_parts ":" s) as Hp.
  destruct (split ":" s) as [|? [|? [|? [|nm [|]]]]]; try done.
  rewrite !Forall_cons in Hp. destruct Hp as (_ & _ & _ & Hnm & _).
  destruct (_ && _ && _) eqn:E; [|done]. apply andb_true_iff in E as [_ E].
  apply orb_true_iff in E. rewrite negb_true_iff in E.
  intros Hr. assert (name r = nm) as ->; [|tauto].
  repeat case_match; by simplify_eq.
Qed.

Lemma TrimSuffix1_print abbr acc nm :
  has ":" nm = false -> (exists c nm', nm = String c nm') ->
  TrimSuffix1 ":" (join ":" ["grn"; abbr; acc; nm])%string =
  join ":" ["grn"; abbr; acc; nm]%string.
Proof.
  intros Hnm (c & nm' & ->).
  change (join ":" ["grn"; abbr; acc; String c nm'])%string
    with (("grn:" +:+ (abbr +:+ (":" +:+ (acc +:+ (":" +:+ String c nm')))))).
  rewrite <- !append_assoc. by apply TrimSuffix1_id.
Qed.

Lemma validGRNRegex_plain w abbr acc nm :
  abbr ∈ ["b"; "o"; "g"]%string -> has ":" acc = false ->
  (exists c nm', nm = String c nm') ->
  has ":" nm = false /\ (w = true \/ has "*" nm = false) ->
  validGRNRegex w (TrimSuffix1 ":" (join ":" ["grn"; abbr; acc; nm])%string) =
  Some (abbr, acc, nm).
Proof.
  intros Ha Hacc Hnm [Hc Hs]. rewrite TrimSuffix1_print, validGRNRegex_print, Hc by done.
  by destruct Hs as [-> | ->]; rewrite ?orb_true_r.
Qed.
End GrnFacts.

(** ** Round trip *)

(** C39: resource names round trip.  The name of a valid bucket, and of a
    valid group name of an account with no colon (and no star when wildcards
    are off), parses back to the resource it was printed from.  The name of a
    valid object parses back exactly when the object's name has no colon and,
    with wildcards off, no star; its bucket and object parts are recovered. *)
Theorem GRN_roundtrip `{AddressTextLaws} (w : bool) :
  (forall b, CheckValidBucketName b = true ->
     ParseFromString (GRN_String (NewBucketGRN b)) w = inr (NewBucketGRN b)) /\
  (forall b o, CheckValidBucketName b = true -> CheckValidObjectName o = true ->
     GetBucketAndObjectName (NewObjectGRN b o) = inr (b, o) /\
     (ParseFromString (GRN_String (NewObjectGRN b o)) w = inr (NewObjectGRN b o) <->
      has ":" o = false /\ (w = true \/ has "*" o = false))) /\
  (forall a g, 0 <= a < 256 ^ 20 -> CheckValidGroupName g = true ->
     (ParseFromString (GRN_String (NewGroupGRN a g)) w = inr (NewGroupGRN a g) <->
      has ":" g = false /\ (w = true \/ has "*" g = false))).
Proof.
  split_and!.
  - intros b Hb. unfold GRN_String, ParseFromString. cbn [resType NewBucketGRN name].
    assert (forall c, bucket_char (byte_of c) = false -> has c b = false) as Hplain
      by (intros; by apply bucket_name_plain).
    rewrite validGRNRegex_plain by (eauto using valid_name_nonempty || set_solver).
    rewrite (Hplain "/"%char), Hb by done. by destruct w.
  - intros b o Hb Ho. pose proof (parse_object_name b o Hb Ho) as Hparse. split; [done|].
    assert (forall c, bucket_char (byte_of c) = false -> byte_of c <> 47 ->
      has c (join "/" [b; o]) = has c o) as Hplain.
    { intros c Hc Hs. change (join "/" [b; o]) with (b +:+ String "/" o).
      rewrite has_app, bucket_name_plain by done. cbn [has orb].
      destruct (Ascii.eqb_spec "/" c); [by subst|done]. }
    rewrite <- (Hplain ":"%char), <- (Hplain "*"%char) by done. split; [apply parsed_name|].
    intros Hname. unfold GRN_String, ParseFromString. cbn [resType NewObjectGRN name].
    rewrite validGRNRegex_plain; [by rewrite Hparse|set_solver|done| |done].
    change (join "/" [b; o]) with (b +:+ String "/" o). destruct b; eauto.
  - intros a g Ha Hg. split; [apply parsed_name|]. intros Hname.
    unfold GRN_String, ParseFromString. cbn [resType NewGroupGRN name groupOwner].
    rewrite validGRNRegex_plain by (eauto using valid_name_nonempty, address_no_colon || set_solver).
    rewrite address_parses, Hg by done. by destruct w.
Qed.
