(* ===== verification/Permission.v ===== *)
(** * x/permission: policies and group members

    [types/types.go], [types/common.go], [types/params.go],
    [types/keys.go], [keeper/keeper.go], [keeper/params.go],
    [keeper/msg_server.go], [abci.go] and [genesis.go].  A time is a number
    of nanoseconds, a nil time [None].  The store is one finite map per key
    prefix, with the ids the keys are built from as keys: [PermissionTheorems]
    shows that the byte keys keep them apart and in which order iterators
    visit them.  Protobuf encodes a nil and an empty list alike, so a nil
    list is the empty list.  Events and logs are not part of the state.
    Compiling a regular expression, parsing and printing an address and a
    decimal number are parameters. *)

From S2P Require Import Prelude Bytes Grn.

(** ** Data *)

(** The enumerations are open in protobuf: any other number is kept. *)
Inductive Effect : Type :=
| EFFECT_UNSPECIFIED
| EFFECT_ALLOW
| EFFECT_DENY
| EFFECT_other (n : Z).

Inductive ActionType : Type :=
| ACTION_UNSPECIFIED
| ACTION_UPDATE_BUCKET_INFO
| ACTION_DELETE_BUCKET
| ACTION_CREATE_OBJECT
| ACTION_DELETE_OBJECT
| ACTION_COPY_OBJECT
| ACTION_GET_OBJECT
| ACTION_EXECUTE_OBJECT
| ACTION_LIST_OBJECT
| ACTION_UPDATE_GROUP_MEMBER
| ACTION_DELETE_GROUP
| ACTION_UPDATE_OBJECT_INFO
| ACTION_UPDATE_GROUP_EXTRA
| ACTION_UPDATE_GROUP_INFO
| ACTION_UPDATE_OBJECT_CONTENT
| ACTION_TYPE_ALL
| ACTION_other (n : Z).

Inductive PrincipalType : Type :=
| PRINCIPAL_TYPE_UNSPECIFIED
| PRINCIPAL_TYPE_GNFD_ACCOUNT
| PRINCIPAL_TYPE_GNFD_GROUP
| PRINCIPAL_TYPE_other (n : Z).

#[global] Instance Effect_eq_dec : EqDecision Effect.
Proof. solve_decision. Defined.
#[global] Instance ActionType_eq_dec : EqDecision ActionType.
Proof. solve_decision. Defined.
#[global] Instance PrincipalType_eq_dec : EqDecision PrincipalType.
Proof. solve_decision. Defined.

Record Principal : Type := mkPrincipal {
  Type_ : PrincipalType;
  Value : string;
}.

Record Statement : Type := mkStatement {
  s_Effect : Effect;
  s_Actions : list ActionType;
  s_Resources : list string;
  s_ExpirationTime : option Z;
  s_LimitSize : option Z;
}.

Record Policy : Type := mkPolicy {
  p_Id : Z;
  p_Principal : Principal;
  p_ResourceType : ResourceType;
  p_ResourceId : Z;
  p_Statements : list Statement;
  p_ExpirationTime : option Z;
}.

#[global] Instance Principal_eq_dec : EqDecision Principal.
Proof. solve_decision. Defined.
#[global] Instance Statement_eq_dec : EqDecision Statement.
Proof. solve_decision. Defined.
#[global] Instance Policy_eq_dec : EqDecision Policy.
Proof. solve_decision. Defined.

Record PolicyGroup_Item : Type := mkItem {
  PolicyId : Z;
  GroupId : Z;
}.

Record GroupMember : Type := mkMember {
  m_Id : Z;
  m_GroupId : Z;
  m_Member : string;
  m_ExpirationTime : option Z;
}.

Record VerifyOptions : Type := mkOptions {
  o_Resource : string;
  o_WantedSize : option Z;
}.

(** ** Libraries *)

(** [regexp.Compile]: [None] for an error; otherwise [MatchString]. *)
Class Regexps : Type := {
  regexp_Compile : string -> option (string -> bool);
}.

(** [math.ParseUint] and [math.Uint.String] *)
Class UintText : Type := {
  ParseUint : string -> option Z;
  uint_String : Z -> string;
}.

(** [time.Time.Before] *)
Definition Before (t u : Z) : bool := t <? u.
Definition expired (t : option Z) (now : Z) : bool :=
  match t with None => false | Some e => Before e now end.

(** ** Evaluation *)

Section Eval.
Context `{Regexps}.

(** The loop over [s.Resources]: [None] is the panic of [MustCompile]. *)
Fixpoint match_resources (resources : list string) (res : string) : option bool :=
  match resources with
  | [] => Some false
  | r :: rs =>
      match regexp_Compile r with
      | None => None
      | Some matches => if matches res then Some true else match_resources rs res
      end
  end.

Definition with_limit (s : Statement) (limit : Z) : Statement :=
  mkStatement (s_Effect s) (s_Actions s) (s_Resources s) (s_ExpirationTime s) (Some limit).

Definition opts_resource (opts : option VerifyOptions) : string :=
  match opts with None => EmptyString | Some o => o_Resource o end.
Definition opts_size (opts : option VerifyOptions) : option Z :=
  match opts with None => None | Some o => o_WantedSize o end.

(** The loop over [s.Actions] and the effect of the first action that
    matches, with the statement it leaves when a size was deducted. *)
Definition eval_actions (s : Statement) (action : ActionType) (opts : option VerifyOptions) :
    Effect * option Statement :=
  if existsb (fun act => bool_decide (act = action) || bool_decide (act = ACTION_TYPE_ALL))
       (s_Actions s)
  then if bool_decide (s_Effect s = EFFECT_DENY) then (EFFECT_DENY, None)
       else match bool_decide (action = ACTION_CREATE_OBJECT), s_LimitSize s, opts_size opts with
            | true, Some limit, Some wanted =>
                if wanted <=? limit then (EFFECT_ALLOW, Some (with_limit s (u64 (limit - wanted))))
                else (EFFECT_DENY, None)
            | _, _, _ => (s_Effect s, None)
            end
  else (EFFECT_UNSPECIFIED, None).

(** [Statement.Eval]; [None] is a panic. *)
Definition Statement_Eval (s : Statement) (action : ActionType) (opts : option VerifyOptions) :
    option (Effect * option Statement) :=
  let res := opts_resource opts in
  if bool_decide (res = EmptyString) then Some (eval_actions s action opts)
  else match s_Resources s with
       | [] => Some (EFFECT_UNSPECIFIED, None)
       | resources =>
           match match_resources resources res with
           | None => None
           | Some false => Some (EFFECT_UNSPECIFIED, None)
           | Some true => Some (eval_actions s action opts)
           end
       end.

(** The loop over [p.Statements]: [done] are the statements already passed,
    as they are now.  The result is the effect and, when a statement was
    changed and the policy allows, the statements of the changed policy. *)
Fixpoint eval_statements (todo done : list Statement) (allowed updated : bool)
    (action : ActionType) (blockTime : Z) (opts : option VerifyOptions) :
    option (Effect * option (list Statement)) :=
  match todo with
  | [] => Some (if allowed then (EFFECT_ALLOW, if updated then Some done else None)
                else (EFFECT_UNSPECIFIED, None))
  | s :: rest =>
      if expired (s_ExpirationTime s) blockTime
      then eval_statements rest (done ++ [s]) allowed updated action blockTime opts
      else match Statement_Eval s action opts with
           | None => None
           | Some (e, us) =>
               if bool_decide (e = EFFECT_DENY) then Some (EFFECT_DENY, None)
               else eval_statements rest (done ++ [default s us])
                      (allowed || bool_decide (e = EFFECT_ALLOW))
                      (updated || bool_decide (is_Some us)) action blockTime opts
           end
  end.

Definition with_statements (p : Policy) (l : list Statement) : Policy :=
  mkPolicy (p_Id p) (p_Principal p) (p_ResourceType p) (p_ResourceId p) l (p_ExpirationTime p).

(** [Policy.Eval] *)
Definition Policy_Eval (p : Policy) (action : ActionType) (blockTime : Z)
    (opts : option VerifyOptions) : option (Effect * option Policy) :=
  if expired (p_ExpirationTime p) blockTime then Some (EFFECT_UNSPECIFIED, None)
  else match eval_statements (p_Statements p) [] false false action blockTime opts with
       | None => None
       | Some (e, l) => Some (e, with_statements p <$> l)
       end.
End Eval.

(** ** Validation *)

Definition BucketAllowedActionsAfterPampas : list ActionType :=
  [ACTION_UPDATE_BUCKET_INFO; ACTION_DELETE_BUCKET; ACTION_CREATE_OBJECT; ACTION_DELETE_OBJECT;
   ACTION_GET_OBJECT; ACTION_COPY_OBJECT; ACTION_EXECUTE_OBJECT; ACTION_LIST_OBJECT;
   ACTION_UPDATE_OBJECT_INFO; ACTION_UPDATE_OBJECT_CONTENT; ACTION_TYPE_ALL].

Definition ObjectAllowedActions : list ActionType :=
  [ACTION_UPDATE_OBJECT_INFO; ACTION_CREATE_OBJECT; ACTION_DELETE_OBJECT; ACTION_GET_OBJECT;
   ACTION_COPY_OBJECT; ACTION_EXECUTE_OBJECT; ACTION_LIST_OBJECT; ACTION_UPDATE_OBJECT_CONTENT;
   ACTION_TYPE_ALL].

Definition GroupAllowedActions : list ActionType :=
  [ACTION_UPDATE_GROUP_MEMBER; ACTION_UPDATE_GROUP_EXTRA; ACTION_DELETE_GROUP;
   ACTION_UPDATE_GROUP_INFO; ACTION_TYPE_ALL].

Definition is_nil {A} (l : list A) : bool := match l with [] => true | _ => false end.
Definition allowed_in (l : list ActionType) (a : ActionType) : bool := bool_decide (a ∈ l).

Section Validate.
Context `{AddressText, Regexps}.

(** [true] when the Go function returns a nil error. *)
Definition Statement_ValidateBasic (s : Statement) (resType : ResourceType) : bool :=
  if bool_decide (s_Effect s = EFFECT_UNSPECIFIED) then false
  else match resType with
       | RESOURCE_TYPE_UNSPECIFIED => false
       | RESOURCE_TYPE_BUCKET =>
           forallb (fun r => match ParseFromString r true with inl _ => false | inr _ => true end)
             (s_Resources s)
       | RESOURCE_TYPE_OBJECT =>
           forallb (allowed_in ObjectAllowedActions) (s_Actions s) &&
           bool_decide (s_LimitSize s = None)
       | RESOURCE_TYPE_GROUP =>
           forallb (allowed_in GroupAllowedActions) (s_Actions s) &&
           bool_decide (s_LimitSize s = None)
       end.

Definition Statement_ValidateRuntime (s : Statement) (resType : ResourceType) : bool :=
  match resType with
  | RESOURCE_TYPE_BUCKET =>
      forallb (fun r => bool_decide (is_Some (regexp_Compile r))) (s_Resources s) &&
      forallb (allowed_in BucketAllowedActionsAfterPampas) (s_Actions s) &&
      (existsb (fun a => bool_decide (a = ACTION_CREATE_OBJECT)) (s_Actions s) ||
       bool_decide (s_LimitSize s = None))
  | RESOURCE_TYPE_OBJECT | RESOURCE_TYPE_GROUP => is_nil (s_Resources s)
  | RESOURCE_TYPE_UNSPECIFIED => false
  end.

Definition Principal_ValidateBasic (p : Principal) : bool :=
  match Type_ p with
  | PRINCIPAL_TYPE_GNFD_ACCOUNT => bool_decide (is_Some (AccAddressFromHexUnsafe (Value p)))
  | PRINCIPAL_TYPE_GNFD_GROUP => true
  | _ => false
  end.
End Validate.

(** ** Parameters *)

Record Params : Type := mkPermParams {
  MaximumStatementsNum : Z;
  MaximumGroupNum : Z;
  MaximumRemoveExpiredPoliciesIteration : Z;
}.

Definition DefaultParams : Params := mkPermParams 10 10 100.

Definition validateMaximumStatementsNum (v : Z) : bool := negb (v =? 0).
Definition validateMaximumGroupNum (v : Z) : bool := negb (v =? 0).
Definition validateMaximumRemoveExpiredPoliciesIteration (v : Z) : bool := negb (v =? 0).

Definition Params_Validate (p : Params) : bool :=
  validateMaximumGroupNum (MaximumStatementsNum p) &&
  validateMaximumGroupNum (MaximumGroupNum p) &&
  validateMaximumRemoveExpiredPoliciesIteration (MaximumRemoveExpiredPoliciesIteration p).
