(* ===== verification/PermissionKeeper.v ===== *)
(** * x/permission: the keeper

    [keeper/keeper.go], [keeper/params.go], [keeper/msg_server.go],
    [types/common.go], [abci.go] and [genesis.go] of x/permission, over the
    data of [Permission].  A deleted or written key is an update of the map
    of its prefix.  An iterator is the list of the entries it visits, in key
    order; the loops delete only the entry they are at. *)

From S2P Require Import Prelude Bytes Grn Permission.

(** ** State *)

Abbreviation AccountKey := (ResourceType * Z * Z)%type.
Abbreviation GroupKey := (ResourceType * Z)%type.

Record PermState : Type := mkPermState {
  perm_params : option Params;
  (** [ResourcePolicyForAccountPrefix | ResourceID | Addr -> policy id] *)
  account_policies : gmap AccountKey Z;
  (** [ResourcePolicyForGroupPrefix | ResourceID -> PolicyGroup] *)
  group_policies : gmap GroupKey (list PolicyGroup_Item);
  (** [PolicyByIDPrefix | id -> Policy] *)
  policies : gmap Z Policy;
  (** [PolicyQueueKeyPrefix | time | id -> empty] *)
  policy_queue : gmap (Z * Z) unit;
  (** [GroupMemberPrefix | GroupID | Addr -> member id] *)
  group_members : gmap (Z * Z) Z;
  (** [GroupMemberByIDPrefix | id -> GroupMember] *)
  members_by_id : gmap Z GroupMember;
  (** The cells of the two sequences *)
  policySeq : option (list Z);
  groupMemberSeq : option (list Z);
}.

Definition empty_state : PermState := mkPermState None ∅ ∅ ∅ ∅ ∅ ∅ None None.

Definition set_params (p : Params) (s : PermState) : PermState :=
  mkPermState (Some p) (account_policies s) (group_policies s) (policies s) (policy_queue s)
    (group_members s) (members_by_id s) (policySeq s) (groupMemberSeq s).
Definition on_accounts f (s : PermState) : PermState :=
  mkPermState (perm_params s) (f (account_policies s)) (group_policies s) (policies s)
    (policy_queue s) (group_members s) (members_by_id s) (policySeq s) (groupMemberSeq s).
Definition on_groups f (s : PermState) : PermState :=
  mkPermState (perm_params s) (account_policies s) (f (group_policies s)) (policies s)
    (policy_queue s) (group_members s) (members_by_id s) (policySeq s) (groupMemberSeq s).
Definition on_policies f (s : PermState) : PermState :=
  mkPermState (perm_params s) (account_policies s) (group_policies s) (f (policies s))
    (policy_queue s) (group_members s) (members_by_id s) (policySeq s) (groupMemberSeq s).
Definition on_queue f (s : PermState) : PermState :=
  mkPermState (perm_params s) (account_policies s) (group_policies s) (policies s)
    (f (policy_queue s)) (group_members s) (members_by_id s) (policySeq s) (groupMemberSeq s).
Definition on_members f (s : PermState) : PermState :=
  mkPermState (perm_params s) (account_policies s) (group_policies s) (policies s)
    (policy_queue s) (f (group_members s)) (members_by_id s) (policySeq s) (groupMemberSeq s).
Definition on_members_by_id f (s : PermState) : PermState :=
  mkPermState (perm_params s) (account_policies s) (group_policies s) (policies s)
    (policy_queue s) (group_members s) (f (members_by_id s)) (policySeq s) (groupMemberSeq s).
Definition set_policySeq v (s : PermState) : PermState :=
  mkPermState (perm_params s) (account_policies s) (group_policies s) (policies s)
    (policy_queue s) (group_members s) (members_by_id s) v (groupMemberSeq s).
Definition set_groupMemberSeq v (s : PermState) : PermState :=
  mkPermState (perm_params s) (account_policies s) (group_policies s) (policies s)
    (policy_queue s) (group_members s) (members_by_id s) (policySeq s) v.

(** The errors of x/permission, and those of the storage code over it. *)
Inductive perm_error : Type :=
| ErrInvalidPrincipal
| ErrLimitExceeded
| ErrInvalidStatement
| ErrPermissionExpired
| ErrInvalidSigner
| ErrInvalidParams
| ErrGroupMemberAlreadyExists
| ErrNoSuchGroupMember
| ErrAccessDenied
| ErrNoSuchBucket
| ErrNoSuchObject
| ErrNoSuchGroup
| ErrNoSuchPolicy
| ErrInvalidResource
| ErrInvalidAddress
| ErrParseUint
| ErrGnfdInvalidPrincipal
| ErrGrn (e : grn_error).

Abbreviation PM := (M PermState perm_error).

(** ** Parameters *)

Definition GetParams (s : PermState) : Params :=
  default (mkPermParams 0 0 0) (perm_params s).
Definition MaximumPolicyGroupSize (s : PermState) : Z := MaximumGroupNum (GetParams s).

Definition SetParams (p : Params) : PM unit :=
  do! guard (negb (Params_Validate p)) ErrInvalidParams ;;
  modify (set_params p).

(** [msgServer.UpdateParams] *)
Definition UpdateParams (authority signer : string) (p : Params) : PM unit :=
  do! guard (negb (bool_decide (authority = signer))) ErrInvalidSigner ;;
  SetParams p.

(** [InitGenesis], [ExportGenesis]: the parameters only. *)
Definition InitGenesis (p : Params) : PM unit := on_err (SetParams p) (fun _ => panic).
Definition ExportGenesis (s : PermState) : Params := GetParams s.

(** ** Keys *)

(** [types.GetPolicyForAccountKey], [types.GetPolicyForGroupKey] panic on the
    resource types they have no prefix for. *)
Definition GetPolicyForAccountKey (rid : Z) (rt : ResourceType) (addr : Z) : PM AccountKey :=
  match rt with
  | RESOURCE_TYPE_BUCKET | RESOURCE_TYPE_OBJECT | RESOURCE_TYPE_GROUP => ret (rt, rid, addr)
  | RESOURCE_TYPE_UNSPECIFIED => panic
  end.

Definition GetPolicyForGroupKey (rid : Z) (rt : ResourceType) : PM GroupKey :=
  match rt with
  | RESOURCE_TYPE_BUCKET | RESOURCE_TYPE_OBJECT => ret (rt, rid)
  | _ => panic
  end.

(** [k.policySeq.NextVal(store)], [k.groupMemberSeq.NextVal(store)] *)
Definition next_policy_id : PM Z :=
  let! s := get in
  match NextVal Uint256 (policySeq s) with
  | None => panic
  | Some (id, cell) => do! modify (set_policySeq (Some cell)) ;; ret id
  end.

Definition next_member_id : PM Z :=
  let! s := get in
  match NextVal Uint256 (groupMemberSeq s) with
  | None => panic
  | Some (id, cell) => do! modify (set_groupMemberSeq (Some cell)) ;; ret id
  end.

(** The order of the queue's keys: time, then the bytes of the id. *)
Definition expiry_leb (a b : Z * Z) : bool :=
  (a.1 <? b.1) || ((a.1 =? b.1) && bytes_leb (big_bytes a.2) (big_bytes b.2)).

Definition set_queue (t : option Z) (id : Z) (s : PermState) : PermState :=
  match t with None => s | Some e => on_queue (insert (e, id) tt) s end.
Definition unset_queue (t : option Z) (id : Z) (s : PermState) : PermState :=
  match t with None => s | Some e => on_queue (delete (e, id)) s end.

Section Keeper.
Context `{AddressText, UintText}.

(** ** Principals *)

Definition MustAccAddressFromHex (v : string) : PM Z :=
  match AccAddressFromHexUnsafe v with None => panic | Some a => ret a end.

Definition GetAccountAddress (p : Principal) : PM Z :=
  match Type_ p with
  | PRINCIPAL_TYPE_GNFD_ACCOUNT =>
      match AccAddressFromHexUnsafe (Value p) with
      | None => fail ErrInvalidPrincipal
      | Some a => ret a
      end
  | _ => panic
  end.

Definition GetGroupID (p : Principal) : PM Z :=
  match Type_ p with
  | PRINCIPAL_TYPE_GNFD_GROUP =>
      match ParseUint (Value p) with
      | None => fail ErrInvalidPrincipal
      | Some g => ret g
      end
  | _ => panic
  end.

Definition MustGetAccountAddress (p : Principal) : PM Z := on_err (GetAccountAddress p) (fun _ => panic).
Definition MustGetGroupID (p : Principal) : PM Z := on_err (GetGroupID p) (fun _ => panic).

Definition NewPrincipalWithAccount (addr : Z) : Principal :=
  mkPrincipal PRINCIPAL_TYPE_GNFD_ACCOUNT (acc_String addr).
Definition NewPrincipalWithGroupID (groupID : Z) : Principal :=
  mkPrincipal PRINCIPAL_TYPE_GNFD_GROUP (uint_String groupID).

(** ** Group members *)

Definition GetGroupMemberByID (id : Z) (s : PermState) : option GroupMember :=
  match members_by_id s !! id with
  | None => None
  | Some m => Some (mkMember id (m_GroupId m) (m_Member m) (m_ExpirationTime m))
  end.

Definition GetGroupMember (groupID member : Z) (s : PermState) : option GroupMember :=
  match group_members s !! (groupID, member) with
  | None => None
  | Some id => GetGroupMemberByID id s
  end.

Definition AddGroupMember (groupID member : Z) (expiration : option Z) : PM unit :=
  let! s := get in
  do! guard (bool_decide (is_Some (group_members s !! (groupID, member))))
        ErrGroupMemberAlreadyExists ;;
  let! id := next_member_id in
  do! modify (on_members (insert (groupID, member) id)) ;;
  modify (on_members_by_id (insert id (mkMember 0 groupID (acc_String member) expiration))).

Definition UpdateGroupMember (groupID member memberID : Z) (expiration : option Z) : PM unit :=
  modify (on_members_by_id (insert memberID (mkMember 0 groupID (acc_String member) expiration))).

Definition RemoveGroupMember (groupID member : Z) : PM unit :=
  let! s := get in
  match group_members s !! (groupID, member) with
  | None => fail ErrNoSuchGroupMember
  | Some id =>
      do! modify (on_members (delete (groupID, member))) ;;
      modify (on_members_by_id (delete id))
  end.

(** ** Policies *)

Definition GetPolicyByID (id : Z) (s : PermState) : option Policy := policies s !! id.

Definition MustGetPolicyByID (id : Z) : PM Policy :=
  let! s := get in
  match GetPolicyByID id s with None => panic | Some p => ret p end.

(** [updatePolicy]: the queue entry follows the expiration time; the
    statements and the time of the stored policy are replaced. *)
Definition updatePolicy (policy newPolicy : Policy) : PM Policy :=
  let id := p_Id policy in
  do! modify (match p_ExpirationTime policy, p_ExpirationTime newPolicy with
              | None, Some e' => on_queue (insert (e', id) tt)
              | Some e, None => on_queue (delete (e, id))
              | Some e, Some e' =>
                  if e =? e' then fun s => s
                  else fun s => on_queue (insert (e', id) tt) (on_queue (delete (e, id)) s)
              | None, None => fun s => s
              end) ;;
  let policy' := mkPolicy id (p_Principal policy) (p_ResourceType policy) (p_ResourceId policy)
                   (p_Statements newPolicy) (p_ExpirationTime newPolicy) in
  do! modify (on_policies (insert id policy')) ;;
  ret policy'.

Definition with_id (p : Policy) (id : Z) : Policy :=
  mkPolicy id (p_Principal p) (p_ResourceType p) (p_ResourceId p) (p_Statements p)
    (p_ExpirationTime p).

(** The loop over the items of a policy group: every item of the group is
    overwritten; [true] when there was one. *)
Fixpoint put_items (items : list PolicyGroup_Item) (policy : Policy) : PM bool :=
  match items with
  | [] => ret false
  | it :: rest =>
      let! g := MustGetGroupID (p_Principal policy) in
      if GroupId it =? g then
        let! old := MustGetPolicyByID (PolicyId it) in
        do! updatePolicy old policy ;;
        do! put_items rest policy ;;
        ret true
      else put_items rest policy
  end.

(** A new policy for a group, appended to [items] *)
Definition append_policy (key : GroupKey) (items : list PolicyGroup_Item) (policy : Policy) : PM Z :=
  let! id := next_policy_id in
  let! g := MustGetGroupID (p_Principal policy) in
  do! modify (on_groups (insert key (items ++ [mkItem id g]))) ;;
  do! modify (on_policies (insert id (with_id policy id))) ;;
  do! modify (set_queue (p_ExpirationTime policy) id) ;;
  ret id.

Definition PutPolicy (policy : Policy) : PM Z :=
  match Type_ (p_Principal policy) with
  | PRINCIPAL_TYPE_GNFD_ACCOUNT =>
      let! addr := MustGetAccountAddress (p_Principal policy) in
      let! policyKey := GetPolicyForAccountKey (p_ResourceId policy) (p_ResourceType policy) addr in
      let! s := get in
      match account_policies s !! policyKey with
      | Some id =>
          let! old := MustGetPolicyByID id in
          do! updatePolicy old policy ;;
          ret (p_Id policy)
      | None =>
          let! id := next_policy_id in
          do! modify (on_accounts (insert policyKey id)) ;;
          do! modify (on_policies (insert id (with_id policy id))) ;;
          do! modify (set_queue (p_ExpirationTime policy) id) ;;
          ret id
      end
  | PRINCIPAL_TYPE_GNFD_GROUP =>
      let! policyGroupKey := GetPolicyForGroupKey (p_ResourceId policy) (p_ResourceType policy) in
      let! s := get in
      match group_policies s !! policyGroupKey with
      | Some items =>
          do! guard (MaximumPolicyGroupSize s <=? Z.of_nat (length items)) ErrLimitExceeded ;;
          let! isFound := put_items items policy in
          if isFound then ret (p_Id policy) else append_policy policyGroupKey items policy
      | None => append_policy policyGroupKey [] policy
      end
  | _ => fail ErrInvalidPrincipal
  end.

Definition GetPolicyForAccount (rid : Z) (rt : ResourceType) (addr : Z) : PM (option Policy) :=
  let! policyKey := GetPolicyForAccountKey rid rt addr in
  let! s := get in
  ret (match account_policies s !! policyKey with
       | None => None
       | Some id => GetPolicyByID id s
       end).

Definition GetPolicyGroupForResource (rid : Z) (rt : ResourceType) :
    PM (option (list PolicyGroup_Item)) :=
  let! policyGroupKey := GetPolicyForGroupKey rid rt in
  let! s := get in
  ret (group_policies s !! policyGroupKey).

(** The item of a group, the first one *)
Definition find_item (groupID : Z) (items : list PolicyGroup_Item) : option (nat * PolicyGroup_Item) :=
  list_find (fun it => GroupId it = groupID) items.

Definition GetPolicyForGroup (rid : Z) (rt : ResourceType) (groupID : Z) : PM (option Policy) :=
  let! policyGroupKey := GetPolicyForGroupKey rid rt in
  let! s := get in
  ret (match group_policies s !! policyGroupKey with
       | None => None
       | Some items =>
           match find_item groupID items with
           | None => None
           | Some (_, it) => GetPolicyByID (PolicyId it) s
           end
       end).

(** The queue entry of a policy read with [GetPolicyByID], and the policy; a
    policy that is not there reads as the empty one. *)
Definition drop_policy (id : Z) (s : PermState) : PermState :=
  on_policies (delete id)
    (match GetPolicyByID id s with
     | None => s
     | Some p => unset_queue (p_ExpirationTime p) (p_Id p) s
     end).

(** A policy group is deleted with its last item. *)
Definition store_items (key : GroupKey) (items : list PolicyGroup_Item) (s : PermState) : PermState :=
  match items with
  | [] => on_groups (delete key) s
  | _ => on_groups (insert key items) s
  end.

(** [policyGroup.Items = append(policyGroup.Items[:i], policyGroup.Items[i+1:]...)] *)
Definition remove_at (i : nat) (items : list PolicyGroup_Item) : list PolicyGroup_Item :=
  take i items ++ drop (S i) items.

(** [DeletePolicy] returns the nil id, 0 in the model, when there is none. *)
Definition DeletePolicy (principal : Principal) (rt : ResourceType) (rid : Z) : PM Z :=
  match Type_ principal with
  | PRINCIPAL_TYPE_GNFD_ACCOUNT =>
      let! accAddr := MustAccAddressFromHex (Value principal) in
      let! found := GetPolicyForAccount rid rt accAddr in
      match found with
      | None => ret 0
      | Some policy =>
          let! policyKey := GetPolicyForAccountKey rid rt accAddr in
          do! modify (on_accounts (delete policyKey)) ;;
          do! modify (on_policies (delete (p_Id policy))) ;;
          do! modify (unset_queue (p_ExpirationTime policy) (p_Id policy)) ;;
          ret (p_Id policy)
      end
  | PRINCIPAL_TYPE_GNFD_GROUP =>
      let! groupID := GetGroupID principal in
      let! policyGroupKey := GetPolicyForGroupKey rid rt in
      let! s := get in
      match group_policies s !! policyGroupKey with
      | None => ret 0
      | Some items =>
          match find_item groupID items with
          | None => ret 0
          | Some (i, it) =>
              do! modify (drop_policy (PolicyId it)) ;;
              do! modify (store_items policyGroupKey (remove_at i items)) ;;
              ret (PolicyId it)
          end
      end
  | _ => fail ErrInvalidPrincipal
  end.

(** ** Bulk deletion *)

Definition account_leb (a b : AccountKey) : bool := a.2 <=? b.2.

(** The iterator over the account policies of a resource *)
Definition accounts_of (rt : ResourceType) (rid : Z) (s : PermState) : list (AccountKey * Z) :=
  iterate account_leb (filter (fun kv => kv.1.1 = (rt, rid)) (account_policies s)).

Fixpoint delete_accounts (l : list (AccountKey * Z)) (maxDelete deletedTotal : Z) : PM (Z * bool) :=
  match l with
  | [] => ret (deletedTotal, true)
  | (key, id) :: rest =>
      if maxDelete <=? deletedTotal then ret (deletedTotal, false)
      else
        do! modify (drop_policy id) ;;
        do! modify (on_accounts (delete key)) ;;
        delete_accounts rest maxDelete (u64 (deletedTotal + 1))
  end.

Definition ForceDeleteAccountPolicyForResource (maxDelete deletedTotal : Z) (rt : ResourceType)
    (rid : Z) : PM (Z * bool) :=
  if bool_decide (rt = RESOURCE_TYPE_UNSPECIFIED) then ret (deletedTotal, true)
  else
    let! s := get in
    delete_accounts (accounts_of rt rid s) maxDelete deletedTotal.

Fixpoint delete_items (key : GroupKey) (items : list PolicyGroup_Item)
    (maxDelete deletedTotal : Z) : PM (Z * bool) :=
  match items with
  | [] => do! modify (on_groups (delete key)) ;; ret (deletedTotal, true)
  | it :: rest =>
      if maxDelete <=? deletedTotal then
        do! modify (on_groups (insert key items)) ;; ret (deletedTotal, false)
      else
        do! modify (drop_policy (PolicyId it)) ;;
        delete_items key rest maxDelete (u64 (deletedTotal + 1))
  end.

Definition ForceDeleteGroupPolicyForResource (maxDelete deletedTotal : Z) (rt : ResourceType)
    (rid : Z) : PM (Z * bool) :=
  if bool_decide (rt = RESOURCE_TYPE_UNSPECIFIED) || bool_decide (rt = RESOURCE_TYPE_GROUP)
  then ret (deletedTotal, true)
  else
    let! key := GetPolicyForGroupKey rid rt in
    let! s := get in
    match group_policies s !! key with
    | None => ret (deletedTotal, true)
    | Some items => delete_items key items maxDelete deletedTotal
    end.

Definition member_leb (a b : Z * Z) : bool := a.2 <=? b.2.

Definition members_of (groupID : Z) (s : PermState) : list (Z * Z * Z) :=
  iterate member_leb (filter (fun kv => kv.1.1 = groupID) (group_members s)).

Fixpoint delete_members (l : list (Z * Z * Z)) (maxDelete deletedTotal : Z) : PM (Z * bool) :=
  match l with
  | [] => ret (deletedTotal, true)
  | (key, id) :: rest =>
      if maxDelete <=? deletedTotal then ret (deletedTotal, false)
      else
        do! modify (on_members_by_id (delete id)) ;;
        do! modify (on_members (delete key)) ;;
        delete_members rest maxDelete (u64 (deletedTotal + 1))
  end.

Definition ForceDeleteGroupMembers (maxDelete deletedTotal groupID : Z) : PM (Z * bool) :=
  let! s := get in
  delete_members (members_of groupID s) maxDelete deletedTotal.

Definition ExistAccountPolicyForResource (rt : ResourceType) (rid : Z) (s : PermState) : bool :=
  if bool_decide (rt = RESOURCE_TYPE_UNSPECIFIED) then false
  else negb (is_nil (accounts_of rt rid s)).

Definition ExistGroupPolicyForResource (rt : ResourceType) (rid : Z) (s : PermState) : bool :=
  if bool_decide (rt = RESOURCE_TYPE_UNSPECIFIED) || bool_decide (rt = RESOURCE_TYPE_GROUP)
  then false
  else bool_decide (is_Some (group_policies s !! (rt, rid))).

Definition ExistGroupMemberForGroup (groupID : Z) (s : PermState) : bool :=
  negb (is_nil (members_of groupID s)).

(** ** Expiry *)

(** The iterator up to [InclusiveEndBytes] of the block time: a queue key
    goes on with the bytes of a positive id, so the entries of the block time
    itself come after that end. *)
Definition expired_entries (blockTime : Z) (s : PermState) : list (Z * Z) :=
  (iterate expiry_leb (filter (fun kv => kv.1.1 < blockTime) (policy_queue s))).*1.

(** The index of an expired policy *)
Definition unindex (policy : Policy) (id : Z) : PM unit :=
  match Type_ (p_Principal policy) with
  | PRINCIPAL_TYPE_GNFD_ACCOUNT =>
      let! addr := MustGetAccountAddress (p_Principal policy) in
      let! policyKey := GetPolicyForAccountKey (p_ResourceId policy) (p_ResourceType policy) addr in
      modify (on_accounts (delete policyKey))
  | PRINCIPAL_TYPE_GNFD_GROUP =>
      let! key := GetPolicyForGroupKey (p_ResourceId policy) (p_ResourceType policy) in
      let! s := get in
      match group_policies s !! key with
      | None => ret tt
      | Some items =>
          modify (store_items key
            (match list_find (fun it => PolicyId it = id) items with
             | None => items
             | Some (i, _) => remove_at i items
             end))
      end
  | _ => ret tt
  end.

Fixpoint remove_expired (l : list (Z * Z)) (count maxIteration : Z) : PM unit :=
  match l with
  | [] => ret tt
  | (t, id) :: rest =>
      if maxIteration <=? count then ret tt
      else
        do! modify (on_queue (delete (t, id))) ;;
        let! s := get in
        match policies s !! id with
        | None => panic
        | Some policy =>
            do! modify (on_policies (delete id)) ;;
            do! unindex policy id ;;
            remove_expired rest (u64 (count + 1)) maxIteration
        end
  end.

Definition RemoveExpiredPolicies (blockTime : Z) : PM unit :=
  let! s := get in
  remove_expired (expired_entries blockTime s) 0
    (MaximumRemoveExpiredPoliciesIteration (GetParams s)).

(** [EndBlocker] of abci.go *)
Definition EndBlocker (blockTime : Z) : PM unit := RemoveExpiredPolicies blockTime.
End Keeper.
