(* ===== verification/PermissionFacts.v ===== *)
(** * x/permission: the store as a map of grants

    The abstract view of the permission store is a partial map from a
    resource and a grantee (an account or a group) to the statements and the
    expiration time granted.  The store keeps it in three places that must
    agree: an index from grantee to policy id, the policies by id, and the
    expiry queue.  [linked] says that they do, [perm_ok] adds the shape of
    the two indexes; every operation of [PermissionKeeper] is shown to keep
    [perm_ok] and to act on the abstract map as its name says. *)

From S2P Require Import Prelude Bytes Grn Permission PermissionKeeper.

(** ** Grants *)

Inductive Grantee : Type :=
| GAccount (addr : Z)
| GGroup (groupID : Z).

#[global] Instance Grantee_eq_dec : EqDecision Grantee.
Proof. solve_decision. Defined.

Abbreviation GrantKey := (ResourceType * Z * Grantee)%type.
Abbreviation Grant := (list Statement * option Z)%type.

(** The resource types a policy can be stored for, by grantee. *)
Definition keyed (k : GrantKey) : bool :=
  match k with
  | (RESOURCE_TYPE_UNSPECIFIED, _, _) => false
  | (RESOURCE_TYPE_GROUP, _, GGroup _) => false
  | _ => true
  end.

Definition item_id (g : Z) (items : list PolicyGroup_Item) : option Z :=
  match find_item g items with None => None | Some (_, it) => Some (PolicyId it) end.

(** The index: the policy id of a grantee *)
Definition policy_id (s : PermState) (k : GrantKey) : option Z :=
  match k with
  | (rt, rid, GAccount a) => account_policies s !! (rt, rid, a)
  | (rt, rid, GGroup g) =>
      match group_policies s !! (rt, rid) with None => None | Some items => item_id g items end
  end.

Definition granted (p : Policy) : Grant := (p_Statements p, p_ExpirationTime p).

Definition grant (s : PermState) (k : GrantKey) : option Grant :=
  match policy_id s k with
  | None => None
  | Some id => granted <$> policies s !! id
  end.

(** Updating and clearing one key of a partial function *)
Definition fset {V} (k : GrantKey) (v : option V) (f : GrantKey -> option V) (k' : GrantKey) :
    option V := if decide (k' = k) then v else f k'.

Section Facts.
Context `{AddressText, UintText}.

(** Whom a principal names *)
Definition grantee_of (p : Principal) : option Grantee :=
  match Type_ p with
  | PRINCIPAL_TYPE_GNFD_ACCOUNT => GAccount <$> AccAddressFromHexUnsafe (Value p)
  | PRINCIPAL_TYPE_GNFD_GROUP => GGroup <$> ParseUint (Value p)
  | _ => None
  end.

Definition target (p : Policy) : option GrantKey :=
  (fun g => (p_ResourceType p, p_ResourceId p, g)) <$> grantee_of (p_Principal p).

(** ** The invariant *)

(** The index, the policies, the queue and the last id agree. *)
Record linked (idx : GrantKey -> option Z) (ps : gmap Z Policy) (q : gmap (Z * Z) unit)
    (n : Z) : Prop := {
  l_index : forall k id, idx k = Some id -> exists p, ps !! id = Some p /\ target p = Some k;
  l_policy : forall id p, ps !! id = Some p ->
    p_Id p = id /\ 0 < id <= n /\ exists k, target p = Some k /\ idx k = Some id;
  l_queue : forall t id, is_Some (q !! (t, id)) <->
    exists p, ps !! id = Some p /\ p_ExpirationTime p = Some t;
}.

(** The shape of the two indexes *)
Record shaped (s : PermState) : Prop := {
  sh_account : forall rt rid a, is_Some (account_policies s !! (rt, rid, a)) ->
    rt <> RESOURCE_TYPE_UNSPECIFIED;
  sh_group : forall rt rid items, group_policies s !! (rt, rid) = Some items ->
    (rt = RESOURCE_TYPE_BUCKET \/ rt = RESOURCE_TYPE_OBJECT) /\
    items <> [] /\ NoDup (GroupId <$> items);
}.

Definition last_id (s : PermState) : Z := CurVal Uint256 (policySeq s).

Record perm_ok (s : PermState) : Prop := {
  ok_linked : linked (policy_id s) (policies s) (policy_queue s) (last_id s);
  ok_shaped : shaped s;
  ok_seq : 0 <= last_id s < 2 ^ 256;
}.

Lemma linked_ext idx idx' ps q n :
  (forall k, idx k = idx' k) -> linked idx ps q n -> linked idx' ps q n.
Proof.
  intros Heq [Hi Hp Hq]. split; [|intros id p Hid; specialize (Hp id p Hid)|done].
  - intros k id. rewrite <- Heq. apply Hi.
  - destruct Hp as (? & ? & k & ? & ?). split_and!; try done || lia.
    exists k. by rewrite <- Heq.
Qed.

Section Linked.
Context (idx : GrantKey -> option Z) (ps : gmap Z Policy) (q : gmap (Z * Z) unit) (n : Z).
Context (Hl : linked idx ps q n).

(** Two grantees never share a policy. *)
Lemma linked_inj k k' id : idx k = Some id -> idx k' = Some id -> k = k'.
Proof.
  intros Hk Hk'. destruct (l_index _ _ _ _ Hl _ _ Hk) as (p & Hp & ?).
  destruct (l_index _ _ _ _ Hl _ _ Hk') as (p' & Hp' & ?). congruence.
Qed.

Lemma linked_fresh : ps !! (n + 1) = None.
Proof.
  destruct (ps !! (n + 1)) as [p|] eqn:E; [|done].
  destruct (l_policy _ _ _ _ Hl _ _ E) as (_ & ? & _). lia.
Qed.

Lemma linked_add k p :
  0 <= n -> idx k = None -> target p = Some k -> p_Id p = n + 1 ->
  linked (fset k (Some (n + 1)) idx) (<[n + 1 := p]> ps)
    (match p_ExpirationTime p with None => q | Some e => <[(e, n + 1) := tt]> q end) (n + 1).
Proof.
  intros Hn Hk Ht Hid. pose proof linked_fresh as Hfresh. split.
  - intros k' id. unfold fset. case_decide; intros Hk'; simplify_eq.
    + exists p. by rewrite lookup_insert_eq.
    + destruct (l_index _ _ _ _ Hl _ _ Hk') as (p' & Hp' & ?). exists p'.
      rewrite lookup_insert_ne; [done|]. congruence.
  - intros id p'. rewrite lookup_insert_Some. intros [[<- <-]|[Hne Hp']].
    + split_and!; [done|lia|lia|]. exists k. unfold fset. by rewrite decide_True.
    + destruct (l_policy _ _ _ _ Hl _ _ Hp') as (? & ? & k' & ? & ?).
      split_and!; [done|lia|lia|]. exists k'. unfold fset. rewrite decide_False; [done|]. congruence.
  - intros t id. destruct (decide (id = n + 1)) as [->|Hne].
    + rewrite lookup_insert_eq.
      assert (is_Some (q !! (t, n + 1)) <-> False) as Hq.
      { split; [|done]. rewrite (l_queue _ _ _ _ Hl). intros (? & ? & _). congruence. }
      destruct (p_ExpirationTime p) as [e|] eqn:E; [rewrite lookup_insert_is_Some|];
        rewrite Hq; naive_solver.
    + rewrite lookup_insert_ne by done. rewrite <- (l_queue _ _ _ _ Hl).
      destruct (p_ExpirationTime p); [|done]. rewrite lookup_insert_ne by congruence. done.
Qed.

Lemma linked_remove k id p :
  idx k = Some id -> ps !! id = Some p ->
  linked (fset k None idx) (delete id ps)
    (match p_ExpirationTime p with None => q | Some e => delete (e, id) q end) n.
Proof.
  intros Hk Hp. split.
  - intros k' id'. unfold fset. case_decide; [done|]. intros Hk'.
    destruct (l_index _ _ _ _ Hl _ _ Hk') as (p' & Hp' & ?). exists p'.
    rewrite lookup_delete_ne; [done|]. intros <-. eauto using linked_inj.
  - intros id' p'. rewrite lookup_delete_Some. intros [Hne Hp'].
    destruct (l_policy _ _ _ _ Hl _ _ Hp') as (? & ? & k' & ? & ?).
    split_and!; [done|lia|lia|]. exists k'. unfold fset. rewrite decide_False; [done|]. congruence.
  - intros t id'. destruct (decide (id' = id)) as [->|Hne].
    + rewrite lookup_delete_eq.
      assert (is_Some (q !! (t, id)) <-> p_ExpirationTime p = Some t) as Hq.
      { rewrite (l_queue _ _ _ _ Hl). naive_solver. }
      destruct (p_ExpirationTime p) as [e|] eqn:E; [rewrite lookup_delete_is_Some|];
        rewrite Hq; naive_solver.
    + rewrite lookup_delete_ne by done. rewrite <- (l_queue _ _ _ _ Hl).
      destruct (p_ExpirationTime p); [|done]. rewrite lookup_delete_ne by congruence. done.
Qed.

(** Replacing a policy by one of the same grantee *)
Lemma linked_update id p p' q' :
  ps !! id = Some p -> p_Id p' = id -> target p' = target p ->
  (forall t id', is_Some (q' !! (t, id')) <->
     if decide (id' = id) then p_ExpirationTime p' = Some t else is_Some (q !! (t, id'))) ->
  linked idx (<[id := p']> ps) q' n.
Proof.
  intros Hp Hid Ht Hq. split.
  - intros k id' Hk. destruct (l_index _ _ _ _ Hl _ _ Hk) as (p0 & Hp0 & ?).
    destruct (decide (id' = id)) as [->|]; [exists p'|exists p0];
      rewrite ?lookup_insert_eq, ?lookup_insert_ne by done; split; congruence.
  - intros id' p0. rewrite lookup_insert_Some. intros [[<- <-]|[Hne Hp0]].
    + destruct (l_policy _ _ _ _ Hl _ _ Hp) as (? & ? & k & ? & ?).
      split_and!; [done|lia|lia|]. exists k. split; congruence.
    + by apply (l_policy _ _ _ _ Hl).
  - intros t id'. rewrite Hq. case_decide; subst.
    + rewrite lookup_insert_eq. naive_solver.
    + rewrite lookup_insert_ne by done. apply (l_queue _ _ _ _ Hl).
Qed.
End Linked.

(** ** Operations on the store as a whole *)

Section Whole.
Context (s s1 : PermState) (Hok : perm_ok s) (Hshape : shaped s1).

Lemma perm_ok_add k p :
  policy_id s k = None -> target p = Some k -> p_Id p = last_id s + 1 ->
  last_id s1 = last_id s + 1 -> last_id s1 < 2 ^ 256 ->
  (forall k', policy_id s1 k' = fset k (Some (last_id s + 1)) (policy_id s) k') ->
  policies s1 = <[last_id s + 1 := p]> (policies s) ->
  policy_queue s1 = match p_ExpirationTime p with
                    | None => policy_queue s
                    | Some e => <[(e, last_id s + 1) := tt]> (policy_queue s)
                    end ->
  perm_ok s1 /\ forall k', grant s1 k' = fset k (Some (granted p)) (grant s) k'.
Proof.
  destruct Hok as [Hl _ Hseq]. intros Hk Ht Hid Hlast Hbound Hidx Hps Hq. split.
  - split; [|done|lia]. rewrite Hps, Hq, Hlast.
    eapply linked_ext; [intros k'; symmetry; apply Hidx|]. apply linked_add; done || lia.
  - intros k'. unfold grant. rewrite Hidx, Hps. unfold fset.
    case_decide; [by rewrite lookup_insert_eq|].
    destruct (policy_id s k') as [id|] eqn:E; [|done].
    destruct (l_index _ _ _ _ Hl _ _ E) as (p' & Hp' & _).
    destruct (l_policy _ _ _ _ Hl _ _ Hp') as (_ & ? & _).
    by rewrite lookup_insert_ne by lia.
Qed.

Lemma perm_ok_remove k id p :
  policy_id s k = Some id -> policies s !! id = Some p -> last_id s1 = last_id s ->
  (forall k', policy_id s1 k' = fset k None (policy_id s) k') ->
  policies s1 = delete id (policies s) ->
  policy_queue s1 = match p_ExpirationTime p with
                    | None => policy_queue s
                    | Some e => delete (e, id) (policy_queue s)
                    end ->
  perm_ok s1 /\ forall k', grant s1 k' = fset k None (grant s) k'.
Proof.
  destruct Hok as [Hl _ Hseq]. intros Hk Hp Hlast Hidx Hps Hq. split.
  - split; [|done|lia]. rewrite Hps, Hq, Hlast.
    eapply linked_ext; [intros k'; symmetry; apply Hidx|]. by apply linked_remove.
  - intros k'. unfold grant. rewrite Hidx, Hps. unfold fset. case_decide; [done|].
    destruct (policy_id s k') as [id'|] eqn:E; [|done].
    rewrite lookup_delete_ne; [done|]. intros <-. by eapply linked_inj in E.
Qed.

Lemma perm_ok_update k id p p' :
  policy_id s k = Some id -> policies s !! id = Some p -> p_Id p' = id -> target p' = target p ->
  last_id s1 = last_id s -> (forall k', policy_id s1 k' = policy_id s k') ->
  policies s1 = <[id := p']> (policies s) ->
  (forall t id', is_Some (policy_queue s1 !! (t, id')) <->
     if decide (id' = id) then p_ExpirationTime p' = Some t
     else is_Some (policy_queue s !! (t, id'))) ->
  perm_ok s1 /\ forall k', grant s1 k' = fset k (Some (granted p')) (grant s) k'.
Proof.
  destruct Hok as [Hl _ Hseq]. intros Hk Hp Hid Ht Hlast Hidx Hps Hq. split.
  - split; [|done|lia]. rewrite Hps, Hlast.
    eapply linked_ext; [intros k'; symmetry; apply Hidx|]. by eapply linked_update.
  - intros k'. unfold grant. rewrite Hidx, Hps. unfold fset. case_decide as Hkk.
    + subst k'. by rewrite Hk, lookup_insert_eq.
    + destruct (policy_id s k') as [id'|] eqn:E; [|done].
      rewrite lookup_insert_ne; [done|]. intros <-. by eapply linked_inj in E.
Qed.
End Whole.

(** ** Items of a policy group *)

Lemma item_id_cons g it items :
  item_id g (it :: items) = if decide (GroupId it = g) then Some (PolicyId it) else item_id g items.
Proof.
  unfold item_id, find_item. cbn [list_find]. case_decide; [done|].
  by destruct (list_find _ items) as [[]|].
Qed.

Lemma item_id_app g l1 l2 :
  item_id g (l1 ++ l2) = match item_id g l1 with Some id => Some id | None => item_id g l2 end.
Proof.
  induction l1 as [|it l1 IH]; [done|]. cbn [app]. rewrite !item_id_cons.
  by case_decide.
Qed.

Lemma item_id_None g items : item_id g items = None <-> g ∉ (GroupId <$> items).
Proof.
  induction items as [|it items IH]; [set_solver|].
  rewrite item_id_cons, fmap_cons, not_elem_of_cons, <- IH. case_decide; naive_solver.
Qed.

Lemma item_id_elem items it :
  NoDup (GroupId <$> items) -> it ∈ items -> item_id (GroupId it) items = Some (PolicyId it).
Proof.
  induction items as [|it' items IH]; [set_solver|].
  rewrite fmap_cons, NoDup_cons, elem_of_cons, item_id_cons. intros [Hn Hnd] [->|Hin].
  - by rewrite decide_True.
  - rewrite decide_False; [auto|]. intros Heq. apply Hn. rewrite Heq.
    by apply list_elem_of_fmap_2.
Qed.

Lemma item_id_remove_at g items i it :
  NoDup (GroupId <$> items) -> items !! i = Some it ->
  item_id g (remove_at i items) = (if decide (g = GroupId it) then None else item_id g items) /\
  NoDup (GroupId <$> remove_at i items).
Proof.
  intros Hnd Hi. pose proof (take_drop_middle items i it Hi) as Heq. rewrite <- Heq in Hnd.
  assert (item_id g items = item_id g (take i items ++ it :: drop (S i) items)) as ->
    by (by rewrite Heq).
  unfold remove_at.
  rewrite !fmap_app, fmap_cons in *. rewrite !item_id_app, item_id_cons.
  apply NoDup_app in Hnd as (Hn1 & Hd & [Hn2 Hnd2]%NoDup_cons). split.
  - case_decide; subst; [|by rewrite (decide_False (P := GroupId it = g))].
    rewrite (proj2 (item_id_None _ (take i items))) by set_solver.
    by apply item_id_None.
  - apply NoDup_app. set_solver.
Qed.

(** ** Updates of the two indexes *)

Lemma policy_id_insert_account s rt rid a id k :
  policy_id (on_accounts (insert (rt, rid, a) id) s) k =
  fset (rt, rid, GAccount a) (Some id) (policy_id s) k.
Proof.
  unfold fset. destruct k as [[rt' rid'] [a'|g]]; cbn.
  - case_decide; simplify_eq; [by rewrite lookup_insert_eq|].
    by rewrite lookup_insert_ne by congruence.
  - by rewrite decide_False.
Qed.

Lemma policy_id_delete_account s rt rid a k :
  policy_id (on_accounts (delete (rt, rid, a)) s) k =
  fset (rt, rid, GAccount a) None (policy_id s) k.
Proof.
  unfold fset. destruct k as [[rt' rid'] [a'|g]]; cbn.
  - case_decide; simplify_eq; [by rewrite lookup_delete_eq|].
    by rewrite lookup_delete_ne by congruence.
  - by rewrite decide_False.
Qed.

(** The items of a resource; none when it has no policy group. *)
Definition items_of (s : PermState) (key : GroupKey) : list PolicyGroup_Item :=
  default [] (group_policies s !! key).

Lemma policy_id_items s rt rid g : policy_id s (rt, rid, GGroup g) = item_id g (items_of s (rt, rid)).
Proof. cbn. unfold items_of. by destruct (group_policies s !! _). Qed.

Lemma items_of_store s key items key' :
  items_of (store_items key items s) key' = if decide (key' = key) then items else items_of s key'.
Proof.
  unfold items_of, store_items. destruct items; cbn; case_decide; subst;
    rewrite ?lookup_delete_eq, ?lookup_insert_eq, ?lookup_delete_ne, ?lookup_insert_ne by done; done.
Qed.

(** A write of the items of one resource that changes what one group gets *)
Lemma policy_id_store s rt rid items g v k :
  (forall g', item_id g' items = if decide (g' = g) then v else item_id g' (items_of s (rt, rid))) ->
  policy_id (store_items (rt, rid) items s) k = fset (rt, rid, GGroup g) v (policy_id s) k.
Proof.
  intros Hitems. unfold fset. destruct k as [[rt' rid'] [a|g']].
  - rewrite decide_False by done. by destruct items.
  - rewrite !policy_id_items, items_of_store.
    destruct (decide ((rt', rid') = (rt, rid))); simplify_eq.
    + rewrite Hitems. by repeat case_decide; simplify_eq.
    + rewrite decide_False by congruence. done.
Qed.

Lemma shaped_store s rt rid items :
  shaped s -> (rt = RESOURCE_TYPE_BUCKET \/ rt = RESOURCE_TYPE_OBJECT) ->
  NoDup (GroupId <$> items) -> shaped (store_items (rt, rid) items s).
Proof.
  intros [Ha Hg] Hrt Hnd. split; [by destruct items|]. intros rt' rid' items'.
  destruct items as [|it items]; cbn.
  - rewrite lookup_delete_Some. intros [_ ?]. eauto.
  - rewrite lookup_insert_Some. intros [[? <-]|[_ ?]]; [|eauto]. by simplify_eq.
Qed.

Lemma shaped_same s s1 :
  shaped s -> account_policies s1 = account_policies s -> group_policies s1 = group_policies s ->
  shaped s1.
Proof. intros [Ha Hg] Ea Eg. by split; rewrite ?Ea, ?Eg. Qed.
End Facts.
