(* ===== verification/PermissionRefine.v ===== *)
(** * x/permission: the operations refine updates of the grants

    Each operation of [PermissionKeeper], run in a state that satisfies
    [perm_ok], keeps it and changes the abstract map of grants
    ([PermissionFacts.grant]) at one key, or at the keys it is to clear. *)

From S2P Require Import Prelude Bytes Grn Permission PermissionKeeper PermissionFacts.

(** What the policy operations leave alone *)
Definition same_rest (s s' : PermState) : Prop :=
  perm_params s' = perm_params s /\ group_members s' = group_members s /\
  members_by_id s' = members_by_id s /\ groupMemberSeq s' = groupMemberSeq s.

Lemma same_rest_refl s : same_rest s s.
Proof. done. Qed.
Lemma same_rest_trans s1 s2 s3 : same_rest s1 s2 -> same_rest s2 s3 -> same_rest s1 s3.
Proof. unfold same_rest. naive_solver congruence. Qed.

(** The policy group of the key has reached its size limit. *)
Definition group_full (s : PermState) (k : GrantKey) : bool :=
  match k with
  | (rt, rid, GGroup _) =>
      match group_policies s !! (rt, rid) with
      | None => false
      | Some items => MaximumPolicyGroupSize s <=? Z.of_nat (length items)
      end
  | _ => false
  end.

Section Refine.
Context `{AddressText, UintText}.

(** [s'] is [s] with the grant [v] at [k]. *)
Definition stores (s : PermState) (k : GrantKey) (v : option Grant) (s' : PermState) : Prop :=
  perm_ok s' /\ (forall k', grant s' k' = fset k v (grant s) k') /\ same_rest s s'.

(** ** Reading the arguments *)

Lemma account_key_run rid rt a s :
  rt <> RESOURCE_TYPE_UNSPECIFIED -> GetPolicyForAccountKey rid rt a s = (Ret (rt, rid, a), s).
Proof. by destruct rt. Qed.

Lemma group_key_run rid rt s :
  rt = RESOURCE_TYPE_BUCKET \/ rt = RESOURCE_TYPE_OBJECT ->
  GetPolicyForGroupKey rid rt s = (Ret (rt, rid), s).
Proof. by intros [-> | ->]. Qed.

Lemma account_address_run p a s :
  grantee_of p = Some (GAccount a) ->
  Type_ p = PRINCIPAL_TYPE_GNFD_ACCOUNT /\ MustGetAccountAddress p s = (Ret a, s) /\
  MustAccAddressFromHex (Value p) s = (Ret a, s).
Proof.
  unfold grantee_of, MustGetAccountAddress, GetAccountAddress, MustAccAddressFromHex, on_err.
  destruct (Type_ p); try done.
  - by destruct (AccAddressFromHexUnsafe (Value p)); intros ?; simplify_eq/=.
  - by destruct (ParseUint (Value p)); intros ?; simplify_eq/=.
Qed.

Lemma group_id_run p g s :
  grantee_of p = Some (GGroup g) ->
  Type_ p = PRINCIPAL_TYPE_GNFD_GROUP /\ MustGetGroupID p s = (Ret g, s) /\
  GetGroupID p s = (Ret g, s).
Proof.
  unfold grantee_of, MustGetGroupID, GetGroupID, on_err. destruct (Type_ p); try done.
  - by destruct (AccAddressFromHexUnsafe (Value p)); intros ?; simplify_eq/=.
  - by destruct (ParseUint (Value p)); intros ?; simplify_eq/=.
Qed.

Lemma next_policy_id_run s :
  0 <= last_id s < 2 ^ 256 ->
  if last_id s + 1 <? 2 ^ 256
  then exists cell, next_policy_id s = (Ret (last_id s + 1), set_policySeq (Some cell) s) /\
                    CurVal Uint256 (Some cell) = last_id s + 1
  else next_policy_id s = (Panic, s).
Proof.
  intros Hseq. pose proof (NextVal_counts Uint256 (policySeq s) Hseq) as Hnext.
  unfold next_policy_id. rewrite bind_get. fold (last_id s) in Hnext.
  change (number_bound Uint256) with (2 ^ 256) in Hnext.
  destruct (last_id s + 1 <? 2 ^ 256).
  - destruct Hnext as (cell & -> & Hcell). by exists cell.
  - by rewrite Hnext.
Qed.

(** ** Overwriting a policy *)

Definition merged (old new : Policy) : Policy :=
  mkPolicy (p_Id old) (p_Principal old) (p_ResourceType old) (p_ResourceId old)
    (p_Statements new) (p_ExpirationTime new).

Definition overwritten (old new : Policy) (s : PermState) : PermState :=
  (updatePolicy old new s).2.

Lemma updatePolicy_run old new s :
  updatePolicy old new s = (Ret (merged old new), overwritten old new s).
Proof. done. Qed.

Lemma overwritten_frame old new s :
  account_policies (overwritten old new s) = account_policies s /\
  group_policies (overwritten old new s) = group_policies s /\
  policies (overwritten old new s) = <[p_Id old := merged old new]> (policies s) /\
  policySeq (overwritten old new s) = policySeq s /\ same_rest s (overwritten old new s).
Proof.
  unfold overwritten, merged, updatePolicy, bind, modify, ret, same_rest.
  destruct (p_ExpirationTime old), (p_ExpirationTime new); try done.
  by destruct (_ =? _).
Qed.

Lemma overwritten_queue old new s t id :
  (forall t, is_Some (policy_queue s !! (t, p_Id old)) <-> p_ExpirationTime old = Some t) ->
  is_Some (policy_queue (overwritten old new s) !! (t, id)) <->
  if decide (id = p_Id old) then p_ExpirationTime new = Some t
  else is_Some (policy_queue s !! (t, id)).
Proof.
  intros Hold. specialize (Hold t). unfold overwritten, updatePolicy, bind, modify, ret.
  destruct (p_ExpirationTime old) as [e|], (p_ExpirationTime new) as [e'|];
    [destruct (Z.eqb_spec e e')| | |]; cbn;
    rewrite ?lookup_insert_is_Some, ?lookup_delete_is_Some;
    (case_decide; [subst; rewrite ?Hold; naive_solver | naive_solver]).
Qed.

Lemma overwrite_stores s k id old new :
  perm_ok s -> policy_id s k = Some id -> policies s !! id = Some old ->
  stores s k (Some (granted new)) (overwritten old new s).
Proof.
  intros Hok Hk Hold. pose proof (ok_linked _ Hok) as Hl.
  destruct (l_policy _ _ _ _ Hl _ _ Hold) as (Hid & _).
  destruct (overwritten_frame old new s) as (Ea & Eg & Ep & Es & Hrest).
  destruct (perm_ok_update s (overwritten old new s) Hok
              (shaped_same _ _ (ok_shaped _ Hok) Ea Eg) k id old (merged old new))
    as [Hok' Hgrant]; try done.
  - unfold last_id. by rewrite Es.
  - intros [[rt rid] []]; cbn; by rewrite ?Ea, ?Eg.
  - by rewrite Ep, Hid.
  - intros t id'. rewrite overwritten_queue, Hid; [done|]. intros t0.
    rewrite Hid, (l_queue _ _ _ _ Hl). naive_solver.
Qed.

(** ** New policies *)

Lemma policy_id_same s s1 k :
  account_policies s1 = account_policies s -> group_policies s1 = group_policies s ->
  policy_id s1 k = policy_id s k.
Proof. intros Ea Eg. destruct k as [[rt rid] []]; cbn; by rewrite ?Ea, ?Eg. Qed.

Lemma store_items_app key items it s :
  on_groups (insert key (items ++ [it])) s = store_items key (items ++ [it]) s.
Proof. by destruct items. Qed.

Lemma store_items_fields key items s :
  policies (store_items key items s) = policies s /\
  policy_queue (store_items key items s) = policy_queue s /\
  policySeq (store_items key items s) = policySeq s /\ same_rest s (store_items key items s).
Proof. by destruct items. Qed.

(** The state after a policy with a new id was stored; [f] is the write of
    the index. *)
Definition created (f : PermState -> PermState) (cell : list Z) (id : Z) (p : Policy)
    (s : PermState) : PermState :=
  set_queue (p_ExpirationTime p) id
    (on_policies (insert id (with_id p id)) (f (set_policySeq (Some cell) s))).

Lemma created_stores s k p f cell :
  perm_ok s -> policy_id s k = None -> target p = Some k ->
  CurVal Uint256 (Some cell) = last_id s + 1 -> last_id s + 1 < 2 ^ 256 ->
  let s0 := set_policySeq (Some cell) s in
  shaped (f s0) -> (forall k', policy_id (f s0) k' = fset k (Some (last_id s + 1)) (policy_id s) k') ->
  policies (f s0) = policies s -> policy_queue (f s0) = policy_queue s ->
  policySeq (f s0) = Some cell -> same_rest s (f s0) ->
  stores s k (Some (granted p)) (created f cell (last_id s + 1) p s).
Proof.
  intros Hok Hk Ht Hcell Hbound s0 Hsh Hidx Hps Hq Hseq Hrest. unfold created. fold s0.
  set (s1 := set_queue _ _ _).
  assert (account_policies s1 = account_policies (f s0) /\
          group_policies s1 = group_policies (f s0)) as [Ea Eg]
    by (subst s1; unfold set_queue; by destruct (p_ExpirationTime p)).
  assert (last_id s1 = last_id s + 1) as Hlast.
  { unfold last_id at 1. rewrite <- Hcell, <- Hseq. subst s1. unfold set_queue.
    by destruct (p_ExpirationTime p). }
  destruct (perm_ok_add s s1 Hok (shaped_same _ _ Hsh Ea Eg) k (with_id p (last_id s + 1)))
    as [Hok' Hgrant]; try done; [by rewrite Hlast| | | |].
  - intros k'. by rewrite (policy_id_same (f s0) s1).
  - subst s1. unfold set_queue. destruct (p_ExpirationTime p); cbn; by rewrite Hps.
  - subst s1. unfold set_queue. destruct (p_ExpirationTime p) eqn:E; cbn; by rewrite E, Hq.
  - split_and!; [done|done|]. eapply same_rest_trans; [done|]. subst s1. unfold set_queue.
    by destruct (p_ExpirationTime p).
Qed.

Lemma append_policy_stores s rt rid g p :
  perm_ok s -> target p = Some (rt, rid, GGroup g) ->
  rt = RESOURCE_TYPE_BUCKET \/ rt = RESOURCE_TYPE_OBJECT ->
  policy_id s (rt, rid, GGroup g) = None ->
  if last_id s + 1 <? 2 ^ 256
  then exists s', append_policy (rt, rid) (items_of s (rt, rid)) p s = (Ret (last_id s + 1), s') /\
                  stores s (rt, rid, GGroup g) (Some (granted p)) s'
  else (append_policy (rt, rid) (items_of s (rt, rid)) p s).1 = Panic.
Proof.
  intros Hok Ht Hrt Hk. pose proof (next_policy_id_run s (ok_seq _ Hok)) as Hnext.
  unfold append_policy. destruct (Z.ltb_spec (last_id s + 1) (2 ^ 256)) as [Hbound|].
  2: { unfold bind at 1. by rewrite Hnext. }
  destruct Hnext as (cell & Hnext & Hcell).
  assert (grantee_of (p_Principal p) = Some (GGroup g)) as Hg.
  { unfold target in Ht. destruct (grantee_of _); by simplify_eq/=. }
  rewrite (bind_run _ _ _ _ _ Hnext).
  rewrite (bind_run _ _ _ _ _ (proj1 (proj2 (group_id_run _ _ _ Hg)))).
  set (f := store_items (rt, rid) (items_of s (rt, rid) ++ [mkItem (last_id s + 1) g])).
  exists (created f cell (last_id s + 1) p s). split.
  { unfold created, f. by rewrite <- store_items_app. }
  pose proof Hk as Hi. rewrite policy_id_items in Hi.
  assert (NoDup (GroupId <$> items_of s (rt, rid))) as Hnd.
  { unfold items_of. destruct (group_policies s !! _) as [items|] eqn:E; [|constructor].
    by apply (sh_group _ (ok_shaped _ Hok) _ _ _ E). }
  destruct (store_items_fields (rt, rid) (items_of s (rt, rid) ++ [mkItem (last_id s + 1) g])
    (set_policySeq (Some cell) s)) as (Sp & Sq & Ss & Sr).
  apply created_stores; try done.
  - apply shaped_store; [by apply (shaped_same s); [apply Hok|..]|done|].
    rewrite fmap_app. apply NoDup_app. apply item_id_None in Hi.
    split_and!; [done|set_solver|apply NoDup_singleton].
  - intros k'. subst f. rewrite (policy_id_store _ _ _ _ g (Some (last_id s + 1))); [done|].
    intros g'. rewrite item_id_app, item_id_cons. cbn.
    change (items_of (set_policySeq _ s) (rt, rid)) with (items_of s (rt, rid)).
    case_decide; subst; [by rewrite Hi, decide_True|].
    rewrite decide_False by done. by destruct (item_id g' _).
Qed.

(** ** PutPolicy *)

Lemma put_items_absent items p g s :
  grantee_of (p_Principal p) = Some (GGroup g) -> item_id g items = None ->
  put_items items p s = (Ret false, s).
Proof.
  intros Hg. induction items as [|it items IH]; [done|]. rewrite item_id_cons.
  case_decide; [done|]. intros Hi. cbn [put_items].
  rewrite (bind_run _ _ _ _ _ (proj1 (proj2 (group_id_run _ _ _ Hg)))).
  rewrite (proj2 (Z.eqb_neq _ _)) by done. auto.
Qed.

Lemma put_items_present items p g id old s :
  grantee_of (p_Principal p) = Some (GGroup g) -> NoDup (GroupId <$> items) ->
  item_id g items = Some id -> policies s !! id = Some old ->
  put_items items p s = (Ret true, overwritten old p s).
Proof.
  intros Hg. induction items as [|it items IH]; [done|].
  rewrite item_id_cons, fmap_cons, NoDup_cons. intros [Hn Hnd] Hi Hold. cbn [put_items].
  rewrite (bind_run _ _ _ _ _ (proj1 (proj2 (group_id_run _ _ _ Hg)))).
  case_decide as Heq; simplify_eq.
  - rewrite Z.eqb_refl. unfold MustGetPolicyByID, GetPolicyByID.
    rewrite (bind_run _ _ s old s) by (rewrite bind_get; by rewrite Hold).
    rewrite (bind_run _ _ _ _ _ (updatePolicy_run _ _ _)).
    by rewrite (bind_run _ _ _ _ _
      (put_items_absent items p _ _ Hg (proj2 (item_id_None _ _) Hn))).
  - rewrite (proj2 (Z.eqb_neq _ _)) by done. by apply IH.
Qed.

(** What [PutPolicy] does, on every branch: a full policy group refuses the
    policy, even one that replaces a policy of the group; an existing policy
    is overwritten, and the id returned is the one in the argument; otherwise
    the policy gets the next id. *)
Definition put_spec (p : Policy) (k : GrantKey) (s : PermState) (r : outcome perm_error Z * PermState) :
    Prop :=
  if group_full s k then r = (Err ErrLimitExceeded, s)
  else match policy_id s k with
       | Some _ => exists s', r = (Ret (p_Id p), s') /\ stores s k (Some (granted p)) s'
       | None =>
           if last_id s + 1 <? 2 ^ 256
           then exists s', r = (Ret (last_id s + 1), s') /\ stores s k (Some (granted p)) s'
           else r.1 = Panic
       end.

Lemma target_grantee p rt rid g :
  target p = Some (rt, rid, g) ->
  p_ResourceType p = rt /\ p_ResourceId p = rid /\ grantee_of (p_Principal p) = Some g.
Proof. unfold target. by destruct (grantee_of _); intros ?; simplify_eq/=. Qed.

Lemma put_account s p rt rid a :
  perm_ok s -> target p = Some (rt, rid, GAccount a) -> rt <> RESOURCE_TYPE_UNSPECIFIED ->
  put_spec p (rt, rid, GAccount a) s (PutPolicy p s).
Proof.
  intros Hok Ht Hrt. destruct (target_grantee _ _ _ _ Ht) as (Ert & Erid & Hg).
  destruct (account_address_run _ _ s Hg) as (Etype & Haddr & _).
  unfold put_spec. cbn [group_full]. unfold PutPolicy. rewrite Etype.
  rewrite (bind_run _ _ _ _ _ Haddr), Ert, Erid.
  rewrite (bind_run _ _ _ _ _ (account_key_run _ _ _ _ Hrt)), bind_get.
  cbn [policy_id]. destruct (account_policies s !! (rt, rid, a)) as [id|] eqn:Eid.
  - destruct (l_index _ _ _ _ (ok_linked _ Hok) (rt, rid, GAccount a) id Eid) as (old & Hold & _).
    unfold MustGetPolicyByID, GetPolicyByID.
    rewrite (bind_run _ _ s old s) by (rewrite bind_get; by rewrite Hold).
    rewrite (bind_run _ _ _ _ _ (updatePolicy_run _ _ _)).
    eexists. split; [done|]. by eapply overwrite_stores.
  - pose proof (next_policy_id_run s (ok_seq _ Hok)) as Hnext.
    destruct (Z.ltb_spec (last_id s + 1) (2 ^ 256)).
    2: { unfold bind at 1. by rewrite Hnext. }
    destruct Hnext as (cell & Hnext & Hcell). rewrite (bind_run _ _ _ _ _ Hnext).
    exists (created (on_accounts (insert (rt, rid, a) (last_id s + 1))) cell (last_id s + 1) p s).
    split; [done|]. apply created_stores; try done.
    + split; [|apply (ok_shaped _ Hok)]. intros rt' rid' a'. cbn.
      rewrite lookup_insert_is_Some. intros [?|[_ ?]]; [by simplify_eq|].
      by eapply (sh_account _ (ok_shaped _ Hok)).
    + intros k'. by rewrite policy_id_insert_account.
Qed.

Lemma put_group s p rt rid g :
  perm_ok s -> target p = Some (rt, rid, GGroup g) ->
  rt = RESOURCE_TYPE_BUCKET \/ rt = RESOURCE_TYPE_OBJECT ->
  put_spec p (rt, rid, GGroup g) s (PutPolicy p s).
Proof.
  intros Hok Ht Hrt. destruct (target_grantee _ _ _ _ Ht) as (Ert & Erid & Hg).
  destruct (group_id_run _ _ s Hg) as (Etype & Hid & _).
  pose proof (append_policy_stores s rt rid g p Hok Ht Hrt) as Happ.
  unfold put_spec. cbn [group_full]. unfold PutPolicy. rewrite Etype, Ert, Erid.
  rewrite (bind_run _ _ _ _ _ (group_key_run _ _ _ Hrt)), bind_get.
  rewrite policy_id_items in *. unfold items_of in *.
  destruct (group_policies s !! (rt, rid)) as [items|] eqn:Eitems; [|by apply Happ].
  change (default [] (Some items)) with items in *. destruct (MaximumPolicyGroupSize s <=? _); [done|].
  rewrite (bind_run _ _ s tt s) by done. destruct (sh_group _ (ok_shaped _ Hok) _ _ _ Eitems) as (_ & _ & Hnd).
  destruct (item_id g items) as [id|] eqn:Ei.
  - assert (policy_id s (rt, rid, GGroup g) = Some id) as Hk by (cbn; by rewrite Eitems).
    destruct (l_index _ _ _ _ (ok_linked _ Hok) _ _ Hk) as (old & Hold & _).
    rewrite (bind_run _ _ _ _ _ (put_items_present items p g id old s Hg Hnd Ei Hold)).
    eexists. split; [done|]. by eapply overwrite_stores.
  - rewrite (bind_run _ _ _ _ _ (put_items_absent items p g s Hg Ei)). by apply Happ.
Qed.

Lemma PutPolicy_put s p k :
  perm_ok s -> target p = Some k -> keyed k = true -> put_spec p k s (PutPolicy p s).
Proof.
  destruct k as [[rt rid] [a|g]]; cbn; intros Hok Ht Hk.
  - apply put_account; [done..|]. by intros ->.
  - apply put_group; [done..|]. destruct rt; auto; done.
Qed.
End Refine.
