(* ===== verification/PermissionRemove.v ===== *)
(** * x/permission: the deletions refine the clearing of grants

    [DeletePolicy], the bulk deletions of a deleted resource and the removal
    of expired policies, run in a state that satisfies [perm_ok], keep it and
    clear exactly the grants they are to clear. *)

From S2P Require Import Prelude Bytes Grn Permission PermissionKeeper PermissionFacts.
From S2P Require Import PermissionRefine.

Section Remove.
Context `{AddressText, UintText}.

(** [s'] is [s] without the grants of [ks]. *)
Record clears (s : PermState) (ks : list GrantKey) (s' : PermState) : Prop := {
  c_ok : perm_ok s';
  c_rest : same_rest s s';
  c_index : forall k, policy_id s' k = if decide (k ∈ ks) then None else policy_id s k;
  c_grant : forall k, grant s' k = if decide (k ∈ ks) then None else grant s k;
}.

Lemma clears_nil s : perm_ok s -> clears s [] s.
Proof. intros Hok. by split; [|apply same_rest_refl|intros k; rewrite decide_False by set_solver..]. Qed.

Lemma clears_cons s k ks s1 s2 :
  clears s [k] s1 -> clears s1 ks s2 -> clears s (k :: ks) s2.
Proof.
  intros [? Hr1 Hi1 Hg1] [? Hr2 Hi2 Hg2]. split; [done|by eapply same_rest_trans|..].
  - intros k'. rewrite Hi2, Hi1.
    repeat case_decide; set_unfold; naive_solver.
  - intros k'. rewrite Hg2, Hg1.
    repeat case_decide; set_unfold; naive_solver.
Qed.

(** Removing one policy with its queue entry and its index *)
Lemma clears_one s s1 k id p :
  perm_ok s -> policy_id s k = Some id -> policies s !! id = Some p ->
  shaped s1 -> (forall k', policy_id s1 k' = fset k None (policy_id s) k') ->
  policies s1 = delete id (policies s) ->
  policy_queue s1 = match p_ExpirationTime p with
                    | None => policy_queue s
                    | Some e => delete (e, id) (policy_queue s)
                    end ->
  policySeq s1 = policySeq s -> same_rest s s1 -> clears s [k] s1.
Proof.
  intros Hok Hk Hp Hsh Hidx Hps Hq Hseq Hrest.
  destruct (perm_ok_remove s s1 Hok Hsh k id p) as [Hok1 Hgrant]; try done.
  { unfold last_id. by rewrite Hseq. }
  split; [done|done|..]; intros k'; rewrite ?Hidx, ?Hgrant; unfold fset;
    repeat case_decide; set_solver.
Qed.

(** The policy an index entry leads to *)
Lemma indexed_policy s k id :
  perm_ok s -> policy_id s k = Some id ->
  exists p, policies s !! id = Some p /\ target p = Some k /\ p_Id p = id.
Proof.
  intros Hok Hk. destruct (l_index _ _ _ _ (ok_linked _ Hok) _ _ Hk) as (p & Hp & Ht).
  exists p. split_and!; [done..|]. by destruct (l_policy _ _ _ _ (ok_linked _ Hok) _ _ Hp).
Qed.

Lemma drop_policy_fields s id p :
  policies s !! id = Some p -> p_Id p = id ->
  account_policies (drop_policy id s) = account_policies s /\
  group_policies (drop_policy id s) = group_policies s /\
  policies (drop_policy id s) = delete id (policies s) /\
  policy_queue (drop_policy id s) = match p_ExpirationTime p with
                                    | None => policy_queue s
                                    | Some e => delete (e, id) (policy_queue s)
                                    end /\
  policySeq (drop_policy id s) = policySeq s /\ same_rest s (drop_policy id s).
Proof.
  intros Hp Hid. unfold drop_policy, GetPolicyByID. rewrite Hp, Hid. unfold unset_queue.
  by destruct (p_ExpirationTime p).
Qed.

(** ** The writes of the index *)

Lemma shaped_delete_account s key : shaped s -> shaped (on_accounts (delete key) s).
Proof.
  intros [Ha Hg]. split; [|done]. intros rt rid a. cbn.
  rewrite lookup_delete_is_Some. intros [_ ?]. eauto.
Qed.

Lemma drop_account s rt rid a id :
  perm_ok s -> account_policies s !! (rt, rid, a) = Some id ->
  clears s [(rt, rid, GAccount a)] (on_accounts (delete (rt, rid, a)) (drop_policy id s)).
Proof.
  intros Hok Hk. destruct (indexed_policy s (rt, rid, GAccount a) id Hok Hk) as (p & Hp & _ & Hid).
  destruct (drop_policy_fields s id p Hp Hid) as (Ea & Eg & Ep & Eq & Es & Er).
  apply (clears_one s _ _ id p); try done.
  - apply shaped_delete_account. by apply (shaped_same s); [apply Hok|..].
  - intros k'. rewrite policy_id_delete_account. unfold fset. case_decide; [done|].
    by rewrite (policy_id_same s).
Qed.

Lemma drop_item s rt rid items i it :
  perm_ok s -> group_policies s !! (rt, rid) = Some items -> items !! i = Some it ->
  clears s [(rt, rid, GGroup (GroupId it))]
    (store_items (rt, rid) (remove_at i items) (drop_policy (PolicyId it) s)).
Proof.
  intros Hok Hitems Hi.
  destruct (sh_group _ (ok_shaped _ Hok) _ _ _ Hitems) as (Hrt & _ & Hnd).
  assert (policy_id s (rt, rid, GGroup (GroupId it)) = Some (PolicyId it)) as Hk.
  { cbn. rewrite Hitems. apply item_id_elem; [done|]. by eapply list_elem_of_lookup_2. }
  destruct (indexed_policy s _ _ Hok Hk) as (p & Hp & _ & Hid).
  destruct (drop_policy_fields s _ p Hp Hid) as (Ea & Eg & Ep & Eq & Es & Er).
  pose proof (item_id_remove_at (GroupId it) items i it Hnd Hi) as [_ Hnd'].
  destruct (store_items_fields (rt, rid) (remove_at i items) (drop_policy (PolicyId it) s))
    as (Sp & Sq & Ss & Sr).
  apply (clears_one s _ _ (PolicyId it) p); try done.
  - apply shaped_store; [|done..]. by apply (shaped_same s); [apply Hok|..].
  - intros k'. rewrite (policy_id_store _ _ _ _ (GroupId it) None).
    + unfold fset. case_decide; [done|]. by rewrite (policy_id_same s).
    + intros g'. unfold items_of. rewrite Eg, Hitems. cbn.
      by apply item_id_remove_at.
  - by rewrite Sp.
  - by rewrite Sq.
  - by rewrite Ss.
  - by eapply same_rest_trans.
Qed.

(** ** DeletePolicy *)

Lemma find_item_lookup g items i it :
  find_item g items = Some (i, it) ->
  items !! i = Some it /\ GroupId it = g /\ item_id g items = Some (PolicyId it).
Proof.
  intros Hf. unfold item_id. rewrite Hf. by apply list_find_Some in Hf as (? & ? & _).
Qed.

Lemma clears_absent s k : perm_ok s -> policy_id s k = None -> clears s [k] s.
Proof.
  intros Hok Hk. split; [done|apply same_rest_refl|..]; intros k'; case_decide as Hin; try done;
    apply list_elem_of_singleton in Hin; subst; unfold grant; by rewrite Hk.
Qed.

Lemma DeletePolicy_clears s pr rt rid g :
  perm_ok s -> grantee_of pr = Some g -> keyed (rt, rid, g) = true ->
  exists s', DeletePolicy pr rt rid s = (Ret (default 0 (policy_id s (rt, rid, g))), s') /\
             clears s [(rt, rid, g)] s'.
Proof.
  intros Hok Hg Hk. destruct g as [a|g].
  - destruct (account_address_run _ _ s Hg) as (Etype & _ & Haddr).
    assert (rt <> RESOURCE_TYPE_UNSPECIFIED) as Hrt by (intros ->; done).
    unfold DeletePolicy, GetPolicyForAccount. rewrite Etype, (bind_run _ _ _ _ _ Haddr).
    rewrite (bind_run _ _ s (account_policies s !! (rt, rid, a) ≫= fun id => policies s !! id) s).
    2: { rewrite (bind_run _ _ _ _ _ (account_key_run _ _ _ _ Hrt)), bind_get.
         cbn. by destruct (account_policies s !! _). }
    destruct (account_policies s !! (rt, rid, a)) as [id|] eqn:Eid; cbn [mbind option_bind].
    + destruct (indexed_policy s (rt, rid, GAccount a) id Hok Eid) as (p & Hp & _ & Hid).
      rewrite Hp, (bind_run _ _ _ _ _ (account_key_run _ _ _ _ Hrt)).
      exists (on_accounts (delete (rt, rid, a)) (drop_policy id s)). split; [|by apply drop_account].
      cbn [policy_id]. rewrite Eid. cbn. unfold drop_policy, GetPolicyByID. rewrite Hp, Hid.
      unfold unset_queue, bind, modify, ret. by destruct (p_ExpirationTime p).
    + exists s. cbn [policy_id]. rewrite Eid. split; [done|]. by apply clears_absent.
  - destruct (group_id_run _ _ s Hg) as (Etype & _ & Hid).
    assert (rt = RESOURCE_TYPE_BUCKET \/ rt = RESOURCE_TYPE_OBJECT) as Hrt
      by (destruct rt; auto; done).
    unfold DeletePolicy. rewrite Etype, (bind_run _ _ _ _ _ Hid).
    rewrite (bind_run _ _ _ _ _ (group_key_run _ _ _ Hrt)), bind_get.
    destruct (group_policies s !! (rt, rid)) as [items|] eqn:Eitems.
    2: { exists s. cbn [policy_id]. rewrite Eitems. split; [done|].
         apply clears_absent; [done|]. cbn. by rewrite Eitems. }
    destruct (find_item g items) as [[i it]|] eqn:Ef.
    + destruct (find_item_lookup _ _ _ _ Ef) as (Hi & <- & Eid).
      eexists. split; [|by eapply drop_item]. cbn [policy_id]. by rewrite Eitems, Eid.
    + exists s. assert (policy_id s (rt, rid, GGroup g) = None) as Hnone.
      { cbn. rewrite Eitems. unfold item_id. by rewrite Ef. }
      rewrite Hnone. split; [done|]. by apply clears_absent.
Qed.

(** ** Deleting the policies of a resource *)

(** How many more deletions the limit allows *)
Definition room (maxDelete deletedTotal : Z) : nat := Z.to_nat (maxDelete - deletedTotal).

Definition account_grant (key : AccountKey) : GrantKey := (key.1.1, key.1.2, GAccount key.2).
Definition item_grant (key : GroupKey) (it : PolicyGroup_Item) : GrantKey :=
  (key.1, key.2, GGroup (GroupId it)).

(** One more entry within the limit *)
Lemma room_step maxDelete tot len :
  0 <= tot < maxDelete -> maxDelete < two64 ->
  u64 (tot + 1) = tot + 1 /\
  (S len `min` room maxDelete tot)%nat = S (len `min` room maxDelete (tot + 1)).
Proof.
  intros Htot Hmax. split; [apply u64_id; unfold is_u64; lia|]. unfold room. lia.
Qed.

Lemma counted tot n len :
  (tot + 1 + Z.of_nat n, bool_decide (n = len)) =
  (tot + Z.of_nat (S n), bool_decide (S n = S len)).
Proof. f_equal; [lia|]. apply bool_decide_ext. lia. Qed.

Lemma delete_accounts_clears l maxDelete tot s :
  perm_ok s -> NoDup l.*1 ->
  (forall key id, (key, id) ∈ l -> account_policies s !! key = Some id) ->
  0 <= tot -> maxDelete < two64 ->
  let n := (length l `min` room maxDelete tot)%nat in
  exists s', delete_accounts l maxDelete tot s =
             (Ret (tot + Z.of_nat n, bool_decide (n = length l)), s') /\
             clears s (account_grant <$> take n l.*1) s'.
Proof.
  revert tot s. induction l as [|[key id] l IH]; intros tot s Hok Hnd Hl Htot Hmax.
  { exists s. cbn. rewrite Z.add_0_r. split; [done|by apply clears_nil]. }
  cbn [delete_accounts]. destruct (Z.leb_spec maxDelete tot).
  { exists s. unfold room. replace (Z.to_nat (maxDelete - tot)) with 0%nat by lia.
    rewrite Nat.min_0_r, Z.add_0_r. split; [done|by apply clears_nil]. }
  destruct (room_step maxDelete tot (length l) ltac:(lia) Hmax) as [Hu Hn].
  cbv zeta. cbn [length]. rewrite Hn, Hu.
  apply NoDup_cons in Hnd as [Hni Hnd]. cbn in Hni.
  assert (account_policies s !! key = Some id) as Hkey by (apply Hl; set_solver).
  destruct key as [[rt rid] a]. pose proof (drop_account s rt rid a id Hok Hkey) as Hc.
  set (s1 := on_accounts _ _) in Hc.
  destruct (IH (tot + 1) s1) as (s' & Hrun & Hc'); [apply Hc|done| |lia|done|].
  { intros [[rt' rid'] a'] id' Hin. pose proof (c_index _ _ _ Hc (rt', rid', GAccount a')) as Hi.
    cbn [policy_id] in Hi. rewrite Hi, decide_False; [apply Hl; set_solver|].
    intros Heq%list_elem_of_singleton. simplify_eq. apply Hni. by apply (list_elem_of_fmap_2' _ _ _ _ Hin). }
  exists s'. split; [|by eapply clears_cons].
  rewrite <- counted, <- Hrun. done.
Qed.

(** The loop over the items writes the index at its end: what the index
    holds meanwhile does not matter. *)
Lemma drop_store_items id key items s :
  drop_policy id (store_items key items s) = store_items key items (drop_policy id s).
Proof.
  unfold drop_policy, GetPolicyByID, unset_queue. destruct items as [|it items]; cbn;
    destruct (policies s !! id) as [p|]; try done; by destruct (p_ExpirationTime p).
Qed.

Lemma on_groups_over f key items s :
  (forall m x, f (<[key := x]> m) = f m) -> (forall m, f (delete key m) = f m) ->
  on_groups f (store_items key items s) = on_groups f s.
Proof.
  intros Hi Hd. unfold store_items, on_groups. destruct items; cbn; by rewrite ?Hi, ?Hd.
Qed.

Lemma delete_items_index key items items0 maxDelete tot s :
  delete_items key items maxDelete tot (store_items key items0 s) =
  delete_items key items maxDelete tot s.
Proof.
  revert tot s. induction items as [|it items IH]; intros tot s; cbn [delete_items].
  - unfold bind, modify. rewrite on_groups_over; [done|..]; intros.
    + apply delete_insert_eq.
    + apply delete_delete_eq.
  - destruct (_ <=? _).
    + unfold bind, modify. rewrite on_groups_over; [done|..]; intros.
      * apply insert_insert_eq.
      * apply insert_delete_eq.
    + unfold bind, modify. by rewrite drop_store_items, IH.
Qed.

Lemma on_groups_id f s : f (group_policies s) = group_policies s -> on_groups f s = s.
Proof. unfold on_groups. intros ->. by destruct s. Qed.

Lemma delete_items_clears rt rid items maxDelete tot s :
  perm_ok s -> items_of s (rt, rid) = items -> 0 <= tot -> maxDelete < two64 ->
  let n := (length items `min` room maxDelete tot)%nat in
  exists s', delete_items (rt, rid) items maxDelete tot s =
             (Ret (tot + Z.of_nat n, bool_decide (n = length items)), s') /\
             clears s (item_grant (rt, rid) <$> take n items) s'.
Proof.
  revert tot s. induction items as [|it items IH]; intros tot s Hok Hitems Htot Hmax;
    unfold items_of in Hitems; destruct (group_policies s !! (rt, rid)) as [l|] eqn:Eg;
    cbn in Hitems; subst; try done.
  - by destruct (sh_group _ (ok_shaped _ Hok) _ _ _ Eg) as (_ & ? & _).
  - exists s. cbn. rewrite Z.add_0_r. split; [|by apply clears_nil].
    unfold bind, modify, ret. f_equal. apply on_groups_id. by apply delete_id.
  - cbn [delete_items]. destruct (Z.leb_spec maxDelete tot).
    { exists s. unfold room. replace (Z.to_nat (maxDelete - tot)) with 0%nat by lia.
      rewrite Nat.min_0_r, Z.add_0_r. split; [|by apply clears_nil].
      unfold bind, modify, ret. f_equal. apply on_groups_id. by apply insert_id. }
    destruct (room_step maxDelete tot (length items) ltac:(lia) Hmax) as [Hu Hn].
    cbv zeta. cbn [length]. rewrite Hn, Hu.
    pose proof (drop_item s rt rid _ 0 it Hok Eg eq_refl) as Hc. cbn [remove_at take drop app] in Hc.
    destruct (IH (tot + 1) (store_items (rt, rid) items (drop_policy (PolicyId it) s)))
      as (s' & Hrun & Hc'); [apply Hc| |lia|done|].
    { by rewrite items_of_store, decide_True. }
    exists s'. split; [|by eapply clears_cons].
    rewrite <- counted, <- Hrun, delete_items_index. done.
Qed.

(** What a bulk deletion on one resource does: it clears grants of the kind
    [mine] of the resource, no more than the limit allows, and says whether
    it cleared them all. *)
Definition purges (mine : GrantKey -> Prop) (maxDelete tot : Z) (s : PermState)
    (r : outcome perm_error (Z * bool) * PermState) : Prop :=
  exists ks finished s',
    r = (Ret (tot + Z.of_nat (length ks), finished), s') /\ clears s ks s' /\
    Forall mine ks /\ (length ks <= room maxDelete tot)%nat /\
    if finished then forall k, mine k -> grant s' k = None
    else maxDelete <= tot + Z.of_nat (length ks).

Definition account_grant_of (rt : ResourceType) (rid : Z) (k : GrantKey) : Prop :=
  exists a, k = (rt, rid, GAccount a).
Definition group_grant_of (rt : ResourceType) (rid : Z) (k : GrantKey) : Prop :=
  exists g, k = (rt, rid, GGroup g).

(** From the loops: [all] lists every key of the kind, [n] of them are cleared. *)
Lemma purges_loop (mine : GrantKey -> Prop) maxDelete tot s s' all :
  let n := (length all `min` room maxDelete tot)%nat in
  clears s (take n all) s' -> Forall mine all -> 0 <= tot ->
  (forall k, mine k -> k ∉ all -> grant s k = None) ->
  purges mine maxDelete tot s (Ret (tot + Z.of_nat n, bool_decide (n = length all)), s').
Proof.
  intros n Hc Hmine Htot Hall. subst n. set (n := (_ `min` _)%nat) in *.
  assert (length (take n all) = n) as Hlen by (rewrite length_take; lia).
  exists (take n all), (bool_decide (n = length all)), s'. rewrite Hlen.
  split_and!; [done|done|by apply Forall_take|lia|]. case_bool_decide as Hn.
  - rewrite take_ge in Hc by lia. intros k Hk. rewrite (c_grant _ _ _ Hc).
    case_decide; [done|]. by apply Hall.
  - unfold room in *. lia.
Qed.

Lemma accounts_of_spec rt rid s :
  NoDup (accounts_of rt rid s).*1 /\
  forall key id, (key, id) ∈ accounts_of rt rid s <->
                 account_policies s !! key = Some id /\ key.1 = (rt, rid).
Proof.
  unfold accounts_of. split; [apply iterate_NoDup|]. intros key id.
  rewrite elem_of_iterate, map_lookup_filter_Some. done.
Qed.

Lemma ForceDeleteAccount_purges s maxDelete tot rt rid :
  perm_ok s -> rt <> RESOURCE_TYPE_UNSPECIFIED -> 0 <= tot -> maxDelete < two64 ->
  purges (account_grant_of rt rid) maxDelete tot s
    (ForceDeleteAccountPolicyForResource maxDelete tot rt rid s).
Proof.
  intros Hok Hrt Htot Hmax. unfold ForceDeleteAccountPolicyForResource.
  rewrite bool_decide_false, bind_get by done.
  destruct (accounts_of_spec rt rid s) as [Hnd Hin].
  destruct (delete_accounts_clears (accounts_of rt rid s) maxDelete tot s)
    as (s' & -> & Hc); [done|done| |done|done|].
  { intros key id [? _]%Hin. done. }
  rewrite fmap_take in Hc. rewrite <- (length_fmap fst), <- (length_fmap account_grant) in *.
  apply purges_loop; [done| |done|].
  - apply Forall_fmap, Forall_fmap, Forall_forall. intros [[[rt' rid'] a] id] [_ Heq]%Hin.
    cbn in *. simplify_eq. by exists a.
  - intros _ [a ->] Hni. unfold grant. cbn [policy_id].
    destruct (account_policies s !! (rt, rid, a)) as [id|] eqn:E; [|done]. destruct Hni.
    apply list_elem_of_fmap. exists (rt, rid, a). split; [done|].
    apply list_elem_of_fmap. exists (rt, rid, a, id). split; [done|]. by apply Hin.
Qed.

Lemma ForceDeleteGroup_purges s maxDelete tot rt rid :
  perm_ok s -> rt = RESOURCE_TYPE_BUCKET \/ rt = RESOURCE_TYPE_OBJECT ->
  0 <= tot -> maxDelete < two64 ->
  purges (group_grant_of rt rid) maxDelete tot s
    (ForceDeleteGroupPolicyForResource maxDelete tot rt rid s).
Proof.
  intros Hok Hrt Htot Hmax. unfold ForceDeleteGroupPolicyForResource.
  rewrite !bool_decide_false by (destruct Hrt; by subst). cbn [orb].
  rewrite (bind_run _ _ _ _ _ (group_key_run _ _ _ Hrt)), bind_get.
  destruct (group_policies s !! (rt, rid)) as [items|] eqn:Eg.
  - destruct (delete_items_clears rt rid items maxDelete tot s) as (s' & -> & Hc);
      [done|unfold items_of; by rewrite Eg|done|done|].
    rewrite fmap_take in Hc. rewrite <- (length_fmap (item_grant (rt, rid))) in *.
    apply purges_loop; [done| |done|].
    + apply Forall_fmap, Forall_forall. intros it _. by exists (GroupId it).
    + intros _ [g ->] Hni. unfold grant. cbn [policy_id]. rewrite Eg.
      assert (item_id g items = None) as ->; [|done]. apply item_id_None.
      intros (it & -> & Hit)%list_elem_of_fmap. apply Hni. by apply (list_elem_of_fmap_2 (item_grant (rt, rid))).
  - exists [], true, s. cbn. rewrite Z.add_0_r.
    split_and!; [done|by apply clears_nil|done|lia|]. intros _ [g ->].
    unfold grant. cbn [policy_id]. by rewrite Eg.
Qed.

(** ** Expiry *)

Lemma unindex_run s p id k :
  perm_ok s -> policies s !! id = Some p -> target p = Some k -> policy_id s k = Some id ->
  exists s', unindex p id (drop_policy id s) = (Ret tt, s') /\ clears s [k] s'.
Proof.
  intros Hok Hp Ht Hk. destruct (l_policy _ _ _ _ (ok_linked _ Hok) _ _ Hp) as (Hid & _).
  destruct (drop_policy_fields s id p Hp Hid) as (Ea & Eg & _).
  destruct k as [[rt rid] [a|g]]; destruct (target_grantee _ _ _ _ Ht) as (Ert & Erid & Hg).
  - destruct (account_address_run _ _ (drop_policy id s) Hg) as (Etype & Haddr & _).
    assert (rt <> RESOURCE_TYPE_UNSPECIFIED) as Hrt
      by (by eapply (sh_account _ (ok_shaped _ Hok)); exists id).
    unfold unindex. rewrite Etype, (bind_run _ _ _ _ _ Haddr), Ert, Erid.
    rewrite (bind_run _ _ _ _ _ (account_key_run _ _ _ _ Hrt)).
    eexists. split; [done|]. by apply drop_account.
  - destruct (group_id_run _ _ (drop_policy id s) Hg) as (Etype & _).
    cbn [policy_id] in Hk. destruct (group_policies s !! (rt, rid)) as [items|] eqn:Eitems; [|done].
    destruct (sh_group _ (ok_shaped _ Hok) _ _ _ Eitems) as (Hrt & _ & Hnd).
    unfold unindex. rewrite Etype, Ert, Erid.
    rewrite (bind_run _ _ _ _ _ (group_key_run _ _ _ Hrt)), bind_get, Eg, Eitems.
    assert (exists i it, list_find (fun it => PolicyId it = id) items = Some (i, it)) as (i & it & Hf).
    { unfold item_id in Hk. destruct (find_item g items) as [[j it]|] eqn:Ef; [|done].
      injection Hk as Hk. destruct (find_item_lookup _ _ _ _ Ef) as (Hj & _).
      destruct (list_find_elem_of (fun it => PolicyId it = id) items it) as [[i it'] Hf];
        [by eapply list_elem_of_lookup_2|done|]. by exists i, it'. }
    rewrite Hf. apply list_find_Some in Hf as (Hi & <- & _).
    assert (GroupId it = g) as <-.
    { assert (policy_id s (rt, rid, GGroup (GroupId it)) = Some (PolicyId it)) as Hk'.
      { cbn. rewrite Eitems. apply item_id_elem; [done|]. by eapply list_elem_of_lookup_2. }
      assert (policy_id s (rt, rid, GGroup g) = Some (PolicyId it)) as Hk0
        by (cbn; by rewrite Eitems).
      pose proof (linked_inj _ _ _ _ (ok_linked _ Hok) _ _ _ Hk' Hk0). by simplify_eq. }
    eexists. split; [done|]. by apply drop_item.
Qed.

(** [k] is the grantee of the policy of a queue entry. *)
Definition queued (s : PermState) (e : Z * Z) (k : GrantKey) : Prop :=
  policy_id s k = Some e.2 /\ exists l, grant s k = Some (l, Some e.1).

Lemma queued_of s t id :
  perm_ok s -> is_Some (policy_queue s !! (t, id)) ->
  exists p k, policies s !! id = Some p /\ p_ExpirationTime p = Some t /\
              target p = Some k /\ queued s (t, id) k.
Proof.
  intros Hok. rewrite (l_queue _ _ _ _ (ok_linked _ Hok)). intros (p & Hp & He).
  destruct (l_policy _ _ _ _ (ok_linked _ Hok) _ _ Hp) as (_ & _ & k & Ht & Hk).
  exists p, k. split_and!; try done. split; [done|]. exists (p_Statements p).
  unfold grant. rewrite Hk, Hp. cbn. unfold granted. by rewrite He.
Qed.

Lemma clears_queued s k ks s1 e k' :
  clears s ks s1 -> queued s1 e k' -> k ∈ ks -> queued s e k' /\ k' <> k.
Proof.
  intros Hc [Hk (l & Hg)] Hin. rewrite (c_index _ _ _ Hc) in Hk. rewrite (c_grant _ _ _ Hc) in Hg.
  case_decide; [done|]. split; [by split; [|exists l]|]. by intros ->.
Qed.

(** The other queue entries stay. *)
Lemma clears_keeps_queue s k s1 t id e :
  perm_ok s -> queued s (t, id) k -> clears s [k] s1 ->
  is_Some (policy_queue s !! e) -> e <> (t, id) -> is_Some (policy_queue s1 !! e).
Proof.
  destruct e as [t' id']. intros Hok [Hk (l & Hgk)] Hc He Hne. cbn [fst snd] in *.
  destruct (queued_of s t' id' Hok He) as (p' & k' & Hp' & He' & _ & [Hk' (l' & Hgk')]).
  cbn [fst snd] in *. apply (l_queue _ _ _ _ (ok_linked _ (c_ok _ _ _ Hc))).
  assert (k' <> k) as Hkk by (intros ->; congruence).
  assert (policy_id s1 k' = Some id') as Hk1
    by (rewrite (c_index _ _ _ Hc), decide_False; set_solver).
  destruct (l_index _ _ _ _ (ok_linked _ (c_ok _ _ _ Hc)) _ _ Hk1) as (p1 & Hp1 & _).
  exists p1. split; [done|]. pose proof (c_grant _ _ _ Hc k') as Hg.
  rewrite decide_False, Hgk' in Hg by set_solver. unfold grant in Hg.
  rewrite Hk1, Hp1 in Hg. by injection Hg.
Qed.

Lemma remove_expired_clears l count maxIteration s :
  perm_ok s -> NoDup l -> (forall e, e ∈ l -> is_Some (policy_queue s !! e)) ->
  0 <= count -> maxIteration < two64 ->
  exists ks s', remove_expired l count maxIteration s = (Ret tt, s') /\ clears s ks s' /\
                Forall2 (queued s) (take (room maxIteration count) l) ks.
Proof.
  revert count s. induction l as [|[t id] l IH]; intros count s Hok Hnd Hl Hcount Hmax.
  { exists [], s. rewrite take_nil. split_and!; [done|by apply clears_nil|constructor]. }
  cbn [remove_expired]. destruct (Z.leb_spec maxIteration count).
  { exists [], s. unfold room. replace (Z.to_nat (maxIteration - count)) with 0%nat by lia.
    split_and!; [done|by apply clears_nil|constructor]. }
  apply NoDup_cons in Hnd as [Hni Hnd].
  destruct (queued_of s t id Hok) as (p & k & Hp & He & Ht & Hq); [apply Hl; set_solver|].
  destruct (l_policy _ _ _ _ (ok_linked _ Hok) _ _ Hp) as (Hid & _).
  destruct (unindex_run s p id k Hok Hp Ht (proj1 Hq)) as (s1 & Hrun & Hc).
  assert (drop_policy id s = on_policies (delete id) (on_queue (delete (t, id)) s)) as Hdrop.
  { unfold drop_policy, GetPolicyByID. by rewrite Hp, He, Hid. }
  destruct (IH (count + 1) s1) as (ks & s' & Hrun' & Hc' & Hf); [apply Hc|done| |lia|done|].
  { intros e Hin. eapply clears_keeps_queue; [done..| |set_solver]. apply Hl. set_solver. }
  exists (k :: ks), s'. split_and!; [|by eapply clears_cons|].
  - unfold bind at 1, modify at 1. rewrite bind_get. cbn [policies on_queue]. rewrite Hp.
    unfold bind at 1, modify at 1. rewrite <- Hdrop, (bind_run _ _ _ _ _ Hrun).
    rewrite (proj1 (room_step maxIteration count 0 ltac:(lia) Hmax)). done.
  - replace (room maxIteration count) with (S (room maxIteration (count + 1))) by (unfold room; lia).
    cbn [take]. constructor; [done|]. eapply Forall2_impl; [exact Hf|].
    intros e k' Hq1. by apply (clears_queued s k [k] s1); [..|set_solver].
Qed.

Lemma expired_entries_spec blockTime s :
  NoDup (expired_entries blockTime s) /\
  forall t id, (t, id) ∈ expired_entries blockTime s <->
               is_Some (policy_queue s !! (t, id)) /\ t < blockTime.
Proof.
  unfold expired_entries. split; [apply iterate_NoDup|]. intros t id.
  rewrite list_elem_of_fmap. split.
  - intros ([[t' id'] []] & Heq & Hin). simplify_eq/=.
    by apply elem_of_iterate, map_lookup_filter_Some in Hin as [-> ?].
  - intros [[[] Hq] Ht]. exists (t, id, tt). split; [done|].
    by apply elem_of_iterate, map_lookup_filter_Some.
Qed.

Lemma RemoveExpiredPolicies_clears blockTime s :
  perm_ok s -> MaximumRemoveExpiredPoliciesIteration (GetParams s) < two64 ->
  exists ks s', RemoveExpiredPolicies blockTime s = (Ret tt, s') /\ clears s ks s' /\
    Forall2 (queued s)
      (take (room (MaximumRemoveExpiredPoliciesIteration (GetParams s)) 0)
         (expired_entries blockTime s)) ks.
Proof.
  intros Hok Hmax. destruct (expired_entries_spec blockTime s) as [Hnd Hin].
  unfold RemoveExpiredPolicies. rewrite bind_get.
  apply remove_expired_clears; [done..| |lia|done]. by intros [t id] [? _]%Hin.
Qed.
End Remove.
