(* ===== verification/StorageTypes.v ===== *)
(** * x/storage: types

    Buckets, objects and groups ([x/storage/types/types.pb.go],
    [common.pb.go]), the local virtual groups of a bucket
    ([InternalBucketInfo] and its methods in [types.go]), rate limits and the
    parameters the modelled functions read.  A slice of pointers is a list;
    a method that changes an element through its pointer changes the element
    it finds first.  A nil slice of checksums is the empty list, as it is
    after decoding; tags are left out. *)

From S2P Require Import Prelude Sdk.

(** ** Enumerations *)

Inductive VisibilityType : Type :=
| VISIBILITY_TYPE_UNSPECIFIED
| VISIBILITY_TYPE_PUBLIC_READ
| VISIBILITY_TYPE_PRIVATE
| VISIBILITY_TYPE_INHERIT
| VISIBILITY_TYPE_other (n : Z).

#[global] Instance VisibilityType_eq_dec : EqDecision VisibilityType.
Proof. solve_decision. Defined.

Inductive SourceType : Type :=
| SOURCE_TYPE_ORIGIN
| SOURCE_TYPE_MIRROR_PENDING
| SOURCE_TYPE_BSC_CROSS_CHAIN
| SOURCE_TYPE_OP_CROSS_CHAIN
| SOURCE_TYPE_POLYGON_CROSS_CHAIN
| SOURCE_TYPE_SCROLL_CROSS_CHAIN
| SOURCE_TYPE_LINEA_CROSS_CHAIN
| SOURCE_TYPE_MANTLE_CROSS_CHAIN
| SOURCE_TYPE_ARBITRUM_CROSS_CHAIN
| SOURCE_TYPE_OPTIMISM_CROSS_CHAIN
| SOURCE_TYPE_BASE_CROSS_CHAIN.

#[global] Instance SourceType_eq_dec : EqDecision SourceType.
Proof. solve_decision. Defined.

Inductive BucketStatus : Type :=
| BUCKET_STATUS_CREATED
| BUCKET_STATUS_DISCONTINUED
| BUCKET_STATUS_MIGRATING.

#[global] Instance BucketStatus_eq_dec : EqDecision BucketStatus.
Proof. solve_decision. Defined.

Inductive ObjectStatus : Type :=
| OBJECT_STATUS_CREATED
| OBJECT_STATUS_SEALED
| OBJECT_STATUS_DISCONTINUED.

#[global] Instance ObjectStatus_eq_dec : EqDecision ObjectStatus.
Proof. solve_decision. Defined.

(** ** Buckets, objects and groups *)

Record BucketInfo : Type := mkBucket {
  b_Owner : string;
  b_BucketName : string;
  b_Visibility : VisibilityType;
  b_Id : Z;
  b_SourceType : SourceType;
  b_CreateAt : Z;
  b_PaymentAddress : Addr;
  b_GvgFamilyId : Z;
  b_ChargedReadQuota : Z;
  b_BucketStatus : BucketStatus;
  b_SpAsDelegatedAgentDisabled : bool;
}.

Definition set_b_visibility v b := mkBucket (b_Owner b) (b_BucketName b) v (b_Id b)
  (b_SourceType b) (b_CreateAt b) (b_PaymentAddress b) (b_GvgFamilyId b) (b_ChargedReadQuota b)
  (b_BucketStatus b) (b_SpAsDelegatedAgentDisabled b).
Definition set_b_id v b := mkBucket (b_Owner b) (b_BucketName b) (b_Visibility b) v
  (b_SourceType b) (b_CreateAt b) (b_PaymentAddress b) (b_GvgFamilyId b) (b_ChargedReadQuota b)
  (b_BucketStatus b) (b_SpAsDelegatedAgentDisabled b).
Definition set_b_payment v b := mkBucket (b_Owner b) (b_BucketName b) (b_Visibility b) (b_Id b)
  (b_SourceType b) (b_CreateAt b) v (b_GvgFamilyId b) (b_ChargedReadQuota b)
  (b_BucketStatus b) (b_SpAsDelegatedAgentDisabled b).
Definition set_b_family v b := mkBucket (b_Owner b) (b_BucketName b) (b_Visibility b) (b_Id b)
  (b_SourceType b) (b_CreateAt b) (b_PaymentAddress b) v (b_ChargedReadQuota b)
  (b_BucketStatus b) (b_SpAsDelegatedAgentDisabled b).
Definition set_b_quota v b := mkBucket (b_Owner b) (b_BucketName b) (b_Visibility b) (b_Id b)
  (b_SourceType b) (b_CreateAt b) (b_PaymentAddress b) (b_GvgFamilyId b) v
  (b_BucketStatus b) (b_SpAsDelegatedAgentDisabled b).
Definition set_b_status v b := mkBucket (b_Owner b) (b_BucketName b) (b_Visibility b) (b_Id b)
  (b_SourceType b) (b_CreateAt b) (b_PaymentAddress b) (b_GvgFamilyId b) (b_ChargedReadQuota b)
  v (b_SpAsDelegatedAgentDisabled b).
Definition set_b_agent v b := mkBucket (b_Owner b) (b_BucketName b) (b_Visibility b) (b_Id b)
  (b_SourceType b) (b_CreateAt b) (b_PaymentAddress b) (b_GvgFamilyId b) (b_ChargedReadQuota b)
  (b_BucketStatus b) v.

Record ObjectInfo : Type := mkObject {
  ob_Owner : string;
  ob_Creator : string;
  ob_BucketName : string;
  ob_ObjectName : string;
  ob_Id : Z;
  ob_LocalVirtualGroupId : Z;
  ob_PayloadSize : Z;
  ob_Visibility : VisibilityType;
  ob_ContentType : string;
  ob_CreateAt : Z;
  ob_ObjectStatus : ObjectStatus;
  ob_RedundancyType : Z;
  ob_SourceType : SourceType;
  ob_Checksums : list (list Z);
  ob_IsUpdating : bool;
  ob_UpdatedAt : Z;
  ob_UpdatedBy : string;
  ob_Version : Z;
}.

Definition set_ob_lvg v o := mkObject (ob_Owner o) (ob_Creator o) (ob_BucketName o)
  (ob_ObjectName o) (ob_Id o) v (ob_PayloadSize o) (ob_Visibility o) (ob_ContentType o)
  (ob_CreateAt o) (ob_ObjectStatus o) (ob_RedundancyType o) (ob_SourceType o) (ob_Checksums o)
  (ob_IsUpdating o) (ob_UpdatedAt o) (ob_UpdatedBy o) (ob_Version o).
Definition set_ob_visibility v o := mkObject (ob_Owner o) (ob_Creator o) (ob_BucketName o)
  (ob_ObjectName o) (ob_Id o) (ob_LocalVirtualGroupId o) (ob_PayloadSize o) v (ob_ContentType o)
  (ob_CreateAt o) (ob_ObjectStatus o) (ob_RedundancyType o) (ob_SourceType o) (ob_Checksums o)
  (ob_IsUpdating o) (ob_UpdatedAt o) (ob_UpdatedBy o) (ob_Version o).
Definition set_ob_status v o := mkObject (ob_Owner o) (ob_Creator o) (ob_BucketName o)
  (ob_ObjectName o) (ob_Id o) (ob_LocalVirtualGroupId o) (ob_PayloadSize o) (ob_Visibility o)
  (ob_ContentType o) (ob_CreateAt o) v (ob_RedundancyType o) (ob_SourceType o) (ob_Checksums o)
  (ob_IsUpdating o) (ob_UpdatedAt o) (ob_UpdatedBy o) (ob_Version o).
Definition set_ob_checksums v o := mkObject (ob_Owner o) (ob_Creator o) (ob_BucketName o)
  (ob_ObjectName o) (ob_Id o) (ob_LocalVirtualGroupId o) (ob_PayloadSize o) (ob_Visibility o)
  (ob_ContentType o) (ob_CreateAt o) (ob_ObjectStatus o) (ob_RedundancyType o) (ob_SourceType o)
  v (ob_IsUpdating o) (ob_UpdatedAt o) (ob_UpdatedBy o) (ob_Version o).
Definition set_ob_updating v o := mkObject (ob_Owner o) (ob_Creator o) (ob_BucketName o)
  (ob_ObjectName o) (ob_Id o) (ob_LocalVirtualGroupId o) (ob_PayloadSize o) (ob_Visibility o)
  (ob_ContentType o) (ob_CreateAt o) (ob_ObjectStatus o) (ob_RedundancyType o) (ob_SourceType o)
  (ob_Checksums o) v (ob_UpdatedAt o) (ob_UpdatedBy o) (ob_Version o).

Record GroupInfo : Type := mkGroup {
  g_Owner : string;
  g_GroupName : string;
  g_Id : Z;
}.

(** The content of an object that is being updated. *)
Record ShadowObjectInfo : Type := mkShadow {
  sh_Operator : string;
  sh_Id : Z;
  sh_ContentType : string;
  sh_PayloadSize : Z;
  sh_Checksums : list (list Z);
  sh_UpdatedAt : Z;
  sh_Version : Z;
}.

Record MigrationBucketInfo : Type := mkMigration {
  mb_SrcSpId : Z;
  mb_SrcGvgFamilyId : Z;
  mb_DstSpId : Z;
  mb_BucketId : Z;
}.

Record GVGMapping : Type := mkMapping {
  gm_SrcGvgId : Z;
  gm_DstGvgId : Z;
  gm_Signature : list Z;
}.

(** [BucketFlowRateLimitStatus] *)
Record RateLimitStatus : Type := mkLimitStatus {
  IsBucketLimited : bool;
  ls_PaymentAddress : Addr;
}.

(** [ObjectInfo.GetLatestUpdatedTime] *)
Definition GetLatestUpdatedTime (o : ObjectInfo) : Z :=
  if negb (ob_UpdatedAt o =? 0) then ob_UpdatedAt o else ob_CreateAt o.

(** ** Local virtual groups *)

Record LocalVirtualGroup : Type := mkLvg {
  lvg_Id : Z;
  lvg_GvgId : Z;
  lvg_StoredSize : Z;
  lvg_TotalChargeSize : Z;
}.

Definition set_lvg_gvg v l := mkLvg (lvg_Id l) v (lvg_StoredSize l) (lvg_TotalChargeSize l).
Definition add_lvg_stored (d : Z) l :=
  mkLvg (lvg_Id l) (lvg_GvgId l) (u64 (lvg_StoredSize l + d)) (lvg_TotalChargeSize l).
Definition add_lvg_charge (d : Z) l :=
  mkLvg (lvg_Id l) (lvg_GvgId l) (lvg_StoredSize l) (u64 (lvg_TotalChargeSize l + d)).

Record InternalBucketInfo : Type := mkInternal {
  ib_PriceTime : Z;
  ib_TotalChargeSize : Z;
  LocalVirtualGroups : list LocalVirtualGroup;
}.

Definition set_price_time v ib := mkInternal v (ib_TotalChargeSize ib) (LocalVirtualGroups ib).
Definition add_total_charge (d : Z) ib :=
  mkInternal (ib_PriceTime ib) (u64 (ib_TotalChargeSize ib + d)) (LocalVirtualGroups ib).
Definition on_lvgs f ib :=
  mkInternal (ib_PriceTime ib) (ib_TotalChargeSize ib) (f (LocalVirtualGroups ib)).

(** Changes the first element that satisfies a test, as a loop that breaks. *)
Fixpoint modify_first {A} (p : A -> bool) (f : A -> A) (l : list A) : list A :=
  match l with
  | [] => []
  | x :: rest => if p x then f x :: rest else x :: modify_first p f rest
  end.

Definition is_lvg (id : Z) (l : LocalVirtualGroup) : bool := lvg_Id l =? id.
Definition is_on_gvg (gvgID : Z) (l : LocalVirtualGroup) : bool := lvg_GvgId l =? gvgID.

Definition GetLVG (lvgID : Z) ib : option LocalVirtualGroup :=
  List.find (is_lvg lvgID) (LocalVirtualGroups ib).
Definition GetLVGByGVGID (gvgID : Z) ib : option LocalVirtualGroup :=
  List.find (is_on_gvg gvgID) (LocalVirtualGroups ib).
Definition GetMaxLVGID ib : Z := default 0 (lvg_Id <$> last (LocalVirtualGroups ib)).

(** [None] when it panics: ids must grow. *)
Definition AppendLVG (l : LocalVirtualGroup) ib : option InternalBucketInfo :=
  match last (LocalVirtualGroups ib) with
  | Some lastLVG =>
      if lvg_Id l <=? lvg_Id lastLVG then None
      else Some (on_lvgs (fun ls => ls ++ [l]) ib)
  | None => Some (on_lvgs (fun ls => ls ++ [l]) ib)
  end.

Fixpoint delete_first {A} (p : A -> bool) (l : list A) : list A :=
  match l with
  | [] => []
  | x :: rest => if p x then rest else x :: delete_first p rest
  end.
Definition DeleteLVG (lvgID : Z) ib : InternalBucketInfo := on_lvgs (delete_first (is_lvg lvgID)) ib.

(** ** Parameters *)

Record StVersionedParams : Type := mkStVersioned {
  MaxSegmentSize : Z;
  RedundantDataChunkNum : Z;
  RedundantParityChunkNum : Z;
  MinChargeSize : Z;
}.

(** Without the relayer fees of mirrored resources, which nothing modelled
    reads. *)
Record StorageParams : Type := mkStorageParams {
  stp_Versioned : StVersionedParams;
  MaxPayloadSize : Z;
  MaxBucketsPerAccount : Z;
  DiscontinueCountingWindow : Z;
  DiscontinueObjectMax : Z;
  DiscontinueBucketMax : Z;
  DiscontinueConfirmPeriod : Z;
  DiscontinueDeletionMax : Z;
  StalePolicyCleanupMax : Z;
  MinQuotaUpdateInterval : Z;
  MaxLocalVirtualGroupNumPerBucket : Z;
}.

Definition zero_storage_params : StorageParams :=
  mkStorageParams (mkStVersioned 0 0 0 0) 0 0 0 0 0 0 0 0 0 0.

(** ** Options of the keeper's functions *)

Record Approval : Type := mkApproval {
  ap_ExpiredHeight : Z;
  ap_FamilyId : Z;
  ap_Sig : list Z;
}.

Record CreateBucketOptions : Type := mkCreateBucket {
  cb_Visibility : VisibilityType;
  cb_SourceType : SourceType;
  cb_ChargedReadQuota : Z;
  cb_PaymentAddress : string;
  cb_PrimarySpApproval : option Approval;
  cb_ApprovalMsgBytes : list Z;
}.

Record UpdateBucketOptions : Type := mkUpdateBucket {
  ub_Visibility : VisibilityType;
  ub_SourceType : SourceType;
  ub_PaymentAddress : string;
  ub_ChargedReadQuota : option Z;
}.

Record CreateObjectOptions : Type := mkCreateObject {
  co_Visibility : VisibilityType;
  co_ContentType : string;
  co_SourceType : SourceType;
  co_RedundancyType : Z;
  co_Checksums : list (list Z);
  co_Delegated : option Addr;
}.

Record CopyObjectOptions : Type := mkCopyObject {
  cp_SourceType : SourceType;
  cp_Visibility : VisibilityType;
  cp_PrimarySpApproval : option Approval;
  cp_ApprovalMsgBytes : list Z;
}.

Record SealObjectOptions : Type := mkSealObject {
  so_GvgId : Z;
  so_Signatures : list Z;
  so_Checksums : list (list Z);
}.

Record UpdateObjectOptions : Type := mkUpdateObject {
  uo_ContentType : string;
  uo_Checksums : list (list Z);
  uo_Delegated : option Addr;
}.
