(* ===== verification/StoragePermission.v ===== *)
(** * x/storage: permission checks

    [x/storage/keeper/permission.go], the policy messages of
    [x/storage/types/message.go] and their handlers in
    [x/storage/keeper/msg_server.go].  Of the storage module's own state
    these functions only read the name and id indexes of buckets, objects and
    groups ([Resources]); a name is looked up by its hash, which is taken to
    be injective. *)

From S2P Require Import Prelude Bytes StorageTypes Grn Permission PermissionKeeper.
From Stdlib Require Import Ascii.

(** ** Resources *)

Record Resources : Type := mkResources {
  bucket_ids : gmap string Z;
  buckets : gmap Z BucketInfo;
  object_ids : gmap (string * string) Z;
  objects : gmap Z ObjectInfo;
  group_ids : gmap (Z * string) Z;
  groups : gmap Z GroupInfo;
}.

Definition GetBucketInfo (st : Resources) (bucketName : string) : option BucketInfo :=
  match bucket_ids st !! bucketName with None => None | Some id => buckets st !! id end.
Definition GetObjectInfo (st : Resources) (bucketName objectName : string) : option ObjectInfo :=
  match object_ids st !! (bucketName, objectName) with None => None | Some id => objects st !! id end.
Definition GetGroupInfoById (st : Resources) (id : Z) : option GroupInfo := groups st !! id.
Definition GetGroupInfo (st : Resources) (owner : Z) (groupName : string) : option GroupInfo :=
  match group_ids st !! (owner, groupName) with None => None | Some id => GetGroupInfoById st id end.
Definition hasGroup (st : Resources) (id : Z) : bool := bool_decide (is_Some (groups st !! id)).

(** The block time, and whether the context carries transaction bytes. *)
Record PermCtx : Type := mkPermCtx {
  BlockTime : Z;
  in_tx : bool;
}.

Definition PublicReadBucketAllowedActions : list ActionType :=
  [ACTION_GET_OBJECT; ACTION_COPY_OBJECT; ACTION_EXECUTE_OBJECT; ACTION_LIST_OBJECT].
Definition PublicReadObjectAllowedActions : list ActionType :=
  [ACTION_GET_OBJECT; ACTION_COPY_OBJECT; ACTION_EXECUTE_OBJECT].

(** [strings.EqualFold] on ASCII texts *)
Definition lower (c : ascii) : ascii :=
  let n := N_of_ascii c in
  if (65 <=? n)%N && (n <=? 90)%N then ascii_of_N (n + 32) else c.
Fixpoint EqualFold (s t : string) : bool :=
  match s, t with
  | EmptyString, EmptyString => true
  | String c s', String d t' => Ascii.eqb (lower c) (lower d) && EqualFold s' t'
  | _, _ => false
  end.

Section Checks.
Context `{AddressText, UintText, Regexps} (st : Resources) (ctx : PermCtx).

(** A panic of the evaluation is a panic of the check. *)
Definition policy_eval (p : Policy) (action : ActionType) (opts : option VerifyOptions) :
    PM (Effect * option Policy) :=
  match Policy_Eval p action (BlockTime ctx) opts with None => panic | Some r => ret r end.

(** The deducted sizes are stored in a transaction only. *)
Definition save_policy (action : ActionType) (newPolicy : option Policy) : PM unit :=
  match newPolicy with
  | Some p => if bool_decide (action = ACTION_CREATE_OBJECT) && in_tx ctx
              then do! on_err (PutPolicy p) (fun _ => panic) ;; ret tt
              else ret tt
  | None => ret tt
  end.

Definition member_live (m : option GroupMember) : bool :=
  match m with
  | None => false
  | Some gm => match m_ExpirationTime gm with None => true | Some t => BlockTime ctx <? t end
  end.

(** The loop over the policy group: [None] when a group denies; otherwise
    whether a group allows, and the policy the last such group leaves. *)
Fixpoint verify_items (items : list PolicyGroup_Item) (operator : Z) (action : ActionType)
    (opts : option VerifyOptions) (allowed : bool) (allowedPolicy : option Policy) :
    PM (option (bool * option Policy)) :=
  match items with
  | [] => ret (Some (allowed, allowedPolicy))
  | it :: rest =>
      if negb (hasGroup st (GroupId it))
      then verify_items rest operator action opts allowed allowedPolicy
      else
        let! p := MustGetPolicyByID (PolicyId it) in
        let! (effect, newPolicy) := policy_eval p action opts in
        let! s := get in
        if negb (bool_decide (effect = EFFECT_UNSPECIFIED)) &&
           member_live (GetGroupMember (GroupId it) operator s)
        then match effect with
             | EFFECT_ALLOW => verify_items rest operator action opts true newPolicy
             | EFFECT_DENY => ret None
             | _ => verify_items rest operator action opts allowed allowedPolicy
             end
        else verify_items rest operator action opts allowed allowedPolicy
  end.

(** The policies granted to groups *)
Definition verify_groups (resourceID : Z) (resourceType : ResourceType) (operator : Z)
    (action : ActionType) (opts : option VerifyOptions) : PM Effect :=
  let! policyGroup := GetPolicyGroupForResource resourceID resourceType in
  match policyGroup with
  | None => ret EFFECT_UNSPECIFIED
  | Some items =>
      let! r := verify_items items operator action opts false None in
      match r with
      | None => ret EFFECT_DENY
      | Some (true, allowedPolicy) => do! save_policy action allowedPolicy ;; ret EFFECT_ALLOW
      | Some (false, _) => ret EFFECT_UNSPECIFIED
      end
  end.

Definition VerifyPolicy (resourceID : Z) (resourceType : ResourceType) (operator : Z)
    (action : ActionType) (opts : option VerifyOptions) : PM Effect :=
  let! policy := GetPolicyForAccount resourceID resourceType operator in
  match policy with
  | None => verify_groups resourceID resourceType operator action opts
  | Some p =>
      let! (effect, newPolicy) := policy_eval p action opts in
      if bool_decide (effect = EFFECT_UNSPECIFIED)
      then verify_groups resourceID resourceType operator action opts
      else
        do! (if bool_decide (effect = EFFECT_ALLOW) then save_policy action newPolicy else ret tt) ;;
        ret effect
  end.

(** ** The three checks; an empty operator is [None]. *)

Definition VerifyBucketPermission (bucketInfo : BucketInfo) (operator : option Z)
    (action : ActionType) (options : option VerifyOptions) : PM Effect :=
  if bool_decide (b_Visibility bucketInfo = VISIBILITY_TYPE_PUBLIC_READ) &&
     allowed_in PublicReadBucketAllowedActions action
  then ret EFFECT_ALLOW
  else match operator with
       | None => ret EFFECT_DENY
       | Some op =>
           let! owner := MustAccAddressFromHex (b_Owner bucketInfo) in
           if op =? owner then ret EFFECT_ALLOW
           else
             let! effect := VerifyPolicy (b_Id bucketInfo) RESOURCE_TYPE_BUCKET op action options in
             ret (if bool_decide (effect = EFFECT_ALLOW) then EFFECT_ALLOW else EFFECT_DENY)
       end.

Definition VerifyObjectPermission (bucketInfo : BucketInfo) (objectInfo : ObjectInfo)
    (operator : option Z) (action : ActionType) : PM Effect :=
  let visibility :=
    bool_decide (ob_Visibility objectInfo = VISIBILITY_TYPE_PUBLIC_READ) ||
    (bool_decide (ob_Visibility objectInfo = VISIBILITY_TYPE_INHERIT) &&
     bool_decide (b_Visibility bucketInfo = VISIBILITY_TYPE_PUBLIC_READ)) in
  if visibility && allowed_in PublicReadObjectAllowedActions action then ret EFFECT_ALLOW
  else match operator with
       | None => ret EFFECT_DENY
       | Some op =>
           let! owner := MustAccAddressFromHex (ob_Owner objectInfo) in
           if owner =? op then ret EFFECT_ALLOW
           else
             let opts := mkOptions
               (GRN_String (NewObjectGRN (ob_BucketName objectInfo) (ob_ObjectName objectInfo))) None in
             let! bucketEffect :=
               VerifyPolicy (b_Id bucketInfo) RESOURCE_TYPE_BUCKET op action (Some opts) in
             if bool_decide (bucketEffect = EFFECT_DENY) then ret EFFECT_DENY
             else
               let! objectEffect :=
                 VerifyPolicy (ob_Id objectInfo) RESOURCE_TYPE_OBJECT op action None in
               if bool_decide (objectEffect = EFFECT_DENY) then ret EFFECT_DENY
               else if bool_decide (bucketEffect = EFFECT_ALLOW) ||
                       bool_decide (objectEffect = EFFECT_ALLOW)
               then ret EFFECT_ALLOW else ret EFFECT_DENY
       end.

Definition VerifyGroupPermission (groupInfo : GroupInfo) (operator : Z) (action : ActionType) :
    PM Effect :=
  if EqualFold (g_Owner groupInfo) (acc_String operator) then ret EFFECT_ALLOW
  else
    let! effect := VerifyPolicy (g_Id groupInfo) RESOURCE_TYPE_GROUP operator action None in
    ret (if bool_decide (effect = EFFECT_ALLOW) then EFFECT_ALLOW else EFFECT_DENY).

(** ** Policies of a resource *)

Definition lift_grn {A} (r : grn_error + A) : PM A :=
  match r with inl e => fail (ErrGrn e) | inr a => ret a end.
Definition found {A} (o : option A) (e : perm_error) : PM A :=
  match o with None => fail e | Some a => ret a end.

Definition getResourceOwnerAndIDFromGRN (grn : GRN) : PM (Z * Z) :=
  match resType grn with
  | RESOURCE_TYPE_BUCKET =>
      let! bucketName := lift_grn (GetBucketName grn) in
      let! bucketInfo := found (GetBucketInfo st bucketName) ErrNoSuchBucket in
      let! owner := MustAccAddressFromHex (b_Owner bucketInfo) in
      ret (owner, b_Id bucketInfo)
  | RESOURCE_TYPE_OBJECT =>
      let! (bucketName, objectName) := lift_grn (GetBucketAndObjectName grn) in
      let! objectInfo := found (GetObjectInfo st bucketName objectName) ErrNoSuchObject in
      let! owner := MustAccAddressFromHex (ob_Owner objectInfo) in
      ret (owner, ob_Id objectInfo)
  | RESOURCE_TYPE_GROUP =>
      let! (groupOwner, groupName) := lift_grn (GetGroupOwnerAndAccount grn) in
      let! groupInfo := found (GetGroupInfo st groupOwner groupName) ErrNoSuchBucket in
      let! owner := MustAccAddressFromHex (g_Owner groupInfo) in
      ret (owner, g_Id groupInfo)
  | RESOURCE_TYPE_UNSPECIFIED => fail (ErrGrn ErrInvalidGRN)
  end.

Definition NormalizePrincipal (principal : Principal) : Principal :=
  match Type_ principal with
  | PRINCIPAL_TYPE_GNFD_GROUP =>
      match ParseUint (Value principal) with
      | Some _ => principal
      | None =>
          match ParseFromString (Value principal) false with
          | inl _ => principal
          | inr grn =>
              match GetGroupOwnerAndAccount grn with
              | inl _ => principal
              | inr (owner, groupName) =>
                  match GetGroupInfo st owner groupName with
                  | None => principal
                  | Some groupInfo => mkPrincipal (Type_ principal) (uint_String (g_Id groupInfo))
                  end
              end
          end
      end
  | _ => principal
  end.

Definition ValidatePrincipal (resOwner : Z) (principal : Principal) : PM unit :=
  match Type_ principal with
  | PRINCIPAL_TYPE_GNFD_ACCOUNT =>
      let! addr := GetAccountAddress principal in
      guard (addr =? resOwner) ErrGnfdInvalidPrincipal
  | PRINCIPAL_TYPE_GNFD_GROUP =>
      let! groupID := found (ParseUint (Value principal)) ErrParseUint in
      guard (negb (bool_decide (is_Some (GetGroupInfoById st groupID)))) ErrNoSuchGroup
  | _ => fail ErrInvalidPrincipal
  end.

Definition GetPolicy (grn : GRN) (principal : Principal) : PM Policy :=
  let! (_, resID) := getResourceOwnerAndIDFromGRN grn in
  let! policy :=
    match Type_ principal with
    | PRINCIPAL_TYPE_GNFD_ACCOUNT =>
        let! addr := MustGetAccountAddress principal in
        GetPolicyForAccount resID (resType grn) addr
    | PRINCIPAL_TYPE_GNFD_GROUP =>
        let! groupID := MustGetGroupID principal in
        GetPolicyForGroup resID (resType grn) groupID
    | _ => fail ErrInvalidPrincipal
    end in
  found policy ErrNoSuchPolicy.

(** [Keeper.PutPolicy] and [Keeper.DeletePolicy] of x/storage *)
Definition Storage_PutPolicy (operator : Z) (grn : GRN) (policy : Policy) : PM Z :=
  let! (resOwner, resID) := getResourceOwnerAndIDFromGRN grn in
  do! guard (negb (operator =? resOwner)) ErrAccessDenied ;;
  let principal := NormalizePrincipal (p_Principal policy) in
  do! ValidatePrincipal resOwner principal ;;
  PutPolicy (mkPolicy (p_Id policy) principal (p_ResourceType policy) resID (p_Statements policy)
               (p_ExpirationTime policy)).

Definition Storage_DeletePolicy (operator : Z) (principal : Principal) (grn : GRN) : PM Z :=
  let! (resOwner, resID) := getResourceOwnerAndIDFromGRN grn in
  do! guard (negb (operator =? resOwner)) ErrAccessDenied ;;
  DeletePolicy principal (resType grn) resID.

(** ** Messages *)

Record MsgPutPolicy : Type := mkMsgPutPolicy {
  mp_Operator : string;
  mp_Principal : option Principal;
  mp_Resource : string;
  mp_Statements : list Statement;
  mp_ExpirationTime : option Z;
}.

Record MsgDeletePolicy : Type := mkMsgDeletePolicy {
  md_Operator : string;
  md_Principal : option Principal;
  md_Resource : string;
}.

(** [true] when the Go function returns a nil error. *)
Definition group_to_group (p : Principal) (grn : GRN) : bool :=
  bool_decide (Type_ p = PRINCIPAL_TYPE_GNFD_GROUP) &&
  bool_decide (resType grn = RESOURCE_TYPE_GROUP).

Definition MsgPutPolicy_ValidateBasic (msg : MsgPutPolicy) : bool :=
  match AccAddressFromHexUnsafe (mp_Operator msg), ParseFromString (mp_Resource msg) true,
        mp_Principal msg with
  | Some _, inr grn, Some p =>
      negb (group_to_group p grn) && Principal_ValidateBasic p &&
      forallb (fun s => Statement_ValidateBasic s (resType grn)) (mp_Statements msg)
  | _, _, _ => false
  end.

(** The error of the second parse is ignored: the zero name has the
    unspecified type. *)
Definition MsgPutPolicy_ValidateRuntime (msg : MsgPutPolicy) : bool :=
  let rt := match ParseFromString (mp_Resource msg) true with
            | inl _ => RESOURCE_TYPE_UNSPECIFIED
            | inr grn => resType grn
            end in
  forallb (fun s => Statement_ValidateRuntime s rt) (mp_Statements msg).

Definition MsgDeletePolicy_ValidateBasic (msg : MsgDeletePolicy) : bool :=
  match AccAddressFromHexUnsafe (md_Operator msg), ParseFromString (md_Resource msg) false,
        md_Principal msg with
  | Some _, inr grn, Some p => negb (group_to_group p grn)
  | _, _, _ => false
  end.

Definition MsgDeletePolicy_ValidateRuntime (msg : MsgDeletePolicy) : bool :=
  match md_Principal msg with None => false | Some p => Principal_ValidateBasic p end.

(** [msgServer.PutPolicy], [msgServer.DeletePolicy]; [ValidateBasic] has
    refused a nil principal, which the keeper would panic on. *)
Definition Msg_PutPolicy (msg : MsgPutPolicy) : PM Z :=
  let! operatorAddr := MustAccAddressFromHex (mp_Operator msg) in
  let! grn := lift_grn (ParseFromString (mp_Resource msg) true) in
  do! guard (expired (mp_ExpirationTime msg) (BlockTime ctx)) ErrPermissionExpired ;;
  do! guard (existsb (fun s => expired (s_ExpirationTime s) (BlockTime ctx)) (mp_Statements msg))
        ErrPermissionExpired ;;
  match mp_Principal msg with
  | None => panic
  | Some principal =>
      Storage_PutPolicy operatorAddr grn
        (mkPolicy 0 principal (resType grn) 0 (mp_Statements msg) (mp_ExpirationTime msg))
  end.

Definition Msg_DeletePolicy (msg : MsgDeletePolicy) : PM Z :=
  let! operator := MustAccAddressFromHex (md_Operator msg) in
  let! grn := lift_grn (ParseFromString (md_Resource msg) false) in
  match md_Principal msg with
  | None => panic
  | Some principal => Storage_DeletePolicy operator principal grn
  end.
End Checks.
