(* ===== verification/PermissionEval.v ===== *)
(** * x/permission: what a policy allows

    A declarative reading of [Statement.Eval] and [Policy.Eval]: which
    statements apply, that a denial wins over any allowance whatever the
    order of the statements, and which size limits are charged. *)

From S2P Require Import Prelude Grn Permission.

Section Eval.
Context `{Regexps} (action : ActionType) (blockTime : Z) (opts : option VerifyOptions).

(** ** Statements *)

(** The sub-resource asked for, if any, matches a pattern of the statement. *)
Definition matches_resource (s : Statement) : bool :=
  bool_decide (opts_resource opts = EmptyString) ||
  existsb (fun r => match regexp_Compile r with
                    | None => false
                    | Some f => f (opts_resource opts)
                    end) (s_Resources s).

Definition matches_action (s : Statement) : bool :=
  existsb (fun a => bool_decide (a = action) || bool_decide (a = ACTION_TYPE_ALL)) (s_Actions s).

Definition applies (s : Statement) : bool := matches_resource s && matches_action s.

(** The limit and the size wanted, when the limit is to be enforced *)
Definition limited (s : Statement) : option (Z * Z) :=
  match s_LimitSize s, opts_size opts with
  | Some limit, Some wanted =>
      if bool_decide (action = ACTION_CREATE_OBJECT) then Some (limit, wanted) else None
  | _, _ => None
  end.

Definition statement_effect (s : Statement) : Effect :=
  if negb (applies s) then EFFECT_UNSPECIFIED
  else if bool_decide (s_Effect s = EFFECT_DENY) then EFFECT_DENY
  else match limited s with
       | None => s_Effect s
       | Some (limit, wanted) => if wanted <=? limit then EFFECT_ALLOW else EFFECT_DENY
       end.

(** The size the statement is charged *)
Definition charge (s : Statement) : option Z :=
  if applies s && negb (bool_decide (s_Effect s = EFFECT_DENY)) then
    match limited s with
    | None => None
    | Some (limit, wanted) => if wanted <=? limit then Some wanted else None
    end
  else None.

Definition charged (s : Statement) : Statement :=
  match charge s, s_LimitSize s with
  | Some wanted, Some limit => with_limit s (limit - wanted)
  | _, _ => s
  end.

(** The limits and the size asked for are [uint64]s, and the patterns compile. *)
Definition well_formed (s : Statement) : Prop :=
  Forall (fun r => is_Some (regexp_Compile r)) (s_Resources s) /\
  match s_LimitSize s with None => True | Some limit => is_u64 limit = true end.

Definition size_ok : Prop :=
  match opts_size opts with None => True | Some wanted => is_u64 wanted = true end.

Lemma match_resources_compiled l res :
  Forall (fun r => is_Some (regexp_Compile r)) l ->
  match_resources l res =
  Some (existsb (fun r => match regexp_Compile r with None => false | Some f => f res end) l).
Proof.
  induction 1 as [|r l [f Hf] Hl IH]; [done|]. cbn [match_resources existsb]. rewrite Hf.
  by destruct (f res).
Qed.

Lemma eval_actions_spec s :
  well_formed s -> size_ok -> matches_resource s = true ->
  eval_actions s action opts = (statement_effect s, (fun _ => charged s) <$> charge s).
Proof.
  intros [_ Hlimit] Hsize Hres. unfold eval_actions, statement_effect, charged, charge, applies.
  unfold size_ok in Hsize. rewrite Hres. cbn [andb]. unfold matches_action, limited.
  destruct (existsb _ (s_Actions s)); cbn [negb andb]; [|done].
  case_bool_decide; cbn [negb]; [done|].
  destruct (s_LimitSize s) as [limit|]; [|by case_bool_decide].
  destruct (opts_size opts) as [wanted|]; [|by case_bool_decide].
  case_bool_decide; [|done]. destruct (Z.leb_spec wanted limit); [|done].
  cbn. do 3 f_equal. apply u64_id. unfold is_u64 in *. lia.
Qed.

Lemma Statement_Eval_spec s :
  well_formed s -> size_ok ->
  Statement_Eval s action opts = Some (statement_effect s, (fun _ => charged s) <$> charge s).
Proof.
  intros Hwf Hsize. pose proof (eval_actions_spec s Hwf Hsize) as Heval.
  unfold Statement_Eval. unfold matches_resource in Heval.
  case_bool_decide as Hres; [by rewrite Heval|]. cbn [orb] in Heval.
  assert (existsb (fun r => match regexp_Compile r with
                            | None => false | Some f => f (opts_resource opts) end)
            (s_Resources s) = false -> statement_effect s = EFFECT_UNSPECIFIED /\ charge s = None)
    as Hno.
  { intros Hm. unfold statement_effect, charge, applies, matches_resource.
    rewrite Hm, bool_decide_false by done. done. }
  destruct (s_Resources s) as [|r l] eqn:El.
  - destruct (Hno eq_refl) as [-> ->]. done.
  - rewrite <- El in *. rewrite match_resources_compiled by apply Hwf.
    destruct (existsb _ (s_Resources s)); [by rewrite Heval|].
    destruct (Hno eq_refl) as [-> ->]. done.
Qed.

(** ** Policies *)

Definition live (s : Statement) : bool := negb (expired (s_ExpirationTime s) blockTime).

Definition effects (l : list Statement) : list Effect :=
  statement_effect <$> filter (fun s => live s = true) l.

(** A denial wins, then an allowance. *)
Definition combine_effects (l : list Effect) : Effect :=
  if bool_decide (EFFECT_DENY ∈ l) then EFFECT_DENY
  else if bool_decide (EFFECT_ALLOW ∈ l) then EFFECT_ALLOW
  else EFFECT_UNSPECIFIED.

#[global] Instance combine_effects_perm : Proper ((≡ₚ) ==> eq) combine_effects.
Proof.
  intros l1 l2 Hl. unfold combine_effects.
  by rewrite (bool_decide_ext (EFFECT_DENY ∈ l1) (EFFECT_DENY ∈ l2)),
    (bool_decide_ext (EFFECT_ALLOW ∈ l1) (EFFECT_ALLOW ∈ l2)) by (by rewrite Hl).
Qed.

Definition charged_live (s : Statement) : Statement := if live s then charged s else s.
Definition is_charged (s : Statement) : bool := live s && bool_decide (is_Some (charge s)).

Lemma effects_cons s l :
  effects (s :: l) = if live s then statement_effect s :: effects l else effects l.
Proof.
  unfold effects. rewrite filter_cons. destruct (live s); [by rewrite decide_True|].
  by rewrite decide_False.
Qed.

Lemma elem_of_effects_cons (e e' : Effect) (l : list Effect) :
  bool_decide (e ∈ e' :: l) = bool_decide (e' = e) || bool_decide (e ∈ l).
Proof. repeat case_bool_decide; rewrite elem_of_cons in *; naive_solver. Qed.

Lemma eval_statements_spec todo past allowed updated :
  Forall well_formed (filter (fun s => live s = true) todo) -> size_ok ->
  eval_statements todo past allowed updated action blockTime opts =
  Some (if bool_decide (EFFECT_DENY ∈ effects todo) then (EFFECT_DENY, None)
        else if allowed || bool_decide (EFFECT_ALLOW ∈ effects todo)
        then (EFFECT_ALLOW, if updated || existsb is_charged todo
                            then Some (past ++ (charged_live <$> todo)) else None)
        else (EFFECT_UNSPECIFIED, None)).
Proof.
  intros Hwf Hsize. revert past allowed updated Hwf.
  induction todo as [|s todo IH]; intros past allowed updated Hwf; cbn [eval_statements].
  - by rewrite !bool_decide_false, !orb_false_r, app_nil_r by (apply not_elem_of_nil).
  - rewrite effects_cons. cbn [existsb fmap list_fmap]. unfold is_charged at 1, charged_live at 1.
    rewrite filter_cons in Hwf.
    replace (expired (s_ExpirationTime s) blockTime) with (negb (live s))
      by (unfold live; apply negb_involutive).
    destruct (live s); cbn [negb andb].
    + rewrite decide_True in Hwf by done. apply Forall_cons in Hwf as [Hs Hwf].
      rewrite Statement_Eval_spec by done. rewrite !elem_of_effects_cons.
      destruct (bool_decide (statement_effect s = EFFECT_DENY)); [done|]. rewrite IH by done. rewrite <- app_assoc. cbn [orb app].
      assert (default s ((fun _ => charged s) <$> charge s) = charged s) as ->
        by (unfold charged; by destruct (charge s)).
      rewrite (bool_decide_ext (is_Some ((fun _ => charged s) <$> charge s)) (is_Some (charge s)))
        by (apply fmap_is_Some). by rewrite !orb_assoc.
    + rewrite decide_False in Hwf by done. rewrite IH by done. by rewrite <- app_assoc.
Qed.

(** The effect of a policy, and the statements it leaves. *)
Definition policy_effect (p : Policy) : Effect :=
  if expired (p_ExpirationTime p) blockTime then EFFECT_UNSPECIFIED
  else combine_effects (effects (p_Statements p)).

Definition policy_well_formed (p : Policy) : Prop :=
  Forall well_formed (filter (fun s => live s = true) (p_Statements p)).

Lemma Policy_Eval_spec p :
  policy_well_formed p -> size_ok ->
  Policy_Eval p action blockTime opts =
  Some (policy_effect p,
        if bool_decide (policy_effect p = EFFECT_ALLOW) && existsb is_charged (p_Statements p)
        then Some (with_statements p (charged_live <$> p_Statements p)) else None).
Proof.
  intros Hwf Hsize. unfold Policy_Eval, policy_effect.
  destruct (expired (p_ExpirationTime p) blockTime); [done|].
  rewrite eval_statements_spec by done. unfold combine_effects. cbn [orb app].
  repeat case_bool_decide; try done. cbn. by case_match.
Qed.
End Eval.
