(* ===== verification/StoragePermissionFacts.v ===== *)
(** * x/storage: what the permission checks decide

    The verdict on an operator, as a function of the grants: the policy
    granted to the account decides when it says anything; otherwise a denial
    by any live group membership wins over an allowance.  [VerifyPolicy]
    returns this verdict, and charges the size limits of the policy that
    allowed. *)

From S2P Require Import Prelude Bytes Grn Permission PermissionKeeper PermissionFacts.
From S2P Require Import PermissionRefine PermissionRemove PermissionEval StoragePermission.

Section Verdict.
Context `{AddressText, UintText, Regexps} (st : Resources) (ctx : PermCtx).

(** Every stored statement has patterns that compile and a 64-bit limit. *)
Definition policies_wf (s : PermState) : Prop :=
  map_Forall (fun _ p => Forall well_formed (p_Statements p)) (policies s).

Definition policy_at (s : PermState) (k : GrantKey) : option Policy :=
  match policy_id s k with None => None | Some id => policies s !! id end.

Section Query.
Context (action : ActionType) (opts : option VerifyOptions).

Definition effect_at (s : PermState) (k : GrantKey) : Effect :=
  match policy_at s k with
  | None => EFFECT_UNSPECIFIED
  | Some p => policy_effect action (BlockTime ctx) opts p
  end.

(** The groups of the resource's policy group that count for the operator *)
Definition counts (s : PermState) (op : Z) (it : PolicyGroup_Item) : bool :=
  hasGroup st (GroupId it) && member_live ctx (GetGroupMember (GroupId it) op s).

Definition effects_of (s : PermState) (rt : ResourceType) (rid op : Z)
    (items : list PolicyGroup_Item) : list Effect :=
  (fun it => effect_at s (rt, rid, GGroup (GroupId it))) <$>
    filter (fun it => counts s op it = true) items.

Definition group_effects (s : PermState) (rt : ResourceType) (rid op : Z) : list Effect :=
  effects_of s rt rid op (items_of s (rt, rid)).

Lemma effects_of_cons s rt rid op it items :
  effects_of s rt rid op (it :: items) =
  if counts s op it
  then effect_at s (rt, rid, GGroup (GroupId it)) :: effects_of s rt rid op items
  else effects_of s rt rid op items.
Proof.
  unfold effects_of. rewrite filter_cons. destruct (counts s op it);
    [by rewrite decide_True|by rewrite decide_False].
Qed.

Definition verdict (s : PermState) (rt : ResourceType) (rid op : Z) : Effect :=
  match effect_at s (rt, rid, GAccount op) with
  | EFFECT_UNSPECIFIED => combine_effects (group_effects s rt rid op)
  | e => e
  end.

Lemma policy_effect_cases p :
  policy_effect action (BlockTime ctx) opts p ∈ [EFFECT_UNSPECIFIED; EFFECT_ALLOW; EFFECT_DENY].
Proof. unfold policy_effect, combine_effects. repeat case_match; set_solver. Qed.

(** The statements a policy is left with *)
Definition after_charge (p : Policy) : option Policy :=
  if bool_decide (policy_effect action (BlockTime ctx) opts p = EFFECT_ALLOW) &&
     existsb (is_charged action (BlockTime ctx) opts) (p_Statements p)
  then Some (with_statements p (charged_live action (BlockTime ctx) opts <$> p_Statements p))
  else None.

Lemma policy_eval_run p s :
  Forall well_formed (p_Statements p) -> size_ok opts ->
  policy_eval ctx p action opts s =
  (Ret (policy_effect action (BlockTime ctx) opts p, after_charge p), s).
Proof.
  intros Hwf Hsize. unfold policy_eval. rewrite Policy_Eval_spec; [done| |done].
  unfold policy_well_formed. apply Forall_forall. intros x [_ Hx]%list_elem_of_filter.
  by eapply Forall_forall in Hwf.
Qed.

(** ** Reading the policies *)

Lemma GetPolicyForAccount_run s rid rt op :
  rt <> RESOURCE_TYPE_UNSPECIFIED ->
  GetPolicyForAccount rid rt op s = (Ret (policy_at s (rt, rid, GAccount op)), s).
Proof.
  intros Hrt. unfold GetPolicyForAccount.
  by rewrite (bind_run _ _ _ _ _ (account_key_run _ _ _ _ Hrt)), bind_get.
Qed.

Lemma policy_at_item s rt rid items it :
  perm_ok s -> group_policies s !! (rt, rid) = Some items -> it ∈ items ->
  exists p, policies s !! PolicyId it = Some p /\
            policy_at s (rt, rid, GGroup (GroupId it)) = Some p.
Proof.
  intros Hok Hitems Hit. destruct (sh_group _ (ok_shaped _ Hok) _ _ _ Hitems) as (_ & _ & Hnd).
  assert (policy_id s (rt, rid, GGroup (GroupId it)) = Some (PolicyId it)) as Hk
    by (cbn; rewrite Hitems; by apply item_id_elem).
  destruct (indexed_policy s _ _ Hok Hk) as (p & Hp & _). exists p.
  unfold policy_at. by rewrite Hk.
Qed.

Lemma policies_wf_at s k p :
  policies_wf s -> policy_at s k = Some p -> Forall well_formed (p_Statements p).
Proof.
  unfold policy_at. intros Hwf. destruct (policy_id s k) as [id|]; [|done]. apply Hwf.
Qed.

(** ** The policy group *)

(** The policy the last allowing group leaves *)
Definition last_charge (s : PermState) (rt : ResourceType) (rid : Z) (items : list PolicyGroup_Item)
    (op : Z) (acc : option Policy) : option Policy :=
  foldl (fun acc it =>
    if counts s op it && bool_decide (effect_at s (rt, rid, GGroup (GroupId it)) = EFFECT_ALLOW)
    then policy_at s (rt, rid, GGroup (GroupId it)) ≫= after_charge else acc) acc items.

Lemma verify_items_run s rt rid items op todo allowed acc :
  perm_ok s -> policies_wf s -> size_ok opts -> group_policies s !! (rt, rid) = Some items ->
  todo ⊆ items ->
  verify_items st ctx todo op action opts allowed acc s =
  (Ret (if bool_decide (EFFECT_DENY ∈ effects_of s rt rid op todo) then None
        else Some (allowed || bool_decide (EFFECT_ALLOW ∈ effects_of s rt rid op todo),
                   last_charge s rt rid todo op acc)), s).
Proof.
  intros Hok Hwf Hsize Hitems. revert allowed acc.
  induction todo as [|it todo IH]; intros allowed acc Hsub; cbn [verify_items].
  { by rewrite !bool_decide_false, orb_false_r by (apply not_elem_of_nil). }
  assert (todo ⊆ items) as Hsub' by set_solver.
  destruct (policy_at_item s rt rid items it Hok Hitems) as (p & Hp & Hat); [set_solver|].
  pose proof (policy_eval_run p s (Hwf _ _ Hp) Hsize) as Heval.
  pose proof (policy_effect_cases p) as Hcases.
  assert (effect_at s (rt, rid, GGroup (GroupId it)) =
          policy_effect action (BlockTime ctx) opts p) as Heff
    by (unfold effect_at; by rewrite Hat).
  unfold last_charge. cbn [foldl]. fold (last_charge s rt rid todo op).
  rewrite effects_of_cons, Heff, Hat.
  destruct (hasGroup st (GroupId it)) eqn:Ehas; cbn [negb].
  2: { assert (counts s op it = false) as -> by (unfold counts; by rewrite Ehas). by apply IH. }
  unfold MustGetPolicyByID, GetPolicyByID.
  rewrite (bind_run _ _ s p s) by (rewrite bind_get; by rewrite Hp).
  rewrite (bind_run _ _ _ _ _ Heval), bind_get.
  assert (counts s op it = member_live ctx (GetGroupMember (GroupId it) op s)) as ->
    by (unfold counts; by rewrite Ehas).
  destruct (member_live ctx _); [rewrite andb_true_r|rewrite andb_false_r; by apply IH].
  rewrite !elem_of_effects_cons. cbn [andb mbind option_bind].
  set_unfold in Hcases. destruct Hcases as [-> | [-> | [-> | []]]].
  - rewrite !bool_decide_true, !(bool_decide_false (EFFECT_UNSPECIFIED = _)) by done. by apply IH.
  - rewrite !(bool_decide_false (EFFECT_ALLOW = EFFECT_DENY)),
      !(bool_decide_false (EFFECT_ALLOW = EFFECT_UNSPECIFIED)),
      !(bool_decide_true (EFFECT_ALLOW = EFFECT_ALLOW)) by done.
    cbn [negb orb]. rewrite IH, orb_true_r by done. done.
  - done.
Qed.

(** ** Checks that charge nothing *)

Definition reads_only : Prop :=
  opts_size opts = None \/ action <> ACTION_CREATE_OBJECT \/ in_tx ctx = false.

Lemma after_charge_None p : opts_size opts = None -> after_charge p = None.
Proof.
  intros Hsize. unfold after_charge. destruct (existsb _ _) eqn:E; [|by rewrite andb_false_r].
  apply existsb_exists in E as (x & _ & Hx). unfold is_charged in Hx.
  apply andb_true_iff in Hx as [_ Hx]. apply bool_decide_eq_true in Hx as [w Hw].
  unfold charge, limited in Hw. rewrite Hsize in Hw. repeat case_match; done.
Qed.

Lemma last_charge_None s rt rid items op :
  opts_size opts = None -> last_charge s rt rid items op None = None.
Proof.
  intros Hsize. unfold last_charge. induction items as [|it items IH]; [done|].
  cbn [foldl]. destruct (_ && _); [|done]. destruct (policy_at s _); [|done].
  cbn [mbind option_bind]. by rewrite after_charge_None.
Qed.

Lemma save_policy_pure np s :
  (opts_size opts = None -> np = None) -> reads_only -> save_policy ctx action np s = (Ret tt, s).
Proof.
  intros Hnp Hread. unfold save_policy. destruct np as [p|]; [|done].
  destruct Hread as [Hs|[Ha|Ht]].
  - by specialize (Hnp Hs).
  - by rewrite bool_decide_false.
  - by rewrite Ht, andb_false_r.
Qed.

Lemma verify_groups_verdict s rt rid op :
  perm_ok s -> policies_wf s -> size_ok opts -> reads_only ->
  rt = RESOURCE_TYPE_BUCKET \/ rt = RESOURCE_TYPE_OBJECT ->
  verify_groups st ctx rid rt op action opts s =
  (Ret (combine_effects (group_effects s rt rid op)), s).
Proof.
  intros Hok Hwf Hsize Hread Hrt. unfold verify_groups, GetPolicyGroupForResource.
  rewrite (bind_run _ _ s (group_policies s !! (rt, rid)) s)
    by (by rewrite (bind_run _ _ _ _ _ (group_key_run _ _ _ Hrt))).
  unfold group_effects, items_of. destruct (group_policies s !! (rt, rid)) as [items|] eqn:Ei.
  2: { unfold combine_effects. by rewrite !bool_decide_false by (apply not_elem_of_nil). }
  rewrite (bind_run _ _ _ _ _ (verify_items_run s rt rid items op items false None
    Hok Hwf Hsize Ei (reflexivity _))).
  change (default [] (Some items)) with items. unfold combine_effects.
  case_bool_decide; [done|]. cbn [orb]. case_bool_decide; [|done].
  rewrite (bind_run _ _ _ _ _ (save_policy_pure _ s (last_charge_None _ _ _ _ _) Hread)). done.
Qed.

Lemma VerifyPolicy_verdict s rt rid op :
  perm_ok s -> policies_wf s -> size_ok opts -> reads_only -> rt <> RESOURCE_TYPE_UNSPECIFIED ->
  VerifyPolicy st ctx rid rt op action opts s =
  (if bool_decide (effect_at s (rt, rid, GAccount op) = EFFECT_UNSPECIFIED) &&
      bool_decide (rt = RESOURCE_TYPE_GROUP)
   then Panic else Ret (verdict s rt rid op), s).
Proof.
  intros Hok Hwf Hsize Hread Hrt. unfold VerifyPolicy, verdict.
  rewrite (bind_run _ _ _ _ _ (GetPolicyForAccount_run _ _ _ _ Hrt)).
  assert (verify_groups st ctx rid rt op action opts s =
    (if bool_decide (rt = RESOURCE_TYPE_GROUP) then Panic
     else Ret (combine_effects (group_effects s rt rid op)), s)) as Hgroups.
  { case_bool_decide; [by subst|]. apply verify_groups_verdict; try done.
    destruct rt; auto; done. }
  destruct (policy_at s (rt, rid, GAccount op)) as [p|] eqn:Hat.
  2: { assert (effect_at s (rt, rid, GAccount op) = EFFECT_UNSPECIFIED) as ->
         by (unfold effect_at; by rewrite Hat).
       rewrite bool_decide_true by done. exact Hgroups. }
  assert (effect_at s (rt, rid, GAccount op) = policy_effect action (BlockTime ctx) opts p) as ->
    by (unfold effect_at; by rewrite Hat).
  rewrite (bind_run _ _ _ _ _ (policy_eval_run p s (policies_wf_at _ _ _ Hwf Hat) Hsize)).
  pose proof (policy_effect_cases p) as Hcases. set_unfold in Hcases.
  destruct Hcases as [-> | [-> | [-> | []]]].
  - rewrite !bool_decide_true by done. exact Hgroups.
  - rewrite !(bool_decide_false (EFFECT_ALLOW = EFFECT_UNSPECIFIED)), bool_decide_true by done.
    rewrite (bind_run _ _ _ _ _ (save_policy_pure _ s (after_charge_None p) Hread)). done.
  - done.
Qed.

Lemma VerifyPolicy_reads s rt rid op :
  perm_ok s -> policies_wf s -> size_ok opts -> reads_only ->
  rt = RESOURCE_TYPE_BUCKET \/ rt = RESOURCE_TYPE_OBJECT ->
  VerifyPolicy st ctx rid rt op action opts s = (Ret (verdict s rt rid op), s).
Proof.
  intros Hok Hwf Hsize Hread Hrt. rewrite VerifyPolicy_verdict by (done || by destruct Hrt; subst).
  rewrite (bool_decide_false (rt = _)), andb_false_r by (by destruct Hrt; subst). done.
Qed.

(** ** Checks that charge the account's policy *)

Lemma target_with_statements p l : target (with_statements p l) = target p.
Proof. done. Qed.

Lemma VerifyPolicy_charges s rt rid op p :
  perm_ok s -> policies_wf s -> size_ok opts -> rt <> RESOURCE_TYPE_UNSPECIFIED ->
  policy_at s (rt, rid, GAccount op) = Some p ->
  policy_effect action (BlockTime ctx) opts p = EFFECT_ALLOW ->
  exists s', VerifyPolicy st ctx rid rt op action opts s = (Ret EFFECT_ALLOW, s') /\
    match after_charge p with
    | Some p' => if bool_decide (action = ACTION_CREATE_OBJECT) && in_tx ctx
                 then stores s (rt, rid, GAccount op) (Some (granted p')) s' else s' = s
    | None => s' = s
    end.
Proof.
  intros Hok Hwf Hsize Hrt Hat Heff. unfold VerifyPolicy.
  rewrite (bind_run _ _ _ _ _ (GetPolicyForAccount_run _ _ _ _ Hrt)), Hat.
  rewrite (bind_run _ _ _ _ _ (policy_eval_run p s (policies_wf_at _ _ _ Hwf Hat) Hsize)), Heff.
  rewrite bool_decide_false, (bool_decide_true (EFFECT_ALLOW = EFFECT_ALLOW)) by done.
  unfold save_policy, after_charge. rewrite Heff, (bool_decide_true (EFFECT_ALLOW = _)) by done.
  cbn [andb]. destruct (existsb _ _); [|by exists s].
  destruct (_ && in_tx ctx); [|by exists s].
  unfold policy_at in Hat. destruct (policy_id s _) as [id|] eqn:Hk; [|done].
  destruct (indexed_policy s _ _ Hok Hk) as (p0 & Hp0 & Ht & _).
  assert (p0 = p) as -> by congruence.
  pose proof (PutPolicy_put s (with_statements p (charged_live action (BlockTime ctx) opts <$>
    p_Statements p)) (rt, rid, GAccount op) Hok Ht) as Hput.
  unfold put_spec in Hput. cbn [group_full] in Hput. rewrite Hk in Hput.
  destruct Hput as (s' & Hrun & Hstores); [by destruct rt|].
  exists s'. split; [|done]. unfold on_err, bind. by rewrite Hrun.
Qed.
End Query.
End Verdict.

(** ** Charging a policy granted to a group *)

Section FullGroup.
Context `{AddressText, UintText, Regexps} (st : Resources) (ctx : PermCtx).
Context (action : ActionType) (opts : option VerifyOptions).

Lemma last_charge_target s rt rid op items acc p :
  perm_ok s -> (forall q, acc = Some q -> exists g, target q = Some (rt, rid, GGroup g)) ->
  last_charge st ctx action opts s rt rid items op acc = Some p ->
  exists g, target p = Some (rt, rid, GGroup g).
Proof.
  intros Hok. unfold last_charge. revert acc. induction items as [|it items IH]; intros acc Hacc;
    cbn [foldl]; [auto|]. apply IH. destruct (_ && _); [|done]. intros q Hq.
  unfold policy_at in Hq. destruct (policy_id s _) as [id|] eqn:Hid; [|done].
  destruct (indexed_policy s _ _ Hok Hid) as (q0 & Hq0 & Ht & _). rewrite Hq0 in Hq.
  cbn in Hq. unfold after_charge in Hq. destruct (_ && _); [|done].
  injection Hq as <-. exists (GroupId it). done.
Qed.

(** When the policy group of a resource is at its size limit, a creation
    that a size-limited policy of one of its groups allows panics: the charged
    policy cannot be put back. *)
Lemma charge_full_group_panics s rt rid op p items :
  perm_ok s -> policies_wf s -> size_ok opts -> in_tx ctx = true ->
  action = ACTION_CREATE_OBJECT -> rt = RESOURCE_TYPE_BUCKET \/ rt = RESOURCE_TYPE_OBJECT ->
  combine_effects (group_effects st ctx action opts s rt rid op) = EFFECT_ALLOW ->
  group_policies s !! (rt, rid) = Some items ->
  MaximumPolicyGroupSize s <= Z.of_nat (length items) ->
  last_charge st ctx action opts s rt rid items op None = Some p ->
  (verify_groups st ctx rid rt op action opts s).1 = Panic.
Proof.
  intros Hok Hwf Hsize Htx Hact Hrt Hallow Hitems Hfull Hlast.
  unfold verify_groups, GetPolicyGroupForResource.
  rewrite (bind_run _ _ s (Some items) s)
    by (rewrite (bind_run _ _ _ _ _ (group_key_run _ _ _ Hrt)), bind_get; by rewrite Hitems).
  rewrite (bind_run _ _ _ _ _ (verify_items_run st ctx action opts s rt rid items op items false None
    Hok Hwf Hsize Hitems (reflexivity _))).
  unfold group_effects, items_of in Hallow. rewrite Hitems in Hallow.
  change (default [] (Some items)) with items in Hallow. unfold combine_effects in Hallow.
  case_bool_decide; [done|]. case_bool_decide; [|done]. cbn [orb]. rewrite Hlast.
  destruct (last_charge_target s rt rid op items None p Hok ltac:(done) Hlast) as [g Ht].
  pose proof (PutPolicy_put s p (rt, rid, GGroup g) Hok Ht) as Hput. unfold put_spec in Hput.
  cbn [group_full] in Hput. rewrite Hitems, (proj2 (Z.leb_le _ _) Hfull) in Hput.
  unfold save_policy. rewrite Hact, Htx, bool_decide_true by done. cbn [andb].
  unfold bind, on_err. rewrite Hput by (destruct Hrt; by subst). done.
Qed.
End FullGroup.

(** ** Quotas *)

Section Quota.
Context `{AddressText, UintText, Regexps} (st : Resources) (ctx : PermCtx).

(** The statements of every grant are well formed. *)
Lemma policies_wf_grants s :
  perm_ok s ->
  policies_wf s <-> forall k l e, grant s k = Some (l, e) -> Forall well_formed l.
Proof.
  intros Hok. split.
  - intros Hwf k l e. unfold grant. destruct (policy_id s k) as [id|]; [|done].
    destruct (policies s !! id) as [p|] eqn:Hp; [|done]. cbn. intros [= <- <-]. by eapply Hwf.
  - intros Hg id p Hp. destruct (l_policy _ _ _ _ (ok_linked _ Hok) _ _ Hp) as (_ & _ & k & _ & Hk).
    apply (Hg k _ (p_ExpirationTime p)). unfold grant. by rewrite Hk, Hp.
Qed.

Lemma grant_policy_at s k : grant s k = granted <$> policy_at s k.
Proof. unfold grant, policy_at. by destruct (policy_id s k). Qed.

Lemma stores_policy_at s k p s' :
  stores s k (Some (granted p)) s' ->
  exists p', policy_at s' k = Some p' /\ granted p' = granted p.
Proof.
  intros (_ & Hgrant & _). specialize (Hgrant k). rewrite grant_policy_at in Hgrant.
  unfold fset in Hgrant. rewrite decide_True in Hgrant by done.
  destruct (policy_at s' k) as [p'|]; [|done]. exists p'. split; [done|].
  cbn in Hgrant. congruence.
Qed.

Lemma stores_wf s k p s' :
  perm_ok s -> policies_wf s -> stores s k (Some (granted p)) s' ->
  Forall well_formed (p_Statements p) -> policies_wf s'.
Proof.
  intros Hok Hwf (Hok' & Hgrant & _) Hp. apply policies_wf_grants; [done|].
  intros k' l e. rewrite Hgrant. unfold fset. case_decide; [unfold granted; by intros [= <- <-]|].
  by eapply policies_wf_grants.
Qed.

Lemma charged_well_formed action opts x :
  size_ok opts -> well_formed x -> well_formed (charged action opts x).
Proof.
  unfold size_ok, well_formed, charged, charge, limited. intros Hsize Hx.
  destruct (s_LimitSize x) as [limit|] eqn:Ex; [|repeat case_match; simplify_eq; by rewrite ?Ex].
  repeat case_match; simplify_eq; cbn; rewrite ?Ex; try done.
  destruct Hx as [Hr Hl]. split; [done|]. cbn in *. simplify_eq. unfold is_u64 in *. lia.
Qed.

(** One object of the given size *)
Definition create_opts (size : Z) : option VerifyOptions := Some (mkOptions EmptyString (Some size)).

(** The checks of a sequence of creations in a bucket *)
Fixpoint create_all (rid op : Z) (sizes : list Z) : PM (list Effect) :=
  match sizes with
  | [] => ret []
  | w :: rest =>
      let! e := VerifyPolicy st ctx rid RESOURCE_TYPE_BUCKET op ACTION_CREATE_OBJECT (create_opts w) in
      let! es := create_all rid op rest in
      ret (e :: es)
  end.

(** A statement that limits what the account may create *)
Record limits (x : Statement) (limit : Z) : Prop := {
  li_live : live (BlockTime ctx) x = true;
  li_effect : s_Effect x <> EFFECT_DENY;
  li_action : matches_action ACTION_CREATE_OBJECT x = true;
  li_limit : s_LimitSize x = Some limit;
}.

Lemma limits_applies x limit w :
  limits x limit -> applies ACTION_CREATE_OBJECT (create_opts w) x = true.
Proof. intros [_ _ Ha _]. unfold applies. by rewrite Ha. Qed.

Lemma limits_effect x limit w :
  limits x limit ->
  statement_effect ACTION_CREATE_OBJECT (create_opts w) x =
  if w <=? limit then EFFECT_ALLOW else EFFECT_DENY.
Proof.
  intros Hx. unfold statement_effect, limited. rewrite (limits_applies x limit) by done.
  destruct Hx as [_ He _ Hl]. rewrite Hl. by rewrite bool_decide_false by done.
Qed.

Lemma limits_charge x limit w :
  limits x limit -> w <= limit ->
  charge ACTION_CREATE_OBJECT (create_opts w) x = Some w /\
  charged ACTION_CREATE_OBJECT (create_opts w) x = with_limit x (limit - w).
Proof.
  intros Hx Hw. unfold charged, charge, limited. rewrite (limits_applies x limit) by done.
  destruct Hx as [_ He _ Hl]. change (opts_size (create_opts w)) with (Some w).
  rewrite Hl, bool_decide_false, bool_decide_true by done. cbn [andb negb].
  by rewrite (proj2 (Z.leb_le _ _) Hw).
Qed.

Lemma limits_charged x limit w : limits x limit -> limits (with_limit x (limit - w)) (limit - w).
Proof. by intros [? ? ? ?]. Qed.

(** One creation that is allowed: the limit covers it and is reduced. *)
Lemma create_one s rid op p j x limit w :
  perm_ok s -> policies_wf s -> in_tx ctx = true -> is_u64 w = true ->
  policy_at s (RESOURCE_TYPE_BUCKET, rid, GAccount op) = Some p ->
  expired (p_ExpirationTime p) (BlockTime ctx) = false ->
  p_Statements p !! j = Some x -> limits x limit ->
  exists e s', VerifyPolicy st ctx rid RESOURCE_TYPE_BUCKET op ACTION_CREATE_OBJECT (create_opts w) s =
    (Ret e, s') /\
    (e = EFFECT_ALLOW -> w <= limit /\ perm_ok s' /\ policies_wf s' /\
     exists p', policy_at s' (RESOURCE_TYPE_BUCKET, rid, GAccount op) = Some p' /\
       p_ExpirationTime p' = p_ExpirationTime p /\
       p_Statements p' !! j = Some (with_limit x (limit - w))).
Proof.
  intros Hok Hwf Htx Hw Hat Hexp Hx Hlim. set (k := (RESOURCE_TYPE_BUCKET, rid, GAccount op)) in *.
  assert (size_ok (create_opts w)) as Hsize by done.
  assert (statement_effect ACTION_CREATE_OBJECT (create_opts w) x ∈
    effects ACTION_CREATE_OBJECT (BlockTime ctx) (create_opts w) (p_Statements p)) as Hin.
  { apply list_elem_of_fmap_2, list_elem_of_filter. split; [apply Hlim|].
    by eapply list_elem_of_lookup_2. }
  rewrite (limits_effect x limit w Hlim) in Hin.
  assert (policy_effect ACTION_CREATE_OBJECT (BlockTime ctx) (create_opts w) p =
    combine_effects (effects ACTION_CREATE_OBJECT (BlockTime ctx) (create_opts w) (p_Statements p)))
    as Heff by (unfold policy_effect; by rewrite Hexp).
  unfold combine_effects in Heff. case_bool_decide as Hdeny.
  { exists EFFECT_DENY, s. split; [|done]. unfold VerifyPolicy.
    rewrite (bind_run _ _ _ _ _ (GetPolicyForAccount_run s rid RESOURCE_TYPE_BUCKET op ltac:(done))).
    fold k. rewrite Hat. rewrite (bind_run _ _ _ _ _
      (policy_eval_run ctx _ _ p s (policies_wf_at _ _ _ Hwf Hat) Hsize)). by rewrite Heff. }
  destruct (Z.leb_spec w limit) as [Hle|]; [|done]. rewrite bool_decide_true in Heff by done.
  destruct (VerifyPolicy_charges st ctx ACTION_CREATE_OBJECT (create_opts w) s RESOURCE_TYPE_BUCKET
    rid op p Hok Hwf Hsize ltac:(done) Hat Heff) as (s' & Hrun & Hst).
  exists EFFECT_ALLOW, s'. split; [done|]. intros _.
  unfold after_charge in Hst. rewrite Heff, bool_decide_true in Hst by done. cbn [andb] in Hst.
  destruct (limits_charge x limit w Hlim Hle) as [Hc Hcx].
  assert (existsb (is_charged ACTION_CREATE_OBJECT (BlockTime ctx) (create_opts w))
    (p_Statements p) = true) as Hex.
  { apply existsb_exists. exists x. split; [by eapply list_elem_of_In, list_elem_of_lookup_2|].
    unfold is_charged. rewrite (li_live _ _ Hlim), Hc. by rewrite bool_decide_true by done. }
  rewrite Hex, Htx in Hst. rewrite bool_decide_true in Hst by done.
  split_and!; [done|apply Hst| |].
  - eapply (stores_wf s k); [done|done|exact Hst|]. cbn. apply Forall_fmap.
    eapply Forall_impl; [exact (policies_wf_at _ _ _ Hwf Hat)|]. intros y Hy. cbn.
    unfold charged_live. destruct (live _ y); [|done]. by apply charged_well_formed.
  - destruct (stores_policy_at _ _ _ _ Hst) as (p' & Hp' & Hg). injection Hg as Hs He.
    exists p'. split_and!; [done|done|]. rewrite Hs, list_lookup_fmap, Hx. cbn.
    unfold charged_live. by rewrite (li_live _ _ Hlim), Hcx.
Qed.

(** A sequence of creations that are all allowed *)
Lemma create_all_limit rid op sizes s p j x limit es s' :
  perm_ok s -> policies_wf s -> in_tx ctx = true -> Forall (fun w => is_u64 w = true) sizes ->
  policy_at s (RESOURCE_TYPE_BUCKET, rid, GAccount op) = Some p ->
  expired (p_ExpirationTime p) (BlockTime ctx) = false ->
  p_Statements p !! j = Some x -> limits x limit ->
  create_all rid op sizes s = (Ret es, s') -> Forall (eq EFFECT_ALLOW) es ->
  exists p' x', policy_at s' (RESOURCE_TYPE_BUCKET, rid, GAccount op) = Some p' /\
    p_Statements p' !! j = Some x' /\ limits x' (limit - zsum (fun w => w) sizes) /\
    (sizes = [] \/ zsum (fun w => w) sizes <= limit).
Proof.
  revert s p x limit es. induction sizes as [|w sizes IH];
    intros s p x limit es Hok Hwf Htx Hsizes Hat Hexp Hx Hlim Hrun Hes; cbn [create_all] in Hrun.
  { minv. exists p, x. unfold zsum. cbn. rewrite Z.sub_0_r. auto. }
  apply Forall_cons in Hsizes as [Hw Hsizes].
  destruct (create_one s rid op p j x limit w) as (e & s1 & Hrun1 & Hstep); try done.
  rewrite (bind_run _ _ _ _ _ Hrun1) in Hrun. minv.
  apply Forall_cons in Hes as [<- Hes].
  destruct Hstep as (Hle & Hok1 & Hwf1 & p1 & Hat1 & Hexp1 & Hx1); [done|].
  edestruct (IH s1 p1 (with_limit x (limit - w)) (limit - w))
    as (p' & x' & Hat' & Hx' & Hlim' & Hsum);
    [done|done|done|done|done|congruence|done|by apply limits_charged|done|done|].
  exists p', x'. unfold zsum in *. cbn [foldr]. split_and!; [done|done| |].
  - by rewrite Z.sub_add_distr.
  - right. destruct Hsum as [-> |]; cbn; lia.
Qed.
End Quota.
