(* ===== verification/StorageGC.v ===== *)
(** * x/storage: garbage collection of the policies of deleted resources

    The stale-policy functions of [x/storage/keeper/keeper.go]
    ([appendResourceIDForGarbageCollection], [PersistDeleteInfo],
    [GarbageCollectResourcesStalePolicy], [garbageCollectionForResource]) over
    the permission keeper.  A nil list of ids is [None]; the list handed to
    the loop is the one in the delete info, so that it is written back with
    the info.  [StalePolicyCleanupMax] is read once, before the loop. *)

From S2P Require Import Prelude Bytes Grn Permission PermissionKeeper.

Record DeleteInfo : Type := mkDeleteInfo {
  BucketIds : option (list Z);
  ObjectIds : option (list Z);
  GroupIds : option (list Z);
}.

(** The permission store, the infos by block height, and the info of the
    current block in the transient store. *)
Record GCState : Type := mkGCState {
  perm : PermState;
  stale : gmap Z DeleteInfo;
  current : option DeleteInfo;
}.

Abbreviation GM := (M GCState perm_error).

Definition on_stale f (s : GCState) : GCState := mkGCState (perm s) (f (stale s)) (current s).
Definition set_current v (s : GCState) : GCState := mkGCState (perm s) (stale s) v.

(** A call of the permission keeper *)
Definition with_perm {A} (c : PM A) : GM A :=
  fun s => let (r, p) := c (perm s) in (r, mkGCState p (stale s) (current s)).

Definition no_ids (o : option (list Z)) : bool :=
  match o with None | Some [] => true | _ => false end.
Definition IsEmpty (di : DeleteInfo) : bool :=
  no_ids (BucketIds di) && no_ids (ObjectIds di) && no_ids (GroupIds di).

Definition ids_of (rt : ResourceType) (di : DeleteInfo) : option (list Z) :=
  match rt with
  | RESOURCE_TYPE_BUCKET => BucketIds di
  | RESOURCE_TYPE_OBJECT => ObjectIds di
  | RESOURCE_TYPE_GROUP => GroupIds di
  | RESOURCE_TYPE_UNSPECIFIED => None
  end.

Definition set_ids (rt : ResourceType) (v : option (list Z)) (di : DeleteInfo) : DeleteInfo :=
  match rt with
  | RESOURCE_TYPE_BUCKET => mkDeleteInfo v (ObjectIds di) (GroupIds di)
  | RESOURCE_TYPE_OBJECT => mkDeleteInfo (BucketIds di) v (GroupIds di)
  | RESOURCE_TYPE_GROUP => mkDeleteInfo (BucketIds di) (ObjectIds di) v
  | RESOURCE_TYPE_UNSPECIFIED => di
  end.

(** ** Recording a deleted resource *)

Definition appendResourceIDForGarbageCollection (rt : ResourceType) (rid : Z) : GM unit :=
  let! s := get in
  if negb (ExistAccountPolicyForResource rt rid (perm s)) &&
     negb (ExistGroupPolicyForResource rt rid (perm s)) &&
     (negb (bool_decide (rt = RESOURCE_TYPE_GROUP)) || negb (ExistGroupMemberForGroup rid (perm s)))
  then ret tt
  else
    let deleteInfo := default (mkDeleteInfo (Some []) (Some []) (Some [])) (current s) in
    do! guard (bool_decide (rt = RESOURCE_TYPE_UNSPECIFIED)) ErrInvalidResource ;;
    modify (set_current (Some
      (set_ids rt (Some (default [] (ids_of rt deleteInfo) ++ [rid])) deleteInfo))).

Definition PersistDeleteInfo (height : Z) : GM unit :=
  let! s := get in
  match current s with
  | None => ret tt
  | Some deleteInfo =>
      if IsEmpty deleteInfo then ret tt else modify (on_stale (insert height deleteInfo))
  end.

(** ** Collecting *)

Section Collect.
Context `{AddressText, UintText}.

(** One resource: its account policies, then its members for a group and its
    group policies otherwise. *)
Definition collect_one (rt : ResourceType) (id maxCleanup deletedTotal : Z) : GM (Z * bool) :=
  let! (total, finished) :=
    with_perm (ForceDeleteAccountPolicyForResource maxCleanup deletedTotal rt id) in
  if negb finished then ret (total, false)
  else if bool_decide (rt = RESOURCE_TYPE_GROUP)
  then with_perm (ForceDeleteGroupMembers maxCleanup total id)
  else with_perm (ForceDeleteGroupPolicyForResource maxCleanup total rt id).

(** The loop over the ids: [temp] are the ids still to be deleted, which for
    groups is not advanced.  On reaching the limit they are written back
    under the height. *)
Fixpoint collect_ids (height : Z) (deleteInfo : DeleteInfo) (rt : ResourceType)
    (ids temp : list Z) (maxCleanup deletedTotal : Z) : GM (Z * bool) :=
  match ids with
  | [] => ret (deletedTotal, true)
  | id :: rest =>
      let! (total, finished) := collect_one rt id maxCleanup deletedTotal in
      if finished
      then collect_ids height deleteInfo rt rest
             (if bool_decide (rt = RESOURCE_TYPE_GROUP) then temp else rest) maxCleanup total
      else
        do! modify (on_stale (insert height (set_ids rt (Some temp) deleteInfo))) ;;
        ret (total, false)
  end.

Definition garbageCollectionForResource (height : Z) (deleteInfo : DeleteInfo) (rt : ResourceType)
    (maxCleanup deletedTotal : Z) : GM (Z * bool) :=
  match ids_of rt deleteInfo with
  | None | Some [] => ret (deletedTotal, true)
  | Some ids => collect_ids height deleteInfo rt ids ids maxCleanup deletedTotal
  end.

(** The body of the loop: objects, buckets, then groups; [false] ends the
    run. *)
Definition collect_info (height : Z) (deleteInfo : DeleteInfo) (maxCleanup deletedTotal : Z) :
    GM (Z * bool) :=
  let! (total1, finished1) :=
    garbageCollectionForResource height deleteInfo RESOURCE_TYPE_OBJECT maxCleanup deletedTotal in
  if negb finished1 then ret (total1, false)
  else
    let info1 := set_ids RESOURCE_TYPE_OBJECT None deleteInfo in
    let! (total2, finished2) :=
      garbageCollectionForResource height info1 RESOURCE_TYPE_BUCKET maxCleanup total1 in
    if negb finished2 then ret (total2, false)
    else
      let info2 := set_ids RESOURCE_TYPE_BUCKET None info1 in
      let! (total3, finished3) :=
        garbageCollectionForResource height info2 RESOURCE_TYPE_GROUP maxCleanup total2 in
      if negb finished3 then ret (total3, false)
      else
        let info3 := set_ids RESOURCE_TYPE_GROUP None info2 in
        do! (if IsEmpty info3 then modify (on_stale (delete height)) else ret tt) ;;
        ret (total3, true).

Fixpoint collect_all (l : list (Z * DeleteInfo)) (maxCleanup deletedTotal : Z) : GM unit :=
  match l with
  | [] => ret tt
  | (height, deleteInfo) :: rest =>
      let! (total, finished) := collect_info height deleteInfo maxCleanup deletedTotal in
      if finished then collect_all rest maxCleanup total else ret tt
  end.

Definition GarbageCollectResourcesStalePolicy (stalePolicyCleanupMax : Z) : GM unit :=
  let! s := get in
  collect_all (iterate Z.leb (stale s)) stalePolicyCleanupMax 0.

(** The end of [EndBlocker] of abci.go, after [deleted] discontinued objects
    were deleted, up to the payment check; the buckets deleted in between
    were recorded in [current] like the objects.  The transient store is
    dropped with the block. *)
Definition EndBlocker_collect (deletionMax deleted height stalePolicyCleanupMax : Z) : GM unit :=
  do! (if (deletionMax =? 0) || (deletionMax <=? deleted) then ret tt
       else
         do! PersistDeleteInfo height ;;
         GarbageCollectResourcesStalePolicy stalePolicyCleanupMax) ;;
  modify (set_current None).
End Collect.
