(* ===== verification/StorageGCFacts.v ===== *)
(** * x/storage: the collector removes what it forgets

    A resource leaves the list of deleted resources only when no policy on
    it, and for a group no member of it, is left; policies on other resources
    are not touched; no more deletions are made than the limit allows. *)

From S2P Require Import Prelude Bytes Grn Permission PermissionKeeper PermissionFacts.
From S2P Require Import PermissionRefine PermissionRemove StorageGC.

Section GCFacts.
Context `{AddressText, UintText}.

(** Nothing is granted on a resource, and a group has no members. *)
Definition bare (p : PermState) (rt : ResourceType) (rid : Z) : Prop :=
  (forall g, grant p (rt, rid, g) = None) /\
  (rt = RESOURCE_TYPE_GROUP -> forall a, group_members p !! (rid, a) = None).

(** From [p] to [p'] only grants and members of resources in [R] went away. *)
Record shrinks (R : ResourceType -> Z -> Prop) (p p' : PermState) : Prop := {
  sk_ok : perm_ok p';
  sk_grant : forall k, grant p' k = grant p k \/ grant p' k = None;
  sk_member : forall k, group_members p' !! k = group_members p !! k \/ group_members p' !! k = None;
  sk_other : forall rt rid g, ~ R rt rid -> grant p' (rt, rid, g) = grant p (rt, rid, g);
}.

Lemma shrinks_refl R p : perm_ok p -> shrinks R p p.
Proof. split; auto. Qed.

Lemma shrinks_trans R p1 p2 p3 : shrinks R p1 p2 -> shrinks R p2 p3 -> shrinks R p1 p3.
Proof.
  intros [_ Hg1 Hm1 Ho1] [Hok Hg2 Hm2 Ho2]. split; [done|..].
  - intros k. destruct (Hg1 k), (Hg2 k); (left; congruence) || (right; congruence).
  - intros k. destruct (Hm1 k), (Hm2 k); (left; congruence) || (right; congruence).
  - intros rt rid g Hn. by rewrite Ho2, Ho1.
Qed.

Lemma shrinks_weaken (R R' : ResourceType -> Z -> Prop) p p' :
  (forall rt rid, R rt rid -> R' rt rid) -> shrinks R p p' -> shrinks R' p p'.
Proof. intros HR [? ? ? Ho]. split; eauto. Qed.

Lemma bare_shrinks R p p' rt rid : bare p rt rid -> shrinks R p p' -> bare p' rt rid.
Proof.
  intros [Hg Hm] [_ Sg Sm _]. split.
  - intros g. destruct (Sg (rt, rid, g)); congruence.
  - intros Hrt a. specialize (Hm Hrt a). destruct (Sm (rid, a)); congruence.
Qed.

Definition only (rt : ResourceType) (rid : Z) (rt' : ResourceType) (rid' : Z) : Prop :=
  rt' = rt /\ rid' = rid.

Lemma clears_shrinks p ks p' rt rid :
  clears p ks p' -> Forall (fun k => k.1 = (rt, rid)) ks -> shrinks (only rt rid) p p'.
Proof.
  intros Hc Hks. split; [apply Hc|..].
  - intros k. rewrite (c_grant _ _ _ Hc). case_decide; auto.
  - intros k. destruct (c_rest _ _ _ Hc) as (_ & -> & _). auto.
  - intros rt' rid' g Hn. rewrite (c_grant _ _ _ Hc). case_decide as Hin; [|done].
    destruct Hn. eapply Forall_forall in Hin; [|exact Hks]. cbn in Hin. by simplify_eq.
Qed.

(** ** Members *)

(** The fields the policies live in *)
Definition same_policies (p p' : PermState) : Prop :=
  account_policies p' = account_policies p /\ group_policies p' = group_policies p /\
  policies p' = policies p /\ policy_queue p' = policy_queue p /\ policySeq p' = policySeq p.

Lemma same_policies_ok p p' : same_policies p p' -> perm_ok p -> perm_ok p'.
Proof.
  intros (Ea & Eg & Ep & Eq & Es) [Hl Hs Hq]. unfold last_id in *. split.
  - unfold last_id. rewrite Ep, Eq, Es. eapply linked_ext; [|exact Hl]. intros k.
    symmetry. by apply policy_id_same.
  - by eapply shaped_same.
  - unfold last_id. by rewrite Es.
Qed.

Lemma same_policies_grant p p' k : same_policies p p' -> grant p' k = grant p k.
Proof.
  intros (Ea & Eg & Ep & _). unfold grant. by rewrite Ep, (policy_id_same p p').
Qed.

Lemma delete_members_run l maxDelete tot p :
  0 <= tot -> maxDelete < two64 ->
  exists n finished p', delete_members l maxDelete tot p = (Ret (tot + Z.of_nat n, finished), p') /\
    (n <= room maxDelete tot)%nat /\ same_policies p p' /\
    (forall k, group_members p' !! k = group_members p !! k \/ group_members p' !! k = None) /\
    if finished then forall k, k ∈ l.*1 -> group_members p' !! k = None
    else maxDelete <= tot + Z.of_nat n.
Proof.
  revert tot p. induction l as [|[key id] l IH]; intros tot p Htot Hmax; cbn [delete_members].
  { exists 0%nat, true, p. rewrite Z.add_0_r. split_and!; try done; [lia|auto|set_solver]. }
  destruct (Z.leb_spec maxDelete tot).
  { exists 0%nat, false, p. rewrite Z.add_0_r. split_and!; try done; [lia|auto]. }
  unfold bind at 1, modify at 1. unfold bind at 1, modify at 1.
  rewrite (proj1 (room_step maxDelete tot 0 ltac:(lia) Hmax)).
  edestruct (IH (tot + 1)) as (n & fin & p' & -> & Hn & Hsame & Hmem & Hfin); [lia|done|].
  exists (S n), fin, p'. split_and!; [|unfold room in *; lia|done| |].
  - do 3 f_equal. lia.
  - intros k. specialize (Hmem k). cbn in Hmem.
    destruct (decide (k = key)) as [->|Hne].
    + rewrite lookup_delete_eq in Hmem. destruct Hmem; auto.
    + by rewrite lookup_delete_ne in Hmem.
  - destruct fin; [|lia]. intros k [-> |Hin]%elem_of_cons; [|auto].
    specialize (Hmem key). cbn in Hmem. rewrite lookup_delete_eq in Hmem. by destruct Hmem.
Qed.

(** ** One resource *)

(** The outcome of deleting for one or several resources under the limit *)
Definition bounded_total (maxCleanup tot total : Z) : Prop := tot <= total <= maxCleanup.

Lemma room_bound maxCleanup tot n :
  0 <= tot <= maxCleanup -> (n <= room maxCleanup tot)%nat ->
  bounded_total maxCleanup tot (tot + Z.of_nat n).
Proof. unfold room, bounded_total. lia. Qed.

Lemma with_perm_run {A} (c : PM A) s a p' :
  c (perm s) = (Ret a, p') -> with_perm c s = (Ret a, mkGCState p' (stale s) (current s)).
Proof. unfold with_perm. by intros ->. Qed.

Lemma no_group_grants_on_groups p rid g :
  perm_ok p -> grant p (RESOURCE_TYPE_GROUP, rid, GGroup g) = None.
Proof.
  intros Hok. unfold grant. cbn [policy_id].
  destruct (group_policies p !! _) as [items|] eqn:E; [|done].
  by destruct (sh_group _ (ok_shaped _ Hok) _ _ _ E) as ([|] & _).
Qed.

(** A deletion for one resource that clears what [cleared] says *)
Definition deletes (rt : ResourceType) (id maxCleanup tot : Z) (cleared : PermState -> Prop)
    (p : PermState) (r : outcome perm_error (Z * bool) * PermState) : Prop :=
  exists total finished p',
    r = (Ret (total, finished), p') /\ bounded_total maxCleanup tot total /\
    shrinks (only rt id) p p' /\ if finished then cleared p' else total = maxCleanup.

Lemma purges_deletes rt id (mine : GrantKey -> Prop) maxCleanup tot p r :
  (forall k, mine k -> k.1 = (rt, id)) -> 0 <= tot <= maxCleanup ->
  purges mine maxCleanup tot p r ->
  deletes rt id maxCleanup tot (fun p' => forall k, mine k -> grant p' k = None) p r.
Proof.
  intros Hmine Htot (ks & fin & p1 & -> & Hc & Hks & Hlen & Hfin).
  pose proof (room_bound _ _ _ Htot Hlen) as Hb.
  exists (tot + Z.of_nat (length ks)), fin, p1. split_and!; [done|done| |].
  - eapply clears_shrinks; [exact Hc|]. by eapply Forall_impl.
  - destruct fin; [done|]. unfold bounded_total in Hb. lia.
Qed.

Lemma members_deletes id maxCleanup tot p :
  perm_ok p -> 0 <= tot <= maxCleanup -> maxCleanup < two64 ->
  deletes RESOURCE_TYPE_GROUP id maxCleanup tot
    (fun p' => forall a, group_members p' !! (id, a) = None) p
    (ForceDeleteGroupMembers maxCleanup tot id p).
Proof.
  intros Hok Htot Hmax. unfold ForceDeleteGroupMembers. rewrite bind_get.
  destruct (delete_members_run (members_of id p) maxCleanup tot p)
    as (n & fin & p2 & -> & Hn & Hsame & Hmem & Hfin); [lia|done|].
  pose proof (room_bound _ _ _ Htot Hn) as Hb.
  exists (tot + Z.of_nat n), fin, p2. split_and!; [done|done| |].
  - split; [by eapply same_policies_ok| |done|].
    + intros k. left. by apply same_policies_grant.
    + intros rt rid g _. by apply same_policies_grant.
  - destruct fin; [|unfold bounded_total in Hb; lia]. intros a.
    destruct (group_members p !! (id, a)) as [m|] eqn:Em.
    + apply Hfin. apply list_elem_of_fmap. exists (id, a, m). split; [done|].
      by apply elem_of_iterate, map_lookup_filter_Some.
    + destruct (Hmem (id, a)); congruence.
Qed.

Lemma collect_one_run rt id maxCleanup tot s :
  perm_ok (perm s) -> rt <> RESOURCE_TYPE_UNSPECIFIED -> 0 <= tot <= maxCleanup ->
  maxCleanup < two64 ->
  exists r p', collect_one rt id maxCleanup tot s = (r, mkGCState p' (stale s) (current s)) /\
    deletes rt id maxCleanup tot (fun p => bare p rt id) (perm s) (r, p').
Proof.
  intros Hok Hrt Htot Hmax. unfold collect_one.
  pose proof (ForceDeleteAccount_purges (perm s) maxCleanup tot rt id Hok Hrt (proj1 Htot) Hmax) as Hp.
  apply (purges_deletes rt id) in Hp; [|by intros k [a ->]|done].
  destruct Hp as (tot1 & fin & p1 & Hrun & Hb & Hsh & Hacc).
  rewrite (bind_run _ _ _ _ _ (with_perm_run _ _ _ _ Hrun)).
  destruct fin; cbn [negb].
  2: { exists (Ret (tot1, false)), p1. split; [done|]. by exists tot1, false, p1. }
  unfold bounded_total in Hb. unfold with_perm.
  case_bool_decide as Hg; cbn [perm stale current].
  - subst rt. destruct (members_deletes id maxCleanup tot1 p1 (sk_ok _ _ _ Hsh)) as
      (tot2 & fin & p2 & -> & Hb2 & Hsh2 & Hmem); [lia|done|].
    exists (Ret (tot2, fin)), p2. split; [done|]. exists tot2, fin, p2. unfold bounded_total in *.
    split_and!; [done|lia|lia|by eapply shrinks_trans|]. destruct fin; [|done].
    split; [|done]. intros [a|g].
    + destruct (sk_grant _ _ _ Hsh2 (RESOURCE_TYPE_GROUP, id, GAccount a)) as [-> |]; [|done].
      apply Hacc. by exists a.
    + by apply no_group_grants_on_groups, Hsh2.
  - assert (rt = RESOURCE_TYPE_BUCKET \/ rt = RESOURCE_TYPE_OBJECT) as Hrt'
      by (destruct rt; auto; done).
    pose proof (ForceDeleteGroup_purges p1 maxCleanup tot1 rt id (sk_ok _ _ _ Hsh) Hrt'
      ltac:(lia) Hmax) as Hp.
    apply (purges_deletes rt id) in Hp; [|by intros k [g ->]|lia].
    destruct Hp as (tot2 & fin & p2 & -> & Hb2 & Hsh2 & Hgrp).
    exists (Ret (tot2, fin)), p2. split; [done|]. exists tot2, fin, p2. unfold bounded_total in *.
    split_and!; [done|lia|lia|by eapply shrinks_trans|]. destruct fin; [|done].
    split; [|done]. intros [a|g]; [|apply Hgrp; by exists g].
    destruct (sk_grant _ _ _ Hsh2 (rt, id, GAccount a)) as [-> |]; [|done].
    apply Hacc. by exists a.
Qed.

(** ** The ids of one kind *)

Definition listed_in (di : DeleteInfo) (rt : ResourceType) (id : Z) : Prop :=
  exists ids, ids_of rt di = Some ids /\ id ∈ ids.

(** The outcome for the ids of one kind: all are bare, or the limit is
    reached and those that may not be are written back. *)
Definition collects (height : Z) (di : DeleteInfo) (rt : ResourceType) (maxCleanup tot : Z)
    (ids temp : list Z) (s : GCState) (r : outcome perm_error (Z * bool) * GCState) : Prop :=
  exists total finished s',
    r = (Ret (total, finished), s') /\ bounded_total maxCleanup tot total /\
    shrinks (fun rt' id => rt' = rt /\ id ∈ ids) (perm s) (perm s') /\ current s' = current s /\
    if finished then stale s' = stale s /\ forall id, id ∈ ids -> bare (perm s') rt id
    else total = maxCleanup /\ exists rest,
      stale s' = <[height := set_ids rt (Some rest) di]> (stale s) /\ rest ⊆ temp /\
      forall id, id ∈ ids -> id ∈ rest \/ bare (perm s') rt id.

Lemma collect_ids_run height di rt ids temp maxCleanup tot s :
  perm_ok (perm s) -> rt <> RESOURCE_TYPE_UNSPECIFIED -> 0 <= tot <= maxCleanup ->
  maxCleanup < two64 -> ids ⊆ temp ->
  collects height di rt maxCleanup tot ids temp s
    (collect_ids height di rt ids temp maxCleanup tot s).
Proof.
  intros Hok Hrt. revert tot temp s Hok.
  induction ids as [|id ids IH]; intros tot temp s Hok Htot Hmax Hsub; cbn [collect_ids].
  { exists tot, true, s. unfold bounded_total.
    split_and!; [done|lia|lia|by apply shrinks_refl|done|done|set_solver]. }
  destruct (collect_one_run rt id maxCleanup tot s Hok Hrt Htot Hmax)
    as (r & p1 & Hrun & tot1 & fin & p1' & Hr & Hb & Hsh & Hfin). simplify_eq.
  rewrite (bind_run _ _ _ _ _ Hrun). unfold bounded_total in Hb.
  assert (shrinks (fun rt' id' => rt' = rt /\ id' ∈ id :: ids) (perm s) p1') as Hsh1.
  { eapply shrinks_weaken; [|exact Hsh]. intros rt' id' [-> ->]. set_solver. }
  destruct fin.
  - set (temp1 := if bool_decide _ then temp else ids).
    assert (ids ⊆ temp1 /\ temp1 ⊆ temp) as [Hsub1 Hsub2]
      by (subst temp1; case_bool_decide; set_solver).
    destruct (IH tot1 temp1 (mkGCState p1' (stale s) (current s)))
      as (total & fin & s' & -> & Hb' & Hsh' & Hcur & Hend);
      [apply Hsh|lia|done|done|]. unfold bounded_total in Hb'. cbn [perm stale current] in *.
    assert (bare (perm s') rt id) as Hbare by (by eapply bare_shrinks).
    exists total, fin, s'. unfold bounded_total. split_and!; [done|lia|lia| |done|].
    + eapply shrinks_trans; [exact Hsh1|]. eapply shrinks_weaken; [|exact Hsh'].
      intros rt' id' [-> ?]. set_solver.
    + destruct fin; [destruct Hend as [? Hall]|destruct Hend as (? & rest & ? & Hrest & Hall)].
      * split; [done|]. intros id' [-> |?]%elem_of_cons; auto.
      * split; [done|]. exists rest. split_and!; [done|by etrans|].
        intros id' [-> |?]%elem_of_cons; auto.
  - exists tot1, false. eexists. unfold bind, modify, ret. unfold bounded_total.
    split_and!; [done|lia|lia|done|done|done|]. exists temp. split_and!; [done|done|].
    intros id' Hin. left. by apply Hsub.
Qed.

Lemma garbageCollection_run height di rt maxCleanup tot s :
  perm_ok (perm s) -> rt <> RESOURCE_TYPE_UNSPECIFIED -> 0 <= tot <= maxCleanup ->
  maxCleanup < two64 ->
  collects height di rt maxCleanup tot (default [] (ids_of rt di)) (default [] (ids_of rt di)) s
    (garbageCollectionForResource height di rt maxCleanup tot s).
Proof.
  intros Hok Hrt Htot Hmax. unfold garbageCollectionForResource.
  destruct (ids_of rt di) as [[|i ids]|].
  - exact (collect_ids_run height di rt [] [] maxCleanup tot s Hok Hrt Htot Hmax (reflexivity _)).
  - exact (collect_ids_run height di rt (i :: ids) (i :: ids) maxCleanup tot s Hok Hrt Htot Hmax
      (reflexivity _)).
  - exact (collect_ids_run height di rt [] [] maxCleanup tot s Hok Hrt Htot Hmax (reflexivity _)).
Qed.

(** ** One block's deletions *)

Definition listed (s : GCState) (rt : ResourceType) (id : Z) : Prop :=
  exists h di, stale s !! h = Some di /\ listed_in di rt id.

(** From [s] to [s'] resources left the list only when bare. *)
Record collected (s s' : GCState) : Prop := {
  co_shrinks : shrinks (listed s) (perm s) (perm s');
  co_current : current s' = current s;
  co_kept : forall rt id, listed s rt id -> listed s' rt id \/ bare (perm s') rt id;
  co_listed : forall rt id, listed s' rt id -> listed s rt id;
}.

Lemma collected_refl s : perm_ok (perm s) -> collected s s.
Proof. intros Hok. split; auto. by apply shrinks_refl. Qed.

Lemma collected_trans s1 s2 s3 : collected s1 s2 -> collected s2 s3 -> collected s1 s3.
Proof.
  intros [Sh1 C1 K1 L1] [Sh2 C2 K2 L2]. split; [|congruence| |auto].
  - eapply shrinks_trans; [exact Sh1|]. by eapply shrinks_weaken.
  - intros rt id [Hl|Hb]%K1; [auto|]. right. by eapply bare_shrinks.
Qed.

Lemma listed_in_ids di rt id : listed_in di rt id <-> id ∈ default [] (ids_of rt di).
Proof.
  unfold listed_in. destruct (ids_of rt di); cbn; [|set_solver]. naive_solver.
Qed.

Lemma ids_of_set rt rt' v di :
  rt <> RESOURCE_TYPE_UNSPECIFIED ->
  ids_of rt' (set_ids rt v di) = if decide (rt' = rt) then v else ids_of rt' di.
Proof. intros Hrt. destruct rt, rt'; by cbn. Qed.

(** The info of one height was replaced by [di'], or removed. *)
Lemma collected_height s s' h di di' :
  stale s !! h = Some di ->
  stale s' = match di' with None => delete h (stale s) | Some d => <[h := d]> (stale s) end ->
  shrinks (listed_in di) (perm s) (perm s') -> current s' = current s ->
  (forall rt id, listed_in di rt id ->
     (exists d, di' = Some d /\ listed_in d rt id) \/ bare (perm s') rt id) ->
  (forall d rt id, di' = Some d -> listed_in d rt id -> listed_in di rt id) ->
  collected s s'.
Proof.
  intros Hh Hst Hsh Hcur Hkept Hback. split; [|done|..].
  - eapply shrinks_weaken; [|exact Hsh]. intros rt id Hl. by exists h, di.
  - intros rt id (h' & d & Hh' & Hl). destruct (decide (h' = h)) as [-> |Hne].
    + simplify_eq. destruct (Hkept _ _ Hl) as [(d' & -> & Hl')|]; [|auto].
      left. exists h, d'. by rewrite Hst, lookup_insert_eq.
    + left. exists h', d. rewrite Hst. destruct di';
        [rewrite lookup_insert_ne by done|rewrite lookup_delete_ne by done]; done.
  - intros rt id (h' & d & Hh' & Hl). destruct (decide (h' = h)) as [-> |Hne].
    + rewrite Hst in Hh'. destruct di' as [d'|].
      * rewrite lookup_insert_eq in Hh'. simplify_eq. exists h, di. split; [done|]. by eapply Hback.
      * by rewrite lookup_delete_eq in Hh'.
    + exists h', d. rewrite Hst in Hh'. destruct di';
        [rewrite lookup_insert_ne in Hh' by done|rewrite lookup_delete_ne in Hh' by done]; done.
Qed.

(** The kinds [seen] of the info [di] of a height are done: [info] is [di]
    without them. *)
Record stage (s : GCState) (di : DeleteInfo) (seen : list ResourceType) (s1 : GCState)
    (info : DeleteInfo) : Prop := {
  st_stale : stale s1 = stale s;
  st_current : current s1 = current s;
  st_shrinks : shrinks (listed_in di) (perm s) (perm s1);
  st_info : forall rt, ids_of rt info = if decide (rt ∈ seen) then None else ids_of rt di;
  st_bare : forall rt id, rt ∈ seen -> listed_in di rt id -> bare (perm s1) rt id;
}.

Lemma stage_init s di : perm_ok (perm s) -> stage s di [] s di.
Proof.
  intros Hok. split; [done|done|by apply shrinks_refl| |set_solver].
  intros rt. by rewrite decide_False by set_solver.
Qed.

(** Outcome of a step on the info of height [h] *)
Definition height_step (h maxCleanup tot : Z) (s : GCState) (more : GCState -> Prop)
    (r : outcome perm_error (Z * bool) * GCState) : Prop :=
  exists total finished s',
    r = (Ret (total, finished), s') /\ bounded_total maxCleanup tot total /\
    if finished then more s'
    else total = maxCleanup /\ collected s s' /\
         forall h', h' <> h -> stale s' !! h' = stale s !! h'.

Lemma stage_step s di seen s1 info h rt maxCleanup tot r :
  stale s !! h = Some di -> stage s di seen s1 info -> rt ∉ seen ->
  rt <> RESOURCE_TYPE_UNSPECIFIED ->
  collects h info rt maxCleanup tot (default [] (ids_of rt info)) (default [] (ids_of rt info)) s1 r ->
  height_step h maxCleanup tot s
    (fun s' => stage s di (rt :: seen) s' (set_ids rt None info)) r.
Proof.
  intros Hh [Hst Hcur Hsh Hinfo Hbare] Hns Hrt (total & fin & s' & -> & Hb & Hsh' & Hcur' & Hend).
  exists total, fin, s'. split_and!; [done|done|].
  assert (ids_of rt info = ids_of rt di) as Hrtinfo by (by rewrite Hinfo, decide_False).
  rewrite Hrtinfo in *.
  assert (shrinks (listed_in di) (perm s) (perm s')) as Hshrinks.
  { eapply shrinks_trans; [exact Hsh|]. eapply shrinks_weaken; [|exact Hsh'].
    intros rt' id [-> Hin]. by apply listed_in_ids. }
  destruct fin.
  - destruct Hend as [Hst' Hall]. split; [congruence|congruence|done|..].
    + intros rt'. rewrite ids_of_set, Hinfo by done.
      repeat case_decide; set_solver.
    + intros rt' id [-> |Hin]%elem_of_cons Hl.
      * apply Hall. by apply listed_in_ids.
      * eapply bare_shrinks; [by eapply Hbare|exact Hsh'].
  - destruct Hend as (Htot & rest & Hst' & Hsub & Hall). rewrite Hst in Hst'.
    split; [done|]. split.
    + apply (collected_height s s' h di (Some (set_ids rt (Some rest) info))); try done;
        [congruence|..].
      * intros rt' id Hl. destruct (decide (rt' = rt)) as [-> |Hne].
        -- destruct (Hall id) as [Hin|]; [by apply listed_in_ids| |auto].
           left. eexists. split; [done|]. apply listed_in_ids.
           by rewrite ids_of_set, decide_True.
        -- destruct (decide (rt' ∈ seen)).
           ++ right. eapply bare_shrinks; [by eapply Hbare|exact Hsh'].
           ++ left. eexists. split; [done|]. apply listed_in_ids.
              rewrite ids_of_set, decide_False, Hinfo, decide_False by done.
              by apply listed_in_ids.
      * intros d rt' id [= <-]. rewrite !listed_in_ids, ids_of_set, Hinfo by done.
        repeat case_decide; subst; cbn; set_solver.
    + intros h' Hne. by rewrite Hst', lookup_insert_ne.
Qed.

Lemma stage_run s di seen s1 info h rt maxCleanup tot :
  stale s !! h = Some di -> stage s di seen s1 info -> rt ∉ seen ->
  rt <> RESOURCE_TYPE_UNSPECIFIED -> 0 <= tot <= maxCleanup -> maxCleanup < two64 ->
  height_step h maxCleanup tot s
    (fun s' => stage s di (rt :: seen) s' (set_ids rt None info))
    (garbageCollectionForResource h info rt maxCleanup tot s1).
Proof.
  intros Hh Hst Hns Hrt Htot Hmax. eapply stage_step; [done..|].
  apply garbageCollection_run; [apply Hst|done..].
Qed.

(** Stopping at the limit after more deletions *)
Lemma height_step_stop h maxCleanup tot total s more s' :
  tot <= total -> total = maxCleanup ->
  collected s s' /\ (forall h', h' <> h -> stale s' !! h' = stale s !! h') ->
  height_step h maxCleanup tot s more (Ret (total, false), s').
Proof.
  intros Ht Hm [Hc Ho]. exists total, false, s'. unfold bounded_total.
  split_and!; [done|lia|lia|done|done|done].
Qed.

Lemma collect_info_run h di maxCleanup tot s :
  perm_ok (perm s) -> stale s !! h = Some di -> 0 <= tot <= maxCleanup -> maxCleanup < two64 ->
  height_step h maxCleanup tot s
    (fun s' => collected s s' /\ stale s' = delete h (stale s))
    (collect_info h di maxCleanup tot s).
Proof.
  intros Hok Hh Htot Hmax. unfold collect_info.
  destruct (stage_run s di [] s di h RESOURCE_TYPE_OBJECT maxCleanup tot Hh (stage_init s di Hok))
    as (tot1 & fin1 & s1 & Hrun1 & Hb1 & H1); [set_solver|done..|]. unfold bounded_total in Hb1.
  rewrite (bind_run _ _ _ _ _ Hrun1).
  destruct fin1; cbn [negb]; [|apply height_step_stop; [lia|apply H1..]].
  destruct (stage_run _ _ _ _ _ h RESOURCE_TYPE_BUCKET maxCleanup tot1 Hh H1)
    as (tot2 & fin2 & s2 & Hrun2 & Hb2 & H2); [set_solver|done|lia|done|].
  unfold bounded_total in Hb2. rewrite (bind_run _ _ _ _ _ Hrun2).
  destruct fin2; cbn [negb]; [|apply height_step_stop; [lia|apply H2..]].
  destruct (stage_run _ _ _ _ _ h RESOURCE_TYPE_GROUP maxCleanup tot2 Hh H2)
    as (tot3 & fin3 & s3 & Hrun3 & Hb3 & H3); [set_solver|done|lia|done|].
  unfold bounded_total in Hb3. rewrite (bind_run _ _ _ _ _ Hrun3).
  destruct fin3; cbn [negb]; [|apply height_step_stop; [lia|apply H3..]].
  exists tot3, true, (on_stale (delete h) s3). unfold bounded_total.
  split_and!; [done|lia|lia| |cbn; by rewrite (st_stale _ _ _ _ _ H3)].
  apply (collected_height s _ h di None); [done| | | | |done].
  - cbn. by rewrite (st_stale _ _ _ _ _ H3).
  - apply H3.
  - apply H3.
  - intros rt id Hl. right. apply (st_bare _ _ _ _ _ H3); [|done].
    destruct rt; [|set_solver..]. by destruct Hl as (? & ? & _).
Qed.

Lemma collect_all_run l maxCleanup tot s :
  perm_ok (perm s) -> NoDup l.*1 -> (forall h di, (h, di) ∈ l -> stale s !! h = Some di) ->
  0 <= tot <= maxCleanup -> maxCleanup < two64 ->
  exists s', collect_all l maxCleanup tot s = (Ret tt, s') /\ collected s s'.
Proof.
  revert tot s. induction l as [|[h di] l IH]; intros tot s Hok Hnd Hl Htot Hmax; cbn [collect_all].
  { exists s. split; [done|]. by apply collected_refl. }
  apply NoDup_cons in Hnd as [Hni Hnd]. cbn in Hni.
  destruct (collect_info_run h di maxCleanup tot s Hok) as (tot1 & fin & s1 & Hrun & Hb & Hend);
    [apply Hl; set_solver|done|done|].
  rewrite (bind_run _ _ _ _ _ Hrun). unfold bounded_total in Hb. destruct fin.
  - destruct Hend as [Hc Hst].
    destruct (IH tot1 s1) as (s' & Hrun' & Hc'); [apply Hc|done| |lia|done|].
    { intros h' di' Hin. rewrite Hst, lookup_delete_ne; [apply Hl; set_solver|].
      intros ->. apply Hni. by apply (list_elem_of_fmap_2' _ _ _ _ Hin). }
    exists s'. split; [done|]. by eapply collected_trans.
  - destruct Hend as (_ & Hc & _). by exists s1.
Qed.
End GCFacts.
