(* ===== verification/PermissionTheorems.v ===== *)
(** * x/permission and the permission checks of x/storage: theorems

    The store of policies as a map of grants, expiry, garbage collection, the
    verdicts of the permission checks and the accounting of size limits, each
    with a witness on small states; and the byte keys of [types/keys.go]. *)

From Stdlib Require Import Ascii DecimalString DecimalN.
From S2P Require Import Prelude StorageTypes Bytes Grn Permission PermissionKeeper.
From S2P Require Import PermissionFacts PermissionRefine PermissionRemove PermissionEval.
From S2P Require Import StoragePermission StoragePermissionFacts StorageGC StorageGCFacts.

(** ** x/permission: concrete instances

    Concrete text forms (hexadecimal addresses, decimal numbers, literal
    patterns) for the parameters of the model, and concrete states on which
    the theorems are applied. *)

(** ** Addresses in hexadecimal *)

Definition hex_digit (d : Z) : ascii :=
  ascii_of_N (Z.to_N (if d <? 10 then 48 + d else 87 + d)).

Definition digit_val (c : ascii) : option Z :=
  let b := byte_of c in
  if in_range 48 57 b then Some (b - 48)
  else if in_range 97 102 b then Some (b - 87) else None.

Fixpoint hex_text (n : nat) (x : Z) : string :=
  match n with
  | O => EmptyString
  | S n' => String (hex_digit (x / 16 ^ Z.of_nat n' mod 16)) (hex_text n' x)
  end.

Fixpoint hex_value (acc : Z) (s : string) : option Z :=
  match s with
  | EmptyString => Some acc
  | String c s' => match digit_val c with None => None | Some d => hex_value (acc * 16 + d) s' end
  end.

#[global] Instance hex_addresses : AddressText := {
  acc_String a := ("0x" +:+ hex_text 40 a);
  AccAddressFromHexUnsafe s :=
    match CutPrefix s "0x" with
    | None => None
    | Some digits => if (String.length digits =? 40)%nat then hex_value 0 digits else None
    end;
}.

Lemma hex_digit_ok d :
  0 <= d < 16 -> digit_val (hex_digit d) = Some d /\ Ascii.eqb (hex_digit d) ":" = false.
Proof.
  intros Hd. assert (d ∈ [0; 1; 2; 3; 4; 5; 6; 7; 8; 9; 10; 11; 12; 13; 14; 15]) as Hin
    by (rewrite !elem_of_cons; lia).
  repeat (apply elem_of_cons in Hin as [-> |Hin]; [done|]). by apply not_elem_of_nil in Hin.
Qed.

Lemma hex_text_length n x : String.length (hex_text n x) = n.
Proof. induction n; cbn; congruence. Qed.

Lemma hex_text_value n x acc :
  hex_value acc (hex_text n x) = Some (acc * 16 ^ Z.of_nat n + x mod 16 ^ Z.of_nat n).
Proof.
  revert acc. induction n as [|n IH]; intros acc; cbn [hex_text hex_value].
  { rewrite Z.mod_1_r. f_equal. lia. }
  destruct (hex_digit_ok (x / 16 ^ Z.of_nat n mod 16)) as [-> _]; [by apply Z.mod_pos_bound|].
  rewrite IH, Nat2Z.inj_succ, Z.pow_succ_r by lia. f_equal.
  assert (0 < 16 ^ Z.of_nat n) by (apply Z.pow_pos_nonneg; lia).
  rewrite (Z.mul_comm 16), Z.rem_mul_r by lia. lia.
Qed.

Lemma hex_text_no_colon n x : has ":" (hex_text n x) = false.
Proof.
  induction n as [|n IH]; [done|]. cbn [hex_text has].
  destruct (hex_digit_ok (x / 16 ^ Z.of_nat n mod 16)) as [_ ->]; [by apply Z.mod_pos_bound|].
  done.
Qed.

#[global] Instance hex_address_laws : AddressTextLaws.
Proof.
  split.
  - intros a Ha. unfold AccAddressFromHexUnsafe, acc_String, hex_addresses.
    rewrite CutPrefix_app, hex_text_length, hex_text_value. cbn [Nat.eqb].
    rewrite Z.mod_small; [done|]. by replace (16 ^ Z.of_nat 40) with (256 ^ 20).
  - intros a. unfold acc_String, hex_addresses. rewrite has_app. by rewrite hex_text_no_colon.
Qed.

(** ** Decimal numbers and literal patterns *)

#[global] Instance decimals : UintText := {
  ParseUint s := match NilZero.uint_of_string s with
                 | None => None
                 | Some d => Some (Z.of_N (N.of_uint d))
                 end;
  uint_String n := NilZero.string_of_uint (N.to_uint (Z.to_N n));
}.

#[global] Instance literal_patterns : Regexps := {
  regexp_Compile r := if has "[" r then None else Some (String.eqb r);
}.

(** ** States *)

Definition perm0 : PermState := set_params DefaultParams empty_state.

Lemma perm0_ok : perm_ok perm0.
Proof.
  split; [split|split|].
  - intros [[rt rid] [a|g]] id; cbn; by rewrite lookup_empty.
  - intros id p. cbn. by rewrite lookup_empty.
  - intros t id. cbn. rewrite lookup_empty. setoid_rewrite lookup_empty. naive_solver.
  - intros rt rid a. cbn. rewrite lookup_empty. by intros [].
  - intros rt rid items. cbn. by rewrite lookup_empty.
  - by cbn.
Qed.

Lemma perm0_wf : policies_wf perm0.
Proof. intros id p. cbn. by rewrite lookup_empty. Qed.

(** The outcome and the state of a policy put *)
Lemma put_keeps s p k id :
  perm_ok s -> target p = Some k -> keyed k = true -> (PutPolicy p s).1 = Ret id ->
  perm_ok (PutPolicy p s).2 /\
  (policies_wf s -> Forall well_formed (p_Statements p) -> policies_wf (PutPolicy p s).2).
Proof.
  intros Hok Ht Hk Hret. pose proof (PutPolicy_put s p k Hok Ht Hk) as Hput. unfold put_spec in Hput.
  assert (exists s', (PutPolicy p s).2 = s' /\ stores s k (Some (granted p)) s')
    as (s' & -> & Hst).
  { destruct (group_full s k); [by rewrite Hput in Hret|].
    destruct (policy_id s k); [by destruct Hput as (s' & -> & ?); exists s'|].
    destruct (_ <? _); [by destruct Hput as (s' & -> & ?); exists s'|congruence]. }
  split; [apply Hst|]. intros Hwf Hp. by eapply stores_wf.
Qed.

(** Account 7 may create 100 bytes in bucket 1; group 5 may read it. *)
Definition quota : Statement :=
  mkStatement EFFECT_ALLOW [ACTION_CREATE_OBJECT] [] None (Some 100).
Definition policy7 : Policy :=
  mkPolicy 0 (NewPrincipalWithAccount 7) RESOURCE_TYPE_BUCKET 1 [quota] (Some 50).
Definition reading : Statement :=
  mkStatement EFFECT_ALLOW [ACTION_GET_OBJECT] ["grn:o::bucket/object"%string] None None.
Definition policy5 : Policy :=
  mkPolicy 0 (NewPrincipalWithGroupID 5) RESOURCE_TYPE_BUCKET 1 [reading] None.

Definition perm1 : PermState := (PutPolicy policy7 perm0).2.
Definition perm2 : PermState := (PutPolicy policy5 perm1).2.

Lemma statements_wf : Forall well_formed [quota] /\ Forall well_formed [reading].
Proof. split; repeat constructor. by eexists. Qed.

Lemma perm1_ok : perm_ok perm1 /\ policies_wf perm1.
Proof.
  destruct (put_keeps perm0 policy7 (RESOURCE_TYPE_BUCKET, 1, GAccount 7) 1 perm0_ok)
    as [Hok Hwf]; [by_eval..|]. split; [done|]. apply Hwf; [apply perm0_wf|apply statements_wf].
Qed.

Lemma perm2_ok : perm_ok perm2 /\ policies_wf perm2.
Proof.
  destruct perm1_ok as [Hok1 Hwf1].
  destruct (put_keeps perm1 policy5 (RESOURCE_TYPE_BUCKET, 1, GGroup 5) 2 Hok1)
    as [Hok Hwf]; [by_eval..|]. split; [done|]. apply Hwf; [done|apply statements_wf].
Qed.

Definition bucket1 : BucketInfo := mkBucket (acc_String 9) "bucket"
  VISIBILITY_TYPE_PRIVATE 1 SOURCE_TYPE_ORIGIN 0 9 1 0 BUCKET_STATUS_CREATED false.
Definition object3 : ObjectInfo :=
  mkObject (acc_String 9) EmptyString "bucket" "object" 3 1 100 VISIBILITY_TYPE_INHERIT
    "text/plain" 0 OBJECT_STATUS_SEALED 0 SOURCE_TYPE_ORIGIN [] false 0 EmptyString 0.
Definition group5 : GroupInfo := mkGroup (acc_String 9) "readers" 5.
Definition resources0 : Resources :=
  mkResources {["bucket"%string := 1]} {[1 := bucket1]} {[("bucket", "object")%string := 3]}
    {[3 := object3]} {[(9, "readers"%string) := 5]} {[5 := group5]}.
Definition ctx0 : PermCtx := mkPermCtx 20 true.

(** Bucket 1 was deleted at height 4. *)
Definition gc0 : GCState := mkGCState perm2 {[4 := mkDeleteInfo (Some [1]) None None]} None.

(** ** Resource names *)

Lemma GRN_roundtrip_witness :
  ParseFromString (GRN_String (NewObjectGRN "bucket" "a/b")) false =
    inr (NewObjectGRN "bucket" "a/b") /\
  ParseFromString (GRN_String (NewObjectGRN "bucket" "a:b")) true <>
    inr (NewObjectGRN "bucket" "a:b") /\
  ParseFromString (GRN_String (NewGroupGRN 9 "readers")) false = inr (NewGroupGRN 9 "readers").
Proof.
  split_and!.
  - apply (GRN_roundtrip false); by_eval || (split; [by_eval|right; by_eval]).
  - intros Hp. apply (GRN_roundtrip true) in Hp as [Hc _]; [revert Hc|..]; by_eval.
  - apply (GRN_roundtrip false); [lia|by_eval|]. split; [by_eval|right; by_eval].
Defined.

(** ** The store of policies *)

(** C14: the policy store is a map of grants.  In a state whose index,
    policies and expiry queue agree, putting a policy for a grantee sets that
    grantee's statements and expiration time, changes no other grant and
    keeps the agreement; it is refused exactly when the resource's policy
    group is at its limit, and panics only at the end of the id sequence.
    Deleting clears exactly the grantee's grant and returns its policy id. *)
Theorem policy_store_refines `{AddressText, UintText} (s : PermState) :
  perm_ok s ->
  (forall p k, target p = Some k -> keyed k = true ->
     if group_full s k then PutPolicy p s = (Err ErrLimitExceeded, s)
     else if bool_decide (policy_id s k = None) && (2 ^ 256 <=? last_id s + 1)
     then (PutPolicy p s).1 = Panic
     else exists s', PutPolicy p s =
            (Ret (match policy_id s k with Some _ => p_Id p | None => last_id s + 1 end), s') /\
          perm_ok s' /\ (forall k', grant s' k' = if decide (k' = k) then Some (granted p) else grant s k') /\
          same_rest s s') /\
  (forall pr rt rid g, grantee_of pr = Some g -> keyed (rt, rid, g) = true ->
     exists s', DeletePolicy pr rt rid s = (Ret (default 0 (policy_id s (rt, rid, g))), s') /\
       perm_ok s' /\ (forall k', grant s' k' = if decide (k' = (rt, rid, g)) then None else grant s k') /\
       same_rest s s').
Proof.
  intros Hok. split.
  - intros p k Ht Hk. pose proof (PutPolicy_put s p k Hok Ht Hk) as Hput. unfold put_spec in Hput.
    destruct (group_full s k); [done|]. destruct (policy_id s k) as [id|].
    + rewrite bool_decide_false by done. destruct Hput as (s' & -> & ? & ? & ?). by exists s'.
    + rewrite bool_decide_true by done. rewrite Z.leb_antisym. cbn [andb].
      destruct (_ <? _); [|done]. destruct Hput as (s' & -> & ? & ? & ?). by exists s'.
  - intros pr rt rid g Hg Hk. destruct (DeletePolicy_clears s pr rt rid g Hok Hg Hk) as (s' & -> & Hc).
    exists s'. split_and!; [done|apply Hc| |apply Hc]. intros k'. rewrite (c_grant _ _ _ Hc).
    repeat case_decide; set_solver.
Qed.

Lemma policy_store_refines_witness :
  exists s1 s2, PutPolicy policy5 perm1 = (Ret 2, s1) /\
    DeletePolicy (p_Principal policy7) RESOURCE_TYPE_BUCKET 1 perm2 = (Ret 1, s2) /\
    grant s1 (RESOURCE_TYPE_BUCKET, 1, GGroup 5) = Some (granted policy5) /\
    grant s2 (RESOURCE_TYPE_BUCKET, 1, GAccount 7) = None.
Proof.
  destruct (policy_store_refines perm1 (proj1 perm1_ok)) as [Hput _].
  destruct (policy_store_refines perm2 (proj1 perm2_ok)) as [_ Hdel].
  destruct (Hput policy5 (RESOURCE_TYPE_BUCKET, 1, GGroup 5)) as (s1 & H1 & _ & Hg1 & _); [by_eval..|].
  destruct (Hdel (p_Principal policy7) RESOURCE_TYPE_BUCKET 1 (GAccount 7)) as (s2 & H2 & _ & Hg2 & _);
    [by_eval..|].
  exists s1, s2. rewrite H1, H2. split_and!; [by_eval|by_eval|..].
  - by rewrite Hg1, decide_True.
  - by rewrite Hg2, decide_True.
Defined.

(** ** Expiry *)

(** C21: expired policies are removed, and nothing else.  The end of a block
    never panics: it removes policies whose time is before the block time,
    with their index and queue entries; every other grant stays.  When the
    expired ones are within the iteration limit, no policy that expired
    before the block time is left. *)
Theorem RemoveExpiredPolicies_exact `{AddressText, UintText} (s : PermState) (blockTime : Z) :
  perm_ok s -> is_u64 (MaximumRemoveExpiredPoliciesIteration (GetParams s)) = true ->
  exists s', EndBlocker blockTime s = (Ret tt, s') /\ perm_ok s' /\ same_rest s s' /\
    (forall k, grant s' k = grant s k \/
       grant s' k = None /\ exists l e, grant s k = Some (l, Some e) /\ e < blockTime) /\
    (Z.of_nat (length (expired_entries blockTime s)) <=
       MaximumRemoveExpiredPoliciesIteration (GetParams s) ->
     forall k l e, grant s' k = Some (l, Some e) -> blockTime <= e).
Proof.
  intros Hok Hmax. unfold is_u64 in Hmax.
  destruct (RemoveExpiredPolicies_clears blockTime s Hok) as (ks & s' & Hrun & Hc & Hq); [lia|].
  destruct (expired_entries_spec blockTime s) as [_ Hin].
  exists s'. split_and!; [done|apply Hc|apply Hc|..].
  - intros k. rewrite (c_grant _ _ _ Hc). case_decide as Hk; [right|by left]. split; [done|].
    apply list_elem_of_lookup in Hk as [i Hi].
    destruct (Forall2_lookup_r _ _ _ _ _ Hq Hi) as ([t id] & Ht & _ & l & Hg).
    exists l, t. split; [done|]. apply (Hin t id). eapply list_elem_of_lookup_2.
    by eapply lookup_take_Some in Ht as [Ht _].
  - intros Hall k l e. rewrite (c_grant _ _ _ Hc). case_decide as Hk; [done|]. intros Hg.
    destruct (Z.le_gt_cases blockTime e) as [|Hlt]; [done|]. destruct Hk.
    rewrite take_ge in Hq by (unfold room; lia).
    pose proof Hg as Hg'. unfold grant in Hg'.
    destruct (policy_id s k) as [id|] eqn:Hid; [|done].
    destruct (indexed_policy s k id Hok Hid) as (p & Hp & _). rewrite Hp in Hg'. cbn in Hg'.
    assert ((e, id) ∈ expired_entries blockTime s) as He.
    { apply Hin. split; [|lia]. apply (l_queue _ _ _ _ (ok_linked _ Hok)). exists p.
      split; [done|]. by injection Hg'. }
    apply list_elem_of_lookup in He as [i Hi].
    destruct (Forall2_lookup_l _ _ _ _ _ Hq Hi) as (k' & Hk' & Hid' & _). cbn in Hid'.
    rewrite (linked_inj _ _ _ _ (ok_linked _ Hok) k k' id Hid Hid').
    by eapply list_elem_of_lookup_2.
Qed.

Lemma RemoveExpiredPolicies_exact_witness :
  exists s', EndBlocker 60 perm2 = (Ret tt, s') /\ perm_ok s' /\
    forall l e, grant s' (RESOURCE_TYPE_BUCKET, 1, GAccount 7) = Some (l, Some e) -> 60 <= e.
Proof.
  destruct (RemoveExpiredPolicies_exact perm2 60 (proj1 perm2_ok)) as (s' & Hrun & Hok & _ & _ & Hall);
    [by_eval|].
  exists s'. split_and!; [done|done|]. intros l e. apply Hall. by_eval.
Defined.

(** ** Garbage collection *)

(** C19: the collector forgets a deleted resource only when it is clean.  For
    every resource recorded as deleted, after a run either it is still
    recorded, or no policy on it is left and, for a group, no member.  The
    policies on resources that were not recorded are untouched, and nothing
    new is recorded. *)
Theorem stale_policies_collected `{AddressText, UintText} (s : GCState) (cleanupMax : Z) :
  perm_ok (perm s) -> is_u64 cleanupMax = true ->
  exists s', GarbageCollectResourcesStalePolicy cleanupMax s = (Ret tt, s') /\ perm_ok (perm s') /\
    (forall rt id, listed s rt id -> listed s' rt id \/
       (forall g, grant (perm s') (rt, id, g) = None) /\
       (rt = RESOURCE_TYPE_GROUP -> forall a, group_members (perm s') !! (id, a) = None)) /\
    (forall rt id g, ~ listed s rt id -> grant (perm s') (rt, id, g) = grant (perm s) (rt, id, g)) /\
    (forall rt id, listed s' rt id -> listed s rt id).
Proof.
  intros Hok Hmax. unfold is_u64 in Hmax. unfold GarbageCollectResourcesStalePolicy. rewrite bind_get.
  destruct (collect_all_run (iterate Z.leb (stale s)) cleanupMax 0 s) as (s' & Hrun & Hc);
    [done|apply iterate_NoDup|by intros h di ?%elem_of_iterate|lia|lia|].
  exists s'. split_and!; [done|apply Hc|apply Hc|apply Hc|apply Hc].
Qed.

Lemma stale_policies_collected_witness :
  exists s', GarbageCollectResourcesStalePolicy 100 gc0 = (Ret tt, s') /\ perm_ok (perm s').
Proof.
  destruct (stale_policies_collected gc0 100 (proj1 perm2_ok)) as (s' & Hrun & Hok & _); [by_eval|].
  by exists s'.
Defined.

(** The record of the resources deleted in a block is dropped with the
    transient store when the block reached the deletion limit: their policies
    are never collected. *)
Lemma deletions_at_limit_forgotten `{AddressText, UintText} deletionMax height cleanupMax s :
  EndBlocker_collect deletionMax deletionMax height cleanupMax s = (Ret tt, set_current None s).
Proof.
  unfold EndBlocker_collect. by rewrite Z.leb_refl, orb_true_r.
Qed.

(** ** Verdicts *)

Lemma public_read (b : BucketInfo) (o : ObjectInfo) (action : ActionType) :
  (bool_decide (ob_Visibility o = VISIBILITY_TYPE_PUBLIC_READ) ||
   bool_decide (ob_Visibility o = VISIBILITY_TYPE_INHERIT) &&
   bool_decide (b_Visibility b = VISIBILITY_TYPE_PUBLIC_READ)) &&
  allowed_in PublicReadObjectAllowedActions action =
  bool_decide ((ob_Visibility o = VISIBILITY_TYPE_PUBLIC_READ \/
                ob_Visibility o = VISIBILITY_TYPE_INHERIT /\
                b_Visibility b = VISIBILITY_TYPE_PUBLIC_READ) /\
               action ∈ PublicReadObjectAllowedActions).
Proof. unfold allowed_in. repeat case_bool_decide; naive_solver. Qed.

(** The check takes the owner of the object for the owner, also where the
    bucket has another one. *)
Lemma object_verdict `{AddressText, UintText, Regexps} (st : Resources) (ctx : PermCtx)
    (b : BucketInfo) (o : ObjectInfo) (owner : Z) (operator : option Z) (action : ActionType)
    (s : PermState) :
  perm_ok s -> policies_wf s -> AccAddressFromHexUnsafe (ob_Owner o) = Some owner ->
  let public := (ob_Visibility o = VISIBILITY_TYPE_PUBLIC_READ \/
                 ob_Visibility o = VISIBILITY_TYPE_INHERIT /\
                 b_Visibility b = VISIBILITY_TYPE_PUBLIC_READ) /\
                action ∈ PublicReadObjectAllowedActions in
  let res := mkOptions (GRN_String (NewObjectGRN (ob_BucketName o) (ob_ObjectName o))) None in
  exists e, VerifyObjectPermission st ctx b o operator action s = (Ret e, s) /\
    (e = EFFECT_ALLOW \/ e = EFFECT_DENY) /\
    (e = EFFECT_ALLOW <->
     public \/ exists op, operator = Some op /\
       (op = owner \/
        let vb := verdict st ctx action (Some res) s RESOURCE_TYPE_BUCKET (b_Id b) op in
        let vo := verdict st ctx action None s RESOURCE_TYPE_OBJECT (ob_Id o) op in
        vb <> EFFECT_DENY /\ vo <> EFFECT_DENY /\ (vb = EFFECT_ALLOW \/ vo = EFFECT_ALLOW))).
Proof.
  intros Hok Hwf Howner public res. unfold VerifyObjectPermission. rewrite public_read.
  destruct (decide public) as [Hpub|Hnp].
  { rewrite bool_decide_true by done. exists EFFECT_ALLOW. split_and!; [done|by left|].
    split; [by left|done]. }
  rewrite bool_decide_false by done. destruct operator as [op|].
  2: { exists EFFECT_DENY. split_and!; [done|by right|]. split; [done|].
       intros [?|(? & ? & _)]; done. }
  rewrite (bind_run _ _ s owner s) by (unfold MustAccAddressFromHex; by rewrite Howner).
  destruct (Z.eqb_spec owner op) as [->|Hno].
  { exists EFFECT_ALLOW. split_and!; [done|by left|]. split; [|done]. intros _. right. eauto. }
  cbv zeta. fold res.
  rewrite (bind_run _ _ _ _ _ (VerifyPolicy_reads st ctx action (Some res) s RESOURCE_TYPE_BUCKET
    (b_Id b) op Hok Hwf I (or_introl eq_refl) (or_introl eq_refl))).
  set (vb := verdict _ _ _ (Some res) _ _ _ _).
  case_bool_decide; [exists EFFECT_DENY; split_and!; [done|by right|naive_solver]|].
  rewrite (bind_run _ _ _ _ _ (VerifyPolicy_reads st ctx action None s RESOURCE_TYPE_OBJECT
    (ob_Id o) op Hok Hwf I (or_introl eq_refl) (or_intror eq_refl))).
  set (vo := verdict _ _ _ None _ _ _ _).
  case_bool_decide; [exists EFFECT_DENY; split_and!; [done|by right|naive_solver]|].
  destruct (bool_decide (vb = _) || bool_decide (vo = _)) eqn:E;
    [apply orb_true_iff in E; rewrite !bool_decide_eq_true in E
    |apply orb_false_iff in E; rewrite !bool_decide_eq_false in E].
  - exists EFFECT_ALLOW. split_and!; [done|by left|]. split; [|done]. intros _.
    right. exists op. split; [done|]. by right.
  - exists EFFECT_DENY. split_and!; [done|by right|]. naive_solver.
Qed.

(** The operator owns both the bucket and the object, or neither. *)
Definition owners_agree `{AddressText} (b : BucketInfo) (o : ObjectInfo) (operator : option Z) : Prop :=
  forall op, operator = Some op ->
    AccAddressFromHexUnsafe (b_Owner b) = Some op <-> AccAddressFromHexUnsafe (ob_Owner o) = Some op.

(** C18: the object check allows exactly what it promises, for an operator that
    owns both the bucket and the object or neither.  The check reads and does
    not write.  An object readable by everyone allows the read actions;
    otherwise an anonymous operator is denied, the owner allowed, and anyone
    else is allowed exactly when neither the bucket's nor the object's policies
    deny and at least one of them allows, where the account's own policy decides
    if it says anything, and among the live group memberships a denial wins. *)
Theorem object_permission_verdict `{AddressText, UintText, Regexps} (st : Resources) (ctx : PermCtx)
    (b : BucketInfo) (o : ObjectInfo) (owner : Z) (operator : option Z) (action : ActionType)
    (s : PermState) :
  perm_ok s -> policies_wf s -> AccAddressFromHexUnsafe (ob_Owner o) = Some owner ->
  owners_agree b o operator ->
  let public := (ob_Visibility o = VISIBILITY_TYPE_PUBLIC_READ \/
                 ob_Visibility o = VISIBILITY_TYPE_INHERIT /\
                 b_Visibility b = VISIBILITY_TYPE_PUBLIC_READ) /\
                action ∈ PublicReadObjectAllowedActions in
  let res := mkOptions (GRN_String (NewObjectGRN (ob_BucketName o) (ob_ObjectName o))) None in
  exists e, VerifyObjectPermission st ctx b o operator action s = (Ret e, s) /\
    (e = EFFECT_ALLOW \/ e = EFFECT_DENY) /\
    (e = EFFECT_ALLOW <->
     public \/ exists op, operator = Some op /\
       (op = owner \/
        let vb := verdict st ctx action (Some res) s RESOURCE_TYPE_BUCKET (b_Id b) op in
        let vo := verdict st ctx action None s RESOURCE_TYPE_OBJECT (ob_Id o) op in
        vb <> EFFECT_DENY /\ vo <> EFFECT_DENY /\ (vb = EFFECT_ALLOW \/ vo = EFFECT_ALLOW))).
Proof. intros Hok Hwf Howner _. by apply object_verdict. Qed.

Lemma object_permission_verdict_witness :
  exists e, VerifyObjectPermission resources0 ctx0 bucket1 object3 (Some 8) ACTION_GET_OBJECT perm2 =
    (Ret e, perm2) /\ e <> EFFECT_ALLOW.
Proof.
  destruct (object_permission_verdict resources0 ctx0 bucket1 object3 9 (Some 8) ACTION_GET_OBJECT
    perm2 (proj1 perm2_ok) (proj2 perm2_ok)) as (e & Hrun & _ & Hiff); [by_eval| |].
  { intros op [= <-]. split; vm_compute; discriminate. }
  exists e. split; [exact Hrun|]. intros He. apply Hiff in He as [[[Hv|[_ Hv]] _]|(op & Hop & Hcase)].
  - discriminate Hv.
  - discriminate Hv.
  - injection Hop as <-. destruct Hcase as [Heq|(_ & _ & Hv)]; [discriminate Heq|].
    revert Hv. vm_compute. intros [Hv|Hv]; discriminate Hv.
Defined.

(** The check on a group has no answer for an operator without a policy
    of their own.  The owner is allowed; another operator gets the effect of
    the policy granted to their account, and when there is none, or it says
    nothing, the check panics: it goes on to the policies granted to groups,
    whose key has no form for a group. *)
Lemma group_permission_panics `{AddressText, UintText, Regexps} (st : Resources) (ctx : PermCtx)
    (g : GroupInfo) (operator : Z) (action : ActionType) (s : PermState) :
  perm_ok s -> policies_wf s ->
  VerifyGroupPermission st ctx g operator action s =
  (if EqualFold (g_Owner g) (acc_String operator) then Ret EFFECT_ALLOW
   else match effect_at ctx action None s (RESOURCE_TYPE_GROUP, g_Id g, GAccount operator) with
        | EFFECT_ALLOW => Ret EFFECT_ALLOW
        | EFFECT_UNSPECIFIED => Panic
        | _ => Ret EFFECT_DENY
        end, s).
Proof.
  intros Hok Hwf. unfold VerifyGroupPermission. destruct (EqualFold _ _); [done|].
  unfold bind. rewrite (VerifyPolicy_verdict st ctx action None s RESOURCE_TYPE_GROUP)
    by (done || by left). unfold verdict.
  destruct (effect_at _ _ _ _ _); done.
Qed.

Lemma group_permission_panics_witness :
  VerifyGroupPermission resources0 ctx0 group5 8 ACTION_UPDATE_GROUP_MEMBER perm2 = (Panic, perm2).
Proof.
  rewrite (group_permission_panics resources0 ctx0 group5 8 ACTION_UPDATE_GROUP_MEMBER perm2
    (proj1 perm2_ok) (proj2 perm2_ok)). f_equal.
Defined.

(** ** Size limits *)

(** C20: a size limit is never exceeded.  When an account's policy on a bucket
    has a live statement that limits the size it may create, and a sequence of
    creations is checked in transactions of one block and all are allowed,
    their sizes sum to at most the limit, and the limit left in the stored
    policy is the difference. *)
Theorem create_object_quota `{AddressText, UintText, Regexps} (st : Resources) (ctx : PermCtx)
    (rid op : Z) (sizes : list Z) (s s' : PermState) (p : Policy) (j : nat) (x : Statement)
    (limit : Z) (es : list Effect) :
  perm_ok s -> policies_wf s -> in_tx ctx = true ->
  0 <= limit -> Forall (fun w => is_u64 w = true) sizes ->
  policy_at s (RESOURCE_TYPE_BUCKET, rid, GAccount op) = Some p ->
  expired (p_ExpirationTime p) (BlockTime ctx) = false ->
  p_Statements p !! j = Some x -> limits ctx x limit ->
  create_all st ctx rid op sizes s = (Ret es, s') -> Forall (eq EFFECT_ALLOW) es ->
  zsum (fun w => w) sizes <= limit /\
  exists p' x', policy_at s' (RESOURCE_TYPE_BUCKET, rid, GAccount op) = Some p' /\
    p_Statements p' !! j = Some x' /\ s_LimitSize x' = Some (limit - zsum (fun w => w) sizes).
Proof.
  intros Hok Hwf Htx Hl Hs Hat Hexp Hx Hlim Hrun Hes.
  destruct (create_all_limit st ctx rid op sizes s p j x limit es s')
    as (p' & x' & Hat' & Hx' & Hlim' & Hsum); try done.
  split; [destruct Hsum as [-> |]; [done|done]|]. exists p', x'. split_and!; [done|done|apply Hlim'].
Qed.

Definition created_sizes : outcome perm_error (list Effect) * PermState :=
  create_all resources0 ctx0 1 7 [30; 60] perm2.

Lemma created_sizes_run : created_sizes.1 = Ret [EFFECT_ALLOW; EFFECT_ALLOW].
Proof. by_eval. Qed.

Lemma create_object_quota_witness : 30 + (60 + 0) <= 100.
Proof.
  refine (proj1 (create_object_quota resources0 ctx0 1 7 [30; 60] perm2 created_sizes.2
    (with_id policy7 1) 0 quota 100 [EFFECT_ALLOW; EFFECT_ALLOW] (proj1 perm2_ok) (proj2 perm2_ok)
    eq_refl _ _ _ _ _ _ _ _)).
  - lia.
  - repeat constructor.
  - by_eval.
  - by_eval.
  - reflexivity.
  - split; [by_eval|discriminate|by_eval|reflexivity].
  - rewrite <- created_sizes_run. apply surjective_pairing.
  - repeat constructor.
Defined.

(** ** x/permission: store keys

    The byte keys of [types/keys.go].  For positive ids (the sequences start
    at one) the key of an account policy or of a group member determines its
    resource and address, the prefix of a resource selects exactly its own
    entries, the queue orders its entries as [expiry_leb] does, and the end
    key of the expiry iterator cuts it off at the block time.  The fixed
    width text of a time is the SDK's [FormatTimeBytes], a parameter with its
    documented laws. *)

Definition FormatTimeBytesLength : nat := 29.

Class TimeText : Type := { FormatTimeBytes : Z -> list Z }.
Class TimeTextLaws `{TimeText} : Prop := {
  time_length : forall t, length (FormatTimeBytes t) = FormatTimeBytesLength;
  time_order : forall t1 t2 l1 l2,
    bytes_leb (FormatTimeBytes t1 ++ l1) (FormatTimeBytes t2 ++ l2) =
    (t1 <? t2) || ((t1 =? t2) && bytes_leb l1 l2);
}.

(** [byte(len(bz))] of at most 32 bytes *)
Definition LengthPrefix (id : Z) : list Z :=
  match big_bytes id with
  | [] => []
  | bz => Z.of_nat (length bz) :: bz
  end.

Definition addr_key (a : Z) : list Z := be_bytes 20 a.

(** [None] is the panic on a type without a prefix. *)
Definition PolicyForAccountPrefix (rid : Z) (rt : ResourceType) : option (list Z) :=
  match rt with
  | RESOURCE_TYPE_BUCKET => Some (17 :: LengthPrefix rid)
  | RESOURCE_TYPE_OBJECT => Some (18 :: LengthPrefix rid)
  | RESOURCE_TYPE_GROUP => Some (19 :: LengthPrefix rid)
  | RESOURCE_TYPE_UNSPECIFIED => None
  end.

Definition GetPolicyForAccountKey (rid : Z) (rt : ResourceType) (a : Z) : option (list Z) :=
  (fun key => key ++ addr_key a) <$> PolicyForAccountPrefix rid rt.

Definition GetPolicyForGroupKey (rid : Z) (rt : ResourceType) : option (list Z) :=
  match rt with
  | RESOURCE_TYPE_BUCKET => Some (33 :: big_bytes rid)
  | RESOURCE_TYPE_OBJECT => Some (34 :: big_bytes rid)
  | _ => None
  end.

Definition GetPolicyByIDKey (id : Z) : list Z := 49 :: big_bytes id.
Definition GroupMembersPrefix (groupID : Z) : list Z := 20 :: LengthPrefix groupID.
Definition GetGroupMemberKey (groupID member : Z) : list Z :=
  20 :: LengthPrefix groupID ++ addr_key member.
Definition GetGroupMemberByIDKey (id : Z) : list Z := 50 :: big_bytes id.

Definition PolicyByExpTimeKey `{TimeText} (t : Z) : list Z := 81 :: FormatTimeBytes t.
Definition PolicyPrefixQueue `{TimeText} (t : Z) (key : list Z) : list Z :=
  PolicyByExpTimeKey t ++ key.
Definition ParsePolicyIDFromQueueKey (key : list Z) : Z :=
  be_val (drop (FormatTimeBytesLength + 1) key).

(** [storetypes.InclusiveEndBytes] *)
Definition InclusiveEndBytes (key : list Z) : list Z := key ++ [0].

(** ** Facts *)

Lemma big_bytes_positive id :
  0 < id -> exists b l, big_bytes id = b :: l /\ 0 < b.
Proof.
  intros Hid. unfold big_bytes, nbytes. destruct (Z.leb_spec id 0); [lia|].
  pose proof (Z.log2_nonneg id). pose proof (Z.div_pos (Z.log2 id) 8 ltac:(lia) ltac:(lia)).
  rewrite Z.add_1_r, Z2Nat.inj_succ by lia. cbn [be_bytes]. eexists _, _. split; [done|].
  rewrite byte_at, Z2Nat.id by lia.
  pose proof (Z.log2_spec id Hid) as [Hlo Hhi].
  assert (256 ^ (Z.log2 id / 8) <= id) as Hpow.
  { change 256 with (2 ^ 8). rewrite <- Z.pow_mul_r by lia. etrans; [|exact Hlo].
    apply Z.pow_le_mono_r; [lia|]. apply Z.mul_div_le. lia. }
  assert (id < 256 ^ (Z.log2 id / 8) * 256) as Hpow2.
  { change 256 with (2 ^ 8) at 1. change 256 with (2 ^ 8). rewrite <- Z.pow_mul_r, <- Z.pow_add_r by lia.
    eapply Z.lt_le_trans; [exact Hhi|]. apply Z.pow_le_mono_r; [lia|].
    pose proof (Z.mul_succ_div_gt (Z.log2 id) 8). lia. }
  set (p := 256 ^ (Z.log2 id / 8)) in *.
  assert (0 < p) by (apply Z.pow_pos_nonneg; lia).
  assert (1 <= id / p < 256) as Hq
    by (split; [apply Z.div_le_lower_bound|apply Z.div_lt_upper_bound]; lia).
  rewrite Z.mod_small; lia.
Qed.

Lemma LengthPrefix_eq id : 0 < id -> LengthPrefix id = Z.of_nat (length (big_bytes id)) :: big_bytes id.
Proof. intros Hid. unfold LengthPrefix. by destruct (big_bytes_positive id Hid) as (b & l & -> & _). Qed.

Lemma prefix_cons_inv' (x y : Z) l1 l2 :
  x :: l1 `prefix_of` y :: l2 -> x = y /\ l1 `prefix_of` l2.
Proof. intros Hp. split; [by eapply prefix_cons_inv_1|by eapply prefix_cons_inv_2]. Qed.

(** A length-prefixed id is recognised in front of anything. *)
Lemma LengthPrefix_prefix id id' l :
  0 < id -> 0 < id' -> LengthPrefix id `prefix_of` LengthPrefix id' ++ l -> id = id'.
Proof.
  intros Hid Hid'. rewrite !LengthPrefix_eq by done. cbn [app]. intros [Hlen Hp]%prefix_cons_inv'.
  apply big_bytes_inj; [lia|lia|]. destruct Hp as [r Hr].
  apply app_inj_1 in Hr as [Hr _]; [done|]. lia.
Qed.

Lemma LengthPrefix_app id l : LengthPrefix id `prefix_of` LengthPrefix id ++ l.
Proof. by apply prefix_app_r. Qed.

Lemma addr_key_inj a a' : 0 <= a < 256 ^ 20 -> 0 <= a' < 256 ^ 20 -> addr_key a = addr_key a' -> a = a'.
Proof.
  intros Ha Ha' Heq. apply (f_equal be_val) in Heq. unfold addr_key in Heq.
  rewrite !be_val_bytes in Heq. change (Z.of_nat 20) with 20 in Heq.
  by rewrite !Z.mod_small in Heq.
Qed.

(** The prefix of a resource selects its own account policies. *)
Lemma account_prefix_exact rid rt pre rid' rt' a key :
  0 < rid -> 0 < rid' ->
  PolicyForAccountPrefix rid rt = Some pre -> GetPolicyForAccountKey rid' rt' a = Some key ->
  pre `prefix_of` key <-> rt' = rt /\ rid' = rid.
Proof.
  intros Hid Hid' Hpre Hkey. unfold GetPolicyForAccountKey in Hkey. split.
  - intros Hp. destruct rt, rt'; cbn in *; simplify_eq; apply prefix_cons_inv' in Hp as [? Hp];
      try lia; by apply LengthPrefix_prefix in Hp as ->.
  - intros [-> ->]. rewrite Hpre in Hkey. cbn in Hkey. simplify_eq. by apply prefix_app_r.
Qed.

Lemma account_key_inj rid rt a rid' rt' a' key :
  0 < rid -> 0 < rid' -> 0 <= a < 256 ^ 20 -> 0 <= a' < 256 ^ 20 ->
  GetPolicyForAccountKey rid rt a = Some key -> GetPolicyForAccountKey rid' rt' a' = Some key ->
  rt = rt' /\ rid = rid' /\ a = a'.
Proof.
  intros Hid Hid' Ha Ha' Hk Hk'. pose proof Hk as Hk0. unfold GetPolicyForAccountKey in Hk0.
  destruct (PolicyForAccountPrefix rid rt) as [pre|] eqn:Hpre; [|done]. cbn in Hk0. simplify_eq.
  destruct (proj1 (account_prefix_exact rid rt pre rid' rt' a' _ Hid Hid' Hpre Hk')) as [-> ->];
    [by apply prefix_app_r|].
  unfold GetPolicyForAccountKey in Hk'. rewrite Hpre in Hk'. cbn in Hk'.
  injection Hk' as Hk'. apply app_inv_head in Hk'. split_and!; [done|done|]. by apply addr_key_inj.
Qed.

Lemma member_prefix_exact g g' a :
  0 < g -> 0 < g' -> GroupMembersPrefix g `prefix_of` GetGroupMemberKey g' a <-> g = g'.
Proof.
  intros Hg Hg'. unfold GroupMembersPrefix, GetGroupMemberKey. split.
  - intros [_ Hp]%prefix_cons_inv'. by eapply LengthPrefix_prefix.
  - intros ->. apply prefix_cons, LengthPrefix_app.
Qed.

Section Queue.
Context `{TimeTextLaws}.

Lemma expiry_key_id t id : 0 <= id -> ParsePolicyIDFromQueueKey (PolicyPrefixQueue t (big_bytes id)) = id.
Proof.
  intros Hid. unfold ParsePolicyIDFromQueueKey, PolicyPrefixQueue, PolicyByExpTimeKey.
  rewrite Nat.add_1_r. cbn [app drop]. rewrite drop_app_length' by (by rewrite time_length).
  by apply be_val_big.
Qed.

Lemma expiry_key_order t id t' id' :
  bytes_leb (PolicyPrefixQueue t (big_bytes id)) (PolicyPrefixQueue t' (big_bytes id')) =
  expiry_leb (t, id) (t', id').
Proof.
  unfold PolicyPrefixQueue, PolicyByExpTimeKey, expiry_leb. cbn [app bytes_leb fst snd].
  by rewrite Z.ltb_irrefl, Z.eqb_refl, time_order.
Qed.

(** Below the end key of the iterator are the entries of earlier times. *)
Lemma expiry_end_exact t id now :
  0 < id ->
  negb (bytes_leb (InclusiveEndBytes (PolicyByExpTimeKey now)) (PolicyPrefixQueue t (big_bytes id))) =
  (t <? now).
Proof.
  intros Hid. destruct (big_bytes_positive id Hid) as (b & l & -> & Hb).
  unfold InclusiveEndBytes, PolicyPrefixQueue, PolicyByExpTimeKey. cbn [app bytes_leb].
  rewrite Z.ltb_irrefl, Z.eqb_refl, time_order. cbn [orb andb bytes_leb]. lia.
Qed.
End Queue.
