(* ===== verification/SpTypes.v ===== *)
(** * x/sp: data model and parameters

    The types of [x/sp/types]: storage providers, their descriptions, prices,
    maintenance records, deposit authorizations and the module parameters,
    the state of the module ([SpStore], one field per store prefix) and what
    its code calls: BLS signatures and the authz keeper.

    A provider's addresses are stored as the text of an address the code
    parsed before; the model stores the address.  A time is in nanoseconds
    since the epoch ([Time]); [Unix] is its second. *)

From Stdlib Require Import Ascii.
From S2P Require Import Prelude Sdk Bytes.

(** ** Providers *)

Inductive SpStatus : Type :=
| STATUS_IN_SERVICE
| STATUS_IN_JAILED
| STATUS_GRACEFUL_EXITING
| STATUS_IN_MAINTENANCE
| STATUS_FORCED_EXITING.

#[global] Instance SpStatus_eq_dec : EqDecision SpStatus.
Proof. solve_decision. Defined.

Record Description : Type := mkDescription {
  Moniker : string; Identity : string; Website : string; SecurityContact : string;
  Details : string;
}.

#[global] Instance Description_eq_dec : EqDecision Description.
Proof. solve_decision. Defined.

Record StorageProvider : Type := mkSp {
  sp_Id : Z;
  OperatorAddress : Addr;
  FundingAddress : Addr;
  SealAddress : Addr;
  ApprovalAddress : Addr;
  GcAddress : Addr;
  MaintenanceAddress : Addr;
  sp_TotalDeposit : Z;
  sp_Status : SpStatus;
  Endpoint : string;
  sp_Description : Description;
  BlsKey : list Z;
}.

Definition set_sp_status (v : SpStatus) (p : StorageProvider) : StorageProvider :=
  mkSp (sp_Id p) (OperatorAddress p) (FundingAddress p) (SealAddress p) (ApprovalAddress p)
    (GcAddress p) (MaintenanceAddress p) (sp_TotalDeposit p) v (Endpoint p) (sp_Description p)
    (BlsKey p).
Definition set_sp_deposit (v : Z) (p : StorageProvider) : StorageProvider :=
  mkSp (sp_Id p) (OperatorAddress p) (FundingAddress p) (SealAddress p) (ApprovalAddress p)
    (GcAddress p) (MaintenanceAddress p) v (sp_Status p) (Endpoint p) (sp_Description p)
    (BlsKey p).

Definition IsInService (p : StorageProvider) : bool := bool_decide (sp_Status p = STATUS_IN_SERVICE).
Definition IsInMaintenance (p : StorageProvider) : bool :=
  bool_decide (sp_Status p = STATUS_IN_MAINTENANCE).
Definition is_exiting (p : StorageProvider) : bool :=
  bool_decide (sp_Status p = STATUS_GRACEFUL_EXITING) ||
  bool_decide (sp_Status p = STATUS_FORCED_EXITING).

Definition MaxMonikerLength : Z := 70.
Definition MaxIdentityLength : Z := 3000.
Definition MaxWebsiteLength : Z := 140.
Definition MaxDetailsLength : Z := 280.
Definition MaintenanceRecordsGCFrequencyInBlocks : Z := 100.
Definition DoNotModifyDesc : string := "[do-not-modify]".

Definition text_len (t : string) : Z := Z.of_nat (String.length t).

Definition EnsureLength (d : Description) : bool :=
  negb (MaxMonikerLength <? text_len (Moniker d)) &&
  negb (MaxIdentityLength <? text_len (Identity d)) &&
  negb (MaxWebsiteLength <? text_len (Website d)) &&
  negb (MaxDetailsLength <? text_len (Details d)).

(** [d.UpdateDescription(d2)]: the security contact is always taken from
    [d2]. *)
Definition UpdateDescription (d d2 : Description) : option Description :=
  let pick old new := if bool_decide (new = DoNotModifyDesc) then old else new in
  let d2 := mkDescription (pick (Moniker d) (Moniker d2)) (pick (Identity d) (Identity d2))
              (pick (Website d) (Website d2)) (SecurityContact d2)
              (pick (Details d) (Details d2)) in
  if EnsureLength d2 then Some d2 else None.

(** ** Prices and maintenance records

    A [LegacyDec] is its numerator over 10^18. *)

Record SpStoragePrice : Type := mkSpPrice {
  pr_SpId : Z; pr_UpdateTimeSec : Z; pr_ReadPrice : Z; pr_FreeReadQuota : Z; pr_StorePrice : Z;
}.

Record GlobalSpStorePrice : Type := mkGlobalPrice {
  gp_UpdateTimeSec : Z; gp_ReadPrice : Z; gp_PrimaryStorePrice : Z; gp_SecondaryStorePrice : Z;
}.

Record MaintenanceRecord : Type := mkMaintenance {
  mr_Height : Z; mr_RequestDuration : Z; mr_ActualDuration : Z; mr_RequestAt : Z;
}.

Definition set_actual (v : Z) (r : MaintenanceRecord) : MaintenanceRecord :=
  mkMaintenance (mr_Height r) (mr_RequestDuration r) v (mr_RequestAt r).

Record RewardInfo : Type := mkReward { rw_Address : string; rw_Amount : string * Z }.

(** ** Parameters *)

(** [sdk.ValidateDenom]: a regular expression of the SDK. *)
Class Denoms : Type := { ValidateDenom : string -> bool }.

Record SpParams : Type := mkSpParams {
  DepositDenom : string;
  MinDeposit : option Z;
  SecondarySpStorePriceRatio : option Z;
  NumOfHistoricalBlocksForMaintenanceRecords : Z;
  MaintenanceDurationQuota : Z;
  NumOfLockupBlocksForMaintenance : Z;
  UpdateGlobalPriceInterval : Z;
  UpdatePriceDisallowedDays : Z;
}.

Definition DefaultSpParams : SpParams :=
  mkSpParams "amoca" (Some (10000 * 10 ^ 18)) (Some (12 * 10 ^ 16)) 864000 21600 21600 0 2.

(** The zero value [GetParams] returns from an empty store. *)
Definition zero_sp_params : SpParams := mkSpParams EmptyString None None 0 0 0 0 0.

Definition validateDepositDenom `{Denoms} (v : string) : bool :=
  negb (is_blank v) && ValidateDenom v.
Definition validateMinDeposit (v : option Z) : bool :=
  match v with None => false | Some d => negb (d <? 0) end.
Definition validateSecondarySpStorePriceRatio (v : option Z) : bool :=
  match v with None => false | Some d => (0 <? d) && negb (10 ^ 18 <? d) end.
Definition validateHistoricalBlocksForMaintenanceRecords (v : Z) : bool := negb (v =? 0).
Definition validateMaintenanceDurationQuota (v : Z) : bool := negb (v =? 0).
Definition validateLockUpBlocksForMaintenance (v : Z) : bool := negb (v =? 0).

(** [Params.Validate]; the two [uint] parameters have no wrong value. *)
Definition SpParams_Validate `{Denoms} (p : SpParams) : bool :=
  validateDepositDenom (DepositDenom p) &&
  validateMinDeposit (MinDeposit p) &&
  validateSecondarySpStorePriceRatio (SecondarySpStorePriceRatio p) &&
  validateHistoricalBlocksForMaintenanceRecords (NumOfHistoricalBlocksForMaintenanceRecords p) &&
  validateMaintenanceDurationQuota (MaintenanceDurationQuota p) &&
  validateLockUpBlocksForMaintenance (NumOfLockupBlocksForMaintenance p).

(** ** Errors *)

Inductive sp_error : Type :=
| ErrStorageProviderNotFound
| ErrStorageProviderNotInService
| ErrStorageProviderOwnerExists
| ErrInsufficientDepositAmount
| ErrDepositAccountNotAllowed
| ErrSpInvalidDenom
| ErrStorageProviderFundingAddrExists
| ErrStorageProviderSealAddrExists
| ErrStorageProviderApprovalAddrExists
| ErrStorageProviderGcAddrExists
| ErrStorageProviderNotChanged
| ErrStorageProviderExitFailed
| ErrStorageProviderInvalidBlsKey
| ErrStorageProviderBlsKeyExists
| ErrStorageProviderStatusUpdateNotAllow
| ErrStorageProviderPriceUpdateNotAllow
| ErrStorageProviderWrongStatus
| ErrSignerNotGovModule
| ErrSignerNotSPOperator
| ErrInvalidBlsSignature
| ErrSpInvalidSigner
| ErrSpInvalidAddress
| ErrSpInvalidRequest
| ErrSpInvalidParams
| ErrAccountNotFound
| ErrNoPrice               (* cannot find price for storage provider %d *)
| ErrAuthz                 (* an error of the authz keeper or of an authorization *)
| ErrSpBank.               (* an error of the bank keeper *)

(** ** Hexadecimal text: [hex.DecodeString] *)

Definition hex_digit (c : ascii) : option Z :=
  let n := Z.of_nat (nat_of_ascii c) in
  if (48 <=? n) && (n <=? 57) then Some (n - 48)
  else if (97 <=? n) && (n <=? 102) then Some (n - 87)
  else if (65 <=? n) && (n <=? 70) then Some (n - 55)
  else None.

Fixpoint hex_DecodeString (t : string) : option (list Z) :=
  match t with
  | EmptyString => Some []
  | String _ EmptyString => None
  | String a (String b t') =>
      match hex_digit a, hex_digit b, hex_DecodeString t' with
      | Some x, Some y, Some l => Some (16 * x + y :: l)
      | _, _, _ => None
      end
  end.

(** ** BLS signatures and authorizations *)

Class Bls : Type := {
  BlsPublicKey : Type;
  BlsSignature : Type;
  UnmarshalPublicKey : list Z -> option BlsPublicKey;
  UnmarshalSignature : list Z -> option BlsSignature;
  BlsVerify : BlsSignature -> BlsPublicKey -> list Z -> bool;
  tmhash_Sum : list Z -> list Z;
}.

(** [sdk.BLSPubKeyLength], [sdk.BLSSignatureLength] *)
Definition BLSPubKeyLength : Z := 48.
Definition BLSSignatureLength : Z := 96.

Record MsgSpDeposit : Type := mkMsgSpDeposit {
  sd_Creator : string; sd_SpAddress : string; sd_Deposit : string * Z }.

Record DepositAuthorization : Type := mkDepositAuthorization {
  MaxDeposit : option (string * Z);
  da_SpAddress : string;
}.

(** An authorization of a grant: the module's own, or one of another module
    ([X]), which accepts messages in its own way. *)
Inductive Authorization (X : Type) : Type :=
| auth_deposit (a : DepositAuthorization)
| auth_other (x : X).
Arguments auth_deposit {X}.
Arguments auth_other {X}.

Record AcceptResponse (X : Type) : Type := mkAccept {
  ar_Accept : bool; ar_Delete : bool; ar_Updated : option (Authorization X) }.
Arguments mkAccept {X}.
Arguments ar_Accept {X}.
Arguments ar_Delete {X}.
Arguments ar_Updated {X}.

(** A grant: expiration time and the authorization it unpacks to. *)
Record Grant (X : Type) : Type := mkGrant {
  gr_Expiration : option Z; gr_Authorization : option (Authorization X) }.
Arguments mkGrant {X}.
Arguments gr_Expiration {X}.
Arguments gr_Authorization {X}.

(** The authz keeper over a state [G], for grants on [MsgDeposit]. *)
Class AuthzKeeper (G : Type) : Type := {
  OtherAuthorization : Type;
  GetGrant : G -> Addr -> Addr -> option (Grant OtherAuthorization);
  DeleteGrant : G -> Addr -> Addr -> option G;
  UpdateGrant : G -> Addr -> Addr -> Authorization OtherAuthorization -> option G;
  OtherAccept : OtherAuthorization -> MsgSpDeposit -> option (AcceptResponse OtherAuthorization);
}.

(** [DepositAuthorization.Accept].  [Coin.SafeSub] fails on another
    denomination and on a negative result. *)
Definition DepositAuthorization_Accept {X} (a : DepositAuthorization) (msg : MsgSpDeposit)
    : option (AcceptResponse X) :=
  if negb (bool_decide (da_SpAddress a = sd_SpAddress msg)) then None
  else
    match MaxDeposit a with
    | None => Some (mkAccept true false
                      (Some (auth_deposit (mkDepositAuthorization None (da_SpAddress a)))))
    | Some (denom, max) =>
        if negb (bool_decide (denom = (sd_Deposit msg).1)) then None
        else
          let limitLeft := max - (sd_Deposit msg).2 in
          if limitLeft <? 0 then None
          else if limitLeft =? 0 then Some (mkAccept true true None)
          else Some (mkAccept true false
                  (Some (auth_deposit (mkDepositAuthorization (Some (denom, limitLeft))
                                         (da_SpAddress a)))))
    end.

(** ** Module state *)

Record SpStore : Type := mkSpStore {
  sp_params : option SpParams;
  (** [StorageProviderKey | id -> provider] *)
  providers : gmap Z StorageProvider;
  (** The indexes: address, or BLS public key, to id *)
  by_operator : gmap Addr Z;
  by_funding : gmap Addr Z;
  by_seal : gmap Addr Z;
  by_approval : gmap Addr Z;
  by_gc : gmap Addr Z;
  by_bls : gmap (list Z) Z;
  sp_prices : gmap Z SpStoragePrice;
  global_prices : gmap Z GlobalSpStorePrice;
  (** [StorageProviderMaintenanceRecordPrefix | operator -> records] *)
  maintenance : gmap Addr (list MaintenanceRecord);
  spSequence : option (list Z);
}.

Definition empty_sp_store : SpStore := mkSpStore None ∅ ∅ ∅ ∅ ∅ ∅ ∅ ∅ ∅ ∅ None.

Definition with_sp_params v s := mkSpStore v (providers s) (by_operator s) (by_funding s)
  (by_seal s) (by_approval s) (by_gc s) (by_bls s) (sp_prices s) (global_prices s)
  (maintenance s) (spSequence s).
Definition with_providers v s := mkSpStore (sp_params s) v (by_operator s) (by_funding s)
  (by_seal s) (by_approval s) (by_gc s) (by_bls s) (sp_prices s) (global_prices s)
  (maintenance s) (spSequence s).
Definition with_by_operator v s := mkSpStore (sp_params s) (providers s) v (by_funding s)
  (by_seal s) (by_approval s) (by_gc s) (by_bls s) (sp_prices s) (global_prices s)
  (maintenance s) (spSequence s).
Definition with_by_funding v s := mkSpStore (sp_params s) (providers s) (by_operator s) v
  (by_seal s) (by_approval s) (by_gc s) (by_bls s) (sp_prices s) (global_prices s)
  (maintenance s) (spSequence s).
Definition with_by_seal v s := mkSpStore (sp_params s) (providers s) (by_operator s)
  (by_funding s) v (by_approval s) (by_gc s) (by_bls s) (sp_prices s) (global_prices s)
  (maintenance s) (spSequence s).
Definition with_by_approval v s := mkSpStore (sp_params s) (providers s) (by_operator s)
  (by_funding s) (by_seal s) v (by_gc s) (by_bls s) (sp_prices s) (global_prices s)
  (maintenance s) (spSequence s).
Definition with_by_gc v s := mkSpStore (sp_params s) (providers s) (by_operator s)
  (by_funding s) (by_seal s) (by_approval s) v (by_bls s) (sp_prices s) (global_prices s)
  (maintenance s) (spSequence s).
Definition with_by_bls v s := mkSpStore (sp_params s) (providers s) (by_operator s)
  (by_funding s) (by_seal s) (by_approval s) (by_gc s) v (sp_prices s) (global_prices s)
  (maintenance s) (spSequence s).
Definition with_sp_prices v s := mkSpStore (sp_params s) (providers s) (by_operator s)
  (by_funding s) (by_seal s) (by_approval s) (by_gc s) (by_bls s) v (global_prices s)
  (maintenance s) (spSequence s).
Definition with_global_prices v s := mkSpStore (sp_params s) (providers s) (by_operator s)
  (by_funding s) (by_seal s) (by_approval s) (by_gc s) (by_bls s) (sp_prices s) v
  (maintenance s) (spSequence s).
Definition with_maintenance v s := mkSpStore (sp_params s) (providers s) (by_operator s)
  (by_funding s) (by_seal s) (by_approval s) (by_gc s) (by_bls s) (sp_prices s)
  (global_prices s) v (spSequence s).
Definition with_spSequence v s := mkSpStore (sp_params s) (providers s) (by_operator s)
  (by_funding s) (by_seal s) (by_approval s) (by_gc s) (by_bls s) (sp_prices s)
  (global_prices s) (maintenance s) v.

(** The parts of [sdk.Context] the module reads. *)
Record SpCtx : Type := mkSpCtx { sp_BlockTime : Z; sp_BlockHeight : Z }.

(** [t.Unix()] *)
Definition Unix (t : Z) : Z := t / 10 ^ 9.
