(* ===== verification/SpKeeper.v ===== *)
(** * x/sp: the keeper

    [keeper/sp.go], [keeper/sp_status.go], [keeper/sp_storage_price.go],
    [keeper/params.go] and the end blocker of [abci.go], over the store of
    [SpTypes].  Functions that only write the store are functions on it. *)

From S2P Require Import Prelude Sdk Bytes FeeMarket SpTypes.

Abbreviation SM := (M SpStore sp_error).

(** ** The calendar: what [time.Time.Date], [time.Date] and [AddDate] compute
    on UTC days since the epoch (proleptic Gregorian) *)

(** Days before the first of March-based month [mp] (0 is March). *)
Definition month_start (mp : Z) : Z := (153 * mp + 2) / 5.

(** Year and month (1 to 12) of a day. *)
Definition civil_month (day : Z) : Z * Z :=
  let z := day + 719468 in
  let era := z / 146097 in
  let doe := z mod 146097 in
  let yoe := (doe - doe / 1460 + doe / 36524 - doe / 146096) / 365 in
  let doy := doe - (365 * yoe + yoe / 4 - yoe / 100) in
  let mp := (5 * doy + 2) / 153 in
  let m := if mp <? 10 then mp + 3 else mp - 9 in
  let y := yoe + era * 400 in
  (if m <=? 2 then y + 1 else y, m).

(** The day of the first of a month; month 13 is January of the next year. *)
Definition first_of_month (y m : Z) : Z :=
  let '(y, m) := if 12 <? m then (y + 1, m - 12) else (y, m) in
  let y := if m <=? 2 then y - 1 else y in
  let era := y / 400 in
  let yoe := y mod 400 in
  let mp := if 2 <? m then m - 3 else m + 9 in
  era * 146097 + (yoe * 365 + yoe / 4 - yoe / 100 + month_start mp) - 719468.

Definition day_of (t : Z) : Z := Unix t / 86400.
Definition Month (t : Z) : Z := (civil_month (day_of t)).2.

Definition IsLastDaysOfTheMonth (now days : Z) : bool :=
  let '(year, month) := civil_month (day_of now) in
  let nextMonth := first_of_month year (month + 1) in
  let daysBack := (nextMonth - days) * 86400 * 10 ^ 9 in
  daysBack <? now.

(** ** Parameters *)

Definition GetParams (s : SpStore) : SpParams := default zero_sp_params (sp_params s).
Definition DepositDenomForSP (s : SpStore) : string := DepositDenom (GetParams s).

Definition SetParams `{Denoms} (p : SpParams) : SM unit :=
  do! guard (negb (SpParams_Validate p)) ErrSpInvalidParams ;;
  modify (with_sp_params (Some p)).

(** ** Providers and their indexes *)

Definition GetStorageProvider (id : Z) (s : SpStore) : option StorageProvider :=
  providers s !! id.

(** The lookups through an index. *)
Definition through {K} `{Countable K} (index : gmap K Z) (k : K) (s : SpStore)
    : option StorageProvider :=
  match index !! k with
  | None => None
  | Some id => GetStorageProvider id s
  end.

Definition GetStorageProviderByOperatorAddr (a : Addr) s := through (by_operator s) a s.
Definition GetStorageProviderByFundingAddr (a : Addr) s := through (by_funding s) a s.
Definition GetStorageProviderBySealAddr (a : Addr) s := through (by_seal s) a s.
Definition GetStorageProviderByApprovalAddr (a : Addr) s := through (by_approval s) a s.
Definition GetStorageProviderByGcAddr (a : Addr) s := through (by_gc s) a s.
Definition GetStorageProviderByBlsKey (k : list Z) s := through (by_bls s) k s.

Definition SetStorageProvider (p : StorageProvider) s : SpStore :=
  with_providers (<[sp_Id p := p]> (providers s)) s.
Definition SetStorageProviderByOperatorAddr (p : StorageProvider) s : SpStore :=
  with_by_operator (<[OperatorAddress p := sp_Id p]> (by_operator s)) s.
Definition SetStorageProviderByFundingAddr (p : StorageProvider) s : SpStore :=
  with_by_funding (<[FundingAddress p := sp_Id p]> (by_funding s)) s.
Definition SetStorageProviderBySealAddr (p : StorageProvider) s : SpStore :=
  with_by_seal (<[SealAddress p := sp_Id p]> (by_seal s)) s.
Definition SetStorageProviderByApprovalAddr (p : StorageProvider) s : SpStore :=
  with_by_approval (<[ApprovalAddress p := sp_Id p]> (by_approval s)) s.
Definition SetStorageProviderByGcAddr (p : StorageProvider) s : SpStore :=
  with_by_gc (<[GcAddress p := sp_Id p]> (by_gc s)) s.
Definition SetStorageProviderByBlsKey (p : StorageProvider) s : SpStore :=
  with_by_bls (<[BlsKey p := sp_Id p]> (by_bls s)) s.

(** Ids are four big-endian bytes in the keys, so the iterator is in the
    order of ids. *)
Definition GetAllStorageProviders s : list StorageProvider := (iterate Z.leb (providers s)).*2.

(** The key of the BLS index is built twice: the entry deleted is that of the
    key with the prefix byte in front. *)
Definition StorageProviderByBlsPubKeyKey : Z := 48.
Definition Exit (p : StorageProvider) s : SpStore :=
  let s := with_by_operator (delete (OperatorAddress p) (by_operator s)) s in
  let s := with_by_funding (delete (FundingAddress p) (by_funding s)) s in
  let s := with_by_seal (delete (SealAddress p) (by_seal s)) s in
  let s := with_by_approval (delete (ApprovalAddress p) (by_approval s)) s in
  let s := with_by_gc (delete (GcAddress p) (by_gc s)) s in
  let s := with_providers (delete (sp_Id p) (providers s)) s in
  with_by_bls (delete (StorageProviderByBlsPubKeyKey :: BlsKey p) (by_bls s)) s.

(** [k.spSequence.NextVal(store)]; the sequence wraps at 2^32. *)
Definition GetNextSpID : SM Z :=
  let! s := get in
  match NextVal Uint32 (spSequence s) with
  | None => panic
  | Some (id, cell) => do! modify (with_spSequence (Some cell)) ;; ret id
  end.

(** ** Maintenance *)

Definition set_records (a : Addr) (l : list MaintenanceRecord) s : SpStore :=
  with_maintenance (<[a := l]> (maintenance s)) s.

Definition used_time (l : list MaintenanceRecord) : Z :=
  foldr (fun r acc => i64 (acc + mr_ActualDuration r)) 0 l.

(** The provider is returned with its new status; the caller stores it. *)
Definition UpdateToInMaintenance (ctx : SpCtx) (p : StorageProvider) (requestDuration : Z)
    : SM StorageProvider :=
  let! s := get in
  let params := GetParams s in
  do! guard (MaintenanceDurationQuota params <? requestDuration)
        ErrStorageProviderStatusUpdateNotAllow ;;
  let newRecord := mkMaintenance (sp_BlockHeight ctx) requestDuration 0
                     (Unix (sp_BlockTime ctx)) in
  let key := OperatorAddress p in
  let p := set_sp_status STATUS_IN_MAINTENANCE p in
  match maintenance s !! key with
  | None => do! modify (set_records key [newRecord]) ;; ret p
  | Some records =>
      do! guard (match last records with
                 | None => false
                 | Some r => sp_BlockHeight ctx <?
                               i64 (mr_Height r + NumOfLockupBlocksForMaintenance params)
                 end) ErrStorageProviderStatusUpdateNotAllow ;;
      do! guard (MaintenanceDurationQuota params <? i64 (used_time records + requestDuration))
            ErrStorageProviderStatusUpdateNotAllow ;;
      do! modify (set_records key (records ++ [newRecord])) ;;
      ret p
  end.

(** Closes the last record of a provider. *)
Definition close_last (now : Z) (records : list MaintenanceRecord) : list MaintenanceRecord :=
  match last records with
  | None => records
  | Some r => removelast records ++ [set_actual (i64 (now - mr_RequestAt r)) r]
  end.

Definition UpdateToInService (ctx : SpCtx) (p : StorageProvider) : SM StorageProvider :=
  let! s := get in
  let key := OperatorAddress p in
  do! match maintenance s !! key with
      | None => ret tt
      | Some records => modify (set_records key (close_last (Unix (sp_BlockTime ctx)) records))
      end ;;
  ret (set_sp_status STATUS_IN_SERVICE p).

(** A record never closed whose requested duration has passed. *)
Definition record_due (curTime : Z) (r : MaintenanceRecord) : bool :=
  (mr_ActualDuration r =? 0) && (i64 (mr_RequestAt r + mr_RequestDuration r) <? curTime).

Definition force_close (curTime : Z) (r : MaintenanceRecord) : MaintenanceRecord :=
  if record_due curTime r then set_actual (mr_RequestDuration r) r else r.

Definition outdated (params : SpParams) (height : Z) (r : MaintenanceRecord) : bool :=
  i64 (mr_Height r + NumOfHistoricalBlocksForMaintenanceRecords params) <? height.

(** [stats.Records[i+1:]] for the last outdated [i]. *)
Fixpoint purge (params : SpParams) (height : Z) (l : list MaintenanceRecord)
    : list MaintenanceRecord :=
  match l with
  | [] => []
  | r :: l' =>
      if existsb (outdated params height) l' then purge params height l'
      else if outdated params height r then l' else r :: l'
  end.

(** One provider of the loop of [ForceUpdateMaintenanceRecords]. *)
Definition force_update_provider (ctx : SpCtx) (params : SpParams) (p : StorageProvider)
    (s : SpStore) : SpStore :=
  let key := OperatorAddress p in
  match maintenance s !! key with
  | None => s
  | Some records =>
      let curTime := Unix (sp_BlockTime ctx) in
      let height := sp_BlockHeight ctx in
      let forced := negb (bool_decide (sp_Status p = STATUS_IN_SERVICE)) &&
                    existsb (record_due curTime) records in
      let records1 := if forced then force_close curTime <$> records else records in
      let s := if forced then SetStorageProvider (set_sp_status STATUS_IN_SERVICE p) s else s in
      let changed := forced || existsb (outdated params height) records1 in
      let records2 := purge params height records1 in
      match records2 with
      | [] => with_maintenance (delete key (maintenance s)) s
      | _ => if changed then set_records key records2 s else s
      end
  end.

Definition ForceUpdateMaintenanceRecords (ctx : SpCtx) (s : SpStore) : SpStore :=
  foldl (fun s p => force_update_provider ctx (GetParams s) p s) s (GetAllStorageProviders s).

(** ** Prices *)

Definition SetSpStoragePrice (price : SpStoragePrice) s : SpStore :=
  with_sp_prices (<[pr_SpId price :=
    mkSpPrice 0 (pr_UpdateTimeSec price) (pr_ReadPrice price) (pr_FreeReadQuota price)
      (pr_StorePrice price)]> (sp_prices s)) s.

Definition GetSpStoragePrice (spID : Z) s : option SpStoragePrice :=
  match sp_prices s !! spID with
  | None => None
  | Some v => Some (mkSpPrice spID (pr_UpdateTimeSec v) (pr_ReadPrice v) (pr_FreeReadQuota v)
                      (pr_StorePrice v))
  end.

Definition GetAllSpStoragePrice s : list SpStoragePrice :=
  (fun kv => mkSpPrice kv.1 (pr_UpdateTimeSec kv.2) (pr_ReadPrice kv.2) (pr_FreeReadQuota kv.2)
               (pr_StorePrice kv.2)) <$> iterate Z.leb (sp_prices s).

(** The key is the time as eight big-endian bytes. *)
Definition SetGlobalSpStorePrice (g : GlobalSpStorePrice) s : SpStore :=
  with_global_prices (<[u64 (gp_UpdateTimeSec g) :=
    mkGlobalPrice 0 (gp_ReadPrice g) (gp_PrimaryStorePrice g) (gp_SecondaryStorePrice g)]>
    (global_prices s)) s.

Definition GetGlobalSpStorePriceByTime (time : Z) s : option GlobalSpStorePrice :=
  match last (filter (fun kv => kv.1 < u64 time) (iterate Z.leb (global_prices s))) with
  | None => None
  | Some (k, v) => Some (mkGlobalPrice (i64 k) (gp_ReadPrice v) (gp_PrimaryStorePrice v)
                           (gp_SecondaryStorePrice v))
  end.

(** [None] is the index out of range of an empty list. *)
Definition calculateMedian (prices : list Z) : option Z :=
  let l := length prices in
  let sorted := merge_sort Z.le prices in
  if Nat.even l then
    match sorted !! (Nat.div2 l - 1)%nat, sorted !! Nat.div2 l with
    | Some a, Some b => Some (Z.quot (a + b) 2)
    | _, _ => None
    end
  else sorted !! Nat.div2 l.

(** The prices the median is taken of: of providers in service or in
    maintenance. *)
Fixpoint collect_prices (sps : list StorageProvider) s
    : outcome sp_error (list SpStoragePrice) :=
  match sps with
  | [] => Ret []
  | p :: sps' =>
      if IsInService p || IsInMaintenance p then
        match GetSpStoragePrice (sp_Id p) s with
        | None => Err ErrNoPrice
        | Some price =>
            match collect_prices sps' s with
            | Ret l => Ret (price :: l)
            | o => o
            end
        end
      else collect_prices sps' s
  end.

Definition UpdateGlobalSpStorePrice (ctx : SpCtx) : SM unit :=
  let! s := get in
  let! prices := (fun s' => (collect_prices (GetAllStorageProviders s) s, s')) in
  match prices with
  | [] => ret tt
  | _ =>
      match calculateMedian (pr_StorePrice <$> prices),
            SecondarySpStorePriceRatio (GetParams s),
            calculateMedian (pr_ReadPrice <$> prices) with
      | Some primaryStorePrice, Some ratio, Some readPrice =>
          modify (SetGlobalSpStorePrice
            (mkGlobalPrice (Unix (sp_BlockTime ctx)) readPrice primaryStorePrice
               (dec_Mul ratio primaryStorePrice)))
      | _, _, _ => panic
      end
  end.

(** ** The end blocker *)

(** Whether the global price is recomputed. *)
Definition need_price_update (ctx : SpCtx) s : bool :=
  let now := Unix (sp_BlockTime ctx) in
  match GetGlobalSpStorePriceByTime (i64 (now + 1)) s with
  | None => true
  | Some price =>
      let interval := UpdateGlobalPriceInterval (GetParams s) in
      if 0 <? interval then i64 interval <? i64 (now - gp_UpdateTimeSec price)
      else negb (Month (gp_UpdateTimeSec price * 10 ^ 9) =? Month (sp_BlockTime ctx))
  end.

Definition EndBlocker (ctx : SpCtx) : SM unit :=
  do! (if Z.rem (sp_BlockHeight ctx) MaintenanceRecordsGCFrequencyInBlocks =? 0
       then modify (ForceUpdateMaintenanceRecords ctx) else ret tt) ;;
  let! s := get in
  if need_price_update ctx s then
    do! attempt (UpdateGlobalSpStorePrice ctx) ;; ret tt
  else ret tt.
