(* ===== verification/SpMsg.v ===== *)
(** * x/sp: messages, slashing and genesis

    The message server of [keeper/msg_server.go] with the stateless checks of
    [types/message.go], the deposit authorization of [keeper/authz.go],
    [keeper/slash.go] and the genesis of [genesis.go] and
    [keeper/genesis.go].  The state is the module's store with the bank and
    the grants of the authz keeper. *)

From S2P Require Import Prelude Sdk Bytes SpTypes SpKeeper.

Record MsgCreateStorageProvider : Type := mkMsgCreateSp {
  cs_Creator : string; cs_Description : Description; cs_SpAddress : string;
  cs_FundingAddress : string; cs_SealAddress : string; cs_ApprovalAddress : string;
  cs_GcAddress : string; cs_Endpoint : string; cs_Deposit : string * Z;
  cs_ReadPrice : option Z; cs_FreeReadQuota : Z; cs_StorePrice : option Z;
  cs_BlsKey : string; cs_BlsProof : string; cs_MaintenanceAddress : string }.

Record MsgEditStorageProvider : Type := mkMsgEditSp {
  es_SpAddress : string; es_Endpoint : string; es_Description : option Description;
  es_SealAddress : string; es_ApprovalAddress : string; es_GcAddress : string;
  es_MaintenanceAddress : string; es_BlsKey : string; es_BlsProof : string }.

Record MsgUpdateSpStoragePrice : Type := mkMsgUpdatePrice {
  up_SpAddress : string; up_ReadPrice : option Z; up_FreeReadQuota : Z;
  up_StorePrice : option Z }.

Record MsgUpdateStorageProviderStatus : Type := mkMsgUpdateStatus {
  us_SpAddress : string; us_Status : SpStatus; us_Duration : Z }.

Record SpState (B G : Type) : Type := mkSpState {
  store : SpStore; sp_bank : B; grants : G }.
Arguments mkSpState {B G}.
Arguments store {B G}.
Arguments sp_bank {B G}.
Arguments grants {B G}.

(** ** Stateless checks *)

Section Validate.
Context {HAddr : Addresses} {HDenoms : Denoms} {HBls : Bls}.
(** [ValidateEndpointURL]: the URL parser of Go. *)
Context (url_path : string -> option string).

Definition is_address (text : string) : bool :=
  match AccAddressFromHexUnsafe text with Some _ => true | None => false end.
Definition absent_or_address (text : string) : bool :=
  bool_decide (text = EmptyString) || is_address text.

(** [Coin.IsValid() && Amount.IsPositive()] *)
Definition valid_deposit (c : string * Z) : bool := ValidateDenom c.1 && (0 <? c.2).

(** [p.IsNil() || p.IsNegative()] is refused. *)
Definition valid_price (p : option Z) : bool :=
  match p with None => false | Some v => negb (v <? 0) end.

Definition ValidateEndpointURL (u : string) : bool :=
  negb (bool_decide (u = EmptyString)) &&
  match url_path u with
  | None => false
  | Some path => bool_decide (path = "/") || bool_decide (path = EmptyString)
  end.

(** [checkBlsProof] of a public key and the text of its proof. *)
Definition checkBlsProof (blsPk : list Z) (sig : string) : option sp_error :=
  match hex_DecodeString sig with
  | None => Some ErrInvalidBlsSignature
  | Some blsProof =>
      if negb (Z.of_nat (length blsProof) =? BLSSignatureLength)
      then Some ErrInvalidBlsSignature
      else
        match UnmarshalSignature blsProof with
        | None => Some ErrInvalidBlsSignature
        | Some signature =>
            match UnmarshalPublicKey blsPk with
            | None => Some ErrStorageProviderInvalidBlsKey
            | Some blsPubKey =>
                if negb (BlsVerify signature blsPubKey (tmhash_Sum blsPk))
                then Some ErrSpInvalidSigner else None
            end
        end
  end.

Definition parseBlsKey (text : string) : option (list Z) :=
  match hex_DecodeString text with
  | None => None
  | Some k => if Z.of_nat (length k) =? BLSPubKeyLength then Some k else None
  end.

Definition validateBlsKeyAndProof (blsKey blsProof : string) : bool :=
  match parseBlsKey blsKey with
  | None => false
  | Some blsPk =>
      match UnmarshalPublicKey blsPk with
      | None => false
      | Some _ => match checkBlsProof blsPk blsProof with None => true | Some _ => false end
      end
  end.

Definition empty_description : Description :=
  mkDescription EmptyString EmptyString EmptyString EmptyString EmptyString.

Definition CreateStorageProvider_ValidateBasic (msg : MsgCreateStorageProvider) : bool :=
  is_address (cs_Creator msg) && is_address (cs_SpAddress msg) &&
  is_address (cs_FundingAddress msg) && is_address (cs_SealAddress msg) &&
  is_address (cs_ApprovalAddress msg) && is_address (cs_GcAddress msg) &&
  valid_deposit (cs_Deposit msg) &&
  negb (bool_decide (cs_Description msg = empty_description)) &&
  validateBlsKeyAndProof (cs_BlsKey msg) (cs_BlsProof msg) &&
  ValidateEndpointURL (cs_Endpoint msg) &&
  valid_price (cs_ReadPrice msg) && valid_price (cs_StorePrice msg).

Definition EditStorageProvider_ValidateBasic (msg : MsgEditStorageProvider) : bool :=
  is_address (es_SpAddress msg) &&
  negb (bool_decide (es_Description msg = Some empty_description)) &&
  (bool_decide (es_Endpoint msg = EmptyString) || ValidateEndpointURL (es_Endpoint msg)) &&
  absent_or_address (es_SealAddress msg) && absent_or_address (es_ApprovalAddress msg) &&
  absent_or_address (es_GcAddress msg) && absent_or_address (es_MaintenanceAddress msg) &&
  (bool_decide (es_BlsKey msg = EmptyString) ||
   negb (bool_decide (es_BlsProof msg = EmptyString)) &&
   validateBlsKeyAndProof (es_BlsKey msg) (es_BlsProof msg)).

Definition SpDeposit_ValidateBasic (msg : MsgSpDeposit) : bool :=
  is_address (sd_Creator msg) && is_address (sd_SpAddress msg) && valid_deposit (sd_Deposit msg).

Definition UpdateSpStoragePrice_ValidateBasic (msg : MsgUpdateSpStoragePrice) : bool :=
  is_address (up_SpAddress msg) && valid_price (up_ReadPrice msg) &&
  valid_price (up_StorePrice msg).

Definition UpdateStatus_ValidateBasic (msg : MsgUpdateStorageProviderStatus) : bool :=
  is_address (us_SpAddress msg) &&
  (bool_decide (us_Status msg = STATUS_IN_SERVICE) ||
   bool_decide (us_Status msg = STATUS_IN_MAINTENANCE)) &&
  negb (bool_decide (us_Status msg = STATUS_IN_MAINTENANCE) && (us_Duration msg <=? 0)).
End Validate.

(** A nil [LegacyDec] is stored as zero. *)
Definition nil_price (p : option Z) : Z := default 0 p.

Definition SpModuleName : string := "sp".
Definition GovModuleName : string := "gov".

Section Msg.
Context {B G : Type} {HBank : BankKeeper B} {HAddr : Addresses} {HDenoms : Denoms}
  {HBls : Bls} {HAuthz : AuthzKeeper G}.
Abbreviation HM := (M (SpState B G) sp_error).
Implicit Types (ctx : SpCtx) (s : SpState B G).

Definition with_store f s : SpState B G := mkSpState (f (store s)) (sp_bank s) (grants s).
Definition with_sp_bank b s : SpState B G := mkSpState (store s) b (grants s).
Definition with_grants g s : SpState B G := mkSpState (store s) (sp_bank s) g.

(** A computation on the store alone. *)
Definition on_store {A} (c : SM A) : HM A :=
  zoom store (fun st => with_store (fun _ => st)) id c.

Definition MustAccAddressFromHex (text : string) : HM Addr :=
  must (AccAddressFromHexUnsafe text).

Definition transfer (send : B -> option B) : HM unit :=
  let! s := get in
  let! b' := or_fail (send (sp_bank s)) ErrSpBank in
  modify (with_sp_bank b').

(** ** Deposit authorizations *)

Definition Accept (a : Authorization OtherAuthorization) (msg : MsgSpDeposit)
    : option (AcceptResponse OtherAuthorization) :=
  match a with
  | auth_deposit d => DepositAuthorization_Accept d msg
  | auth_other x => OtherAccept x msg
  end.

Definition CheckDepositAuthorization ctx (grantee granter : Addr) (msg : MsgSpDeposit)
    : HM unit :=
  let! s := get in
  let! grant := or_fail (GetGrant (grants s) grantee granter) ErrAuthz in
  do! guard (match gr_Expiration grant with
             | None => false
             | Some e => e <? sp_BlockTime ctx
             end) ErrAuthz ;;
  let! authorization := or_fail (gr_Authorization grant) ErrAuthz in
  let! resp := or_fail (Accept authorization msg) ErrAuthz in
  do! (if ar_Delete resp then
         let! g := or_fail (DeleteGrant (grants s) grantee granter) ErrAuthz in
         modify (with_grants g)
       else
         match ar_Updated resp with
         | None => ret tt
         | Some a =>
             let! g := or_fail (UpdateGrant (grants s) grantee granter a) ErrAuthz in
             modify (with_grants g)
         end) ;;
  guard (negb (ar_Accept resp)) ErrAuthz.

(** ** Messages *)

(** [if _, found := get(addr); found { return err }] *)
Definition unused (found : SpStore -> option StorageProvider) (e : sp_error) : HM unit :=
  let! s := get in
  guard (bool_decide (is_Some (found (store s)))) e.

(** The writes of a new provider. *)
Definition register (p : StorageProvider) (s : SpStore) : SpStore :=
  SetStorageProviderByBlsKey p (SetStorageProviderByGcAddr p (SetStorageProviderBySealAddr p
    (SetStorageProviderByFundingAddr p (SetStorageProviderByApprovalAddr p
      (SetStorageProviderByOperatorAddr p (SetStorageProvider p s)))))).

Definition CreateStorageProvider ctx (msg : MsgCreateStorageProvider) : HM unit :=
  let! spAcc := MustAccAddressFromHex (cs_SpAddress msg) in
  let! fundingAcc := MustAccAddressFromHex (cs_FundingAddress msg) in
  let! s := get in
  do! guard (negb (HasAccount (sp_bank s) fundingAcc)) ErrAccountNotFound ;;
  let! sealAcc := MustAccAddressFromHex (cs_SealAddress msg) in
  let! approvalAcc := MustAccAddressFromHex (cs_ApprovalAddress msg) in
  let! gcAcc := MustAccAddressFromHex (cs_GcAddress msg) in
  let! maintenanceAcc := or_fail (AccAddressFromHexUnsafe (cs_MaintenanceAddress msg))
                           ErrSpInvalidAddress in
  let! signer := must (AccAddressFromHexUnsafe (cs_Creator msg)) in
  do! (if sp_BlockHeight ctx =? 0
       then guard (negb (signer =? spAcc)) ErrSignerNotSPOperator
       else guard (negb (signer =? ModuleAddress GovModuleName)) ErrSignerNotGovModule) ;;
  do! unused (GetStorageProviderByOperatorAddr spAcc) ErrStorageProviderOwnerExists ;;
  do! unused (GetStorageProviderByFundingAddr fundingAcc) ErrStorageProviderFundingAddrExists ;;
  do! unused (GetStorageProviderBySealAddr sealAcc) ErrStorageProviderSealAddrExists ;;
  do! unused (GetStorageProviderByApprovalAddr approvalAcc)
        ErrStorageProviderApprovalAddrExists ;;
  do! unused (GetStorageProviderByGcAddr gcAcc) ErrStorageProviderGcAddrExists ;;
  let! blsPk := or_fail (parseBlsKey (cs_BlsKey msg)) ErrStorageProviderInvalidBlsKey in
  do! unused (GetStorageProviderByBlsKey blsPk) ErrStorageProviderBlsKeyExists ;;
  do! match checkBlsProof blsPk (cs_BlsProof msg) with Some e => fail e | None => ret tt end ;;
  do! guard (negb (EnsureLength (cs_Description msg))) ErrSpInvalidRequest ;;
  let '(denom, amount) := cs_Deposit msg in
  let! minDeposit := must (MinDeposit (GetParams (store s))) in
  do! guard (amount <? minDeposit) ErrInsufficientDepositAmount ;;
  do! guard (negb (bool_decide (DepositDenomForSP (store s) = denom))) ErrSpInvalidDenom ;;
  do! (if negb (sp_BlockHeight ctx =? 0) then
         CheckDepositAuthorization ctx (ModuleAddress GovModuleName) fundingAcc
           (mkMsgSpDeposit (AccAddress_String fundingAcc) (AccAddress_String spAcc)
              (cs_Deposit msg))
       else ret tt) ;;
  let! coins := must (NewCoins (DepositDenomForSP (store s)) amount) in
  do! transfer (fun b => SendCoinsFromAccountToModule b fundingAcc SpModuleName coins) ;;
  let! id := on_store GetNextSpID in
  let status := if sp_BlockHeight ctx =? 0 then STATUS_IN_SERVICE else STATUS_IN_MAINTENANCE in
  let sp := mkSp id spAcc fundingAcc sealAcc approvalAcc gcAcc maintenanceAcc amount status
              (cs_Endpoint msg) (cs_Description msg) blsPk in
  do! modify (with_store (register sp)) ;;
  modify (with_store (SetSpStoragePrice
    (mkSpPrice id (Unix (sp_BlockTime ctx)) (nil_price (cs_ReadPrice msg))
       (cs_FreeReadQuota msg) (nil_price (cs_StorePrice msg))))).

(** A new address of a provider: absent text keeps the old one; an address
    another provider uses is refused. *)
Definition edit_address (text : string) (old : Addr) (id : Z)
    (index : Addr -> SpStore -> option StorageProvider) (e : sp_error) : HM Addr :=
  if bool_decide (text = EmptyString) then ret old
  else
    let! acc := MustAccAddressFromHex text in
    let! s := get in
    do! guard (match index acc (store s) with
               | Some other => negb (sp_Id other =? id)
               | None => false
               end) e ;;
    ret acc.

Definition edit_bls (key proof : string) (old : list Z) (id : Z) : HM (list Z) :=
  if negb (bool_decide (key = EmptyString)) && negb (bool_decide (proof = EmptyString)) then
    let! blsPk := or_fail (parseBlsKey key) ErrStorageProviderInvalidBlsKey in
    let! s := get in
    do! guard (match GetStorageProviderByBlsKey blsPk (store s) with
               | Some other => negb (sp_Id other =? id)
               | None => false
               end) ErrStorageProviderBlsKeyExists ;;
    do! match checkBlsProof blsPk proof with Some e => fail e | None => ret tt end ;;
    ret blsPk
  else ret old.

(** The writes of an edited provider: stale index entries go first. *)
Definition reindex (old new : StorageProvider) (s : SpStore) : SpStore :=
  let drop {K} `{Countable K} (a b : K) (m : gmap K Z) :=
    if decide (b = a) then m else delete a m in
  let s := with_by_seal (drop (SealAddress old) (SealAddress new) (by_seal s)) s in
  let s := with_by_approval (drop (ApprovalAddress old) (ApprovalAddress new) (by_approval s)) s in
  let s := with_by_gc (drop (GcAddress old) (GcAddress new) (by_gc s)) s in
  let s := with_by_bls (drop (BlsKey old) (BlsKey new) (by_bls s)) s in
  SetStorageProviderByBlsKey new (SetStorageProviderByGcAddr new
    (SetStorageProviderByApprovalAddr new (SetStorageProviderBySealAddr new
      (SetStorageProviderByFundingAddr new (SetStorageProvider new s))))).

(** Whether any field of the message is set. *)
Definition edit_changed (msg : MsgEditStorageProvider) : bool :=
  negb (bool_decide (es_Endpoint msg = EmptyString)) ||
  bool_decide (is_Some (es_Description msg)) ||
  negb (bool_decide (es_SealAddress msg = EmptyString)) ||
  negb (bool_decide (es_ApprovalAddress msg = EmptyString)) ||
  negb (bool_decide (es_GcAddress msg = EmptyString)) ||
  negb (bool_decide (es_MaintenanceAddress msg = EmptyString)) ||
  (negb (bool_decide (es_BlsKey msg = EmptyString)) &&
   negb (bool_decide (es_BlsProof msg = EmptyString))).

Definition EditStorageProvider (msg : MsgEditStorageProvider) : HM unit :=
  let! operatorAcc := MustAccAddressFromHex (es_SpAddress msg) in
  let! s := get in
  let! sp := or_fail (GetStorageProviderByOperatorAddr operatorAcc (store s))
               ErrStorageProviderNotFound in
  let endpoint := if bool_decide (es_Endpoint msg = EmptyString)
                  then Endpoint sp else es_Endpoint msg in
  let! description :=
    match es_Description msg with
    | None => ret (sp_Description sp)
    | Some d => or_fail (UpdateDescription (sp_Description sp) d) ErrSpInvalidRequest
    end in
  let! sealAcc := edit_address (es_SealAddress msg) (SealAddress sp) (sp_Id sp)
                    GetStorageProviderBySealAddr ErrStorageProviderSealAddrExists in
  let! approvalAcc := edit_address (es_ApprovalAddress msg) (ApprovalAddress sp) (sp_Id sp)
                        GetStorageProviderByApprovalAddr ErrStorageProviderApprovalAddrExists in
  let! gcAcc := edit_address (es_GcAddress msg) (GcAddress sp) (sp_Id sp)
                  GetStorageProviderByGcAddr ErrStorageProviderGcAddrExists in
  let! maintenanceAcc :=
    (if bool_decide (es_MaintenanceAddress msg = EmptyString) then ret (MaintenanceAddress sp)
     else MustAccAddressFromHex (es_MaintenanceAddress msg)) in
  let! blsPk := edit_bls (es_BlsKey msg) (es_BlsProof msg) (BlsKey sp) (sp_Id sp) in
  do! guard (negb (edit_changed msg)) ErrStorageProviderNotChanged ;;
  let sp' := mkSp (sp_Id sp) (OperatorAddress sp) (FundingAddress sp) sealAcc approvalAcc gcAcc
               maintenanceAcc (sp_TotalDeposit sp) (sp_Status sp) endpoint description blsPk in
  modify (with_store (reindex sp sp')).

Definition SpDeposit (msg : MsgSpDeposit) : HM unit :=
  let! fundAcc := MustAccAddressFromHex (sd_Creator msg) in
  let! s := get in
  let! sp := or_fail (GetStorageProviderByFundingAddr fundAcc (store s))
               ErrStorageProviderNotFound in
  let! spAcc := MustAccAddressFromHex (sd_SpAddress msg) in
  do! guard (negb (OperatorAddress sp =? spAcc)) ErrDepositAccountNotAllowed ;;
  let '(denom, amount) := sd_Deposit msg in
  do! guard (negb (bool_decide (DepositDenomForSP (store s) = denom))) ErrSpInvalidDenom ;;
  let! coins := must (NewCoins denom amount) in
  do! transfer (fun b => SendCoinsFromAccountToModule b (FundingAddress sp) SpModuleName coins) ;;
  modify (with_store (SetStorageProvider (set_sp_deposit (sp_TotalDeposit sp + amount) sp))).

Definition UpdateSpStoragePrice ctx (msg : MsgUpdateSpStoragePrice) : HM unit :=
  let! spAcc := MustAccAddressFromHex (up_SpAddress msg) in
  let! s := get in
  let! sp := or_fail (GetStorageProviderByOperatorAddr spAcc (store s))
               ErrStorageProviderNotFound in
  do! guard (negb (IsInService sp)) ErrStorageProviderNotInService ;;
  let params := GetParams (store s) in
  do! guard ((UpdateGlobalPriceInterval params =? 0) &&
             IsLastDaysOfTheMonth (sp_BlockTime ctx) (UpdatePriceDisallowedDays params))
        ErrStorageProviderPriceUpdateNotAllow ;;
  modify (with_store (SetSpStoragePrice
    (mkSpPrice (sp_Id sp) (Unix (sp_BlockTime ctx)) (nil_price (up_ReadPrice msg))
       (up_FreeReadQuota msg) (nil_price (up_StorePrice msg))))).

Definition SpUpdateParams (authority signer : string) (p : SpParams) : HM unit :=
  do! guard (negb (bool_decide (authority = signer))) ErrSpInvalidSigner ;;
  on_store (SetParams p).

Definition UpdateSpStatus ctx (msg : MsgUpdateStorageProviderStatus) : HM unit :=
  let! operatorAcc := MustAccAddressFromHex (us_SpAddress msg) in
  let! s := get in
  let! sp := or_fail (GetStorageProviderByOperatorAddr operatorAcc (store s))
               ErrStorageProviderNotFound in
  let newStatus := us_Status msg in
  do! guard (bool_decide (sp_Status sp = newStatus)) ErrStorageProviderNotChanged ;;
  let! sp' :=
    match sp_Status sp with
    | STATUS_IN_SERVICE =>
        do! guard (negb (bool_decide (newStatus = STATUS_IN_MAINTENANCE)))
              ErrStorageProviderStatusUpdateNotAllow ;;
        on_store (UpdateToInMaintenance ctx sp (us_Duration msg))
    | STATUS_IN_MAINTENANCE =>
        do! guard (negb (bool_decide (newStatus = STATUS_IN_SERVICE)))
              ErrStorageProviderStatusUpdateNotAllow ;;
        on_store (UpdateToInService ctx sp)
    | STATUS_IN_JAILED | STATUS_GRACEFUL_EXITING | STATUS_FORCED_EXITING =>
        fail ErrStorageProviderStatusUpdateNotAllow
    end in
  modify (with_store (SetStorageProvider sp')).

(** ** Slashing *)

Fixpoint pay_rewards (rewardInfos : list RewardInfo) : HM unit :=
  match rewardInfos with
  | [] => ret tt
  | r :: rest =>
      let! rewardAcc := or_fail (AccAddressFromHexUnsafe (rw_Address r)) ErrSpInvalidAddress in
      let! coins := must (NewCoins (rw_Amount r).1 (rw_Amount r).2) in
      do! transfer (fun b => SendCoinsFromModuleToAccount b SpModuleName rewardAcc coins) ;;
      pay_rewards rest
  end.

Definition Slash (spID : Z) (rewardInfos : list RewardInfo) : HM unit :=
  let! s := get in
  let! sp := or_fail (GetStorageProvider spID (store s)) ErrStorageProviderNotFound in
  do! guard (negb (forallb (fun r => bool_decide (DepositDenomForSP (store s) = (rw_Amount r).1))
                     rewardInfos)) ErrSpInvalidDenom ;;
  let totalAmount := zsum (fun r => (rw_Amount r).2) rewardInfos in
  do! guard (sp_TotalDeposit sp <? totalAmount) ErrInsufficientDepositAmount ;;
  do! pay_rewards rewardInfos ;;
  modify (with_store (SetStorageProvider
    (set_sp_deposit (sp_TotalDeposit sp - totalAmount) sp))).

(** ** Genesis *)

Record SpGenesisState : Type := mkSpGenesis {
  sg_Params : SpParams;
  sg_StorageProviders : list StorageProvider;
  sg_SpStoragePriceList : list SpStoragePrice;
}.

Definition genesis_status (st : SpStatus) : bool :=
  match st with STATUS_IN_SERVICE | STATUS_IN_JAILED => true | _ => false end.

(** The price list is not read and no index is written. *)
Fixpoint init_providers (l : list StorageProvider) : HM Z :=
  match l with
  | [] => ret 0
  | p :: rest =>
      do! modify (with_store (SetStorageProvider p)) ;;
      if genesis_status (sp_Status p) then
        let! amount := init_providers rest in ret (sp_TotalDeposit p + amount)
      else panic
  end.

Definition SpInitGenesis (GetAllBalances : B -> Addr -> Coins) (gs : SpGenesisState) : HM unit :=
  do! on_err (on_store (SetParams (sg_Params gs))) (fun _ => panic) ;;
  let! depositAmount := init_providers (sg_StorageProviders gs) in
  let! depositCoins := must (NewCoins (DepositDenom (sg_Params gs)) depositAmount) in
  let! s := get in
  if bool_decide (GetAllBalances (sp_bank s) (ModuleAddress SpModuleName) = depositCoins)
  then ret tt else panic.

Definition SpExportGenesis s : SpGenesisState :=
  mkSpGenesis (GetParams (store s)) (GetAllStorageProviders (store s))
    (GetAllSpStoragePrice (store s)).

End Msg.
