(* ===== verification/SpFacts.v ===== *)
(** * x/sp: the registry of providers

    The messages of the module with slashing and the end blocker as one
    function ([sp_handle]), and the invariant of its store ([registry]):
    providers are keyed by their ids and every index finds exactly the
    provider that has the address.  The index of BLS keys is left with entries
    of providers that are gone; it is exact for those that are there.  Also
    the medians the global price is made of, and the deposits. *)

From S2P Require Import Prelude Sdk Bytes SpTypes SpKeeper SpMsg.

#[local] Arguments CurVal : simpl never.
#[local] Arguments NextVal : simpl never.

Inductive sp_msg : Type :=
| S_Create (msg : MsgCreateStorageProvider)
| S_Edit (msg : MsgEditStorageProvider)
| S_Deposit (msg : MsgSpDeposit)
| S_Price (msg : MsgUpdateSpStoragePrice)
| S_Params (signer : string) (p : SpParams)
| S_Status (msg : MsgUpdateStorageProviderStatus)
| S_Slash (spID : Z) (rewardInfos : list RewardInfo)
| S_EndBlock.

(** ** Indexes *)

Section Index.
Context {K : Type} `{Countable K} (f : StorageProvider -> K).
Implicit Types (m : gmap K Z) (ps : gmap Z StorageProvider).

(** [m] finds exactly the providers of [ps] by [f]. *)
Definition index_exact m ps : Prop :=
  forall k id, m !! k = Some id <-> exists p, ps !! id = Some p /\ f p = k.

Lemma exact_unused m ps k : index_exact m ps ->
  (match m !! k with Some id => ps !! id | None => None end) = None -> m !! k = None.
Proof.
  intros He Hk. destruct (m !! k) as [id|] eqn:Hm; [|done].
  apply He in Hm as (p & Hp & _). congruence.
Qed.

Lemma exact_new m ps id p :
  index_exact m ps -> ps !! id = None -> m !! f p = None ->
  index_exact (<[f p := id]> m) (<[id := p]> ps).
Proof.
  intros He Hid Hk k i. rewrite !lookup_insert_Some. split.
  - intros [[<- <-]|[Hne Hm]]; [exists p; by rewrite lookup_insert_eq|].
    apply He in Hm as (q & Hq & <-). exists q. split; [|done]. by rewrite lookup_insert_ne by congruence.
  - intros (q & Hq & <-). apply lookup_insert_Some in Hq as [[<- <-]|[Hne Hq]]; [by left|].
    right. assert (m !! f q = Some i) as Hm by (apply He; eauto). split; congruence.
Qed.

Lemma exact_same m ps id p p' :
  index_exact m ps -> ps !! id = Some p -> f p' = f p -> index_exact m (<[id := p']> ps).
Proof.
  intros He Hid Hf k i. rewrite (He k i). split; intros (q & Hq & <-).
  - destruct (decide (i = id)) as [->|Hne].
    + exists p'. rewrite lookup_insert_eq. split; congruence.
    + exists q. by rewrite lookup_insert_ne.
  - apply lookup_insert_Some in Hq as [[<- <-]|[_ Hq]]; [|eauto]. exists p. auto.
Qed.

Lemma exact_delete m ps id p :
  index_exact m ps -> ps !! id = Some p -> index_exact (delete (f p) m) (delete id ps).
Proof.
  intros He Hid k i. rewrite lookup_delete_Some, (He k i). split.
  - intros [Hne (q & Hq & <-)]. exists q. split; [|done]. apply lookup_delete_Some.
    split; [|done]. intros ->. congruence.
  - intros (q & Hq & <-). apply lookup_delete_Some in Hq as [Hne Hq]. split; [|eauto].
    intros Heq. assert (m !! f p = Some id) as Hp by (apply He; eauto).
    assert (m !! f q = Some i) as Hq' by (apply He; eauto). congruence.
Qed.

Lemma exact_set_same m ps id p p' :
  index_exact m ps -> ps !! id = Some p -> f p' = f p -> <[f p' := id]> m = m.
Proof. intros He Hid Hf. apply insert_id, He. eauto. Qed.

(** The entry of an edited provider moves. *)
Definition reentry (a b : K) m : gmap K Z := if decide (b = a) then m else delete a m.

Lemma exact_edit m ps id p p' :
  index_exact m ps -> ps !! id = Some p -> (forall i, m !! f p' = Some i -> i = id) ->
  index_exact (<[f p' := id]> (reentry (f p) (f p') m)) (<[id := p']> ps).
Proof.
  intros He Hid Hfree. unfold reentry. case_decide as Hk.
  - rewrite (exact_set_same _ ps id p) by done. by eapply exact_same.
  - rewrite <- (insert_delete_eq ps).
    apply exact_new; [by apply exact_delete|apply lookup_delete_eq|].
    rewrite lookup_delete_ne by congruence. destruct (m !! f p') as [i|] eqn:Hm; [|done].
    pose proof (Hfree _ eq_refl) as ->. apply He in Hm as (q & Hq & Hqf). congruence.
Qed.
End Index.

(** Entries for providers that are there are right; others are of ids below
    [cur]. *)
Record bls_ok (m : gmap (list Z) Z) (ps : gmap Z StorageProvider) (cur : Z) : Prop := mkBlsOk {
  bls_found : forall id p, ps !! id = Some p -> m !! BlsKey p = Some id;
  bls_sound : forall k id p, m !! k = Some id -> ps !! id = Some p -> BlsKey p = k;
  bls_old : forall k id, m !! k = Some id -> 0 < id <= cur;
  bls_length : forall id p, ps !! id = Some p -> Z.of_nat (length (BlsKey p)) = BLSPubKeyLength;
}.

Definition cur_id (s : SpStore) : Z := CurVal Uint32 (spSequence s).

Record registry (s : SpStore) : Prop := mkRegistry {
  reg_key : forall id p, providers s !! id = Some p -> sp_Id p = id /\ 0 < id <= cur_id s;
  reg_operator : index_exact OperatorAddress (by_operator s) (providers s);
  reg_funding : index_exact FundingAddress (by_funding s) (providers s);
  reg_seal : index_exact SealAddress (by_seal s) (providers s);
  reg_approval : index_exact ApprovalAddress (by_approval s) (providers s);
  reg_gc : index_exact GcAddress (by_gc s) (providers s);
  reg_bls : bls_ok (by_bls s) (providers s) (cur_id s);
  reg_seq : 0 <= cur_id s;
}.

(** What identifies a provider. *)
Record same_identity (p p' : StorageProvider) : Prop := mkSameIdentity {
  si_id : sp_Id p' = sp_Id p;
  si_operator : OperatorAddress p' = OperatorAddress p;
  si_funding : FundingAddress p' = FundingAddress p;
  si_seal : SealAddress p' = SealAddress p;
  si_approval : ApprovalAddress p' = ApprovalAddress p;
  si_gc : GcAddress p' = GcAddress p;
  si_bls : BlsKey p' = BlsKey p;
}.

Lemma bls_same m ps cur id p p' :
  bls_ok m ps cur -> ps !! id = Some p -> BlsKey p' = BlsKey p -> bls_ok m (<[id := p']> ps) cur.
Proof.
  intros [A B C D] Hid Hk. constructor; [| |done|].
  - intros i q. rewrite lookup_insert_Some. intros [[<- <-]|[_ Hq]]; [rewrite Hk|]; by apply A.
  - intros k i q Hm. rewrite lookup_insert_Some. intros [[<- <-]|[_ Hq]]; [rewrite Hk|]; by eapply B.
  - intros i q. rewrite lookup_insert_Some. intros [[<- <-]|[_ Hq]]; [rewrite Hk|]; by eapply D.
Qed.

(** Writing a provider back with its identity keeps the registry. *)
Lemma registry_write s p p' :
  registry s -> providers s !! sp_Id p' = Some p -> same_identity p p' ->
  registry (SetStorageProvider p' s).
Proof.
  intros [A B C D E F G Hs] Hid [? ? ? ? ? ? ?].
  constructor; simpl; try (by eapply exact_same); [|by eapply bls_same|done].
  intros i q. rewrite lookup_insert_Some. intros [[<- <-]|[_ Hq]]; [|by apply A].
  split; [done|]. by apply A in Hid as [_ ?].
Qed.

(** ** New, edited and leaving providers *)

Lemma bls_new m ps cur cur' id p :
  bls_ok m ps cur -> ps !! id = None -> (forall k, m !! k <> Some id) -> 0 < id <= cur' ->
  cur <= cur' ->
  (match m !! BlsKey p with Some i => ps !! i | None => None end) = None ->
  Z.of_nat (length (BlsKey p)) = BLSPubKeyLength ->
  bls_ok (<[BlsKey p := id]> m) (<[id := p]> ps) cur'.
Proof.
  intros [A B C D] Hid Hfresh Hcur Hle Hun Hlen.
  constructor.
  - intros i q. rewrite lookup_insert_Some. intros [[<- <-]|[Hne Hq]]; [apply lookup_insert_eq|].
    rewrite lookup_insert_ne; [by apply A|]. intros Heq. rewrite Heq, (A _ _ Hq), Hq in Hun. done.
  - intros k i q. rewrite !lookup_insert_Some.
    intros [[<- <-]|[Hk Hm]] [[? <-]|[Hne Hq]]; try done.
    + subst i. by apply Hfresh in Hm.
    + by eapply B.
  - intros k i. rewrite lookup_insert_Some. intros [[_ <-]|[_ Hm]]; [done|]. apply C in Hm. lia.
  - intros i q. rewrite lookup_insert_Some. intros [[_ <-]|[_ Hq]]; [done|by eapply D].
Qed.

Lemma bls_edit m ps cur id p p' :
  bls_ok m ps cur -> ps !! id = Some p -> 0 < id <= cur ->
  (forall i q, m !! BlsKey p' = Some i -> ps !! i = Some q -> i = id) ->
  Z.of_nat (length (BlsKey p')) = BLSPubKeyLength ->
  bls_ok (<[BlsKey p' := id]> (reentry (BlsKey p) (BlsKey p') m)) (<[id := p']> ps) cur.
Proof.
  intros Hok Hid Hcur Hfree Hlen. unfold reentry. case_decide as Hk.
  { rewrite Hk, insert_id by (by eapply bls_found). by eapply bls_same. }
  destruct Hok as [A B C D]. constructor.
  - intros i q. rewrite lookup_insert_Some. intros [[<- <-]|[Hne Hq]]; [apply lookup_insert_eq|].
    pose proof (A _ _ Hq) as Hm. pose proof (A _ _ Hid) as Hm0.
    rewrite lookup_insert_ne by (intros Heq; rewrite <- Heq in Hm; by apply Hne, eq_sym, (Hfree i q)).
    by rewrite lookup_delete_ne by congruence.
  - intros k i q. rewrite !lookup_insert_Some, lookup_delete_Some.
    intros [[<- <-]|[Hk' [Hd Hm]]] [[? <-]|[Hne Hq]]; try done.
    + subst i. by apply (B _ _ _ Hm) in Hid.
    + by eapply B.
  - intros k i. rewrite lookup_insert_Some, lookup_delete_Some.
    intros [[_ <-]|[_ [_ Hm]]]; [done|by eapply C].
  - intros i q. rewrite lookup_insert_Some. intros [[_ <-]|[_ Hq]]; [done|by eapply D].
Qed.

Lemma bls_exit m ps cur id p :
  bls_ok m ps cur -> ps !! id = Some p ->
  bls_ok (delete (StorageProviderByBlsPubKeyKey :: BlsKey p) m) (delete id ps) cur.
Proof.
  intros [A B C D] Hid. constructor.
  - intros i q. rewrite lookup_delete_Some. intros [Hne Hq].
    rewrite lookup_delete_ne; [by apply A|]. intros Heq. apply D in Hid, Hq.
    rewrite <- Heq in Hq. cbn [length] in Hq. lia.
  - intros k i q. rewrite !lookup_delete_Some. intros [_ Hm] [_ Hq]. by eapply B.
  - intros k i. rewrite lookup_delete_Some. intros [_ Hm]. by eapply C.
  - intros i q. rewrite lookup_delete_Some. intros [_ Hq]. by eapply D.
Qed.

(** A provider leaves. *)
Lemma registry_Exit s p :
  registry s -> providers s !! sp_Id p = Some p -> registry (Exit p s).
Proof.
  intros [A B C D E F G Hs] Hid.
  constructor; simpl; try (by apply exact_delete); [|by apply bls_exit|done].
  intros i q. rewrite lookup_delete_Some. intros [_ Hq]. by apply A.
Qed.

(** A provider with a fresh id and unused addresses joins. *)
Lemma registry_register s p cell :
  registry s -> cur_id s < sp_Id p -> CurVal Uint32 (Some cell) = sp_Id p ->
  GetStorageProviderByOperatorAddr (OperatorAddress p) s = None ->
  GetStorageProviderByFundingAddr (FundingAddress p) s = None ->
  GetStorageProviderBySealAddr (SealAddress p) s = None ->
  GetStorageProviderByApprovalAddr (ApprovalAddress p) s = None ->
  GetStorageProviderByGcAddr (GcAddress p) s = None ->
  GetStorageProviderByBlsKey (BlsKey p) s = None ->
  Z.of_nat (length (BlsKey p)) = BLSPubKeyLength ->
  registry (register p (with_spSequence (Some cell) s)).
Proof.
  intros [A B C D E F G Hs] Hid Hcell U1 U2 U3 U4 U5 U6 Hlen.
  assert (providers s !! sp_Id p = None) as Hfresh.
  { destruct (providers s !! sp_Id p) as [q|] eqn:Hq; [|done]. apply A in Hq. lia. }
  assert (cur_id (with_spSequence (Some cell) s) = sp_Id p) as Hcur by (unfold cur_id; done).
  unfold GetStorageProviderByOperatorAddr, GetStorageProviderByFundingAddr,
    GetStorageProviderBySealAddr, GetStorageProviderByApprovalAddr, GetStorageProviderByGcAddr,
    GetStorageProviderByBlsKey, through, GetStorageProvider in *.
  constructor; simpl; fold (cur_id (with_spSequence (Some cell) s));
    try (apply exact_new; [done|done|by eapply exact_unused]); unfold cur_id in *; simpl in *.
  - intros i q. rewrite lookup_insert_Some. intros [[<- <-]|[_ Hq]]; [rewrite Hcell; lia|].
    apply A in Hq. rewrite Hcell. lia.
  - eapply bls_new; try done; rewrite ?Hcell; try lia.
    intros k Hk. apply (bls_old _ _ _ G) in Hk. unfold cur_id in *. lia.
  - rewrite Hcell. lia.
Qed.

(** A provider changes addresses and key to ones no other provider has. *)
Lemma registry_reindex s p p' :
  registry s -> providers s !! sp_Id p = Some p -> sp_Id p' = sp_Id p ->
  OperatorAddress p' = OperatorAddress p -> FundingAddress p' = FundingAddress p ->
  (forall q, GetStorageProviderBySealAddr (SealAddress p') s = Some q -> sp_Id q = sp_Id p) ->
  (forall q, GetStorageProviderByApprovalAddr (ApprovalAddress p') s = Some q -> sp_Id q = sp_Id p) ->
  (forall q, GetStorageProviderByGcAddr (GcAddress p') s = Some q -> sp_Id q = sp_Id p) ->
  (forall q, GetStorageProviderByBlsKey (BlsKey p') s = Some q -> sp_Id q = sp_Id p) ->
  Z.of_nat (length (BlsKey p')) = BLSPubKeyLength ->
  registry (reindex p p' s).
Proof.
  intros Hreg Hp Hid Hop Hfu U1 U2 U3 U4 Hlen. pose proof Hreg as [A B C D E F G Hs].
  unfold GetStorageProviderBySealAddr, GetStorageProviderByApprovalAddr,
    GetStorageProviderByGcAddr, GetStorageProviderByBlsKey, through, GetStorageProvider in *.
  assert (forall (f : StorageProvider -> Addr) m k, index_exact f m (providers s) ->
    (forall q, match m !! k with Some id => providers s !! id | None => None end = Some q ->
      sp_Id q = sp_Id p) -> forall i, m !! k = Some i -> i = sp_Id p) as Hfree.
  { intros f m k He Hu i Hm. rewrite Hm in Hu. apply He in Hm as (q & Hq & _).
    rewrite <- (Hu _ Hq). by apply A in Hq as [-> _]. }
  constructor; simpl; rewrite ?Hid.
  - intros i q. rewrite lookup_insert_Some. intros [[<- <-]|[_ Hq]]; [|by apply A].
    split; [done|]. by apply A in Hp as [_ ?].
  - by eapply exact_same.
  - rewrite (exact_set_same _ _ (providers s) (sp_Id p) p) by done. by eapply exact_same.
  - apply exact_edit; [done|done|exact (Hfree _ _ _ D U1)].
  - apply exact_edit; [done|done|exact (Hfree _ _ _ E U2)].
  - apply exact_edit; [done|done|exact (Hfree _ _ _ F U3)].
  - apply bls_edit; try done; [by apply A in Hp as [_ ?]|].
    intros i q Hm Hq. rewrite Hm in U4. rewrite <- (U4 _ Hq). by apply A in Hq as [-> _].
  - done.
Qed.

(** ** The messages *)

Section Handlers.
Context {B G : Type} {HBank : BankKeeper B} {HAddr : Addresses} {HDenoms : Denoms}
  {HBls : Bls} {HAuthz : AuthzKeeper G} (authority : string).
Implicit Types (ctx : SpCtx) (s : SpState B G).

Definition sp_handle ctx (m : sp_msg) : M (SpState B G) sp_error unit :=
  match m with
  | S_Create msg => CreateStorageProvider ctx msg
  | S_Edit msg => EditStorageProvider msg
  | S_Deposit msg => SpDeposit msg
  | S_Price msg => UpdateSpStoragePrice ctx msg
  | S_Params signer p => SpUpdateParams authority signer p
  | S_Status msg => UpdateSpStatus ctx msg
  | S_Slash id rewards => Slash id rewards
  | S_EndBlock => on_store (EndBlocker ctx)
  end.

Lemma on_store_Ret {A} (c : M SpStore sp_error A) s a s' :
  on_store c s = (Ret a, s') -> exists st, c (store s) = (Ret a, st) /\ s' = with_store (fun _ => st) s.
Proof. unfold on_store. by intros (st & Hc & ->)%zoom_Ret; eauto. Qed.

Lemma sp_transfer_Ret (send : B -> option B) s u s' :
  transfer send s = (Ret u, s') -> exists b, send (sp_bank s) = Some b /\ s' = with_sp_bank b s.
Proof. unfold transfer. intros H. msteps H. eauto. Qed.

Lemma unused_Ret found e s u s' :
  unused found e s = (Ret u, s') -> s' = s /\ found (store s) = None.
Proof.
  unfold unused. intros H. msteps H. split; [done|].
  apply bool_decide_eq_false in Hx. by apply eq_None_not_Some.
Qed.

Lemma parseBlsKey_length text k :
  parseBlsKey text = Some k -> Z.of_nat (length k) = BLSPubKeyLength.
Proof.
  unfold parseBlsKey. destruct (hex_DecodeString text); [|done].
  case_match eqn:Hl; [|done]. intros [= ->]. by apply Z.eqb_eq.
Qed.

Lemma GetNextSpID_Ret (st : SpStore) id st' :
  GetNextSpID st = (Ret id, st') -> 0 <= cur_id st -> cur_id st + 1 < two32 ->
  exists cell, st' = with_spSequence (Some cell) st /\ id = cur_id st + 1 /\
    CurVal Uint32 (Some cell) = id.
Proof.
  unfold GetNextSpID, cur_id. intros Hrun H0 H1. mstep Hrun.
  destruct (NextVal Uint32 (spSequence st)) as [[i cell]|] eqn:Hn; [|done]. msteps Hrun.
  apply next_id in Hn as [Hi Hc]; [|done|done]. eauto.
Qed.

Definition sp_parts s := (store s, sp_bank s).
Lemma keeps_parts_authz ctx a b msg : keeps sp_parts (CheckDepositAuthorization ctx a b msg).
Proof. unfold CheckDepositAuthorization. frame. Qed.

(** What a new provider changes: its record, its price and its deposit. *)
Record sp_created ctx (msg : MsgCreateStorageProvider) s s' (p : StorageProvider) : Prop :=
mkSpCreated {
  sc_id : sp_Id p = cur_id (store s) + 1;
  sc_funding_text : AccAddressFromHexUnsafe (cs_FundingAddress msg) = Some (FundingAddress p);
  sc_deposit : sp_TotalDeposit p = (cs_Deposit msg).2;
  sc_min : exists min, MinDeposit (GetParams (store s)) = Some min /\ min <= sp_TotalDeposit p;
  sc_denom : (cs_Deposit msg).1 = DepositDenomForSP (store s);
  sc_operator : GetStorageProviderByOperatorAddr (OperatorAddress p) (store s) = None;
  sc_funding : GetStorageProviderByFundingAddr (FundingAddress p) (store s) = None;
  sc_seal : GetStorageProviderBySealAddr (SealAddress p) (store s) = None;
  sc_approval : GetStorageProviderByApprovalAddr (ApprovalAddress p) (store s) = None;
  sc_gc : GetStorageProviderByGcAddr (GcAddress p) (store s) = None;
  sc_bls : GetStorageProviderByBlsKey (BlsKey p) (store s) = None;
  sc_length : Z.of_nat (length (BlsKey p)) = BLSPubKeyLength;
  sc_paid : exists coins, NewCoins (DepositDenomForSP (store s)) (sp_TotalDeposit p) = Some coins /\
    SendCoinsFromAccountToModule (sp_bank s) (FundingAddress p) SpModuleName coins =
      Some (sp_bank s');
  sc_store : exists cell price, CurVal Uint32 (Some cell) = sp_Id p /\
    store s' = SetSpStoragePrice price (register p (with_spSequence (Some cell) (store s)));
}.

Lemma CreateStorageProvider_Ret ctx msg s u s' :
  CreateStorageProvider ctx msg s = (Ret u, s') -> 0 <= cur_id (store s) ->
  cur_id (store s) + 1 < two32 -> exists p, sp_created ctx msg s s' p.
Proof.
  unfold CreateStorageProvider, MustAccAddressFromHex. intros Hrun H0 H1. do 9 mstep Hrun.
  apply bind_Ret in Hrun as ([] & s0 & Hsigner & Hrun).
  assert (s0 = s) as -> by (destruct (sp_BlockHeight ctx =? 0); by msteps Hsigner).
  do 5 (apply bind_Ret in Hrun as ([] & ? & [-> ?]%unused_Ret & Hrun)).
  mstep Hrun. apply bind_Ret in Hrun as ([] & ? & [-> ?]%unused_Ret & Hrun).
  apply bind_Ret in Hrun as ([] & s0 & Hproof & Hrun).
  assert (s0 = s) as -> by (destruct (checkBlsProof _ _); [done|by msteps Hproof]).
  mstep Hrun. destruct (cs_Deposit msg) as [denom amount] eqn:Hdep. do 3 mstep Hrun.
  apply bind_Ret in Hrun as ([] & s1 & Hauth & Hrun).
  assert (sp_parts s1 = sp_parts s) as [= Hst Hbk].
  { destruct (negb (sp_BlockHeight ctx =? 0)); [|by msteps Hauth].
    exact (keeps_run _ _ _ _ _ (keeps_parts_authz _ _ _ _) Hauth). }
  mstep Hrun. apply bind_Ret in Hrun as ([] & ? & (b & Hsend & ->)%sp_transfer_Ret & Hrun).
  apply bind_Ret in Hrun as (id & ? & (st & Hid & ->)%on_store_Ret & Hrun). simpl in Hid.
  rewrite Hst in Hid. apply GetNextSpID_Ret in Hid as (cell & -> & Hidv & Hcell); [|done..].
  msteps Hrun. rewrite Hbk in Hsend.
  eexists (mkSp id _ _ _ _ _ _ _ _ _ _ _).
  constructor; rewrite ?Hdep; cbn [sp_Id sp_TotalDeposit OperatorAddress FundingAddress SealAddress
    ApprovalAddress GcAddress BlsKey fst snd]; try eassumption; try reflexivity.
  - eexists. split; [eassumption|]. by apply Z.ltb_ge.
  - by apply negb_false_iff, bool_decide_eq_true in Hx11.
  - by eapply parseBlsKey_length.
  - eexists. split; eassumption.
  - exists cell. eexists. split; [exact Hcell|]. reflexivity.
Qed.

Lemma registry_price price (st : SpStore) : registry st -> registry (SetSpStoragePrice price st).
Proof. intros [? ? ? ? ? ? ? ?]. by constructor. Qed.

Lemma create_registry ctx msg s u s' :
  CreateStorageProvider ctx msg s = (Ret u, s') -> cur_id (store s) + 1 < two32 ->
  registry (store s) -> registry (store s').
Proof.
  intros Hrun Hroom Hreg. apply CreateStorageProvider_Ret in Hrun as (p & Hc); [|apply Hreg|done].
  destruct (sc_store _ _ _ _ _ Hc) as (cell & price & Hcell & ->). apply registry_price.
  apply registry_register; try apply Hc; [done| |done].
  pose proof (sc_id _ _ _ _ _ Hc). lia.
Qed.

(** Finding a provider through an exact index. *)
Lemma through_exact {K} `{Countable K} (f : StorageProvider -> K) m k (st : SpStore) p :
  index_exact f m (providers st) -> through m k st = Some p ->
  f p = k /\ m !! k <> None /\ exists id, providers st !! id = Some p.
Proof.
  unfold through, GetStorageProvider. intros He. destruct (m !! k) as [id|] eqn:Hm; [|done].
  intros Hp. apply He in Hm as (q & Hq & <-). rewrite Hq in Hp. injection Hp as ->. eauto.
Qed.

Lemma through_self {K} `{Countable K} (f : StorageProvider -> K) m (st : SpStore) p q :
  index_exact f m (providers st) -> providers st !! sp_Id p = Some p ->
  through m (f p) st = Some q -> q = p.
Proof.
  unfold through, GetStorageProvider. intros He Hp.
  rewrite (proj2 (He (f p) (sp_Id p))) by eauto. rewrite Hp. congruence.
Qed.

Lemma find_operator a (st : SpStore) p :
  registry st -> GetStorageProviderByOperatorAddr a st = Some p ->
  OperatorAddress p = a /\ providers st !! sp_Id p = Some p.
Proof.
  intros Hreg Hf. eapply through_exact in Hf as (Ha & _ & id & Hp); [|apply Hreg].
  split; [done|]. by rewrite (proj1 (reg_key _ Hreg _ _ Hp)).
Qed.

Lemma find_funding a (st : SpStore) p :
  registry st -> GetStorageProviderByFundingAddr a st = Some p ->
  FundingAddress p = a /\ providers st !! sp_Id p = Some p.
Proof.
  intros Hreg Hf. eapply through_exact in Hf as (Ha & _ & id & Hp); [|apply Hreg].
  split; [done|]. by rewrite (proj1 (reg_key _ Hreg _ _ Hp)).
Qed.

Lemma edit_address_Ret text old id index e s a s' :
  edit_address text old id index e s = (Ret a, s') ->
  s' = s /\ (a = old \/ forall q, index a (store s) = Some q -> sp_Id q = id).
Proof.
  unfold edit_address, MustAccAddressFromHex. intros Hrun.
  destruct (bool_decide (text = EmptyString)); [msteps Hrun; auto|]. msteps Hrun.
  split; [done|]. right. intros q Hq. rewrite Hq in *. by apply Z.eqb_eq, negb_false_iff.
Qed.

Lemma edit_bls_Ret key proof old id s k s' :
  edit_bls key proof old id s = (Ret k, s') ->
  s' = s /\ (k = old \/ (Z.of_nat (length k) = BLSPubKeyLength /\
    forall q, GetStorageProviderByBlsKey k (store s) = Some q -> sp_Id q = id)).
Proof.
  unfold edit_bls. intros Hrun. destruct (_ && _); [|msteps Hrun; auto]. do 3 mstep Hrun.
  apply bind_Ret in Hrun as ([] & s0 & Hproof & Hrun).
  assert (s0 = s) as -> by (destruct (checkBlsProof _ _); [done|by msteps Hproof]). msteps Hrun.
  split; [done|]. right. split; [by eapply parseBlsKey_length|].
  intros q Hq. rewrite Hq in *. by apply Z.eqb_eq, negb_false_iff.
Qed.

Lemma edit_registry msg s u s' :
  EditStorageProvider msg s = (Ret u, s') -> registry (store s) -> registry (store s').
Proof.
  unfold EditStorageProvider, MustAccAddressFromHex. intros Hrun Hreg. do 3 mstep Hrun.
  rename x0 into p, Hx0 into Hf. apply find_operator in Hf as [_ Hp]; [|done].
  apply bind_Ret in Hrun as (d & s0 & Hd & Hrun).
  assert (s0 = s) as -> by (destruct (es_Description msg); by msteps Hd).
  apply bind_Ret in Hrun as (seal & ? & [-> U1]%edit_address_Ret & Hrun).
  apply bind_Ret in Hrun as (approval & ? & [-> U2]%edit_address_Ret & Hrun).
  apply bind_Ret in Hrun as (gc & ? & [-> U3]%edit_address_Ret & Hrun).
  apply bind_Ret in Hrun as (mnt & s0 & Hm & Hrun).
  assert (s0 = s) as -> by (destruct (bool_decide (es_MaintenanceAddress msg = _)); by msteps Hm).
  apply bind_Ret in Hrun as (k & ? & [-> U4]%edit_bls_Ret & Hrun). msteps Hrun. simpl.
  pose proof (reg_bls _ Hreg) as Hbls.
  apply registry_reindex; try done; cbn [SealAddress ApprovalAddress GcAddress BlsKey].
  - destruct U1 as [->|U1]; [|done]. intros q ->%(through_self SealAddress); [done|apply Hreg|done].
  - destruct U2 as [->|U2]; [|done]. intros q ->%(through_self ApprovalAddress); [done|apply Hreg|done].
  - destruct U3 as [->|U3]; [|done]. intros q ->%(through_self GcAddress); [done|apply Hreg|done].
  - destruct U4 as [->|[_ U4]]; [|done]. unfold GetStorageProviderByBlsKey, through, GetStorageProvider.
    rewrite (bls_found _ _ _ Hbls _ _ Hp), Hp. by intros q [= ->].
  - destruct U4 as [->|[U4 _]]; [|done]. by eapply bls_length.
Qed.

Lemma deposit_registry msg s u s' :
  SpDeposit msg s = (Ret u, s') -> registry (store s) -> registry (store s').
Proof.
  unfold SpDeposit, MustAccAddressFromHex. intros Hrun Hreg. do 5 mstep Hrun.
  rename x0 into p, Hx0 into Hf. apply find_funding in Hf as [_ Hp]; [|done].
  destruct (sd_Deposit msg) as [d amount]. do 2 mstep Hrun.
  apply bind_Ret in Hrun as ([] & ? & (b & _ & ->)%sp_transfer_Ret & Hrun). msteps Hrun.
  by apply (registry_write _ p).
Qed.

Lemma price_registry ctx msg s u s' :
  UpdateSpStoragePrice ctx msg s = (Ret u, s') -> registry (store s) -> registry (store s').
Proof.
  unfold UpdateSpStoragePrice, MustAccAddressFromHex. intros Hrun Hreg. msteps Hrun.
  by apply registry_price.
Qed.

Lemma params_registry signer p s u s' :
  SpUpdateParams authority signer p s = (Ret u, s') -> registry (store s) -> registry (store s').
Proof.
  unfold SpUpdateParams. intros Hrun Hreg. mstep Hrun.
  apply on_store_Ret in Hrun as (st & Hset & ->). unfold SetParams in Hset. msteps Hset.
  destruct Hreg. by constructor.
Qed.

Lemma registry_maintenance m (st : SpStore) : registry st -> registry (with_maintenance m st).
Proof. intros [? ? ? ? ? ? ? ?]. by constructor. Qed.

(** A change of status writes maintenance records and returns the provider
    with another status. *)
Lemma status_written ctx msg p s p' s' :
  match sp_Status p with
  | STATUS_IN_SERVICE =>
      do! guard (negb (bool_decide (us_Status msg = STATUS_IN_MAINTENANCE)))
            ErrStorageProviderStatusUpdateNotAllow ;;
      on_store (UpdateToInMaintenance ctx p (us_Duration msg))
  | STATUS_IN_MAINTENANCE =>
      do! guard (negb (bool_decide (us_Status msg = STATUS_IN_SERVICE)))
            ErrStorageProviderStatusUpdateNotAllow ;;
      on_store (UpdateToInService ctx p)
  | STATUS_IN_JAILED | STATUS_GRACEFUL_EXITING | STATUS_FORCED_EXITING =>
      fail ErrStorageProviderStatusUpdateNotAllow
  end s = (Ret p', s') ->
  exists st m, p' = set_sp_status st p /\ s' = with_store (with_maintenance m) s.
Proof.
  intros Hnew. destruct (sp_Status p); try done; mstep Hnew;
    apply on_store_Ret in Hnew as (st' & Hnew & ->); simpl.
  - unfold UpdateToInMaintenance in Hnew. mstep Hnew. mstep Hnew.
    destruct (maintenance (store s) !! _); msteps Hnew; eexists _, _; split; reflexivity.
  - unfold UpdateToInService in Hnew. mstep Hnew.
    apply bind_Ret in Hnew as ([] & st1 & Hrec & Hnew). msteps Hnew. exists STATUS_IN_SERVICE.
    destruct (maintenance (store s) !! _); msteps Hrec; [by eexists|].
    exists (maintenance (store s)). split; [done|]. by destruct s as [[]].
Qed.

Lemma status_registry ctx msg s u s' :
  UpdateSpStatus ctx msg s = (Ret u, s') -> registry (store s) -> registry (store s').
Proof.
  unfold UpdateSpStatus, MustAccAddressFromHex. intros Hrun Hreg. do 4 mstep Hrun.
  rename x0 into p, Hx0 into Hf. apply find_operator in Hf as [_ Hp]; [|done].
  apply bind_Ret in Hrun as (p' & s1 & (st & m & -> & ->)%status_written & Hrun). msteps Hrun.
  apply (registry_write _ p); [by apply registry_maintenance|done|done].
Qed.

Lemma slash_registry id rewards s u s' :
  Slash id rewards s = (Ret u, s') -> registry (store s) -> registry (store s').
Proof.
  unfold Slash. intros Hrun Hreg. do 4 mstep Hrun. rename x into p, Hx into Hp.
  apply bind_Ret in Hrun as ([] & s1 & Hpay & Hrun). msteps Hrun. simpl.
  assert (store s1 = store s) as ->.
  { clear -Hpay. revert s Hpay. induction rewards as [|r l IH]; simpl; intros s Hpay.
    - by msteps Hpay.
    - do 2 mstep Hpay. apply bind_Ret in Hpay as ([] & ? & (b & _ & ->)%sp_transfer_Ret & Hpay).
      by apply IH in Hpay. }
  apply (registry_write _ p); [done| |done]. cbn [sp_Id set_sp_deposit].
  by rewrite (proj1 (reg_key _ Hreg _ _ Hp)).
Qed.

(** ** The end blocker *)

(** The store without the global prices, all the price update writes. *)
Definition but_global_prices (st : SpStore) : SpStore := with_global_prices ∅ st.

Lemma keeps_but_global_price ctx : keeps but_global_prices (UpdateGlobalSpStorePrice ctx).
Proof.
  unfold UpdateGlobalSpStorePrice. apply keeps_bind; [frame|]. intros st.
  apply keeps_bind; [by intros st'|]. intros [|price prices]; [frame|].
  repeat case_match; frame.
Qed.

Lemma registry_but_global_prices st st' :
  but_global_prices st' = but_global_prices st -> registry st -> registry st'.
Proof.
  destruct st, st'. unfold but_global_prices, with_global_prices. simpl. intros Heq.
  injection Heq. intros. subst. match goal with Hr : registry _ |- _ => destruct Hr end.
  by constructor.
Qed.

(** Provider [p], as read earlier, is still there with its identity. *)
Definition still_there (st : SpStore) (p : StorageProvider) : Prop :=
  exists q, providers st !! sp_Id p = Some q /\ same_identity q p.

Lemma force_update_registry ctx params p st :
  registry st -> still_there st p -> registry (force_update_provider ctx params p st).
Proof.
  intros Hreg (q & Hq & Hs). unfold force_update_provider.
  destruct (maintenance st !! OperatorAddress p) as [records|]; [|done].
  set (forced := negb _ && existsb _ _). destruct forced.
  - assert (registry (SetStorageProvider (set_sp_status STATUS_IN_SERVICE p) st)) as Hreg'.
    { apply (registry_write _ q); [done|done|]. destruct Hs. by constructor. }
    destruct (purge _ _ _); [by apply registry_maintenance|].
    destruct (true || _); [by apply registry_maintenance|done].
  - destruct (purge _ _ _); [by apply registry_maintenance|].
    destruct (false || _); [by apply registry_maintenance|done].
Qed.

Lemma force_update_providers ctx params p st :
  providers (force_update_provider ctx params p st) = providers st \/
  providers (force_update_provider ctx params p st) =
    <[sp_Id p := set_sp_status STATUS_IN_SERVICE p]> (providers st).
Proof.
  unfold force_update_provider. destruct (maintenance st !! _); [|by left].
  destruct (_ && _); destruct (purge _ _ _); try destruct (_ || _); auto.
Qed.

Lemma force_update_there ctx params p p0 st :
  still_there st p -> still_there st p0 -> still_there (force_update_provider ctx params p st) p0.
Proof.
  intros (q & Hq & Hs) (q0 & Hq0 & Hs0). unfold still_there.
  destruct (force_update_providers ctx params p st) as [->| ->]; [eauto|].
  destruct (decide (sp_Id p0 = sp_Id p)) as [He|Hne].
  - rewrite He, lookup_insert_eq. eexists. split; [done|].
    rewrite He, Hq in Hq0. injection Hq0 as <-. destruct Hs, Hs0. constructor; simpl; congruence.
  - rewrite lookup_insert_ne by done. eauto.
Qed.

Lemma force_update_all_registry ctx st : registry st -> registry (ForceUpdateMaintenanceRecords ctx st).
Proof.
  intros Hreg. unfold ForceUpdateMaintenanceRecords.
  assert (Forall (still_there st) (GetAllStorageProviders st)) as Hall.
  { apply Forall_forall. intros p. unfold GetAllStorageProviders. rewrite list_elem_of_fmap.
    intros ([id q] & -> & Hq%elem_of_iterate). exists q. simpl.
    rewrite (proj1 (reg_key _ Hreg _ _ Hq)). by split. }
  revert Hreg Hall. generalize (GetAllStorageProviders st) as l. intros l. revert st.
  induction l as [|p l IH]; intros st Hreg Hall; simpl; [done|].
  apply Forall_cons in Hall as [Hp Hl]. apply IH; [by apply force_update_registry|].
  eapply Forall_impl; [exact Hl|]. intros q Hq. by apply force_update_there.
Qed.

Lemma EndBlocker_registry ctx st u st' :
  EndBlocker ctx st = (Ret u, st') -> registry st -> registry st'.
Proof.
  unfold EndBlocker. intros Hrun Hreg. apply bind_Ret in Hrun as ([] & st1 & Hgc & Hrun).
  assert (registry st1) as Hreg1.
  { destruct (_ =? 0); msteps Hgc; [by apply force_update_all_registry|done]. }
  mstep Hrun. destruct (need_price_update ctx st1); [|by msteps Hrun].
  apply bind_Ret in Hrun as (o & st2 & Hup & Hrun). msteps Hrun.
  eapply registry_but_global_prices; [|exact Hreg1].
  by eapply (keeps_run _ _ _ _ _ (keeps_attempt _ _ (keeps_but_global_price ctx))).
Qed.

(** Every message, slash and end block keeps the registry. *)
Lemma sp_handle_registry ctx m s u s' :
  sp_handle ctx m s = (Ret u, s') -> cur_id (store s) + 1 < two32 ->
  registry (store s) -> registry (store s').
Proof.
  destruct m; simpl; intros Hrun Hroom Hreg.
  - by eapply create_registry.
  - by eapply edit_registry.
  - by eapply deposit_registry.
  - by eapply price_registry.
  - by eapply params_registry.
  - by eapply status_registry.
  - by eapply slash_registry.
  - apply on_store_Ret in Hrun as (st & Hrun & ->). by eapply EndBlocker_registry.
Qed.
End Handlers.

(** ** x/sp: the global price

    The store price all buckets pay is the median of the prices of the
    providers in service or in maintenance: at most half of them ask for less
    and at most half for more. *)

From S2P Require Import FeeMarket SpTypes SpKeeper.

(** How many of [l] satisfy [P]. *)
Definition count (P : Z -> bool) (l : list Z) : nat := length (filter (fun x => P x = true) l).

Lemma count_perm P l k : l ≡ₚ k -> count P l = count P k.
Proof. intros Hp. unfold count. by rewrite Hp. Qed.
Lemma count_app P l k : count P (l ++ k) = (count P l + count P k)%nat.
Proof. unfold count. by rewrite filter_app, length_app. Qed.
Lemma count_le P l : (count P l <= length l)%nat.
Proof. apply length_filter. Qed.
Lemma count_none P l : Forall (fun x => P x = false) l -> count P l = 0%nat.
Proof.
  unfold count. induction 1 as [|x l Hx Hl IH]; [done|]. rewrite filter_cons_False by congruence. done.
Qed.

Definition below (m x : Z) : bool := x <? m.
Definition above (m x : Z) : bool := m <? x.

(** Around the element at index [i] of a sorted list. *)
Lemma sorted_index l i a m :
  StronglySorted Z.le l -> l !! i = Some a ->
  (m <= a -> (count (below m) l <= i)%nat) /\
  (a <= m -> (count (above m) l + i < length l)%nat).
Proof.
  intros Hs Hi. pose proof (lookup_lt_Some _ _ _ Hi) as Hlt.
  rewrite <- (take_drop_middle l i a Hi) in Hs |- *.
  assert (length (take i l) = i) as Hlen by (rewrite length_take; lia).
  apply StronglySorted_app in Hs as (Hx & _ & [Hge _]%StronglySorted_cons).
  rewrite !count_app, length_app. cbn [length]. split; intros Hm.
  - rewrite (count_none _ (a :: _)); [pose proof (count_le (below m) (take i l)); lia|].
    constructor; [unfold below; lia|]. eapply Forall_impl; [exact Hge|]. unfold below. simpl. lia.
  - rewrite (count_none _ (take i l)).
    + change (a :: drop (S i) l) with ([a] ++ drop (S i) l). rewrite count_app, (count_none _ [a]).
      * pose proof (count_le (above m) (drop (S i) l)). lia.
      * constructor; [unfold above; lia|done].
    + apply Forall_forall. intros x Hin. specialize (Hx x a Hin). unfold above.
      assert (x <= a) by (apply Hx; set_solver). lia.
Qed.

Lemma sorted_lookup l i j a b :
  StronglySorted Z.le l -> l !! i = Some a -> l !! j = Some b -> (i < j)%nat -> a <= b.
Proof.
  intros Hs Hi Hj Hlt. rewrite <- (take_drop_middle l i a Hi) in Hs.
  apply StronglySorted_app_1_r, StronglySorted_cons in Hs as [Hge _].
  rewrite Forall_forall in Hge. apply Hge, (list_elem_of_lookup_2 _ (j - S i)).
  rewrite lookup_drop. by replace (S i + (j - S i))%nat with j by lia.
Qed.

Lemma quot2_between a b : a <= b -> a <= Z.quot (a + b) 2 <= b.
Proof.
  intros Hab. destruct (Z.le_gt_cases 0 (a + b)).
  - rewrite Z.quot_div_nonneg by lia. pose proof (Z.div_mod (a + b) 2).
    pose proof (Z.mod_pos_bound (a + b) 2). lia.
  - replace (a + b) with (- (- (a + b))) by lia. rewrite Z.quot_opp_l, Z.quot_div_nonneg by lia.
    pose proof (Z.div_mod (- (a + b)) 2). pose proof (Z.mod_pos_bound (- (a + b)) 2). lia.
Qed.

(** The median of a list that has one: at most half lie below, at most half
    above. *)
Definition halves (m : Z) (l : list Z) : Prop :=
  (2 * count (below m) l <= length l)%nat /\ (2 * count (above m) l <= length l)%nat.

Lemma calculateMedian_halves prices m : calculateMedian prices = Some m -> halves m prices.
Proof.
  unfold calculateMedian, halves. pose proof (merge_sort_Permutation Z.le prices) as Hp.
  set (l := merge_sort Z.le prices) in *. pose proof (StronglySorted_merge_sort Z.le prices) as Hs.
  fold l in Hs. rewrite <- !(count_perm _ _ _ Hp). rewrite <- (Permutation_length Hp).
  pose proof (Nat.div2_odd (length l)) as Hodd. intros Hm.
  destruct (Nat.even (length l)) eqn:He; rewrite <- Nat.negb_even, He in Hodd; simpl in Hodd.
  - destruct (l !! _) as [a|] eqn:Ha; [|done]. destruct (l !! Nat.div2 _) as [b|] eqn:Hb; [|done].
    injection Hm as <-. assert (a <= b) as Hab.
    { pose proof (lookup_lt_Some _ _ _ Hb). eapply (sorted_lookup l); eauto. lia. }
    pose proof (quot2_between a b Hab).
    destruct (sorted_index l _ b (Z.quot (a + b) 2) Hs Hb) as [H1 _].
    destruct (sorted_index l _ a (Z.quot (a + b) 2) Hs Ha) as [_ H2].
    specialize (H1 ltac:(lia)). specialize (H2 ltac:(lia)).
    pose proof (lookup_lt_Some _ _ _ Hb). lia.
  - destruct (sorted_index l _ m m Hs Hm) as [H1 H2].
    specialize (H1 ltac:(lia)). specialize (H2 ltac:(lia)). lia.
Qed.

Lemma calculateMedian_nonempty l : l <> [] -> is_Some (calculateMedian l).
Proof.
  intros Hl. unfold calculateMedian. pose proof (merge_sort_Permutation Z.le l) as Hp.
  set (k := merge_sort Z.le l) in *. apply Permutation_length in Hp.
  assert (0 < length l)%nat as Hpos by (destruct l; [done|simpl; lia]).
  pose proof (Nat.div2_odd (length l)) as Hodd. pose proof (Nat.div2_decr (length l) (length l)).
  destruct (Nat.even (length l)) eqn:He; rewrite <- Nat.negb_even, He in Hodd; simpl in Hodd.
  - destruct (lookup_lt_is_Some_2 k (Nat.div2 (length l) - 1)) as (a & ->); [lia|].
    destruct (lookup_lt_is_Some_2 k (Nat.div2 (length l))) as (b & ->); [lia|]. done.
  - apply lookup_lt_is_Some_2. lia.
Qed.

(** What an update of the global price stores. *)
Lemma UpdateGlobalSpStorePrice_Ret ctx s u s' :
  UpdateGlobalSpStorePrice ctx s = (Ret u, s') ->
  exists prices, collect_prices (GetAllStorageProviders s) s = Ret prices /\
    (prices = [] /\ s' = s \/
     exists g ratio, global_prices s' = <[u64 (Unix (sp_BlockTime ctx)) := g]> (global_prices s) /\
       halves (gp_PrimaryStorePrice g) (pr_StorePrice <$> prices) /\
       halves (gp_ReadPrice g) (pr_ReadPrice <$> prices) /\
       SecondarySpStorePriceRatio (GetParams s) = Some ratio /\
       gp_SecondaryStorePrice g = dec_Mul ratio (gp_PrimaryStorePrice g)).
Proof.
  unfold UpdateGlobalSpStorePrice. intros Hrun. mstep Hrun.
  apply bind_Ret in Hrun as (prices & s0 & Hc & Hrun). injection Hc as Hc <-.
  exists prices. split; [done|]. destruct prices as [|p l]; [msteps Hrun; by left|]. right.
  destruct (calculateMedian (pr_StorePrice <$> _)) as [m|] eqn:Hm; [|done].
  destruct (SecondarySpStorePriceRatio _) as [ratio|]; [|done].
  destruct (calculateMedian (pr_ReadPrice <$> _)) as [r|] eqn:Hr; [|done]. msteps Hrun.
  eexists _, ratio. split; [reflexivity|]. simpl.
  split_and!; [by apply calculateMedian_halves|by apply calculateMedian_halves|done|done].
Qed.

(** It goes through when every provider that counts has a price. *)
Lemma UpdateGlobalSpStorePrice_total ctx s :
  (forall id p, providers s !! id = Some p -> IsInService p || IsInMaintenance p = true ->
     is_Some (sp_prices s !! sp_Id p)) ->
  is_Some (SecondarySpStorePriceRatio (GetParams s)) ->
  exists s', UpdateGlobalSpStorePrice ctx s = (Ret tt, s').
Proof.
  intros Hall (ratio & Hratio).
  assert (forall l, (forall p, p ∈ l -> exists id, providers s !! id = Some p) ->
    exists prices, collect_prices l s = Ret prices) as Hcol.
  { induction l as [|p l IH]; intros Hin; simpl; [eauto|].
    destruct IH as (prices & Hl); [set_solver|]. rewrite Hl.
    destruct (IsInService p || IsInMaintenance p) eqn:Hst; [|eauto].
    destruct (Hin p) as (id & Hid); [set_solver|]. destruct (Hall _ _ Hid Hst) as (v & Hv).
    unfold GetSpStoragePrice. rewrite Hv. eauto. }
  destruct (Hcol (GetAllStorageProviders s)) as (prices & Hp).
  { intros p. unfold GetAllStorageProviders. rewrite list_elem_of_fmap.
    intros ([id q] & -> & Hq%elem_of_iterate). eauto. }
  unfold UpdateGlobalSpStorePrice. rewrite bind_get. unfold bind. rewrite Hp.
  destruct prices as [|v l]; [by eexists|]. rewrite Hratio.
  destruct (calculateMedian_nonempty (pr_StorePrice <$> v :: l)) as (m & ->); [done|].
  destruct (calculateMedian_nonempty (pr_ReadPrice <$> v :: l)) as (r & ->); [done|].
  by eexists.
Qed.

(** ** x/sp: the deposits of the providers

    What the module account holds beyond the deposits of the providers
    ([sp_surplus]) is moved by no message, slash or end block, as long as the
    accounts that pay and are paid are not the module's own. *)

#[local] Arguments CurVal : simpl never.
#[local] Arguments NextVal : simpl never.

Definition deposited (st : SpStore) : Z := map_sum (fun _ p => sp_TotalDeposit p) (providers st).

Lemma deposited_write (st : SpStore) p p' :
  providers st !! sp_Id p' = Some p ->
  deposited (SetStorageProvider p' st) = deposited st + sp_TotalDeposit p' - sp_TotalDeposit p.
Proof.
  intros Hp. unfold deposited. simpl. rewrite map_sum_insert. unfold contrib. rewrite Hp. lia.
Qed.

(** An exit takes the deposit out. *)
Lemma deposited_Exit (st : SpStore) p :
  providers st !! sp_Id p = Some p -> deposited (Exit p st) = deposited st - sp_TotalDeposit p.
Proof. intros Hp. unfold deposited. simpl. rewrite (map_sum_delete _ _ _ _ Hp). lia. Qed.

Section Surplus.
Context {B G : Type} {HBank : BankKeeper B} {HAddr : Addresses} {HDenoms : Denoms}
  {HBls : Bls} {HAuthz : AuthzKeeper G} {HLaws : BankLaws B} (authority : string).
Implicit Types (ctx : SpCtx) (s : SpState B G).

Definition sp_surplus s : Z :=
  GetBalance (sp_bank s) (ModuleAddress SpModuleName) (DepositDenomForSP (store s)) -
  deposited (store s).

(** The accounts a message names are not the module's, and the coin of
    deposits stays. *)
Definition external s (m : sp_msg) : Prop :=
  match m with
  | S_Create msg =>
      AccAddressFromHexUnsafe (cs_FundingAddress msg) <> Some (ModuleAddress SpModuleName)
  | S_Deposit msg => AccAddressFromHexUnsafe (sd_Creator msg) <> Some (ModuleAddress SpModuleName)
  | S_Params _ p => DepositDenom p = DepositDenomForSP (store s)
  | S_Slash _ rewards =>
      Forall (fun r => AccAddressFromHexUnsafe (rw_Address r) <> Some (ModuleAddress SpModuleName))
        rewards
  | _ => True
  end.

(** Nothing that counts moves. *)
Lemma surplus_same s s' :
  sp_bank s' = sp_bank s -> sp_params (store s') = sp_params (store s) ->
  deposited (store s') = deposited (store s) -> sp_surplus s' = sp_surplus s.
Proof.
  intros Hb Hp Hd. unfold sp_surplus, DepositDenomForSP, GetParams. by rewrite Hb, Hp, Hd.
Qed.

Lemma create_surplus_sp ctx msg s u s' :
  CreateStorageProvider ctx msg s = (Ret u, s') -> cur_id (store s) + 1 < two32 ->
  registry (store s) -> external s (S_Create msg) -> sp_surplus s' = sp_surplus s.
Proof.
  intros Hrun Hroom Hreg Hext. pose proof Hrun as Hrun'.
  apply CreateStorageProvider_Ret in Hrun as (p & Hc); [|apply Hreg|done].
  destruct (sc_store _ _ _ _ _ Hc) as (cell & price & _ & Hst).
  destruct (sc_paid _ _ _ _ _ Hc) as (coins & [_ Hamt]%NewCoins_nonneg & Hsend).
  unfold sp_surplus. rewrite Hst.
  change (DepositDenomForSP (SetSpStoragePrice _ _)) with (DepositDenomForSP (store s)).
  unfold deposited. simpl. fold (deposited (store s)). rewrite map_sum_insert_fresh.
  2: { destruct (providers (store s) !! sp_Id p) as [q|] eqn:Hq; [|done].
       apply (reg_key _ Hreg) in Hq. pose proof (sc_id _ _ _ _ _ Hc). lia. }
  rewrite (send_a2m _ _ _ _ _ Hsend), Hamt, decide_False, decide_True; [|done|].
  - fold (deposited (store s)). lia.
  - simpl in Hext. rewrite (sc_funding_text _ _ _ _ _ Hc) in Hext. congruence.
Qed.

Lemma deposit_surplus_sp msg s u s' :
  SpDeposit msg s = (Ret u, s') -> registry (store s) -> external s (S_Deposit msg) ->
  sp_surplus s' = sp_surplus s.
Proof.
  unfold SpDeposit, MustAccAddressFromHex. simpl. intros Hrun Hreg Hext. do 5 mstep Hrun.
  rename x0 into p, Hx0 into Hf. apply find_funding in Hf as [Ha Hp]; [|done].
  destruct (sd_Deposit msg) as [d amount]. mstep Hrun.
  match goal with Hd : negb (bool_decide (DepositDenomForSP _ = d)) = false |- _ =>
    apply negb_false_iff, bool_decide_eq_true in Hd; rename Hd into Hdenom end.
  mstep Hrun. match goal with Hc : NewCoins _ _ = _ |- _ => apply NewCoins_nonneg in Hc as [_ Hamt] end.
  apply bind_Ret in Hrun as ([] & ? & (b & Hsend & ->)%sp_transfer_Ret & Hrun). msteps Hrun.
  unfold sp_surplus. cbn [store sp_bank with_store with_sp_bank].
  rewrite (deposited_write _ p) by done.
  change (DepositDenomForSP (SetStorageProvider _ (store s))) with (DepositDenomForSP (store s)).
  rewrite Hdenom, (send_a2m _ _ _ _ _ Hsend), Hamt, decide_False, decide_True; [|done|congruence].
  cbn [sp_TotalDeposit set_sp_deposit]. lia.
Qed.

Lemma pay_rewards_Ret rewards s u s' d :
  pay_rewards rewards s = (Ret u, s') ->
  Forall (fun r => AccAddressFromHexUnsafe (rw_Address r) <> Some (ModuleAddress SpModuleName)) rewards ->
  forallb (fun r => bool_decide (d = (rw_Amount r).1)) rewards = true ->
  store s' = store s /\ GetBalance (sp_bank s') (ModuleAddress SpModuleName) d =
    GetBalance (sp_bank s) (ModuleAddress SpModuleName) d - zsum (fun r => (rw_Amount r).2) rewards.
Proof.
  revert s. induction rewards as [|r rewards IH]; intros s Hrun Hext Hden; simpl in Hrun.
  { msteps Hrun. unfold zsum. simpl. split; [done|lia]. }
  apply Forall_cons in Hext as [Hr Hext]. simpl in Hden.
  apply andb_prop in Hden as [Hd%bool_decide_eq_true Hden].
  do 2 mstep Hrun. rewrite <- Hd in *. apply NewCoins_nonneg in Hx0 as [_ Hamt].
  apply bind_Ret in Hrun as ([] & ? & (b & Hsend & ->)%sp_transfer_Ret & Hrun).
  apply IH in Hrun as [-> ->]; [|done..]. split; [done|]. cbn [sp_bank with_sp_bank].
  rewrite (send_m2a _ _ _ _ _ Hsend), Hamt, decide_True, decide_False; [|congruence|done].
  unfold zsum. simpl. lia.
Qed.

Lemma slash_surplus id rewards s u s' :
  Slash id rewards s = (Ret u, s') -> registry (store s) -> external s (S_Slash id rewards) ->
  sp_surplus s' = sp_surplus s.
Proof.
  unfold Slash. simpl. intros Hrun Hreg Hext. do 4 mstep Hrun. rename x into p, Hx into Hp.
  apply negb_false_iff in Hx0. apply bind_Ret in Hrun as ([] & s1 & Hpay & Hrun). msteps Hrun.
  apply (pay_rewards_Ret _ _ _ _ (DepositDenomForSP (store s))) in Hpay as [Hst Hbal]; [|done..].
  unfold sp_surplus. cbn [store sp_bank with_store]. rewrite Hst.
  change (DepositDenomForSP (SetStorageProvider _ (store s))) with (DepositDenomForSP (store s)).
  rewrite Hbal, (deposited_write _ p); [cbn [sp_TotalDeposit set_sp_deposit]; lia|].
  cbn [sp_Id set_sp_deposit]. by rewrite (proj1 (reg_key _ Hreg _ _ Hp)).
Qed.

Lemma edit_surplus msg s u s' :
  EditStorageProvider msg s = (Ret u, s') -> registry (store s) -> sp_surplus s' = sp_surplus s.
Proof.
  unfold EditStorageProvider, MustAccAddressFromHex. intros Hrun Hreg. do 3 mstep Hrun.
  rename x0 into p, Hx0 into Hf. apply find_operator in Hf as [_ Hp]; [|done].
  apply bind_Ret in Hrun as (d & s0 & Hd & Hrun).
  assert (s0 = s) as -> by (destruct (es_Description msg); by msteps Hd).
  apply bind_Ret in Hrun as (seal & ? & [-> _]%edit_address_Ret & Hrun).
  apply bind_Ret in Hrun as (approval & ? & [-> _]%edit_address_Ret & Hrun).
  apply bind_Ret in Hrun as (gc & ? & [-> _]%edit_address_Ret & Hrun).
  apply bind_Ret in Hrun as (mnt & s0 & Hm & Hrun).
  assert (s0 = s) as -> by (destruct (bool_decide (es_MaintenanceAddress msg = _)); by msteps Hm).
  apply bind_Ret in Hrun as (k & ? & [-> _]%edit_bls_Ret & Hrun). msteps Hrun.
  apply surplus_same; [done|done|]. simpl. unfold deposited. simpl. rewrite map_sum_insert.
  unfold contrib. rewrite Hp. simpl. lia.
Qed.

Lemma params_surplus signer p s u s' :
  SpUpdateParams authority signer p s = (Ret u, s') -> external s (S_Params signer p) ->
  sp_surplus s' = sp_surplus s.
Proof.
  unfold SpUpdateParams. simpl. intros Hrun Hext. mstep Hrun.
  apply on_store_Ret in Hrun as (st & Hset & ->). unfold SetParams in Hset. msteps Hset.
  unfold sp_surplus. simpl. change (DepositDenomForSP (with_sp_params (Some p) (store s)))
    with (DepositDenom p). by rewrite Hext.
Qed.

Lemma status_surplus ctx msg s u s' :
  UpdateSpStatus ctx msg s = (Ret u, s') -> registry (store s) -> sp_surplus s' = sp_surplus s.
Proof.
  unfold UpdateSpStatus, MustAccAddressFromHex. intros Hrun Hreg. do 4 mstep Hrun.
  rename x0 into p, Hx0 into Hf. apply find_operator in Hf as [_ Hp]; [|done].
  apply bind_Ret in Hrun as (p' & s1 & (st & m & -> & ->)%status_written & Hrun). msteps Hrun.
  apply surplus_same; [done|done|]. simpl. rewrite (deposited_write _ p) by done.
  unfold deposited. simpl. lia.
Qed.

Lemma force_update_deposited ctx params p st q :
  providers st !! sp_Id p = Some q -> sp_TotalDeposit q = sp_TotalDeposit p ->
  deposited (force_update_provider ctx params p st) = deposited st /\
  sp_params (force_update_provider ctx params p st) = sp_params st.
Proof.
  intros Hq Hd. unfold force_update_provider. destruct (maintenance st !! _); [|done].
  assert (deposited (SetStorageProvider (set_sp_status STATUS_IN_SERVICE p) st) = deposited st) as He.
  { rewrite (deposited_write _ q) by done. simpl. lia. }
  destruct (_ && _); destruct (purge _ _ _); try destruct (_ || _); done.
Qed.

(** The provider read as [p] still has its deposit. *)
Definition same_deposit (st : SpStore) (p : StorageProvider) : Prop :=
  exists q, providers st !! sp_Id p = Some q /\ sp_TotalDeposit q = sp_TotalDeposit p.

Lemma force_update_same_deposit ctx params p p0 st :
  same_deposit st p -> same_deposit st p0 ->
  same_deposit (force_update_provider ctx params p st) p0.
Proof.
  intros (q & Hq & Hd) (q0 & Hq0 & Hd0). unfold same_deposit.
  destruct (force_update_providers ctx params p st) as [->| ->]; [eauto|].
  destruct (decide (sp_Id p0 = sp_Id p)) as [He|Hne].
  - rewrite He, lookup_insert_eq. eexists. split; [done|]. simpl. rewrite He in Hq0. congruence.
  - rewrite lookup_insert_ne by done. eauto.
Qed.

Lemma force_update_all_deposited ctx st :
  registry st -> deposited (ForceUpdateMaintenanceRecords ctx st) = deposited st /\
  sp_params (ForceUpdateMaintenanceRecords ctx st) = sp_params st.
Proof.
  intros Hreg. unfold ForceUpdateMaintenanceRecords.
  assert (Forall (same_deposit st) (GetAllStorageProviders st)) as Hall.
  { apply Forall_forall. intros p. unfold GetAllStorageProviders. rewrite list_elem_of_fmap.
    intros ([id q] & -> & Hq%elem_of_iterate). exists q. simpl.
    by rewrite (proj1 (reg_key _ Hreg _ _ Hq)). }
  clear Hreg. revert Hall. generalize (GetAllStorageProviders st) as l. intros l. revert st.
  induction l as [|p l IH]; intros st Hall; simpl; [done|].
  apply Forall_cons in Hall as [Hp Hl]. pose proof Hp as (q & Hq & Hd).
  destruct (force_update_deposited ctx (GetParams st) p st q Hq Hd) as [<- <-].
  apply IH. eapply Forall_impl; [exact Hl|]. intros p0 Hp0. by apply force_update_same_deposit.
Qed.

Lemma end_block_surplus ctx s u s' :
  on_store (EndBlocker ctx) s = (Ret u, s') -> registry (store s) -> sp_surplus s' = sp_surplus s.
Proof.
  intros (st & Hrun & ->)%on_store_Ret Hreg. unfold EndBlocker in Hrun.
  apply bind_Ret in Hrun as ([] & st1 & Hgc & Hrun).
  assert (deposited st1 = deposited (store s) /\ sp_params st1 = sp_params (store s)) as [Hd Hp].
  { destruct (_ =? 0); msteps Hgc; [by apply force_update_all_deposited|done]. }
  assert (but_global_prices st = but_global_prices st1) as Hsame.
  { mstep Hrun. destruct (need_price_update ctx st1); [|by msteps Hrun].
    apply bind_Ret in Hrun as (o & st2 & Hup & Hrun). msteps Hrun.
    by eapply (keeps_run _ _ _ _ _ (keeps_attempt _ _ (keeps_but_global_price ctx))). }
  destruct st, st1. unfold but_global_prices, with_global_prices in Hsame. simpl in *.
  injection Hsame. intros. subst. by apply surplus_same.
Qed.

(** No message, slash or end block moves the surplus. *)
Lemma sp_handle_surplus ctx m s u s' :
  sp_handle authority ctx m s = (Ret u, s') -> cur_id (store s) + 1 < two32 ->
  registry (store s) -> external s m -> sp_surplus s' = sp_surplus s.
Proof.
  destruct m; intros Hrun Hroom Hreg Hext; cbn [sp_handle] in Hrun.
  - by eapply create_surplus_sp.
  - by eapply edit_surplus.
  - by eapply deposit_surplus_sp.
  - unfold UpdateSpStoragePrice, MustAccAddressFromHex in Hrun. msteps Hrun. by apply surplus_same.
  - by eapply params_surplus.
  - by eapply status_surplus.
  - by eapply slash_surplus.
  - by eapply end_block_surplus.
Qed.
End Surplus.
