(* ===== verification/VirtualGroupTypes.v ===== *)
(** * x/virtualgroup: data model and the keepers it calls

    Global virtual groups, their families, the statistics kept per storage
    provider, the reservations of swaps and the module parameters
    ([x/virtualgroup/types]); the state of the module ([VgStore], one field
    per store prefix); and the interface of the payment keeper the module
    settles with ([PaymentKeeper], [PaymentLaws]).  A virtual payment address
    is stored as the text of a derived address; the model stores the
    address. *)

From S2P Require Import Prelude Sdk Bytes SpTypes SpKeeper.

(** ** Groups and families *)

Record GlobalVirtualGroup : Type := mkGvg {
  gvg_Id : Z;
  FamilyId : Z;
  PrimarySpId : Z;
  SecondarySpIds : list Z;
  StoredSize : Z;
  gvg_PaymentAddress : Addr;
  gvg_TotalDeposit : Z;
}.

Definition set_primary (v : Z) g := mkGvg (gvg_Id g) (FamilyId g) v (SecondarySpIds g)
  (StoredSize g) (gvg_PaymentAddress g) (gvg_TotalDeposit g).
Definition set_secondaries (v : list Z) g := mkGvg (gvg_Id g) (FamilyId g) (PrimarySpId g) v
  (StoredSize g) (gvg_PaymentAddress g) (gvg_TotalDeposit g).
Definition set_stored (v : Z) g := mkGvg (gvg_Id g) (FamilyId g) (PrimarySpId g)
  (SecondarySpIds g) v (gvg_PaymentAddress g) (gvg_TotalDeposit g).
Definition set_gvg_deposit (v : Z) g := mkGvg (gvg_Id g) (FamilyId g) (PrimarySpId g)
  (SecondarySpIds g) (StoredSize g) (gvg_PaymentAddress g) v.

Record GlobalVirtualGroupFamily : Type := mkFamily {
  fam_Id : Z;
  fam_PrimarySpId : Z;
  GlobalVirtualGroupIds : list Z;
  fam_PaymentAddress : Addr;
}.

Definition set_fam_primary (v : Z) f :=
  mkFamily (fam_Id f) v (GlobalVirtualGroupIds f) (fam_PaymentAddress f).
Definition set_fam_gvgs (v : list Z) f :=
  mkFamily (fam_Id f) (fam_PrimarySpId f) v (fam_PaymentAddress f).

(** [append(l[:i], l[i+1:]...)] at the first [i] with [l[i] == x]; [None]
    when there is none. *)
Fixpoint remove_first (x : Z) (l : list Z) : option (list Z) :=
  match l with
  | [] => None
  | y :: l' => if y =? x then Some l' else cons y <$> remove_first x l'
  end.

Definition AppendGVG (gvgID : Z) (f : GlobalVirtualGroupFamily) : GlobalVirtualGroupFamily :=
  set_fam_gvgs (GlobalVirtualGroupIds f ++ [gvgID]) f.
Definition Contains (gvgID : Z) (f : GlobalVirtualGroupFamily) : bool :=
  existsb (fun id => id =? gvgID) (GlobalVirtualGroupIds f).
Definition RemoveGVG (gvgID : Z) (f : GlobalVirtualGroupFamily)
    : option GlobalVirtualGroupFamily :=
  (fun l => set_fam_gvgs l f) <$> remove_first gvgID (GlobalVirtualGroupIds f).

(** ** Statistics of a provider *)

Record GVGStatisticsWithinSP : Type := mkStat {
  StorageProviderId : Z;
  PrimaryCount : Z;
  SecondaryCount : Z;
  BreakRedundancyReqmtGvgCount : Z;
}.

Definition new_stat (spID : Z) : GVGStatisticsWithinSP := mkStat spID 0 0 0.
Definition add_primary (d : Z) t := mkStat (StorageProviderId t) (u32 (PrimaryCount t + d))
  (SecondaryCount t) (BreakRedundancyReqmtGvgCount t).
Definition add_secondary (d : Z) t := mkStat (StorageProviderId t) (PrimaryCount t)
  (u32 (SecondaryCount t + d)) (BreakRedundancyReqmtGvgCount t).
Definition add_break (d : Z) t := mkStat (StorageProviderId t) (PrimaryCount t)
  (SecondaryCount t) (u32 (BreakRedundancyReqmtGvgCount t + d)).

Record GVGFamilyStatisticsWithinSP : Type := mkFamilyStat {
  fs_SpId : Z;
  GlobalVirtualGroupFamilyIds : list Z;
}.

(** ** Reservations *)

Record SwapOutInfo : Type := mkSwapOut { so_SpId : Z; so_SuccessorSpId : Z }.
Record SwapInInfo : Type := mkSwapIn {
  si_SuccessorSpId : Z; si_TargetSpId : Z; si_ExpirationTime : Z }.

Definition NoSpecifiedFamilyID : Z := 0.
Definition NoSpecifiedGVGId : Z := 0.

(** ** Parameters

    [None] is the nil pointer of the two parameters added later. *)

Record VgParams : Type := mkVgParams {
  vg_DepositDenom : string;
  GvgStakingPerBytes : option Z;
  MaxLocalVirtualGroupNumPerBucket : Z;
  MaxGlobalVirtualGroupNumPerFamily : Z;
  MaxStoreSizePerFamily : Z;
  SwapInValidityPeriod : option Z;
  SpConcurrentExitNum : option Z;
}.

Definition zero_vg_params : VgParams := mkVgParams EmptyString None 0 0 0 None None.

Definition NewVgParams (denom : string) (price maxGvg maxSize validity exits : Z) : VgParams :=
  mkVgParams denom (Some price) 0 maxGvg maxSize (Some validity) (Some exits).
Definition DefaultVgParams : VgParams :=
  NewVgParams "amoca" 16000 10 (64 * 1024 * 1024 * 1024 * 1024) (60 * 60 * 24 * 7) 1.

Definition validateGVGStakingPerBytes (v : option Z) : bool :=
  match v with None => false | Some p => 0 <? p end.
Definition validateMaxGlobalVirtualGroupNumPerFamily (v : Z) : bool := negb (v =? 0).
Definition validateMaxStoreSizePerFamily (v : Z) : bool := negb (v =? 0).
Definition validate_optional_positive (v : option Z) : bool :=
  match v with None => true | Some p => 0 <? p end.

Definition VgParams_Validate `{Denoms} (p : VgParams) : bool :=
  validateDepositDenom (vg_DepositDenom p) &&
  validateGVGStakingPerBytes (GvgStakingPerBytes p) &&
  validateMaxGlobalVirtualGroupNumPerFamily (MaxGlobalVirtualGroupNumPerFamily p) &&
  validateMaxStoreSizePerFamily (MaxStoreSizePerFamily p) &&
  validate_optional_positive (SwapInValidityPeriod p) &&
  validate_optional_positive (SpConcurrentExitNum p).

(** ** Errors *)

Inductive vg_error : Type :=
| ErrGVGFamilyNotExist
| ErrGVGNotExist
| ErrGVGNotEmpty
| ErrWithdrawAmountTooLarge
| ErrSwapOutFailed
| ErrSPCanNotExit
| ErrSettleFailed
| ErrWithdrawFailed
| ErrInvalidSecondarySPCount
| ErrLimitationExceed
| ErrDuplicateSecondarySP
| ErrInsufficientStaking
| ErrDuplicateGVG
| ErrSwapInFailed
| ErrVgInvalidDenom
| ErrVgInvalidSigner
| ErrVgInvalidParams
| ErrVgSignature           (* an approval that does not verify *)
| ErrSp (e : sp_error)     (* an error of x/sp *)
| ErrPayment               (* an error of the payment keeper *)
| ErrVgBank.               (* an error of the bank keeper *)

(** ** The keepers *)

(** The payment keeper with the bank below it, over a state [P].  A query of
    the dynamic balance may write: it updates the record it reads.  [time] is
    the block time. *)
Class PaymentKeeper (P : Type) : Type := {
  pk_GetBalance : P -> Addr -> string -> Z;
  pk_SendCoinsFromAccountToModule : P -> Addr -> string -> Coins -> option P;
  pk_SendCoinsFromModuleToAccount : P -> string -> Addr -> Coins -> option P;
  pk_SendCoins : P -> Addr -> Addr -> Coins -> option P;
  pk_FeeDenom : P -> string;
  pk_Error : Type;
  pk_QueryDynamicBalance : Z -> Addr -> M P pk_Error Z;
  pk_Withdraw : Z -> Addr -> Addr -> Z -> M P pk_Error unit;
  pk_IsEmptyNetFlow : Z -> Addr -> P -> bool;
}.

Definition PaymentModuleName : string := "payment".

(** What the module relies on: transfers move coins; a query touches only
    the balances of the account asked for and of the payment module; a
    withdrawal pays the amount in the fee coin. *)
Definition pk_moves {P} `{PaymentKeeper P} (p p' : P) (src dst : Addr) (cs : Coins) : Prop :=
  forall a d, pk_GetBalance p' a d =
    pk_GetBalance p a d - (if decide (a = src) then AmountOf d cs else 0)
                        + (if decide (a = dst) then AmountOf d cs else 0).

Class PaymentLaws (P : Type) `{PaymentKeeper P} `{Addresses} : Prop := {
  pk_send_a2m : forall p a m cs p', pk_SendCoinsFromAccountToModule p a m cs = Some p' ->
    pk_moves p p' a (ModuleAddress m) cs;
  pk_send_m2a : forall p m a cs p', pk_SendCoinsFromModuleToAccount p m a cs = Some p' ->
    pk_moves p p' (ModuleAddress m) a cs;
  pk_send_a2a : forall p a a' cs p', pk_SendCoins p a a' cs = Some p' -> pk_moves p p' a a' cs;
  pk_query_frame : forall t a p v p' b d, pk_QueryDynamicBalance t a p = (Ret v, p') ->
    b <> a -> b <> ModuleAddress PaymentModuleName ->
    pk_GetBalance p' b d = pk_GetBalance p b d;
  pk_query_denom : forall t a p v p', pk_QueryDynamicBalance t a p = (Ret v, p') ->
    pk_FeeDenom p' = pk_FeeDenom p;
  pk_withdraw_pays : forall t a to x p p' b d, pk_Withdraw t a to x p = (Ret tt, p') ->
    b <> a -> b <> ModuleAddress PaymentModuleName ->
    pk_GetBalance p' b d = pk_GetBalance p b d +
      (if decide (b = to /\ d = pk_FeeDenom p) then x else 0);
  pk_withdraw_denom : forall t a to x p p', pk_Withdraw t a to x p = (Ret tt, p') ->
    pk_FeeDenom p' = pk_FeeDenom p;
}.

(** Derived addresses ([address.Module] of the SDK) and the governance
    account of x/payment. *)
Class VgAddresses : Type := {
  address_Module : string -> list Z -> Addr;
  PaymentGovernanceAddress : Addr;
}.

(** ** Module state *)

Record VgStore : Type := mkVgStore {
  vg_params : option VgParams;
  gvgs : gmap Z GlobalVirtualGroup;
  families : gmap Z GlobalVirtualGroupFamily;
  gvg_stats : gmap Z GVGStatisticsWithinSP;
  family_stats : gmap Z GVGFamilyStatisticsWithinSP;
  swap_out_family : gmap Z SwapOutInfo;
  swap_out_gvg : gmap Z SwapOutInfo;
  swap_in_family : gmap Z SwapInInfo;
  swap_in_gvg : gmap Z SwapInInfo;
  gvgSequence : option (list Z);
  gvgFamilySequence : option (list Z);
}.

Definition empty_vg_store : VgStore := mkVgStore None ∅ ∅ ∅ ∅ ∅ ∅ ∅ ∅ None None.

(** The module's store with the stores of the keepers it calls. *)
Record World (P : Type) : Type := mkWorld { vg : VgStore; sps : SpStore; pay : P }.
Arguments mkWorld {P}.
Arguments vg {P}.
Arguments sps {P}.
Arguments pay {P}.

Section Setters.
Context {P : Type}.
Implicit Types w : World P.
Definition with_vg (f : VgStore -> VgStore) w := mkWorld (f (vg w)) (sps w) (pay w).
Definition with_sps (f : SpStore -> SpStore) w := mkWorld (vg w) (f (sps w)) (pay w).
Definition with_pay (p : P) w := mkWorld (vg w) (sps w) p.
End Setters.

Definition on_gvgs f s := mkVgStore (vg_params s) (f (gvgs s)) (families s) (gvg_stats s)
  (family_stats s) (swap_out_family s) (swap_out_gvg s) (swap_in_family s) (swap_in_gvg s)
  (gvgSequence s) (gvgFamilySequence s).
Definition on_families f s := mkVgStore (vg_params s) (gvgs s) (f (families s)) (gvg_stats s)
  (family_stats s) (swap_out_family s) (swap_out_gvg s) (swap_in_family s) (swap_in_gvg s)
  (gvgSequence s) (gvgFamilySequence s).
Definition on_gvg_stats f s := mkVgStore (vg_params s) (gvgs s) (families s) (f (gvg_stats s))
  (family_stats s) (swap_out_family s) (swap_out_gvg s) (swap_in_family s) (swap_in_gvg s)
  (gvgSequence s) (gvgFamilySequence s).
Definition on_family_stats f s := mkVgStore (vg_params s) (gvgs s) (families s) (gvg_stats s)
  (f (family_stats s)) (swap_out_family s) (swap_out_gvg s) (swap_in_family s) (swap_in_gvg s)
  (gvgSequence s) (gvgFamilySequence s).
Definition on_swap_out_family f s := mkVgStore (vg_params s) (gvgs s) (families s)
  (gvg_stats s) (family_stats s) (f (swap_out_family s)) (swap_out_gvg s) (swap_in_family s)
  (swap_in_gvg s) (gvgSequence s) (gvgFamilySequence s).
Definition on_swap_out_gvg f s := mkVgStore (vg_params s) (gvgs s) (families s)
  (gvg_stats s) (family_stats s) (swap_out_family s) (f (swap_out_gvg s)) (swap_in_family s)
  (swap_in_gvg s) (gvgSequence s) (gvgFamilySequence s).
Definition on_swap_in_family f s := mkVgStore (vg_params s) (gvgs s) (families s)
  (gvg_stats s) (family_stats s) (swap_out_family s) (swap_out_gvg s) (f (swap_in_family s))
  (swap_in_gvg s) (gvgSequence s) (gvgFamilySequence s).
Definition on_swap_in_gvg f s := mkVgStore (vg_params s) (gvgs s) (families s)
  (gvg_stats s) (family_stats s) (swap_out_family s) (swap_out_gvg s) (swap_in_family s)
  (f (swap_in_gvg s)) (gvgSequence s) (gvgFamilySequence s).
Definition set_vg_params p s := mkVgStore (Some p) (gvgs s) (families s) (gvg_stats s)
  (family_stats s) (swap_out_family s) (swap_out_gvg s) (swap_in_family s) (swap_in_gvg s)
  (gvgSequence s) (gvgFamilySequence s).
Definition set_gvgSequence v s := mkVgStore (vg_params s) (gvgs s) (families s) (gvg_stats s)
  (family_stats s) (swap_out_family s) (swap_out_gvg s) (swap_in_family s) (swap_in_gvg s)
  v (gvgFamilySequence s).
Definition set_gvgFamilySequence v s := mkVgStore (vg_params s) (gvgs s) (families s)
  (gvg_stats s) (family_stats s) (swap_out_family s) (swap_out_gvg s) (swap_in_family s)
  (swap_in_gvg s) (gvgSequence s) v.
