(* ===== verification/VirtualGroupKeeper.v ===== *)
(** * x/virtualgroup: the keeper

    [keeper/keeper.go], [keeper/payment.go] and [keeper/params.go] of
    x/virtualgroup: groups, families and statistics; settlement of the
    payments a group received; swapping a provider out of, or into, a group
    or a family.  The code reads statistics and groups into objects of their
    own and writes them back later; the model reads values at the same places
    and writes them in the same order. *)

From S2P Require Import Prelude Sdk Bytes SpTypes SpKeeper VirtualGroupTypes.

Definition GVGVirtualPaymentAccountName : string := "global_virtual_group".
Definition GVGFamilyName : string := "global_virtual_group_family".
Definition VgModuleName : string := "virtualgroup".

(** The bytes of a Go string. *)
Definition string_bytes (t : string) : list Z :=
  (fun c => Z.of_nat (Ascii.nat_of_ascii c)) <$> String.list_ascii_of_string t.

(** [binary.LittleEndian.PutUint32] *)
Definition little_endian4 (n : Z) : list Z :=
  (fun i => Z.land (Z.shiftr n (8 * Z.of_nat i)) 255) <$> seq 0 4.

Definition DeriveVirtualPaymentAccount `{VgAddresses} (groupType : string) (id : Z) : Addr :=
  address_Module VgModuleName (string_bytes groupType ++ little_endian4 id).

(** ** Reads *)

Definition GetParams (s : VgStore) : VgParams := default zero_vg_params (vg_params s).
Definition DepositDenomForGVG (s : VgStore) : string := vg_DepositDenom (GetParams s).

Definition GetGVG (gvgID : Z) (s : VgStore) : option GlobalVirtualGroup := gvgs s !! gvgID.
Definition GetGVGFamily (familyID : Z) (s : VgStore) : option GlobalVirtualGroupFamily :=
  families s !! familyID.
Definition GetGVGStatisticsWithinSP (spID : Z) (s : VgStore) : option GVGStatisticsWithinSP :=
  gvg_stats s !! spID.
Definition GetOrCreateGVGStatisticsWithinSP (spID : Z) (s : VgStore) : GVGStatisticsWithinSP :=
  default (new_stat spID) (GetGVGStatisticsWithinSP spID s).
Definition GetGVGFamilyStatisticsWithinSP (spID : Z) (s : VgStore)
    : option GVGFamilyStatisticsWithinSP := family_stats s !! spID.
Definition GetOrCreateGVGFamilyStatisticsWithinSP (spID : Z) (s : VgStore)
    : GVGFamilyStatisticsWithinSP :=
  default (mkFamilyStat spID []) (GetGVGFamilyStatisticsWithinSP spID s).

(** ** Writes *)

Definition SetGVG (g : GlobalVirtualGroup) (s : VgStore) : VgStore :=
  on_gvgs (insert (gvg_Id g) g) s.
Definition SetGVGFamily (f : GlobalVirtualGroupFamily) (s : VgStore) : VgStore :=
  on_families (insert (fam_Id f) f) s.
Definition SetGVGStatisticsWithSP (t : GVGStatisticsWithinSP) (s : VgStore) : VgStore :=
  on_gvg_stats (insert (StorageProviderId t) t) s.
Definition SetGVGFamilyStatisticsWithinSP (t : GVGFamilyStatisticsWithinSP) (s : VgStore)
    : VgStore := on_family_stats (insert (fs_SpId t) t) s.
Definition BatchSetGVGStatisticsWithinSP (l : list GVGStatisticsWithinSP) (s : VgStore)
    : VgStore := foldl (fun s t => SetGVGStatisticsWithSP t s) s l.

(** The families of every provider, rebuilt from the family store. *)
Definition MigrateGlobalVirtualGroupFamiliesForSP (s : VgStore) : VgStore :=
  foldl (fun s f =>
      let t := GetOrCreateGVGFamilyStatisticsWithinSP (fam_PrimarySpId f) s in
      SetGVGFamilyStatisticsWithinSP
        (mkFamilyStat (fs_SpId t) (GlobalVirtualGroupFamilyIds t ++ [fam_Id f])) s)
    s (iterate Z.leb (families s)).*2.

Section Keeper.
Context {P : Type} {HPay : PaymentKeeper P} {HAddr : Addresses} {HVg : VgAddresses}.
Abbreviation VM := (M (World P) vg_error).
Implicit Types (ctx : SpCtx) (w : World P).

Definition on_vg (f : VgStore -> VgStore) : VM unit := modify (with_vg f).
Definition on_pay {A} (c : M P pk_Error A) : VM A := zoom pay with_pay (fun _ => ErrPayment) c.

(** A bank transfer that returns its error. *)
Definition transfer (send : P -> option P) : VM unit :=
  let! w := get in
  let! p := or_fail (send (pay w)) ErrVgBank in
  modify (with_pay p).

Definition MustGetGVGStatisticsWithinSP (spID : Z) : VM GVGStatisticsWithinSP :=
  let! w := get in must (GetGVGStatisticsWithinSP spID (vg w)).
Definition MustGetGVGFamilyStatisticsWithinSP (spID : Z) : VM GVGFamilyStatisticsWithinSP :=
  let! w := get in must (GetGVGFamilyStatisticsWithinSP spID (vg w)).
Definition FindStorageProvider (id : Z) : VM StorageProvider :=
  let! w := get in or_fail (GetStorageProvider id (sps w)) (ErrSp ErrStorageProviderNotFound).
Definition GVGStakingPerBytes : VM Z :=
  let! w := get in must (VirtualGroupTypes.GvgStakingPerBytes (GetParams (vg w))).

(** [k.gvgSequence.NextVal(store)], [k.gvgFamilySequence.NextVal(store)] *)
Definition GenNextGVGID : VM Z :=
  let! w := get in
  let! x := must (NextVal Uint32 (gvgSequence (vg w))) in
  do! on_vg (set_gvgSequence (Some x.2)) ;;
  ret x.1.
Definition GenNextGVGFamilyID : VM Z :=
  let! w := get in
  let! x := must (NextVal Uint32 (gvgFamilySequence (vg w))) in
  do! on_vg (set_gvgFamilySequence (Some x.2)) ;;
  ret x.1.

(** ** Deleting a group *)

(** [gvgStatisticsWithinSP.SecondaryCount--] for every secondary provider. *)
Fixpoint leave_secondaries (l : list Z) : VM unit :=
  match l with
  | [] => ret tt
  | id :: rest =>
      let! t := MustGetGVGStatisticsWithinSP id in
      do! on_vg (SetGVGStatisticsWithSP (add_secondary (-1) t)) ;;
      leave_secondaries rest
  end.

Definition DeleteGVG ctx (primarySp : StorageProvider) (gvgID : Z) : VM unit :=
  let! w := get in
  let! gvg := or_fail (GetGVG gvgID (vg w)) ErrGVGNotExist in
  do! guard (negb (StoredSize gvg =? 0)) ErrGVGNotEmpty ;;
  do! guard (negb (pk_IsEmptyNetFlow (Unix (sp_BlockTime ctx)) (gvg_PaymentAddress gvg) (pay w)))
        ErrGVGNotEmpty ;;
  do! (if negb (gvg_TotalDeposit gvg =? 0) then
         let! coins := must (NewCoins (DepositDenomForGVG (vg w)) (gvg_TotalDeposit gvg)) in
         transfer (fun p => pk_SendCoinsFromModuleToAccount p VgModuleName
                              (FundingAddress primarySp) coins)
       else ret tt) ;;
  let! gvgFamily := must (GetGVGFamily (FamilyId gvg) (vg w)) in
  let! gvgFamily := must (RemoveGVG (gvg_Id gvg) gvgFamily) in
  let! stat := MustGetGVGStatisticsWithinSP (fam_PrimarySpId gvgFamily) in
  do! on_vg (SetGVGStatisticsWithSP (add_primary (-1) stat)) ;;
  do! leave_secondaries (SecondarySpIds gvg) ;;
  do! on_vg (on_gvgs (delete (gvg_Id gvg))) ;;
  on_vg (SetGVGFamily gvgFamily).

(** ** Families *)

Fixpoint store_sizes (ids : list Z) (s : VgStore) : option Z :=
  match ids with
  | [] => Some 0
  | id :: rest =>
      match GetGVG id s, store_sizes rest s with
      | Some g, Some total => Some (u64 (StoredSize g + total))
      | _, _ => None
      end
  end.

(** [None] is the panic on a missing group. *)
Definition GetStoreSizeOfFamily (f : GlobalVirtualGroupFamily) (s : VgStore) : option Z :=
  store_sizes (GlobalVirtualGroupIds f) s.

Definition GetAndCheckGVGFamilyAvailableForNewBucket (familyID : Z)
    : VM GlobalVirtualGroupFamily :=
  let! w := get in
  let! gvgFamily := or_fail (GetGVGFamily familyID (vg w)) ErrGVGFamilyNotExist in
  let! storeSize := must (GetStoreSizeOfFamily gvgFamily (vg w)) in
  do! guard (MaxStoreSizePerFamily (GetParams (vg w)) <=? storeSize) ErrLimitationExceed ;;
  ret gvgFamily.

Definition GetOrCreateEmptyGVGFamily (familyID primarySPID : Z) : VM GlobalVirtualGroupFamily :=
  if familyID =? NoSpecifiedFamilyID then
    let! id := GenNextGVGFamilyID in
    let! w := get in
    let t := GetOrCreateGVGFamilyStatisticsWithinSP primarySPID (vg w) in
    do! on_vg (SetGVGFamilyStatisticsWithinSP
          (mkFamilyStat (fs_SpId t) (GlobalVirtualGroupFamilyIds t ++ [id]))) ;;
    ret (mkFamily id primarySPID [] (DeriveVirtualPaymentAccount GVGFamilyName id))
  else
    let! w := get in
    or_fail (GetGVGFamily familyID (vg w)) ErrGVGFamilyNotExist.

Definition DeleteSpecificGVGFamilyStatisticsFromSP (spID familyID : Z) : VM unit :=
  let! t := MustGetGVGFamilyStatisticsWithinSP spID in
  match remove_first familyID (GlobalVirtualGroupFamilyIds t) with
  | None => ret tt
  | Some l => on_vg (SetGVGFamilyStatisticsWithinSP (mkFamilyStat (fs_SpId t) l))
  end.

(** ** Staking *)

Definition GetAvailableStakingTokens (gvg : GlobalVirtualGroup) : VM Z :=
  let! stakingPrice := GVGStakingPerBytes in
  ret (gvg_TotalDeposit gvg - stakingPrice * i64 (StoredSize gvg)).

Definition MaxUint64 : Z := two64 - 1.

Definition GetTotalStakingStoreSize (gvg : GlobalVirtualGroup) : VM Z :=
  let! price := GVGStakingPerBytes in
  if price =? 0 then panic
  else
    let total := Z.quot (gvg_TotalDeposit gvg) price in
    ret (if is_u64 total then total else MaxUint64).

Definition GetGlobalVirtualGroupIfAvailable (gvgID expectedStoreSize : Z)
    : VM GlobalVirtualGroup :=
  let! w := get in
  let! gvg := or_fail (GetGVG gvgID (vg w)) ErrGVGNotExist in
  let! size := GetTotalStakingStoreSize gvg in
  do! guard (size <? u64 (StoredSize gvg + expectedStoreSize)) ErrInsufficientStaking ;;
  ret gvg.

Fixpoint staking_and_stored (ids : list Z) : VM (Z * Z) :=
  match ids with
  | [] => ret (0, 0)
  | id :: rest =>
      let! w := get in
      let! gvg := or_fail (GetGVG id (vg w)) ErrGVGNotExist in
      let! size := GetTotalStakingStoreSize gvg in
      let! x := staking_and_stored rest in
      ret (u64 (size + x.1), u64 (StoredSize gvg + x.2))
  end.

Definition GetGlobalVirtualFamilyTotalStakingAndStoredSize (f : GlobalVirtualGroupFamily)
    : VM (Z * Z) := staking_and_stored (GlobalVirtualGroupIds f).

(** ** Settlement *)

Definition SettleAndDistributeGVGFamily ctx (sp : StorageProvider)
    (family : GlobalVirtualGroupFamily) : VM unit :=
  let now := Unix (sp_BlockTime ctx) in
  let paymentAddress := fam_PaymentAddress family in
  let! totalBalance := on_pay (pk_QueryDynamicBalance now paymentAddress) in
  if negb (0 <? totalBalance) then ret tt
  else on_pay (pk_Withdraw now paymentAddress (FundingAddress sp) totalBalance).

(** Pays [amount] to each of the providers. *)
Fixpoint pay_secondaries ctx (paymentAddress : Addr) (amount : Z) (ids : list Z) : VM unit :=
  match ids with
  | [] => ret tt
  | spID :: rest =>
      let! sp := FindStorageProvider spID in
      do! on_pay (pk_Withdraw (Unix (sp_BlockTime ctx)) paymentAddress (FundingAddress sp)
                    amount) ;;
      pay_secondaries ctx paymentAddress amount rest
  end.

Definition SettleAndDistributeGVG ctx (gvg : GlobalVirtualGroup) : VM unit :=
  let paymentAddress := gvg_PaymentAddress gvg in
  let! totalBalance := on_pay (pk_QueryDynamicBalance (Unix (sp_BlockTime ctx)) paymentAddress) in
  match SecondarySpIds gvg with
  | [] => panic
  | ids =>
      let amount := Z.quot totalBalance (Z.of_nat (length ids)) in
      if negb (0 <? amount) then ret tt
      else pay_secondaries ctx paymentAddress amount ids
  end.

(** ** Swapping the primary provider of a family *)

(** One pass over the groups of the family: each deposit is paid by the
    successor to the old primary. *)
Fixpoint swap_primaries (primarySP successorSP : StorageProvider) (swapIn : bool)
    (ids : list Z) (srcStat dstStat : GVGStatisticsWithinSP)
    : VM (list GlobalVirtualGroup * GVGStatisticsWithinSP * GVGStatisticsWithinSP) :=
  match ids with
  | [] => ret ([], srcStat, dstStat)
  | gvgID :: rest =>
      let! w := get in
      let! gvg := or_fail (GetGVG gvgID (vg w)) ErrGVGNotExist in
      do! guard (negb (PrimarySpId gvg =? sp_Id primarySP))
            (if swapIn then ErrSwapInFailed else ErrSwapOutFailed) ;;
      let serves := existsb (fun id => id =? sp_Id successorSP) (SecondarySpIds gvg) in
      do! guard (serves && negb swapIn) ErrSwapOutFailed ;;
      let dstStat := if serves then add_break 1 dstStat else dstStat in
      do! (if negb (gvg_TotalDeposit gvg =? 0) then
             let! coins := must (NewCoins (DepositDenomForGVG (vg w)) (gvg_TotalDeposit gvg)) in
             transfer (fun p => pk_SendCoins p (FundingAddress successorSP)
                                  (FundingAddress primarySP) coins)
           else ret tt) ;;
      let! x := swap_primaries primarySP successorSP swapIn rest
                  (add_primary (-1) srcStat) (add_primary 1 dstStat) in
      let '(l, src, dst) := x in
      ret (set_primary (sp_Id successorSP) gvg :: l, src, dst)
  end.

Definition SwapAsPrimarySP ctx (primarySP successorSP : StorageProvider) (familyID : Z)
    (swapIn : bool) : VM unit :=
  let! w := get in
  let! family := or_fail (GetGVGFamily familyID (vg w)) ErrGVGFamilyNotExist in
  do! guard (negb (fam_PrimarySpId family =? sp_Id primarySP)) ErrSwapOutFailed ;;
  let! srcStat := MustGetGVGStatisticsWithinSP (sp_Id primarySP) in
  let dstStat := GetOrCreateGVGStatisticsWithinSP (sp_Id successorSP) (vg w) in
  let! srcVGFStat := MustGetGVGFamilyStatisticsWithinSP (sp_Id primarySP) in
  let dstVGFStat := GetOrCreateGVGFamilyStatisticsWithinSP (sp_Id successorSP) (vg w) in
  let! x := swap_primaries primarySP successorSP swapIn (GlobalVirtualGroupIds family)
              srcStat dstStat in
  let '(swapped, srcStat, dstStat) := x in
  let family := set_fam_primary (sp_Id successorSP) family in
  do! on_err (SettleAndDistributeGVGFamily ctx primarySP family)
        (fun _ => fail (if swapIn then ErrSwapInFailed else ErrSwapOutFailed)) ;;
  do! on_vg (SetGVGFamily family) ;;
  do! on_vg (fun s => foldl (fun s g => SetGVG g s) s swapped) ;;
  do! on_vg (SetGVGStatisticsWithSP srcStat) ;;
  do! on_vg (SetGVGStatisticsWithSP dstStat) ;;
  do! DeleteSpecificGVGFamilyStatisticsFromSP (fs_SpId srcVGFStat) (fam_Id family) ;;
  on_vg (SetGVGFamilyStatisticsWithinSP
    (mkFamilyStat (fs_SpId dstVGFStat)
       (GlobalVirtualGroupFamilyIds dstVGFStat ++ [fam_Id family]))).

(** ** Swapping a secondary provider of a group *)

(** The last index of [x], as the loops leave it in their variable. *)
Fixpoint last_index (x : Z) (l : list Z) : option nat :=
  match l with
  | [] => None
  | y :: l' =>
      match last_index x l' with
      | Some i => Some (S i)
      | None => if y =? x then Some O else None
      end
  end.

Definition SwapOutAsSecondarySP ctx (secondarySP successorSP : StorageProvider) (gvgID : Z)
    : VM unit :=
  let! w := get in
  let! gvg := or_fail (GetGVG gvgID (vg w)) ErrGVGNotExist in
  do! guard (PrimarySpId gvg =? sp_Id successorSP) ErrSwapOutFailed ;;
  do! guard (existsb (fun id => id =? sp_Id successorSP) (SecondarySpIds gvg)) ErrSwapOutFailed ;;
  let! i := or_fail (last_index (sp_Id secondarySP) (SecondarySpIds gvg)) ErrSwapOutFailed in
  do! on_err (SettleAndDistributeGVG ctx gvg) (fun _ => fail ErrSwapOutFailed) ;;
  let gvg := set_secondaries (<[i := sp_Id successorSP]> (SecondarySpIds gvg)) gvg in
  let! origin := MustGetGVGStatisticsWithinSP (sp_Id secondarySP) in
  let! w := get in
  let successor := GetOrCreateGVGStatisticsWithinSP (sp_Id successorSP) (vg w) in
  do! on_vg (SetGVGStatisticsWithSP (add_secondary (-1) origin)) ;;
  do! on_vg (SetGVGStatisticsWithSP (add_secondary 1 successor)) ;;
  on_vg (SetGVG gvg).

Definition completeSwapInGVG ctx (successorSPID targetSecondarySPID gvgID : Z) : VM unit :=
  let! w := get in
  let! gvg := or_fail (GetGVG gvgID (vg w)) ErrGVGNotExist in
  do! guard (successorSPID =? PrimarySpId gvg) ErrSwapInFailed ;;
  do! on_err (SettleAndDistributeGVG ctx gvg) (fun _ => fail ErrSwapInFailed) ;;
  let! i := must (last_index targetSecondarySPID (SecondarySpIds gvg)) in
  let gvg := set_secondaries (<[i := successorSPID]> (SecondarySpIds gvg)) gvg in
  let! origin := MustGetGVGStatisticsWithinSP targetSecondarySPID in
  let! w := get in
  let successor := GetOrCreateGVGStatisticsWithinSP successorSPID (vg w) in
  let origin := if targetSecondarySPID =? PrimarySpId gvg then add_break (-1) origin
                else origin in
  do! on_vg (SetGVGStatisticsWithSP (add_secondary (-1) origin)) ;;
  do! on_vg (SetGVGStatisticsWithSP (add_secondary 1 successor)) ;;
  on_vg (SetGVG gvg).

(** ** Reservations of swap outs *)

Fixpoint reserve_gvgs (ids : list Z) (info : SwapOutInfo) : VM unit :=
  match ids with
  | [] => ret tt
  | id :: rest =>
      let! w := get in
      do! guard (bool_decide (is_Some (swap_out_gvg (vg w) !! id))) ErrSwapOutFailed ;;
      do! on_vg (on_swap_out_gvg (insert id info)) ;;
      reserve_gvgs rest info
  end.

Definition SetSwapOutInfo (familyID : Z) (gvgIDs : list Z) (spID successorSPID : Z) : VM unit :=
  let info := mkSwapOut spID successorSPID in
  if negb (familyID =? NoSpecifiedFamilyID) then
    let! w := get in
    do! guard (bool_decide (is_Some (swap_out_family (vg w) !! familyID))) ErrSwapOutFailed ;;
    on_vg (on_swap_out_family (insert familyID info))
  else reserve_gvgs gvgIDs info.

(** An absent reservation decodes to the zero value. *)
Definition reserved_by (o : option SwapOutInfo) : Z := default 0 (so_SpId <$> o).

Fixpoint cancel_gvgs (ids : list Z) (spID : Z) : VM unit :=
  match ids with
  | [] => ret tt
  | id :: rest =>
      let! w := get in
      do! guard (negb (reserved_by (swap_out_gvg (vg w) !! id) =? spID))
            (ErrSp ErrStorageProviderNotFound) ;;
      do! on_vg (on_swap_out_gvg (delete id)) ;;
      cancel_gvgs rest spID
  end.

Definition DeleteSwapOutInfo (familyID : Z) (gvgIDs : list Z) (spID : Z) : VM unit :=
  if negb (familyID =? NoSpecifiedFamilyID) then
    let! w := get in
    do! guard (negb (reserved_by (swap_out_family (vg w) !! familyID) =? spID))
          (ErrSp ErrStorageProviderNotFound) ;;
    on_vg (on_swap_out_family (delete familyID))
  else cancel_gvgs gvgIDs spID.

Fixpoint complete_gvgs ctx (ids : list Z) (successorSP : StorageProvider) : VM unit :=
  match ids with
  | [] => ret tt
  | id :: rest =>
      let! w := get in
      let! info := or_fail (swap_out_gvg (vg w) !! id) ErrSwapOutFailed in
      do! guard (negb (so_SuccessorSpId info =? sp_Id successorSP)) ErrSwapOutFailed ;;
      let! sp := FindStorageProvider (so_SpId info) in
      do! SwapOutAsSecondarySP ctx sp successorSP id ;;
      do! on_vg (on_swap_out_gvg (delete id)) ;;
      complete_gvgs ctx rest successorSP
  end.

Definition Keeper_CompleteSwapOut ctx (familyID : Z) (gvgIDs : list Z)
    (successorSP : StorageProvider) : VM unit :=
  if negb (familyID =? NoSpecifiedFamilyID) then
    let! w := get in
    let! info := or_fail (swap_out_family (vg w) !! familyID) ErrSwapOutFailed in
    do! guard (negb (so_SuccessorSpId info =? sp_Id successorSP)) ErrSwapOutFailed ;;
    let! sp := FindStorageProvider (so_SpId info) in
    do! SwapAsPrimarySP ctx sp successorSP familyID false ;;
    on_vg (on_swap_out_family (delete familyID))
  else complete_gvgs ctx gvgIDs successorSP.

(** ** Reservations of swap ins *)

(** [setSwapInInfo]: the new reservation, given the one at the key. *)
Definition setSwapInInfo ctx (cur : option SwapInInfo) (successorSPID targetSPID expirationTime : Z)
    : outcome vg_error SwapInInfo :=
  let info := mkSwapIn successorSPID targetSPID (u64 expirationTime) in
  match cur with
  | None => Ret info
  | Some c =>
      if u64 (Unix (sp_BlockTime ctx)) <? si_ExpirationTime c then Err ErrSwapInFailed
      else if si_SuccessorSpId c =? successorSPID then Err ErrSwapInFailed
      else Ret info
  end.

Definition reserve_family ctx (familyID successorSPID targetSPID expirationTime : Z) : VM unit :=
  let! w := get in
  match setSwapInInfo ctx (swap_in_family (vg w) !! familyID) successorSPID targetSPID
          expirationTime with
  | Ret info => on_vg (on_swap_in_family (insert familyID info))
  | _ => fail ErrSwapInFailed
  end.

Definition reserve_gvg ctx (gvgID successorSPID targetSPID expirationTime : Z) : VM unit :=
  let! w := get in
  match setSwapInInfo ctx (swap_in_gvg (vg w) !! gvgID) successorSPID targetSPID
          expirationTime with
  | Ret info => on_vg (on_swap_in_gvg (insert gvgID info))
  | _ => fail ErrSwapInFailed
  end.

Definition SwapIn ctx (familyID gvgID successorSPID : Z) (targetSP : StorageProvider)
    (expirationTime : Z) : VM unit :=
  let! w := get in
  if negb (familyID =? NoSpecifiedFamilyID) then
    do! guard (negb (is_exiting targetSP)) (ErrSp ErrStorageProviderWrongStatus) ;;
    let! family := or_fail (GetGVGFamily familyID (vg w)) ErrGVGFamilyNotExist in
    do! guard (negb (fam_PrimarySpId family =? sp_Id targetSP)) ErrSwapInFailed ;;
    reserve_family ctx familyID successorSPID (sp_Id targetSP) expirationTime
  else
    let! gvg := or_fail (GetGVG gvgID (vg w)) ErrGVGNotExist in
    do! guard (PrimarySpId gvg =? successorSPID) ErrSwapInFailed ;;
    do! guard (existsb (fun id => id =? successorSPID) (SecondarySpIds gvg)) ErrSwapInFailed ;;
    do! guard (negb (existsb (fun id => id =? sp_Id targetSP) (SecondarySpIds gvg)))
          ErrSwapInFailed ;;
    if is_exiting targetSP then
      reserve_gvg ctx gvgID successorSPID (sp_Id targetSP) expirationTime
    else
      do! guard (negb (existsb (fun id => id =? PrimarySpId gvg) (SecondarySpIds gvg)))
            ErrSwapInFailed ;;
      reserve_gvg ctx gvgID successorSPID (sp_Id targetSP) expirationTime.

Definition DeleteSwapInInfo (familyID gvgID successorSPID : Z) : VM unit :=
  let! w := get in
  let family := negb (familyID =? NoSpecifiedFamilyID) in
  let! info := or_fail (if family then swap_in_family (vg w) !! familyID
                        else swap_in_gvg (vg w) !! gvgID) ErrSwapInFailed in
  do! guard (negb (si_SuccessorSpId info =? successorSPID)) (ErrSp ErrStorageProviderNotFound) ;;
  on_vg (if family then on_swap_in_family (delete familyID) else on_swap_in_gvg (delete gvgID)).

Definition Keeper_CompleteSwapIn ctx (familyID gvgID : Z) (successorSP : StorageProvider)
    : VM unit :=
  let! w := get in
  if negb (familyID =? NoSpecifiedFamilyID) then
    let! info := or_fail (swap_in_family (vg w) !! familyID) ErrSwapInFailed in
    do! guard (negb (sp_Id successorSP =? si_SuccessorSpId info)) ErrSwapInFailed ;;
    let! targetPrimarySP := FindStorageProvider (si_TargetSpId info) in
    do! SwapAsPrimarySP ctx targetPrimarySP successorSP familyID true ;;
    on_vg (on_swap_in_family (delete familyID))
  else
    let! info := or_fail (swap_in_gvg (vg w) !! gvgID) ErrSwapInFailed in
    do! guard (negb (sp_Id successorSP =? si_SuccessorSpId info)) ErrSwapInFailed ;;
    let! targetSecondarySP := FindStorageProvider (si_TargetSpId info) in
    do! completeSwapInGVG ctx (sp_Id successorSP) (sp_Id targetSecondarySP) gvgID ;;
    on_vg (on_swap_in_gvg (delete gvgID)).

(** ** Exit *)

Definition StorageProviderExitable (spID : Z) (s : VgStore) : bool :=
  match GetGVGStatisticsWithinSP spID s with
  | None => true
  | Some stat => (PrimaryCount stat =? 0) && (SecondaryCount stat =? 0)
  end.

End Keeper.
