(* ===== verification/VirtualGroupMsg.v ===== *)
(** * x/virtualgroup: messages

    The message server of [keeper/msg_server.go] with the stateless checks of
    [types/message*.go], the genesis check and the parameter migration.
    Addresses of a message are text, parsed by the SDK. *)

From S2P Require Import Prelude Sdk Bytes SpTypes SpKeeper SpMsg VirtualGroupTypes.
From S2P Require Import VirtualGroupKeeper.

Record MsgCreateGlobalVirtualGroup : Type := mkMsgCreateGvg {
  cg_StorageProvider : string; cg_FamilyId : Z; cg_SecondarySpIds : list Z;
  cg_Deposit : string * Z }.
Record MsgVgDeposit : Type := mkMsgVgDeposit {
  vd_StorageProvider : string; vd_GvgId : Z; vd_Deposit : string * Z }.
Record MsgVgWithdraw : Type := mkMsgVgWithdraw {
  vw_StorageProvider : string; vw_GvgId : Z; vw_Withdraw : string * Z }.
(** [ms_Approved]: the approval of the successor is present. *)
Record MsgSwapOut : Type := mkMsgSwapOut {
  ms_StorageProvider : string; ms_FamilyId : Z; ms_GvgIds : list Z; ms_SuccessorSpId : Z;
  ms_Approval : option (list Z) }.
Record MsgSettle : Type := mkMsgSettle {
  st_StorageProvider : string; st_FamilyId : Z; st_GvgIds : list Z }.

Section Validate.
Context {HAddr : Addresses} {HDenoms : Denoms}.

Definition CreateGvg_ValidateBasic (msg : MsgCreateGlobalVirtualGroup) : bool :=
  is_address (cg_StorageProvider msg) && valid_deposit (cg_Deposit msg).
Definition VgDeposit_ValidateBasic (msg : MsgVgDeposit) : bool :=
  is_address (vd_StorageProvider msg) && valid_deposit (vd_Deposit msg).
Definition VgWithdraw_ValidateBasic (msg : MsgVgWithdraw) : bool :=
  is_address (vw_StorageProvider msg) && valid_deposit (vw_Withdraw msg).

(** Either a family or groups. *)
Definition family_or_groups (familyID : Z) (gvgIDs : list Z) : bool :=
  if familyID =? NoSpecifiedFamilyID then negb (bool_decide (gvgIDs = []))
  else bool_decide (gvgIDs = []).
Definition SwapOut_ValidateBasic (msg : MsgSwapOut) : bool :=
  is_address (ms_StorageProvider msg) && family_or_groups (ms_FamilyId msg) (ms_GvgIds msg) &&
  negb (ms_SuccessorSpId msg =? 0) && bool_decide (is_Some (ms_Approval msg)).
Definition Settle_ValidateBasic (msg : MsgSettle) : bool :=
  is_address (st_StorageProvider msg) &&
  (if st_FamilyId msg =? NoSpecifiedFamilyID then
     negb (bool_decide (st_GvgIds msg = [])) && (Z.of_nat (length (st_GvgIds msg)) <=? 10)
   else true).

(** Either a family or one group. *)
Definition family_or_group (familyID gvgID : Z) : bool :=
  if familyID =? NoSpecifiedFamilyID then negb (gvgID =? NoSpecifiedGVGId)
  else gvgID =? NoSpecifiedGVGId.
Definition ReserveSwapIn_ValidateBasic (storageProvider : string) (targetSpId familyID gvgID : Z)
    : bool :=
  is_address storageProvider && family_or_group familyID gvgID && negb (targetSpId =? 0).
Definition SwapInInfo_ValidateBasic (storageProvider : string) (familyID gvgID : Z) : bool :=
  is_address storageProvider && family_or_group familyID gvgID.
End Validate.

Section Msg.
Context {P : Type} {HPay : PaymentKeeper P} {HAddr : Addresses} {HVg : VgAddresses}
  {HDenoms : Denoms}.
Abbreviation VM := (M (World P) vg_error).
Implicit Types (ctx : SpCtx) (w : World P).

Definition MustAccAddressFromHex (text : string) : VM Addr := must (AccAddressFromHexUnsafe text).

(** The provider with an operator address; for deposits also one with a
    funding address. *)
Definition operator_sp (text : string) : VM StorageProvider :=
  let! addr := MustAccAddressFromHex text in
  let! w := get in
  or_fail (GetStorageProviderByOperatorAddr addr (sps w)) (ErrSp ErrStorageProviderNotFound).
Definition operator_or_funding_sp (text : string) : VM StorageProvider :=
  let! addr := MustAccAddressFromHex text in
  let! w := get in
  match GetStorageProviderByOperatorAddr addr (sps w) with
  | Some sp => ret sp
  | None => or_fail (GetStorageProviderByFundingAddr addr (sps w))
              (ErrSp ErrStorageProviderNotFound)
  end.

(** ** Parameters *)

Definition SetParams (p : VgParams) : VM unit :=
  do! guard (negb (VgParams_Validate p)) ErrVgInvalidParams ;;
  on_vg (set_vg_params p).

Definition VgUpdateParams (authority signer : string) (p : VgParams) : VM unit :=
  do! guard (negb (bool_decide (authority = signer))) ErrVgInvalidSigner ;;
  let! w := get in
  let origin := GetParams (vg w) in
  let! price := must (GvgStakingPerBytes p) in
  let! originPrice := must (GvgStakingPerBytes origin) in
  do! guard (negb (price =? originPrice) ||
             negb (bool_decide (vg_DepositDenom p = vg_DepositDenom origin)))
        ErrVgInvalidParams ;;
  SetParams p.

(** [v2.MigrateStore] *)
Definition VgMigrateStore (s : VgStore) : VgStore :=
  let old := GetParams s in
  set_vg_params (mkVgParams (vg_DepositDenom old) (GvgStakingPerBytes old) 0
    (MaxGlobalVirtualGroupNumPerFamily old) (MaxStoreSizePerFamily old)
    (SwapInValidityPeriod DefaultVgParams) (SpConcurrentExitNum DefaultVgParams)) s.

(** ** Creating a group *)

(** The ids of the secondary providers with their statistics, each read from
    the store. *)
Fixpoint join_secondaries (ids : list Z) : VM (list Z * list GVGStatisticsWithinSP) :=
  match ids with
  | [] => ret ([], [])
  | id :: rest =>
      let! ssp := FindStorageProvider id in
      do! guard (negb (IsInService ssp) && negb (IsInMaintenance ssp))
            (ErrSp ErrStorageProviderNotInService) ;;
      let! w := get in
      let t := add_secondary 1 (GetOrCreateGVGStatisticsWithinSP (sp_Id ssp) (vg w)) in
      let! x := join_secondaries rest in
      ret (sp_Id ssp :: x.1, t :: x.2)
  end.

(** A group with the same providers in the same order is refused; a longer
    one that agrees so far is an index out of range. *)
Fixpoint same_secondaries (existing new : list Z) : outcome vg_error unit :=
  match existing, new with
  | [], _ => Ret tt
  | _ :: _, [] => Panic
  | a :: existing', b :: new' =>
      if negb (a =? b) then Ret tt
      else match new' with [] => Err ErrDuplicateGVG | _ => same_secondaries existing' new' end
  end.

Fixpoint check_duplicates (gvgIDs new : list Z) : VM unit :=
  match gvgIDs with
  | [] => ret tt
  | id :: rest =>
      let! w := get in
      let! gvg := or_fail (GetGVG id (vg w)) ErrGVGNotExist in
      do! (fun w => (same_secondaries (SecondarySpIds gvg) new, w)) ;;
      check_duplicates rest new
  end.

Definition CreateGlobalVirtualGroup (expectSecondarySPNum : Z)
    (req : MsgCreateGlobalVirtualGroup) : VM unit :=
  do! guard (negb (Z.of_nat (length (cg_SecondarySpIds req)) =? expectSecondarySPNum))
        ErrInvalidSecondarySPCount ;;
  do! guard (negb (bool_decide (NoDup (cg_SecondarySpIds req)))) ErrDuplicateSecondarySP ;;
  let! sp := operator_sp (cg_StorageProvider req) in
  do! guard (negb (IsInService sp) && negb (IsInMaintenance sp))
        (ErrSp ErrStorageProviderNotInService) ;;
  let! w := get in
  let stat := add_primary 1 (GetOrCreateGVGStatisticsWithinSP (sp_Id sp) (vg w)) in
  let! x := join_secondaries (cg_SecondarySpIds req) in
  let '(secondaryIDs, stats) := x in
  let! gvgFamily := GetOrCreateEmptyGVGFamily (cg_FamilyId req) (sp_Id sp) in
  do! check_duplicates (GlobalVirtualGroupIds gvgFamily) secondaryIDs ;;
  do! guard (MaxGlobalVirtualGroupNumPerFamily (GetParams (vg w)) <?
             u32 (Z.of_nat (length (GlobalVirtualGroupIds gvgFamily)))) ErrLimitationExceed ;;
  let amount := (cg_Deposit req).2 in
  let! coins := must (NewCoins (DepositDenomForGVG (vg w)) amount) in
  do! transfer (fun p => pk_SendCoinsFromAccountToModule p (FundingAddress sp) VgModuleName
                           coins) ;;
  let! gvgID := GenNextGVGID in
  let gvg := mkGvg gvgID (fam_Id gvgFamily) (sp_Id sp) secondaryIDs 0
               (DeriveVirtualPaymentAccount GVGVirtualPaymentAccountName gvgID) amount in
  do! on_vg (SetGVG gvg) ;;
  do! on_vg (SetGVGFamily (AppendGVG gvgID gvgFamily)) ;;
  on_vg (BatchSetGVGStatisticsWithinSP (stat :: stats)).

Definition DeleteGlobalVirtualGroup ctx (storageProvider : string) (gvgID : Z) : VM unit :=
  let! sp := operator_sp storageProvider in
  DeleteGVG ctx sp gvgID.

(** ** Deposits *)

Definition VgDeposit (req : MsgVgDeposit) : VM unit :=
  let! sp := operator_or_funding_sp (vd_StorageProvider req) in
  let! w := get in
  let! gvg := or_fail (GetGVG (vd_GvgId req) (vg w)) ErrGVGNotExist in
  let '(denom, amount) := vd_Deposit req in
  do! guard (negb (bool_decide (DepositDenomForGVG (vg w) = denom))) ErrVgInvalidDenom ;;
  let! coins := must (NewCoins denom amount) in
  do! transfer (fun p => pk_SendCoinsFromAccountToModule p (FundingAddress sp) VgModuleName
                           coins) ;;
  on_vg (SetGVG (set_gvg_deposit (gvg_TotalDeposit gvg + amount) gvg)).

Definition VgWithdraw (req : MsgVgWithdraw) : VM unit :=
  let! sp := operator_or_funding_sp (vw_StorageProvider req) in
  let! w := get in
  let! gvg := or_fail (GetGVG (vw_GvgId req) (vg w)) ErrGVGNotExist in
  do! guard (negb (PrimarySpId gvg =? sp_Id sp)) ErrWithdrawFailed ;;
  let '(denom, amount) := vw_Withdraw req in
  do! guard (negb (bool_decide (denom = DepositDenomForGVG (vg w)))) ErrVgInvalidDenom ;;
  let! availableTokens := GetAvailableStakingTokens gvg in
  if availableTokens <? 0 then panic
  else
    let! withdrawTokens :=
      (if amount =? 0 then ret availableTokens
       else
         do! guard (availableTokens <? amount) ErrWithdrawAmountTooLarge ;;
         ret amount) in
    let! coins := must (NewCoins (DepositDenomForGVG (vg w)) withdrawTokens) in
    do! transfer (fun p => pk_SendCoinsFromModuleToAccount p VgModuleName (FundingAddress sp)
                             coins) ;;
    on_vg (SetGVG (set_gvg_deposit (gvg_TotalDeposit gvg - withdrawTokens) gvg)).

(** ** Swapping out *)

(** [VerifySignature] checks the approval of a message by an address. *)
Definition SwapOut (VerifySignature : Addr -> MsgSwapOut -> bool) (msg : MsgSwapOut) : VM unit :=
  let! sp := operator_sp (ms_StorageProvider msg) in
  let! successorSP := FindStorageProvider (ms_SuccessorSpId msg) in
  do! guard (negb (IsInService successorSP)) (ErrSp ErrStorageProviderNotInService) ;;
  do! guard (negb (VerifySignature (ApprovalAddress successorSP) msg)) ErrVgSignature ;;
  SetSwapOutInfo (ms_FamilyId msg) (ms_GvgIds msg) (sp_Id sp) (sp_Id successorSP).

Definition CancelSwapOut (storageProvider : string) (familyID : Z) (gvgIDs : list Z) : VM unit :=
  let! sp := operator_sp storageProvider in
  DeleteSwapOutInfo familyID gvgIDs (sp_Id sp).

Definition CompleteSwapOut ctx (storageProvider : string) (familyID : Z) (gvgIDs : list Z)
    : VM unit :=
  let! sp := operator_sp storageProvider in
  Keeper_CompleteSwapOut ctx familyID gvgIDs sp.

(** ** Settling

    The groups are visited in the iteration order of a Go map, [order]. *)

Fixpoint settle_gvgs ctx (order : list Z) : VM unit :=
  match order with
  | [] => ret tt
  | gvgID :: rest =>
      let! w := get in
      let! gvg := or_fail (GetGVG gvgID (vg w)) ErrGVGNotExist in
      do! on_err (SettleAndDistributeGVG ctx gvg) (fun _ => fail ErrSettleFailed) ;;
      settle_gvgs ctx rest
  end.

Definition Settle (order : list Z -> list Z) ctx (req : MsgSettle) : VM unit :=
  if negb (st_FamilyId req =? NoSpecifiedFamilyID) then
    let! w := get in
    let! family := or_fail (GetGVGFamily (st_FamilyId req) (vg w)) ErrGVGFamilyNotExist in
    let! sp := FindStorageProvider (fam_PrimarySpId family) in
    on_err (SettleAndDistributeGVGFamily ctx sp family) (fun _ => fail ErrSettleFailed)
  else settle_gvgs ctx (order (st_GvgIds req)).

(** ** Exit *)

(** [false] when the number of exiting providers reaches the limit. *)
Fixpoint exit_allowed (maxSPExitingNum exitingSPNum : Z) (l : list StorageProvider) : bool :=
  match l with
  | [] => true
  | p :: rest =>
      if is_exiting p then
        let n := u32 (exitingSPNum + 1) in
        if maxSPExitingNum <=? n then false else exit_allowed maxSPExitingNum n rest
      else exit_allowed maxSPExitingNum exitingSPNum rest
  end.

(** [uint32(params.SpConcurrentExitNum.Uint64())] *)
Definition max_exits (s : VgStore) : VM Z :=
  let! n := must (SpConcurrentExitNum (GetParams s)) in
  if is_u64 n then ret (u32 n) else panic.

Definition StorageProviderExit (storageProvider : string) : VM unit :=
  let! sp := operator_sp storageProvider in
  do! guard (negb (IsInService sp)) (ErrSp ErrStorageProviderExitFailed) ;;
  let! w := get in
  do! guard (match GetGVGStatisticsWithinSP (sp_Id sp) (vg w) with
             | Some stat => negb (BreakRedundancyReqmtGvgCount stat =? 0)
             | None => false
             end) ErrSPCanNotExit ;;
  let! maxSPExitingNum := max_exits (vg w) in
  do! guard (negb (exit_allowed maxSPExitingNum 0 (GetAllStorageProviders (sps w))))
        (ErrSp ErrStorageProviderExitFailed) ;;
  modify (with_sps (SetStorageProvider (set_sp_status STATUS_GRACEFUL_EXITING sp))).

Definition CompleteStorageProviderExit (storageProvider : string) : VM unit :=
  let! sp := operator_sp storageProvider in
  do! guard (negb (is_exiting sp)) (ErrSp ErrStorageProviderExitFailed) ;;
  let! w := get in
  do! guard (negb (StorageProviderExitable (sp_Id sp) (vg w))) ErrSPCanNotExit ;;
  let! coins := must (NewCoins (DepositDenomForSP (sps w)) (sp_TotalDeposit sp)) in
  let to := if bool_decide (sp_Status sp = STATUS_GRACEFUL_EXITING) then FundingAddress sp
            else PaymentGovernanceAddress in
  do! transfer (fun p => pk_SendCoinsFromModuleToAccount p SpModuleName to coins) ;;
  modify (with_sps (Exit sp)).

Definition StorageProviderForcedExit (authority signer storageProvider : string) : VM unit :=
  do! guard (negb (bool_decide (authority = signer))) ErrVgInvalidSigner ;;
  let! sp := operator_sp storageProvider in
  let! w := get in
  let! maxSPExitingNum := max_exits (vg w) in
  do! guard (negb (exit_allowed maxSPExitingNum 0 (GetAllStorageProviders (sps w))))
        (ErrSp ErrStorageProviderExitFailed) ;;
  modify (with_sps (SetStorageProvider (set_sp_status STATUS_FORCED_EXITING sp))).

(** ** Swapping in *)

(** [params.SwapInValidityPeriod.Uint64()] *)
Definition validity_period (s : VgStore) : VM Z :=
  let! n := must (SwapInValidityPeriod (GetParams s)) in
  if is_u64 n then ret n else panic.

Definition ReserveSwapIn ctx (storageProvider : string) (targetSpId familyID gvgID : Z) : VM unit :=
  let! successorSP := operator_sp storageProvider in
  do! guard (sp_Id successorSP =? targetSpId) ErrSwapInFailed ;;
  let! targetSP := FindStorageProvider targetSpId in
  let! w := get in
  let! period := validity_period (vg w) in
  let expirationTime := i64 (Unix (sp_BlockTime ctx) + i64 period) in
  SwapIn ctx familyID gvgID (sp_Id successorSP) targetSP expirationTime.

Definition CancelSwapIn (storageProvider : string) (familyID gvgID : Z) : VM unit :=
  let! successorSP := operator_sp storageProvider in
  DeleteSwapInInfo familyID gvgID (sp_Id successorSP).

Definition CompleteSwapIn ctx (storageProvider : string) (familyID gvgID : Z) : VM unit :=
  let! successorSP := operator_sp storageProvider in
  Keeper_CompleteSwapIn ctx familyID gvgID successorSP.

(** [InitGenesis]: the module account must hold nothing. *)
Definition VgInitGenesis (GetAllBalances : P -> Addr -> Coins) (p : VgParams) : VM unit :=
  do! on_err (SetParams p) (fun _ => panic) ;;
  let! w := get in
  if bool_decide (GetAllBalances (pay w) (ModuleAddress VgModuleName) = []) then ret tt
  else panic.

End Msg.
