(* ===== verification/VirtualGroupFacts.v ===== *)
(** * x/virtualgroup: what each operation does

    Frames of the operations that touch only the payment state, what
    settlement pays, and for every operation that changes the store a lemma
    that gives the store it leaves.  The counters of the statistics are
    [uint32]: [eqm32] is equality modulo 2^32; what each operation does to
    them is at the end. *)

From S2P Require Import Prelude Sdk Bytes SpTypes SpKeeper SpMsg VirtualGroupTypes.
From S2P Require Import VirtualGroupKeeper VirtualGroupMsg.

(** ** Equality modulo 2^32 *)

Definition eqm32 (x y : Z) : Prop := u32 x = u32 y.
Infix "≡₃₂" := eqm32 (at level 70) : go_scope.

#[global] Instance eqm32_equivalence : Equivalence eqm32.
Proof. split; unfold eqm32; [done|intros ?? ->; done|intros ??? -> ->; done]. Qed.
#[global] Instance eqm32_add : Proper (eqm32 ==> eqm32 ==> eqm32) Z.add.
Proof.
  intros a b Hab c d Hcd. unfold eqm32, u32 in *.
  rewrite Z.add_mod, Hab, Hcd, <- Z.add_mod by done. done.
Qed.
#[global] Instance eqm32_opp : Proper (eqm32 ==> eqm32) Z.opp.
Proof.
  intros a b Hab. unfold eqm32, u32 in *.
  rewrite <- (Z.sub_0_l a), <- (Z.sub_0_l b), Zminus_mod, Hab, <- Zminus_mod. done.
Qed.
#[global] Instance eqm32_sub : Proper (eqm32 ==> eqm32 ==> eqm32) Z.sub.
Proof. intros a b Hab c d Hcd. rewrite <- !Z.add_opp_r. by rewrite Hab, Hcd. Qed.

Lemma u32_eqm z : u32 z ≡₃₂ z.
Proof. unfold eqm32, u32. by rewrite Z.mod_mod. Qed.
Lemma u32_range z : 0 <= u32 z < two32.
Proof. apply Z.mod_pos_bound. reflexivity. Qed.
Lemma u32_small z : 0 <= z < two32 -> u32 z = z.
Proof. apply Z.mod_small. Qed.

(** ** Helpers on lists *)

Lemma remove_first_Some x l l' :
  remove_first x l = Some l' -> l ≡ₚ x :: l'.
Proof.
  revert l'. induction l as [|y l IH]; intros l'; simpl; [done|].
  destruct (Z.eqb_spec y x) as [->|]; [by intros [= ->]|].
  destruct (remove_first x l) as [l0|]; simpl; [|done]. intros [= <-].
  rewrite (IH l0) by done. by rewrite Permutation_swap.
Qed.

Lemma last_index_Some x l i : last_index x l = Some i -> l !! i = Some x.
Proof.
  revert i. induction l as [|y l IH]; intros i; simpl; [done|].
  destruct (last_index x l) as [j|]; [intros [= <-]; by apply IH|].
  destruct (Z.eqb_spec y x) as [->|]; [|done]. by intros [= <-].
Qed.

Lemma existsb_eqb_elem x l : existsb (fun y => y =? x) l = true <-> x ∈ l.
Proof.
  rewrite existsb_exists. setoid_rewrite Z.eqb_eq.
  split; [intros (y & Hy & ->)|intros Hx; exists x; split; [|done]]; by apply list_elem_of_In.
Qed.

(** How often [x] occurs in [l]. *)
Definition occurrences (x : Z) (l : list Z) : Z := zsum (fun y => if y =? x then 1 else 0) l.

Lemma occurrences_nonneg x l : 0 <= occurrences x l.
Proof. unfold occurrences, zsum. induction l as [|y l IH]; simpl; [done|]. destruct (y =? x); lia. Qed.

Lemma occurrences_pos x l : x ∈ l -> 0 < occurrences x l.
Proof.
  intros (l1 & l2 & ->)%list_elem_of_split. unfold occurrences. rewrite zsum_app.
  pose proof (occurrences_nonneg x l1). pose proof (occurrences_nonneg x l2).
  unfold occurrences, zsum in *. simpl. rewrite Z.eqb_refl. lia.
Qed.

Lemma occurrences_insert x l i a b :
  l !! i = Some a ->
  occurrences x (<[i := b]> l) =
  occurrences x l - (if a =? x then 1 else 0) + (if b =? x then 1 else 0).
Proof.
  unfold occurrences, zsum. revert i. induction l as [|y l IH]; intros i Hi; [done|].
  destruct i as [|i]; simpl in *; [simplify_eq; lia|]. rewrite IH by done. lia.
Qed.

Section Facts.
Context {P : Type} {HPay : PaymentKeeper P} {HAddr : Addresses} {HVg : VgAddresses}
  {HDenoms : Denoms} {HLaws : PaymentLaws P}.
Implicit Types (ctx : SpCtx) (w : World P).

(** ** Frames *)

Lemma keeps_vg_on_pay {A} (c : M P pk_Error A) : keeps (@vg P) (on_pay c).
Proof. unfold on_pay. frame. Qed.
Lemma keeps_sps_on_pay {A} (c : M P pk_Error A) : keeps (@sps P) (on_pay c).
Proof. unfold on_pay. frame. Qed.
Lemma keeps_vg_transfer (send : P -> option P) : keeps (@vg P) (transfer send).
Proof. unfold transfer. frame. Qed.
Lemma keeps_sps_transfer (send : P -> option P) : keeps (@sps P) (transfer send).
Proof. unfold transfer. frame. Qed.
Hint Resolve keeps_vg_on_pay keeps_sps_on_pay keeps_vg_transfer keeps_sps_transfer : frames.

Lemma keeps_vg_settle_family ctx sp f : keeps (@vg P) (SettleAndDistributeGVGFamily ctx sp f).
Proof. unfold SettleAndDistributeGVGFamily. frame. Qed.
Lemma keeps_sps_settle_family ctx sp f : keeps (@sps P) (SettleAndDistributeGVGFamily ctx sp f).
Proof. unfold SettleAndDistributeGVGFamily. frame. Qed.
Lemma keeps_vg_pay_secondaries ctx a x l : keeps (@vg P) (pay_secondaries ctx a x l).
Proof. induction l; simpl; unfold FindStorageProvider; frame. Qed.
Lemma keeps_sps_pay_secondaries ctx a x l : keeps (@sps P) (pay_secondaries ctx a x l).
Proof. induction l; simpl; unfold FindStorageProvider; frame. Qed.
Hint Resolve keeps_vg_pay_secondaries keeps_sps_pay_secondaries : frames.
Lemma keeps_vg_settle_gvg ctx g : keeps (@vg P) (SettleAndDistributeGVG ctx g).
Proof. unfold SettleAndDistributeGVG. frame. Qed.
Lemma keeps_sps_settle_gvg ctx g : keeps (@sps P) (SettleAndDistributeGVG ctx g).
Proof. unfold SettleAndDistributeGVG. frame. Qed.

(** ** Payments *)

Lemma with_pay_id w : with_pay (pay w) w = w.
Proof. by destruct w. Qed.

(** The balances of [a] are the same. *)
Definition still (a : Addr) (p p' : P) : Prop :=
  forall d, pk_GetBalance p' a d = pk_GetBalance p a d.

Lemma still_refl a p : still a p p.
Proof. by intros d. Qed.
Lemma still_trans a p q r : still a p q -> still a q r -> still a p r.
Proof. intros H1 H2 d. by rewrite H2, H1. Qed.

Lemma vg_transfer_Ret (send : P -> option P) w u w' :
  transfer send w = (Ret u, w') ->
  exists p, send (pay w) = Some p /\ w' = with_pay p w.
Proof. unfold transfer. intros H. msteps H. eauto. Qed.

Lemma on_pay_Ret {A} (c : M P pk_Error A) w a w' :
  on_pay c w = (Ret a, w') -> exists p, c (pay w) = (Ret a, p) /\ w' = with_pay p w.
Proof. apply zoom_Ret. Qed.

(** How many of the providers [ids] are funded at [b]. *)
Definition shares (s : SpStore) (b : Addr) (ids : list Z) : Z :=
  zsum (fun id => match GetStorageProvider id s with
                  | Some sp => if FundingAddress sp =? b then 1 else 0
                  | None => 0
                  end) ids.

Lemma pay_secondaries_pays ctx a x ids w u w' b d :
  pay_secondaries ctx a x ids w = (Ret u, w') ->
  b <> a -> b <> ModuleAddress PaymentModuleName ->
  pk_GetBalance (pay w') b d = pk_GetBalance (pay w) b d +
    (if decide (d = pk_FeeDenom (pay w)) then x * shares (sps w) b ids else 0) /\
  pk_FeeDenom (pay w') = pk_FeeDenom (pay w).
Proof.
  intros Hrun Ha Hm. revert w Hrun. induction ids as [|id ids IH]; simpl; intros w Hrun.
  { msteps Hrun. unfold shares, zsum. simpl. rewrite Z.mul_0_r. split; [case_decide; lia|done]. }
  unfold FindStorageProvider in Hrun. apply bind_Ret in Hrun as (sp & w0 & Hsp & Hrun).
  msteps Hsp. apply bind_Ret in Hrun as ([] & w1 & (p & Hw & ->)%on_pay_Ret & Hrun).
  destruct (IH _ Hrun) as [-> ->]. simpl. rewrite (pk_withdraw_denom _ _ _ _ _ _ Hw).
  rewrite (pk_withdraw_pays _ _ _ _ _ _ b d Hw) by done. split; [|done].
  unfold shares, zsum in *. simpl. rewrite Hx.
  destruct (Z.eqb_spec (FundingAddress sp) b) as [->|]; repeat case_decide; naive_solver lia.
Qed.

(** The share of each secondary provider of a group. *)
Definition share (total : Z) (g : GlobalVirtualGroup) : Z :=
  Z.max 0 (Z.quot total (Z.of_nat (length (SecondarySpIds g)))).

Lemma share_remainder total g :
  SecondarySpIds g <> [] -> 0 <= total ->
  0 <= total - share total g * Z.of_nat (length (SecondarySpIds g)) <
    Z.of_nat (length (SecondarySpIds g)).
Proof.
  intros Hne Htot. unfold share. set (n := Z.of_nat (length (SecondarySpIds g))).
  assert (0 < n) as Hn by (unfold n; destruct (SecondarySpIds g); [done|simpl; lia]).
  rewrite Z.quot_div_nonneg, Z.max_r by (lia || apply Z.div_pos; lia).
  pose proof (Z.div_mod total n). pose proof (Z.mod_pos_bound total n). lia.
Qed.

Lemma settle_gvg_pays ctx g w u w' :
  SettleAndDistributeGVG ctx g w = (Ret u, w') ->
  exists total p0,
    pk_QueryDynamicBalance (Unix (sp_BlockTime ctx)) (gvg_PaymentAddress g) (pay w) =
      (Ret total, p0) /\
    SecondarySpIds g <> [] /\
    forall b d, b <> gvg_PaymentAddress g -> b <> ModuleAddress PaymentModuleName ->
      pk_GetBalance (pay w') b d = pk_GetBalance (pay w) b d +
        (if decide (d = pk_FeeDenom (pay w))
         then share total g * shares (sps w) b (SecondarySpIds g) else 0).
Proof.
  unfold SettleAndDistributeGVG, share. intros Hrun.
  apply bind_Ret in Hrun as (total & w0 & (p0 & Hq & ->)%on_pay_Ret & Hrun).
  exists total, p0. split; [done|].
  destruct (SecondarySpIds g) as [|i l] eqn:Hl; [by minv|]. split; [done|].
  intros b d Hb Hm. pose proof (pk_query_frame _ _ _ _ _ b d Hq Hb Hm) as Hbal.
  pose proof (pk_query_denom _ _ _ _ _ Hq) as Hden.
  destruct (Z.ltb_spec 0 (Z.quot total (Z.of_nat (length (i :: l))))) as [Hpos|Hpos];
    cbn [negb] in Hrun.
  - destruct (pay_secondaries_pays _ _ _ _ _ _ _ b d Hrun Hb Hm) as [-> _].
    cbn [pay with_pay sps]. rewrite Hden, Hbal, Z.max_r by lia. done.
  - msteps Hrun. cbn [pay with_pay]. rewrite Hbal, Z.max_l by lia. case_decide; lia.
Qed.

Lemma settle_family_pays ctx sp f w u w' :
  SettleAndDistributeGVGFamily ctx sp f w = (Ret u, w') ->
  exists total p0,
    pk_QueryDynamicBalance (Unix (sp_BlockTime ctx)) (fam_PaymentAddress f) (pay w) =
      (Ret total, p0) /\
    forall b d, b <> fam_PaymentAddress f -> b <> ModuleAddress PaymentModuleName ->
      pk_GetBalance (pay w') b d = pk_GetBalance (pay w) b d +
        (if decide (b = FundingAddress sp /\ d = pk_FeeDenom (pay w)) then Z.max 0 total else 0).
Proof.
  unfold SettleAndDistributeGVGFamily. intros Hrun.
  apply bind_Ret in Hrun as (total & w0 & (p0 & Hq & ->)%on_pay_Ret & Hrun).
  exists total, p0. split; [done|]. intros b d Hb Hm.
  pose proof (pk_query_frame _ _ _ _ _ b d Hq Hb Hm) as Hbal.
  pose proof (pk_query_denom _ _ _ _ _ Hq) as Hden.
  destruct (Z.ltb_spec 0 total); cbn [negb] in Hrun.
  - destruct u. apply on_pay_Ret in Hrun as (p & Hw & ->). cbn [pay with_pay] in *.
    rewrite (pk_withdraw_pays _ _ _ _ _ _ b d Hw), Hden, Hbal, Z.max_r by (done || lia). done.
  - msteps Hrun. cbn [pay with_pay]. rewrite Hbal, Z.max_l by lia. case_decide; lia.
Qed.

End Facts.

(** ** x/virtualgroup: the statistics

    The counters of the statistics as functions of the provider, and how the
    writes of the keeper move them: [moved m m' dp ds db] says that from [m]
    to [m'] the primary, secondary and redundancy counters moved by [dp],
    [ds] and [db], modulo 2^32. *)

Abbreviation StatMap := (gmap Z GVGStatisticsWithinSP) (only parsing).

Definition stat_at (m : StatMap) (id : Z) : GVGStatisticsWithinSP := default (new_stat id) (m !! id).

(** A statistic is stored under its provider, with counters of 32 bits. *)
Definition stat_wf (id : Z) (t : GVGStatisticsWithinSP) : Prop :=
  StorageProviderId t = id /\ 0 <= PrimaryCount t < two32 /\ 0 <= SecondaryCount t < two32 /\
  0 <= BreakRedundancyReqmtGvgCount t < two32.
Definition stats_wf (m : StatMap) : Prop := forall id t, m !! id = Some t -> stat_wf id t.

Definition prim (m : StatMap) (id : Z) : Z := PrimaryCount (stat_at m id).
Definition sec (m : StatMap) (id : Z) : Z := SecondaryCount (stat_at m id).
Definition brk (m : StatMap) (id : Z) : Z := BreakRedundancyReqmtGvgCount (stat_at m id).

(** One at [id], zero elsewhere. *)
Definition at_id (id x : Z) : Z := if x =? id then 1 else 0.
Definition none (x : Z) : Z := 0.

Definition moved (m m' : StatMap) (dp ds db : Z -> Z) : Prop :=
  stats_wf m -> stats_wf m' /\
  forall id, prim m' id ≡₃₂ prim m id + dp id /\ sec m' id ≡₃₂ sec m id + ds id /\
             brk m' id ≡₃₂ brk m id + db id.

Lemma moved_refl m : moved m m none none none.
Proof. intros Hm. split; [done|]. intros id. unfold none. by rewrite !Z.add_0_r. Qed.

Lemma moved_ext m m' dp ds db dp' ds' db' :
  moved m m' dp ds db -> (forall id, dp id = dp' id) -> (forall id, ds id = ds' id) ->
  (forall id, db id = db' id) -> moved m m' dp' ds' db'.
Proof. intros Hm Hp Hs Hb Hw. destruct (Hm Hw) as [Hw' H]. split; [done|]. intros id. by rewrite <- Hp, <- Hs, <- Hb. Qed.

Lemma moved_trans m1 m2 m3 dp ds db dp' ds' db' :
  moved m1 m2 dp ds db -> moved m2 m3 dp' ds' db' ->
  moved m1 m3 (fun id => dp id + dp' id) (fun id => ds id + ds' id) (fun id => db id + db' id).
Proof.
  intros H12 H23 Hw1. destruct (H12 Hw1) as [Hw2 D12]. destruct (H23 Hw2) as [Hw3 D23].
  split; [done|]. intros id. destruct (D12 id) as (A & B & C), (D23 id) as (A' & B' & C').
  rewrite A', B', C', A, B, C. rewrite !Z.add_assoc. done.
Qed.

Lemma stat_at_wf m id : stats_wf m -> stat_wf id (stat_at m id).
Proof.
  intros Hm. unfold stat_at. destruct (m !! id) as [t|] eqn:E; simpl; [by apply Hm|].
  unfold stat_wf, new_stat. simpl. unfold two32. lia.
Qed.

(** A statistic [t] computed from the one at [id] is written back. *)
Lemma moved_set m id t dp ds db :
  (stats_wf m -> stat_wf id t) ->
  PrimaryCount t ≡₃₂ prim m id + dp -> SecondaryCount t ≡₃₂ sec m id + ds ->
  BreakRedundancyReqmtGvgCount t ≡₃₂ brk m id + db ->
  moved m (<[id := t]> m) (fun x => dp * at_id id x) (fun x => ds * at_id id x)
    (fun x => db * at_id id x).
Proof.
  intros Hwf Hp Hs Hb Hm. split.
  { intros x t'. rewrite lookup_insert_Some. intros [[<- <-]|[_ Hx]]; auto. }
  intros x. unfold prim, sec, brk, stat_at, at_id in *.
  destruct (Z.eqb_spec x id) as [->|Hne].
  - rewrite lookup_insert_eq, !Z.mul_1_r. done.
  - rewrite lookup_insert_ne, !Z.mul_0_r, !Z.add_0_r by done. done.
Qed.

(** The three updates of a statistic. *)
Lemma stat_wf_add_primary id d t : stat_wf id t -> stat_wf id (add_primary d t).
Proof. intros (? & ? & ? & ?). unfold stat_wf, add_primary. simpl. pose proof (u32_range (PrimaryCount t + d)). auto. Qed.
Lemma stat_wf_add_secondary id d t : stat_wf id t -> stat_wf id (add_secondary d t).
Proof. intros (? & ? & ? & ?). unfold stat_wf, add_secondary. simpl. pose proof (u32_range (SecondaryCount t + d)). auto. Qed.
Lemma stat_wf_add_break id d t : stat_wf id t -> stat_wf id (add_break d t).
Proof. intros (? & ? & ? & ?). unfold stat_wf, add_break. simpl. pose proof (u32_range (BreakRedundancyReqmtGvgCount t + d)). auto. Qed.

Create HintDb stats.
#[export] Hint Resolve stat_at_wf stat_wf_add_primary stat_wf_add_secondary stat_wf_add_break
  moved_refl : stats.

Lemma moved_add_primary m id d :
  moved m (<[id := add_primary d (stat_at m id)]> m) (fun x => d * at_id id x) none none.
Proof.
  eapply moved_ext; [apply (moved_set m id _ d 0 0)| | |]; simpl; auto with stats.
  - apply u32_eqm.
  - by rewrite Z.add_0_r.
  - by rewrite Z.add_0_r.
Qed.

Lemma moved_add_secondary m id d :
  moved m (<[id := add_secondary d (stat_at m id)]> m) none (fun x => d * at_id id x) none.
Proof.
  eapply moved_ext; [apply (moved_set m id _ 0 d 0)| | |]; simpl; auto with stats.
  - by rewrite Z.add_0_r.
  - apply u32_eqm.
  - by rewrite Z.add_0_r.
Qed.

Lemma stat_at_insert_eq m id t : stat_at (<[id := t]> m) id = t.
Proof. unfold stat_at. by rewrite lookup_insert_eq. Qed.
Lemma stat_at_insert_ne m id id' t : id <> id' -> stat_at (<[id := t]> m) id' = stat_at m id'.
Proof. intros Hne. unfold stat_at. by rewrite lookup_insert_ne. Qed.

(** Writing back the statistics of distinct providers, all read from [m],
    is the same as updating one after the other. *)
Lemma moved_batch (ids : list Z) (m m0 : StatMap) :
  NoDup ids -> (forall id, id ∈ ids -> stat_at m0 id = stat_at m id) ->
  (forall id t, m0 !! id = Some t -> stat_wf id t) ->
  moved m (foldl (fun m t => <[StorageProviderId t := t]> m) m
             ((fun id => add_secondary 1 (stat_at m0 id)) <$> ids))
    none (fun x => occurrences x ids) none.
Proof.
  intros Hnd Hat Hwf. revert m Hat. induction Hnd as [|id ids Hid Hnd IH]; intros m Hat; simpl.
  { eapply moved_ext; [apply moved_refl| | |]; done. }
  destruct (stat_at_wf m0 id Hwf) as [Hsp _].
  rewrite Hat in Hsp |- * by set_solver. rewrite Hsp.
  eapply moved_ext; [eapply moved_trans; [apply (moved_add_secondary m id 1)|apply IH]| | |].
  - intros id' Hid'. rewrite Hat by set_solver. symmetry. apply stat_at_insert_ne. set_solver.
  - done.
  - intros x. unfold at_id, occurrences, zsum. simpl. rewrite Z.eqb_sym. lia.
  - done.
Qed.

(** A secondary provider [old] gives its place to [new]; both statistics are
    read before either is written.  [db] is what the redundancy counter of
    [old] moves by. *)
Lemma moved_exchange m old new (broken : bool) :
  old <> new ->
  let origin := if broken then add_break (-1) (stat_at m old) else stat_at m old in
  moved m (<[new := add_secondary 1 (stat_at m new)]> (<[old := add_secondary (-1) origin]> m))
    none (fun x => at_id new x - at_id old x)
    (fun x => if broken then - at_id old x else 0).
Proof.
  intros Hne origin. rewrite <- (stat_at_insert_ne m old new (add_secondary (-1) origin)) by done.
  eapply moved_ext; [eapply moved_trans;
    [apply (moved_set m old (add_secondary (-1) origin) 0 (-1) (if broken then -1 else 0))
    |apply moved_add_secondary]| | |].
  - intros Hm. unfold origin. destruct broken; auto with stats.
  - unfold origin, prim. rewrite Z.add_0_r. by destruct broken.
  - unfold origin, sec. destruct broken; apply u32_eqm.
  - unfold origin, brk. destruct broken; simpl; [apply u32_eqm|by rewrite Z.add_0_r].
  - intros x. unfold none. lia.
  - intros x. cbv beta. lia.
  - intros x. unfold none. destruct broken; lia.
Qed.
