(* ===== verification/VirtualGroupEffects.v ===== *)
(** * x/virtualgroup: the effect of each operation

    For every operation of the keeper and of the message server that returns,
    the state it leaves: the groups, families and statistics written and the
    coins moved.  The invariants are proved from these. *)

From S2P Require Import Prelude Sdk Bytes SpTypes SpKeeper SpMsg VirtualGroupTypes.
From S2P Require Import VirtualGroupKeeper VirtualGroupMsg VirtualGroupFacts.

(** The parts of the store swaps and deletions leave alone. *)
Record rest_same (s s' : VgStore) : Prop := mkRestSame {
  same_params : vg_params s' = vg_params s;
  same_swap_out_family : swap_out_family s' = swap_out_family s;
  same_swap_out_gvg : swap_out_gvg s' = swap_out_gvg s;
  same_swap_in_family : swap_in_family s' = swap_in_family s;
  same_swap_in_gvg : swap_in_gvg s' = swap_in_gvg s;
  same_gvgSequence : gvgSequence s' = gvgSequence s;
  same_gvgFamilySequence : gvgFamilySequence s' = gvgFamilySequence s;
}.

Section Effects.
Context {P : Type} {HPay : PaymentKeeper P} {HAddr : Addresses} {HVg : VgAddresses}
  {HDenoms : Denoms} {HLaws : PaymentLaws P}.
Implicit Types (ctx : SpCtx) (w : World P).

Lemma stat_at_found w id t :
  GetGVGStatisticsWithinSP id (vg w) = Some t -> stat_at (gvg_stats (vg w)) id = t.
Proof. unfold GetGVGStatisticsWithinSP, stat_at. by intros ->. Qed.

(** ** Deleting a group *)

Lemma leave_secondaries_Ret l w u w' :
  leave_secondaries l w = (Ret u, w') -> stats_wf (gvg_stats (vg w)) ->
  exists m', w' = with_vg (on_gvg_stats (fun _ => m')) w /\
    moved (gvg_stats (vg w)) m' none (fun x => - occurrences x l) none.
Proof.
  revert w. induction l as [|id l IH]; simpl; intros w Hrun Hwf.
  { msteps Hrun. exists (gvg_stats (vg w)). split; [by destruct w as [[]]|].
    eapply moved_ext; [apply moved_refl| | |]; done. }
  unfold MustGetGVGStatisticsWithinSP, on_vg in Hrun.
  apply bind_Ret in Hrun as (t & w0 & Ht & Hrun). msteps Ht. msteps Hrun.
  apply stat_at_found in Hx as <-. set (m := gvg_stats (vg w)) in *.
  pose proof (moved_add_secondary m id (-1)) as Hm1.
  destruct (stat_at_wf m id Hwf) as [Hsp _].
  apply IH in Hrun as (m' & -> & Hm').
  2: { simpl. fold m. rewrite Hsp. by apply Hm1. }
  exists m'. split; [done|]. simpl in Hm'. fold m in Hm'. rewrite Hsp in Hm'.
  eapply moved_ext; [exact (moved_trans _ _ _ _ _ _ _ _ _ Hm1 Hm')| | |]; try done.
  intros y. unfold at_id, occurrences, zsum. simpl. rewrite (Z.eqb_sym y id). lia.
Qed.

(** What [DeleteGVG] pays back. *)
Definition refunded w (to : Addr) (amount : Z) (p' : P) : Prop :=
  (amount = 0 /\ p' = pay w) \/
  exists coins, NewCoins (DepositDenomForGVG (vg w)) amount = Some coins /\
    pk_SendCoinsFromModuleToAccount (pay w) VgModuleName to coins = Some p'.

Lemma DeleteGVG_Ret ctx sp id w u w' :
  DeleteGVG ctx sp id w = (Ret u, w') -> stats_wf (gvg_stats (vg w)) ->
  exists g fam l m',
    gvgs (vg w) !! id = Some g /\ StoredSize g = 0 /\
    pk_IsEmptyNetFlow (Unix (sp_BlockTime ctx)) (gvg_PaymentAddress g) (pay w) = true /\
    families (vg w) !! FamilyId g = Some fam /\
    remove_first (gvg_Id g) (GlobalVirtualGroupIds fam) = Some l /\
    moved (gvg_stats (vg w)) m' (fun x => - at_id (fam_PrimarySpId fam) x)
      (fun x => - occurrences x (SecondarySpIds g)) none /\
    vg w' = SetGVGFamily (set_fam_gvgs l fam)
              (on_gvgs (delete (gvg_Id g)) (on_gvg_stats (fun _ => m') (vg w))) /\
    sps w' = sps w /\ refunded w (FundingAddress sp) (gvg_TotalDeposit g) (pay w').
Proof.
  unfold DeleteGVG. intros Hrun Hwf. mstep Hrun. mstep Hrun. rename x into g, Hx into Hg.
  mstep Hrun. mstep Hrun. rename Hx into Hsize, Hx0 into Hflow.
  apply bind_Ret in Hrun as ([] & w1 & Hpay & Hrun).
  assert (exists p', w1 = with_pay p' w /\ refunded w (FundingAddress sp) (gvg_TotalDeposit g) p')
    as (p' & -> & Href).
  { unfold refunded. destruct (Z.eqb_spec (gvg_TotalDeposit g) 0); simpl in Hpay.
    - msteps Hpay. exists (pay w). rewrite with_pay_id. auto.
    - mstep Hpay. apply vg_transfer_Ret in Hpay as (p' & Hs & ->). eauto 10. }
  mstep Hrun. rename x into fam, Hx into Hfam. mstep Hrun. rename Hx into Hrem.
  unfold RemoveGVG in Hrem.
  destruct (remove_first _ _) as [l|] eqn:Hl; simplify_eq/=.
  unfold MustGetGVGStatisticsWithinSP, on_vg in Hrun.
  apply bind_Ret in Hrun as (t & w0 & Ht & Hrun). msteps Ht. mstep Hrun.
  apply stat_at_found in Hx as <-. simpl in Hrun. set (m := gvg_stats (vg w)) in *.
  set (id0 := fam_PrimarySpId fam) in *. pose proof (moved_add_primary m id0 (-1)) as Hm1.
  destruct (stat_at_wf m id0 Hwf) as [Hsp _].
  apply bind_Ret in Hrun as ([] & w2 & Hleave & Hrun).
  apply leave_secondaries_Ret in Hleave as (m' & -> & Hm').
  2: { simpl. fold m. rewrite Hsp. by apply Hm1. }
  simpl in Hm'. fold m in Hm'. rewrite Hsp in Hm'. msteps Hrun.
  exists g, fam, l, m'. split_and!; try done.
  - by apply Z.eqb_eq, negb_false_iff.
  - by apply negb_false_iff.
  - eapply moved_ext; [exact (moved_trans _ _ _ _ _ _ _ _ _ Hm1 Hm')| | |]; try done.
    all: intros y; unfold none, id0; lia.
Qed.
(** ** Creating a group *)

(** Providers are stored under their ids. *)
Definition sps_keyed (s : SpStore) : Prop :=
  forall id p, providers s !! id = Some p -> sp_Id p = id.

Lemma through_provider {K} `{Countable K} (index : gmap K Z) k s p :
  through index k s = Some p -> exists id, providers s !! id = Some p.
Proof. unfold through, GetStorageProvider. destruct (index !! k); [eauto|done]. Qed.

(** The provider that sends a message. *)
Definition sender w (text : string) : option StorageProvider :=
  match AccAddressFromHexUnsafe text with
  | Some addr => GetStorageProviderByOperatorAddr addr (sps w)
  | None => None
  end.

Lemma sender_provider w text sp :
  sender w text = Some sp -> exists id, providers (sps w) !! id = Some sp.
Proof. unfold sender. case_match; [|done]. by apply through_provider. Qed.

Lemma operator_sp_Ret text w sp w' :
  operator_sp text w = (Ret sp, w') -> w' = w /\ sender w text = Some sp.
Proof.
  unfold operator_sp, VirtualGroupMsg.MustAccAddressFromHex, sender. intros H. msteps H.
  split; [done|]. by rewrite Hx.
Qed.

Lemma operator_or_funding_sp_Ret text w sp w' :
  operator_or_funding_sp text w = (Ret sp, w') ->
  w' = w /\ exists id, providers (sps w) !! id = Some sp.
Proof.
  unfold operator_or_funding_sp, VirtualGroupMsg.MustAccAddressFromHex. intros H.
  mstep H. mstep H. destruct (GetStorageProviderByOperatorAddr _ _) as [p|] eqn:Hop; msteps H;
    (split; [done|]); by eapply through_provider.
Qed.

Lemma FindStorageProvider_Ret id w sp w' :
  FindStorageProvider id w = (Ret sp, w') -> w' = w /\ providers (sps w) !! id = Some sp.
Proof. unfold FindStorageProvider. intros H. msteps H. done. Qed.

Lemma join_secondaries_Ret ids w x w' :
  join_secondaries ids w = (Ret x, w') -> sps_keyed (sps w) ->
  w' = w /\ x = (ids, (fun id => add_secondary 1 (stat_at (gvg_stats (vg w)) id)) <$> ids) /\
  Forall (fun id => is_Some (providers (sps w) !! id)) ids.
Proof.
  intros Hrun Hk. revert x w' Hrun. induction ids as [|id ids IH]; simpl; intros x w' Hrun.
  { msteps Hrun. auto. }
  apply bind_Ret in Hrun as (ssp & ? & [-> Hssp]%FindStorageProvider_Ret & Hrun).
  mstep Hrun. mstep Hrun. apply bind_Ret in Hrun as (y & w1 & Hj & Hrun).
  apply IH in Hj as (-> & -> & Hall). msteps Hrun. simpl.
  rewrite (Hk _ _ Hssp). split_and!; [done|done|]. constructor; [by eexists|done].
Qed.

Lemma check_duplicates_Ret ids new w u w' :
  check_duplicates ids new w = (Ret u, w') -> w' = w.
Proof.
  revert w. induction ids as [|id ids IH]; simpl; intros w Hrun; [by msteps Hrun|].
  mstep Hrun. mstep Hrun. apply bind_Ret in Hrun as ([] & w1 & [= _ <-] & Hrun). eauto.
Qed.

(** A family for a new group: a fresh one or an existing one. *)
Definition family_for (familyID spID : Z) (f : GlobalVirtualGroupFamily) w w' : Prop :=
  (familyID = NoSpecifiedFamilyID /\
   exists id cell, NextVal Uint32 (gvgFamilySequence (vg w)) = Some (id, cell) /\
     let t := GetOrCreateGVGFamilyStatisticsWithinSP spID (vg w) in
     w' = with_vg (fun s => SetGVGFamilyStatisticsWithinSP
            (mkFamilyStat (fs_SpId t) (GlobalVirtualGroupFamilyIds t ++ [id]))
            (set_gvgFamilySequence (Some cell) s)) w /\
     f = mkFamily id spID [] (DeriveVirtualPaymentAccount GVGFamilyName id)) \/
  (familyID <> NoSpecifiedFamilyID /\ families (vg w) !! familyID = Some f /\ w' = w).

Lemma GetOrCreateEmptyGVGFamily_Ret familyID spID w f w' :
  GetOrCreateEmptyGVGFamily familyID spID w = (Ret f, w') -> family_for familyID spID f w w'.
Proof.
  unfold GetOrCreateEmptyGVGFamily, GenNextGVGFamilyID, on_vg, family_for. intros Hrun.
  destruct (Z.eqb_spec familyID NoSpecifiedFamilyID) as [->|Hne]; [left|right].
  - apply bind_Ret in Hrun as (id & w1 & Hid & Hrun).
    mstep Hid. mstep Hid. destruct x as [id' cell]. msteps Hid. msteps Hrun.
    split; [done|]. exists id', cell. done.
  - msteps Hrun. done.
Qed.

Lemma CreateGlobalVirtualGroup_Ret n req w u w' :
  CreateGlobalVirtualGroup n req w = (Ret u, w') -> sps_keyed (sps w) ->
  let m := gvg_stats (vg w) in
  let ids := cg_SecondarySpIds req in
  exists sp fam w1 gid cell coins,
    sender w (cg_StorageProvider req) = Some sp /\ NoDup ids /\
    Forall (fun id => is_Some (providers (sps w) !! id)) ids /\
    family_for (cg_FamilyId req) (sp_Id sp) fam w w1 /\
    u32 (Z.of_nat (length (GlobalVirtualGroupIds fam))) <=
      MaxGlobalVirtualGroupNumPerFamily (GetParams (vg w)) /\
    NextVal Uint32 (gvgSequence (vg w)) = Some (gid, cell) /\
    NewCoins (DepositDenomForGVG (vg w)) (cg_Deposit req).2 = Some coins /\
    pk_SendCoinsFromAccountToModule (pay w) (FundingAddress sp) VgModuleName coins =
      Some (pay w') /\
    sps w' = sps w /\
    vg w' = BatchSetGVGStatisticsWithinSP
      (add_primary 1 (stat_at m (sp_Id sp)) ::
       ((fun id => add_secondary 1 (stat_at m id)) <$> ids))
      (SetGVGFamily (AppendGVG gid fam)
         (SetGVG (mkGvg gid (fam_Id fam) (sp_Id sp) ids 0
                    (DeriveVirtualPaymentAccount GVGVirtualPaymentAccountName gid)
                    (cg_Deposit req).2)
            (set_gvgSequence (Some cell) (vg w1)))).
Proof.
  intros Hrun Hk m ids. unfold CreateGlobalVirtualGroup in Hrun. mstep Hrun. mstep Hrun.
  rename Hx0 into Hnd. apply negb_false_iff, bool_decide_eq_true in Hnd.
  apply bind_Ret in Hrun as (sp & ? & [-> Hsp]%operator_sp_Ret & Hrun).
  mstep Hrun. mstep Hrun. apply bind_Ret in Hrun as (x & ? & Hj & Hrun).
  apply join_secondaries_Ret in Hj as (-> & -> & Hall); [|done]. fold m in Hrun.
  apply bind_Ret in Hrun as (fam & w1 & Hfam%GetOrCreateEmptyGVGFamily_Ret & Hrun).
  assert (pay w1 = pay w /\ sps w1 = sps w /\ gvgSequence (vg w1) = gvgSequence (vg w))
    as (Hpay & Hsps & Hseq).
  { destruct Hfam as [(_ & id & cell & _ & -> & _)|(_ & _ & ->)]; done. }
  apply bind_Ret in Hrun as ([] & ? & ->%check_duplicates_Ret & Hrun).
  mstep Hrun.
  match goal with Hm : (_ <? _) = false |- _ => apply Z.ltb_ge in Hm; rename Hm into Hmax end.
  mstep Hrun. rename x into coins.
  apply bind_Ret in Hrun as ([] & ? & (p' & Hsend & ->)%vg_transfer_Ret & Hrun).
  rewrite Hpay in Hsend. apply bind_Ret in Hrun as (gid & w2 & Hgid & Hrun).
  unfold GenNextGVGID, on_vg in *. mstep Hgid. mstep Hgid. destruct x as [gid' cell].
  msteps Hgid. msteps Hrun. simpl in *.
  match goal with Hn : NextVal _ _ = _ |- _ => rewrite Hseq in Hn end.
  exists sp, fam, w1, gid', cell, coins. split_and!; done.
Qed.
(** ** Swapping the primary provider of a family *)

(** From [t] to [t'] the primary counter moved by [d], the secondary one not
    at all. *)
Definition stat_moved (d : Z) (t t' : GVGStatisticsWithinSP) : Prop :=
  (forall id, stat_wf id t -> stat_wf id t') /\ StorageProviderId t' = StorageProviderId t /\
  PrimaryCount t' ≡₃₂ PrimaryCount t + d /\ SecondaryCount t' = SecondaryCount t.

Lemma stat_moved_refl t : stat_moved 0 t t.
Proof. split_and!; [done|done|by rewrite Z.add_0_r|done]. Qed.
Lemma stat_moved_trans d e t1 t2 t3 :
  stat_moved d t1 t2 -> stat_moved e t2 t3 -> stat_moved (d + e) t1 t3.
Proof.
  intros (A & B & C & D) (A' & B' & C' & D'). split_and!; [auto|congruence| |congruence].
  by rewrite C', C, Z.add_assoc.
Qed.
Lemma stat_moved_primary d t : stat_moved d t (add_primary d t).
Proof. split_and!; [auto with stats|done|apply u32_eqm|done]. Qed.
Lemma stat_moved_break d t : stat_moved 0 t (add_break d t).
Proof. split_and!; [auto with stats|done|by rewrite Z.add_0_r|done]. Qed.

(** The groups [ids] of [s], with primary provider [p], now with [q]. *)
Definition handed_over (s : VgStore) (p q : Z) (id : Z) (g' : GlobalVirtualGroup) : Prop :=
  exists g, gvgs s !! id = Some g /\ PrimarySpId g = p /\ g' = set_primary q g.

Record swap_effect (p q : StorageProvider) (ids : list Z) w w' (l : list GlobalVirtualGroup)
    (src dst src' dst' : GVGStatisticsWithinSP) : Prop := mkSwapEffect {
  swap_vg : vg w' = vg w;
  swap_sps : sps w' = sps w;
  swap_gvgs : Forall2 (handed_over (vg w) (sp_Id p) (sp_Id q)) ids l;
  swap_src : stat_moved (- Z.of_nat (length ids)) src src';
  swap_dst : stat_moved (Z.of_nat (length ids)) dst dst';
  swap_pay : forall a, a <> FundingAddress p -> a <> FundingAddress q -> still a (pay w) (pay w');
}.

Lemma moves_still (p p' : P) src dst cs a :
  pk_moves p p' src dst cs -> a <> src -> a <> dst -> still a p p'.
Proof. intros Hm Hs Hd d. rewrite (Hm a d), !decide_False by done. lia. Qed.

Lemma swap_primaries_Ret p q swapIn ids src dst w l src' dst' w' :
  swap_primaries p q swapIn ids src dst w = (Ret (l, src', dst'), w') ->
  swap_effect p q ids w w' l src dst src' dst'.
Proof.
  revert src dst w l w'. induction ids as [|id ids IH]; intros src dst w l w' Hrun; simpl in Hrun.
  { apply ret_Ret in Hrun as [[= <- <- <-] <-]. constructor; try done; try apply stat_moved_refl. }
  mstep Hrun. mstep Hrun. rename x into g. mstep Hrun. mstep Hrun.
  set (dst1 := if existsb _ _ then add_break 1 dst else dst) in Hrun.
  assert (stat_moved 0 dst dst1) as Hdst1
    by (unfold dst1; destruct (existsb _ _); [apply stat_moved_break|apply stat_moved_refl]).
  apply bind_Ret in Hrun as ([] & w1 & Hpay & Hrun).
  assert (vg w1 = vg w /\ sps w1 = sps w /\
    forall a, a <> FundingAddress p -> a <> FundingAddress q -> still a (pay w) (pay w1))
    as (Hv & Hs & Hst).
  { destruct (gvg_TotalDeposit g =? 0); cbn [negb] in Hpay;
      [msteps Hpay; auto using still_refl|]. mstep Hpay. apply vg_transfer_Ret in Hpay as (p' & Hsend & ->).
    split_and!; [done|done|]. intros a Ha Hb. eapply moves_still; eauto using pk_send_a2a. }
  apply bind_Ret in Hrun as ([[l1 src1] dst2] & w2 & Hrec & Hrun).
  apply ret_Ret in Hrun as [[= <- <- <-] <-]. apply IH in Hrec as [Hv2 Hs2 Hg2 Hsrc Hdst Hp2].
  constructor; [congruence|congruence| | | |].
  - constructor; [|by rewrite <- Hv]. exists g. split_and!; try done. by apply Z.eqb_eq, negb_false_iff.
  - replace (- Z.of_nat (length (id :: ids))) with (-1 + - Z.of_nat (length ids))
      by (cbn [length]; lia).
    eapply stat_moved_trans; [apply stat_moved_primary|exact Hsrc].
  - replace (Z.of_nat (length (id :: ids))) with (0 + (1 + Z.of_nat (length ids)))
      by (cbn [length]; lia).
    eapply stat_moved_trans; [exact Hdst1|].
    eapply stat_moved_trans; [apply stat_moved_primary|exact Hdst].
  - intros a Ha Hb. eapply still_trans; [by apply Hst|by apply Hp2].
Qed.

Lemma DeleteSpecificGVGFamilyStatistics_Ret spID fid w u w' :
  DeleteSpecificGVGFamilyStatisticsFromSP spID fid w = (Ret u, w') ->
  exists t, family_stats (vg w) !! spID = Some t /\
    match remove_first fid (GlobalVirtualGroupFamilyIds t) with
    | None => w' = w
    | Some l => w' = with_vg (SetGVGFamilyStatisticsWithinSP (mkFamilyStat (fs_SpId t) l)) w
    end.
Proof.
  unfold DeleteSpecificGVGFamilyStatisticsFromSP, MustGetGVGFamilyStatisticsWithinSP, on_vg.
  intros Hrun. apply bind_Ret in Hrun as (t & w0 & Ht & Hrun). msteps Ht. exists t.
  split; [done|]. case_match; by msteps Hrun.
Qed.

Lemma foldl_SetGVG l s :
  let s' := foldl (fun s g => SetGVG g s) s l in
  gvgs s' = foldl (fun m g => <[gvg_Id g := g]> m) (gvgs s) l /\
  families s' = families s /\ gvg_stats s' = gvg_stats s /\
  family_stats s' = family_stats s /\ rest_same s s'.
Proof.
  revert s. induction l as [|g l IH]; intros s; simpl.
  - split_and!; done.
  - destruct (IH (SetGVG g s)) as (-> & -> & -> & -> & []). split_and!; done.
Qed.

Record primary_swapped ctx (p q : StorageProvider) (fid : Z) w w' : Prop := mkPrimarySwapped {
  ps_sps : sps w' = sps w;
  ps_rest : rest_same (vg w) (vg w');
  ps_effect : exists fam l src src' dst' t w1,
    families (vg w) !! fid = Some fam /\ fam_PrimarySpId fam = sp_Id p /\
    gvg_stats (vg w) !! sp_Id p = Some src /\
    swap_effect p q (GlobalVirtualGroupIds fam) w w1 l src
      (stat_at (gvg_stats (vg w)) (sp_Id q)) src' dst' /\
    gvgs (vg w') = foldl (fun m g => <[gvg_Id g := g]> m) (gvgs (vg w)) l /\
    families (vg w') = <[fam_Id fam := set_fam_primary (sp_Id q) fam]> (families (vg w)) /\
    gvg_stats (vg w') = <[StorageProviderId dst' := dst']>
      (<[StorageProviderId src' := src']> (gvg_stats (vg w))) /\
    family_stats (vg w) !! sp_Id p = Some t /\
    (let t2 := GetOrCreateGVGFamilyStatisticsWithinSP (sp_Id q) (vg w) in
     let m := match remove_first (fam_Id fam)
                (GlobalVirtualGroupFamilyIds (default t (family_stats (vg w) !! fs_SpId t))) with
              | None => family_stats (vg w)
              | Some l => let t := default t (family_stats (vg w) !! fs_SpId t) in
                  <[fs_SpId t := mkFamilyStat (fs_SpId t) l]> (family_stats (vg w))
              end in
     family_stats (vg w') =
       <[fs_SpId t2 := mkFamilyStat (fs_SpId t2)
           (GlobalVirtualGroupFamilyIds t2 ++ [fam_Id fam])]> m) /\
    (exists u, SettleAndDistributeGVGFamily ctx p (set_fam_primary (sp_Id q) fam) w1 =
       (Ret u, with_vg (fun _ => vg w1) w')) ;
}.

Lemma SwapAsPrimarySP_Ret ctx p q fid swapIn w u w' :
  SwapAsPrimarySP ctx p q fid swapIn w = (Ret u, w') -> primary_swapped ctx p q fid w w'.
Proof.
  unfold SwapAsPrimarySP, MustGetGVGStatisticsWithinSP, MustGetGVGFamilyStatisticsWithinSP.
  intros Hrun. mstep Hrun. mstep Hrun. rename x into fam, Hx into Hfam. mstep Hrun.
  apply negb_false_iff, Z.eqb_eq in Hx. rename Hx into Hprim.
  apply bind_Ret in Hrun as (src & w0 & Hsrc & Hrun). msteps Hsrc. rename Hx into Hsrc.
  apply bind_Ret in Hrun as (t & w0 & Ht & Hrun). msteps Ht. rename Hx into Ht.
  apply bind_Ret in Hrun as ([[l src'] dst'] & w1 & Heff%swap_primaries_Ret & Hrun).
  apply bind_Ret in Hrun as (u1 & w2 & Hsettle & Hrun).
  apply on_err_fail_Ret in Hsettle.
  pose proof (keeps_run _ _ _ _ _ (keeps_vg_settle_family _ _ _) Hsettle) as Hv2.
  pose proof (keeps_run _ _ _ _ _ (keeps_sps_settle_family _ _ _) Hsettle) as Hs2.
  unfold on_vg in Hrun. do 4 mstep Hrun.
  apply bind_Ret in Hrun as (u2 & w3 & Hdel & Hrun). mstep Hrun.
  apply DeleteSpecificGVGFamilyStatistics_Ret in Hdel as (t1 & Ht1 & Hdel).
  pose proof Heff as [Hv Hs _ _ _ _]. cbn [vg with_vg] in Ht1. rewrite Hv2, Hv in Ht1.
  destruct (foldl_SetGVG l (SetGVGFamily (set_fam_primary (sp_Id q) fam) (vg w)))
    as (Hg & Hf & Hst & Hfs & Hrest).
  set (s3 := foldl _ (SetGVGFamily _ (vg w)) l) in *.
  assert (family_stats s3 = family_stats (vg w)) as Hfs' by (rewrite Hfs; done).
  cbn [family_stats SetGVGStatisticsWithSP on_gvg_stats] in Ht1. rewrite Hfs' in Ht1.
  destruct Hrest as [R1 R2 R3 R4 R5 R6 R7].
  constructor.
  - destruct (remove_first _ _); subst w3; simpl; congruence.
  - destruct (remove_first _ _); subst w3; constructor; simpl; rewrite ?Hv2, ?Hv; fold s3; done.
  - exists fam, l, src, src', dst', t, w1. split_and!; try done.
    + destruct (remove_first _ _); subst w3; simpl; rewrite ?Hv2, ?Hv; fold s3; done.
    + destruct (remove_first _ _); subst w3; simpl; rewrite ?Hv2, ?Hv; fold s3; done.
    + destruct (remove_first _ _); subst w3; simpl; rewrite ?Hv2, ?Hv; fold s3;
        rewrite Hst; done.
    + rewrite Ht1. simpl.
      destruct (remove_first _ _); subst w3; simpl; rewrite ?Hv2, ?Hv; fold s3; rewrite ?Hfs'; done.
    + exists u1. rewrite Hsettle. f_equal.
      destruct (remove_first _ _); subst w3; destruct w2; simpl in *; by rewrite Hv2.
Qed.
(** ** Swapping a secondary provider of a group *)

Record secondary_swapped ctx (old new gid : Z) (broken : GlobalVirtualGroup -> bool) w w' : Prop :=
mkSecondarySwapped {
  ss_sps : sps w' = sps w;
  ss_effect : exists g i m',
    gvgs (vg w) !! gid = Some g /\ SecondarySpIds g !! i = Some old /\ PrimarySpId g <> new /\
    vg w' = SetGVG (set_secondaries (<[i := new]> (SecondarySpIds g)) g)
              (on_gvg_stats (fun _ => m') (vg w)) /\
    (old <> new -> moved (gvg_stats (vg w)) m' none (fun x => at_id new x - at_id old x)
                     (fun x => if broken g then - at_id old x else 0)) /\
    (exists u, SettleAndDistributeGVG ctx g w = (Ret u, with_vg (fun _ => vg w) w'));
}.

(** The writes shared by both ways to swap a secondary provider. *)
Lemma exchange_Ret (old new : Z) (broken : bool) g' w1 u w' :
  (let! origin := MustGetGVGStatisticsWithinSP old in
   let! w := get in
   let successor := GetOrCreateGVGStatisticsWithinSP new (vg w) in
   let origin := if broken then add_break (-1) origin else origin in
   do! on_vg (SetGVGStatisticsWithSP (add_secondary (-1) origin)) ;;
   do! on_vg (SetGVGStatisticsWithSP (add_secondary 1 successor)) ;;
   on_vg (SetGVG g')) w1 = (Ret u, w') ->
  stats_wf (gvg_stats (vg w1)) ->
  exists m', w' = with_vg (fun s => SetGVG g' (on_gvg_stats (fun _ => m') s)) w1 /\
    (old <> new -> moved (gvg_stats (vg w1)) m' none (fun x => at_id new x - at_id old x)
                     (fun x => if broken then - at_id old x else 0)).
Proof.
  unfold MustGetGVGStatisticsWithinSP, on_vg. intros Hrun Hwf.
  apply bind_Ret in Hrun as (t & w0 & Ht & Hrun). msteps Ht. msteps Hrun.
  apply stat_at_found in Hx as <-. set (m := gvg_stats (vg w1)) in *.
  eexists. split; [reflexivity|]. simpl. intros Hne.
  change (GetOrCreateGVGStatisticsWithinSP new (vg w1)) with (stat_at m new).
  pose proof (moved_exchange m old new broken Hne) as Hm. simpl in Hm.
  destruct (stat_at_wf m old Hwf) as [Ho _], (stat_at_wf m new Hwf) as [Hn _].
  fold m. rewrite Hn. by destruct broken; simpl; rewrite Ho.
Qed.

Lemma SwapOutAsSecondarySP_Ret ctx p q gid w u w' :
  SwapOutAsSecondarySP ctx p q gid w = (Ret u, w') -> stats_wf (gvg_stats (vg w)) ->
  sp_Id p <> sp_Id q /\
  secondary_swapped ctx (sp_Id p) (sp_Id q) gid (fun _ => false) w w'.
Proof.
  unfold SwapOutAsSecondarySP. intros Hrun Hwf. mstep Hrun. mstep Hrun. rename x into g, Hx into Hg.
  mstep Hrun. apply Z.eqb_neq in Hx. rename Hx into Hprim.
  mstep Hrun. rename Hx into Hnew. mstep Hrun. rename x into i. apply last_index_Some in Hx.
  rename Hx into Hi. apply bind_Ret in Hrun as (u1 & w1 & Hsettle & Hrun).
  apply on_err_fail_Ret in Hsettle.
  pose proof (keeps_run _ _ _ _ _ (keeps_vg_settle_gvg _ _) Hsettle) as Hv.
  pose proof (keeps_run _ _ _ _ _ (keeps_sps_settle_gvg _ _) Hsettle) as Hs.
  assert (sp_Id q ∉ SecondarySpIds g) as Hnot.
  { intros Hin%existsb_eqb_elem. congruence. }
  apply (exchange_Ret _ _ false) in Hrun as (m' & -> & Hm); [|by rewrite Hv]. rewrite Hv in Hm.
  split; [intros Heq; apply Hnot; rewrite <- Heq; by eapply list_elem_of_lookup_2|].
  constructor; [done|]. exists g, i, m'. split_and!; try done.
  - simpl. by rewrite Hv.
  - exists u1. rewrite Hsettle. f_equal. destruct w1; simpl in *. by rewrite Hv.
Qed.

Lemma completeSwapInGVG_Ret ctx new old gid w u w' :
  completeSwapInGVG ctx new old gid w = (Ret u, w') -> stats_wf (gvg_stats (vg w)) ->
  secondary_swapped ctx old new gid (fun g => old =? PrimarySpId g) w w'.
Proof.
  unfold completeSwapInGVG. intros Hrun Hwf. mstep Hrun. mstep Hrun. rename x into g, Hx into Hg.
  mstep Hrun. apply Z.eqb_neq in Hx. rename Hx into Hprim.
  apply bind_Ret in Hrun as (u1 & w1 & Hsettle & Hrun). apply on_err_fail_Ret in Hsettle.
  pose proof (keeps_run _ _ _ _ _ (keeps_vg_settle_gvg _ _) Hsettle) as Hv.
  pose proof (keeps_run _ _ _ _ _ (keeps_sps_settle_gvg _ _) Hsettle) as Hs.
  mstep Hrun. rename x into i. apply last_index_Some in Hx. rename Hx into Hi.
  apply (exchange_Ret _ _ (old =? PrimarySpId g)) in Hrun as (m' & -> & Hm); [|by rewrite Hv].
  rewrite Hv in Hm. constructor; [done|]. exists g, i, m'. split_and!; try done.
  - simpl. by rewrite Hv.
  - exists u1. rewrite Hsettle. f_equal. destruct w1; simpl in *. by rewrite Hv.
Qed.
End Effects.
