(* ===== verification/VirtualGroupWf.v ===== *)
(** * x/virtualgroup: well-formed stores

    The messages of the module and their handlers as one function
    ([handle]), and the invariant that every store the module writes is
    well formed ([vg_wf]): groups and families refer to each other and are
    numbered by the sequences, counters have 32 bits, deposits cover what is
    stored. *)

From S2P Require Import Prelude Sdk Bytes SpTypes SpKeeper SpMsg VirtualGroupTypes.
From S2P Require Import VirtualGroupKeeper VirtualGroupMsg VirtualGroupFacts.
From S2P Require Import VirtualGroupEffects.

#[local] Arguments CurVal : simpl never.
#[local] Arguments NextVal : simpl never.

(** The messages of the module. *)
Inductive vg_msg : Type :=
| M_UpdateParams (signer : string) (p : VgParams)
| M_Create (expectSecondarySPNum : Z) (req : MsgCreateGlobalVirtualGroup)
| M_Delete (storageProvider : string) (gvgID : Z)
| M_Deposit (req : MsgVgDeposit)
| M_Withdraw (req : MsgVgWithdraw)
| M_SwapOut (req : MsgSwapOut)
| M_CancelSwapOut (storageProvider : string) (familyID : Z) (gvgIDs : list Z)
| M_CompleteSwapOut (storageProvider : string) (familyID : Z) (gvgIDs : list Z)
| M_Settle (req : MsgSettle)
| M_Exit (storageProvider : string)
| M_CompleteExit (storageProvider : string)
| M_ForcedExit (signer storageProvider : string)
| M_ReserveSwapIn (storageProvider : string) (targetSpId familyID gvgID : Z)
| M_CancelSwapIn (storageProvider : string) (familyID gvgID : Z)
| M_CompleteSwapIn (storageProvider : string) (familyID gvgID : Z).

(** What the handlers depend on besides the state: the authority, the check
    of approvals and the iteration order of Go maps. *)
Record VgSetup : Type := mkVgSetup {
  vs_authority : string;
  vs_VerifySignature : Addr -> MsgSwapOut -> bool;
  vs_order : list Z -> list Z;
}.

Section Wf.
Context {P : Type} {HPay : PaymentKeeper P} {HAddr : Addresses} {HVg : VgAddresses}
  {HDenoms : Denoms} {HLaws : PaymentLaws P} (setup : VgSetup).
Implicit Types (ctx : SpCtx) (w : World P) (s : VgStore).

Definition handle ctx (m : vg_msg) : M (World P) vg_error unit :=
  match m with
  | M_UpdateParams signer p => VgUpdateParams (vs_authority setup) signer p
  | M_Create n req => CreateGlobalVirtualGroup n req
  | M_Delete sp id => DeleteGlobalVirtualGroup ctx sp id
  | M_Deposit req => VgDeposit req
  | M_Withdraw req => VgWithdraw req
  | M_SwapOut req => SwapOut (vs_VerifySignature setup) req
  | M_CancelSwapOut sp f ids => CancelSwapOut sp f ids
  | M_CompleteSwapOut sp f ids => CompleteSwapOut ctx sp f ids
  | M_Settle req => Settle (vs_order setup) ctx req
  | M_Exit sp => StorageProviderExit sp
  | M_CompleteExit sp => CompleteStorageProviderExit sp
  | M_ForcedExit signer sp => StorageProviderForcedExit (vs_authority setup) signer sp
  | M_ReserveSwapIn sp t f g => ReserveSwapIn ctx sp t f g
  | M_CancelSwapIn sp f g => CancelSwapIn sp f g
  | M_CompleteSwapIn sp f g => CompleteSwapIn ctx sp f g
  end.

(** ** Well-formed stores *)

Definition staking_price s : Z := default 0 (GvgStakingPerBytes (GetParams s)).

Record gvg_wf s (id : Z) (g : GlobalVirtualGroup) : Prop := mkGvgWf {
  gw_id : gvg_Id g = id;
  gw_seq : 0 < id <= CurVal Uint32 (gvgSequence s);
  gw_address : gvg_PaymentAddress g = DeriveVirtualPaymentAccount GVGVirtualPaymentAccountName id;
  gw_family : exists f, families s !! FamilyId g = Some f /\ id ∈ GlobalVirtualGroupIds f;
  gw_size : 0 <= StoredSize g < two63;
  gw_deposit : 0 <= gvg_TotalDeposit g;
  gw_collateral : staking_price s * StoredSize g <= gvg_TotalDeposit g;
}.

Record family_wf s (id : Z) (f : GlobalVirtualGroupFamily) : Prop := mkFamilyWf {
  fw_id : fam_Id f = id;
  fw_seq : 0 < id <= CurVal Uint32 (gvgFamilySequence s);
  fw_address : fam_PaymentAddress f = DeriveVirtualPaymentAccount GVGFamilyName id;
  fw_nodup : NoDup (GlobalVirtualGroupIds f);
  fw_gvgs : forall gid, gid ∈ GlobalVirtualGroupIds f ->
    exists g, gvgs s !! gid = Some g /\ FamilyId g = id;
}.

Record vg_wf s : Prop := mkVgWf {
  wf_gvgs : forall id g, gvgs s !! id = Some g -> gvg_wf s id g;
  wf_families : forall id f, families s !! id = Some f -> family_wf s id f;
  wf_stats : stats_wf (gvg_stats s);
  wf_family_stats : forall id t, family_stats s !! id = Some t -> fs_SpId t = id;
  wf_swap_in_family : forall id i, swap_in_family s !! id = Some i ->
    si_SuccessorSpId i <> si_TargetSpId i;
  wf_swap_in_gvg : forall id i, swap_in_gvg s !! id = Some i ->
    si_SuccessorSpId i <> si_TargetSpId i;
  wf_params : forall p, vg_params s = Some p -> VgParams_Validate p = true;
  wf_seq : 0 <= CurVal Uint32 (gvgSequence s);
  wf_fam_seq : 0 <= CurVal Uint32 (gvgFamilySequence s);
}.

(** The sequences have not reached the last 32-bit number. *)
Definition room s : Prop :=
  CurVal Uint32 (gvgSequence s) + 1 < two32 /\
  CurVal Uint32 (gvgFamilySequence s) + 1 < two32.

(** ** Writes of a part of the store *)

(** Stores that agree on what [gvg_wf] and [family_wf] read. *)
Record core_same s s' : Prop := mkCoreSame {
  core_gvgs : gvgs s' = gvgs s;
  core_families : families s' = families s;
  core_seq : gvgSequence s' = gvgSequence s;
  core_fam_seq : gvgFamilySequence s' = gvgFamilySequence s;
  core_price : staking_price s' = staking_price s;
}.

Lemma gvg_wf_core s s' id g : core_same s s' -> gvg_wf s id g -> gvg_wf s' id g.
Proof. intros [Hg Hf Hs Hfs Hp] []. constructor; rewrite ?Hg, ?Hf, ?Hs, ?Hfs, ?Hp; done. Qed.
Lemma family_wf_core s s' id f : core_same s s' -> family_wf s id f -> family_wf s' id f.
Proof. intros [Hg Hf Hs Hfs Hp] []. constructor; rewrite ?Hg, ?Hf, ?Hs, ?Hfs, ?Hp; done. Qed.

(** A write that leaves the groups, families and sequences alone. *)
Lemma vg_wf_core s s' :
  vg_wf s -> core_same s s' -> stats_wf (gvg_stats s') ->
  (forall id t, family_stats s' !! id = Some t -> fs_SpId t = id) ->
  (forall id i, swap_in_family s' !! id = Some i -> si_SuccessorSpId i <> si_TargetSpId i) ->
  (forall id i, swap_in_gvg s' !! id = Some i -> si_SuccessorSpId i <> si_TargetSpId i) ->
  (forall p, vg_params s' = Some p -> VgParams_Validate p = true) ->
  vg_wf s'.
Proof.
  intros Hwf Hc Hst Hfs Hf Hg Hp. pose proof Hc as [Cg Cf Cs Cfs Cp].
  constructor; try done.
  - intros id g. rewrite Cg. intros Hl. eapply gvg_wf_core, wf_gvgs; done.
  - intros id f. rewrite Cf. intros Hl. eapply family_wf_core, wf_families; done.
  - rewrite Cs. by apply wf_seq.
  - rewrite Cfs. by apply wf_fam_seq.
Qed.

(** A group replaced by one of the same id and family. *)
Lemma vg_wf_SetGVG s id g g' :
  vg_wf s -> gvgs s !! id = Some g -> gvg_Id g' = id -> FamilyId g' = FamilyId g ->
  gvg_PaymentAddress g' = gvg_PaymentAddress g ->
  0 <= StoredSize g' < two63 -> 0 <= gvg_TotalDeposit g' ->
  staking_price s * StoredSize g' <= gvg_TotalDeposit g' ->
  vg_wf (SetGVG g' s).
Proof.
  intros Hwf Hl Hid Hfam Haddr Hsize Hdep Hcol. pose proof (wf_gvgs s Hwf id g Hl) as Hg.
  constructor; try apply Hwf.
  - intros k h. simpl. rewrite Hid, lookup_insert_Some. intros [[<- <-]|[_ Hk]].
    + destruct Hg. constructor; simpl; try congruence; auto.
      rewrite Hfam. done.
    + destruct (wf_gvgs s Hwf k h Hk). by constructor.
  - intros k f Hk. destruct (wf_families s Hwf k f Hk) as [? ? ? ? Hgs]. constructor; try done.
    intros gid Hin. destruct (Hgs gid Hin) as (h & Hh & Hf). simpl. rewrite Hid.
    destruct (decide (gid = id)) as [->|Hne].
    + rewrite lookup_insert_eq. exists g'. split; [done|]. rewrite Hl in Hh. congruence.
    + rewrite lookup_insert_ne by done. eauto.
Qed.

(** ** The operations *)

Lemma vg_wf_stats s m : vg_wf s -> stats_wf m -> vg_wf (on_gvg_stats (fun _ => m) s).
Proof. intros Hwf Hm. eapply vg_wf_core; [done| |done|apply Hwf..]. by constructor. Qed.

Lemma DeleteGVG_wf ctx sp id w u w' :
  DeleteGVG ctx sp id w = (Ret u, w') -> vg_wf (vg w) -> vg_wf (vg w').
Proof.
  intros Hrun Hwf. apply DeleteGVG_Ret in Hrun as
    (g & fam & l & m & Hg & _ & _ & Hfam & Hl & Hm & -> & _); [|apply Hwf].
  apply (vg_wf_stats _ m) in Hwf; [|by apply Hm, wf_stats].
  set (s := on_gvg_stats _ (vg w)) in *.
  change (gvgs (vg w)) with (gvgs s) in Hg. change (families (vg w)) with (families s) in Hfam.
  destruct (wf_gvgs s Hwf _ _ Hg) as [Hid _ _ _ _ _ _].
  destruct (wf_families s Hwf _ _ Hfam) as [Hfid Hfseq Hfaddr Hnd Hgs].
  rewrite Hid in *. apply remove_first_Some in Hl.
  assert ((id ∉ l) /\ NoDup l) as [Hnot Hndl]. { rewrite Hl in Hnd. by apply NoDup_cons. }
  constructor; try apply Hwf.
  - intros k h. simpl. rewrite lookup_delete_Some. intros [Hne Hk].
    destruct (wf_gvgs s Hwf k h Hk) as [? ? ? (f & Hf & Hin) ? ? ?]. constructor; try done.
    simpl. rewrite Hfid. destruct (decide (FamilyId h = FamilyId g)) as [He|He].
    + rewrite He in Hf |- *. rewrite lookup_insert_eq. eexists. split; [done|]. simpl.
      rewrite Hfam in Hf. injection Hf as <-. rewrite Hl in Hin. set_solver.
    + rewrite lookup_insert_ne by done. eauto.
  - intros k f. simpl. rewrite Hfid, lookup_insert_Some. intros [[<- <-]|[Hne Hk]].
    + constructor; try done. intros gid Hin.
      destruct (Hgs gid) as (h & Hh & Hf); [rewrite Hl; set_solver|]. simpl.
      rewrite lookup_delete_ne by set_solver. eauto.
    + destruct (wf_families s Hwf k f Hk) as [? ? ? ? Hgs']. constructor; try done.
      intros gid Hin. destruct (Hgs' gid Hin) as (h & Hh & Hf). simpl.
      rewrite lookup_delete_ne; [eauto|]. intros <-. rewrite Hg in Hh. congruence.
Qed.

Lemma BatchSet_same l s :
  let s' := BatchSetGVGStatisticsWithinSP l s in
  s' = on_gvg_stats (fun _ => foldl (fun m t => <[StorageProviderId t := t]> m) (gvg_stats s) l) s.
Proof.
  unfold BatchSetGVGStatisticsWithinSP. revert s. induction l as [|t l IH]; intros s; simpl.
  - by destruct s.
  - by rewrite IH.
Qed.

Lemma batch_stats_wf l (m : gmap Z GVGStatisticsWithinSP) :
  stats_wf m -> Forall (fun t => stat_wf (StorageProviderId t) t) l ->
  stats_wf (foldl (fun m t => <[StorageProviderId t := t]> m) m l).
Proof.
  intros Hm Hl. revert m Hm. induction Hl as [|t l Ht Hl IH]; intros m Hm; simpl; [done|].
  apply IH. intros id t'. rewrite lookup_insert_Some. intros [[<- <-]|[_ Hx]]; auto.
Qed.

(** A new group of a well-formed family. *)
Lemma vg_wf_new_gvg s s0 fam gid cell spID ids amount :
  vg_wf s -> CurVal Uint32 (gvgSequence s) + 1 < two32 -> 0 <= amount ->
  NextVal Uint32 (gvgSequence s) = Some (gid, cell) ->
  s0 = SetGVGFamily fam s -> vg_wf s0 ->
  vg_wf (SetGVGFamily (AppendGVG gid fam)
    (SetGVG (mkGvg gid (fam_Id fam) spID ids 0
               (DeriveVirtualPaymentAccount GVGVirtualPaymentAccountName gid) amount)
       (set_gvgSequence (Some cell) s))).
Proof.
  intros Hwf Hroom Hamt Hn -> Hwf0. apply next_id in Hn as [Hgid Hcur]; [|by apply wf_seq|done].
  pose proof (wf_seq s Hwf) as Hseq.
  assert (gvgs s !! gid = None) as Hfresh.
  { destruct (gvgs s !! gid) as [h|] eqn:Hh; [|done].
    destruct (wf_gvgs s Hwf _ _ Hh) as [_ Hs _ _ _ _ _]. lia. }
  destruct (wf_families _ Hwf0 (fam_Id fam) fam (lookup_insert_eq _ _ _)) as [_ Hfs Hfa Hnd Hgs].
  constructor; try apply Hwf.
  - intros k h. simpl. rewrite lookup_insert_Some. intros [[<- <-]|[Hne Hk]].
    + constructor; try done.
      * cbn [gvgSequence SetGVGFamily SetGVG on_families on_gvgs set_gvgSequence].
        rewrite Hcur. lia.
      * simpl. rewrite lookup_insert_eq. eexists. split; [done|]. simpl. set_solver.
      * cbn [StoredSize gvg_TotalDeposit]. rewrite Z.mul_0_r. done.
    + destruct (wf_gvgs _ Hwf0 k h Hk) as [? ? ? (f & Hf & Hin) ? ? ?].
      constructor; try done.
      { cbn [gvgSequence SetGVGFamily SetGVG on_families on_gvgs set_gvgSequence] in *.
        rewrite Hcur. lia. }
      simpl in Hf |- *. destruct (decide (FamilyId h = fam_Id fam)) as [He|He].
      * rewrite He, lookup_insert_eq in Hf |- *. eexists. split; [done|]. simpl.
        injection Hf as <-. set_solver.
      * rewrite lookup_insert_ne in Hf |- * by done. eauto.
  - intros k f. simpl. rewrite lookup_insert_Some. intros [[<- <-]|[Hne Hk]].
    + constructor; simpl; try done.
      * apply NoDup_app. split_and!; [done| |apply NoDup_singleton].
        intros x Hx ->%list_elem_of_singleton. destruct (Hgs gid Hx) as (h & Hh & _).
        simpl in Hh. congruence.
      * intros x [Hx| ->%list_elem_of_singleton]%elem_of_app.
        -- destruct (Hgs x Hx) as (h & Hh & Hf). simpl in Hh.
           rewrite lookup_insert_ne by congruence. eauto.
        -- rewrite lookup_insert_eq. eexists. done.
    + destruct (wf_families _ Hwf0 k f) as [? ? ? ? Hgs'].
      { simpl. by rewrite lookup_insert_ne. }
      constructor; try done. intros x Hx. destruct (Hgs' x Hx) as (h & Hh & Hf). simpl in *.
      rewrite lookup_insert_ne by congruence. eauto.
  - simpl. rewrite Hcur. lia.
Qed.

Lemma family_for_wf fid spID fam w w1 :
  family_for fid spID fam w w1 -> vg_wf (vg w) -> room (vg w) ->
  vg_wf (vg w1) /\ vg_wf (SetGVGFamily fam (vg w1)) /\
  gvg_stats (vg w1) = gvg_stats (vg w) /\ gvgSequence (vg w1) = gvgSequence (vg w).
Proof.
  intros Hfam Hwf [_ Hroom]. destruct Hfam as [(_ & id & cell & Hn & -> & ->)|(_ & Hl & ->)].
  - apply next_id in Hn as [Hid Hcur]; [|by apply wf_fam_seq|done].
    pose proof (wf_fam_seq _ Hwf) as Hseq. set (t := GetOrCreateGVGFamilyStatisticsWithinSP _ _).
    assert (fs_SpId t = spID) as Ht.
    { unfold t, GetOrCreateGVGFamilyStatisticsWithinSP, GetGVGFamilyStatisticsWithinSP.
      destruct (family_stats (vg w) !! spID) as [t'|] eqn:E; simpl; [|done].
      by apply (wf_family_stats _ Hwf) in E. }
    assert (families (vg w) !! id = None) as Hfresh.
    { destruct (families (vg w) !! id) as [f|] eqn:Hf; [|done].
      destruct (wf_families _ Hwf _ _ Hf) as [_ Hs _ _ _]. lia. }
    assert (vg_wf (vg (with_vg (fun s => SetGVGFamilyStatisticsWithinSP
              (mkFamilyStat (fs_SpId t) (GlobalVirtualGroupFamilyIds t ++ [id]))
              (set_gvgFamilySequence (Some cell) s)) w))) as Hwf1.
    { constructor; try apply Hwf.
      - intros k g Hk. destruct (wf_gvgs _ Hwf k g Hk). by constructor.
      - intros k f Hk. destruct (wf_families _ Hwf k f Hk). constructor; try done. simpl. lia.
      - intros k t'. simpl. rewrite lookup_insert_Some. intros [[<- <-]|[_ Hk]]; [done|].
        by apply (wf_family_stats _ Hwf).
      - simpl. lia. }
    split_and!; [done| |done|done].
    constructor; try apply Hwf1.
    + intros k g Hk. destruct (wf_gvgs _ Hwf1 k g Hk) as [? ? ? (f & Hf & Hin) ? ? ?].
      constructor; try done. simpl in *. rewrite lookup_insert_ne by congruence. eauto.
    + intros k f. simpl. rewrite lookup_insert_Some. intros [[<- <-]|[_ Hk]].
      * constructor; simpl; [done|lia|done|by constructor|set_solver].
      * destruct (wf_families _ Hwf1 k f Hk). by constructor.
  - split_and!; try done. replace (SetGVGFamily fam (vg w)) with (vg w); [done|].
    destruct (wf_families _ Hwf _ _ Hl) as [Hid _ _ _ _]. unfold SetGVGFamily. rewrite Hid.
    destruct (vg w) as [a b c d e f g h i j k]. unfold on_families. simpl in *.
    by rewrite insert_id.
Qed.

Lemma CreateGlobalVirtualGroup_wf n req w u w' :
  CreateGlobalVirtualGroup n req w = (Ret u, w') -> sps_keyed (sps w) -> room (vg w) ->
  vg_wf (vg w) -> vg_wf (vg w').
Proof.
  intros Hrun Hk Hroom Hwf. apply CreateGlobalVirtualGroup_Ret in Hrun as
    (sp & fam & w1 & gid & cell & coins & _ & _ & _ & Hfam & _ & Hn & Hcoins & _ & _ & ->); [|done].
  destruct (family_for_wf _ _ _ _ _ Hfam Hwf Hroom) as (Hwf1 & Hwf1' & Hst & Hseq).
  rewrite BatchSet_same. apply NewCoins_nonneg in Hcoins as [Hamt _].
  apply vg_wf_stats.
  - eapply vg_wf_new_gvg; try done; rewrite Hseq; [apply Hroom|done].
  - pose proof (wf_stats _ Hwf) as Hm. apply batch_stats_wf; [by apply Hwf1|]. constructor.
    + apply stat_wf_add_primary. simpl. rewrite (proj1 (stat_at_wf _ (sp_Id sp) Hm)).
      by apply stat_at_wf.
    + apply Forall_fmap, Forall_true. intros id. simpl. apply stat_wf_add_secondary.
      rewrite (proj1 (stat_at_wf _ id Hm)). by apply stat_at_wf.
Qed.
(** Groups and families that differ in their providers only. *)
Definition gvg_like (g g' : GlobalVirtualGroup) : Prop :=
  gvg_Id g' = gvg_Id g /\ FamilyId g' = FamilyId g /\ StoredSize g' = StoredSize g /\
  gvg_PaymentAddress g' = gvg_PaymentAddress g /\ gvg_TotalDeposit g' = gvg_TotalDeposit g.
Definition fam_like (f f' : GlobalVirtualGroupFamily) : Prop :=
  fam_Id f' = fam_Id f /\ GlobalVirtualGroupIds f' = GlobalVirtualGroupIds f /\
  fam_PaymentAddress f' = fam_PaymentAddress f.

Lemma option_Forall2_r {A B} (R : A -> B -> Prop) mx y :
  option_Forall2 R mx (Some y) -> exists x, mx = Some x /\ R x y.
Proof. inversion 1; eauto. Qed.
Lemma option_Forall2_l {A B} (R : A -> B -> Prop) x my :
  option_Forall2 R (Some x) my -> exists y, my = Some y /\ R x y.
Proof. inversion 1; eauto. Qed.

Lemma vg_wf_like s s' :
  vg_wf s -> rest_same s s' ->
  (forall k, option_Forall2 gvg_like (gvgs s !! k) (gvgs s' !! k)) ->
  (forall k, option_Forall2 fam_like (families s !! k) (families s' !! k)) ->
  stats_wf (gvg_stats s') -> (forall id t, family_stats s' !! id = Some t -> fs_SpId t = id) ->
  vg_wf s'.
Proof.
  intros Hwf [Rp _ _ Rsf Rsg Rs Rfs] Hg Hf Hst Hfst.
  assert (staking_price s' = staking_price s) as Hprice
    by (unfold staking_price, GetParams; by rewrite Rp).
  constructor; rewrite ?Rp, ?Rsf, ?Rsg, ?Rs, ?Rfs; try done; try apply Hwf.
  - intros k g' Hk. specialize (Hg k). rewrite Hk in Hg.
    apply option_Forall2_r in Hg as (g & Hl & E1 & E2 & E3 & E4 & E5).
    destruct (wf_gvgs s Hwf k g Hl) as [? ? ? (f & Hf1 & Hin) ? ? ?].
    constructor; rewrite ?Rs, ?Hprice; try congruence.
    rewrite E2. specialize (Hf (FamilyId g)). rewrite Hf1 in Hf.
    apply option_Forall2_l in Hf as (f' & Hl' & F1 & F2 & F3). exists f'. split; [done|]. by rewrite F2.
  - intros k f' Hk. pose proof (Hf k) as Hf0. rewrite Hk in Hf0.
    apply option_Forall2_r in Hf0 as (f & Hl & F1 & F2 & F3).
    destruct (wf_families s Hwf k f Hl) as [? ? ? ? Hgs].
    constructor; rewrite ?Rfs; try congruence. intros gid Hin. rewrite F2 in Hin.
    destruct (Hgs gid Hin) as (g & Hg1 & Hfam). specialize (Hg gid). rewrite Hg1 in Hg.
    apply option_Forall2_l in Hg as (g' & Hl' & E1 & E2 & _). exists g'. split; [done|congruence].
Qed.

#[local] Instance gvg_like_refl : Reflexive gvg_like.
Proof. by intros g. Qed.
#[local] Instance fam_like_refl : Reflexive fam_like.
Proof. by intros f. Qed.

Lemma handed_over_lookup s p q ids l (m0 : gmap Z GlobalVirtualGroup) k :
  (forall id g, gvgs s !! id = Some g -> gvg_Id g = id) ->
  Forall2 (handed_over s p q) ids l ->
  foldl (fun m g => <[gvg_Id g := g]> m) m0 l !! k =
  if decide (k ∈ ids) then set_primary q <$> gvgs s !! k else m0 !! k.
Proof.
  intros Hk Hall. revert m0. induction Hall as [|id g' ids l (g & Hg & _ & ->) Hall IH];
    intros m0; cbn [foldl]; [by rewrite decide_False by set_solver|].
  rewrite IH. cbn [gvg_Id set_primary]. rewrite (Hk _ _ Hg). destruct (decide (k ∈ ids)).
  { by rewrite decide_True by set_solver. }
  destruct (decide (k = id)) as [->|Hne].
  - by rewrite lookup_insert_eq, decide_True, Hg by set_solver.
  - by rewrite lookup_insert_ne, decide_False by set_solver.
Qed.

Lemma family_stat_key s k t :
  vg_wf s -> t = GetOrCreateGVGFamilyStatisticsWithinSP k s -> fs_SpId t = k.
Proof.
  intros Hwf ->. unfold GetOrCreateGVGFamilyStatisticsWithinSP, GetGVGFamilyStatisticsWithinSP.
  destruct (family_stats s !! k) as [t'|] eqn:E; simpl; [|done].
  by apply (wf_family_stats _ Hwf) in E.
Qed.

Lemma primary_swapped_wf ctx p q fid w w' :
  primary_swapped ctx p q fid w w' -> vg_wf (vg w) -> vg_wf (vg w').
Proof.
  intros [_ Hrest (fam & l & src & src' & dst' & t & w1 & Hfam & _ & Hsrc & Heff & Hg & Hf & Hst &
    Ht & Hfs & _)] Hwf.
  destruct Heff as [_ _ Hover (Hws & Hids & _) (Hwd & Hidd & _) _].
  destruct (wf_families _ Hwf _ _ Hfam) as [Hfid _ _ _ _].
  apply (vg_wf_like (vg w)); try done.
  - intros k. rewrite Hg, (handed_over_lookup (vg w) (sp_Id p) (sp_Id q) (GlobalVirtualGroupIds fam))
      by (done || intros; by eapply gw_id, wf_gvgs).
    case_decide; [|by apply option_Forall2_refl, _].
    destruct (gvgs (vg w) !! k); by constructor.
  - intros k. rewrite Hf, Hfid. destruct (decide (k = fid)) as [->|Hne].
    + rewrite lookup_insert_eq, Hfam. by constructor.
    + rewrite lookup_insert_ne by done. by apply option_Forall2_refl, _.
  - rewrite Hst. pose proof (wf_stats _ Hwf) as Hm.
    assert (stat_wf (sp_Id p) src) as Hs by (by apply Hm).
    pose proof (stat_at_wf _ (sp_Id q) Hm) as Hd.
    intros k x. rewrite Hids, Hidd, (proj1 Hs), (proj1 Hd), !lookup_insert_Some.
    intros [[<- <-]|[_ [[<- <-]|[_ Hx]]]]; auto.
  - rewrite Hfs. intros k x. rewrite lookup_insert_Some. intros [[<- <-]|[_ Hx]]; [done|].
    destruct (remove_first _ _).
    + rewrite lookup_insert_Some in Hx. destruct Hx as [[<- <-]|[_ Hx]]; [done|].
      by apply (wf_family_stats _ Hwf).
    + by apply (wf_family_stats _ Hwf).
Qed.

Lemma secondary_swapped_wf ctx old new gid broken w w' :
  secondary_swapped ctx old new gid broken w w' -> old <> new -> vg_wf (vg w) -> vg_wf (vg w').
Proof.
  intros [_ (g & i & m' & Hg & _ & _ & -> & Hm & _)] Hne Hwf.
  destruct (wf_gvgs _ Hwf _ _ Hg) as [Hid Hs Ha Hf Hsz Hd Hc].
  eapply (vg_wf_SetGVG _ gid g); simpl; try done.
  apply vg_wf_stats; [done|]. by apply Hm, wf_stats.
Qed.

(** ** The messages *)

(** Writes of the reservations. *)
Lemma vg_wf_swap_out_family s a : vg_wf s -> vg_wf (on_swap_out_family a s).
Proof. intros Hwf. eapply vg_wf_core; [done|by constructor|apply Hwf..]. Qed.
Lemma vg_wf_swap_out_gvg s a : vg_wf s -> vg_wf (on_swap_out_gvg a s).
Proof. intros Hwf. eapply vg_wf_core; [done|by constructor|apply Hwf..]. Qed.

Lemma vg_wf_swap_in_family s a :
  vg_wf s ->
  (forall id i, a (swap_in_family s) !! id = Some i -> si_SuccessorSpId i <> si_TargetSpId i) ->
  vg_wf (on_swap_in_family a s).
Proof.
  intros Hwf Ha. eapply vg_wf_core; [done|by constructor| | | | |]; first [exact Ha|apply Hwf].
Qed.
Lemma vg_wf_swap_in_gvg s a :
  vg_wf s ->
  (forall id i, a (swap_in_gvg s) !! id = Some i -> si_SuccessorSpId i <> si_TargetSpId i) ->
  vg_wf (on_swap_in_gvg a s).
Proof.
  intros Hwf Ha. eapply vg_wf_core; [done|by constructor| | | | |]; first [exact Ha|apply Hwf].
Qed.

Definition wf_kept {A} (c : M (World P) vg_error A) : Prop :=
  forall w a w', c w = (Ret a, w') -> vg_wf (vg w) -> vg_wf (vg w').

Lemma wf_kept_keeps {A} (c : M (World P) vg_error A) : keeps vg c -> wf_kept c.
Proof. intros Hk w a w' Hrun. by rewrite (keeps_run _ _ _ _ _ Hk Hrun). Qed.

Lemma keeps_vg_operator_sp text : keeps (@vg P) (operator_sp text).
Proof. unfold operator_sp, VirtualGroupMsg.MustAccAddressFromHex. frame. Qed.
Hint Resolve keeps_vg_operator_sp : frames.
Hint Resolve keeps_vg_settle_gvg keeps_vg_settle_family : frames.

Lemma keeps_vg_settle_gvgs ctx l : keeps (@vg P) (settle_gvgs ctx l).
Proof. induction l; simpl; frame. Qed.
Hint Resolve keeps_vg_settle_gvgs : frames.
Lemma keeps_vg_Settle ctx req : keeps (@vg P) (Settle (vs_order setup) ctx req).
Proof. unfold Settle, FindStorageProvider. frame. Qed.
Lemma keeps_vg_max_exits s : keeps (@vg P) (max_exits s).
Proof. unfold max_exits. frame. Qed.
Hint Resolve keeps_vg_max_exits : frames.
Lemma keeps_vg_exit sp : keeps (@vg P) (StorageProviderExit sp).
Proof. unfold StorageProviderExit. frame. Qed.
Hint Resolve keeps_vg_transfer : frames.
Lemma keeps_vg_complete_exit sp : keeps (@vg P) (CompleteStorageProviderExit sp).
Proof. unfold CompleteStorageProviderExit. frame. Qed.
Lemma keeps_vg_forced_exit a b sp : keeps (@vg P) (StorageProviderForcedExit a b sp).
Proof. unfold StorageProviderForcedExit. frame. Qed.

Lemma staking_price_nonneg s : vg_wf s -> 0 <= staking_price s.
Proof.
  intros Hwf. unfold staking_price, GetParams.
  destruct (vg_params s) as [p|] eqn:Hp; [|done]. apply (wf_params s Hwf) in Hp.
  unfold VgParams_Validate, validateGVGStakingPerBytes in Hp. simpl.
  destruct (GvgStakingPerBytes p); simpl; [|done].
  destruct (Z.ltb_spec 0 z); [lia|]. by rewrite andb_false_r in Hp.
Qed.

Lemma VgUpdateParams_wf authority signer p : wf_kept (VgUpdateParams authority signer p).
Proof.
  unfold VgUpdateParams, SetParams, on_vg. intros w u w' Hrun Hwf. msteps Hrun.
  match goal with Hv : negb (VgParams_Validate p) = false |- _ =>
    apply negb_false_iff in Hv; rename Hv into Hval end.
  match goal with Hv : (_ || _) = false |- _ =>
    apply orb_false_iff in Hv as [Hv _]; apply negb_false_iff, Z.eqb_eq in Hv; subst end.
  eapply vg_wf_core; [done| |apply Hwf..|].
  - constructor; try done. unfold staking_price, GetParams. simpl.
    unfold GetParams in *. congruence.
  - simpl. by intros q [= <-].
Qed.

Lemma VgDeposit_wf req : wf_kept (VgDeposit req).
Proof.
  unfold VgDeposit, on_vg. intros w u w' Hrun Hwf.
  apply bind_Ret in Hrun as (sp & ? & [-> _]%operator_or_funding_sp_Ret & Hrun).
  mstep Hrun. mstep Hrun. rename x into g, Hx into Hg. destruct (vd_Deposit req) as [d amount].
  mstep Hrun. mstep Hrun. apply NewCoins_nonneg in Hx0 as [Hamt _].
  apply bind_Ret in Hrun as ([] & ? & (p' & _ & ->)%vg_transfer_Ret & Hrun). mstep Hrun. simpl.
  destruct (wf_gvgs _ Hwf _ _ Hg) as [? ? ? ? ? ? ?].
  eapply vg_wf_SetGVG; try done; simpl; lia.
Qed.

Lemma VgWithdraw_wf req : wf_kept (VgWithdraw req).
Proof.
  unfold VgWithdraw, GetAvailableStakingTokens, GVGStakingPerBytes, on_vg. intros w u w' Hrun Hwf.
  apply bind_Ret in Hrun as (sp & ? & [-> _]%operator_or_funding_sp_Ret & Hrun).
  mstep Hrun. mstep Hrun. rename x into g, Hx into Hg. mstep Hrun.
  destruct (vw_Withdraw req) as [d amount]. mstep Hrun.
  apply bind_Ret in Hrun as (avail & w1 & Hav & Hrun).
  apply bind_Ret in Hav as (price & w0 & Hprice & Hav). msteps Hprice. msteps Hav.
  destruct (wf_gvgs _ Hwf _ _ Hg) as [? ? ? ? Hsize Hdep Hcol].
  assert (staking_price (vg w) = price) as Hp.
  { unfold staking_price. match goal with Hq : GvgStakingPerBytes _ = Some price |- _ =>
      by rewrite Hq end. }
  pose proof (staking_price_nonneg _ Hwf) as Hp0. rewrite Hp in Hp0, Hcol.
  rewrite i64_id in Hrun by (unfold is_i64, two63 in *; lia).
  destruct (Z.ltb_spec (gvg_TotalDeposit g - price * StoredSize g) 0); [by minv|].
  apply bind_Ret in Hrun as (tokens & w1 & Ht & Hrun).
  assert (w1 = w /\ tokens <= gvg_TotalDeposit g - price * StoredSize g) as [-> Hle].
  { destruct (Z.eqb_spec amount 0); msteps Ht; split; try done.
    by apply Z.ltb_ge. }
  mstep Hrun. match goal with Hc : NewCoins _ tokens = _ |- _ => apply NewCoins_nonneg in Hc as [Ht0 _] end.
  apply bind_Ret in Hrun as ([] & ? & (p' & _ & ->)%vg_transfer_Ret & Hrun). mstep Hrun. simpl.
  eapply vg_wf_SetGVG; try done; simpl; rewrite ?Hp; nia.
Qed.

Lemma reserve_gvgs_wf ids info : wf_kept (reserve_gvgs ids info).
Proof.
  induction ids as [|id ids IH]; simpl; unfold on_vg; intros w u w' Hrun Hwf; msteps Hrun; [done|].
  eapply IH; [done|]. by apply vg_wf_swap_out_gvg.
Qed.

Lemma cancel_gvgs_wf ids spID : wf_kept (cancel_gvgs ids spID).
Proof.
  induction ids as [|id ids IH]; simpl; unfold on_vg; intros w u w' Hrun Hwf; msteps Hrun; [done|].
  eapply IH; [done|]. by apply vg_wf_swap_out_gvg.
Qed.

Lemma SwapOut_wf verify req : wf_kept (SwapOut verify req).
Proof.
  unfold SwapOut, SetSwapOutInfo. intros w u w' Hrun Hwf.
  apply bind_Ret in Hrun as (sp & ? & [-> _]%operator_sp_Ret & Hrun).
  apply bind_Ret in Hrun as (q & ? & [-> _]%FindStorageProvider_Ret & Hrun).
  mstep Hrun. mstep Hrun. destruct (_ =? NoSpecifiedFamilyID); cbn [negb] in Hrun.
  - by eapply reserve_gvgs_wf.
  - unfold on_vg in Hrun. msteps Hrun. by apply vg_wf_swap_out_family.
Qed.

Lemma CancelSwapOut_wf sp fid ids : wf_kept (CancelSwapOut sp fid ids).
Proof.
  unfold CancelSwapOut, DeleteSwapOutInfo. intros w u w' Hrun Hwf.
  apply bind_Ret in Hrun as (p & ? & [-> _]%operator_sp_Ret & Hrun).
  destruct (_ =? NoSpecifiedFamilyID); cbn [negb] in Hrun.
  - by eapply cancel_gvgs_wf.
  - unfold on_vg in Hrun. msteps Hrun. by apply vg_wf_swap_out_family.
Qed.

Lemma complete_gvgs_wf ctx ids q : wf_kept (complete_gvgs ctx ids q).
Proof.
  induction ids as [|id ids IH]; simpl; unfold on_vg; intros w u w' Hrun Hwf; [by msteps Hrun|].
  mstep Hrun. mstep Hrun. mstep Hrun.
  apply bind_Ret in Hrun as (p & ? & [-> _]%FindStorageProvider_Ret & Hrun).
  apply bind_Ret in Hrun as (u1 & w1 & Hswap & Hrun). mstep Hrun. eapply IH; [done|].
  apply SwapOutAsSecondarySP_Ret in Hswap as [Hne Hswap]; [|apply Hwf].
  apply secondary_swapped_wf in Hswap; [|done|done]. by apply vg_wf_swap_out_gvg.
Qed.

Lemma CompleteSwapOut_wf ctx sp fid ids : wf_kept (CompleteSwapOut ctx sp fid ids).
Proof.
  unfold CompleteSwapOut, Keeper_CompleteSwapOut. intros w u w' Hrun Hwf.
  apply bind_Ret in Hrun as (q & ? & [-> _]%operator_sp_Ret & Hrun).
  destruct (_ =? NoSpecifiedFamilyID); cbn [negb] in Hrun; [by eapply complete_gvgs_wf|].
  mstep Hrun. mstep Hrun. mstep Hrun.
  apply bind_Ret in Hrun as (p & ? & [-> _]%FindStorageProvider_Ret & Hrun).
  apply bind_Ret in Hrun as (u1 & w1 & Hswap & Hrun). unfold on_vg in Hrun. mstep Hrun.
  apply SwapAsPrimarySP_Ret in Hswap. apply primary_swapped_wf in Hswap; [|done].
  by apply vg_wf_swap_out_family.
Qed.

Lemma insert_swap_in (m : gmap Z SwapInInfo) k info :
  (forall id i, m !! id = Some i -> si_SuccessorSpId i <> si_TargetSpId i) ->
  si_SuccessorSpId info <> si_TargetSpId info ->
  forall id i, <[k := info]> m !! id = Some i -> si_SuccessorSpId i <> si_TargetSpId i.
Proof. intros Hm Hi id i. rewrite lookup_insert_Some. intros [[_ <-]|[_ H]]; eauto. Qed.

Lemma delete_swap_in (m : gmap Z SwapInInfo) k :
  (forall id i, m !! id = Some i -> si_SuccessorSpId i <> si_TargetSpId i) ->
  forall id i, delete k m !! id = Some i -> si_SuccessorSpId i <> si_TargetSpId i.
Proof. intros Hm id i. rewrite lookup_delete_Some. intros [_ H]. eauto. Qed.

Lemma setSwapInInfo_Ret ctx cur q p e info :
  setSwapInInfo ctx cur q p e = Ret info -> info = mkSwapIn q p (u64 e).
Proof. unfold setSwapInInfo. intros. repeat case_match; congruence. Qed.

Lemma reserve_family_wf ctx id q p e : q <> p -> wf_kept (reserve_family ctx id q p e).
Proof.
  intros Hne w u w' Hrun Hwf. unfold reserve_family, on_vg in Hrun. mstep Hrun.
  destruct (setSwapInInfo _ _ _ _ _) as [info|e'| |] eqn:Hset; try done.
  mstep Hrun. apply setSwapInInfo_Ret in Hset as ->.
  apply vg_wf_swap_in_family; [done|]. apply insert_swap_in; [apply Hwf|done].
Qed.
Lemma reserve_gvg_wf ctx id q p e : q <> p -> wf_kept (reserve_gvg ctx id q p e).
Proof.
  intros Hne w u w' Hrun Hwf. unfold reserve_gvg, on_vg in Hrun. mstep Hrun.
  destruct (setSwapInInfo _ _ _ _ _) as [info|e'| |] eqn:Hset; try done.
  mstep Hrun. apply setSwapInInfo_Ret in Hset as ->.
  apply vg_wf_swap_in_gvg; [done|]. apply insert_swap_in; [apply Hwf|done].
Qed.

Lemma ReserveSwapIn_wf ctx sp t fid gid w u w' :
  ReserveSwapIn ctx sp t fid gid w = (Ret u, w') -> sps_keyed (sps w) ->
  vg_wf (vg w) -> vg_wf (vg w').
Proof.
  unfold ReserveSwapIn, validity_period, SwapIn. intros Hrun Hk Hwf.
  apply bind_Ret in Hrun as (q & ? & [-> _]%operator_sp_Ret & Hrun). mstep Hrun.
  apply Z.eqb_neq in Hx. rename Hx into Hne.
  apply bind_Ret in Hrun as (p & ? & [-> Hp]%FindStorageProvider_Ret & Hrun).
  apply Hk in Hp. rewrite <- Hp in Hne. mstep Hrun.
  apply bind_Ret in Hrun as (n & ? & Hn & Hrun). mstep Hn.
  destruct (is_u64 _); [|done]. msteps Hn.
  mstep Hrun. destruct (_ =? NoSpecifiedFamilyID); cbn [negb] in Hrun.
  - do 4 mstep Hrun. destruct (is_exiting p); [by eapply reserve_gvg_wf|].
    mstep Hrun. by eapply reserve_gvg_wf.
  - do 3 mstep Hrun. by eapply reserve_family_wf.
Qed.

Lemma CancelSwapIn_wf sp fid gid : wf_kept (CancelSwapIn sp fid gid).
Proof.
  unfold CancelSwapIn, DeleteSwapInInfo, on_vg. intros w u w' Hrun Hwf.
  apply bind_Ret in Hrun as (p & ? & [-> _]%operator_sp_Ret & Hrun). msteps Hrun. simpl.
  destruct (_ =? NoSpecifiedFamilyID); simpl.
  - apply vg_wf_swap_in_gvg; [done|]. apply delete_swap_in, Hwf.
  - apply vg_wf_swap_in_family; [done|]. apply delete_swap_in, Hwf.
Qed.

Lemma CompleteSwapIn_wf ctx sp fid gid w u w' :
  CompleteSwapIn ctx sp fid gid w = (Ret u, w') -> sps_keyed (sps w) ->
  vg_wf (vg w) -> vg_wf (vg w').
Proof.
  unfold CompleteSwapIn, Keeper_CompleteSwapIn, on_vg. intros Hrun Hk Hwf.
  apply bind_Ret in Hrun as (q & ? & [-> _]%operator_sp_Ret & Hrun). mstep Hrun.
  destruct (_ =? NoSpecifiedFamilyID); cbn [negb] in Hrun.
  - mstep Hrun. mstep Hrun. apply negb_false_iff, Z.eqb_eq in Hx0.
    apply bind_Ret in Hrun as (p & ? & [-> Hp]%FindStorageProvider_Ret & Hrun).
    apply bind_Ret in Hrun as (u1 & w1 & Hswap & Hrun). mstep Hrun.
    apply completeSwapInGVG_Ret in Hswap; [|apply Hwf]. apply Hk in Hp.
    apply (wf_swap_in_gvg _ Hwf) in Hx.
    apply secondary_swapped_wf in Hswap; [|congruence|done].
    simpl. apply vg_wf_swap_in_gvg; [done|]. apply delete_swap_in, Hswap.
  - mstep Hrun. mstep Hrun.
    apply bind_Ret in Hrun as (p & ? & [-> Hp]%FindStorageProvider_Ret & Hrun).
    apply bind_Ret in Hrun as (u1 & w1 & Hswap & Hrun). mstep Hrun.
    apply SwapAsPrimarySP_Ret in Hswap. apply primary_swapped_wf in Hswap; [|done].
    simpl. apply vg_wf_swap_in_family; [done|]. apply delete_swap_in, Hswap.
Qed.

(** Every message keeps the store well formed. *)
Lemma handle_wf ctx m w u w' :
  handle ctx m w = (Ret u, w') -> sps_keyed (sps w) -> room (vg w) ->
  vg_wf (vg w) -> vg_wf (vg w').
Proof.
  destruct m; simpl; intros Hrun Hk Hroom Hwf.
  - by eapply VgUpdateParams_wf.
  - by eapply CreateGlobalVirtualGroup_wf.
  - unfold DeleteGlobalVirtualGroup in Hrun.
    apply bind_Ret in Hrun as (p & ? & [-> _]%operator_sp_Ret & Hrun). by eapply DeleteGVG_wf.
  - by eapply VgDeposit_wf.
  - by eapply VgWithdraw_wf.
  - by eapply SwapOut_wf.
  - by eapply CancelSwapOut_wf.
  - by eapply CompleteSwapOut_wf.
  - by eapply (wf_kept_keeps _ (keeps_vg_Settle _ _)).
  - by eapply (wf_kept_keeps _ (keeps_vg_exit _)).
  - by eapply (wf_kept_keeps _ (keeps_vg_complete_exit _)).
  - by eapply (wf_kept_keeps _ (keeps_vg_forced_exit _ _ _)).
  - by eapply ReserveSwapIn_wf.
  - by eapply CancelSwapIn_wf.
  - by eapply CompleteSwapIn_wf.
Qed.
End Wf.
