(* ===== verification/VirtualGroupDeposits.v ===== *)
(** * x/virtualgroup: the deposits of the groups

    Sums over the groups of the store ([total]) and how each operation moves
    them, and the books of the module account: what it holds beyond the
    deposits of the groups ([surplus]) is moved by no message. *)

From S2P Require Import Prelude Sdk Bytes SpTypes SpKeeper SpMsg VirtualGroupTypes.
From S2P Require Import VirtualGroupKeeper VirtualGroupMsg VirtualGroupFacts.
From S2P Require Import VirtualGroupEffects VirtualGroupWf.

#[local] Arguments CurVal : simpl never.
#[local] Arguments NextVal : simpl never.

(** ** Sums over the groups *)

Definition total (f : GlobalVirtualGroup -> Z) (s : VgStore) : Z :=
  map_sum (fun _ g => f g) (gvgs s).

Lemma total_same f s s' : gvgs s' = gvgs s -> total f s' = total f s.
Proof. unfold total. by intros ->. Qed.

Lemma total_SetGVG f s g g' :
  gvgs s !! gvg_Id g' = Some g -> total f (SetGVG g' s) = total f s + f g' - f g.
Proof.
  intros Hg. unfold total. simpl. rewrite map_sum_insert. unfold contrib. rewrite Hg. lia.
Qed.

Lemma total_delete f s id g :
  gvgs s !! id = Some g -> total f (on_gvgs (delete id) s) = total f s - f g.
Proof. intros Hg. unfold total. simpl. rewrite (map_sum_delete _ _ _ _ Hg). lia. Qed.

Lemma handed_over_total f d s p q ids l (m0 : gmap Z GlobalVirtualGroup) :
  (forall id g, gvgs s !! id = Some g -> gvg_Id g = id) ->
  Forall2 (handed_over s p q) ids l -> NoDup ids ->
  (forall id, id ∈ ids -> m0 !! id = gvgs s !! id) ->
  (forall g, PrimarySpId g = p -> f (set_primary q g) = f g + d) ->
  map_sum (fun _ g => f g) (foldl (fun m g => <[gvg_Id g := g]> m) m0 l) =
  map_sum (fun _ g => f g) m0 + d * Z.of_nat (length ids).
Proof.
  intros Hk Hall. revert m0. induction Hall as [|id g' ids l (g & Hg & Hp & ->) Hall IH];
    intros m0 Hnd Hm Hf; cbn [foldl]; [simpl; lia|].
  apply NoDup_cons in Hnd as [Hid Hnd]. cbn [gvg_Id set_primary]. rewrite (Hk _ _ Hg).
  rewrite IH by (done || intros; rewrite lookup_insert_ne by congruence; apply Hm; set_solver).
  rewrite map_sum_insert. unfold contrib. rewrite Hm, Hg by set_solver. rewrite Hf by done.
  cbn [length]. lia.
Qed.

(** The accounts the module derives are not module accounts, and module
    accounts of different modules differ. *)
Class VgAddressLaws `{Addresses} `{VgAddresses} : Prop := {
  derived_apart : forall groupType id,
    DeriveVirtualPaymentAccount groupType id <> ModuleAddress VgModuleName;
  governance_apart : PaymentGovernanceAddress <> ModuleAddress VgModuleName;
  payment_apart : ModuleAddress PaymentModuleName <> ModuleAddress VgModuleName;
  sp_apart : ModuleAddress SpModuleName <> ModuleAddress VgModuleName;
}.

Section Deposits.
Context {P : Type} {HPay : PaymentKeeper P} {HAddr : Addresses} {HVg : VgAddresses}
  {HDenoms : Denoms} {HLaws : PaymentLaws P} (setup : VgSetup).
Implicit Types (ctx : SpCtx) (w : World P) (s : VgStore).

(** The store after [CreateGlobalVirtualGroup]: a new group [g] at the end of
    a family. *)
Record created w w' (req : MsgCreateGlobalVirtualGroup) (sp : StorageProvider)
    (fam : GlobalVirtualGroupFamily) (w1 : World P) (g : GlobalVirtualGroup) : Prop := mkCreated {
  cr_sender : sender w (cg_StorageProvider req) = Some sp;
  cr_nodup : NoDup (cg_SecondarySpIds req);
  cr_family : family_for (cg_FamilyId req) (sp_Id sp) fam w w1;
  cr_group : g = mkGvg (gvg_Id g) (fam_Id fam) (sp_Id sp) (cg_SecondarySpIds req) 0
    (DeriveVirtualPaymentAccount GVGVirtualPaymentAccountName (gvg_Id g)) (cg_Deposit req).2;
  cr_fresh : gvgs (vg w) !! gvg_Id g = None;
  cr_gvgs : gvgs (vg w') = <[gvg_Id g := g]> (gvgs (vg w));
  cr_families : families (vg w') = <[fam_Id fam := AppendGVG (gvg_Id g) fam]> (families (vg w));
  cr_family_stats : family_stats (vg w') = family_stats (vg w1);
  cr_params : vg_params (vg w') = vg_params (vg w);
  cr_stats : gvg_stats (vg w') = foldl (fun m t => <[StorageProviderId t := t]> m)
    (gvg_stats (vg w)) (add_primary 1 (stat_at (gvg_stats (vg w)) (sp_Id sp)) ::
      ((fun id => add_secondary 1 (stat_at (gvg_stats (vg w)) id)) <$> cg_SecondarySpIds req));
  cr_paid : exists coins, NewCoins (DepositDenomForGVG (vg w)) (cg_Deposit req).2 = Some coins /\
    pk_SendCoinsFromAccountToModule (pay w) (FundingAddress sp) VgModuleName coins = Some (pay w');
}.

Lemma CreateGlobalVirtualGroup_created n req w u w' :
  CreateGlobalVirtualGroup n req w = (Ret u, w') -> sps_keyed (sps w) -> room (vg w) ->
  vg_wf (vg w) -> exists sp fam w1 g, created w w' req sp fam w1 g.
Proof.
  intros Hrun Hk Hroom Hwf. apply CreateGlobalVirtualGroup_Ret in Hrun as
    (sp & fam & w1 & gid & cell & coins & Hs & Hnd & _ & Hfam & _ & Hn & Hc & Hsend & _ & Hv);
    [|done].
  apply next_id in Hn as [Hgid _]; [|apply Hwf|apply Hroom]. rewrite BatchSet_same in Hv.
  assert (gvgs (vg w1) = gvgs (vg w) /\ families (vg w1) = families (vg w) /\
    gvg_stats (vg w1) = gvg_stats (vg w) /\ vg_params (vg w1) = vg_params (vg w))
    as (Hg1 & Hf1 & Hs1 & Hp1).
  { by destruct Hfam as [(_ & id & cell' & _ & -> & _)|(_ & _ & ->)]. }
  eexists sp, fam, w1, (mkGvg gid _ _ _ _ _ _).
  constructor; try done; try (rewrite Hv; simpl; by rewrite ?Hg1, ?Hf1, ?Hs1); simpl; eauto.
  destruct (gvgs (vg w) !! gid) as [h|] eqn:Hh; [|done].
  destruct (wf_gvgs _ Hwf _ _ Hh) as [_ Hq _ _ _ _ _]. lia.
Qed.

Lemma total_created f w w' req sp fam w1 g :
  created w w' req sp fam w1 g -> total f (vg w') = total f (vg w) + f g.
Proof.
  intros Hc. unfold total. rewrite (cr_gvgs _ _ _ _ _ _ _ Hc).
  rewrite map_sum_insert_fresh by apply Hc. lia.
Qed.

Lemma total_primary_swapped f d ctx p q fid w w' :
  primary_swapped ctx p q fid w w' -> vg_wf (vg w) ->
  (forall g, PrimarySpId g = sp_Id p -> f (set_primary (sp_Id q) g) = f g + d) ->
  exists fam, families (vg w) !! fid = Some fam /\
    total f (vg w') = total f (vg w) + d * Z.of_nat (length (GlobalVirtualGroupIds fam)).
Proof.
  intros [_ _ (fam & l & src & src' & dst' & t & w1 & Hfam & _ & _ & Heff & Hg & _)] Hwf Hf.
  exists fam. split; [done|]. unfold total. rewrite Hg.
  eapply (handed_over_total f d (vg w)); [|apply Heff| |done|done].
  - intros id g Hid. by apply (wf_gvgs _ Hwf) in Hid as [].
  - by apply (wf_families _ Hwf) in Hfam as [].
Qed.

Lemma total_secondary_swapped f ctx old new gid broken w w' :
  secondary_swapped ctx old new gid broken w w' -> vg_wf (vg w) ->
  exists g i, gvgs (vg w) !! gid = Some g /\ SecondarySpIds g !! i = Some old /\
    total f (vg w') = total f (vg w) +
      f (set_secondaries (<[i := new]> (SecondarySpIds g)) g) - f g.
Proof.
  intros [_ (g & i & m' & Hg & Hi & _ & -> & _)] Hwf. exists g, i. split_and!; [done..|].
  rewrite (total_SetGVG f _ g); [done|]. simpl. by rewrite (gw_id _ _ _ (wf_gvgs _ Hwf _ _ Hg)).
Qed.

(** ** The module account *)

Context {HApart : VgAddressLaws}.

(** What the module account holds beyond the deposits of the groups. *)
Definition surplus w : Z :=
  pk_GetBalance (pay w) (ModuleAddress VgModuleName) (DepositDenomForGVG (vg w)) -
  total gvg_TotalDeposit (vg w).

(** No provider is funded at [a]. *)
Definition funded_apart (a : Addr) (s : SpStore) : Prop :=
  forall id sp, providers s !! id = Some sp -> FundingAddress sp <> a.

(** Neither the account, nor the sum of the deposits nor their coin moves. *)
Record idle w w' : Prop := mkIdle {
  idle_still : still (ModuleAddress VgModuleName) (pay w) (pay w');
  idle_total : total gvg_TotalDeposit (vg w') = total gvg_TotalDeposit (vg w);
  idle_denom : DepositDenomForGVG (vg w') = DepositDenomForGVG (vg w);
}.

Lemma idle_surplus w w' : idle w w' -> surplus w' = surplus w.
Proof. intros [Hs Ht Hd]. unfold surplus. by rewrite Hd, Hs, Ht. Qed.
Lemma idle_trans w1 w2 w3 : idle w1 w2 -> idle w2 w3 -> idle w1 w3.
Proof.
  intros [S1 T1 D1] [S2 T2 D2]. constructor; [by eapply still_trans|congruence|congruence].
Qed.
Lemma idle_same w w' :
  pay w' = pay w -> gvgs (vg w') = gvgs (vg w) -> vg_params (vg w') = vg_params (vg w) -> idle w w'.
Proof.
  intros Hp Hg Hr. constructor; [by rewrite Hp|by apply total_same|].
  unfold DepositDenomForGVG, GetParams. by rewrite Hr.
Qed.

Lemma shares_zero a (s : SpStore) ids : funded_apart a s -> shares s a ids = 0.
Proof.
  intros Ha. unfold shares, zsum. induction ids as [|id ids IH]; simpl; [done|].
  rewrite IH. unfold GetStorageProvider. destruct (providers s !! id) as [sp|] eqn:Hp; [|done].
  by rewrite (proj2 (Z.eqb_neq _ _) (Ha _ _ Hp)).
Qed.

Lemma settle_gvg_idle ctx g w u w' gid :
  SettleAndDistributeGVG ctx g w = (Ret u, w') ->
  gvg_PaymentAddress g = DeriveVirtualPaymentAccount GVGVirtualPaymentAccountName gid ->
  funded_apart (ModuleAddress VgModuleName) (sps w) ->
  still (ModuleAddress VgModuleName) (pay w) (pay w').
Proof.
  intros Hrun Ha Hf. apply settle_gvg_pays in Hrun as (t & p0 & _ & _ & Hpays). intros d.
  rewrite Hpays, shares_zero, Z.mul_0_r by
    (done || rewrite ?Ha; apply not_eq_sym; apply derived_apart || apply payment_apart).
  case_decide; lia.
Qed.

Lemma settle_family_idle ctx sp f w u w' fid :
  SettleAndDistributeGVGFamily ctx sp f w = (Ret u, w') ->
  fam_PaymentAddress f = DeriveVirtualPaymentAccount GVGFamilyName fid ->
  FundingAddress sp <> ModuleAddress VgModuleName ->
  still (ModuleAddress VgModuleName) (pay w) (pay w').
Proof.
  intros Hrun Ha Hf. apply settle_family_pays in Hrun as (t & p0 & _ & Hpays). intros d.
  rewrite Hpays by (rewrite ?Ha; apply not_eq_sym; apply derived_apart || apply payment_apart).
  rewrite decide_False; [lia|]. by intros [? _].
Qed.

Lemma primary_swapped_idle ctx p q fid w w' ip iq :
  primary_swapped ctx p q fid w w' -> vg_wf (vg w) ->
  providers (sps w) !! ip = Some p -> providers (sps w) !! iq = Some q ->
  funded_apart (ModuleAddress VgModuleName) (sps w) -> idle w w'.
Proof.
  intros Hs Hwf Hp Hq Hf.
  destruct (total_primary_swapped gvg_TotalDeposit 0 _ _ _ _ _ _ Hs Hwf) as (f0 & _ & Htot);
    [intros; simpl; lia|].
  destruct Hs as [_ Hrest (fam & l & src & src' & dst' & t & w1 & Hfam & _ & _ & Heff & _ & _ & _ &
    _ & _ & u & Hset)].
  constructor; [|lia|].
  - eapply still_trans; [apply (swap_pay _ _ _ _ _ _ _ _ _ _ Heff); apply not_eq_sym; by eapply Hf|].
    apply settle_family_idle with (fid := fid) in Hset; [done| |by eapply Hf].
    by apply (wf_families _ Hwf) in Hfam as [].
  - unfold DepositDenomForGVG, GetParams. by rewrite (same_params _ _ Hrest).
Qed.

Lemma secondary_swapped_idle ctx old new gid broken w w' :
  secondary_swapped ctx old new gid broken w w' -> vg_wf (vg w) ->
  funded_apart (ModuleAddress VgModuleName) (sps w) -> idle w w'.
Proof.
  intros Hs Hwf Hf.
  destruct (total_secondary_swapped gvg_TotalDeposit _ _ _ _ _ _ _ Hs Hwf) as (g0 & i0 & _ & _ & Htot).
  destruct Hs as [_ (g & i & m' & Hg & _ & _ & Hv & _ & u & Hset)].
  constructor; [|simpl in Htot; lia|].
  - apply settle_gvg_idle with (gid := gid) in Hset; [done| |done].
    by apply (wf_gvgs _ Hwf) in Hg as [].
  - by rewrite Hv.
Qed.

(** ** The messages *)

(** The store a message finds. *)
Record sound w : Prop := mkSound {
  sound_wf : vg_wf (vg w);
  sound_keyed : sps_keyed (sps w);
  sound_room : room (vg w);
  sound_funded : funded_apart (ModuleAddress VgModuleName) (sps w);
}.

Lemma create_surplus n req w u w' :
  CreateGlobalVirtualGroup n req w = (Ret u, w') -> sound w -> surplus w' = surplus w.
Proof.
  intros Hrun [Hwf Hk Hroom Hf].
  apply CreateGlobalVirtualGroup_created in Hrun as (sp & fam & w1 & g & Hc); [|done..].
  destruct (sender_provider _ _ _ (cr_sender _ _ _ _ _ _ _ Hc)) as (id & Hsp).
  destruct (cr_paid _ _ _ _ _ _ _ Hc) as (coins & [_ Hamt]%NewCoins_nonneg & Hsend).
  unfold surplus, DepositDenomForGVG, GetParams in *.
  rewrite (total_created _ _ _ _ _ _ _ _ Hc), (cr_params _ _ _ _ _ _ _ Hc).
  rewrite (pk_send_a2m _ _ _ _ _ Hsend), Hamt, decide_False, decide_True;
    [|done|apply not_eq_sym; by eapply Hf].
  rewrite (cr_group _ _ _ _ _ _ _ Hc). simpl. lia.
Qed.

Lemma delete_surplus ctx sp id w u w' :
  DeleteGlobalVirtualGroup ctx sp id w = (Ret u, w') -> sound w -> surplus w' = surplus w.
Proof.
  intros Hrun [Hwf _ _ Hf]. unfold DeleteGlobalVirtualGroup in Hrun.
  apply bind_Ret in Hrun as (p & ? & [-> (ip & Hp)%sender_provider]%operator_sp_Ret & Hrun).
  apply DeleteGVG_Ret in Hrun as (g & fam & l & m' & Hg & _ & _ & _ & _ & _ & Hv & _ & Href);
    [|apply Hwf].
  pose proof (gw_id _ _ _ (wf_gvgs _ Hwf _ _ Hg)) as Hid.
  assert (total gvg_TotalDeposit (vg w') = total gvg_TotalDeposit (vg w) - gvg_TotalDeposit g) as Ht.
  { rewrite Hv, <- (total_delete gvg_TotalDeposit _ _ _ Hg), Hid. done. }
  unfold surplus. rewrite Ht. replace (DepositDenomForGVG (vg w')) with (DepositDenomForGVG (vg w))
    by (by rewrite Hv).
  destruct Href as [[Hz ->]|(coins & [_ Hamt]%NewCoins_nonneg & Hsend)]; [lia|].
  rewrite (pk_send_m2a _ _ _ _ _ Hsend), Hamt, decide_True, decide_False;
    [lia|apply not_eq_sym; by eapply Hf|done].
Qed.

Lemma deposit_surplus req w u w' :
  VgDeposit req w = (Ret u, w') -> sound w -> surplus w' = surplus w.
Proof.
  unfold VgDeposit, on_vg. intros Hrun [Hwf _ _ Hf].
  apply bind_Ret in Hrun as (sp & ? & [-> (ip & Hp)]%operator_or_funding_sp_Ret & Hrun).
  mstep Hrun. mstep Hrun. rename x into g, Hx into Hg. destruct (vd_Deposit req) as [d amount].
  mstep Hrun. rename Hx into Hd. apply negb_false_iff, bool_decide_eq_true in Hd.
  mstep Hrun. apply NewCoins_nonneg in Hx as [_ Hamt].
  apply bind_Ret in Hrun as ([] & ? & (p' & Hsend & ->)%vg_transfer_Ret & Hrun). mstep Hrun.
  unfold surplus. cbn [vg pay with_vg with_pay].
  rewrite (total_SetGVG _ _ g) by (simpl; by rewrite (gw_id _ _ _ (wf_gvgs _ Hwf _ _ Hg))).
  change (DepositDenomForGVG (SetGVG _ (vg w))) with (DepositDenomForGVG (vg w)). rewrite Hd.
  rewrite (pk_send_a2m _ _ _ _ _ Hsend), Hamt, decide_False, decide_True;
    [simpl; lia|done|apply not_eq_sym; by eapply Hf].
Qed.

Lemma withdraw_surplus req w u w' :
  VgWithdraw req w = (Ret u, w') -> sound w -> surplus w' = surplus w.
Proof.
  unfold VgWithdraw, GetAvailableStakingTokens, GVGStakingPerBytes, on_vg.
  intros Hrun [Hwf _ _ Hf].
  apply bind_Ret in Hrun as (sp & ? & [-> (ip & Hp)]%operator_or_funding_sp_Ret & Hrun).
  mstep Hrun. mstep Hrun. rename x into g, Hx into Hg. mstep Hrun.
  destruct (vw_Withdraw req) as [d amount]. mstep Hrun.
  apply bind_Ret in Hrun as (avail & w1 & Hav & Hrun).
  apply bind_Ret in Hav as (price & w0 & Hprice & Hav). msteps Hprice. msteps Hav.
  destruct (_ <? 0); [by minv|]. apply bind_Ret in Hrun as (tokens & w1 & Ht & Hrun).
  assert (w1 = w) as -> by (destruct (amount =? 0); by msteps Ht).
  mstep Hrun. match goal with Hc : NewCoins _ tokens = _ |- _ => apply NewCoins_nonneg in Hc as [_ Hamt] end.
  apply bind_Ret in Hrun as ([] & ? & (p' & Hsend & ->)%vg_transfer_Ret & Hrun). mstep Hrun.
  unfold surplus. cbn [vg pay with_vg with_pay].
  rewrite (total_SetGVG _ _ g) by (simpl; by rewrite (gw_id _ _ _ (wf_gvgs _ Hwf _ _ Hg))).
  change (DepositDenomForGVG (SetGVG _ (vg w))) with (DepositDenomForGVG (vg w)).
  rewrite (pk_send_m2a _ _ _ _ _ Hsend), Hamt, decide_True, decide_False;
    [simpl; lia|apply not_eq_sym; by eapply Hf|done].
Qed.

(** Messages that write neither payments nor groups nor parameters. *)
Definition books w := (pay w, gvgs (vg w), vg_params (vg w)).

Lemma books_idle {A} (c : M (World P) vg_error A) w a w' :
  keeps books c -> c w = (Ret a, w') -> idle w w'.
Proof.
  intros Hk Hrun. pose proof (keeps_run _ _ _ _ _ Hk Hrun) as [= Hp Hg Hr]. by apply idle_same.
Qed.

Lemma keeps_books_operator_sp text : keeps books (operator_sp text).
Proof. unfold operator_sp, VirtualGroupMsg.MustAccAddressFromHex. frame. Qed.
Hint Resolve keeps_books_operator_sp : frames.
Lemma keeps_books_reserve_gvgs ids info : keeps books (reserve_gvgs ids info).
Proof. induction ids; simpl; unfold on_vg; frame. Qed.
Lemma keeps_books_cancel_gvgs ids spID : keeps books (cancel_gvgs ids spID).
Proof. induction ids; simpl; unfold on_vg; frame. Qed.
Lemma keeps_books_max_exits s : keeps books (max_exits s).
Proof. unfold max_exits. frame. Qed.
Hint Resolve keeps_books_reserve_gvgs keeps_books_cancel_gvgs keeps_books_max_exits : frames.

Lemma keeps_books_reservations ctx m :
  match m with
  | M_SwapOut _ | M_CancelSwapOut _ _ _ | M_Exit _ | M_ForcedExit _ _
  | M_ReserveSwapIn _ _ _ _ | M_CancelSwapIn _ _ _ => keeps books (handle setup ctx m)
  | _ => True
  end.
Proof.
  destruct m; try exact I; simpl.
  - unfold SwapOut, FindStorageProvider, SetSwapOutInfo, on_vg. frame.
  - unfold CancelSwapOut, DeleteSwapOutInfo, on_vg. frame.
  - unfold StorageProviderExit. frame.
  - unfold StorageProviderForcedExit. frame.
  - unfold ReserveSwapIn, FindStorageProvider, validity_period, SwapIn, reserve_family, reserve_gvg,
      on_vg. frame.
  - unfold CancelSwapIn, DeleteSwapInInfo, on_vg. frame.
    intros w. by destruct (negb _).
Qed.

Lemma update_params_surplus signer p w u w' :
  VgUpdateParams (vs_authority setup) signer p w = (Ret u, w') -> surplus w' = surplus w.
Proof.
  unfold VgUpdateParams, SetParams, on_vg. intros Hrun. msteps Hrun.
  match goal with Hv : (_ || _) = false |- _ => apply orb_false_iff in Hv as [_ Hv];
    apply negb_false_iff, bool_decide_eq_true in Hv; rename Hv into Hd end.
  apply idle_surplus. constructor; [done|done|]. exact Hd.
Qed.

Lemma settle_gvgs_idle ctx ids w u w' :
  settle_gvgs ctx ids w = (Ret u, w') -> vg_wf (vg w) ->
  funded_apart (ModuleAddress VgModuleName) (sps w) -> idle w w'.
Proof.
  revert w. induction ids as [|id ids IH]; simpl; intros w Hrun Hwf Hf.
  { msteps Hrun. by apply idle_same. }
  mstep Hrun. mstep Hrun. apply bind_Ret in Hrun as (u1 & w1 & Hset%on_err_fail_Ret & Hrun).
  pose proof (keeps_run _ _ _ _ _ (keeps_vg_settle_gvg _ _) Hset) as Hv.
  pose proof (keeps_run _ _ _ _ _ (keeps_sps_settle_gvg _ _) Hset) as Hs.
  apply (idle_trans _ w1); [|apply IH; [done|by rewrite Hv|by rewrite Hs]].
  constructor; [|by rewrite Hv|by rewrite Hv].
  eapply settle_gvg_idle; [done| |done]. by apply (wf_gvgs _ Hwf) in Hx as [].
Qed.

Lemma settle_idle ctx req w u w' :
  Settle (vs_order setup) ctx req w = (Ret u, w') -> vg_wf (vg w) ->
  funded_apart (ModuleAddress VgModuleName) (sps w) -> idle w w'.
Proof.
  unfold Settle. intros Hrun Hwf Hf. destruct (negb _); [|by eapply settle_gvgs_idle].
  mstep Hrun. mstep Hrun.
  apply bind_Ret in Hrun as (sp & ? & [-> Hp]%FindStorageProvider_Ret & Hrun%on_err_fail_Ret).
  pose proof (keeps_run _ _ _ _ _ (keeps_vg_settle_family _ _ _) Hrun) as Hv.
  constructor; [|by rewrite Hv|by rewrite Hv].
  eapply settle_family_idle; [done| |by eapply Hf]. by apply (wf_families _ Hwf) in Hx as [].
Qed.

Lemma complete_gvgs_idle ctx ids q w u w' :
  complete_gvgs ctx ids q w = (Ret u, w') -> vg_wf (vg w) ->
  funded_apart (ModuleAddress VgModuleName) (sps w) -> idle w w'.
Proof.
  revert w. induction ids as [|id ids IH]; simpl; unfold on_vg; intros w Hrun Hwf Hf.
  { msteps Hrun. by apply idle_same. }
  mstep Hrun. mstep Hrun. mstep Hrun.
  apply bind_Ret in Hrun as (p & ? & [-> _]%FindStorageProvider_Ret & Hrun).
  apply bind_Ret in Hrun as (u1 & w1 & Hswap & Hrun). mstep Hrun.
  apply SwapOutAsSecondarySP_Ret in Hswap as [Hne Hswap]; [|apply Hwf].
  apply (idle_trans _ w1); [by eapply secondary_swapped_idle|].
  eapply (idle_trans _ _ w'); [|eapply IH; [done| |]]; [by apply idle_same| |].
  - by apply vg_wf_swap_out_gvg, (secondary_swapped_wf _ _ _ _ _ _ _ Hswap).
  - simpl. by rewrite (ss_sps _ _ _ _ _ _ _ Hswap).
Qed.

Lemma complete_swap_out_idle ctx sp fid ids w u w' :
  CompleteSwapOut ctx sp fid ids w = (Ret u, w') -> vg_wf (vg w) ->
  funded_apart (ModuleAddress VgModuleName) (sps w) -> idle w w'.
Proof.
  unfold CompleteSwapOut, Keeper_CompleteSwapOut, on_vg. intros Hrun Hwf Hf.
  apply bind_Ret in Hrun as (q & ? & [-> (iq & Hq)%sender_provider]%operator_sp_Ret & Hrun).
  destruct (negb _); [|by eapply complete_gvgs_idle]. mstep Hrun. mstep Hrun. mstep Hrun.
  apply bind_Ret in Hrun as (p & ? & [-> Hp]%FindStorageProvider_Ret & Hrun).
  apply bind_Ret in Hrun as (u1 & w1 & Hswap%SwapAsPrimarySP_Ret & Hrun). mstep Hrun.
  eapply idle_trans; [by eapply primary_swapped_idle|by apply idle_same].
Qed.

Lemma complete_swap_in_idle ctx sp fid gid w u w' :
  CompleteSwapIn ctx sp fid gid w = (Ret u, w') -> vg_wf (vg w) ->
  funded_apart (ModuleAddress VgModuleName) (sps w) -> idle w w'.
Proof.
  unfold CompleteSwapIn, Keeper_CompleteSwapIn, on_vg. intros Hrun Hwf Hf.
  apply bind_Ret in Hrun as (q & ? & [-> (iq & Hq)%sender_provider]%operator_sp_Ret & Hrun). mstep Hrun.
  destruct (negb _); mstep Hrun; mstep Hrun;
    apply bind_Ret in Hrun as (p & ? & [-> Hp]%FindStorageProvider_Ret & Hrun);
    apply bind_Ret in Hrun as (u1 & w1 & Hswap & Hrun); mstep Hrun;
    (apply (idle_trans _ w1); [|by apply idle_same]).
  - apply SwapAsPrimarySP_Ret in Hswap. by eapply primary_swapped_idle.
  - apply completeSwapInGVG_Ret in Hswap; [|apply Hwf]. by eapply secondary_swapped_idle.
Qed.

Lemma complete_exit_idle sp w u w' :
  CompleteStorageProviderExit sp w = (Ret u, w') ->
  funded_apart (ModuleAddress VgModuleName) (sps w) -> idle w w'.
Proof.
  unfold CompleteStorageProviderExit. intros Hrun Hf.
  apply bind_Ret in Hrun as (p & ? & [-> (ip & Hp)%sender_provider]%operator_sp_Ret & Hrun).
  mstep Hrun. mstep Hrun. mstep Hrun. mstep Hrun.
  apply bind_Ret in Hrun as ([] & ? & (p' & Hsend & ->)%vg_transfer_Ret & Hrun). mstep Hrun.
  constructor; [|done|done]. simpl.
  eapply moves_still; [by apply pk_send_m2a|apply not_eq_sym, sp_apart|].
  destruct (bool_decide _); apply not_eq_sym; [by eapply Hf|apply governance_apart].
Qed.

(** No message moves the surplus of the module account. *)
Lemma handle_surplus ctx m w u w' :
  handle setup ctx m w = (Ret u, w') -> sound w -> surplus w' = surplus w.
Proof.
  intros Hrun Hs. pose proof Hs as [Hwf Hk Hroom Hf].
  pose proof (keeps_books_reservations ctx m) as Hb.
  destruct m; simpl in Hrun;
    try (apply idle_surplus; by eapply books_idle).
  - by eapply update_params_surplus.
  - by eapply create_surplus.
  - by eapply delete_surplus.
  - by eapply deposit_surplus.
  - by eapply withdraw_surplus.
  - by eapply idle_surplus, complete_swap_out_idle.
  - by eapply idle_surplus, settle_idle.
  - by eapply idle_surplus, complete_exit_idle.
  - by eapply idle_surplus, complete_swap_in_idle.
Qed.

(** What a deletion pays. *)
Lemma delete_refunds ctx text gid w u w' :
  handle setup ctx (M_Delete text gid) w = (Ret u, w') -> vg_wf (vg w) ->
  funded_apart (ModuleAddress VgModuleName) (sps w) ->
  exists sp g fam, sender w text = Some sp /\ gvgs (vg w) !! gid = Some g /\ StoredSize g = 0 /\
    pk_IsEmptyNetFlow (Unix (sp_BlockTime ctx)) (gvg_PaymentAddress g) (pay w) = true /\
    gvgs (vg w') = delete gid (gvgs (vg w)) /\
    families (vg w') !! FamilyId g = Some fam /\ (gid ∉ GlobalVirtualGroupIds fam) /\
    pk_GetBalance (pay w') (FundingAddress sp) (DepositDenomForGVG (vg w)) =
      pk_GetBalance (pay w) (FundingAddress sp) (DepositDenomForGVG (vg w)) + gvg_TotalDeposit g.
Proof.
  simpl. unfold DeleteGlobalVirtualGroup. intros Hrun Hwf Hf.
  apply bind_Ret in Hrun as (sp & ? & [-> Hs]%operator_sp_Ret & Hrun).
  destruct (sender_provider _ _ _ Hs) as (ip & Hp).
  apply DeleteGVG_Ret in Hrun as (g & fam & l & m' & Hg & Hsz & Hnf & Hfam & Hrem & _ & Hv & _ & Href);
    [|apply Hwf].
  pose proof (gw_id _ _ _ (wf_gvgs _ Hwf _ _ Hg)) as Hid.
  destruct (wf_families _ Hwf _ _ Hfam) as [Hfid _ _ Hnd _].
  exists sp, g, (set_fam_gvgs l fam). split_and!; try done.
  - rewrite Hv, <- Hid. done.
  - rewrite Hv. simpl. by rewrite Hfid, lookup_insert_eq.
  - simpl. apply remove_first_Some in Hrem. rewrite Hid in Hrem. rewrite Hrem in Hnd.
    by apply NoDup_cons in Hnd as [? _].
  - destruct Href as [[Hz ->]|(coins & [_ Hamt]%NewCoins_nonneg & Hsend)]; [lia|].
    rewrite (pk_send_m2a _ _ _ _ _ Hsend), Hamt, decide_False, decide_True;
      [lia|done|by eapply Hf].
Qed.
End Deposits.
