(* ===== verification/VirtualGroupCounts.v ===== *)
(** * x/virtualgroup: the statistics are exact

    The counters of a provider and the families listed for it, compared with
    the groups and families of the store ([counted]): every message that is
    [honest] keeps them in step. *)

From S2P Require Import Prelude Sdk Bytes SpTypes SpKeeper SpMsg VirtualGroupTypes.
From S2P Require Import VirtualGroupKeeper VirtualGroupMsg VirtualGroupFacts.
From S2P Require Import VirtualGroupEffects VirtualGroupWf VirtualGroupDeposits.

#[local] Arguments CurVal : simpl never.
#[local] Arguments NextVal : simpl never.

(** Whether a group is led by a provider, and how many of its places the
    provider has. *)
Definition led (id : Z) (g : GlobalVirtualGroup) : Z := at_id (PrimarySpId g) id.
Definition served (id : Z) (g : GlobalVirtualGroup) : Z := occurrences id (SecondarySpIds g).

(** The families listed for a provider. *)
Definition families_of (s : VgStore) (id : Z) : list Z :=
  GlobalVirtualGroupFamilyIds (GetOrCreateGVGFamilyStatisticsWithinSP id s).
Definition owned (s : VgStore) (fid id : Z) : Z :=
  match families s !! fid with Some f => at_id (fam_PrimarySpId f) id | None => 0 end.

Record counted (s : VgStore) : Prop := mkCounted {
  ct_prim : forall id, prim (gvg_stats s) id ≡₃₂ total (led id) s;
  ct_sec : forall id, sec (gvg_stats s) id ≡₃₂ total (served id) s;
  ct_owner : forall gid g f, gvgs s !! gid = Some g -> families s !! FamilyId g = Some f ->
    PrimarySpId g = fam_PrimarySpId f;
  ct_index : forall id fid, occurrences fid (families_of s id) = owned s fid id;
}.

Lemma occurrences_app x l k : occurrences x (l ++ k) = occurrences x l + occurrences x k.
Proof. apply zsum_app. Qed.
Lemma occurrences_one x y : occurrences x [y] = at_id y x.
Proof. unfold occurrences, zsum, at_id. simpl. rewrite Z.eqb_sym. destruct (x =? y); lia. Qed.
Lemma occurrences_perm x l k : l ≡ₚ k -> occurrences x l = occurrences x k.
Proof.
  unfold occurrences, zsum. induction 1; simpl; lia.
Qed.
Lemma occurrences_cons x y l : occurrences x (y :: l) = at_id y x + occurrences x l.
Proof. change (y :: l) with ([y] ++ l). by rewrite occurrences_app, occurrences_one. Qed.
Lemma remove_first_None x l : remove_first x l = None -> occurrences x l = 0.
Proof.
  induction l as [|y l IH]; cbn [remove_first]; [done|].
  destruct (Z.eqb_spec y x) as [|Hne]; [done|].
  destruct (remove_first x l); [done|]. intros _. rewrite occurrences_cons, IH by done.
  unfold at_id. destruct (Z.eqb_spec x y); [congruence|lia].
Qed.

(** The invariant read from the parts of the store it depends on. *)
Lemma counted_ext s s' :
  counted s -> gvgs s' = gvgs s -> families s' = families s -> gvg_stats s' = gvg_stats s ->
  family_stats s' = family_stats s -> counted s'.
Proof.
  intros [A B C D] Hg Hf Hst Hfs.
  constructor; unfold families_of, GetOrCreateGVGFamilyStatisticsWithinSP,
    GetGVGFamilyStatisticsWithinSP, owned, total in *;
    rewrite ?Hg, ?Hf, ?Hst, ?Hfs; done.
Qed.

(** The counters move with the sums over the groups. *)
Lemma counted_moved s s' dp ds db :
  counted s -> stats_wf (gvg_stats s) -> moved (gvg_stats s) (gvg_stats s') dp ds db ->
  (forall id, total (led id) s' = total (led id) s + dp id) ->
  (forall id, total (served id) s' = total (served id) s + ds id) ->
  (forall id, prim (gvg_stats s') id ≡₃₂ total (led id) s') /\
  (forall id, sec (gvg_stats s') id ≡₃₂ total (served id) s').
Proof.
  intros [A B _ _] Hwf Hm Hp Hs. destruct (Hm Hwf) as [_ H].
  split; intros id; destruct (H id) as (Ep & Es & _).
  - by rewrite Ep, Hp, (A id).
  - by rewrite Es, Hs, (B id).
Qed.

Lemma families_of_set (m m' : gmap Z GVGFamilyStatisticsWithinSP) s s' k l id :
  family_stats s = m -> family_stats s' = <[k := mkFamilyStat k l]> m ->
  families_of s' id = if decide (id = k) then l else families_of s id.
Proof.
  intros Hm Hm'. unfold families_of, GetOrCreateGVGFamilyStatisticsWithinSP,
    GetGVGFamilyStatisticsWithinSP. rewrite Hm', Hm.
  destruct (decide (id = k)) as [->|Hne]; [by rewrite lookup_insert_eq|].
  by rewrite lookup_insert_ne.
Qed.

Section Counts.
Context {P : Type} {HPay : PaymentKeeper P} {HAddr : Addresses} {HVg : VgAddresses}
  {HDenoms : Denoms} {HLaws : PaymentLaws P} (setup : VgSetup).
Implicit Types (ctx : SpCtx) (w : World P).

(** A provider creates groups in its own families, does not serve its own
    group, and does not swap out to itself. *)
Definition honest w (m : vg_msg) : bool :=
  match m with
  | M_Create _ req =>
      match sender w (cg_StorageProvider req) with
      | Some sp =>
          bool_decide (sp_Id sp ∉ cg_SecondarySpIds req) &&
          match families (vg w) !! cg_FamilyId req with
          | Some f => fam_PrimarySpId f =? sp_Id sp
          | None => true
          end
      | None => true
      end
  | M_CompleteSwapOut sp fid _ =>
      match sender w sp, swap_out_family (vg w) !! fid with
      | Some q, Some info => negb (so_SpId info =? sp_Id q)
      | _, _ => true
      end
  | _ => true
  end.

(** ** Creating and deleting a group *)

Lemma created_moved w w' req sp fam w1 g :
  created w w' req sp fam w1 g -> stats_wf (gvg_stats (vg w)) ->
  sp_Id sp ∉ cg_SecondarySpIds req ->
  moved (gvg_stats (vg w)) (gvg_stats (vg w')) (fun x => led x g) (fun x => served x g) none.
Proof.
  intros Hc Hwf Hnot. rewrite (cr_stats _ _ _ _ _ _ _ Hc). cbn [foldl].
  set (m := gvg_stats (vg w)) in *. destruct (stat_at_wf m (sp_Id sp) Hwf) as [Hsp _].
  cbn [StorageProviderId add_primary]. rewrite Hsp.
  eapply moved_ext; [eapply moved_trans; [apply (moved_add_primary m (sp_Id sp) 1)|
    apply (moved_batch _ _ m)]| | |].
  - apply Hc.
  - intros id Hid. rewrite stat_at_insert_ne; [done|]. by intros <-.
  - done.
  - intros x. unfold led, none. rewrite (cr_group _ _ _ _ _ _ _ Hc). simpl. lia.
  - intros x. unfold served, none. rewrite (cr_group _ _ _ _ _ _ _ Hc). done.
  - done.
Qed.

(** A provider's family for a new group is listed for it. *)
Lemma family_for_index fid sp fam w w1 :
  family_for fid sp fam w w1 -> vg_wf (vg w) -> room (vg w) -> counted (vg w) ->
  match families (vg w) !! fid with Some f => fam_PrimarySpId f =? sp | None => true end = true ->
  fam_PrimarySpId fam = sp /\
  (forall f, families (vg w) !! fam_Id fam = Some f -> f = fam) /\
  forall id k, occurrences k (families_of (vg w1) id) =
    if decide (k = fam_Id fam) then at_id sp id else owned (vg w) k id.
Proof.
  intros Hfam Hwf [_ Hroom] Hct Hown. destruct Hfam as [(_ & i & cell & Hn & -> & ->)|(_ & Hl & ->)].
  - apply next_id in Hn as [Hi _]; [|apply Hwf|done]. simpl.
    assert (families (vg w) !! i = None) as Hfresh.
    { destruct (families (vg w) !! i) as [f|] eqn:Hf; [|done].
      destruct (wf_families _ Hwf _ _ Hf) as [_ Hs _ _ _]. lia. }
    split_and!; [done|congruence|]. intros id k.
    rewrite (families_of_set (family_stats (vg w)) ∅ (vg w) _ sp
               (families_of (vg w) sp ++ [i])); [|done|].
    2: { simpl. by rewrite (family_stat_key _ sp _ Hwf eq_refl). }
    pose proof (ct_index _ Hct) as Hidx. destruct (decide (id = sp)) as [->|Hne].
    + rewrite occurrences_app, occurrences_one, Hidx. unfold owned.
      destruct (decide (k = i)) as [->|Hk].
      * rewrite Hfresh. unfold at_id. rewrite !Z.eqb_refl. lia.
      * unfold at_id at 2. rewrite (proj2 (Z.eqb_neq _ _) Hk). lia.
    + rewrite Hidx. destruct (decide (k = i)) as [->|Hk]; [|done]. unfold owned. rewrite Hfresh.
      unfold at_id. by rewrite (proj2 (Z.eqb_neq _ _) Hne).
  - rewrite Hl in Hown. apply Z.eqb_eq in Hown.
    pose proof (fw_id _ _ _ (wf_families _ Hwf _ _ Hl)) as Hid. rewrite Hid.
    split_and!; [done|congruence|]. intros id k. rewrite (ct_index _ Hct).
    destruct (decide (k = fid)) as [->|]; [|done]. unfold owned. by rewrite Hl, Hown.
Qed.

Lemma create_counted n req w u w' :
  CreateGlobalVirtualGroup n req w = (Ret u, w') -> sps_keyed (sps w) -> room (vg w) ->
  vg_wf (vg w) -> honest w (M_Create n req) = true -> counted (vg w) -> counted (vg w').
Proof.
  intros Hrun Hk Hroom Hwf Hh Hct.
  apply CreateGlobalVirtualGroup_created in Hrun as (sp & fam & w1 & g & Hc); [|done..].
  unfold honest in Hh. rewrite (cr_sender _ _ _ _ _ _ _ Hc) in Hh.
  apply andb_prop in Hh as [Hnot%bool_decide_eq_true Hown].
  pose proof (created_moved _ _ _ _ _ _ _ Hc (wf_stats _ Hwf) Hnot) as Hm.
  eapply counted_moved in Hm as [Hp Hs];
    [|done|apply Hwf|intros; by apply (total_created _ _ _ _ _ _ _ _ Hc)..].
  assert (PrimarySpId g = sp_Id sp /\ FamilyId g = fam_Id fam) as [Hgp Hgf]
    by (by rewrite (cr_group _ _ _ _ _ _ _ Hc)).
  destruct (family_for_index _ _ _ _ _ (cr_family _ _ _ _ _ _ _ Hc) Hwf Hroom Hct Hown)
    as (Hprim & Hold & Hidx).
  pose proof (cr_families _ _ _ _ _ _ _ Hc) as Hfs. constructor; [done|done| |].
  - intros gid h f. rewrite (cr_gvgs _ _ _ _ _ _ _ Hc), Hfs, lookup_insert_Some.
    intros [[_ <-]|[_ Hh']].
    + rewrite Hgf, lookup_insert_eq. intros [= <-]. simpl. congruence.
    + rewrite lookup_insert_Some. intros [[Hf <-]|[_ Hf]]; [|by eapply Hct].
      simpl. destruct (wf_gvgs _ Hwf _ _ Hh') as [_ _ _ (f & Hf' & _) _ _ _].
      rewrite <- Hf in Hf'. rewrite <- (Hold _ Hf'). eapply Hct; [done|by rewrite <- Hf].
  - intros id k. unfold families_of, GetOrCreateGVGFamilyStatisticsWithinSP,
      GetGVGFamilyStatisticsWithinSP, owned. rewrite (cr_family_stats _ _ _ _ _ _ _ Hc), Hfs.
    etrans; [apply Hidx|]. destruct (decide (k = fam_Id fam)) as [->|Hne].
    + rewrite lookup_insert_eq. simpl. by rewrite Hprim.
    + by rewrite lookup_insert_ne.
Qed.

Lemma delete_counted ctx sp id w u w' :
  DeleteGVG ctx sp id w = (Ret u, w') -> vg_wf (vg w) -> counted (vg w) -> counted (vg w').
Proof.
  intros Hrun Hwf Hct.
  apply DeleteGVG_Ret in Hrun as (g & fam & l & m' & Hg & _ & _ & Hfam & _ & Hm & Hv & _ & _);
    [|apply Hwf].
  pose proof (gw_id _ _ _ (wf_gvgs _ Hwf _ _ Hg)) as Hid.
  pose proof (fw_id _ _ _ (wf_families _ Hwf _ _ Hfam)) as Hfid.
  pose proof (ct_owner _ Hct _ _ _ Hg Hfam) as Hown.
  assert (gvgs (vg w') = delete id (gvgs (vg w))) as Hgs by (rewrite Hv, <- Hid; done).
  assert (families (vg w') = <[FamilyId g := set_fam_gvgs l fam]> (families (vg w))) as Hfs
    by (rewrite Hv, <- Hfid; done).
  assert (forall f, total f (vg w') = total f (vg w) + - f g) as Ht.
  { intros f. rewrite <- Z.sub_opp_r, Z.opp_involutive, <- (total_delete f _ _ _ Hg).
    by apply total_same. }
  assert (moved (gvg_stats (vg w)) (gvg_stats (vg w')) (fun x => - led x g)
            (fun x => - served x g) none) as Hm'.
  { rewrite Hv. eapply moved_ext; [exact Hm| |done|done]. intros x. unfold led. by rewrite Hown. }
  eapply counted_moved in Hm' as [Hp Hs]; [|done|apply Hwf|done..].
  constructor; [done|done| |].
  - intros gid h f. rewrite Hgs, Hfs, lookup_delete_Some, lookup_insert_Some.
    intros [_ Hh] [[Hf <-]|[_ Hf]]; [|by eapply Hct]. simpl. eapply Hct; [done|by rewrite <- Hf].
  - intros x k. replace (families_of (vg w') x) with (families_of (vg w) x) by (by rewrite Hv).
    rewrite (ct_index _ Hct). unfold owned. rewrite Hfs.
    destruct (decide (k = FamilyId g)) as [->|Hne].
    + by rewrite Hfam, lookup_insert_eq.
    + by rewrite lookup_insert_ne.
Qed.

(** ** Swaps *)

Lemma secondary_swapped_counted ctx old new gid broken w w' :
  secondary_swapped ctx old new gid broken w w' -> old <> new -> vg_wf (vg w) ->
  counted (vg w) -> counted (vg w').
Proof.
  intros Hs Hne Hwf Hct.
  assert (forall f, exists g i, gvgs (vg w) !! gid = Some g /\ SecondarySpIds g !! i = Some old /\
    total f (vg w') = total f (vg w) + f (set_secondaries (<[i := new]> (SecondarySpIds g)) g) - f g)
    as Ht by (intros; by eapply total_secondary_swapped).
  destruct Hs as [_ (g & i & m' & Hg & _ & _ & Hv & Hm & _)]. specialize (Hm Hne).
  assert (gvg_stats (vg w') = m') as Hst by (by rewrite Hv). rewrite <- Hst in Hm.
  eapply counted_moved in Hm as [Hp Hse]; [|done|apply Hwf| |].
  - pose proof (gw_id _ _ _ (wf_gvgs _ Hwf _ _ Hg)) as Hid.
    constructor; [done|done| |].
    + intros k h f. rewrite Hv. simpl. rewrite Hid, lookup_insert_Some.
      intros [[_ <-]|[_ Hh]]; simpl; by eapply Hct.
    + intros id k. rewrite Hv. apply Hct.
  - intros id. destruct (Ht (led id)) as (h & j & _ & _ & ->). unfold led, none. simpl. lia.
  - intros id. destruct (Ht (served id)) as (h & j & _ & Hj & ->). unfold served. simpl.
    rewrite (occurrences_insert _ _ _ old) by done. unfold at_id.
    rewrite (Z.eqb_sym old id), (Z.eqb_sym new id). lia.
Qed.

(** The counters after a swap of primary providers. *)
Lemma primary_swapped_stats ctx p q fid w w' :
  primary_swapped ctx p q fid w w' -> vg_wf (vg w) -> sp_Id p <> sp_Id q ->
  exists fam, families (vg w) !! fid = Some fam /\ forall id,
    prim (gvg_stats (vg w')) id ≡₃₂ prim (gvg_stats (vg w)) id +
      (at_id (sp_Id q) id - at_id (sp_Id p) id) * Z.of_nat (length (GlobalVirtualGroupIds fam)) /\
    sec (gvg_stats (vg w')) id = sec (gvg_stats (vg w)) id.
Proof.
  intros [_ _ (fam & l & src & src' & dst' & t & w1 & Hfam & _ & Hsrc & Heff & _ & _ & Hst & _)]
    Hwf Hne. exists fam. split; [done|]. intros id.
  pose proof (wf_stats _ Hwf) as Hm. destruct (Hm _ _ Hsrc) as [Is _].
  destruct (stat_at_wf _ (sp_Id q) Hm) as [Id _].
  destruct Heff as [_ _ _ (_ & Hids & Hps & Hss) (_ & Hidd & Hpd & Hsd) _].
  unfold prim, sec, at_id in *. rewrite Hst, Hids, Hidd, Is, Id.
  destruct (Z.eqb_spec id (sp_Id q)) as [->|Hq].
  - rewrite (proj2 (Z.eqb_neq _ _) (not_eq_sym Hne)), stat_at_insert_eq, Hpd, Hsd.
    by rewrite Z.sub_0_r, Z.mul_1_l.
  - rewrite stat_at_insert_ne by done. destruct (Z.eqb_spec id (sp_Id p)) as [->|Hp].
    + rewrite stat_at_insert_eq, Hps, Hss. unfold stat_at. rewrite Hsrc. simpl.
      split; [|done]. by rewrite Z.mul_opp_l, Z.mul_1_l.
    + rewrite stat_at_insert_ne by done. by rewrite Z.mul_0_l, Z.add_0_r.
Qed.

Lemma primary_swapped_index ctx p q fid w w' id :
  primary_swapped ctx p q fid w w' -> vg_wf (vg w) -> sp_Id p <> sp_Id q -> counted (vg w) ->
  forall k, occurrences k (families_of (vg w') id) = owned (vg w') k id.
Proof.
  intros [_ _ (fam & l & src & src' & dst' & t & w1 & Hfam & Hown & _ & _ & _ & Hf & _ & Ht & Hfs & _)]
    Hwf Hne Hct k. pose proof (fw_id _ _ _ (wf_families _ Hwf _ _ Hfam)) as Hfid.
  pose proof (wf_family_stats _ Hwf _ _ Ht) as It. rewrite It, Ht in Hfs. simpl in Hfs.
  rewrite (family_stat_key _ (sp_Id q) _ Hwf eq_refl), Hfid, It in Hfs.
  pose proof (ct_index _ Hct) as Hidx.
  assert (families_of (vg w) (sp_Id p) = GlobalVirtualGroupFamilyIds t) as Hof.
  { unfold families_of, GetOrCreateGVGFamilyStatisticsWithinSP, GetGVGFamilyStatisticsWithinSP.
    by rewrite Ht. }
  assert (occurrences fid (GlobalVirtualGroupFamilyIds t) = 1) as Hocc.
  { rewrite <- Hof, Hidx. unfold owned. rewrite Hfam, Hown. unfold at_id. by rewrite Z.eqb_refl. }
  destruct (remove_first fid _) as [l'|] eqn:Hrem; [|apply remove_first_None in Hrem; lia].
  apply remove_first_Some in Hrem.
  assert (families_of (vg w') id = if decide (id = sp_Id q) then families_of (vg w) id ++ [fid]
    else if decide (id = sp_Id p) then l' else families_of (vg w) id) as ->.
  { rewrite (families_of_set (<[sp_Id p := mkFamilyStat (sp_Id p) l']> (family_stats (vg w))) ∅
      (on_family_stats (insert (sp_Id p) (mkFamilyStat (sp_Id p) l')) (vg w)) _ _ _ id eq_refl Hfs).
    destruct (decide (id = sp_Id q)) as [->|]; [done|].
    by rewrite (families_of_set (family_stats (vg w)) ∅ (vg w) _ (sp_Id p) l' id). }
  unfold owned. rewrite Hf, Hfid. specialize (Hidx id k). unfold owned in Hidx.
  destruct (decide (k = fid)) as [->|Hk]; [rewrite lookup_insert_eq|rewrite lookup_insert_ne by done].
  - rewrite Hfam, Hown in Hidx. cbn [fam_PrimarySpId set_fam_primary]. unfold at_id in *.
    destruct (decide (id = sp_Id q)) as [->|Hq].
    + rewrite occurrences_app, occurrences_one, Hidx. unfold at_id. rewrite !Z.eqb_refl.
      by rewrite (proj2 (Z.eqb_neq _ _) (not_eq_sym Hne)).
    + rewrite (proj2 (Z.eqb_neq _ _) Hq). destruct (decide (id = sp_Id p)) as [->|Hp].
      * rewrite (occurrences_perm _ _ _ Hrem), occurrences_cons in Hocc. unfold at_id in Hocc.
        rewrite Z.eqb_refl in Hocc. lia.
      * by rewrite (proj2 (Z.eqb_neq _ _) Hp) in Hidx.
  - rewrite <- Hidx. destruct (decide (id = sp_Id q)) as [->|Hq].
    + rewrite occurrences_app, occurrences_one. unfold at_id.
      rewrite (proj2 (Z.eqb_neq _ _) Hk). lia.
    + destruct (decide (id = sp_Id p)) as [->|Hp]; [|done].
      rewrite Hof, (occurrences_perm _ _ _ Hrem), occurrences_cons. unfold at_id.
      by rewrite (proj2 (Z.eqb_neq _ _) Hk).
Qed.

Lemma primary_swapped_counted ctx p q fid w w' :
  primary_swapped ctx p q fid w w' -> vg_wf (vg w) -> sp_Id p <> sp_Id q ->
  counted (vg w) -> counted (vg w').
Proof.
  intros Hs Hwf Hne Hct.
  pose proof (fun id => primary_swapped_index _ _ _ _ _ _ id Hs Hwf Hne Hct) as Hidx.
  destruct (primary_swapped_stats _ _ _ _ _ _ Hs Hwf Hne) as (fam & Hfam & Hst).
  assert (forall id, total (led id) (vg w') = total (led id) (vg w) +
    (at_id (sp_Id q) id - at_id (sp_Id p) id) * Z.of_nat (length (GlobalVirtualGroupIds fam))) as Hl.
  { intros id. destruct (total_primary_swapped (led id) (at_id (sp_Id q) id - at_id (sp_Id p) id)
      _ _ _ _ _ _ Hs Hwf) as (fam' & Hfam' & ->); [|by simplify_eq].
    intros g <-. unfold led. simpl. lia. }
  assert (forall id, total (served id) (vg w') = total (served id) (vg w)) as Hse.
  { intros id. destruct (total_primary_swapped (served id) 0 _ _ _ _ _ _ Hs Hwf)
      as (fam' & Hfam' & ->); [intros; unfold served; simpl; lia|lia]. }
  constructor; [| | |done].
  - intros id. destruct (Hst id) as [-> _]. by rewrite Hl, (ct_prim _ Hct).
  - intros id. destruct (Hst id) as [_ ->]. by rewrite Hse, (ct_sec _ Hct).
  - destruct Hs as [_ _ (f0 & l & src & src' & dst' & t & w1 & Hf0 & Hown & _ & Heff & Hg & Hf & _)].
    rewrite Hfam in Hf0. injection Hf0 as <-. destruct (wf_families _ Hwf _ _ Hfam) as [Hfid _ _ _ Hgs].
    intros gid h f. rewrite Hg, Hf, Hfid.
    rewrite (handed_over_lookup (vg w) (sp_Id p) (sp_Id q) (GlobalVirtualGroupIds fam));
      [|intros; by eapply gw_id, wf_gvgs|apply Heff].
    destruct (decide (gid ∈ GlobalVirtualGroupIds fam)) as [Hin|Hin].
    + destruct (Hgs _ Hin) as (g & Hgg & Hgf). rewrite Hgg. intros [= <-]. simpl.
      rewrite Hgf, lookup_insert_eq. by intros [= <-].
    + intros Hh. rewrite lookup_insert_Some. intros [[Hf' <-]|[_ Hf']]; [|by eapply Hct].
      destruct (wf_gvgs _ Hwf _ _ Hh) as [_ _ _ (f & Hl' & Hin') _ _ _]. congruence.
Qed.

(** ** The messages *)

(** A write of a group that keeps its providers. *)
Lemma counted_SetGVG s g g' :
  counted s -> gvgs s !! gvg_Id g' = Some g -> PrimarySpId g' = PrimarySpId g ->
  SecondarySpIds g' = SecondarySpIds g -> FamilyId g' = FamilyId g -> counted (SetGVG g' s).
Proof.
  intros Hct Hg Hp Hs Hf. constructor; simpl.
  - intros id. rewrite (total_SetGVG _ _ _ _ Hg), (ct_prim _ Hct). unfold led. rewrite Hp.
    by rewrite Z.add_simpl_r.
  - intros id. rewrite (total_SetGVG _ _ _ _ Hg), (ct_sec _ Hct). unfold served. rewrite Hs.
    by rewrite Z.add_simpl_r.
  - intros k h f. rewrite lookup_insert_Some. intros [[_ <-]|[_ Hh]]; [|by eapply Hct].
    rewrite Hp, Hf. by eapply Hct.
  - apply Hct.
Qed.

Definition tables w := (gvgs (vg w), families (vg w), gvg_stats (vg w), family_stats (vg w)).

Lemma tables_counted w w' : tables w' = tables w -> counted (vg w) -> counted (vg w').
Proof. intros [= Hg Hf Hst Hfs] Hct. by eapply counted_ext. Qed.

Lemma keeps_tables_operator_sp text : keeps tables (operator_sp text).
Proof. unfold operator_sp, VirtualGroupMsg.MustAccAddressFromHex. frame. Qed.
Hint Resolve keeps_tables_operator_sp : frames.
Lemma keeps_tables_vg {A} (c : M (World P) vg_error A) : keeps vg c -> keeps tables c.
Proof. intros Hk w. unfold tables. by rewrite (Hk w). Qed.
Lemma keeps_tables_reserve_gvgs ids info : keeps tables (reserve_gvgs ids info).
Proof. induction ids; simpl; unfold on_vg; frame. Qed.
Lemma keeps_tables_cancel_gvgs ids spID : keeps tables (cancel_gvgs ids spID).
Proof. induction ids; simpl; unfold on_vg; frame. Qed.
Hint Resolve keeps_tables_reserve_gvgs keeps_tables_cancel_gvgs : frames.

Lemma keeps_tables_messages ctx m :
  match m with
  | M_UpdateParams _ _ | M_SwapOut _ | M_CancelSwapOut _ _ _ | M_Settle _ | M_Exit _
  | M_CompleteExit _ | M_ForcedExit _ _ | M_ReserveSwapIn _ _ _ _ | M_CancelSwapIn _ _ _ =>
      keeps tables (handle setup ctx m)
  | _ => True
  end.
Proof.
  destruct m; try exact I; simpl.
  - unfold VgUpdateParams, VirtualGroupMsg.SetParams, on_vg. frame.
  - unfold SwapOut, FindStorageProvider, SetSwapOutInfo, on_vg. frame.
  - unfold CancelSwapOut, DeleteSwapOutInfo, on_vg. frame.
  - apply keeps_tables_vg, keeps_vg_Settle.
  - apply keeps_tables_vg, keeps_vg_exit.
  - apply keeps_tables_vg, keeps_vg_complete_exit.
  - apply keeps_tables_vg, keeps_vg_forced_exit.
  - unfold ReserveSwapIn, FindStorageProvider, validity_period, SwapIn, reserve_family, reserve_gvg,
      on_vg. frame.
  - unfold CancelSwapIn, DeleteSwapInInfo, on_vg. frame.
    intros w. by destruct (negb _).
Qed.

Lemma deposit_counted req w u w' :
  VgDeposit req w = (Ret u, w') -> vg_wf (vg w) -> counted (vg w) -> counted (vg w').
Proof.
  unfold VgDeposit, on_vg. intros Hrun Hwf Hct.
  apply bind_Ret in Hrun as (sp & ? & [-> _]%operator_or_funding_sp_Ret & Hrun).
  mstep Hrun. mstep Hrun. rename x into g, Hx into Hg. destruct (vd_Deposit req) as [d amount].
  mstep Hrun. mstep Hrun.
  apply bind_Ret in Hrun as ([] & ? & (p' & _ & ->)%vg_transfer_Ret & Hrun). mstep Hrun.
  apply (counted_SetGVG _ g); [done| |done..]. simpl.
  by rewrite (gw_id _ _ _ (wf_gvgs _ Hwf _ _ Hg)).
Qed.

Lemma withdraw_counted req w u w' :
  VgWithdraw req w = (Ret u, w') -> vg_wf (vg w) -> counted (vg w) -> counted (vg w').
Proof.
  unfold VgWithdraw, GetAvailableStakingTokens, GVGStakingPerBytes, on_vg. intros Hrun Hwf Hct.
  apply bind_Ret in Hrun as (sp & ? & [-> _]%operator_or_funding_sp_Ret & Hrun).
  mstep Hrun. mstep Hrun. rename x into g, Hx into Hg. mstep Hrun.
  destruct (vw_Withdraw req) as [d amount]. mstep Hrun.
  apply bind_Ret in Hrun as (avail & w1 & Hav & Hrun).
  apply bind_Ret in Hav as (price & w0 & Hprice & Hav). msteps Hprice. msteps Hav.
  destruct (_ <? 0); [by minv|]. apply bind_Ret in Hrun as (tokens & w1 & Ht & Hrun).
  assert (w1 = w) as -> by (destruct (amount =? 0); by msteps Ht). mstep Hrun.
  apply bind_Ret in Hrun as ([] & ? & (p' & _ & ->)%vg_transfer_Ret & Hrun). mstep Hrun.
  apply (counted_SetGVG _ g); [done| |done..]. simpl.
  by rewrite (gw_id _ _ _ (wf_gvgs _ Hwf _ _ Hg)).
Qed.

Lemma complete_gvgs_counted ctx ids q w u w' :
  complete_gvgs ctx ids q w = (Ret u, w') -> vg_wf (vg w) -> counted (vg w) -> counted (vg w').
Proof.
  revert w. induction ids as [|id ids IH]; simpl; unfold on_vg; intros w Hrun Hwf Hct;
    [by msteps Hrun|].
  mstep Hrun. mstep Hrun. mstep Hrun.
  apply bind_Ret in Hrun as (p & ? & [-> _]%FindStorageProvider_Ret & Hrun).
  apply bind_Ret in Hrun as (u1 & w1 & Hswap & Hrun). mstep Hrun.
  apply SwapOutAsSecondarySP_Ret in Hswap as [Hne Hswap]; [|apply Hwf].
  eapply IH; [done| |].
  - by apply vg_wf_swap_out_gvg, (secondary_swapped_wf _ _ _ _ _ _ _ Hswap).
  - eapply tables_counted; [|by eapply secondary_swapped_counted]. done.
Qed.

Lemma complete_swap_out_counted ctx sp fid ids w u w' :
  CompleteSwapOut ctx sp fid ids w = (Ret u, w') -> sps_keyed (sps w) -> vg_wf (vg w) ->
  honest w (M_CompleteSwapOut sp fid ids) = true -> counted (vg w) -> counted (vg w').
Proof.
  unfold CompleteSwapOut, Keeper_CompleteSwapOut, on_vg. intros Hrun Hk Hwf Hh Hct.
  apply bind_Ret in Hrun as (q & ? & [-> Hq]%operator_sp_Ret & Hrun).
  destruct (negb _); [|by eapply complete_gvgs_counted].
  mstep Hrun. mstep Hrun. rename x into info, Hx into Hinfo. mstep Hrun.
  apply bind_Ret in Hrun as (p & ? & [-> Hp]%FindStorageProvider_Ret & Hrun).
  apply bind_Ret in Hrun as (u1 & w1 & Hswap%SwapAsPrimarySP_Ret & Hrun). mstep Hrun.
  simpl in Hh. rewrite Hq, Hinfo in Hh. apply negb_true_iff, Z.eqb_neq in Hh.
  eapply (tables_counted w1); [done|]. eapply primary_swapped_counted; [done|done| |done].
  by rewrite (Hk _ _ Hp).
Qed.

Lemma complete_swap_in_counted ctx sp fid gid w u w' :
  CompleteSwapIn ctx sp fid gid w = (Ret u, w') -> sps_keyed (sps w) -> vg_wf (vg w) ->
  counted (vg w) -> counted (vg w').
Proof.
  unfold CompleteSwapIn, Keeper_CompleteSwapIn, on_vg. intros Hrun Hk Hwf Hct.
  apply bind_Ret in Hrun as (q & ? & [-> _]%operator_sp_Ret & Hrun). mstep Hrun.
  destruct (negb _); mstep Hrun; rename x into info, Hx into Hinfo; mstep Hrun;
    apply negb_false_iff, Z.eqb_eq in Hx; rename Hx into Hq;
    apply bind_Ret in Hrun as (p & ? & [-> Hp]%FindStorageProvider_Ret & Hrun);
    apply bind_Ret in Hrun as (u1 & w1 & Hswap & Hrun); mstep Hrun;
    apply (tables_counted w1); try done; apply Hk in Hp.
  - apply SwapAsPrimarySP_Ret in Hswap. eapply primary_swapped_counted; [done|done| |done].
    rewrite Hp, Hq. by apply not_eq_sym, (wf_swap_in_family _ Hwf _ _ Hinfo).
  - apply completeSwapInGVG_Ret in Hswap; [|apply Hwf].
    eapply secondary_swapped_counted; [done| |done|done].
    rewrite Hp, Hq. by apply not_eq_sym, (wf_swap_in_gvg _ Hwf _ _ Hinfo).
Qed.

(** Every honest message keeps the statistics exact. *)
Lemma handle_counted ctx m w u w' :
  handle setup ctx m w = (Ret u, w') -> sps_keyed (sps w) -> room (vg w) -> vg_wf (vg w) ->
  honest w m = true -> counted (vg w) -> counted (vg w').
Proof.
  intros Hrun Hk Hroom Hwf Hh Hct. pose proof (keeps_tables_messages ctx m) as Ht.
  destruct m; simpl in Hrun;
    try (eapply tables_counted; [exact (keeps_run _ _ _ _ _ Ht Hrun)|done]).
  - by eapply create_counted.
  - unfold DeleteGlobalVirtualGroup in Hrun.
    apply bind_Ret in Hrun as (p & ? & [-> _]%operator_sp_Ret & Hrun). by eapply delete_counted.
  - by eapply deposit_counted.
  - by eapply withdraw_counted.
  - by eapply complete_swap_out_counted.
  - by eapply complete_swap_in_counted.
Qed.
End Counts.
