(* ===== verification/VirtualGroupPayment.v ===== *)
(** * x/virtualgroup over x/payment

    The payment module of this development implements the interface
    x/virtualgroup settles with: its functions are a [PaymentKeeper] and, over
    a bank that moves coins, obey [PaymentLaws].  A message is not a forced
    operation, so a query or withdrawal never settles another account. *)

From S2P Require Import Prelude Sdk VirtualGroupTypes.
From S2P Require Import PaymentTypes PaymentStore PaymentStream PaymentStreamFacts.

Section Payment.
Context {B : Type} {HBank : BankKeeper B} {HAddr : Addresses}.
Implicit Types (s : State B).

Definition message_ctx (time : Z) : Ctx := mkCtx time false.

Definition over_bank (send : B -> option B) s : option (State B) :=
  (fun b => with_bank b s) <$> send (bank s).

#[export] Instance payment_keeper : PaymentKeeper (State B) := {
  pk_GetBalance s := GetBalance (bank s);
  pk_SendCoinsFromAccountToModule s a m cs :=
    over_bank (fun b => SendCoinsFromAccountToModule b a m cs) s;
  pk_SendCoinsFromModuleToAccount s m a cs :=
    over_bank (fun b => SendCoinsFromModuleToAccount b m a cs) s;
  pk_SendCoins s a a' cs := over_bank (fun b => SendCoins b a a' cs) s;
  pk_FeeDenom s := FeeDenom (GetParams s);
  pk_Error := error;
  pk_QueryDynamicBalance time := QueryDynamicBalance (message_ctx time);
  pk_Withdraw time := Keeper_Withdraw (message_ctx time);
  pk_IsEmptyNetFlow time := IsEmptyNetFlow (message_ctx time);
}.

(** An update outside a forced operation moves coins at most from the account
    to the module. *)
Lemma update_unforced fuel time r ch s r' s' :
  UpdateStreamRecord fuel (message_ctx time) r ch s = (Ret r', s') ->
  params s' = params s /\ exists amt, paid_from (params s) (Account r) (bank s) (bank s') amt.
Proof.
  intros Hrun. destruct (Status r) eqn:Hst.
  - apply UpdateStreamRecord_active in Hrun as (f & _ & [amt b' ts Hpaid r1 _ _ _ _ ->|]); [|done..].
    rewrite bank_auto_settle. destruct (frame_auto_settle (Account r) (SettleTimestamp r) ts
      (with_bank b' s)) as [-> _]. split; [done|by exists amt].
  - by apply UpdateStreamRecord_frozen in Hrun as [? _].
Qed.

Context {HLaws : BankLaws B}.

Lemma paid_from_frame p a b b' amt c d :
  paid_from p a b b' amt -> c <> a -> c <> ModuleAddress ModuleName ->
  GetBalance b' c d = GetBalance b c d.
Proof.
  intros [[_ ->]|[_ Hsend]] Ha Hm; [done|].
  rewrite (send_a2m _ _ _ _ _ Hsend), !decide_False by done. lia.
Qed.

Lemma query_frame time a s v s' :
  QueryDynamicBalance (message_ctx time) a s = (Ret v, s') ->
  params s' = params s /\ forall b d, b <> a -> b <> ModuleAddress ModuleName ->
    GetBalance (bank s') b d = GetBalance (bank s) b d.
Proof.
  unfold QueryDynamicBalance, GetStreamRecord. intros Hrun. mstep Hrun.
  destruct (stream_records s !! a) as [r|]; cbn [negb] in Hrun; [|by msteps Hrun].
  apply bind_Ret in Hrun as (r' & s1 & Hupd & Hrun). msteps Hrun.
  apply update_unforced in Hupd as (Hp & amt & Hpaid). split; [done|].
  intros b d Ha Hm. by apply (paid_from_frame _ _ _ _ _ _ _ Hpaid).
Qed.

Lemma withdraw_pays time a to x s s' :
  Keeper_Withdraw (message_ctx time) a to x s = (Ret tt, s') ->
  params s' = params s /\ forall b d, b <> a -> b <> ModuleAddress ModuleName ->
    GetBalance (bank s') b d = GetBalance (bank s) b d +
      (if decide (b = to /\ d = FeeDenom (params s)) then x else 0).
Proof.
  unfold Keeper_Withdraw, GetStreamRecord, SetStreamRecord, GetParams. intros Hrun. mstep Hrun.
  destruct (stream_records s !! a) as [r|]; mstep Hrun; [|done].
  apply bind_Ret in Hrun as (r' & s1 & (Hp & amt & Hpaid)%update_unforced & Hrun).
  apply bind_Ret in Hrun as (u & s2 & Hset & Hrun).
  destruct (CheckStreamRecord r'); [|done]. mstep Hset. mstep Hrun. simpl in Hrun.
  rewrite Hp in Hrun. destruct (NewCoins _ x) as [coins|] eqn:Hc; [|done].
  assert (exists b', moves (bank s1) b' (ModuleAddress ModuleName) to coins /\
    bank s' = b' /\ params s' = params s1) as (b' & Hm & <- & ->).
  { destruct (Z.eqb_spec to (ModuleAddress DistrModuleName)) as [->|];
      (case_match eqn:Hsend; [|done]); mstep Hrun; eexists; split_and!;
      try done; [by apply send_m2m|by apply send_m2a]. }
  split; [done|]. intros b d Ha Hb. rewrite (Hm b d), (decide_False (P := b = ModuleAddress _)) by done.
  rewrite (paid_from_frame _ _ _ _ _ _ _ Hpaid) by done.
  rewrite (AmountOf_NewCoins _ _ _ _ Hc). repeat case_decide; naive_solver lia.
Qed.

#[export] Instance payment_laws : PaymentLaws (State B).
Proof.
  assert (forall (send : B -> option B) s s' src dst cs,
    (forall b b', send b = Some b' -> moves b b' src dst cs) ->
    over_bank send s = Some s' -> pk_moves s s' src dst cs) as Hsend.
  { intros send s s' src dst cs Hmv. unfold over_bank.
    destruct (send (bank s)) as [b'|] eqn:Hb; [|done]. intros [= <-]. exact (Hmv _ _ Hb). }
  constructor; simpl.
  - intros p a m cs p'. apply Hsend. intros b b'. apply send_a2m.
  - intros p m a cs p'. apply Hsend. intros b b'. apply send_m2a.
  - intros p a a' cs p'. apply Hsend. intros b b'. apply send_a2a.
  - intros t a p v p' b d [_ Hq]%query_frame. apply Hq.
  - intros t a p v p' [Hp _]%query_frame. unfold GetParams. by rewrite Hp.
  - intros t a to x p p' b d [_ Hw]%withdraw_pays. apply Hw.
  - intros t a to x p p' [Hp _]%withdraw_pays. unfold GetParams. by rewrite Hp.
Qed.
End Payment.
