(* ===== verification/VirtualGroupReach.v ===== *)
(** * x/virtualgroup: reachable states

    The module's life as a step relation: messages, the sizes x/storage
    writes into the groups, and whatever the other modules do to providers
    and payments.  By rule induction every reachable store is well formed
    and its statistics are exact; so a provider that completes its exit
    serves no group any more. *)

From S2P Require Import Prelude Sdk Bytes SpTypes SpKeeper SpMsg SpFacts VirtualGroupTypes.
From S2P Require Import VirtualGroupKeeper VirtualGroupMsg VirtualGroupFacts.
From S2P Require Import VirtualGroupEffects VirtualGroupWf VirtualGroupDeposits VirtualGroupCounts.

#[local] Arguments CurVal : simpl never.
#[local] Arguments NextVal : simpl never.

Section Reach.
Context {P : Type} {HPay : PaymentKeeper P} {HAddr : Addresses} {HVg : VgAddresses}
  {HDenoms : Denoms} {HLaws : PaymentLaws P} (setup : VgSetup).
Implicit Types (ctx : SpCtx) (w : World P) (s : VgStore).

(** ** What the messages do to the providers *)

(** A message leaves the providers alone, changes the status of its sender or
    lets it exit. *)
Definition sps_effect (st st' : SpStore) : Prop :=
  st' = st \/ exists a sp, GetStorageProviderByOperatorAddr a st = Some sp /\
    (st' = Exit sp st \/ exists v, st' = SetStorageProvider (set_sp_status v sp) st).

Definition sps_affected {A} (c : M (World P) vg_error A) : Prop :=
  forall w a w', c w = (Ret a, w') -> sps_effect (sps w) (sps w').

Lemma sps_affected_keeps {A} (c : M (World P) vg_error A) : keeps sps c -> sps_affected c.
Proof. intros Hk w a w' Hrun. left. exact (keeps_run _ _ _ _ _ Hk Hrun). Qed.

Lemma sender_operator w text sp :
  sender w text = Some sp -> exists a, GetStorageProviderByOperatorAddr a (sps w) = Some sp.
Proof. unfold sender. destruct (AccAddressFromHexUnsafe text); [eauto|done]. Qed.

Lemma exit_affected sp : sps_affected (StorageProviderExit sp).
Proof.
  unfold StorageProviderExit, max_exits. intros w u w' Hrun.
  apply bind_Ret in Hrun as (p & ? & [-> (a & Hp)%sender_operator]%operator_sp_Ret & Hrun).
  do 3 mstep Hrun. apply bind_Ret in Hrun as (n & w1 & Hn & Hrun). mstep Hn.
  destruct (is_u64 _); [|done]. msteps Hn. msteps Hrun. right. exists a, p. split; [done|]. right.
  by eexists.
Qed.

Lemma forced_exit_affected a b sp : sps_affected (StorageProviderForcedExit a b sp).
Proof.
  unfold StorageProviderForcedExit, max_exits. intros w u w' Hrun. mstep Hrun.
  apply bind_Ret in Hrun as (p & ? & [-> (x0 & Hp)%sender_operator]%operator_sp_Ret & Hrun).
  mstep Hrun. apply bind_Ret in Hrun as (n & w1 & Hn & Hrun). mstep Hn.
  destruct (is_u64 _); [|done]. msteps Hn. msteps Hrun. right. exists x0, p. split; [done|]. right.
  by eexists.
Qed.

(** What a completed exit does. *)
Lemma complete_exit_Ret text w u w' :
  CompleteStorageProviderExit text w = (Ret u, w') ->
  exists sp coins, sender w text = Some sp /\ is_exiting sp = true /\
    StorageProviderExitable (sp_Id sp) (vg w) = true /\ vg w' = vg w /\
    sps w' = Exit sp (sps w) /\
    NewCoins (DepositDenomForSP (sps w)) (sp_TotalDeposit sp) = Some coins /\
    pk_SendCoinsFromModuleToAccount (pay w) SpModuleName
      (if bool_decide (sp_Status sp = STATUS_GRACEFUL_EXITING) then FundingAddress sp
       else PaymentGovernanceAddress) coins = Some (pay w').
Proof.
  unfold CompleteStorageProviderExit. intros Hrun.
  apply bind_Ret in Hrun as (sp & ? & [-> Hs]%operator_sp_Ret & Hrun).
  mstep Hrun. mstep Hrun. mstep Hrun. mstep Hrun.
  apply bind_Ret in Hrun as ([] & ? & (p' & Hsend & ->)%vg_transfer_Ret & Hrun). mstep Hrun.
  exists sp, x. split_and!; try done; by apply negb_false_iff.
Qed.

Hint Resolve keeps_sps_settle_gvg keeps_sps_settle_family keeps_sps_transfer : frames.
Lemma keeps_sps_operator_sp text : keeps (@sps P) (operator_sp text).
Proof. unfold operator_sp, VirtualGroupMsg.MustAccAddressFromHex. frame. Qed.
Lemma keeps_sps_operator_or_funding_sp text : keeps (@sps P) (operator_or_funding_sp text).
Proof. unfold operator_or_funding_sp, VirtualGroupMsg.MustAccAddressFromHex. frame. Qed.
Lemma keeps_sps_FindStorageProvider id : keeps (@sps P) (FindStorageProvider id).
Proof. unfold FindStorageProvider. frame. Qed.
Hint Resolve keeps_sps_operator_sp keeps_sps_operator_or_funding_sp keeps_sps_FindStorageProvider
  : frames.
Lemma keeps_sps_stat id : keeps (@sps P) (MustGetGVGStatisticsWithinSP id).
Proof. unfold MustGetGVGStatisticsWithinSP. frame. Qed.
Lemma keeps_sps_on_vg f : keeps (@sps P) (on_vg f).
Proof. unfold on_vg. frame. Qed.
Hint Resolve keeps_sps_stat keeps_sps_on_vg : frames.

Lemma keeps_sps_leave l : keeps (@sps P) (leave_secondaries l).
Proof. induction l; simpl; frame. Qed.
Lemma keeps_sps_join l : keeps (@sps P) (join_secondaries l).
Proof. induction l; simpl; frame. Qed.
Lemma keeps_sps_duplicates l new : keeps (@sps P) (check_duplicates l new).
Proof. induction l; simpl; frame. by intros w. Qed.
Lemma keeps_sps_swap_primaries p q b l src dst : keeps (@sps P) (swap_primaries p q b l src dst).
Proof. revert src dst. induction l as [|id l IH]; intros src dst; simpl; [frame|]. frame. Qed.
Lemma keeps_sps_settle_gvgs ctx l : keeps (@sps P) (settle_gvgs ctx l).
Proof. induction l; simpl; frame. Qed.
Lemma keeps_sps_reserve_gvgs ids info : keeps (@sps P) (reserve_gvgs ids info).
Proof. induction ids; simpl; frame. Qed.
Lemma keeps_sps_cancel_gvgs ids spID : keeps (@sps P) (cancel_gvgs ids spID).
Proof. induction ids; simpl; frame. Qed.
Hint Resolve keeps_sps_leave keeps_sps_join keeps_sps_duplicates keeps_sps_swap_primaries
  keeps_sps_settle_gvgs keeps_sps_reserve_gvgs keeps_sps_cancel_gvgs : frames.
Lemma keeps_sps_swap_primary ctx p q fid b : keeps (@sps P) (SwapAsPrimarySP ctx p q fid b).
Proof.
  unfold SwapAsPrimarySP, MustGetGVGFamilyStatisticsWithinSP, DeleteSpecificGVGFamilyStatisticsFromSP,
    MustGetGVGFamilyStatisticsWithinSP. frame.
Qed.
Lemma keeps_sps_swap_secondary ctx p q gid : keeps (@sps P) (SwapOutAsSecondarySP ctx p q gid).
Proof. unfold SwapOutAsSecondarySP. frame. Qed.
Lemma keeps_sps_swap_in_gvg ctx p q gid : keeps (@sps P) (completeSwapInGVG ctx p q gid).
Proof. unfold completeSwapInGVG. frame. Qed.
Hint Resolve keeps_sps_swap_primary keeps_sps_swap_secondary keeps_sps_swap_in_gvg : frames.
Lemma keeps_sps_complete_gvgs ctx ids q : keeps (@sps P) (complete_gvgs ctx ids q).
Proof. induction ids; simpl; frame. Qed.
Hint Resolve keeps_sps_complete_gvgs : frames.

Lemma complete_exit_affected text : sps_affected (CompleteStorageProviderExit text).
Proof.
  intros w u w' (sp & coins & (a & Hs)%sender_operator & _ & _ & _ & -> & _)%complete_exit_Ret.
  right. exists a, sp. auto.
Qed.

Lemma handle_sps ctx m : sps_affected (handle setup ctx m).
Proof.
  destruct m; simpl; try apply exit_affected; try apply forced_exit_affected;
    try apply complete_exit_affected; apply sps_affected_keeps.
  - unfold VgUpdateParams, VirtualGroupMsg.SetParams. frame.
  - unfold CreateGlobalVirtualGroup, GetOrCreateEmptyGVGFamily, GenNextGVGFamilyID, GenNextGVGID. frame.
  - unfold DeleteGlobalVirtualGroup, DeleteGVG. frame.
  - unfold VgDeposit. frame.
  - unfold VgWithdraw, GetAvailableStakingTokens, GVGStakingPerBytes. frame.
  - unfold SwapOut, SetSwapOutInfo. frame.
  - unfold CancelSwapOut, DeleteSwapOutInfo. frame.
  - unfold CompleteSwapOut, Keeper_CompleteSwapOut. frame.
  - unfold Settle. frame.
  - unfold ReserveSwapIn, validity_period, SwapIn, reserve_family, reserve_gvg. frame.
  - unfold CancelSwapIn, DeleteSwapInInfo. frame.
  - unfold CompleteSwapIn, Keeper_CompleteSwapIn. frame.
Qed.

Lemma handle_keyed ctx m w u w' :
  handle setup ctx m w = (Ret u, w') -> sps_keyed (sps w) -> sps_keyed (sps w').
Proof.
  intros [->|(a & sp & _ & [-> |(v & ->)])]%handle_sps Hk; [done| |]; intros id q; simpl.
  - rewrite lookup_delete_Some. intros [_ Hq]. by apply Hk.
  - rewrite lookup_insert_Some. intros [[<- <-]|[_ Hq]]; [done|by apply Hk].
Qed.

Lemma handle_registry ctx m w u w' :
  handle setup ctx m w = (Ret u, w') -> registry (sps w) -> registry (sps w').
Proof.
  intros [->|(a & sp & Hf & Hst)]%handle_sps Hreg; [done|].
  apply find_operator in Hf as [_ Hp]; [|done].
  destruct Hst as [-> |(v & ->)]; [by apply registry_Exit|by apply (registry_write _ sp)].
Qed.

(** ** Steps *)

Inductive vg_step : World P -> World P -> Prop :=
| step_message ctx m w w' :
    handle setup ctx m w = (Ret tt, w') -> honest w m = true -> room (vg w) -> vg_step w w'
| step_stored gid g size w :
    gvgs (vg w) !! gid = Some g -> 0 <= size < two63 ->
    staking_price (vg w) * size <= gvg_TotalDeposit g ->
    vg_step w (with_vg (SetGVG (set_stored size g)) w)
| step_others ps p w : sps_keyed ps -> vg_step w (mkWorld (vg w) ps p).

Definition initial w : Prop :=
  (exists p, VgParams_Validate p = true /\ vg w = set_vg_params p empty_vg_store) /\
  sps_keyed (sps w).

Inductive reachable : World P -> Prop :=
| reach_init w : initial w -> reachable w
| reach_step w w' : reachable w -> vg_step w w' -> reachable w'.

Record vg_inv w : Prop := mkVgInv {
  inv_wf : vg_wf (vg w);
  inv_counted : counted (vg w);
  inv_keyed : sps_keyed (sps w);
}.

Lemma initial_inv w : initial w -> vg_inv w.
Proof.
  intros [(p & Hp & Hv) Hk]. constructor; [| |done]; rewrite Hv.
  - constructor; try done. simpl. by intros q [= <-].
  - by constructor.
Qed.

Lemma step_inv w w' : vg_step w w' -> vg_inv w -> vg_inv w'.
Proof.
  intros Hstep [Hwf Hct Hk]. destruct Hstep as [ctx m w w' Hrun Hh Hroom|gid g size w Hg Hsz Hcol|].
  - constructor; [by eapply handle_wf|by eapply handle_counted|by eapply handle_keyed].
  - destruct (wf_gvgs _ Hwf _ _ Hg) as [Hid ? ? ? ? ? ?]. constructor; [| |done]; simpl.
    + by eapply vg_wf_SetGVG.
    + apply (counted_SetGVG _ g); try done. simpl. by rewrite Hid.
  - by constructor.
Qed.

(** Every reachable state satisfies the invariant. *)
Lemma reachable_inv w : reachable w -> vg_inv w.
Proof. induction 1; [by apply initial_inv|by eapply step_inv]. Qed.

(** ** A completed exit *)

(** The places of a group: its primary and its secondary providers. *)
Definition places (g : GlobalVirtualGroup) : Z := 1 + Z.of_nat (length (SecondarySpIds g)).

Lemma occurrences_length x l : occurrences x l <= Z.of_nat (length l).
Proof.
  induction l as [|y l IH]; [done|]. rewrite occurrences_cons. unfold at_id.
  cbn [length]. destruct (x =? y); lia.
Qed.

Lemma total_le f h s : (forall g, f g <= h g) -> total f s <= total h s.
Proof.
  intros Hle. enough (0 <= map_sum (fun _ g => h g + - f g) (gvgs s)) as H0.
  { rewrite map_sum_add, (map_sum_opp (fun _ g => f g)) in H0. unfold total. lia. }
  apply map_sum_nonneg. intros k g _. specialize (Hle g). lia.
Qed.

Lemma total_zero f s gid g :
  (forall g, 0 <= f g) -> total f s = 0 -> gvgs s !! gid = Some g -> f g = 0.
Proof.
  intros Hf Ht Hg. unfold total in Ht. rewrite (map_sum_delete _ _ _ _ Hg) in Ht.
  pose proof (map_sum_nonneg (fun _ g => f g) (delete gid (gvgs s)) (fun _ v _ => Hf v)).
  specialize (Hf g). lia.
Qed.

Lemma exitable_zero id s :
  StorageProviderExitable id s = true -> prim (gvg_stats s) id = 0 /\ sec (gvg_stats s) id = 0.
Proof.
  unfold StorageProviderExitable, GetGVGStatisticsWithinSP, prim, sec, stat_at.
  destruct (gvg_stats s !! id) as [t|]; simpl; [|done].
  intros [?%Z.eqb_eq ?%Z.eqb_eq]%andb_prop. done.
Qed.

Lemma led_bound id g : 0 <= led id g <= 1.
Proof. unfold led, at_id. case_match; lia. Qed.
Lemma served_bound id g : 0 <= served id g <= Z.of_nat (length (SecondarySpIds g)).
Proof. split; [apply occurrences_nonneg|apply occurrences_length]. Qed.

(** As long as the groups have fewer than 2^32 places the counters are the
    sums. *)
Lemma counted_exact s id :
  vg_wf s -> counted s -> total places s < two32 ->
  prim (gvg_stats s) id = total (led id) s /\ sec (gvg_stats s) id = total (served id) s.
Proof.
  intros Hwf Hct Hpl. destruct (stat_at_wf _ id (wf_stats _ Hwf)) as (_ & Hp & Hs & _).
  assert (0 <= total (led id) s <= total places s) as Hl.
  { split; [apply map_sum_nonneg; intros; apply led_bound|]. apply total_le. intros h.
    pose proof (led_bound id h). unfold places. lia. }
  assert (0 <= total (served id) s <= total places s) as Hse.
  { split; [apply map_sum_nonneg; intros; apply served_bound|]. apply total_le. intros h.
    pose proof (served_bound id h). unfold places. lia. }
  split; (etrans; [symmetry; apply u32_small; done|etrans; [apply Hct|apply u32_small; lia]]).
Qed.

(** A provider the statistics let go has no place left. *)
Lemma exitable_no_place id s gid g :
  vg_wf s -> counted s -> total places s < two32 -> StorageProviderExitable id s = true ->
  gvgs s !! gid = Some g -> PrimarySpId g <> id /\ id ∉ SecondarySpIds g.
Proof.
  intros Hwf Hct Hpl Hex Hg. apply exitable_zero in Hex as [Hp Hs].
  destruct (counted_exact s id Hwf Hct Hpl) as [Ep Es]. rewrite Hp in Ep. rewrite Hs in Es.
  pose proof (total_zero _ _ _ _ (fun h => proj1 (led_bound id h)) (eq_sym Ep) Hg) as Hz1.
  pose proof (total_zero _ _ _ _ (fun h => proj1 (served_bound id h)) (eq_sym Es) Hg) as Hz2.
  split.
  - intros <-. unfold led, at_id in Hz1. by rewrite Z.eqb_refl in Hz1.
  - intros Hin%occurrences_pos. unfold served in Hz2. lia.
Qed.

Lemma complete_exit_no_place text w u w' :
  reachable w -> total places (vg w) < two32 -> CompleteStorageProviderExit text w = (Ret u, w') ->
  exists sp, sender w text = Some sp /\ providers (sps w') !! sp_Id sp = None /\
    forall gid g, gvgs (vg w') !! gid = Some g ->
      PrimarySpId g <> sp_Id sp /\ sp_Id sp ∉ SecondarySpIds g.
Proof.
  intros Hr Hpl (sp & coins & Hs & _ & Hex & Hv & Hsps & _)%complete_exit_Ret.
  apply reachable_inv in Hr as [Hwf Hct _]. exists sp. split_and!; [done| |].
  - rewrite Hsps. simpl. apply lookup_delete_eq.
  - intros gid g. rewrite Hv. by apply exitable_no_place.
Qed.

(** ** The deposit of a provider *)

(** What the account of x/sp holds beyond the deposits of the providers. *)
Definition sp_books w : Z :=
  pk_GetBalance (pay w) (ModuleAddress SpModuleName) (DepositDenomForSP (sps w)) -
  deposited (sps w).

Lemma complete_exit_books text w u w' :
  CompleteStorageProviderExit text w = (Ret u, w') -> registry (sps w) ->
  funded_apart (ModuleAddress SpModuleName) (sps w) ->
  PaymentGovernanceAddress <> ModuleAddress SpModuleName ->
  exists sp, sender w text = Some sp /\ is_exiting sp = true /\ sp_books w' = sp_books w /\
    let to := if bool_decide (sp_Status sp = STATUS_GRACEFUL_EXITING) then FundingAddress sp
              else PaymentGovernanceAddress in
    pk_GetBalance (pay w') to (DepositDenomForSP (sps w)) =
      pk_GetBalance (pay w) to (DepositDenomForSP (sps w)) + sp_TotalDeposit sp.
Proof.
  intros (sp & coins & Hs & He & _ & _ & Hsps & [_ Hamt]%NewCoins_nonneg & Hsend)%complete_exit_Ret
    Hreg Hf Hgov. exists sp. split_and!; [done|done| |].
  - destruct (sender_operator _ _ _ Hs) as (a & Hop).
    apply find_operator in Hop as [_ Hp]; [|done]. unfold sp_books. rewrite Hsps.
    rewrite deposited_Exit by done.
    change (DepositDenomForSP (Exit sp (sps w))) with (DepositDenomForSP (sps w)).
    rewrite (pk_send_m2a _ _ _ _ _ Hsend), Hamt, decide_True, decide_False; [lia| |done].
    destruct (bool_decide _); [apply not_eq_sym; by eapply Hf|congruence].
  - destruct (sender_provider _ _ _ Hs) as (id & Hp). simpl.
    rewrite (pk_send_m2a _ _ _ _ _ Hsend), Hamt, decide_False, decide_True; [lia|done|].
    destruct (bool_decide _); [by eapply Hf|congruence].
Qed.
End Reach.
