(* ===== verification/VirtualGroupTheorems.v ===== *)
(** * x/sp and x/virtualgroup: the properties

    A small chain, and the theorems of both modules, each with a run on the
    chain where its hypotheses hold. *)

From S2P Require Import Prelude Sdk Bytes FeeMarket SpTypes SpKeeper SpMsg SpFacts.
From S2P Require Import PaymentTypes PaymentInstance.
From S2P Require Import VirtualGroupTypes VirtualGroupKeeper VirtualGroupMsg VirtualGroupFacts.
From S2P Require Import VirtualGroupFacts VirtualGroupEffects VirtualGroupWf VirtualGroupDeposits.
From S2P Require Import VirtualGroupCounts VirtualGroupPayment VirtualGroupReach.

(** ** x/sp and x/virtualgroup: a small chain

    Concrete keys, grants and derived addresses that satisfy the laws the
    modules rely on, and a chain on which their theorems are evaluated: three
    providers registered at genesis, over the ledger and the payment module of
    this development. *)

(** ** The parameters *)

#[global] Instance test_denoms : Denoms := {
  ValidateDenom d := negb (bool_decide (d = EmptyString)) }.

(** A signature starts with what it signs. *)
#[global] Instance test_bls : Bls := {
  BlsPublicKey := list Z;
  BlsSignature := list Z;
  UnmarshalPublicKey := Some;
  UnmarshalSignature := Some;
  BlsVerify sig pk msg := bool_decide (take 48 sig = msg);
  tmhash_Sum l := l;
}.

Abbreviation Grants := (gmap (Z * Z) (Grant Empty_set)) (only parsing).
#[global] Instance test_authz : AuthzKeeper Grants := {
  OtherAuthorization := Empty_set;
  GetGrant g grantee granter := g !! (grantee, granter);
  DeleteGrant g grantee granter := Some (delete (grantee, granter) g);
  UpdateGrant g grantee granter a := Some (<[(grantee, granter) := mkGrant None (Some a)]> g);
  OtherAccept x msg := None;
}.

(** Derived addresses are odd, module accounts even. *)
#[global] Instance test_vg_addresses : VgAddresses := {
  address_Module name key := derive_addr 0 key;
  PaymentGovernanceAddress := 1000;
}.

#[global] Instance test_vg_address_laws : VgAddressLaws.
Proof.
  constructor; [|by vm_compute..].
  intros groupType id. unfold DeriveVirtualPaymentAccount. simpl. unfold derive_addr. done.
Qed.

(** ** Providers 1, 2 and 3 *)

Fixpoint repeat_text (n : nat) (t : string) : string :=
  match n with O => EmptyString | S n => String.append t (repeat_text n t) end.
Definition key_text (byte : string) : string := repeat_text 48 byte.

Definition test_description : Description :=
  mkDescription "sp" EmptyString EmptyString EmptyString EmptyString.

(** Provider [i] has addresses 20 + i, 30 + i, and so on. *)
Definition create_sp (i : Z) (byte : string) : MsgCreateStorageProvider :=
  mkMsgCreateSp (addr_text (20 + i)) test_description (addr_text (20 + i)) (addr_text (30 + i))
    (addr_text (40 + i)) (addr_text (50 + i)) (addr_text (60 + i)) "https://sp"
    ("amoca", 20000 * 10 ^ 18) (Some (i * 10 ^ 18)) 0 (Some (3 * i * 10 ^ 18))
    (key_text byte) (String.append (key_text byte) (key_text byte)) (addr_text (70 + i)).

Definition genesis_ctx : SpCtx := mkSpCtx (1000 * 10 ^ 9) 0.
Definition sp_authority : string := "gov".

Definition funding : gmap (Z * string) Z :=
  list_to_map ((fun i => ((30 + i, "amoca"), 10 ^ 23)) <$> [1; 2; 3]).
Definition sp_state0 : SpState Ledger Grants :=
  mkSpState (with_sp_params (Some DefaultSpParams) empty_sp_store)
    (mkLedger funding (list_to_set [31; 32; 33])) ∅.

Definition after {S E A} (c : M S E A) (s : S) : S := (c s).2.

Definition sp_run (m : sp_msg) : SpState Ledger Grants -> SpState Ledger Grants :=
  after (sp_handle sp_authority genesis_ctx m).
Definition sp_state1 := sp_run (S_Create (create_sp 1 "01")) sp_state0.
Definition sp_state2 := sp_run (S_Create (create_sp 2 "02")) sp_state1.
Definition sp_state3 := sp_run (S_Create (create_sp 3 "03")) sp_state2.

Lemma sp_runs :
  sp_handle sp_authority genesis_ctx (S_Create (create_sp 1 "01")) sp_state0 = (Ret tt, sp_state1) /\
  sp_handle sp_authority genesis_ctx (S_Create (create_sp 2 "02")) sp_state1 = (Ret tt, sp_state2) /\
  sp_handle sp_authority genesis_ctx (S_Create (create_sp 3 "03")) sp_state2 = (Ret tt, sp_state3).
Proof.
  split_and!; [unfold sp_state1|unfold sp_state2|unfold sp_state3];
    (unfold sp_run, after; apply run_outcome; vm_compute; reflexivity).
Qed.

Lemma sp_state0_registry : registry (store sp_state0).
Proof.
  assert (forall f : StorageProvider -> Z, index_exact f ∅ ∅) as He.
  { intros f k id. split; [done|]. by intros (p & Hp & _). }
  constructor; try apply He; [done|by constructor|done].
Qed.

Lemma sp_state3_registry : registry (store sp_state3).
Proof.
  destruct sp_runs as (R1 & R2 & R3).
  eapply sp_handle_registry; [exact R3|by vm_compute|].
  eapply sp_handle_registry; [exact R2|by vm_compute|].
  eapply sp_handle_registry; [exact R1|by vm_compute|]. exact sp_state0_registry.
Qed.

(** ** Groups *)

(** Provider 1 leads a group served by 2 and 3, whose payment account has
    1001 coins. *)
Definition gvg_account : Addr := DeriveVirtualPaymentAccount GVGVirtualPaymentAccountName 1.
Definition test_payments : State Ledger :=
  mkState test_params ∅ {[ gvg_account := set_static 1001 (NewStreamRecord gvg_account 900) ]}
    ∅ ∅ ∅ ∅ ∅ ∅
    (mkLedger (<[(ModuleAddress ModuleName, "amoca") := 1001]> (balances (sp_bank sp_state3)))
       (accounts (sp_bank sp_state3))).

Definition test_setup : VgSetup := mkVgSetup "gov" (fun _ _ => true) (fun l => l).
Definition test_ctx : SpCtx := mkSpCtx (1000 * 10 ^ 9) 5.

Definition world0 : World (State Ledger) :=
  mkWorld (set_vg_params DefaultVgParams empty_vg_store) (store sp_state3) test_payments.

Definition vg_run (m : vg_msg) : World (State Ledger) -> World (State Ledger) :=
  after (handle test_setup test_ctx m).

Definition create_msg : MsgCreateGlobalVirtualGroup :=
  mkMsgCreateGvg (addr_text 21) 0 [2; 3] ("amoca", 5000000).
Definition world1 := vg_run (M_Create 2 create_msg) world0.

(** Provider 1 deletes the group, starts its exit and completes it. *)
Definition world2 := vg_run (M_Delete (addr_text 21) 1) world1.
Definition world3 := vg_run (M_Exit (addr_text 21)) world2.
Definition world4 := vg_run (M_CompleteExit (addr_text 21)) world3.

Lemma vg_runs :
  handle test_setup test_ctx (M_Create 2 create_msg) world0 = (Ret tt, world1) /\
  handle test_setup test_ctx (M_Delete (addr_text 21) 1) world1 = (Ret tt, world2) /\
  handle test_setup test_ctx (M_Exit (addr_text 21)) world2 = (Ret tt, world3) /\
  handle test_setup test_ctx (M_CompleteExit (addr_text 21)) world3 = (Ret tt, world4).
Proof.
  split_and!; [unfold world1|unfold world2|unfold world3|unfold world4];
    (unfold vg_run, after; apply run_outcome; vm_compute; reflexivity).
Qed.

Lemma world0_initial : initial world0.
Proof.
  split; [exists DefaultVgParams; split; [by vm_compute|done]|].
  intros id p Hp. by apply (reg_key _ sp_state3_registry) in Hp as [? _].
Qed.

Lemma reach_message w m w' :
  reachable test_setup w -> handle test_setup test_ctx m w = (Ret tt, w') ->
  honest w m = true -> room (vg w) -> reachable test_setup w'.
Proof. intros Hr Hrun Hh Hroom. exact (reach_step _ _ _ Hr (step_message _ _ _ _ _ Hrun Hh Hroom)). Qed.

Lemma world1_reachable : reachable test_setup world1.
Proof.
  apply (reach_message world0 (M_Create 2 create_msg)).
  - apply reach_init, world0_initial.
  - exact (proj1 vg_runs).
  - vm_compute. reflexivity.
  - split; vm_compute; reflexivity.
Qed.

Lemma world3_reachable : reachable test_setup world3.
Proof.
  apply (reach_message world2 (M_Exit (addr_text 21))).
  - apply (reach_message world1 (M_Delete (addr_text 21) 1)).
    + exact world1_reachable.
    + exact (proj1 (proj2 vg_runs)).
    + vm_compute. reflexivity.
    + split; vm_compute; reflexivity.
  - exact (proj1 (proj2 (proj2 vg_runs))).
  - vm_compute. reflexivity.
  - split; vm_compute; reflexivity.
Qed.

(** No provider is funded at [a], checked over the providers. *)
Lemma funded_apart_eval a (st : SpStore) :
  forallb (fun kv => negb (FundingAddress kv.2 =? a)) (map_to_list (providers st)) = true ->
  funded_apart a st.
Proof.
  intros Hall id sp Hp. rewrite forallb_forall in Hall.
  apply elem_of_map_to_list, list_elem_of_In in Hp. apply Hall in Hp.
  by apply Z.eqb_neq, negb_true_iff.
Qed.

Lemma world0_sound : sound world0.
Proof.
  constructor.
  - exact (inv_wf _ (initial_inv _ world0_initial)).
  - exact (proj2 world0_initial).
  - split; vm_compute; reflexivity.
  - apply funded_apart_eval. vm_compute. reflexivity.
Qed.

Lemma world3_registry : registry (sps world3).
Proof.
  destruct vg_runs as (R1 & R2 & R3 & _).
  eapply handle_registry; [exact R3|]. eapply handle_registry; [exact R2|].
  eapply handle_registry; [exact R1|]. exact sp_state3_registry.
Qed.

(** The group of [world1] and its settlement. *)
Definition group1 : GlobalVirtualGroup := mkGvg 1 1 1 [2; 3] 0 gvg_account 5000000.
Definition world1_settled := after (SettleAndDistributeGVG test_ctx group1) world1.
Lemma settle_run : SettleAndDistributeGVG test_ctx group1 world1 = (Ret tt, world1_settled).
Proof. unfold world1_settled, after. apply run_outcome. vm_compute. reflexivity. Qed.

Lemma settle_query :
  (pk_QueryDynamicBalance (Unix (sp_BlockTime test_ctx)) (gvg_PaymentAddress group1)
     (pay world1)).1 = Ret 1001.
Proof. vm_compute. reflexivity. Qed.

Lemma exit_run : CompleteStorageProviderExit (addr_text 21) world3 = (Ret tt, world4).
Proof.
  unfold world4, vg_run, after. change (handle test_setup test_ctx (M_CompleteExit (addr_text 21)))
    with (@CompleteStorageProviderExit (State Ledger) _ _ _ (addr_text 21)).
  apply run_outcome. vm_compute. reflexivity.
Qed.

(** Provider 2 deletes the group of provider 1. *)
Definition world1_stolen := vg_run (M_Delete (addr_text 22) 1) world1.
Lemma stolen_run :
  handle test_setup test_ctx (M_Delete (addr_text 22) 1) world1 = (Ret tt, world1_stolen).
Proof. unfold world1_stolen, vg_run, after. apply run_outcome. vm_compute. reflexivity. Qed.

Lemma sp_state3_priced id p :
  providers (store sp_state3) !! id = Some p -> IsInService p || IsInMaintenance p = true ->
  is_Some (sp_prices (store sp_state3) !! sp_Id p).
Proof.
  intros Hp _.
  assert (forallb (fun kv => bool_decide (is_Some (sp_prices (store sp_state3) !! sp_Id kv.2)))
    (map_to_list (providers (store sp_state3))) = true) as Hall by (vm_compute; reflexivity).
  rewrite forallb_forall in Hall. apply elem_of_map_to_list, list_elem_of_In in Hp.
  apply Hall in Hp. by apply bool_decide_eq_true in Hp.
Qed.

#[local] Arguments CurVal : simpl never.
#[local] Arguments NextVal : simpl never.

Section Theorems.
Context {P : Type} {HPay : PaymentKeeper P} {HAddr : Addresses} {HVg : VgAddresses}
  {HDenoms : Denoms} {HLaws : PaymentLaws P}.

(** C24: Every message of x/virtualgroup that succeeds leaves a well-formed
    store: groups and families refer to each other without gaps or
    duplicates, ids come from the sequences, counters have 32 bits, deposits
    cover what is stored, parameters are valid and no swap in is reserved
    for the provider it replaces. *)
Theorem store_stays_well_formed (setup : VgSetup) ctx m (w w' : World P) :
  handle setup ctx m w = (Ret tt, w') -> sps_keyed (sps w) -> room (vg w) ->
  vg_wf (vg w) -> vg_wf (vg w').
Proof. intros Hrun Hk Hroom Hwf. by eapply handle_wf. Qed.

(** C22: No message moves what the module account holds beyond the deposits of
    the groups: the deposits are backed coin by coin, through creation,
    deletion, deposits, withdrawals, swaps, settlement and exits. *)
Theorem group_deposits_backed {HApart : VgAddressLaws} (setup : VgSetup) ctx m (w w' : World P) :
  handle setup ctx m w = (Ret tt, w') -> sound w -> surplus w' = surplus w.
Proof. intros Hrun Hs. by eapply handle_surplus. Qed.

(** C23: In every state reachable by honest messages the counters of a
    provider are the numbers of groups it leads and of places it serves, and
    the families listed for it are those it owns, each once. *)
Theorem statistics_exact (setup : VgSetup) (w : World P) :
  reachable setup w -> total places (vg w) < two32 ->
  forall id,
    PrimaryCount (GetOrCreateGVGStatisticsWithinSP id (vg w)) = total (led id) (vg w) /\
    SecondaryCount (GetOrCreateGVGStatisticsWithinSP id (vg w)) = total (served id) (vg w) /\
    forall fid, occurrences fid (families_of (vg w) id) = owned (vg w) fid id.
Proof.
  intros [Hwf Hct _]%reachable_inv Hpl id.
  destruct (counted_exact _ id Hwf Hct Hpl) as [Hp Hs]. split_and!; [done|done|apply Hct].
Qed.

(** C27: In a state reached by honest messages (groups are created in families
    of the sender, which does not serve them, and nobody swaps out to itself;
    ids are left), with fewer than 2^32 places in all groups, a provider that
    completes its exit is gone from the registry and has no place left in any
    group. *)
Theorem exited_provider_has_no_place (setup : VgSetup) text (w w' : World P) :
  reachable setup w -> total places (vg w) < two32 ->
  CompleteStorageProviderExit text w = (Ret tt, w') ->
  exists sp, sender w text = Some sp /\ providers (sps w') !! sp_Id sp = None /\
    forall gid g, gvgs (vg w') !! gid = Some g ->
      PrimarySpId g <> sp_Id sp /\ sp_Id sp ∉ SecondarySpIds g.
Proof. apply complete_exit_no_place. Qed.

(** C28: A completed exit returns the deposit: to the funding account of a
    provider that left gracefully, to the governance account otherwise; what
    the account of x/sp holds beyond the deposits stays. *)
Theorem exit_returns_deposit text (w w' : World P) :
  CompleteStorageProviderExit text w = (Ret tt, w') -> registry (sps w) ->
  funded_apart (ModuleAddress SpModuleName) (sps w) ->
  PaymentGovernanceAddress <> ModuleAddress SpModuleName ->
  exists sp, sender w text = Some sp /\ is_exiting sp = true /\ sp_books w' = sp_books w /\
    let to := if bool_decide (sp_Status sp = STATUS_GRACEFUL_EXITING) then FundingAddress sp
              else PaymentGovernanceAddress in
    pk_GetBalance (pay w') to (DepositDenomForSP (sps w)) =
      pk_GetBalance (pay w) to (DepositDenomForSP (sps w)) + sp_TotalDeposit sp.
Proof. apply complete_exit_books. Qed.

(** C29: Settling a group pays every secondary provider the same share of what
    its payment account is worth, once for every place it has, in the fee
    coin; less than one unit per place stays and no other account changes. *)
Theorem settlement_shares ctx g (w w' : World P) :
  SettleAndDistributeGVG ctx g w = (Ret tt, w') ->
  vg w' = vg w /\ sps w' = sps w /\
  exists total p0,
    pk_QueryDynamicBalance (Unix (sp_BlockTime ctx)) (gvg_PaymentAddress g) (pay w) =
      (Ret total, p0) /\
    (0 <= total -> 0 <= total - share total g * Z.of_nat (length (SecondarySpIds g)) <
                     Z.of_nat (length (SecondarySpIds g))) /\
    forall b d, b <> gvg_PaymentAddress g -> b <> ModuleAddress PaymentModuleName ->
      pk_GetBalance (pay w') b d = pk_GetBalance (pay w) b d +
        (if decide (d = pk_FeeDenom (pay w))
         then share total g * shares (sps w) b (SecondarySpIds g) else 0).
Proof.
  intros Hrun. split; [exact (keeps_run _ _ _ _ _ (keeps_vg_settle_gvg _ _) Hrun)|].
  split; [exact (keeps_run _ _ _ _ _ (keeps_sps_settle_gvg _ _) Hrun)|].
  apply settle_gvg_pays in Hrun as (total & p0 & Hq & Hne & Hpays).
  exists total, p0. split_and!; [done| |done]. by apply share_remainder.
Qed.

(** C30: Deleting a group needs it empty of objects and of flows, removes it
    from the store and from its family and pays its whole deposit to the
    provider that sends the message, whoever leads the group. *)
Theorem deletion_refunds_sender (setup : VgSetup) ctx text gid (w w' : World P) :
  handle setup ctx (M_Delete text gid) w = (Ret tt, w') -> vg_wf (vg w) ->
  funded_apart (ModuleAddress VgModuleName) (sps w) ->
  exists sp g fam, sender w text = Some sp /\ gvgs (vg w) !! gid = Some g /\ StoredSize g = 0 /\
    pk_IsEmptyNetFlow (Unix (sp_BlockTime ctx)) (gvg_PaymentAddress g) (pay w) = true /\
    gvgs (vg w') = delete gid (gvgs (vg w)) /\
    families (vg w') !! FamilyId g = Some fam /\ (gid ∉ GlobalVirtualGroupIds fam) /\
    pk_GetBalance (pay w') (FundingAddress sp) (DepositDenomForGVG (vg w)) =
      pk_GetBalance (pay w) (FundingAddress sp) (DepositDenomForGVG (vg w)) + gvg_TotalDeposit g.
Proof. apply delete_refunds. Qed.
End Theorems.

Section Providers.
Context {B G : Type} {HBank : BankKeeper B} {HAddr : Addresses} {HDenoms : Denoms}
  {HBls : Bls} {HAuthz : AuthzKeeper G}.

(** C25: Messages of x/sp, slashes, end blocks and the exits of
    x/virtualgroup keep the registry: providers are stored under ids the
    sequence gave out, and each index of addresses finds exactly the provider
    that has the address; BLS keys are unique among the providers. *)
Theorem registry_stays_indexed {P : Type} {HPay : PaymentKeeper P} {HVg : VgAddresses}
    {HLaws : PaymentLaws P} (authority : string) (setup : VgSetup) ctx :
  (forall m (s s' : SpState B G), sp_handle authority ctx m s = (Ret tt, s') ->
     cur_id (store s) + 1 < two32 -> registry (store s) -> registry (store s')) /\
  (forall m (w w' : World P), handle setup ctx m w = (Ret tt, w') ->
     registry (sps w) -> registry (sps w')).
Proof.
  split; [intros m s s' Hrun Hroom Hreg; by eapply sp_handle_registry|].
  intros m w w' Hrun Hreg. by eapply handle_registry.
Qed.

(** C26: What the account of x/sp holds beyond the deposits of the providers
    is moved by no message, slash or end block, in a consistent registry with
    ids left, when the accounts that pay and are paid are not the module's own
    and an update of the parameters keeps the coin of deposits. *)
Theorem provider_deposits_backed {HLaws : BankLaws B} (authority : string) ctx m (s s' : SpState B G) :
  sp_handle authority ctx m s = (Ret tt, s') -> cur_id (store s) + 1 < two32 ->
  registry (store s) -> external s m -> sp_surplus s' = sp_surplus s.
Proof. intros Hrun Hroom Hreg Hext. by eapply sp_handle_surplus. Qed.

(** When every provider in service or in maintenance has a price and the
    ratio of secondary prices is set, the update of the global price goes
    through, and what it stores are medians: at most half of those providers
    ask for less and at most half for more. *)
Lemma global_price_is_median ctx st :
  (forall id p, providers st !! id = Some p -> IsInService p || IsInMaintenance p = true ->
     is_Some (sp_prices st !! sp_Id p)) ->
  is_Some (SecondarySpStorePriceRatio (SpKeeper.GetParams st)) ->
  exists st' prices, UpdateGlobalSpStorePrice ctx st = (Ret tt, st') /\
    collect_prices (GetAllStorageProviders st) st = Ret prices /\
    (prices = [] /\ st' = st \/
     exists g ratio, global_prices st' = <[u64 (Unix (sp_BlockTime ctx)) := g]> (global_prices st) /\
       halves (gp_PrimaryStorePrice g) (pr_StorePrice <$> prices) /\
       halves (gp_ReadPrice g) (pr_ReadPrice <$> prices) /\
       SecondarySpStorePriceRatio (SpKeeper.GetParams st) = Some ratio /\
       gp_SecondaryStorePrice g = dec_Mul ratio (gp_PrimaryStorePrice g)).
Proof.
  intros Hall Hratio. destruct (UpdateGlobalSpStorePrice_total ctx st Hall Hratio) as (st' & Hrun).
  destruct (UpdateGlobalSpStorePrice_Ret _ _ _ _ Hrun) as (prices & Hp & Hres). eauto.
Qed.
End Providers.

(** ** Runs *)

Lemma store_stays_well_formed_witness : vg_wf (vg world1).
Proof.
  apply (store_stays_well_formed test_setup test_ctx (M_Create 2 create_msg) world0 world1).
  - exact (proj1 vg_runs).
  - exact (proj2 world0_initial).
  - split; vm_compute; reflexivity.
  - exact (inv_wf _ (initial_inv _ world0_initial)).
Defined.

Lemma group_deposits_backed_witness :
  surplus world0 = 0 /\ total gvg_TotalDeposit (vg world1) = 5000000 /\ surplus world1 = surplus world0.
Proof.
  split; [vm_compute; reflexivity|]. split; [vm_compute; reflexivity|].
  apply (group_deposits_backed test_setup test_ctx (M_Create 2 create_msg) world0 world1).
  - exact (proj1 vg_runs).
  - exact world0_sound.
Defined.

Lemma statistics_exact_witness :
  PrimaryCount (GetOrCreateGVGStatisticsWithinSP 1 (vg world1)) = total (led 1) (vg world1) /\
  SecondaryCount (GetOrCreateGVGStatisticsWithinSP 2 (vg world1)) = total (served 2) (vg world1) /\
  total (led 1) (vg world1) = 1 /\ total (served 2) (vg world1) = 1.
Proof.
  pose proof (statistics_exact test_setup world1 world1_reachable) as H.
  assert (total places (vg world1) < two32) as Hp by (vm_compute; reflexivity).
  split; [exact (proj1 (H Hp 1))|]. split; [exact (proj1 (proj2 (H Hp 2)))|].
  split; vm_compute; reflexivity.
Defined.

Lemma exited_provider_has_no_place_witness :
  exists sp, sender world3 (addr_text 21) = Some sp /\ providers (sps world4) !! sp_Id sp = None /\
    forall gid g, gvgs (vg world4) !! gid = Some g ->
      PrimarySpId g <> sp_Id sp /\ sp_Id sp ∉ SecondarySpIds g.
Proof.
  apply (exited_provider_has_no_place test_setup (addr_text 21) world3 world4 world3_reachable).
  - vm_compute. reflexivity.
  - exact exit_run.
Defined.

Lemma exit_returns_deposit_witness :
  exists sp, sender world3 (addr_text 21) = Some sp /\ is_exiting sp = true /\
    sp_books world4 = sp_books world3 /\
    let to := if bool_decide (sp_Status sp = STATUS_GRACEFUL_EXITING) then FundingAddress sp
              else PaymentGovernanceAddress in
    pk_GetBalance (pay world4) to (DepositDenomForSP (sps world3)) =
      pk_GetBalance (pay world3) to (DepositDenomForSP (sps world3)) + sp_TotalDeposit sp.
Proof.
  apply (exit_returns_deposit (addr_text 21) world3 world4).
  - exact exit_run.
  - exact world3_registry.
  - apply funded_apart_eval. vm_compute. reflexivity.
  - vm_compute. discriminate.
Defined.

Lemma settlement_shares_witness :
  pk_GetBalance (pay world1_settled) 32 "amoca" = pk_GetBalance (pay world1) 32 "amoca" + 500.
Proof.
  destruct (settlement_shares test_ctx group1 world1 world1_settled settle_run)
    as (_ & _ & t & p0 & Hq & _ & Hpays).
  rewrite (Hpays 32 "amoca") by (vm_compute; discriminate).
  pose proof settle_query as Hv. rewrite Hq in Hv. cbn [fst] in Hv. injection Hv as ->.
  vm_compute. reflexivity.
Defined.

Lemma deletion_refunds_sender_witness :
  exists sp g fam, sender world1 (addr_text 22) = Some sp /\ gvgs (vg world1) !! 1 = Some g /\
    StoredSize g = 0 /\
    pk_IsEmptyNetFlow (Unix (sp_BlockTime test_ctx)) (gvg_PaymentAddress g) (pay world1) = true /\
    gvgs (vg world1_stolen) = delete 1 (gvgs (vg world1)) /\
    families (vg world1_stolen) !! FamilyId g = Some fam /\ (1 ∉ GlobalVirtualGroupIds fam) /\
    pk_GetBalance (pay world1_stolen) (FundingAddress sp) (DepositDenomForGVG (vg world1)) =
      pk_GetBalance (pay world1) (FundingAddress sp) (DepositDenomForGVG (vg world1)) +
      gvg_TotalDeposit g.
Proof.
  apply (deletion_refunds_sender test_setup test_ctx (addr_text 22) 1 world1 world1_stolen).
  - exact stolen_run.
  - exact (inv_wf _ (reachable_inv _ _ world1_reachable)).
  - apply funded_apart_eval. vm_compute. reflexivity.
Defined.

Lemma registry_stays_indexed_witness : registry (store sp_state1) /\ registry (sps world4).
Proof.
  destruct (registry_stays_indexed (B := Ledger) (G := Grants) (P := State Ledger)
    sp_authority test_setup genesis_ctx) as [H1 _].
  destruct (registry_stays_indexed (B := Ledger) (G := Grants) (P := State Ledger)
    sp_authority test_setup test_ctx) as [_ H2].
  split.
  - apply (H1 (S_Create (create_sp 1 "01")) sp_state0 sp_state1 (proj1 sp_runs)).
    + vm_compute. reflexivity.
    + exact sp_state0_registry.
  - exact (H2 _ _ _ (proj2 (proj2 (proj2 vg_runs))) world3_registry).
Defined.

Lemma provider_deposits_backed_witness :
  deposited (store sp_state1) = 20000 * 10 ^ 18 /\ sp_surplus sp_state1 = sp_surplus sp_state0.
Proof.
  split; [vm_compute; reflexivity|].
  apply (provider_deposits_backed sp_authority genesis_ctx (S_Create (create_sp 1 "01"))
    sp_state0 sp_state1 (proj1 sp_runs)).
  - vm_compute. reflexivity.
  - exact sp_state0_registry.
  - vm_compute. discriminate.
Defined.

Lemma global_price_is_median_witness :
  exists st' prices, UpdateGlobalSpStorePrice genesis_ctx (store sp_state3) = (Ret tt, st') /\
    collect_prices (GetAllStorageProviders (store sp_state3)) (store sp_state3) = Ret prices /\
    (prices = [] /\ st' = store sp_state3 \/
     exists g ratio, global_prices st' =
         <[u64 (Unix (sp_BlockTime genesis_ctx)) := g]> (global_prices (store sp_state3)) /\
       halves (gp_PrimaryStorePrice g) (pr_StorePrice <$> prices) /\
       halves (gp_ReadPrice g) (pr_ReadPrice <$> prices) /\
       SecondarySpStorePriceRatio (SpKeeper.GetParams (store sp_state3)) = Some ratio /\
       gp_SecondaryStorePrice g = dec_Mul ratio (gp_PrimaryStorePrice g)).
Proof.
  apply (global_price_is_median genesis_ctx (store sp_state3)).
  - exact sp_state3_priced.
  - vm_compute. by eexists.
Defined.
