(* ===== verification/StorageStore.v ===== *)
(** * x/storage: the store and the keepers it calls

    The key prefixes of [x/storage] as finite maps, next to the stores of
    x/virtualgroup, x/sp and x/payment ([World (State B)]), the permission
    store with the garbage collection lists ([GCState]) and the token
    contracts in the EVM ([N], a parameter: the code of the contracts is
    deployed, not part of the sources).  Names are looked up by their hash,
    taken to be injective; objects of a bucket are iterated in the order of
    the hashes of their names.  Also the parameters of [keeper/params.go] and
    the small getters and setters of [keeper/keeper.go]. *)

From S2P Require Import Prelude Sdk Bytes StorageTypes Grn Permission PermissionKeeper.
From S2P Require Import StoragePermission StorageGC FeeMarket.
From S2P Require Import SpTypes SpKeeper VirtualGroupTypes VirtualGroupKeeper.
From S2P Require Import VirtualGroupPayment PaymentTypes PaymentStore PaymentStream PaymentFlows.

Record StorageStore : Type := mkStorageStore {
  res : Resources;
  internals : gmap Z InternalBucketInfo;
  shadows : gmap (string * string) ShadowObjectInfo;
  rate_limits : gmap (Addr * Addr * string) Z;
  limit_status : gmap string RateLimitStatus;
  quota_times : gmap Z Z;
  locked_counts : gmap Z Z;
  owner_counts : gmap Addr Z;
  migrations : gmap Z MigrationBucketInfo;
  disc_objects : gmap Z (list Z);
  disc_buckets : gmap Z (list Z);
  disc_statuses : gmap Z ObjectStatus;
  disc_object_counts : gmap Addr Z;
  disc_bucket_counts : gmap Addr Z;
  st_params : option StorageParams;
  st_versioned : gmap Z StVersionedParams;
  bucketSeq : option (list Z);
  objectSeq : option (list Z);
}.

Section Setters.
Implicit Types s : StorageStore.

Definition on_res f s := mkStorageStore (f (res s)) (internals s) (shadows s) (rate_limits s)
  (limit_status s) (quota_times s) (locked_counts s) (owner_counts s) (migrations s)
  (disc_objects s) (disc_buckets s) (disc_statuses s) (disc_object_counts s)
  (disc_bucket_counts s) (st_params s) (st_versioned s) (bucketSeq s) (objectSeq s).
Definition on_internals f s := mkStorageStore (res s) (f (internals s)) (shadows s) (rate_limits s)
  (limit_status s) (quota_times s) (locked_counts s) (owner_counts s) (migrations s)
  (disc_objects s) (disc_buckets s) (disc_statuses s) (disc_object_counts s)
  (disc_bucket_counts s) (st_params s) (st_versioned s) (bucketSeq s) (objectSeq s).
Definition on_shadows f s := mkStorageStore (res s) (internals s) (f (shadows s)) (rate_limits s)
  (limit_status s) (quota_times s) (locked_counts s) (owner_counts s) (migrations s)
  (disc_objects s) (disc_buckets s) (disc_statuses s) (disc_object_counts s)
  (disc_bucket_counts s) (st_params s) (st_versioned s) (bucketSeq s) (objectSeq s).
Definition on_rate_limits f s := mkStorageStore (res s) (internals s) (shadows s)
  (f (rate_limits s)) (limit_status s) (quota_times s) (locked_counts s) (owner_counts s)
  (migrations s) (disc_objects s) (disc_buckets s) (disc_statuses s) (disc_object_counts s)
  (disc_bucket_counts s) (st_params s) (st_versioned s) (bucketSeq s) (objectSeq s).
Definition on_limit_status f s := mkStorageStore (res s) (internals s) (shadows s) (rate_limits s)
  (f (limit_status s)) (quota_times s) (locked_counts s) (owner_counts s) (migrations s)
  (disc_objects s) (disc_buckets s) (disc_statuses s) (disc_object_counts s)
  (disc_bucket_counts s) (st_params s) (st_versioned s) (bucketSeq s) (objectSeq s).
Definition on_quota_times f s := mkStorageStore (res s) (internals s) (shadows s) (rate_limits s)
  (limit_status s) (f (quota_times s)) (locked_counts s) (owner_counts s) (migrations s)
  (disc_objects s) (disc_buckets s) (disc_statuses s) (disc_object_counts s)
  (disc_bucket_counts s) (st_params s) (st_versioned s) (bucketSeq s) (objectSeq s).
Definition on_locked_counts f s := mkStorageStore (res s) (internals s) (shadows s)
  (rate_limits s) (limit_status s) (quota_times s) (f (locked_counts s)) (owner_counts s)
  (migrations s) (disc_objects s) (disc_buckets s) (disc_statuses s) (disc_object_counts s)
  (disc_bucket_counts s) (st_params s) (st_versioned s) (bucketSeq s) (objectSeq s).
Definition on_owner_counts f s := mkStorageStore (res s) (internals s) (shadows s) (rate_limits s)
  (limit_status s) (quota_times s) (locked_counts s) (f (owner_counts s)) (migrations s)
  (disc_objects s) (disc_buckets s) (disc_statuses s) (disc_object_counts s)
  (disc_bucket_counts s) (st_params s) (st_versioned s) (bucketSeq s) (objectSeq s).
Definition on_migrations f s := mkStorageStore (res s) (internals s) (shadows s) (rate_limits s)
  (limit_status s) (quota_times s) (locked_counts s) (owner_counts s) (f (migrations s))
  (disc_objects s) (disc_buckets s) (disc_statuses s) (disc_object_counts s)
  (disc_bucket_counts s) (st_params s) (st_versioned s) (bucketSeq s) (objectSeq s).
Definition on_disc_objects f s := mkStorageStore (res s) (internals s) (shadows s) (rate_limits s)
  (limit_status s) (quota_times s) (locked_counts s) (owner_counts s) (migrations s)
  (f (disc_objects s)) (disc_buckets s) (disc_statuses s) (disc_object_counts s)
  (disc_bucket_counts s) (st_params s) (st_versioned s) (bucketSeq s) (objectSeq s).
Definition on_disc_buckets f s := mkStorageStore (res s) (internals s) (shadows s) (rate_limits s)
  (limit_status s) (quota_times s) (locked_counts s) (owner_counts s) (migrations s)
  (disc_objects s) (f (disc_buckets s)) (disc_statuses s) (disc_object_counts s)
  (disc_bucket_counts s) (st_params s) (st_versioned s) (bucketSeq s) (objectSeq s).
Definition on_disc_statuses f s := mkStorageStore (res s) (internals s) (shadows s)
  (rate_limits s) (limit_status s) (quota_times s) (locked_counts s) (owner_counts s)
  (migrations s) (disc_objects s) (disc_buckets s) (f (disc_statuses s)) (disc_object_counts s)
  (disc_bucket_counts s) (st_params s) (st_versioned s) (bucketSeq s) (objectSeq s).
Definition on_disc_object_counts f s := mkStorageStore (res s) (internals s) (shadows s)
  (rate_limits s) (limit_status s) (quota_times s) (locked_counts s) (owner_counts s)
  (migrations s) (disc_objects s) (disc_buckets s) (disc_statuses s) (f (disc_object_counts s))
  (disc_bucket_counts s) (st_params s) (st_versioned s) (bucketSeq s) (objectSeq s).
Definition on_disc_bucket_counts f s := mkStorageStore (res s) (internals s) (shadows s)
  (rate_limits s) (limit_status s) (quota_times s) (locked_counts s) (owner_counts s)
  (migrations s) (disc_objects s) (disc_buckets s) (disc_statuses s) (disc_object_counts s)
  (f (disc_bucket_counts s)) (st_params s) (st_versioned s) (bucketSeq s) (objectSeq s).
Definition set_st_params p v s := mkStorageStore (res s) (internals s) (shadows s) (rate_limits s)
  (limit_status s) (quota_times s) (locked_counts s) (owner_counts s) (migrations s)
  (disc_objects s) (disc_buckets s) (disc_statuses s) (disc_object_counts s)
  (disc_bucket_counts s) p v (bucketSeq s) (objectSeq s).
Definition set_bucketSeq v s := mkStorageStore (res s) (internals s) (shadows s) (rate_limits s)
  (limit_status s) (quota_times s) (locked_counts s) (owner_counts s) (migrations s)
  (disc_objects s) (disc_buckets s) (disc_statuses s) (disc_object_counts s)
  (disc_bucket_counts s) (st_params s) (st_versioned s) v (objectSeq s).
Definition set_objectSeq v s := mkStorageStore (res s) (internals s) (shadows s) (rate_limits s)
  (limit_status s) (quota_times s) (locked_counts s) (owner_counts s) (migrations s)
  (disc_objects s) (disc_buckets s) (disc_statuses s) (disc_object_counts s)
  (disc_bucket_counts s) (st_params s) (st_versioned s) (bucketSeq s) v.

Definition on_bucket_ids f (r : Resources) := mkResources (f (bucket_ids r)) (buckets r)
  (object_ids r) (objects r) (group_ids r) (groups r).
Definition on_buckets f (r : Resources) := mkResources (bucket_ids r) (f (buckets r))
  (object_ids r) (objects r) (group_ids r) (groups r).
Definition on_object_ids f (r : Resources) := mkResources (bucket_ids r) (buckets r)
  (f (object_ids r)) (objects r) (group_ids r) (groups r).
Definition on_objects f (r : Resources) := mkResources (bucket_ids r) (buckets r)
  (object_ids r) (f (objects r)) (group_ids r) (groups r).
End Setters.

(** ** The chain around the store *)

Record Chain (B N : Type) : Type := mkChain {
  st : StorageStore;
  wd : World (State B);
  gc : GCState;
  nfts : N;
}.
Arguments mkChain {B N}.
Arguments st {B N}.
Arguments wd {B N}.
Arguments gc {B N}.
Arguments nfts {B N}.

(** The sentinel errors of [types/errors.go] the modelled functions return,
    the errors made with [fmt.Errorf], and those of other modules. *)
Inductive storage_error : Type :=
| ErrNoSuchBucket | ErrNoSuchObject | ErrBucketAlreadyExists | ErrObjectAlreadyExists
| ErrStAccessDenied | ErrObjectAlreadySealed | ErrBucketNotEmpty | ErrNoSuchStorageProvider
| ErrObjectNotCreated | ErrSourceTypeMismatch | ErrTooLargeObject | ErrInvalidApproval
| ErrChargeFailed | ErrUpdateQuotaFailed | ErrInvalidGlobalVirtualGroup
| ErrUpdateObjectNotAllowed | ErrObjectIsUpdating | ErrObjectIsNotUpdating
| ErrUpdatePaymentAccountFailed | ErrObjectChecksumsMissing | ErrInvalidObjectIDs
| ErrNoMoreDiscontinue | ErrBucketDiscontinued | ErrInvalidObjectStatus | ErrInvalidBucketStatus
| ErrBucketMigrating | ErrMigrationBucketFailed | ErrVirtualGroupOperateFailed
| ErrInvalidBlsPubKey | ErrInvalidBlsSignature | ErrStInvalidAddress
| ErrGetFamily | ErrGetGroup | ErrGetPrice | ErrGetVersioned | ErrUnexpectedChargeSize
| ErrAddressAndQuota | ErrStaticBalanceShort | ErrRateLimitNotSet | ErrRateOverLimit
| ErrBucketRateLimited | ErrCheckPayment
| ErrPay (e : PaymentTypes.error)
| ErrVg (e : vg_error)
| ErrSpKeeper (e : sp_error)
| ErrPerm (e : perm_error)
| ErrEvmCall.

(** The calls into the token contracts: [mint(owner, id)], [burn(id)]. *)
Inductive nft_call : Type :=
| MintBucket (owner : string) (id : Z)
| BurnBucket (id : Z)
| MintObject (owner : string) (id : Z)
| BurnObject (id : Z).

(** [keeper.CallEVM] on the contracts; [None] is an error of the call. *)
Class NftContracts (N : Type) : Type := { nft_run : nft_call -> N -> option N }.

(** Hashes and signatures: the order of object keys, the approval of a
    provider, and the aggregated BLS signature of the secondaries over the
    documents that are signed. *)
Class StorageCrypto : Type := {
  keccak_name : string -> Z;
  VerifySignature : Addr -> list Z -> list Z -> bool;
  BlsKeyValid : list Z -> bool;
  VerifyBlsAggSignature : list (list Z) -> list Z -> list Z -> bool;
  SealObjectSignDoc : Z -> Z -> list (list Z) -> list Z;
  MigrationBucketSignDoc : Z -> Z -> Z -> Z -> list Z;
  ValidatorTaxPoolAddress : Addr;
}.

(** The block, whether the context forces updates of frozen accounts, and
    whether it carries a transaction. *)
Record StorageCtx : Type := mkStorageCtx {
  sc_block : SpCtx;
  sc_forced : bool;
  sc_tx : bool;
}.

Definition now (ctx : StorageCtx) : Z := Unix (sp_BlockTime (sc_block ctx)).
Definition pay_ctx (ctx : StorageCtx) : Ctx := mkCtx (now ctx) (sc_forced ctx).
Definition perm_ctx (ctx : StorageCtx) : PermCtx :=
  mkPermCtx (sp_BlockTime (sc_block ctx)) (sc_tx ctx).

Section Store.
Context {B N : Type} {HBank : BankKeeper B} {HAddr : Addresses}.
Abbreviation CM := (M (Chain B N) storage_error).
Implicit Types (c : Chain B N) (ctx : StorageCtx) (s : StorageStore) (b : BucketInfo)
  (o : ObjectInfo) (ib : InternalBucketInfo).

Definition with_st f c : Chain B N := mkChain (f (st c)) (wd c) (gc c) (nfts c).
Definition with_wd v c : Chain B N := mkChain (st c) v (gc c) (nfts c).
Definition with_gc v c : Chain B N := mkChain (st c) (wd c) v (nfts c).
Definition with_nfts v c : Chain B N := mkChain (st c) (wd c) (gc c) v.

Definition on_st (f : StorageStore -> StorageStore) : CM unit := modify (with_st f).

(** Calls of the other keepers *)
Definition on_world {A} (k : M (World (State B)) vg_error A) : CM A := zoom wd with_wd ErrVg k.
Definition chain_pay c : State B := pay (wd c).
Definition put_pay (p : State B) c : Chain B N := with_wd (with_pay p (wd c)) c.
Definition on_payment {A} (k : M (State B) PaymentTypes.error A) : CM A :=
  zoom chain_pay put_pay ErrPay k.
Definition on_perm {A} (k : M PermState perm_error A) : CM A := zoom gc with_gc ErrPerm (with_perm k).
Definition on_gc {A} (k : M GCState perm_error A) : CM A := zoom gc with_gc ErrPerm k.

(** The text of addresses, as the permission checks use it *)
#[export] Instance address_text : AddressText := {
  Grn.AccAddressFromHexUnsafe := Sdk.AccAddressFromHexUnsafe;
  acc_String := AccAddress_String;
}.

(** ** Parameters *)

Definition St_GetParams s : StorageParams := default zero_storage_params (st_params s).

(** The version stored last before the time *)
Definition St_GetVersionedParamsWithTS (ts : Z) s : option StVersionedParams :=
  snd <$> last (filter (fun kv => kv.1 < u64 ts) (iterate Z.leb (st_versioned s))).

(** [MaxSegmentSize] of [keeper/params.go]; [None] is an error. *)
Definition St_MaxSegmentSize (ts : Z) s : option Z :=
  MaxSegmentSize <$> St_GetVersionedParamsWithTS ts s.

Definition GetExpectSecondarySPNumForECObject (createTime : Z) : CM Z :=
  let! c := get in
  let! v := must (St_GetVersionedParamsWithTS createTime (st c)) in
  ret (u32 (RedundantParityChunkNum v + RedundantDataChunkNum v)).

(** ** Buckets and objects *)

Definition St_GetBucketInfo (bucketName : string) c : option BucketInfo :=
  GetBucketInfo (res (st c)) bucketName.
Definition GetBucketInfoById (id : Z) c : option BucketInfo := buckets (res (st c)) !! id.
Definition SetBucketInfo b s : StorageStore := on_res (on_buckets (insert (b_Id b) b)) s.

Definition St_GetObjectInfo (bucketName objectName : string) c : option ObjectInfo :=
  GetObjectInfo (res (st c)) bucketName objectName.
Definition GetObjectInfoById (id : Z) c : option ObjectInfo := objects (res (st c)) !! id.
Definition SetObjectInfo o s : StorageStore := on_res (on_objects (insert (ob_Id o) o)) s.

(** [StoreObjectInfo]: the name index and the object *)
Definition StoreObjectInfo (bucketName objectName : string) o s : StorageStore :=
  SetObjectInfo o (on_res (on_object_ids (insert (bucketName, objectName) (ob_Id o))) s).
Definition DeleteObjectInfo (bucketName objectName : string) (id : Z) s : StorageStore :=
  on_res (on_objects (delete id)) (on_res (on_object_ids (delete (bucketName, objectName))) s).

Definition MustGetInternalBucketInfo (id : Z) : CM InternalBucketInfo :=
  let! c := get in must (internals (st c) !! id).
Definition SetInternalBucketInfo (id : Z) ib s : StorageStore := on_internals (insert id ib) s.

Definition MustGetShadowObjectInfo (bucketName objectName : string) : CM ShadowObjectInfo :=
  let! c := get in must (shadows (st c) !! (bucketName, objectName)).

(** [k.bucketSeq.NextVal(store)], [k.objectSeq.NextVal(store)] *)
Definition GenNextBucketId : CM Z :=
  let! c := get in
  let! x := must (NextVal Uint256 (bucketSeq (st c))) in
  do! on_st (set_bucketSeq (Some x.2)) ;;
  ret x.1.
Definition GenNextObjectID : CM Z :=
  let! c := get in
  let! x := must (NextVal Uint256 (objectSeq (st c))) in
  do! on_st (set_objectSeq (Some x.2)) ;;
  ret x.1.

(** The ids given out so far *)
Definition GetObjectInfoCount c : Z := CurVal Uint256 (objectSeq (st c)).

(** ** Counters *)

Definition GetLockedObjectCount (id : Z) s : Z := default 0 (locked_counts s !! id).
Definition IncreaseLockedObjectCount (id : Z) s : StorageStore :=
  on_locked_counts (insert id (u64 (GetLockedObjectCount id s + 1))) s.
Definition DecreaseLockedObjectCount (id : Z) s : StorageStore :=
  let before := GetLockedObjectCount id s in
  on_locked_counts (insert id (if 0 <? before then before - 1 else before)) s.

Definition GetBucketCountByOwner (owner : Addr) s : Z := default 0 (owner_counts s !! owner).
Definition IncrementBucketCount (owner : Addr) s : StorageStore :=
  on_owner_counts (insert owner (u64 (GetBucketCountByOwner owner s + 1))) s.
Definition DecrementBucketCount (owner : Addr) s : StorageStore :=
  let count := GetBucketCountByOwner owner s in
  if 0 <? count then on_owner_counts (insert owner (count - 1)) s else s.

(** [getQuotaUpdateTime]: the creation time when no update is recorded *)
Definition getQuotaUpdateTime (id : Z) s : option Z :=
  match quota_times s !! id with
  | Some t => Some t
  | None => (fun b => u64 (b_CreateAt b)) <$> buckets (res s) !! id
  end.

(** Whether an object name of the bucket is in the store *)
Definition objects_of (bucketName : string) s : gmap (string * string) Z :=
  filter (fun kv => kv.1.1 = bucketName) (object_ids (res s)).
Definition isNonEmptyBucket (bucketName : string) s : bool :=
  negb (bool_decide (objects_of bucketName s = ∅)).

End Store.

Abbreviation CM B N := (M (Chain B N) storage_error).
