(* ===== verification/StorageCharge.v ===== *)
(** * x/storage: charging

    [x/storage/keeper/payment.go] and [bucket_rate_limit.go]: the bill of a
    bucket (read quota, and the charged bytes of each local virtual group, at
    the prices of the time of the last charge), the fees locked for objects
    that are not sealed yet, and the limits on the rate a bucket may cost.
    A function that changes the bucket or its internal info through a pointer
    returns the changed value; the caller stores it.  The limits of 256 bits
    on [sdk.Int] and of 315 bits on [LegacyDec] are not modelled. *)

From S2P Require Import Prelude Sdk Bytes StorageTypes StoragePermission FeeMarket.
From S2P Require Import SpTypes SpKeeper VirtualGroupTypes VirtualGroupKeeper.
From S2P Require Import VirtualGroupPayment PaymentTypes PaymentStore PaymentStream PaymentFlows.
From S2P Require Import StorageStore.

Section Charge.
Context {B N : Type} {HBank : BankKeeper B} {HAddr : Addresses} {HCrypto : StorageCrypto}.
Abbreviation CM := (M (Chain B N) storage_error).
Implicit Types (c : Chain B N) (ctx : StorageCtx) (b : BucketInfo) (o : ObjectInfo)
  (ib : InternalBucketInfo).

(** ** Bills *)

(** [price.MulInt(n).TruncateInt()] *)
Definition rate_of (price n : Z) : Z := TruncateInt (price * n).

(** A flow is appended when its rate is positive. *)
Definition flow_to (a : Addr) (rate : Z) : list OutFlow :=
  if 0 <? rate then [mkOutFlow a rate OUT_FLOW_STATUS_ACTIVE] else [].

Definition getNegFlows (flows : list OutFlow) : list OutFlow :=
  (fun fl => mkOutFlow (ToAddress fl) (- Rate fl) OUT_FLOW_STATUS_ACTIVE) <$> flows.

Definition getTotalOutFlowRate (flows : list OutFlow) : Z := zsum Rate flows.

(** The price and the tax rate at a time *)
Definition price_at (time : Z) : CM GlobalSpStorePrice :=
  let! c := get in or_fail (GetGlobalSpStorePriceByTime time (sps (wd c))) ErrGetPrice.
Definition versioned_at (time : Z) : CM VersionedParams :=
  let! c := get in
  match GetVersionedParamsWithTs time (chain_pay c) with
  | Ret v => ret v
  | _ => fail ErrGetVersioned
  end.
Definition tax_at (time : Z) : CM Z :=
  let! v := versioned_at time in must (ValidatorTaxRate v).

(** The flows for [chargeSize] bytes of a group with [secondaries] secondary
    providers *)
Definition store_flows (price : GlobalSpStorePrice) (validatorTaxRate : Z)
    (familyAddress gvgAddress : Addr) (secondaries : nat) (chargeSize : Z) : list OutFlow :=
  let primaryStoreFlowRate := rate_of (gp_PrimaryStorePrice price) chargeSize in
  let secondaryStoreFlowRate :=
    rate_of (gp_SecondaryStorePrice price) chargeSize * Z.of_nat secondaries in
  let validatorTaxStoreFlowRate :=
    rate_of validatorTaxRate (primaryStoreFlowRate + secondaryStoreFlowRate) in
  flow_to familyAddress primaryStoreFlowRate ++
  flow_to gvgAddress secondaryStoreFlowRate ++
  flow_to ValidatorTaxPoolAddress validatorTaxStoreFlowRate.

Definition calculateLVGStoreBill (price : GlobalSpStorePrice) (validatorTaxRate : Z)
    (gvgFamily : GlobalVirtualGroupFamily) (gvg : GlobalVirtualGroup) (lvg : LocalVirtualGroup)
    : list OutFlow :=
  store_flows price validatorTaxRate (fam_PaymentAddress gvgFamily) (gvg_PaymentAddress gvg)
    (length (SecondarySpIds gvg)) (lvg_TotalChargeSize lvg).

(** The flows for the read quota *)
Definition read_flows (price : GlobalSpStorePrice) (validatorTaxRate : Z) (familyAddress : Addr)
    (quota : Z) : list OutFlow :=
  let primaryReadFlowRate := rate_of (gp_ReadPrice price) quota in
  flow_to familyAddress primaryReadFlowRate ++
  flow_to ValidatorTaxPoolAddress (rate_of validatorTaxRate primaryReadFlowRate).

Definition GetBucketReadBill b ib : CM UserFlows :=
  if b_ChargedReadQuota b =? 0 then ret (mkUserFlows (b_PaymentAddress b) [])
  else
    let! c := get in
    let! gvgFamily := or_fail (GetGVGFamily (b_GvgFamilyId b) (vg (wd c))) ErrGetFamily in
    let! price := price_at (ib_PriceTime ib) in
    let! tax := tax_at (ib_PriceTime ib) in
    ret (mkUserFlows (b_PaymentAddress b)
           (read_flows price tax (fam_PaymentAddress gvgFamily) (b_ChargedReadQuota b))).

Fixpoint lvg_bills (price : GlobalSpStorePrice) (tax : Z) (gvgFamily : GlobalVirtualGroupFamily)
    (l : list LocalVirtualGroup) : CM (list OutFlow) :=
  match l with
  | [] => ret []
  | lvg :: rest =>
      let! c := get in
      let! gvg := or_fail (GetGVG (lvg_GvgId lvg) (vg (wd c))) ErrGetGroup in
      let! flows := lvg_bills price tax gvgFamily rest in
      ret (calculateLVGStoreBill price tax gvgFamily gvg lvg ++ flows)
  end.

Definition GetBucketReadStoreBill b ib : CM UserFlows :=
  if (ib_TotalChargeSize ib =? 0) && (b_ChargedReadQuota b =? 0)
  then ret (mkUserFlows (b_PaymentAddress b) [])
  else
    let! c := get in
    let! gvgFamily := or_fail (GetGVGFamily (b_GvgFamilyId b) (vg (wd c))) ErrGetFamily in
    let! price := price_at (ib_PriceTime ib) in
    let! tax := tax_at (ib_PriceTime ib) in
    let! stores := lvg_bills price tax gvgFamily (LocalVirtualGroups ib) in
    ret (mkUserFlows (b_PaymentAddress b)
           (read_flows price tax (fam_PaymentAddress gvgFamily) (b_ChargedReadQuota b) ++ stores)).

(** ** Rate limits *)

Definition getBucketFlowRateLimit (paymentAccount bucketOwner : Addr) (bucketName : string) c
    : option Z := rate_limits (st c) !! (paymentAccount, bucketOwner, bucketName).
Definition setBucketFlowRateLimit (paymentAccount bucketOwner : Addr) (bucketName : string)
    (rateLimit : Z) : CM unit :=
  on_st (on_rate_limits (insert (paymentAccount, bucketOwner, bucketName) rateLimit)).
Definition setBucketFlowRateLimitStatus (bucketName : string) (status : RateLimitStatus) : CM unit :=
  on_st (on_limit_status (insert bucketName status)).
Definition deleteBucketFlowRateLimitStatus (bucketName : string) : CM unit :=
  on_st (on_limit_status (delete bucketName)).
Definition IsBucketRateLimited (bucketName : string) c : bool :=
  default false (IsBucketLimited <$> limit_status (st c) !! bucketName).

Definition owner_of b : CM Addr := must (Sdk.AccAddressFromHexUnsafe (b_Owner b)).

Definition shouldCheckRateLimit (paymentAccount bucketOwner : Addr) (bucketName : string) c : bool :=
  match getBucketFlowRateLimit paymentAccount bucketOwner bucketName c with
  | None => negb (IsPaymentAccountOwner paymentAccount bucketOwner (chain_pay c))
  | Some _ => true
  end.

Definition isBucketFlowRateUnderLimitWithRate (paymentAccount bucketOwner : Addr)
    (bucketName : string) (rate : Z) : CM unit :=
  if rate =? 0 then ret tt
  else
    let! c := get in
    match getBucketFlowRateLimit paymentAccount bucketOwner bucketName c with
    | None => guard (negb (IsPaymentAccountOwner paymentAccount bucketOwner (chain_pay c)))
                ErrRateLimitNotSet
    | Some limit => guard (limit <? rate) ErrRateOverLimit
    end.

Definition isBucketFlowRateUnderLimit (paymentAccount bucketOwner : Addr) (bucketName : string)
    (userFlows : UserFlows) : CM unit :=
  isBucketFlowRateUnderLimitWithRate paymentAccount bucketOwner bucketName
    (getTotalOutFlowRate (Flows userFlows)).

(** The check of a bill against the limit of the bucket *)
Definition check_bill b (bill : UserFlows) : CM unit :=
  let! owner := owner_of b in
  isBucketFlowRateUnderLimit (b_PaymentAddress b) owner (b_BucketName b) bill.

Definition apply_flows ctx (l : list UserFlows) : CM unit :=
  on_payment (ApplyUserFlowsList (pay_ctx ctx) l).
Definition neg_bill (u : UserFlows) : UserFlows := mkUserFlows (From u) (getNegFlows (Flows u)).

(** ** The read fee *)

Definition ChargeBucketReadFee ctx b ib : CM InternalBucketInfo :=
  if b_ChargedReadQuota b =? 0 then ret ib
  else
    let ib := set_price_time (now ctx) ib in
    let! bill := GetBucketReadBill b ib in
    do! check_bill b bill ;;
    do! apply_flows ctx [bill] ;;
    ret ib.

Definition UnChargeBucketReadFee ctx b ib : CM unit :=
  do! guard (0 <? ib_TotalChargeSize ib) ErrUnexpectedChargeSize ;;
  let! c := get in
  if IsBucketRateLimited (b_BucketName b) c then ret tt
  else
    let! bill := GetBucketReadBill b ib in
    match Flows bill with
    | [] => ret tt
    | _ => apply_flows ctx [neg_bill bill]
    end.

(** ** Changes of the whole bill *)

Definition ApplyBillChanges ctx (prevFlows currentFlows : option UserFlows) : CM unit :=
  apply_flows ctx (option_list (neg_bill <$> prevFlows) ++ option_list currentFlows).

(** [changeFunc] cannot fail in its two uses. *)
Definition ChargeViaBucketChange ctx b ib
    (changeFunc : BucketInfo * InternalBucketInfo -> BucketInfo * InternalBucketInfo)
    : CM (BucketInfo * InternalBucketInfo) :=
  let! prevBill := GetBucketReadStoreBill b ib in
  let '(b', ib1) := changeFunc (b, ib) in
  let ib' := set_price_time (now ctx) ib1 in
  let! newBill := GetBucketReadStoreBill b' ib' in
  let! c := get in
  let isPreviousBucketLimited := IsBucketRateLimited (b_BucketName b') c in
  do! guard ((b_PaymentAddress b =? b_PaymentAddress b') && isPreviousBucketLimited)
        ErrBucketRateLimited ;;
  do! check_bill b' newBill ;;
  do! (if isPreviousBucketLimited then
         do! ApplyBillChanges ctx None (Some newBill) ;;
         deleteBucketFlowRateLimitStatus (b_BucketName b')
       else ApplyBillChanges ctx (Some prevBill) (Some newBill)) ;;
  ret (b', ib').

Definition UpdateBucketInfoAndCharge ctx b ib (newPaymentAddr : Addr) (newReadQuota : Z)
    : CM (BucketInfo * InternalBucketInfo) :=
  do! guard (negb (b_PaymentAddress b =? newPaymentAddr) &&
             negb (b_ChargedReadQuota b =? newReadQuota)) ErrAddressAndQuota ;;
  ChargeViaBucketChange ctx b ib
    (fun x => (set_b_quota newReadQuota (set_b_payment newPaymentAddr x.1), x.2)).

Definition UnChargeBucketReadStoreFee ctx b ib : CM unit :=
  let! c := get in
  if IsBucketRateLimited (b_BucketName b) c then ret tt
  else
    let! bill := GetBucketReadStoreBill b ib in
    apply_flows ctx [neg_bill bill].

Definition ChargeBucketReadStoreFee ctx b ib : CM InternalBucketInfo :=
  let ib := set_price_time (now ctx) ib in
  let! bill := GetBucketReadStoreBill b ib in
  let! c := get in
  do! guard (IsBucketRateLimited (b_BucketName b) c) ErrBucketRateLimited ;;
  do! check_bill b bill ;;
  do! apply_flows ctx [bill] ;;
  ret ib.

(** ** Sizes and locked fees *)

Definition GetObjectChargeSize (payloadSize ts : Z) : CM Z :=
  let! c := get in
  let! v := or_fail (St_GetVersionedParamsWithTS ts (st c)) ErrGetVersioned in
  ret (if payloadSize <? MinChargeSize v then MinChargeSize v else payloadSize).

(** The amount to lock and the rate it stands for *)
Definition GetObjectLockFee (priceTime payloadSize : Z) : CM (Z * Z) :=
  let! price := price_at priceTime in
  let! chargeSize := GetObjectChargeSize payloadSize priceTime in
  let primaryRate := rate_of (gp_PrimaryStorePrice price) chargeSize in
  let! secondarySPNum := GetExpectSecondarySPNumForECObject priceTime in
  let secondaryRate := rate_of (gp_SecondaryStorePrice price) chargeSize * secondarySPNum in
  let! v := versioned_at priceTime in
  let! tax := must (ValidatorTaxRate v) in
  let validatorTaxRate := rate_of tax (primaryRate + secondaryRate) in
  let rate := primaryRate + secondaryRate + validatorTaxRate in
  ret (rate * ReserveTime v, rate).

Definition change_stream ctx (ch : StreamRecordChange) : CM StreamRecord :=
  on_payment (UpdateStreamRecordByAddr (pay_ctx ctx) ch).
Definition lock_change (a : Addr) (amount : Z) : StreamRecordChange :=
  WithLockBalanceChange amount (NewDefaultStreamRecordChangeWithAddr a).
Definition static_change (a : Addr) (amount : Z) : StreamRecordChange :=
  WithStaticBalanceChange amount (NewDefaultStreamRecordChangeWithAddr a).

Definition lockObjectStoreFee ctx b (timestamp payloadSize : Z) : CM unit :=
  let! fee := GetObjectLockFee timestamp payloadSize in
  let '(amount, rate) := fee in
  let! owner := owner_of b in
  let! c := get in
  do! (if shouldCheckRateLimit (b_PaymentAddress b) owner (b_BucketName b) c then
         let! ib := MustGetInternalBucketInfo (b_Id b) in
         let! nextBill := GetBucketReadStoreBill b (set_price_time timestamp ib) in
         isBucketFlowRateUnderLimitWithRate (b_PaymentAddress b) owner (b_BucketName b)
           (getTotalOutFlowRate (Flows nextBill) + rate)
       else ret tt) ;;
  let! streamRecord := change_stream ctx (lock_change (b_PaymentAddress b) amount) in
  guard (StaticBalance streamRecord <? 0) ErrStaticBalanceShort.

Definition LockObjectStoreFee ctx b o : CM unit :=
  lockObjectStoreFee ctx b (GetLatestUpdatedTime o) (ob_PayloadSize o).
Definition LockShadowObjectStoreFee ctx b (sh : ShadowObjectInfo) : CM unit :=
  lockObjectStoreFee ctx b (sh_UpdatedAt sh) (sh_PayloadSize sh).

(** [UnlockObjectStoreFee] and [UnlockShadowObjectStoreFee] *)
Definition unlock_fee ctx b (timestamp payloadSize : Z) : CM unit :=
  let! fee := GetObjectLockFee timestamp payloadSize in
  do! change_stream ctx (lock_change (b_PaymentAddress b) (- fee.1)) ;;
  ret tt.
Definition UnlockObjectStoreFee ctx b o : CM unit :=
  unlock_fee ctx b (GetLatestUpdatedTime o) (ob_PayloadSize o).
Definition UnlockShadowObjectStoreFee ctx b (sh : ShadowObjectInfo) : CM unit :=
  unlock_fee ctx b (sh_UpdatedAt sh) (sh_PayloadSize sh).

(** ** The store fee of an object *)

(** Of the prices it returns only the comparison is used. *)
Definition IsPriceChanged ctx (priceTime : Z) : CM bool :=
  let! prePrice := price_at priceTime in
  let! currentPrice := price_at (now ctx) in
  let! preTax := tax_at priceTime in
  let! currentTax := tax_at (now ctx) in
  ret (negb ((gp_ReadPrice prePrice =? gp_ReadPrice currentPrice) &&
             (gp_PrimaryStorePrice prePrice =? gp_PrimaryStorePrice currentPrice) &&
             (gp_SecondaryStorePrice prePrice =? gp_SecondaryStorePrice currentPrice) &&
             (preTax =? currentTax))).

(** The charged size of a bucket and of one of its groups *)
Definition charge_lvg (lvgID delta : Z) ib : InternalBucketInfo :=
  add_total_charge delta (on_lvgs (modify_first (is_lvg lvgID) (add_lvg_charge delta)) ib).

Definition ChargeViaObjectChange ctx b ib o (chargeSize : Z) (is_delete : bool)
    : CM (InternalBucketInfo * list OutFlow) :=
  let! c := get in
  let! gvgFamily := or_fail (GetGVGFamily (b_GvgFamilyId b) (vg (wd c))) ErrGetFamily in
  let! price := price_at (ib_PriceTime ib) in
  let! lvg := must (GetLVG (ob_LocalVirtualGroupId o) ib) in
  let! gvg := or_fail (GetGVG (lvg_GvgId lvg) (vg (wd c))) ErrGetGroup in
  let! tax := tax_at (ib_PriceTime ib) in
  let preOutFlows := calculateLVGStoreBill price tax gvgFamily gvg lvg in
  let delta := if is_delete then - chargeSize else chargeSize in
  let newOutFlows :=
    calculateLVGStoreBill price tax gvgFamily gvg (add_lvg_charge delta lvg) in
  let ib' := charge_lvg (ob_LocalVirtualGroupId o) delta ib in
  let userFlows := mkUserFlows (b_PaymentAddress b) (getNegFlows preOutFlows ++ newOutFlows) in
  let isRateLimited := IsBucketRateLimited (b_BucketName b) c in
  do! (if sc_forced ctx then ret tt
       else
         do! guard isRateLimited ErrBucketRateLimited ;;
         let! currentBill := GetBucketReadStoreBill b ib' in
         check_bill b currentBill) ;;
  do! (if sc_forced ctx && isRateLimited then ret tt else apply_flows ctx [userFlows]) ;;
  ret (ib', MergeOutFlows (Flows userFlows)).

Definition ChargeObjectStoreFee ctx b ib o : CM (BucketInfo * InternalBucketInfo) :=
  let! chargeSize := GetObjectChargeSize (ob_PayloadSize o) (GetLatestUpdatedTime o) in
  let! priceChanged := IsPriceChanged ctx (ib_PriceTime ib) in
  if negb priceChanged then
    let! x := ChargeViaObjectChange ctx b ib o chargeSize false in
    ret (b, x.1)
  else
    ChargeViaBucketChange ctx b ib
      (fun x => (x.1, charge_lvg (ob_LocalVirtualGroupId o) chargeSize x.2)).

Definition UnlockAndChargeObjectStoreFee ctx b ib o : CM (BucketInfo * InternalBucketInfo) :=
  do! UnlockObjectStoreFee ctx b o ;;
  ChargeObjectStoreFee ctx b ib o.

(** The receivers are paid [timeToPay] seconds of the flows at once. *)
Fixpoint pay_early ctx (userFlows : list OutFlow) (timeToPay : Z) : CM Z :=
  match userFlows with
  | [] => ret 0
  | flow :: rest =>
      let staticBalanceChange := Z.abs (Rate flow) * timeToPay in
      do! change_stream ctx (static_change (ToAddress flow) staticBalanceChange) ;;
      let! total := pay_early ctx rest timeToPay in
      ret (staticBalanceChange + total)
  end.

Definition ChargeObjectStoreFeeForEarlyDeletion ctx (userFlows : list OutFlow) b (timeToPay : Z)
    : CM unit :=
  let! total := pay_early ctx userFlows timeToPay in
  do! change_stream ctx (static_change (b_PaymentAddress b) (- total)) ;;
  ret tt.

Definition UnChargeObjectStoreFee ctx b ib o : CM InternalBucketInfo :=
  let! chargeSize := GetObjectChargeSize (ob_PayloadSize o) (GetLatestUpdatedTime o) in
  let! x := ChargeViaObjectChange ctx b ib o chargeSize true in
  let '(ib', userFlows) := x in
  let! v := versioned_at (ib_PriceTime ib') in
  let timeToPay := i64 (GetLatestUpdatedTime o + i64 (ReserveTime v) - now ctx) in
  do! (if 0 <? timeToPay then
         on_err (ChargeObjectStoreFeeForEarlyDeletion ctx userFlows b timeToPay)
           (fun e => if sc_forced ctx then ret tt else fail e)
       else ret tt) ;;
  ret ib'.

(** ** Setting a limit *)

Definition unCharge_bucket ctx b ib : CM unit :=
  let! bill := GetBucketReadStoreBill b ib in
  apply_flows ctx [neg_bill bill].

(** [chargeBucketReadStoreFee] of the rate limits, without their check *)
Definition charge_bucket ctx b ib : CM unit :=
  let ib := set_price_time (now ctx) ib in
  let! bill := GetBucketReadStoreBill b ib in
  do! apply_flows ctx [bill] ;;
  on_st (SetInternalBucketInfo (b_Id b) ib).

Definition unChargeAndLimitBucket ctx b (paymentAccount : Addr) (bucketName : string) : CM unit :=
  do! setBucketFlowRateLimitStatus bucketName (mkLimitStatus true paymentAccount) ;;
  let! ib := MustGetInternalBucketInfo (b_Id b) in
  unCharge_bucket ctx b ib.

Definition setFlowRateLimit ctx b (paymentAccount : Addr) (bucketName : string) (rateLimit : Z)
    : CM unit :=
  let! owner := owner_of b in
  let! c := get in
  let current := getBucketFlowRateLimit paymentAccount owner bucketName c in
  if bool_decide (current = Some rateLimit) then ret tt
  else
    let! ib := MustGetInternalBucketInfo (b_Id b) in
    if bool_decide (is_Some current) && IsBucketRateLimited bucketName c then
      let ib := set_price_time (now ctx) ib in
      let! currentBill := GetBucketReadStoreBill b ib in
      if getTotalOutFlowRate (Flows currentBill) <=? rateLimit then
        do! charge_bucket ctx b ib ;;
        deleteBucketFlowRateLimitStatus bucketName
      else ret tt
    else
      let! bill := GetBucketReadStoreBill b ib in
      if rateLimit <? getTotalOutFlowRate (Flows bill) then
        unChargeAndLimitBucket ctx b paymentAccount bucketName
      else ret tt.

Definition SetBucketFlowRateLimit ctx (operator bucketOwner paymentAccount : Addr)
    (bucketName : string) (rateLimit : Z) : CM unit :=
  let! c := get in
  do! guard (negb (IsPaymentAccountOwner paymentAccount operator (chain_pay c)))
        (ErrPay ErrNotPaymentAccountOwner) ;;
  do! (match St_GetBucketInfo bucketName c with
       | Some b =>
           if negb (b_PaymentAddress b =? paymentAccount) ||
              negb (bool_decide (b_Owner b = AccAddress_String bucketOwner))
           then ret tt
           else setFlowRateLimit ctx b paymentAccount bucketName rateLimit
       | None => ret tt
       end) ;;
  setBucketFlowRateLimit paymentAccount bucketOwner bucketName rateLimit.

End Charge.
