(* ===== verification/StorageGroups.v ===== *)
(** * x/storage: binding objects to virtual groups

    [x/storage/keeper/virtualgroup.go] and [verifyGVGSignatures] of
    [msg_server.go]: sealing an object into a global virtual group of the
    bucket's family, taking a deleted object out of its group, and moving the
    groups of a migrated bucket.  The local group [lvg] of a bucket records
    what the bucket stores in one global group. *)

From S2P Require Import Prelude Sdk Bytes StorageTypes StoragePermission FeeMarket.
From S2P Require Import SpTypes SpKeeper VirtualGroupTypes VirtualGroupKeeper.
From S2P Require Import VirtualGroupPayment PaymentTypes PaymentStore PaymentStream PaymentFlows.
From S2P Require Import StorageStore StorageCharge.

Section Groups.
Context {B N : Type} {HBank : BankKeeper B} {HAddr : Addresses} {HCrypto : StorageCrypto}.
Abbreviation CM := (M (Chain B N) storage_error).
Implicit Types (c : Chain B N) (ctx : StorageCtx) (b : BucketInfo) (o : ObjectInfo)
  (ib : InternalBucketInfo).

Definition set_ib b ib : CM unit := on_st (SetInternalBucketInfo (b_Id b) ib).
Definition set_gvg (g : GlobalVirtualGroup) : CM unit := on_world (on_vg (SetGVG g)).
Definition get_gvg (id : Z) (e : storage_error) : CM GlobalVirtualGroup :=
  let! c := get in or_fail (GetGVG id (vg (wd c))) e.
Definition add_stored (d : Z) (g : GlobalVirtualGroup) : GlobalVirtualGroup :=
  set_stored (u64 (StoredSize g + d)) g.

Definition DeleteObjectFromVirtualGroup b o : CM unit :=
  let! ib := MustGetInternalBucketInfo (b_Id b) in
  let! lvg := must (GetLVG (ob_LocalVirtualGroupId o) ib) in
  let! gvg := get_gvg (lvg_GvgId lvg) (ErrVg ErrGVGNotExist) in
  let lvg' := add_lvg_stored (- ob_PayloadSize o) lvg in
  let ib1 := on_lvgs (modify_first (is_lvg (ob_LocalVirtualGroupId o))
                        (add_lvg_stored (- ob_PayloadSize o))) ib in
  let! ib2 :=
    (if lvg_TotalChargeSize lvg' =? 0 then
       if negb (lvg_StoredSize lvg' =? 0) then panic
       else ret (DeleteLVG (ob_LocalVirtualGroupId o) ib1)
     else ret ib1) in
  do! set_gvg (add_stored (- ob_PayloadSize o) gvg) ;;
  set_ib b ib2.

(** The local group for a global one, made when the bucket has none, with the
    object's bytes added; the id is given to the object. *)
Definition bind_lvg (gvgID gvg_id payload : Z) ib : CM (Z * InternalBucketInfo) :=
  match GetLVGByGVGID gvgID ib with
  | Some lvg =>
      ret (lvg_Id lvg, on_lvgs (modify_first (is_on_gvg gvgID) (add_lvg_stored payload)) ib)
  | None =>
      let! c := get in
      do! guard (StorageTypes.MaxLocalVirtualGroupNumPerBucket (St_GetParams (st c)) <?
                 Z.of_nat (length (LocalVirtualGroups ib))) ErrVirtualGroupOperateFailed ;;
      let lvg := mkLvg (u32 (GetMaxLVGID ib + 1)) gvg_id 0 0 in
      let! ib' := must (AppendLVG (add_lvg_stored payload lvg) ib) in
      ret (lvg_Id lvg, ib')
  end.

(** Gives back the object with its local group. *)
Definition SealObjectOnVirtualGroup ctx b (gvgID : Z) o : CM ObjectInfo :=
  let! gvg := on_world (GetGlobalVirtualGroupIfAvailable gvgID (ob_PayloadSize o)) in
  let! ib := MustGetInternalBucketInfo (b_Id b) in
  let! x := bind_lvg gvgID (gvg_Id gvg) (ob_PayloadSize o) ib in
  let '(lvgID, ib1) := x in
  let o' := set_ob_lvg lvgID o in
  let! y :=
    (if ob_PayloadSize o' =? 0 then ChargeObjectStoreFee ctx b ib1 o'
     else UnlockAndChargeObjectStoreFee ctx b ib1 o') in
  do! set_gvg (add_stored (ob_PayloadSize o) gvg) ;;
  do! set_ib b y.2 ;;
  ret o'.

Definition SealEmptyObjectOnVirtualGroup ctx b o : CM ObjectInfo :=
  let! c := get in
  let! family := or_fail (GetGVGFamily (b_GvgFamilyId b) (vg (wd c)))
                   (ErrVg ErrGVGFamilyNotExist) in
  match GlobalVirtualGroupIds family with
  | [] => fail (ErrVg ErrGVGNotExist)
  | gvgID :: _ => SealObjectOnVirtualGroup ctx b gvgID o
  end.

Definition GetObjectGVG (bucketID lvgID : Z) : CM (option GlobalVirtualGroup) :=
  let! ib := MustGetInternalBucketInfo bucketID in
  let! c := get in
  ret (match GetLVG lvgID ib with
       | Some lvg => GetGVG (lvg_GvgId lvg) (vg (wd c))
       | None => None
       end).

(** ** Migration *)

(** [gvgsMap[src]]: a later mapping of the same group replaces an earlier one. *)
Definition mapped_gvg (src : Z) (l : list GVGMapping) : option Z :=
  gm_DstGvgId <$> last (filter (fun m => gm_SrcGvgId m = src) l).

Definition rebind_lvg ctx (gvgMappings : list GVGMapping) (lvg : LocalVirtualGroup)
    : CM LocalVirtualGroup :=
  let! dstGVGID := or_fail (mapped_gvg (lvg_GvgId lvg) gvgMappings) ErrVirtualGroupOperateFailed in
  let! dstGVG := get_gvg dstGVGID ErrVirtualGroupOperateFailed in
  let! srcGVG := get_gvg (lvg_GvgId lvg) ErrVirtualGroupOperateFailed in
  do! on_err (on_world (SettleAndDistributeGVG (sc_block ctx) srcGVG))
        (fun _ => fail ErrVirtualGroupOperateFailed) ;;
  do! set_gvg (add_stored (- lvg_StoredSize lvg) srcGVG) ;;
  do! set_gvg (add_stored (lvg_StoredSize lvg) dstGVG) ;;
  ret (set_lvg_gvg dstGVGID lvg).

Fixpoint rebind_lvgs ctx (gvgMappings : list GVGMapping) (l : list LocalVirtualGroup)
    : CM (list LocalVirtualGroup) :=
  match l with
  | [] => ret []
  | lvg :: rest =>
      let! lvg' := rebind_lvg ctx gvgMappings lvg in
      let! rest' := rebind_lvgs ctx gvgMappings rest in
      ret (lvg' :: rest')
  end.

Definition RebindingVirtualGroup ctx b ib (gvgMappings : list GVGMapping) : CM unit :=
  let! lvgs := rebind_lvgs ctx gvgMappings (LocalVirtualGroups ib) in
  let! ib' := on_err (ChargeBucketReadStoreFee ctx b (on_lvgs (fun _ => lvgs) ib))
                (fun _ => fail ErrMigrationBucketFailed) in
  set_ib b ib'.

(** The keys of the secondary providers; a key that is not one is an error. *)
Fixpoint secondary_keys (ids : list Z) : CM (list (list Z)) :=
  match ids with
  | [] => ret []
  | spID :: rest =>
      let! c := get in
      let! secondarySp := must (GetStorageProvider spID (sps (wd c))) in
      do! guard (negb (BlsKeyValid (BlsKey secondarySp))) ErrInvalidBlsPubKey ;;
      let! keys := secondary_keys rest in
      ret (BlsKey secondarySp :: keys)
  end.

Definition VerifyGVGSecondarySPsBlsSignature (gvg : GlobalVirtualGroup)
    (signHash signature : list Z) : CM unit :=
  let! keys := secondary_keys (SecondarySpIds gvg) in
  guard (negb (VerifyBlsAggSignature keys signHash signature)) ErrInvalidBlsSignature.

Fixpoint verifyGVGSignatures (bucketID : Z) (dstSP : StorageProvider)
    (gvgMappings : list GVGMapping) : CM unit :=
  match gvgMappings with
  | [] => ret tt
  | m :: rest =>
      let! dstGVG := get_gvg (gm_DstGvgId m) (ErrVg ErrGVGNotExist) in
      do! VerifyGVGSecondarySPsBlsSignature dstGVG
            (MigrationBucketSignDoc bucketID (sp_Id dstSP) (gm_SrcGvgId m) (gvg_Id dstGVG))
            (gm_Signature m) ;;
      verifyGVGSignatures bucketID dstSP rest
  end.

End Groups.
