(* ===== verification/StorageObjects.v ===== *)
(** * x/storage: the life of an object

    The object functions of [x/storage/keeper/keeper.go]: creating, copying,
    sealing, cancelling, rejecting, updating and deleting an object, and its
    forced deletion after a provider discontinued it.  Checksums are absent
    exactly when the list is empty, as after decoding a message or a stored
    record; events are not modelled. *)

From S2P Require Import Prelude Sdk Bytes StorageTypes Grn Permission PermissionKeeper.
From S2P Require Import StoragePermission StorageGC FeeMarket.
From S2P Require Import SpTypes SpKeeper VirtualGroupTypes VirtualGroupKeeper.
From S2P Require Import VirtualGroupPayment PaymentTypes PaymentStore PaymentStream PaymentFlows.
From S2P Require Import StorageStore StorageCharge StorageGroups.

Section Objects.
Context {B N : Type} {HBank : BankKeeper B} {HAddr : Addresses} {HCrypto : StorageCrypto}
  {HNft : NftContracts N} {HUint : UintText} {HRegexps : Regexps}.
Abbreviation CM := (M (Chain B N) storage_error).
Implicit Types (c : Chain B N) (ctx : StorageCtx) (b : BucketInfo) (o : ObjectInfo)
  (ib : InternalBucketInfo) (bucketName objectName : string) (operator : Addr).

(** ** Shared steps *)

Definition find_bucket bucketName : CM BucketInfo :=
  let! c := get in or_fail (St_GetBucketInfo bucketName c) ErrNoSuchBucket.
Definition find_object bucketName objectName : CM ObjectInfo :=
  let! c := get in or_fail (St_GetObjectInfo bucketName objectName c) ErrNoSuchObject.

Definition MustGetPrimarySPForBucket b : CM StorageProvider :=
  let! c := get in
  let! gvgFamily := must (GetGVGFamily (b_GvgFamilyId b) (vg (wd c))) in
  must (GetStorageProvider (fam_PrimarySpId gvgFamily) (sps (wd c))).

Definition fromSpMaintenanceAcct (sp : StorageProvider) operator : bool :=
  IsInMaintenance sp && (operator =? MaintenanceAddress sp).
Definition serves (sp : StorageProvider) operator : bool :=
  IsInService sp || fromSpMaintenanceAcct sp operator.

Definition VerifySP (sp : StorageProvider) operator : CM unit :=
  guard (negb (serves sp operator)) (ErrSpKeeper ErrStorageProviderNotInService).
Definition VerifySPAndSignature (sp : StorageProvider) (sigData signature : list Z) operator
    : CM unit :=
  do! VerifySP sp operator ;;
  guard (negb (VerifySignature (ApprovalAddress sp) sigData signature)) ErrInvalidApproval.

Definition bucket_effect ctx b operator (action : ActionType) (opts : option VerifyOptions)
    : CM Effect :=
  let! c := get in
  on_perm (VerifyBucketPermission (res (st c)) (perm_ctx ctx) b (Some operator) action opts).
Definition object_effect ctx b o operator (action : ActionType) : CM Effect :=
  let! c := get in
  on_perm (VerifyObjectPermission (res (st c)) (perm_ctx ctx) b o (Some operator) action).
Definition allows (e : Effect) : bool := bool_decide (e = EFFECT_ALLOW).

Definition check_bucket ctx b operator action opts : CM unit :=
  let! effect := bucket_effect ctx b operator action opts in
  guard (negb (allows effect)) ErrStAccessDenied.
Definition check_object ctx b o operator action : CM unit :=
  let! effect := object_effect ctx b o operator action in
  guard (negb (allows effect)) ErrStAccessDenied.

Definition CheckBucketStatus b : CM unit :=
  match b_BucketStatus b with
  | BUCKET_STATUS_DISCONTINUED => fail ErrBucketDiscontinued
  | BUCKET_STATUS_MIGRATING => fail ErrBucketMigrating
  | BUCKET_STATUS_CREATED => ret tt
  end.

Definition CallEVM (x : nft_call) : CM unit :=
  let! c := get in
  let! n := or_fail (nft_run x (nfts c)) ErrEvmCall in
  modify (with_nfts n).

Definition set_bucket b : CM unit := on_st (SetBucketInfo b).
Definition set_object o : CM unit := on_st (SetObjectInfo o).
Definition lock_one b : CM unit := on_st (IncreaseLockedObjectCount (b_Id b)).
Definition unlock_one b : CM unit := on_st (DecreaseLockedObjectCount (b_Id b)).

Definition status_is (v : ObjectStatus) o : bool := bool_decide (ob_ObjectStatus o = v).

(** ** Creating *)

(** A delegated creation comes from the primary provider. *)
Definition check_agent b (sp : StorageProvider) operator : CM unit :=
  do! guard (b_SpAsDelegatedAgentDisabled b) ErrStAccessDenied ;;
  guard (negb (operator =? OperatorAddress sp)) ErrStAccessDenied.

(** The fee of a new object: charged at once when it is empty, else locked *)
Definition enter_object ctx b o : CM ObjectInfo :=
  if ob_PayloadSize o =? 0 then SealEmptyObjectOnVirtualGroup ctx b o
  else do! LockObjectStoreFee ctx b o ;; ret o.

Definition store_new (bucketName objectName : string) b o : CM unit :=
  do! set_bucket b ;;
  do! (if status_is OBJECT_STATUS_CREATED o then lock_one b else ret tt) ;;
  on_st (StoreObjectInfo bucketName objectName o).

Definition new_status (payloadSize : Z) : ObjectStatus :=
  if payloadSize =? 0 then OBJECT_STATUS_SEALED else OBJECT_STATUS_CREATED.

Definition CreateObject ctx operator bucketName objectName (payloadSize : Z)
    (opts : CreateObjectOptions) : CM Z :=
  let! c := get in
  do! guard (MaxPayloadSize (St_GetParams (st c)) <? payloadSize) ErrTooLargeObject ;;
  let! b := find_bucket bucketName in
  do! CheckBucketStatus b ;;
  let! sp := MustGetPrimarySPForBucket b in
  do! (match co_Delegated opts with Some _ => check_agent b sp operator | None => ret tt end) ;;
  let creator := default operator (co_Delegated opts) in
  do! check_bucket ctx b creator ACTION_CREATE_OBJECT
        (Some (mkOptions EmptyString (Some payloadSize))) ;;
  let! owner := owner_of b in
  do! VerifySP sp operator ;;
  do! guard (bool_decide (is_Some (object_ids (res (st c)) !! (bucketName, objectName))))
        ErrObjectAlreadyExists ;;
  let! id := GenNextObjectID in
  let o := mkObject (b_Owner b)
             (if creator =? owner then EmptyString else AccAddress_String creator)
             bucketName objectName id 0 payloadSize (co_Visibility opts) (co_ContentType opts)
             (now ctx) (new_status payloadSize) (co_RedundancyType opts) (co_SourceType opts)
             (co_Checksums opts) false 0 EmptyString 0 in
  let! o' := enter_object ctx b o in
  do! store_new bucketName objectName b o' ;;
  ret id.

(** The destination name is not looked up. *)
Definition CopyObject ctx operator (srcBucketName srcObjectName dstBucketName dstObjectName : string)
    (opts : CopyObjectOptions) : CM Z :=
  let! srcB := find_bucket srcBucketName in
  let! dstB := find_bucket dstBucketName in
  let! dstSP := MustGetPrimarySPForBucket dstB in
  do! CheckBucketStatus dstB ;;
  let! src := find_object srcBucketName srcObjectName in
  do! guard (negb (bool_decide (ob_SourceType src = cp_SourceType opts))) ErrSourceTypeMismatch ;;
  do! guard (ob_IsUpdating src) ErrStAccessDenied ;;
  do! check_object ctx srcB src operator ACTION_COPY_OBJECT ;;
  let! approval := or_fail (cp_PrimarySpApproval opts) ErrInvalidApproval in
  do! guard (ap_ExpiredHeight approval <? u64 (sp_BlockHeight (sc_block ctx)))
        ErrInvalidApproval ;;
  do! VerifySPAndSignature dstSP (cp_ApprovalMsgBytes opts) (ap_Sig approval) operator ;;
  let! id := GenNextObjectID in
  let o := mkObject (AccAddress_String operator) EmptyString (b_BucketName dstB) dstObjectName id 0
             (ob_PayloadSize src) (cp_Visibility opts) (ob_ContentType src) (now ctx)
             (new_status (ob_PayloadSize src)) (ob_RedundancyType src) (cp_SourceType opts)
             (ob_Checksums src) false 0 EmptyString 0 in
  let! o' := enter_object ctx dstB o in
  do! store_new dstBucketName dstObjectName dstB o' ;;
  ret id.

(** ** Sealing *)

(** The object with the content of its shadow; missing checksums are those of
    the message. *)
Definition with_shadow (sh : ShadowObjectInfo) (checksums : list (list Z)) o : ObjectInfo :=
  mkObject (ob_Owner o) (ob_Creator o) (ob_BucketName o) (ob_ObjectName o) (ob_Id o)
    (ob_LocalVirtualGroupId o) (sh_PayloadSize sh) (ob_Visibility o) (sh_ContentType sh)
    (ob_CreateAt o) (ob_ObjectStatus o) (ob_RedundancyType o) (ob_SourceType o) checksums
    false (sh_UpdatedAt sh) (sh_Operator sh) (sh_Version sh).

Definition or_checksums (own given : list (list Z)) : CM (list (list Z)) :=
  match own, given with
  | [], [] => fail ErrObjectChecksumsMissing
  | [], _ => ret given
  | _, _ => ret own
  end.

(** Takes the content of a sealed object out of the bill and of its group. *)
Definition withdraw_object ctx b o : CM unit :=
  let! ib := MustGetInternalBucketInfo (b_Id b) in
  let! ib' := UnChargeObjectStoreFee ctx b ib o in
  do! set_ib b ib' ;;
  DeleteObjectFromVirtualGroup b o.

Definition take_update ctx b o bucketName objectName (opts : SealObjectOptions) : CM ObjectInfo :=
  if ob_IsUpdating o && status_is OBJECT_STATUS_SEALED o then
    do! withdraw_object ctx b o ;;
    let! sh := MustGetShadowObjectInfo bucketName objectName in
    let! checksums := or_checksums (sh_Checksums sh) (so_Checksums opts) in
    do! on_st (on_shadows (delete (b_BucketName b, objectName))) ;;
    ret (with_shadow sh checksums o)
  else
    do! guard (negb (status_is OBJECT_STATUS_CREATED o)) ErrObjectAlreadySealed ;;
    ret o.

Definition SealObject ctx (spSealAcc : Addr) bucketName objectName (opts : SealObjectOptions)
    : CM unit :=
  let! b := find_bucket bucketName in
  let! c := get in
  let! sp := or_fail (GetStorageProviderBySealAddr spSealAcc (sps (wd c)))
               ErrNoSuchStorageProvider in
  let! spInState := MustGetPrimarySPForBucket b in
  do! guard (negb (sp_Id sp =? sp_Id spInState)) ErrStAccessDenied ;;
  let! o0 := find_object bucketName objectName in
  let! checksums := or_checksums (ob_Checksums o0) (so_Checksums opts) in
  let! o := take_update ctx b (set_ob_checksums checksums o0) bucketName objectName opts in
  let! gvg := get_gvg (so_GvgId opts) (ErrVg ErrGVGNotExist) in
  do! guard (negb (FamilyId gvg =? b_GvgFamilyId b) || negb (PrimarySpId gvg =? sp_Id spInState))
        ErrInvalidGlobalVirtualGroup ;;
  let! expect := GetExpectSecondarySPNumForECObject (GetLatestUpdatedTime o) in
  do! guard (negb (expect =? Z.of_nat (length (SecondarySpIds gvg)))) ErrInvalidGlobalVirtualGroup ;;
  do! VerifyGVGSecondarySPsBlsSignature gvg
        (SealObjectSignDoc (gvg_Id gvg) (ob_Id o) (ob_Checksums o)) (so_Signatures opts) ;;
  let! o' := on_err (SealObjectOnVirtualGroup ctx b (so_GvgId opts) o)
               (fun _ => fail ErrInvalidGlobalVirtualGroup) in
  let o'' := set_ob_status OBJECT_STATUS_SEALED o' in
  do! set_bucket b ;;
  do! unlock_one b ;;
  do! set_object o'' ;;
  CallEVM (MintObject (ob_Owner o'') (ob_Id o'')).

(** ** Cancelling and rejecting *)

Definition remove_object bucketName objectName (id : Z) : CM unit :=
  on_st (DeleteObjectInfo bucketName objectName id).

Definition CancelCreateObject ctx operator bucketName objectName (sourceType : SourceType)
    : CM unit :=
  let! b := find_bucket bucketName in
  let! o := find_object bucketName objectName in
  do! MustGetPrimarySPForBucket b ;;
  do! guard (negb (status_is OBJECT_STATUS_CREATED o)) ErrObjectNotCreated ;;
  do! guard (negb (bool_decide (ob_SourceType o = sourceType))) ErrSourceTypeMismatch ;;
  let! creator :=
    (if bool_decide (ob_Creator o = EmptyString) then ret None
     else let! a := must (Sdk.AccAddressFromHexUnsafe (ob_Creator o)) in ret (Some a)) in
  let! effect := object_effect ctx b o operator ACTION_DELETE_OBJECT in
  do! guard (negb (allows effect) && negb (bool_decide (creator = Some operator)))
        ErrStAccessDenied ;;
  do! UnlockObjectStoreFee ctx b o ;;
  do! set_bucket b ;;
  do! unlock_one b ;;
  remove_object bucketName objectName (ob_Id o).

Definition UnlockShadowObjectFeeAndDeleteShadowObjectInfo ctx b (sh : ShadowObjectInfo) objectName
    : CM unit :=
  do! UnlockShadowObjectStoreFee ctx b sh ;;
  on_st (on_shadows (delete (b_BucketName b, objectName))).

(** Drops the update of an object. *)
Definition drop_update ctx b bucketName objectName : CM ShadowObjectInfo :=
  let! sh := MustGetShadowObjectInfo bucketName objectName in
  do! UnlockShadowObjectFeeAndDeleteShadowObjectInfo ctx b sh objectName ;;
  ret sh.

Definition RejectSealObject ctx operator bucketName objectName : CM unit :=
  let! b := find_bucket bucketName in
  let! o := find_object bucketName objectName in
  let! spInState := MustGetPrimarySPForBucket b in
  do! guard (negb (status_is OBJECT_STATUS_CREATED o) && negb (ob_IsUpdating o))
        ErrObjectNotCreated ;;
  let! c := get in
  let! sp := or_fail (GetStorageProviderBySealAddr operator (sps (wd c)))
               ErrNoSuchStorageProvider in
  do! guard (negb (IsInService sp) && negb (IsInMaintenance sp))
        (ErrSpKeeper ErrStorageProviderNotInService) ;;
  do! guard (negb (sp_Id sp =? sp_Id spInState)) ErrStAccessDenied ;;
  do! (if ob_IsUpdating o then
         do! drop_update ctx b bucketName objectName ;;
         set_object (set_ob_updating false o)
       else
         do! UnlockObjectStoreFee ctx b o ;;
         do! set_bucket b ;;
         remove_object bucketName objectName (ob_Id o)) ;;
  unlock_one b.

(** The permission is checked after the fee is unlocked; an error reverts. *)
Definition CancelUpdateObjectContent ctx operator bucketName objectName : CM unit :=
  let! b := find_bucket bucketName in
  let! o := find_object bucketName objectName in
  do! guard (negb (ob_IsUpdating o)) ErrObjectIsNotUpdating ;;
  let! sh := drop_update ctx b bucketName objectName in
  let! updater := must (Sdk.AccAddressFromHexUnsafe (sh_Operator sh)) in
  let! owner := must (Sdk.AccAddressFromHexUnsafe (ob_Owner o)) in
  do! guard (negb (operator =? owner) && negb (operator =? updater)) ErrStAccessDenied ;;
  do! set_object (set_ob_updating false o) ;;
  unlock_one b.

(** ** Updating *)

Definition UpdateObjectInfo ctx operator bucketName objectName (visibility : VisibilityType)
    : CM unit :=
  let! b := find_bucket bucketName in
  let! o := find_object bucketName objectName in
  do! check_object ctx b o operator ACTION_UPDATE_OBJECT_INFO ;;
  set_object (set_ob_visibility visibility o).

(** An update to no content is sealed at once. *)
Definition emptied ctx (opts : UpdateObjectOptions) (updater : Addr) (version : Z) o : ObjectInfo :=
  mkObject (ob_Owner o) (ob_Creator o) (ob_BucketName o) (ob_ObjectName o) (ob_Id o)
    (ob_LocalVirtualGroupId o) 0 (ob_Visibility o) (uo_ContentType opts) (ob_CreateAt o)
    (ob_ObjectStatus o) (ob_RedundancyType o) (ob_SourceType o) (uo_Checksums opts)
    (ob_IsUpdating o) (now ctx) (AccAddress_String updater) version.

Definition UpdateObjectContent ctx operator bucketName objectName (payloadSize : Z)
    (opts : UpdateObjectOptions) : CM unit :=
  let! b := find_bucket bucketName in
  do! CheckBucketStatus b ;;
  let! o := find_object bucketName objectName in
  do! guard (negb (status_is OBJECT_STATUS_SEALED o)) ErrUpdateObjectNotAllowed ;;
  do! guard (ob_IsUpdating o) ErrObjectIsUpdating ;;
  let updater := default operator (uo_Delegated opts) in
  do! check_object ctx b o updater ACTION_UPDATE_OBJECT_CONTENT ;;
  let! c := get in
  do! guard (MaxPayloadSize (St_GetParams (st c)) <? payloadSize) ErrTooLargeObject ;;
  let! sp := MustGetPrimarySPForBucket b in
  do! guard (negb (serves sp operator)) ErrNoSuchStorageProvider ;;
  do! (match uo_Delegated opts with Some _ => check_agent b sp operator | None => ret tt end) ;;
  let nextVersion := i64 (ob_Version o + 1) in
  let! o' :=
    (if payloadSize =? 0 then
       do! withdraw_object ctx b o ;;
       SealEmptyObjectOnVirtualGroup ctx b (emptied ctx opts updater nextVersion o)
     else
       let sh := mkShadow (AccAddress_String updater) (ob_Id o) (uo_ContentType opts) payloadSize
                   (uo_Checksums opts) (now ctx) nextVersion in
       do! on_st (on_shadows (insert (bucketName, objectName) sh)) ;;
       do! LockShadowObjectStoreFee ctx b sh ;;
       do! lock_one b ;;
       ret (set_ob_updating true o)) in
  on_st (StoreObjectInfo bucketName objectName o').

(** ** Deleting *)

Definition doDeleteObject b o (originalStatus : ObjectStatus) : CM unit :=
  do! set_bucket b ;;
  do! remove_object (b_BucketName b) (ob_ObjectName o) (ob_Id o) ;;
  do! (if negb (ob_LocalVirtualGroupId o =? 0) then DeleteObjectFromVirtualGroup b o
       else ret tt) ;;
  do! on_gc (appendResourceIDForGarbageCollection RESOURCE_TYPE_OBJECT (ob_Id o)) ;;
  if bool_decide (originalStatus = OBJECT_STATUS_SEALED) && (0 <? ob_PayloadSize o)
  then CallEVM (BurnObject (ob_Id o)) else ret tt.

Definition uncharge_object ctx b o : CM unit :=
  let! ib := MustGetInternalBucketInfo (b_Id b) in
  let! ib' := UnChargeObjectStoreFee ctx b ib o in
  set_ib b ib'.

(** Drops the update of an object that is deleted. *)
Definition drop_if_updating ctx b o : CM unit :=
  if ob_IsUpdating o then
    do! drop_update ctx b (b_BucketName b) (ob_ObjectName o) ;;
    unlock_one b
  else ret tt.

Definition DeleteObject ctx operator bucketName objectName (sourceType : SourceType) : CM unit :=
  let! b := find_bucket bucketName in
  let! o := find_object bucketName objectName in
  do! guard (status_is OBJECT_STATUS_DISCONTINUED o) ErrInvalidObjectStatus ;;
  do! guard (negb (bool_decide (ob_SourceType o = sourceType))) ErrSourceTypeMismatch ;;
  if status_is OBJECT_STATUS_CREATED o then
    CancelCreateObject ctx operator bucketName objectName SOURCE_TYPE_ORIGIN
  else
    do! check_object ctx b o operator ACTION_DELETE_OBJECT ;;
    do! drop_if_updating ctx b o ;;
    do! uncharge_object ctx b o ;;
    doDeleteObject b o (ob_ObjectStatus o).

(** ** Forced deletion *)

Definition saveDiscontinueObjectStatus o : CM unit :=
  on_st (on_disc_statuses (insert (ob_Id o) (ob_ObjectStatus o))).
Definition getAndDeleteDiscontinueObjectStatus (id : Z) : CM ObjectStatus :=
  let! c := get in
  let! status := or_fail (disc_statuses (st c) !! id) ErrInvalidObjectStatus in
  do! on_st (on_disc_statuses (delete id)) ;;
  ret status.

(** What an object of the status owes or has locked is given up. *)
Definition release ctx b o (status : ObjectStatus) : CM unit :=
  match status with
  | OBJECT_STATUS_CREATED =>
      do! UnlockObjectStoreFee ctx b o ;;
      unlock_one b
  | OBJECT_STATUS_SEALED =>
      do! uncharge_object ctx b o ;;
      drop_if_updating ctx b o
  | OBJECT_STATUS_DISCONTINUED => ret tt
  end.

Definition ForceDeleteObject ctx (objectID : Z) : CM unit :=
  let! c := get in
  match GetObjectInfoById objectID c with
  | None => ret tt
  | Some o =>
      let! b := find_bucket (ob_BucketName o) in
      let! status := getAndDeleteDiscontinueObjectStatus objectID in
      do! MustGetPrimarySPForBucket b ;;
      do! release ctx b o status ;;
      doDeleteObject b o status
  end.

(** ** Discontinuing objects *)

Definition GetDiscontinueObjectCount operator c : Z :=
  default 0 (disc_object_counts (st c) !! operator).
Definition append_ids (timestamp : Z) (ids : list Z) (m : gmap Z (list Z)) : gmap Z (list Z) :=
  <[u64 timestamp := default [] (m !! u64 timestamp) ++ ids]> m.
Definition AppendDiscontinueObjectIds (timestamp : Z) (ids : list Z) : CM unit :=
  on_st (on_disc_objects (append_ids timestamp ids)).

Fixpoint mark_discontinued bucketName (ids : list Z) : CM unit :=
  match ids with
  | [] => ret tt
  | id :: rest =>
      let! c := get in
      let! o := or_fail (GetObjectInfoById id c) ErrInvalidObjectIDs in
      do! guard (negb (bool_decide (ob_BucketName o = bucketName))) ErrInvalidObjectIDs ;;
      do! guard (negb (status_is OBJECT_STATUS_SEALED o) &&
                 negb (status_is OBJECT_STATUS_CREATED o)) ErrInvalidObjectIDs ;;
      do! saveDiscontinueObjectStatus o ;;
      do! set_object (set_ob_status OBJECT_STATUS_DISCONTINUED o) ;;
      mark_discontinued bucketName rest
  end.

(** [GetSwapInInfo] for the family of the bucket *)
Definition swap_in_of_family (familyID : Z) (s : VgStore) : option SwapInInfo :=
  if negb (familyID =? NoSpecifiedFamilyID) then swap_in_family s !! familyID
  else swap_in_gvg s !! NoSpecifiedGVGId.

(** The provider that discontinues, in service *)
Definition gc_provider operator : CM StorageProvider :=
  let! c := get in
  let! sp := or_fail (GetStorageProviderByGcAddr operator (sps (wd c))) ErrNoSuchStorageProvider in
  do! guard (negb (IsInService sp)) (ErrSpKeeper ErrStorageProviderNotInService) ;;
  ret sp.

Definition DiscontinueObject ctx operator bucketName (objectIDs : list Z) : CM unit :=
  let! sp := gc_provider operator in
  let! b := find_bucket bucketName in
  do! guard (bool_decide (b_BucketStatus b = BUCKET_STATUS_DISCONTINUED)) ErrInvalidBucketStatus ;;
  let! spInState := MustGetPrimarySPForBucket b in
  let! c := get in
  do! guard (negb (sp_Id sp =? sp_Id spInState) &&
             negb (match swap_in_of_family (b_GvgFamilyId b) (vg (wd c)) with
                   | Some info => (si_TargetSpId info =? sp_Id spInState) &&
                                  (si_SuccessorSpId info =? sp_Id sp)
                   | None => false
                   end)) ErrStAccessDenied ;;
  let params := St_GetParams (st c) in
  let count := GetDiscontinueObjectCount operator c in
  let count' := u64 (count + Z.of_nat (length objectIDs)) in
  do! guard (DiscontinueObjectMax params <? count') ErrNoMoreDiscontinue ;;
  do! mark_discontinued bucketName objectIDs ;;
  do! AppendDiscontinueObjectIds (i64 (now ctx + DiscontinueConfirmPeriod params)) objectIDs ;;
  on_st (on_disc_object_counts (insert operator count')).

End Objects.
