(* ===== verification/StorageBuckets.v ===== *)
(** * x/storage: the life of a bucket

    The bucket functions of [x/storage/keeper/keeper.go]: creating, updating,
    deleting, discontinuing and migrating a bucket, the forced deletion of
    discontinued buckets and objects, and [BeginBlocker].  An iteration over
    the store is over the entries it had when the iteration started. *)

From S2P Require Import Prelude Sdk Bytes StorageTypes Grn Permission PermissionKeeper.
From S2P Require Import StoragePermission StorageGC FeeMarket.
From S2P Require Import SpTypes SpKeeper VirtualGroupTypes VirtualGroupKeeper.
From S2P Require Import VirtualGroupPayment PaymentTypes PaymentStore PaymentStream PaymentFlows.
From S2P Require Import StorageStore StorageCharge StorageGroups StorageObjects.

Section Buckets.
Context {B N : Type} {HBank : BankKeeper B} {HAddr : Addresses} {HCrypto : StorageCrypto}
  {HNft : NftContracts N} {HUint : UintText} {HRegexps : Regexps}.
Abbreviation CM := (M (Chain B N) storage_error).
Implicit Types (c : Chain B N) (ctx : StorageCtx) (b : BucketInfo) (o : ObjectInfo)
  (ib : InternalBucketInfo) (bucketName : string) (operator : Addr).

(** ** Creating *)

(** The account is not checked to be the owner's. *)
Definition VerifyPaymentAccount (paymentAddress : string) (ownerAcc : Addr) : CM Addr :=
  if bool_decide (paymentAddress = EmptyString) then ret ownerAcc
  else or_fail (Sdk.AccAddressFromHexUnsafe paymentAddress) ErrStInvalidAddress.

Definition check_approval ctx (sp : StorageProvider) (approval : Approval) (bytes : list Z)
    operator : CM unit :=
  do! guard (ap_ExpiredHeight approval <? u64 (sp_BlockHeight (sc_block ctx)))
        ErrInvalidApproval ;;
  do! guard (bool_decide (bytes = [])) ErrInvalidApproval ;;
  VerifySPAndSignature sp bytes (ap_Sig approval) operator.

Definition CreateBucket ctx (ownerAcc : Addr) bucketName (primarySpAcc : Addr)
    (opts : CreateBucketOptions) : CM Z :=
  let! c := get in
  let maxBuckets := MaxBucketsPerAccount (St_GetParams (st c)) in
  do! guard ((0 <? maxBuckets) && (maxBuckets <=? GetBucketCountByOwner ownerAcc (st c)))
        ErrStAccessDenied ;;
  do! guard (bool_decide (is_Some (bucket_ids (res (st c)) !! bucketName)))
        ErrBucketAlreadyExists ;;
  let! paymentAcc := VerifyPaymentAccount (cb_PaymentAddress opts) ownerAcc in
  let! sp := or_fail (GetStorageProviderByOperatorAddr primarySpAcc (sps (wd c)))
               ErrNoSuchStorageProvider in
  do! guard (negb (serves sp ownerAcc)) ErrNoSuchStorageProvider ;;
  do! VerifySP sp ownerAcc ;;
  let! approval := or_fail (cb_PrimarySpApproval opts) ErrInvalidApproval in
  do! check_approval ctx sp approval (cb_ApprovalMsgBytes opts) ownerAcc ;;
  let! gvgFamily := on_world (GetAndCheckGVGFamilyAvailableForNewBucket (ap_FamilyId approval)) in
  let b := mkBucket (AccAddress_String ownerAcc) bucketName (cb_Visibility opts) 0
             (cb_SourceType opts) (now ctx) paymentAcc (fam_Id gvgFamily)
             (cb_ChargedReadQuota opts) BUCKET_STATUS_CREATED false in
  let! ib := ChargeBucketReadFee ctx b (mkInternal (now ctx) 0 []) in
  let! id := GenNextBucketId in
  do! on_st (on_res (on_bucket_ids (insert bucketName id))) ;;
  do! set_bucket (set_b_id id b) ;;
  do! on_st (SetInternalBucketInfo id ib) ;;
  do! CallEVM (MintBucket (b_Owner b) id) ;;
  do! on_st (IncrementBucketCount ownerAcc) ;;
  ret id.

(** ** Deleting *)

Definition doDeleteBucket b : CM unit :=
  do! on_st (on_res (on_bucket_ids (delete (b_BucketName b)))) ;;
  do! on_st (on_res (on_buckets (delete (b_Id b)))) ;;
  do! on_st (on_quota_times (delete (b_Id b))) ;;
  do! on_st (on_internals (delete (b_Id b))) ;;
  do! on_st (on_migrations (delete (b_Id b))) ;;
  do! on_st (on_locked_counts (delete (b_Id b))) ;;
  do! on_gc (appendResourceIDForGarbageCollection RESOURCE_TYPE_BUCKET (b_Id b)) ;;
  do! deleteBucketFlowRateLimitStatus (b_BucketName b) ;;
  do! CallEVM (BurnBucket (b_Id b)) ;;
  let! owner := owner_of b in
  on_st (DecrementBucketCount owner).

Definition lvg_in_use (l : LocalVirtualGroup) : bool :=
  negb (lvg_StoredSize l =? 0) || negb (lvg_TotalChargeSize l =? 0).

Definition DeleteBucket ctx operator bucketName (sourceType : SourceType) : CM unit :=
  let! b := find_bucket bucketName in
  do! guard (negb (bool_decide (b_SourceType b = sourceType))) ErrSourceTypeMismatch ;;
  do! check_bucket ctx b operator ACTION_DELETE_BUCKET None ;;
  let! c := get in
  do! guard (isNonEmptyBucket bucketName (st c)) ErrBucketNotEmpty ;;
  let! ib := MustGetInternalBucketInfo (b_Id b) in
  do! guard (existsb lvg_in_use (LocalVirtualGroups ib)) ErrVirtualGroupOperateFailed ;;
  do! on_err (UnChargeBucketReadFee ctx b ib) (fun _ => fail ErrChargeFailed) ;;
  doDeleteBucket b.

(** ** Updating *)

Definition check_quota ctx b (newQuota : Z) : CM unit :=
  if newQuota =? b_ChargedReadQuota b then ret tt
  else
    let blockTime := u64 (now ctx) in
    let! c := get in
    do! (if newQuota <? b_ChargedReadQuota b then
           let! lastUpdateTime := or_fail (getQuotaUpdateTime (b_Id b) (st c)) ErrUpdateQuotaFailed in
           guard (blockTime <? u64 (lastUpdateTime + MinQuotaUpdateInterval (St_GetParams (st c))))
             ErrUpdateQuotaFailed
         else ret tt) ;;
    on_st (on_quota_times (insert (b_Id b) blockTime)).

Definition new_payment_account b (paymentAddress : string) : CM Addr :=
  if bool_decide (paymentAddress = EmptyString) then ret (b_PaymentAddress b)
  else
    let! owner := owner_of b in
    let! paymentAcc := VerifyPaymentAccount paymentAddress owner in
    let! c := get in
    do! guard (negb (paymentAcc =? b_PaymentAddress b) &&
               negb (GetLockedObjectCount (b_Id b) (st c) =? 0)) ErrUpdatePaymentAccountFailed ;;
    ret paymentAcc.

Definition UpdateBucketInfo ctx operator bucketName (opts : UpdateBucketOptions) : CM unit :=
  let! b := find_bucket bucketName in
  do! guard (negb (bool_decide (b_SourceType b = ub_SourceType opts))) ErrSourceTypeMismatch ;;
  let! sp := MustGetPrimarySPForBucket b in
  do! guard (is_exiting sp) ErrUpdateQuotaFailed ;;
  do! check_bucket ctx b operator ACTION_UPDATE_BUCKET_INFO None ;;
  let quota := default (b_ChargedReadQuota b) (ub_ChargedReadQuota opts) in
  do! check_quota ctx b quota ;;
  let b1 := if bool_decide (ub_Visibility opts = VISIBILITY_TYPE_UNSPECIFIED) then b
            else set_b_visibility (ub_Visibility opts) b in
  let! paymentAcc := new_payment_account b1 (ub_PaymentAddress opts) in
  let! ib := MustGetInternalBucketInfo (b_Id b1) in
  let! x := UpdateBucketInfoAndCharge ctx b1 ib paymentAcc quota in
  do! set_bucket x.1 ;;
  set_ib x.1 x.2.

(** The message handler *)
Definition ToggleSPAsDelegatedAgent (operator : string) bucketName : CM unit :=
  let! b := find_bucket bucketName in
  do! guard (negb (bool_decide (operator = b_Owner b))) ErrStAccessDenied ;;
  set_bucket (set_b_agent (negb (b_SpAsDelegatedAgentDisabled b)) b).

(** ** Discontinuing *)

Definition GetDiscontinueBucketCount operator c : Z :=
  default 0 (disc_bucket_counts (st c) !! operator).

Definition DiscontinueBucket ctx operator bucketName : CM unit :=
  let! sp := gc_provider operator in
  let! b := find_bucket bucketName in
  do! guard (bool_decide (b_BucketStatus b = BUCKET_STATUS_DISCONTINUED)) ErrInvalidBucketStatus ;;
  let! spInState := MustGetPrimarySPForBucket b in
  do! guard (negb (sp_Id sp =? sp_Id spInState)) ErrStAccessDenied ;;
  let! c := get in
  let params := St_GetParams (st c) in
  let count' := u64 (GetDiscontinueBucketCount operator c + 1) in
  do! guard (DiscontinueBucketMax params <? count') ErrNoMoreDiscontinue ;;
  do! set_bucket (set_b_status BUCKET_STATUS_DISCONTINUED b) ;;
  do! on_st (on_disc_buckets
        (append_ids (i64 (now ctx + DiscontinueConfirmPeriod params)) [b_Id b])) ;;
  on_st (on_disc_bucket_counts (insert operator count')).

(** ** Migrating *)

(** The payer of the bucket has a stream record that is not frozen. *)
Definition check_payer ctx b : CM unit :=
  let! c := get in
  let '(streamRecord, found) :=
    GetStreamRecord (pay_ctx ctx) (b_PaymentAddress b) (chain_pay c) in
  guard (negb found || bool_decide (Status streamRecord = STREAM_ACCOUNT_STATUS_FROZEN))
    (ErrPay ErrInvalidStreamAccountStatus).

Definition is_migrating b : bool := bool_decide (b_BucketStatus b = BUCKET_STATUS_MIGRATING).

Definition MigrateBucket ctx operator bucketName (dstPrimarySPID : Z) (approval : Approval)
    (approvalBytes : list Z) : CM unit :=
  let! b := find_bucket bucketName in
  let! owner := owner_of b in
  do! guard (negb (operator =? owner)) ErrStAccessDenied ;;
  do! guard (is_migrating b) ErrInvalidBucketStatus ;;
  do! guard (bool_decide (b_BucketStatus b = BUCKET_STATUS_DISCONTINUED)) ErrInvalidBucketStatus ;;
  let! srcSP := MustGetPrimarySPForBucket b in
  let! c := get in
  let! dstSP := or_fail (GetStorageProvider dstPrimarySPID (sps (wd c)))
                  (ErrSpKeeper ErrStorageProviderNotFound) in
  do! guard (sp_Id srcSP =? sp_Id dstSP) ErrMigrationBucketFailed ;;
  do! guard (negb (IsInService srcSP) || negb (IsInService dstSP))
        (ErrSpKeeper ErrStorageProviderNotInService) ;;
  do! check_payer ctx b ;;
  do! guard (ap_ExpiredHeight approval <? u64 (sp_BlockHeight (sc_block ctx)))
        ErrInvalidApproval ;;
  do! VerifySPAndSignature dstSP approvalBytes (ap_Sig approval) operator ;;
  do! guard (IsBucketRateLimited (b_BucketName b) c) ErrBucketRateLimited ;;
  match migrations (st c) !! b_Id b with
  | Some _ => panic
  | None =>
      do! on_st (on_migrations (insert (b_Id b)
            (mkMigration (sp_Id srcSP) (b_GvgFamilyId b) (sp_Id dstSP) (b_Id b)))) ;;
      set_bucket (set_b_status BUCKET_STATUS_MIGRATING b)
  end.

(** Back to the created status, without the migration *)
Definition end_migration b : CM unit :=
  do! set_bucket (set_b_status BUCKET_STATUS_CREATED b) ;;
  on_st (on_migrations (delete (b_Id b))).

(** The migration of a bucket that is being migrated *)
Definition find_migration b : CM MigrationBucketInfo :=
  do! guard (negb (is_migrating b)) ErrInvalidBucketStatus ;;
  let! c := get in
  or_fail (migrations (st c) !! b_Id b) ErrMigrationBucketFailed.

Definition CompleteMigrateBucket ctx operator bucketName (gvgFamilyID : Z)
    (gvgMappings : list GVGMapping) : CM unit :=
  let! b := find_bucket bucketName in
  let! c := get in
  let! dstSP := or_fail (GetStorageProviderByOperatorAddr operator (sps (wd c)))
                  (ErrSpKeeper ErrStorageProviderNotFound) in
  let! migration := find_migration b in
  do! guard (negb (sp_Id dstSP =? mb_DstSpId migration)) ErrMigrationBucketFailed ;;
  do! or_fail (GetGVGFamily gvgFamilyID (vg (wd c))) (ErrVg ErrGVGFamilyNotExist) ;;
  let! srcGvgFamily := or_fail (GetGVGFamily (b_GvgFamilyId b) (vg (wd c)))
                         (ErrVg ErrGVGFamilyNotExist) in
  do! check_payer ctx b ;;
  let! sp := MustGetPrimarySPForBucket b in
  do! on_err (on_world (SettleAndDistributeGVGFamily (sc_block ctx) sp srcGvgFamily))
        (fun _ => fail (ErrVg ErrSettleFailed)) ;;
  let! ib := MustGetInternalBucketInfo (b_Id b) in
  do! on_err (UnChargeBucketReadStoreFee ctx b ib) (fun _ => fail ErrMigrationBucketFailed) ;;
  let b1 := set_b_family gvgFamilyID b in
  do! on_err (verifyGVGSignatures (b_Id b1) dstSP gvgMappings)
        (fun _ => fail ErrMigrationBucketFailed) ;;
  do! on_err (RebindingVirtualGroup ctx b1 ib gvgMappings)
        (fun _ => fail ErrMigrationBucketFailed) ;;
  end_migration b1.

Definition CancelBucketMigration operator bucketName : CM unit :=
  let! b := find_bucket bucketName in
  let! owner := owner_of b in
  do! guard (negb (operator =? owner)) ErrStAccessDenied ;;
  do! find_migration b ;;
  end_migration b.

Definition RejectBucketMigration operator bucketName : CM unit :=
  let! b := find_bucket bucketName in
  let! migration := find_migration b in
  let! c := get in
  let! sp := must (GetStorageProvider (mb_DstSpId migration) (sps (wd c))) in
  do! guard (negb (OperatorAddress sp =? operator)) ErrStAccessDenied ;;
  end_migration b.

(** ** Forced deletion *)

(** The ids of the objects of a bucket, in the order of the keys *)
Definition name_leb (x y : string * string) : bool := keccak_name x.2 <=? keccak_name y.2.
Definition bucket_objects bucketName (s : StorageStore) : list Z :=
  (iterate name_leb (objects_of bucketName s)).*2.

(** The deleted objects, and whether the loop came to the end *)
Fixpoint force_objects ctx b (cap : Z) (ids : list Z) (deleted : Z) : CM (Z * bool) :=
  match ids with
  | [] => ret (deleted, true)
  | id :: rest =>
      if cap <=? deleted then ret (deleted, false)
      else
        let! c := get in
        let! o := must (GetObjectInfoById id c) in
        let! status :=
          (if status_is OBJECT_STATUS_DISCONTINUED o
           then getAndDeleteDiscontinueObjectStatus (ob_Id o) else ret (ob_ObjectStatus o)) in
        do! release ctx b o status ;;
        do! doDeleteObject b o status ;;
        force_objects ctx b cap rest (deleted + 1)
  end.

(** Whether the bucket is deleted, and how many objects *)
Definition ForceDeleteBucket ctx (bucketID cap : Z) : CM (bool * Z) :=
  let! c := get in
  match GetBucketInfoById bucketID c with
  | None => ret (true, 0)
  | Some b =>
      do! MustGetPrimarySPForBucket b ;;
      let! x := force_objects ctx b cap (bucket_objects (b_BucketName b) (st c)) 0 in
      let '(deleted, all) := x in
      if negb all then ret (false, deleted)
      else
        let! ib := MustGetInternalBucketInfo (b_Id b) in
        do! UnChargeBucketReadFee ctx b ib ;;
        do! doDeleteBucket b ;;
        ret (true, deleted)
  end.

(** ** The lists of discontinued objects and buckets *)

(** The ids of one time: how many deletions were made, and what is left *)
Fixpoint delete_object_ids ctx (max : Z) (ids : list Z) (deleted : Z) : CM (Z * list Z) :=
  match ids with
  | [] => ret (deleted, [])
  | id :: rest =>
      if max <=? deleted then ret (deleted, id :: rest)
      else
        do! ForceDeleteObject ctx id ;;
        delete_object_ids ctx max rest (deleted + 1)
  end.

Fixpoint delete_bucket_ids ctx (max : Z) (ids : list Z) (deleted : Z) : CM (Z * list Z) :=
  match ids with
  | [] => ret (deleted, [])
  | id :: rest =>
      if max <=? deleted then ret (deleted, id :: rest)
      else
        let! x := ForceDeleteBucket ctx id (max - deleted) in
        let! y := delete_bucket_ids ctx max rest
                    (deleted + x.2 + (if x.1 then 1 else 0)) in
        ret (y.1, if x.1 then y.2 else id :: y.2)
  end.

Definition keep_left (key : Z) (left : list Z) (m : gmap Z (list Z)) : gmap Z (list Z) :=
  match left with [] => delete key m | _ => <[key := left]> m end.

Definition due (timestamp : Z) (m : gmap Z (list Z)) : list (Z * list Z) :=
  filter (fun kv => kv.1 <= u64 timestamp) (iterate Z.leb m).

Fixpoint until (step : Z -> list Z -> Z -> CM (Z * list Z))
    (put : Z -> list Z -> StorageStore -> StorageStore) (max : Z) (l : list (Z * list Z))
    (deleted : Z) : CM Z :=
  match l with
  | [] => ret deleted
  | (key, ids) :: rest =>
      if max <=? deleted then ret deleted
      else
        let! x := step max ids deleted in
        do! on_st (put key x.2) ;;
        until step put max rest x.1
  end.

Definition DeleteDiscontinueObjectsUntil ctx (timestamp maxObjectsToDelete : Z) : CM Z :=
  let! c := get in
  until (delete_object_ids ctx) (fun key left => on_disc_objects (keep_left key left))
    maxObjectsToDelete (due timestamp (disc_objects (st c))) 0.

Definition DeleteDiscontinueBucketsUntil ctx (timestamp maxToDelete : Z) : CM Z :=
  let! c := get in
  until (delete_bucket_ids ctx) (fun key left => on_disc_buckets (keep_left key left))
    maxToDelete (due timestamp (disc_buckets (st c))) 0.

(** ** The start of a block *)

Definition BeginBlocker ctx : CM unit :=
  let! c := get in
  let blockHeight := u64 (sp_BlockHeight (sc_block ctx)) in
  let countingWindow := DiscontinueCountingWindow (St_GetParams (st c)) in
  if (0 <? blockHeight) && (0 <? countingWindow) && (blockHeight mod countingWindow =? 0)
  then on_st (fun s => on_disc_bucket_counts (fun _ => ∅) (on_disc_object_counts (fun _ => ∅) s))
  else ret tt.

End Buckets.
