(* ===== verification/StorageCheck.v ===== *)
(** * x/storage: the payment check and the end of a block

    [x/storage/keeper/payment_check.go]: what the buckets and objects of the
    store say every account should have locked, should pay and should
    receive, compared with the stream records of x/payment; and [EndBlocker]
    of [abci.go].  The Go maps are finite maps; the order of their iteration
    does not matter, since only whether some entry is wrong is recorded. *)

From S2P Require Import Prelude Sdk Bytes StorageTypes Grn Permission PermissionKeeper.
From S2P Require Import StoragePermission StorageGC FeeMarket.
From S2P Require Import SpTypes SpKeeper VirtualGroupTypes VirtualGroupKeeper.
From S2P Require Import VirtualGroupPayment PaymentTypes PaymentStore PaymentStream PaymentFlows.
From S2P Require Import StorageStore StorageCharge StorageGroups StorageObjects StorageBuckets.

(** What the store expects, and whether an entry could not be computed *)
Record Expected : Type := mkExpected {
  lockBalanceMap : gmap Addr Z;
  userFlowRateMap : gmap Addr Z;
  receiverFlowRateMap : gmap Addr Z;
  check_failed : bool;
}.

Definition nothing_expected : Expected := mkExpected ∅ ∅ ∅ false.

Definition add_to (a : Addr) (v : Z) (m : gmap Addr Z) : gmap Addr Z :=
  <[a := default 0 (m !! a) + v]> m.

Definition expect_lock (a : Addr) (v : Z) (e : Expected) : Expected :=
  mkExpected (add_to a v (lockBalanceMap e)) (userFlowRateMap e) (receiverFlowRateMap e)
    (check_failed e).
Definition expect_flows (payer : Addr) (flows : list OutFlow) (e : Expected) : Expected :=
  mkExpected (lockBalanceMap e)
    (add_to payer (- getTotalOutFlowRate flows) (userFlowRateMap e))
    (fold_left (fun m fl => add_to (ToAddress fl) (Rate fl) m) flows (receiverFlowRateMap e))
    (check_failed e).
Definition expect_failure (e : Expected) : Expected :=
  mkExpected (lockBalanceMap e) (userFlowRateMap e) (receiverFlowRateMap e) true.

(** The node's configuration, and whether the chain is the testnet *)
Record CheckConfig : Type := mkCheckConfig {
  cfg_Enabled : bool;
  cfg_Interval : Z;
  is_testnet : bool;
}.

Section Check.
Context {B N : Type} {HBank : BankKeeper B} {HAddr : Addresses} {HCrypto : StorageCrypto}
  {HNft : NftContracts N} {HUint : UintText} {HRegexps : Regexps}.
Abbreviation CM := (M (Chain B N) storage_error).
Implicit Types (c : Chain B N) (ctx : StorageCtx) (b : BucketInfo) (o : ObjectInfo)
  (s : State B).

(** An error of a computation is [None]. *)
Definition or_none {A} (k : CM A) : CM (option A) :=
  on_err (let! x := k in ret (Some x)) (fun _ => ret None).

(** ** What is expected of one bucket *)

(** The time and size of the fee an object has locked, if it has one *)
Definition locked_content b o : CM (option (Z * Z)) :=
  if status_is OBJECT_STATUS_CREATED o || ob_IsUpdating o then
    if ob_IsUpdating o then
      let! c := get in
      match shadows (st c) !! (b_BucketName b, ob_ObjectName o) with
      | Some sh => ret (Some (sh_UpdatedAt sh, sh_PayloadSize sh))
      | None => fail ErrCheckPayment
      end
    else ret (Some (GetLatestUpdatedTime o, ob_PayloadSize o))
  else ret None.

Fixpoint expected_locks b (ids : list Z) : CM Z :=
  match ids with
  | [] => ret 0
  | id :: rest =>
      let! c := get in
      let! content :=
        match GetObjectInfoById id c with Some o => locked_content b o | None => ret None end in
      let! amount :=
        match content with
        | Some (priceTime, payloadSize) =>
            let! fee := GetObjectLockFee priceTime payloadSize in ret fee.1
        | None => ret 0
        end in
      let! more := expected_locks b rest in
      ret (amount + more)
  end.

Definition check_bucket_payment b (e : Expected) : CM Expected :=
  if b_Id b =? 0 then ret e
  else
    let! c := get in
    match internals (st c) !! b_Id b with
    | None => ret (expect_failure e)
    | Some ib =>
        let! bill := or_none (GetBucketReadStoreBill b ib) in
        match bill with
        | None => ret (expect_failure e)
        | Some userFlows =>
            let status := limit_status (st c) !! b_BucketName b in
            let rateLimited := default false (IsBucketLimited <$> status) in
            let paymentAddress := default (b_PaymentAddress b) (ls_PaymentAddress <$> status) in
            let e1 := if negb (bool_decide (Flows userFlows = [])) && negb rateLimited
                      then expect_flows paymentAddress (Flows userFlows) e else e in
            let! locks := or_none (expected_locks b (bucket_objects (b_BucketName b) (st c))) in
            match locks with
            | None => ret (expect_failure e1)
            | Some v => ret (if 0 <? v then expect_lock (b_PaymentAddress b) v e1 else e1)
            end
        end
    end.

Fixpoint check_buckets (l : list BucketInfo) (e : Expected) : CM Expected :=
  match l with
  | [] => ret e
  | b :: rest =>
      let! e' := check_bucket_payment b e in
      check_buckets rest e'
  end.

(** ** The comparison with the stream records *)

(** Every entry of a map satisfies the test. *)
Definition all_of (p : Addr -> Z -> bool) (m : gmap Addr Z) : bool :=
  forallb (fun kv => p kv.1 kv.2) (map_to_list m).

Definition is_frozen (r : StreamRecord) : bool :=
  bool_decide (Status r = STREAM_ACCOUNT_STATUS_FROZEN).

Definition locks_match (e : Expected) s : bool :=
  all_of (fun a v => match stream_records s !! a with
                     | Some r => v =? LockBalance r
                     | None => false
                     end) (lockBalanceMap e).

Definition user_rate_matches s (a : Addr) (v : Z) : bool :=
  match stream_records s !! a with
  | Some r =>
      let actual := if is_frozen r then NetflowRate r + FrozenNetflowRate r else NetflowRate r in
      negb ((actual <? 0) && (OutFlowCount r <=? 0)) && (v =? actual)
  | None => false
  end.

(** The frozen flows of the frozen payers *)
Definition frozen_receivers (e : Expected) s : gmap Addr Z :=
  fold_left
    (fun m kv =>
       match stream_records s !! kv.1 with
       | Some r =>
           if is_frozen r then
             fold_left (fun m fl => if bool_decide (FlowStatus fl = OUT_FLOW_STATUS_FROZEN)
                                    then add_to (ToAddress fl) (Rate fl) m else m)
               (GetOutFlows kv.1 s) m
           else m
       | None => m
       end) (map_to_list (userFlowRateMap e)) ∅.

Definition receiver_rate_matches (frozen : gmap Addr Z) s (a : Addr) (v : Z) : bool :=
  match stream_records s !! a with
  | Some r =>
      negb (is_frozen r || (0 <? OutFlowCount r)) &&
      (v =? NetflowRate r + default 0 (frozen !! a))
  | None => false
  end.

(** No record has something the store does not expect. *)
Definition record_expected (e : Expected) (a : Addr) (r : StreamRecord) : bool :=
  (negb (0 <? LockBalance r) || bool_decide (is_Some (lockBalanceMap e !! a))) &&
  (negb ((NetflowRate r <? 0) || (FrozenNetflowRate r <? 0)) ||
   bool_decide (is_Some (userFlowRateMap e !! a))) &&
  (negb (0 <? NetflowRate r) || bool_decide (is_Some (receiverFlowRateMap e !! a))).

Definition payment_matches (e : Expected) s : bool :=
  locks_match e s &&
  all_of (user_rate_matches s) (userFlowRateMap e) &&
  all_of (receiver_rate_matches (frozen_receivers e s) s) (receiverFlowRateMap e) &&
  forallb (fun kv => record_expected e kv.1 kv.2) (map_to_list (stream_records s)).

(** No address is a known issue, on any chain. *)
Definition RunPaymentCheck : CM unit :=
  let! c := get in
  let! e := check_buckets (iterate Z.leb (buckets (res (st c)))).*2 nothing_expected in
  do! guard (check_failed e) ErrCheckPayment ;;
  guard (negb (payment_matches e (chain_pay c))) ErrCheckPayment.

(** ** The end of a block *)

Definition or_panic {A} (k : CM A) : CM A := on_err k (fun _ => panic).

Definition EndBlocker (cfg : CheckConfig) ctx : CM unit :=
  let! c := get in
  let params := St_GetParams (st c) in
  let deletionMax := DiscontinueDeletionMax params in
  if deletionMax =? 0 then ret tt
  else
    let height := sp_BlockHeight (sc_block ctx) in
    let ctx := mkStorageCtx (sc_block ctx) true (sc_tx ctx) in
    let! deleted := or_panic (DeleteDiscontinueObjectsUntil ctx (now ctx) deletionMax) in
    if deletionMax <=? deleted then ret tt
    else
      do! (if (5946511 <? height) && is_testnet cfg then ret tt
           else
             do! or_panic (DeleteDiscontinueBucketsUntil ctx (now ctx) (deletionMax - deleted)) ;;
             ret tt) ;;
      do! on_gc (PersistDeleteInfo height) ;;
      do! on_gc (GarbageCollectResourcesStalePolicy (StalePolicyCleanupMax params)) ;;
      if cfg_Enabled cfg && (0 <? cfg_Interval cfg) && (Z.rem height (cfg_Interval cfg) =? 0)
      then or_panic RunPaymentCheck else ret tt.

End Check.
