(* ===== verification/StorageBills.v ===== *)
(** * x/storage: what a bucket costs

    [bill_rate p b ib t]: the rate a bucket owes to [t], as a function of what
    its bill depends on, the payment addresses of the family and of the
    groups, and the prices and tax rate at the time of the last charge.  The
    functions of [payment.go] that compute a bill compute this, and the
    functions that charge move the flows of the payer by its difference. *)

From S2P Require Import Prelude Sdk Bytes StorageTypes StoragePermission FeeMarket.
From S2P Require Import SpTypes SpKeeper VirtualGroupTypes VirtualGroupKeeper VirtualGroupPayment.
From S2P Require Import PaymentTypes PaymentStore PaymentStream PaymentFlows PaymentFlowsFacts.
From S2P Require Import PaymentBooks PaymentPaid StorageStore StorageCharge.

#[local] Arguments user_rate : simpl never.
#[local] Arguments rate_to : simpl never.

(** What bills depend on, and the ids the groups carry *)
Record Prices : Type := mkPrices {
  family_accounts : gmap Z Addr;
  group_accounts : gmap Z (Addr * nat);
  group_keys : gmap Z Z;
  price_store : SpStore;
  pay_versions : gmap Z VersionedParams;
}.

Section Bills.
Context {HAddr : Addresses} {HCrypto : StorageCrypto}.
Implicit Types (p : Prices) (b : BucketInfo) (ib : InternalBucketInfo) (t : Addr).

Definition version_in (m : gmap Z VersionedParams) (time : Z) : option VersionedParams :=
  snd <$> last (filter (fun kv => kv.1 < u64 time) (iterate Z.leb m)).

(** The prices and the tax rate at a time *)
Definition terms p (time : Z) : option (GlobalSpStorePrice * Z) :=
  price ← GetGlobalSpStorePriceByTime time (price_store p);
  v ← version_in (pay_versions p) time;
  tax ← ValidatorTaxRate v;
  Some (price, tax).

Definition store_rate p (price : GlobalSpStorePrice) (tax : Z) (family : Addr) t
    (l : LocalVirtualGroup) : Z :=
  match group_accounts p !! lvg_GvgId l with
  | Some (group, secondaries) =>
      rate_to t (store_flows price tax family group secondaries (lvg_TotalChargeSize l))
  | None => 0
  end.

Definition bill_rate p b ib t : Z :=
  match family_accounts p !! b_GvgFamilyId b, terms p (ib_PriceTime ib) with
  | Some family, Some (price, tax) =>
      rate_to t (read_flows price tax family (b_ChargedReadQuota b)) +
      zsum (store_rate p price tax family t) (LocalVirtualGroups ib)
  | _, _ => 0
  end.

(** A bucket without charged bytes has no charged group. *)
Definition zero_ok ib : Prop :=
  ib_TotalChargeSize ib = 0 -> Forall (fun l => lvg_TotalChargeSize l = 0) (LocalVirtualGroups ib).

(** ** Rates of lists of flows *)

Lemma rate_of_0 price : rate_of price 0 = 0.
Proof. unfold rate_of, TruncateInt. by rewrite Z.mul_0_r. Qed.

Lemma store_flows_0 price tax family group n : store_flows price tax family group n 0 = [].
Proof. unfold store_flows. by rewrite !rate_of_0. Qed.
Lemma read_flows_0 price tax family : read_flows price tax family 0 = [].
Proof. unfold read_flows. by rewrite !rate_of_0. Qed.

Lemma rate_to_neg t l : rate_to t (getNegFlows l) = - rate_to t l.
Proof.
  unfold getNegFlows, rate_to. rewrite zsum_fmap. simpl.
  induction l as [|o l IH]; [done|]. unfold zsum in *. simpl.
  destruct (decide (ToAddress o = t)); lia.
Qed.

Lemma rate_to_nil t : rate_to t [] = 0.
Proof. done. Qed.

Lemma store_rate_0 p price tax family t l :
  lvg_TotalChargeSize l = 0 -> store_rate p price tax family t l = 0.
Proof. unfold store_rate. intros ->. case_match; [|done]. case_match. by rewrite store_flows_0. Qed.

Lemma store_rates_0 p price tax family t ls :
  Forall (fun l => lvg_TotalChargeSize l = 0) ls -> zsum (store_rate p price tax family t) ls = 0.
Proof.
  induction 1 as [|l ls Hl _ IH]; [done|]. unfold zsum in *. simpl.
  rewrite store_rate_0 by done. lia.
Qed.

(** One user's flows, counted for a pair *)
Lemma user_rate_one f t u :
  user_rate f t [u] = if decide (From u = f) then rate_to t (Flows u) else 0.
Proof. unfold user_rate, zsum. simpl. lia. Qed.

End Bills.

Section Runs.
Context {B N : Type} {HBank : BankKeeper B} {HAddr : Addresses} {HCrypto : StorageCrypto}.
Abbreviation CM := (M (Chain B N) storage_error).
Implicit Types (c : Chain B N) (ctx : StorageCtx) (b : BucketInfo) (o : ObjectInfo)
  (ib : InternalBucketInfo).

Definition group_account (g : GlobalVirtualGroup) : Addr * nat :=
  (gvg_PaymentAddress g, length (SecondarySpIds g)).

Definition prices c : Prices := mkPrices
  (fam_PaymentAddress <$> families (vg (wd c))) (group_account <$> gvgs (vg (wd c)))
  (gvg_Id <$> gvgs (vg (wd c))) (sps (wd c)) (versioned_params (chain_pay c)).

Definition owes c f t : Z := paid (chain_pay c) f t.

(** ** Computing a bill *)

Lemma price_at_Ret time c x c' :
  price_at time c = (Ret x, c') ->
  c' = c /\ GetGlobalSpStorePriceByTime time (price_store (prices c)) = Some x.
Proof. unfold price_at. rewrite bind_get. by intros [? ->]%or_fail_Ret. Qed.

Lemma versioned_at_Ret time c x c' :
  versioned_at time c = (Ret x, c') ->
  c' = c /\ version_in (pay_versions (prices c)) time = Some x.
Proof.
  unfold versioned_at, GetVersionedParamsWithTs, version_in. rewrite bind_get. simpl.
  destruct (last _) as [kv|]; simpl.
  - by intros [-> ->]%ret_Ret.
  - by intros ?%fail_Ret.
Qed.

Lemma tax_at_Ret time c x c' :
  tax_at time c = (Ret x, c') ->
  c' = c /\ (v ← version_in (pay_versions (prices c)) time; ValidatorTaxRate v) = Some x.
Proof.
  unfold tax_at. intros (v & c1 & [-> Hv]%versioned_at_Ret & [? ->]%must_Ret)%bind_Ret.
  by rewrite Hv.
Qed.

Lemma terms_Ret time c price tax c1 c2 :
  price_at time c = (Ret price, c1) -> tax_at time c1 = (Ret tax, c2) ->
  c1 = c /\ c2 = c /\ terms (prices c) time = Some (price, tax).
Proof.
  intros [-> Hp]%price_at_Ret [-> Ht]%tax_at_Ret. split_and!; try done.
  unfold terms. rewrite Hp. simpl. destruct (version_in _ _); simpl in *; [|done].
  by rewrite Ht.
Qed.

Lemma family_found id f c :
  GetGVGFamily id (vg (wd c)) = Some f ->
  family_accounts (prices c) !! id = Some (fam_PaymentAddress f).
Proof. unfold GetGVGFamily. intros H. simpl. by rewrite lookup_fmap, H. Qed.
Lemma group_found id g c :
  GetGVG id (vg (wd c)) = Some g -> group_accounts (prices c) !! id = Some (group_account g).
Proof. unfold GetGVG. intros H. simpl. by rewrite lookup_fmap, H. Qed.

Lemma lvg_bills_Ret price tax f ls c flows c' t :
  lvg_bills price tax f ls c = (Ret flows, c') ->
  c' = c /\ rate_to t flows = zsum (store_rate (prices c) price tax (fam_PaymentAddress f) t) ls.
Proof.
  revert flows c'. induction ls as [|l ls IH]; intros flows c' Hrun; simpl in Hrun.
  { apply ret_Ret in Hrun as [<- <-]. done. }
  msteps Hrun. apply bind_Ret in Hrun as (more & c1 & [-> Hmore]%IH & [<- <-]%ret_Ret).
  split; [done|]. rewrite rate_to_app, Hmore. unfold zsum. simpl. f_equal.
  unfold store_rate. by rewrite (group_found _ _ _ Hx).
Qed.

Lemma GetBucketReadStoreBill_Ret b ib c u c' t :
  GetBucketReadStoreBill b ib c = (Ret u, c') -> zero_ok ib ->
  c' = c /\ From u = b_PaymentAddress b /\ rate_to t (Flows u) = bill_rate (prices c) b ib t.
Proof.
  unfold GetBucketReadStoreBill. intros Hrun Hz.
  destruct ((ib_TotalChargeSize ib =? 0) && (b_ChargedReadQuota b =? 0)) eqn:E.
  - apply ret_Ret in Hrun as [<- <-]. split_and!; [done..|]. simpl.
    apply andb_true_iff in E as [E1 E2]. unfold bill_rate.
    destruct (family_accounts _ !! _); [|done].
    destruct (terms _ _) as [[price tax]|]; [|done].
    rewrite (proj1 (Z.eqb_eq _ _) E2), read_flows_0, store_rates_0; [done|].
    by apply Hz, Z.eqb_eq.
  - msteps Hrun.
    apply bind_Ret in Hrun as (price & c1 & Hp & Hrun).
    apply bind_Ret in Hrun as (tax & c2 & Ht & Hrun).
    destruct (terms_Ret _ _ _ _ _ _ Hp Ht) as (-> & -> & Hterms).
    apply bind_Ret in Hrun as (stores & c3 & [-> Hs]%(lvg_bills_Ret _ _ _ _ _ _ _ t) & Hrun).
    apply ret_Ret in Hrun as [<- <-]. split_and!; [done..|]. simpl.
    unfold bill_rate. rewrite (family_found _ _ _ Hx), Hterms, rate_to_app, Hs. done.
Qed.

(** The bill for the quota alone is the whole bill of a bucket whose groups
    have no charged bytes. *)
Lemma GetBucketReadBill_Ret b ib c u c' t :
  GetBucketReadBill b ib c = (Ret u, c') ->
  Forall (fun l => lvg_TotalChargeSize l = 0) (LocalVirtualGroups ib) ->
  c' = c /\ From u = b_PaymentAddress b /\ rate_to t (Flows u) = bill_rate (prices c) b ib t.
Proof.
  unfold GetBucketReadBill. intros Hrun Hz.
  destruct (b_ChargedReadQuota b =? 0) eqn:E.
  - apply ret_Ret in Hrun as [<- <-]. split_and!; [done..|]. simpl. unfold bill_rate.
    destruct (family_accounts _ !! _); [|done].
    destruct (terms _ _) as [[price tax]|]; [|done].
    by rewrite (proj1 (Z.eqb_eq _ _) E), read_flows_0, store_rates_0.
  - msteps Hrun.
    apply bind_Ret in Hrun as (price & c1 & Hp & Hrun).
    apply bind_Ret in Hrun as (tax & c2 & Ht & Hrun).
    destruct (terms_Ret _ _ _ _ _ _ Hp Ht) as (-> & -> & Hterms).
    apply ret_Ret in Hrun as [<- <-]. split_and!; [done..|]. simpl.
    unfold bill_rate. rewrite (family_found _ _ _ Hx), Hterms, store_rates_0 by done. lia.
Qed.

(** ** Frames *)

Section Frames.
Context {X : Type} (f : Chain B N -> X).

Lemma keeps_price_at time : keeps f (price_at time).
Proof. unfold price_at. frame. Qed.
Lemma keeps_versioned_at time : keeps f (versioned_at time).
Proof. unfold versioned_at. frame. Qed.
Lemma keeps_charge_size payload ts : keeps f (GetObjectChargeSize payload ts).
Proof. unfold GetObjectChargeSize. frame. Qed.
Lemma keeps_secondary_num time : keeps f (GetExpectSecondarySPNumForECObject time).
Proof. unfold GetExpectSecondarySPNumForECObject. frame. Qed.
#[local] Hint Resolve keeps_price_at keeps_versioned_at keeps_charge_size keeps_secondary_num
  : frames.
Lemma keeps_tax_at time : keeps f (tax_at time).
Proof. unfold tax_at. frame. Qed.
Lemma keeps_lock_fee time payload : keeps f (GetObjectLockFee time payload).
Proof. unfold GetObjectLockFee. frame. Qed.
#[local] Hint Resolve keeps_tax_at keeps_lock_fee : frames.
Lemma keeps_price_changed ctx time : keeps f (IsPriceChanged ctx time).
Proof. unfold IsPriceChanged. frame. Qed.
Lemma keeps_lvg_bills price tax fam l : keeps f (lvg_bills price tax fam l).
Proof. induction l; simpl; frame. Qed.
#[local] Hint Resolve keeps_lvg_bills : frames.
Lemma keeps_bill b ib : keeps f (GetBucketReadStoreBill b ib).
Proof. unfold GetBucketReadStoreBill. frame. Qed.
Lemma keeps_must_ib id : keeps f (MustGetInternalBucketInfo id).
Proof. unfold MustGetInternalBucketInfo. frame. Qed.
Lemma keeps_owner_of b : keeps f (owner_of b).
Proof. unfold owner_of. frame. Qed.
Lemma keeps_under_limit a a' n r : keeps f (isBucketFlowRateUnderLimitWithRate a a' n r).
Proof. unfold isBucketFlowRateUnderLimitWithRate. frame. Qed.
#[local] Hint Resolve keeps_bill keeps_must_ib keeps_owner_of keeps_under_limit : frames.
Lemma keeps_check_bill b u : keeps f (check_bill b u).
Proof. unfold check_bill, isBucketFlowRateUnderLimit. frame. Qed.
End Frames.

(** The store, what bills depend on, the flows and the payment accounts *)
Definition core c :=
  (st c, prices c, out_flows (chain_pay c), payment_accounts (chain_pay c)).

Lemma keeps_core_payment {A} (k : M (State B) PaymentTypes.error A) :
  keeps (@out_flows B) k -> keeps settings k -> keeps core (on_payment k).
Proof.
  intros H1 H2 c. unfold on_payment, zoom. specialize (H1 (chain_pay c)). specialize (H2 (chain_pay c)).
  destruct (k (chain_pay c)) as [r s]. unfold settings in H2. simpl in *. injection H2 as H2 H3.
  unfold core, prices, chain_pay in *. simpl. by rewrite H1, H2, H3.
Qed.

Lemma keeps_core_stream ctx ch : keeps core (change_stream ctx ch).
Proof. apply keeps_core_payment; [apply keeps_flows_update|apply keeps_settings_update]. Qed.

#[local] Hint Resolve keeps_price_at keeps_versioned_at keeps_charge_size keeps_secondary_num
  keeps_tax_at keeps_lock_fee keeps_price_changed keeps_lvg_bills keeps_bill keeps_must_ib
  keeps_owner_of keeps_under_limit keeps_check_bill keeps_core_stream : frames.

Lemma keeps_core_lock ctx b time payload : keeps core (lockObjectStoreFee ctx b time payload).
Proof. unfold lockObjectStoreFee. frame. Qed.
Lemma keeps_core_unlock ctx b time payload : keeps core (unlock_fee ctx b time payload).
Proof. unfold unlock_fee. frame. Qed.
Lemma keeps_core_early ctx flows b time :
  keeps core (ChargeObjectStoreFeeForEarlyDeletion ctx flows b time).
Proof.
  unfold ChargeObjectStoreFeeForEarlyDeletion.
  assert (keeps core (pay_early ctx flows time)) by (induction flows; simpl; frame). frame.
Qed.
#[local] Hint Resolve keeps_core_lock keeps_core_unlock keeps_core_early : frames.

(** ** Moving flows

    [moves c c' d]: only payments were made, and what [f] owes [t] changed by
    [d f t]. *)
Record moves c c' (d : Addr -> Addr -> Z) : Prop := mkMoves {
  mv_st : st c' = st c;
  mv_prices : prices c' = prices c;
  mv_accounts : payment_accounts (chain_pay c') = payment_accounts (chain_pay c);
  mv_owes : forall f t, owes c' f t = owes c f t + d f t;
}.

(** A rate per receiver, paid by [a] *)
Definition by_payer (a : Addr) (r : Addr -> Z) : Addr -> Addr -> Z :=
  fun f t => if decide (a = f) then r t else 0.

Lemma moves_core c c' : core c' = core c -> moves c c' (fun _ _ => 0).
Proof.
  intros Hc. split.
  - exact (f_equal (fun x => x.1.1.1) Hc).
  - exact (f_equal (fun x => x.1.1.2) Hc).
  - exact (f_equal (fun x => x.2) Hc).
  - intros f t. unfold owes, paid. pose proof (f_equal (fun x => x.1.2) Hc) as Hf.
    simpl in Hf. rewrite Hf. lia.
Qed.

Lemma moves_trans c1 c2 c3 d e g :
  moves c1 c2 d -> moves c2 c3 e -> (forall f t, g f t = d f t + e f t) -> moves c1 c3 g.
Proof.
  intros [S1 P1 A1 O1] [S2 P2 A2 O2] Hg. split; try congruence.
  intros f t. rewrite O2, O1, Hg. lia.
Qed.

Lemma moves_ext c c' d e : moves c c' d -> (forall f t, e f t = d f t) -> moves c c' e.
Proof. intros [S P A O] He. split; try done. intros f t. by rewrite O, He. Qed.

Lemma moves_refl c : moves c c (fun _ _ => 0).
Proof. by apply moves_core. Qed.

Context {HAddrLaws : AddressLaws}.

Lemma apply_flows_Ret ctx l c u c' :
  apply_flows ctx l c = (Ret u, c') -> moves c c' (fun f t => user_rate f t l).
Proof.
  unfold apply_flows, on_payment. intros (s' & Hrun & ->)%zoom_Ret.
  pose proof (keeps_run _ _ _ _ _ (keeps_settings_flows _ _) Hrun) as Hk.
  unfold settings in Hk. injection Hk as Hv Ha. split.
  - done.
  - unfold prices, chain_pay in *. simpl. by rewrite Hv.
  - done.
  - intros f t. apply (ApplyUserFlowsList_paid _ _ _ _ _ f t Hrun).
Qed.

Lemma user_rate_bill f t u a r :
  From u = a -> rate_to t (Flows u) = r t -> user_rate f t [u] = by_payer a r f t.
Proof. intros <- Hr. by rewrite user_rate_one, Hr. Qed.
Lemma user_rate_neg f t u a r :
  From u = a -> rate_to t (Flows u) = r t ->
  user_rate f t [neg_bill u] = by_payer a (fun t => - r t) f t.
Proof. intros <- Hr. rewrite user_rate_one. simpl. by rewrite rate_to_neg, Hr. Qed.

(** ** The read fee *)

Definition uncharged (ls : list LocalVirtualGroup) : Prop :=
  Forall (fun l => lvg_TotalChargeSize l = 0) ls.

(** The rates of a bucket's bill *)
Definition bill c b ib : Addr -> Z := bill_rate (prices c) b ib.

Lemma ChargeBucketReadFee_Ret ctx b ib c ib' c' :
  ChargeBucketReadFee ctx b ib c = (Ret ib', c') -> uncharged (LocalVirtualGroups ib) ->
  ib_TotalChargeSize ib' = ib_TotalChargeSize ib /\ LocalVirtualGroups ib' = LocalVirtualGroups ib /\
  moves c c' (by_payer (b_PaymentAddress b) (bill c b ib')).
Proof.
  unfold ChargeBucketReadFee. intros Hrun Hz. destruct (b_ChargedReadQuota b =? 0) eqn:E.
  - apply ret_Ret in Hrun as [<- <-]. split_and!; try done.
    eapply moves_ext; [apply moves_refl|]. intros f t. unfold by_payer. case_match; [|done].
    unfold bill, bill_rate.
    case_match; [|done]. case_match; [|done]. case_match.
    by rewrite (proj1 (Z.eqb_eq _ _) E), read_flows_0, store_rates_0.
  - apply bind_Ret in Hrun as (u & c1 & Hbill & Hrun).
    apply bind_Ret in Hrun as (? & c2 & Hck & Hrun).
    apply (keeps_run (fun c => c) _ _ _ _ (keeps_check_bill _ _ _)) in Hck as ->.
    apply bind_Ret in Hrun as (? & c3 & Hap & [<- <-]%ret_Ret). split_and!; try done.
    assert (c1 = c) as -> by by eapply (GetBucketReadBill_Ret _ _ _ _ _ 0).
    eapply moves_ext; [by eapply apply_flows_Ret|]. intros f t. symmetry.
    destruct (GetBucketReadBill_Ret _ _ _ _ _ t Hbill) as (_ & ? & ?); [done|].
    by apply user_rate_bill.
Qed.

(** A rate that is not owed while the bucket is limited *)
Definition unless (lim : bool) (r : Addr -> Z) : Addr -> Z := fun t => if lim then 0 else r t.

Lemma UnChargeBucketReadFee_Ret ctx b ib c u c' :
  UnChargeBucketReadFee ctx b ib c = (Ret u, c') -> uncharged (LocalVirtualGroups ib) ->
  moves c c' (by_payer (b_PaymentAddress b)
    (unless (IsBucketRateLimited (b_BucketName b) c) (fun t => - bill c b ib t))).
Proof.
  unfold UnChargeBucketReadFee. intros Hrun Hz. msteps Hrun. unfold unless.
  destruct (IsBucketRateLimited _ _).
  { apply ret_Ret in Hrun as [<- <-]. eapply moves_ext; [apply moves_refl|].
    intros. unfold by_payer. by case_match. }
  apply bind_Ret in Hrun as (v & c1 & Hbill & Hrun).
  pose proof (fun t => GetBucketReadBill_Ret _ _ _ _ _ t Hbill Hz) as Hb.
  destruct (Hb 0) as (-> & Hfrom & _).
  assert (forall f t, by_payer (b_PaymentAddress b) (fun t => - bill c b ib t) f t =
                      user_rate f t [neg_bill v]) as He.
  { intros f t. symmetry. apply user_rate_neg; [done|]. apply Hb. }
  destruct (Flows v) as [|fl fls] eqn:Hfl.
  - apply ret_Ret in Hrun as [_ <-]. eapply moves_ext; [apply moves_refl|]. intros f t.
    rewrite He, user_rate_one. simpl. rewrite Hfl. by case_match.
  - eapply moves_ext; [by eapply apply_flows_Ret|exact He].
Qed.

(** ** Changes of the whole bill *)

(** A run of the bill *)
Ltac bill_run H Hz b' :=
  let Hb := fresh "Hb" in
  pose proof (fun t => GetBucketReadStoreBill_Ret _ _ _ _ _ t H Hz) as Hb;
  destruct (Hb 0) as (-> & b' & _).

Lemma ApplyBillChanges_Ret ctx prev cur c u c' :
  ApplyBillChanges ctx prev cur c = (Ret u, c') ->
  moves c c' (fun f t => user_rate f t (option_list (neg_bill <$> prev) ++ option_list cur)).
Proof. apply apply_flows_Ret. Qed.

Lemma user_rate_app f t l1 l2 : user_rate f t (l1 ++ l2) = user_rate f t l1 + user_rate f t l2.
Proof. apply zsum_app. Qed.

Lemma check_bill_Ret b u c v c' : check_bill b u c = (Ret v, c') -> c' = c.
Proof. apply (keeps_run (fun c => c)), keeps_check_bill. Qed.

Lemma bill_state b ib c u c' : GetBucketReadStoreBill b ib c = (Ret u, c') -> c' = c.
Proof. apply (keeps_run (fun c => c)), keeps_bill. Qed.

Lemma user_rate_change f t prev cur a a' r r' :
  From prev = a -> From cur = a' -> rate_to t (Flows prev) = r t -> rate_to t (Flows cur) = r' t ->
  user_rate f t (option_list (neg_bill <$> Some prev) ++ option_list (Some cur)) =
  by_payer a' r' f t - by_payer a r f t.
Proof.
  intros Ha Ha' Hr Hr'. change (option_list _ ++ _) with ([neg_bill prev] ++ [cur]).
  rewrite user_rate_app, (user_rate_neg _ _ _ a r), (user_rate_bill _ _ _ a' r') by done.
  unfold by_payer. repeat case_match; lia.
Qed.

Lemma ChargeViaBucketChange_Ret ctx b ib change c b' ib' c' :
  ChargeViaBucketChange ctx b ib change c = (Ret (b', ib'), c') ->
  let lim := IsBucketRateLimited (b_BucketName b') c in
  b' = (change (b, ib)).1 /\ ib' = set_price_time (now ctx) (change (b, ib)).2 /\
  (lim = true -> b_PaymentAddress b' <> b_PaymentAddress b) /\
  st c' = (if lim then on_limit_status (delete (b_BucketName b')) (st c) else st c) /\
  prices c' = prices c /\
  payment_accounts (chain_pay c') = payment_accounts (chain_pay c) /\
  (zero_ok ib -> zero_ok ib' -> forall f t, owes c' f t = owes c f t -
    by_payer (b_PaymentAddress b) (unless lim (bill c b ib)) f t +
    by_payer (b_PaymentAddress b') (bill c b' ib') f t).
Proof.
  unfold ChargeViaBucketChange. intros Hrun.
  apply bind_Ret in Hrun as (prev & c1 & Hprev & Hrun). pose proof (bill_state _ _ _ _ _ Hprev) as ->.
  destruct (change (b, ib)) as [b1 ib1]. simpl in *.
  apply bind_Ret in Hrun as (cur & c2 & Hcur & Hrun). pose proof (bill_state _ _ _ _ _ Hcur) as ->.
  rewrite bind_get in Hrun. msteps Hrun.
  apply bind_Ret in Hrun as (? & c3 & ->%check_bill_Ret & Hrun).
  apply bind_Ret in Hrun as (? & c4 & Hch & [[= <- <-] <-]%ret_Ret).
  split; [done|]. split; [done|]. split.
  { intros Hl Heq. rewrite Hl, Heq, Z.eqb_refl in Hx. done. }
  destruct (IsBucketRateLimited _ _); simpl in *.
  - apply bind_Ret in Hch as (? & c5 & Hap%ApplyBillChanges_Ret & ->%modify_Ret).
    destruct Hap as [Hs Hp Ha Ho]. simpl. rewrite Hs. split_and!; try done. intros _ Hz1.
    pose proof (fun t => GetBucketReadStoreBill_Ret _ _ _ _ _ t Hcur Hz1) as Hb.
    intros f t. unfold owes in *. simpl. unfold chain_pay in *. simpl in *.
    rewrite Ho. simpl.
    rewrite (user_rate_bill _ _ _ (b_PaymentAddress b1) (bill c b1 (set_price_time (now ctx) ib1)));
      [|by apply Hb..]. unfold by_payer, unless. repeat case_match; lia.
  - apply ApplyBillChanges_Ret in Hch as [Hs Hp Ha Ho]. split_and!; try done. intros Hz Hz1 f t.
    destruct (GetBucketReadStoreBill_Ret _ _ _ _ _ t Hprev Hz) as (_ & Hf & Hr).
    destruct (GetBucketReadStoreBill_Ret _ _ _ _ _ t Hcur Hz1) as (_ & Hf' & Hr').
    rewrite Ho, (user_rate_change _ _ _ _ _ _ _ _ Hf Hf' Hr Hr').
    unfold by_payer, unless, bill. repeat case_match; lia.
Qed.

(** ** Changes by one object *)

Lemma zsum_modify_first {A} (g : A -> Z) (test : A -> bool) (f : A -> A) l x :
  List.find test l = Some x -> zsum g (modify_first test f l) = zsum g l - g x + g (f x).
Proof.
  induction l as [|y l IH]; simpl; [done|]. unfold zsum in *.
  destruct (test y); simpl; [intros [= ->]; lia|]. intros ->%IH. lia.
Qed.

Lemma bill_charge_lvg c b ib id d lvg family price tax t :
  GetLVG id ib = Some lvg ->
  family_accounts (prices c) !! b_GvgFamilyId b = Some family ->
  terms (prices c) (ib_PriceTime ib) = Some (price, tax) ->
  bill c b (charge_lvg id d ib) t - bill c b ib t =
  store_rate (prices c) price tax family t (add_lvg_charge d lvg) -
  store_rate (prices c) price tax family t lvg.
Proof.
  intros Hl Hf Ht. unfold bill, bill_rate, charge_lvg. cbn [ib_PriceTime LocalVirtualGroups add_total_charge on_lvgs].
  rewrite Hf, Ht.
  rewrite (zsum_modify_first _ _ _ _ _ Hl). lia.
Qed.

Lemma store_rate_flows c price tax family g lvg t :
  GetGVG (lvg_GvgId lvg) (vg (wd c)) = Some g ->
  rate_to t (calculateLVGStoreBill price tax family g lvg) =
  store_rate (prices c) price tax (fam_PaymentAddress family) t lvg.
Proof. intros Hg. unfold store_rate. by rewrite (group_found _ _ _ Hg). Qed.

Lemma ChargeViaObjectChange_Ret ctx b ib o size del c ib' flows c' :
  ChargeViaObjectChange ctx b ib o size del c = (Ret (ib', flows), c') ->
  let lim := IsBucketRateLimited (b_BucketName b) c in
  ib' = charge_lvg (ob_LocalVirtualGroupId o) (if del then - size else size) ib /\
  is_Some (GetLVG (ob_LocalVirtualGroupId o) ib) /\
  (sc_forced ctx = false -> lim = false) /\
  moves c c' (by_payer (b_PaymentAddress b) (unless lim (fun t => bill c b ib' t - bill c b ib t))).
Proof.
  unfold ChargeViaObjectChange. intros Hrun. rewrite bind_get in Hrun.
  apply bind_Ret in Hrun as (fam & ? & [Hfam ->]%or_fail_Ret & Hrun).
  apply bind_Ret in Hrun as (price & c1 & Hp & Hrun).
  assert (c1 = c) as -> by by eapply (keeps_run (fun c => c)), Hp; apply keeps_price_at.
  apply bind_Ret in Hrun as (lvg & ? & [Hlvg ->]%must_Ret & Hrun).
  apply bind_Ret in Hrun as (g & ? & [Hg ->]%or_fail_Ret & Hrun).
  apply bind_Ret in Hrun as (tax & c2 & Ht & Hrun).
  destruct (terms_Ret _ _ _ _ _ _ Hp Ht) as (_ & -> & Hterms).
  set (d := if del then - size else size) in *.
  set (ib1 := charge_lvg (ob_LocalVirtualGroupId o) d ib) in *.
  set (u := mkUserFlows _ _) in Hrun. set (lim := IsBucketRateLimited _ _) in *.
  apply bind_Ret in Hrun as (? & c3 & Hck & Hrun).
  assert (c3 = c /\ (sc_forced ctx = false -> lim = false)) as [-> Hlim].
  { destruct (sc_forced ctx); [by apply ret_Ret in Hck as [_ <-]|].
    apply bind_Ret in Hck as (? & ? & [Hl ->]%guard_Ret & Hck).
    apply bind_Ret in Hck as (? & c4 & Hcur & ->%check_bill_Ret). split; [|done].
    by eapply (keeps_run (fun c => c)), Hcur; apply keeps_bill. }
  apply bind_Ret in Hrun as (? & c5 & Hap & [[= <- _] <-]%ret_Ret).
  split; [done|]. split; [by eexists|]. split; [done|].
  assert (forall f t, user_rate f t [u] = by_payer (b_PaymentAddress b)
            (fun t => bill c b ib1 t - bill c b ib t) f t) as Hu.
  { intros f t. apply user_rate_bill; [done|]. unfold u, ib1. simpl.
    rewrite rate_to_app, rate_to_neg, (store_rate_flows c) by done.
    rewrite (store_rate_flows c) by done.
    erewrite bill_charge_lvg; [|done|by apply family_found|done]. lia. }
  destruct (sc_forced ctx && lim) eqn:E.
  - apply andb_true_iff in E as [_ E]. rewrite E. apply ret_Ret in Hap as [_ <-].
    eapply moves_ext; [apply moves_refl|]. intros f t. unfold by_payer. by destruct (decide _).
  - assert (lim = false) as ->
      by (destruct (sc_forced ctx) eqn:F; [done|by apply Hlim]).
    eapply moves_ext; [by eapply apply_flows_Ret|]. intros f t. symmetry. apply Hu.
Qed.

Lemma GetObjectChargeSize_Ret payload ts c x c' :
  GetObjectChargeSize payload ts c = (Ret x, c') ->
  c' = c /\ exists v, St_GetVersionedParamsWithTS ts (st c) = Some v /\
    x = if payload <? MinChargeSize v then MinChargeSize v else payload.
Proof. unfold GetObjectChargeSize. rewrite bind_get. intros Hrun. msteps Hrun. eauto. Qed.

(** What an object is charged for *)
Definition charge_of (s : StorageStore) o : Z :=
  match St_GetVersionedParamsWithTS (GetLatestUpdatedTime o) s with
  | Some v => if ob_PayloadSize o <? MinChargeSize v then MinChargeSize v else ob_PayloadSize o
  | None => 0
  end.

(** The bucket's info after a charge of [d] bytes, at the old or a new price *)
Definition recharged ctx (id d : Z) ib ib' : Prop :=
  ib' = charge_lvg id d ib \/ ib' = set_price_time (now ctx) (charge_lvg id d ib).

Lemma ChargeObjectStoreFee_Ret ctx b ib o c x c' :
  ChargeObjectStoreFee ctx b ib o c = (Ret x, c') ->
  let lim := IsBucketRateLimited (b_BucketName b) c in
  x.1 = b /\ recharged ctx (ob_LocalVirtualGroupId o) (charge_of (st c) o) ib x.2 /\
  st c' = st c /\ prices c' = prices c /\
  (zero_ok ib -> zero_ok x.2 -> forall f t, owes c' f t = owes c f t +
    by_payer (b_PaymentAddress b) (unless lim (fun t => bill c b x.2 t - bill c b ib t)) f t).
Proof.
  unfold ChargeObjectStoreFee. intros Hrun.
  apply bind_Ret in Hrun as (size & c1 & [-> (v & Hv & Hsize)]%GetObjectChargeSize_Ret & Hrun).
  assert (size = charge_of (st c) o) as -> by (unfold charge_of; by rewrite Hv). clear Hsize Hv v.
  apply bind_Ret in Hrun as (changed & c1 & Hch & Hrun).
  apply (keeps_run (fun c => c) _ _ _ _ (keeps_price_changed _ _ _)) in Hch as ->.
  destruct changed; simpl in Hrun.
  - destruct x as [b' ib'].
    apply ChargeViaBucketChange_Ret in Hrun as (-> & -> & Hlim & Hs & Hp & Ha & Ho).
    simpl in *. destruct (IsBucketRateLimited _ _); [by destruct Hlim|].
    split; [done|]. split; [by right|]. split_and!; try done. intros Hz Hz' f t. rewrite Ho by done.
    unfold by_payer, unless. case_match; lia.
  - apply bind_Ret in Hrun as ([ib' fl] & c1 & Hvia & [<- <-]%ret_Ret).
    apply ChargeViaObjectChange_Ret in Hvia as (-> & _ & _ & [Hs Hp Ha Ho]). simpl in *.
    split; [done|]. split; [by left|done].
Qed.

Lemma UnChargeObjectStoreFee_Ret ctx b ib o c ib' c' :
  UnChargeObjectStoreFee ctx b ib o c = (Ret ib', c') ->
  let lim := IsBucketRateLimited (b_BucketName b) c in
  ib' = charge_lvg (ob_LocalVirtualGroupId o) (- charge_of (st c) o) ib /\
  is_Some (GetLVG (ob_LocalVirtualGroupId o) ib) /\
  (sc_forced ctx = false -> lim = false) /\
  moves c c' (by_payer (b_PaymentAddress b) (unless lim (fun t => bill c b ib' t - bill c b ib t))).
Proof.
  unfold UnChargeObjectStoreFee. intros Hrun.
  apply bind_Ret in Hrun as (size & c1 & [-> (v & Hv & Hsize)]%GetObjectChargeSize_Ret & Hrun).
  assert (size = charge_of (st c) o) as -> by (unfold charge_of; by rewrite Hv). clear Hsize Hv v.
  apply bind_Ret in Hrun as ([ib1 fl] & c1 & Hvia & Hrun).
  apply ChargeViaObjectChange_Ret in Hvia as (Hib & Hl & Hlim & Hm).
  assert (keeps core (let! v := versioned_at (ib_PriceTime ib1) in
     do! (if 0 <? i64 (GetLatestUpdatedTime o + i64 (ReserveTime v) - now ctx) then
         on_err (ChargeObjectStoreFeeForEarlyDeletion ctx fl b
                   (i64 (GetLatestUpdatedTime o + i64 (ReserveTime v) - now ctx)))
           (fun e => if sc_forced ctx then ret tt else fail e)
       else ret tt) ;;
     ret ib1)) as Hk by frame.
  pose proof (keeps_run _ _ _ _ _ Hk Hrun) as Hcore. clear Hk.
  assert (ib' = ib1) as -> by by minv.
  split; [done|]. split; [done|]. split; [done|].
  eapply moves_trans; [exact Hm|by apply moves_core|]. intros. simpl. lia.
Qed.

(** ** The whole bill, charged and given up *)

Lemma ChargeBucketReadStoreFee_Ret ctx b ib c ib' c' :
  ChargeBucketReadStoreFee ctx b ib c = (Ret ib', c') -> zero_ok ib ->
  ib' = set_price_time (now ctx) ib /\ IsBucketRateLimited (b_BucketName b) c = false /\
  moves c c' (by_payer (b_PaymentAddress b) (bill c b ib')).
Proof.
  unfold ChargeBucketReadStoreFee. intros Hrun Hz.
  assert (zero_ok (set_price_time (now ctx) ib)) as Hz1 by exact Hz.
  apply bind_Ret in Hrun as (u & c1 & Hu & Hrun). bill_run Hu Hz1 Hfrom.
  rewrite bind_get in Hrun. msteps Hrun.
  apply bind_Ret in Hrun as (? & c2 & ->%check_bill_Ret & Hrun).
  apply bind_Ret in Hrun as (? & c3 & Hap%apply_flows_Ret & [<- <-]%ret_Ret).
  split; [done|]. split; [done|]. eapply moves_ext; [exact Hap|]. intros f t. symmetry.
  apply user_rate_bill; [done|apply Hb].
Qed.

Lemma unCharge_bucket_Ret ctx b ib c u c' :
  unCharge_bucket ctx b ib c = (Ret u, c') -> zero_ok ib ->
  moves c c' (by_payer (b_PaymentAddress b) (fun t => - bill c b ib t)).
Proof.
  unfold unCharge_bucket. intros Hrun Hz.
  apply bind_Ret in Hrun as (v & c1 & Hu & Hrun). bill_run Hu Hz Hfrom.
  eapply moves_ext; [by eapply apply_flows_Ret|]. intros f t. symmetry.
  apply user_rate_neg; [done|apply Hb].
Qed.

Lemma UnChargeBucketReadStoreFee_Ret ctx b ib c u c' :
  UnChargeBucketReadStoreFee ctx b ib c = (Ret u, c') -> zero_ok ib ->
  moves c c' (by_payer (b_PaymentAddress b)
    (unless (IsBucketRateLimited (b_BucketName b) c) (fun t => - bill c b ib t))).
Proof.
  unfold UnChargeBucketReadStoreFee. intros Hrun Hz. rewrite bind_get in Hrun. unfold unless.
  destruct (IsBucketRateLimited _ _).
  - apply ret_Ret in Hrun as [_ <-]. eapply moves_ext; [apply moves_refl|].
    intros. unfold by_payer. by case_match.
  - by eapply unCharge_bucket_Ret.
Qed.

End Runs.
