(* ===== verification/StorageLedger.v ===== *)
(** * x/storage: the ledger

    The invariant that ties the module's store to the flows of x/payment:
    every account pays every other what the bills of its buckets say, no more
    and no less; the charged bytes of a bucket and of each of its groups are
    those of the sealed objects; the indexes of buckets and objects agree with
    what they index.  Stated on the store, what bills depend on ([Prices]) and
    what is owed; the lemmas say how one bucket and one object may change. *)

From S2P Require Import Prelude Sdk Bytes StorageTypes StoragePermission FeeMarket.
From S2P Require Import SpTypes SpKeeper VirtualGroupTypes VirtualGroupKeeper VirtualGroupPayment.
From S2P Require Import PaymentTypes PaymentStore PaymentStream PaymentFlows PaymentFlowsFacts.
From S2P Require Import PaymentBooks PaymentPaid StorageStore StorageCharge StorageBills.

#[local] Arguments CurVal : simpl never.
#[local] Arguments NextVal : simpl never.

Section Ledger.
Context {HAddr : Addresses} {HCrypto : StorageCrypto}.
Implicit Types (p : Prices) (s : StorageStore) (b : BucketInfo) (ib : InternalBucketInfo)
  (o : ObjectInfo) (n : string) (f t : Addr).

(** ** Sums over objects *)

(** The status of an object, before it was discontinued *)
Definition status_of s o : option ObjectStatus :=
  match ob_ObjectStatus o with
  | OBJECT_STATUS_DISCONTINUED => disc_statuses s !! ob_Id o
  | v => Some v
  end.
Definition is_sealed s o : bool := bool_decide (status_of s o = Some OBJECT_STATUS_SEALED).

Definition weight_of n s o : Z :=
  if bool_decide (ob_BucketName o = n) && is_sealed s o then charge_of s o else 0.
Definition weight_in n (l : Z) s o : Z :=
  if ob_LocalVirtualGroupId o =? l then weight_of n s o else 0.

Definition obj_sum (w : StorageStore -> ObjectInfo -> Z) s : Z :=
  map_sum (fun _ o => w s o) (objects (res s)).
Definition at_obj (w : StorageStore -> ObjectInfo -> Z) s (i : Z) : Z :=
  match objects (res s) !! i with Some o => w s o | None => 0 end.

(** The bytes a bucket is charged for, and those in one of its groups *)
Definition bytes_of n s : Z := obj_sum (weight_of n) s.
Definition bytes_in n (l : Z) s : Z := obj_sum (weight_in n l) s.

(** A weight that depends on the store through the object's own entries *)
Definition local_weight (w : StorageStore -> ObjectInfo -> Z) : Prop :=
  forall s s' o, st_versioned s' = st_versioned s ->
    disc_statuses s' !! ob_Id o = disc_statuses s !! ob_Id o -> w s' o = w s o.

Lemma local_weight_of n : local_weight (weight_of n).
Proof.
  intros s s' o Hv Hd. unfold weight_of, is_sealed, status_of, charge_of, St_GetVersionedParamsWithTS.
  by rewrite Hv, Hd.
Qed.
Lemma local_weight_in n l : local_weight (weight_in n l).
Proof. intros s s' o Hv Hd. unfold weight_in. by rewrite (local_weight_of n s s' o). Qed.

(** ** The indexes *)

Definition limited s n : bool := default false (IsBucketLimited <$> limit_status s !! n).

Record buckets_ok s : Prop := mkBucketsOk {
  bk_id : forall id b, buckets (res s) !! id = Some b ->
    b_Id b = id /\ bucket_ids (res s) !! b_BucketName b = Some id /\
    id <= CurVal Uint256 (bucketSeq s) /\ is_Some (internals s !! id);
  bk_name : forall n id, bucket_ids (res s) !! n = Some id ->
    exists b, buckets (res s) !! id = Some b /\ b_BucketName b = n;
  bk_status : forall n, is_Some (limit_status s !! n) -> is_Some (bucket_ids (res s) !! n);
  bk_limit : forall id b owner, buckets (res s) !! id = Some b ->
    limited s (b_BucketName b) = true -> AccAddressFromHexUnsafe (b_Owner b) = Some owner ->
    is_Some (rate_limits s !! (b_PaymentAddress b, owner, b_BucketName b));
  bk_seq : 0 <= CurVal Uint256 (bucketSeq s) < 2 ^ 256;
}.

Record objects_ok s : Prop := mkObjectsOk {
  oj_id : forall id o, objects (res s) !! id = Some o ->
    ob_Id o = id /\ object_ids (res s) !! (ob_BucketName o, ob_ObjectName o) = Some id /\
    is_Some (bucket_ids (res s) !! ob_BucketName o) /\
    id <= CurVal Uint256 (objectSeq s);
  oj_name : forall k id, object_ids (res s) !! k = Some id ->
    exists o, objects (res s) !! id = Some o /\ (ob_BucketName o, ob_ObjectName o) = k;
  oj_seq : 0 <= CurVal Uint256 (objectSeq s) < 2 ^ 256;
  oj_min : forall time v, st_versioned s !! time = Some v -> 0 <= MinChargeSize v;
  oj_status : forall id v, disc_statuses s !! id = Some v ->
    v <> OBJECT_STATUS_DISCONTINUED /\
    exists o, objects (res s) !! id = Some o /\ ob_ObjectStatus o = OBJECT_STATUS_DISCONTINUED;
}.

(** ** Charged bytes *)

Definition lvg_bytes ib (l : Z) : Z := default 0 (lvg_TotalChargeSize <$> GetLVG l ib).

Record ib_ok n s ib : Prop := mkIbOk {
  io_sorted : StronglySorted Z.lt (lvg_Id <$> LocalVirtualGroups ib);
  io_bytes : forall l, lvg_bytes ib l = bytes_in n l s;
  io_total : ib_TotalChargeSize ib = bytes_of n s;
}.

Definition roomy s : Prop := forall n, bytes_of n s < two64.

(** ** What is due *)

Definition owed p s (id : Z) b t : Z :=
  match internals s !! id with
  | Some ib => unless (limited s (b_BucketName b)) (bill_rate p b ib) t
  | None => 0
  end.
Definition due p s f t : Z :=
  map_sum (fun id b => by_payer (b_PaymentAddress b) (owed p s id b) f t) (buckets (res s)).

Record Ledger p s (owes : Addr -> Addr -> Z) : Prop := mkLedger {
  lg_groups : forall k i, group_keys p !! k = Some i -> i = k;
  lg_buckets : buckets_ok s;
  lg_objects : objects_ok s;
  lg_bytes : forall id b ib, buckets (res s) !! id = Some b -> internals s !! id = Some ib ->
    ib_ok (b_BucketName b) s ib;
  lg_room : roomy s;
  lg_flows : forall f t, owes f t = due p s f t;
}.

(** The part of the store the ledger is about *)
Definition ledger_view s :=
  (res s, internals s, limit_status s, rate_limits s, disc_statuses s, st_versioned s,
   bucketSeq s, objectSeq s).

Lemma Ledger_view p s s' ow ow' :
  ledger_view s' = ledger_view s -> (forall f t, ow' f t = ow f t) -> Ledger p s ow ->
  Ledger p s' ow'.
Proof.
  destruct s, s'. unfold ledger_view. simpl. intros [= -> -> -> -> -> -> -> ->] How [HG HB HO Hb Hr Hf].
  split; [done|by destruct HB|by destruct HO|intros id b ib H1 H2; by destruct (Hb id b ib H1 H2)|exact Hr|].
  intros f t. rewrite How. apply Hf.
Qed.

(** ** Sums when one object changes *)

Record object_changed s s' (i : Z) : Prop := mkObjectChanged {
  oc_versions : st_versioned s' = st_versioned s;
  oc_objects : forall k, k <> i -> objects (res s') !! k = objects (res s) !! k;
  oc_statuses : forall k, k <> i -> disc_statuses s' !! k = disc_statuses s !! k;
}.

Lemma obj_sum_split w s i : 
  obj_sum w s = at_obj w s i + map_sum (fun _ o => w s o) (delete i (objects (res s))).
Proof.
  unfold obj_sum, at_obj. rewrite map_sum_delete_contrib. unfold contrib.
  destruct (objects (res s) !! i); lia.
Qed.

Lemma obj_sum_change w s s' i :
  local_weight w -> (forall k o, objects (res s) !! k = Some o -> ob_Id o = k) ->
  object_changed s s' i -> obj_sum w s' = obj_sum w s - at_obj w s i + at_obj w s' i.
Proof.
  intros Hw Hids [Hv Ho Hd]. rewrite (obj_sum_split w s i), (obj_sum_split w s' i).
  enough (map_sum (fun _ o => w s' o) (delete i (objects (res s'))) =
          map_sum (fun _ o => w s o) (delete i (objects (res s)))) by lia.
  assert (delete i (objects (res s')) = delete i (objects (res s))) as ->.
  { apply map_eq. intros k. destruct (decide (k = i)) as [->|].
    - by rewrite !lookup_delete_eq.
    - by rewrite !lookup_delete_ne, Ho by done. }
  apply map_sum_ext. intros k o [Hne Hk]%lookup_delete_Some.
  apply Hw; [done|]. rewrite (Hids _ _ Hk). by apply Hd.
Qed.

Lemma charge_of_nonneg s o : objects_ok s -> 0 <= charge_of s o.
Proof.
  intros HO. unfold charge_of.
  destruct (St_GetVersionedParamsWithTS _ _) as [v|] eqn:E; [|done].
  unfold St_GetVersionedParamsWithTS in E. apply fmap_Some in E as ([time ?] & Hl & ->).
  apply last_Some_elem_of, list_elem_of_filter in Hl as [_ Hl].
  apply elem_of_iterate in Hl. apply (oj_min _ HO) in Hl. simpl. case_match; lia.
Qed.

Lemma weight_of_nonneg n s o : objects_ok s -> 0 <= weight_of n s o.
Proof. intros ?%(charge_of_nonneg s o). unfold weight_of. case_match; lia. Qed.

Lemma bytes_in_range n l s : objects_ok s -> 0 <= bytes_in n l s <= bytes_of n s.
Proof.
  intros HO. unfold bytes_in, bytes_of, obj_sum. split.
  - apply map_sum_nonneg. intros k o Hk. unfold weight_in. case_match; [|done].
    by apply weight_of_nonneg.
  - enough (0 <= map_sum (fun _ o => weight_of n s o + - weight_in n l s o) (objects (res s))) as H.
    { rewrite map_sum_add, map_sum_opp in H. lia. }
    apply map_sum_nonneg. intros k o Hk.
    pose proof (weight_of_nonneg n s o HO). unfold weight_in. case_match; lia.
Qed.

(** ** Groups of a bucket *)

Lemma sorted_find_lvg (ls : list LocalVirtualGroup) l :
  StronglySorted Z.lt (lvg_Id <$> ls) -> l ∈ ls -> List.find (is_lvg (lvg_Id l)) ls = Some l.
Proof.
  induction ls as [|x ls IH]; simpl; intros Hs Hl; [set_solver|].
  apply StronglySorted_inv in Hs as [Hs Hx]. unfold is_lvg at 1.
  apply elem_of_cons in Hl as [->|Hl]; [by rewrite Z.eqb_refl|].
  assert (lvg_Id x < lvg_Id l) as Hlt.
  { rewrite Forall_fmap, Forall_forall in Hx. by apply Hx. }
  rewrite (proj2 (Z.eqb_neq _ _)) by lia. by apply IH.
Qed.

Lemma ib_ok_zero n s ib : ib_ok n s ib -> objects_ok s -> zero_ok ib.
Proof.
  intros [Hs Hb Ht] HO H0. apply Forall_forall. intros l Hl.
  pose proof (Hb (lvg_Id l)) as Hin. unfold lvg_bytes, GetLVG in Hin.
  rewrite (sorted_find_lvg _ _ Hs Hl) in Hin. simpl in Hin.
  pose proof (bytes_in_range n (lvg_Id l) s HO). lia.
Qed.

(** A change that keeps ids *)
Lemma modify_first_ids test g (ls : list LocalVirtualGroup) :
  (forall x, lvg_Id (g x) = lvg_Id x) -> lvg_Id <$> modify_first test g ls = lvg_Id <$> ls.
Proof.
  intros Hg. induction ls as [|x ls IH]; simpl; [done|].
  destruct (test x); cbn [fmap list_fmap]; [by rewrite Hg|by f_equal].
Qed.

Lemma find_modify_lvg id g (ls : list LocalVirtualGroup) l :
  (forall x, lvg_Id (g x) = lvg_Id x) ->
  List.find (is_lvg l) (modify_first (is_lvg id) g ls) =
  if decide (l = id) then g <$> List.find (is_lvg id) ls else List.find (is_lvg l) ls.
Proof.
  intros Hg. induction ls as [|x ls IH]; simpl; [by destruct (decide _)|].
  destruct (is_lvg id x) eqn:E; simpl.
  - unfold is_lvg in *. rewrite Hg. apply Z.eqb_eq in E. rewrite E.
    destruct (decide (l = id)) as [->|Hne]; [by rewrite Z.eqb_refl|].
    by rewrite (proj2 (Z.eqb_neq _ _)) by congruence.
  - rewrite IH. destruct (decide (l = id)) as [->|Hne]; [by rewrite E|done].
Qed.

Lemma find_modify_charge test g (ls : list LocalVirtualGroup) l :
  (forall x, lvg_Id (g x) = lvg_Id x) ->
  (forall x, lvg_TotalChargeSize (g x) = lvg_TotalChargeSize x) ->
  lvg_TotalChargeSize <$> List.find (is_lvg l) (modify_first test g ls) =
  lvg_TotalChargeSize <$> List.find (is_lvg l) ls.
Proof.
  intros Hg Hc. induction ls as [|x ls IH]; simpl; [done|].
  destruct (test x); simpl; unfold is_lvg at 1 3; rewrite ?Hg; destruct (_ =? _); simpl;
    rewrite ?Hc; done.
Qed.

Lemma lvg_bytes_charge id d ib l :
  is_Some (GetLVG id ib) ->
  lvg_bytes (charge_lvg id d ib) l =
  if decide (l = id) then u64 (lvg_bytes ib id + d) else lvg_bytes ib l.
Proof.
  intros [x Hx]. unfold lvg_bytes, GetLVG in *. simpl. rewrite find_modify_lvg by done.
  destruct (decide (l = id)); [|done]. by rewrite Hx.
Qed.

(** The same groups and bytes, whatever else changed *)
Definition same_bytes ib ib' : Prop :=
  StronglySorted Z.lt (lvg_Id <$> LocalVirtualGroups ib') /\
  (forall l, lvg_bytes ib' l = lvg_bytes ib l) /\
  ib_TotalChargeSize ib' = ib_TotalChargeSize ib.

Lemma ib_ok_same n s ib ib' : ib_ok n s ib -> same_bytes ib ib' -> ib_ok n s ib'.
Proof. intros [Hs Hb Ht] (Hs' & Hb' & Ht'). split; [done| |congruence]. intros l. by rewrite Hb'. Qed.

(** ... and the same bill *)
Definition quiet ib ib' : Prop :=
  same_bytes ib ib' /\ forall p b t, bill_rate p b ib' t = bill_rate p b ib t.

Lemma quiet_bill ib ls p b t :
  (forall price tax family, zsum (store_rate p price tax family t) ls =
     zsum (store_rate p price tax family t) (LocalVirtualGroups ib)) ->
  bill_rate p b (on_lvgs (fun _ => ls) ib) t = bill_rate p b ib t.
Proof. intros H. unfold bill_rate. simpl. repeat case_match; rewrite ?H; done. Qed.

Lemma zsum_modify_same {A} (g : A -> Z) test (h : A -> A) (l : list A) :
  (forall x, g (h x) = g x) -> zsum g (modify_first test h l) = zsum g l.
Proof.
  intros Hg. induction l as [|x l IH]; simpl; [done|]. unfold zsum in *.
  destruct (test x); simpl; rewrite ?Hg; lia.
Qed.

Lemma quiet_refl ib : StronglySorted Z.lt (lvg_Id <$> LocalVirtualGroups ib) -> quiet ib ib.
Proof. intros H. split; [by split|done]. Qed.

Lemma quiet_trans ib1 ib2 ib3 : quiet ib1 ib2 -> quiet ib2 ib3 -> quiet ib1 ib3.
Proof.
  intros [(S1 & B1 & T1) R1] [(S2 & B2 & T2) R2]. split; [split; [done|split]|].
  - intros l. by rewrite B2.
  - congruence.
  - intros. by rewrite R2.
Qed.

Lemma quiet_stored test d ib :
  StronglySorted Z.lt (lvg_Id <$> LocalVirtualGroups ib) ->
  quiet ib (on_lvgs (modify_first test (add_lvg_stored d)) ib).
Proof.
  intros Hs. split; [split; [|split]|].
  - simpl. by rewrite modify_first_ids.
  - intros l. unfold lvg_bytes, GetLVG. simpl. by rewrite find_modify_charge.
  - done.
  - intros p b t. apply (quiet_bill ib). intros. by apply zsum_modify_same.
Qed.

Lemma find_app {A} (test : A -> bool) l1 l2 :
  List.find test (l1 ++ l2) = match List.find test l1 with Some x => Some x | None => List.find test l2 end.
Proof. induction l1 as [|x l1 IH]; simpl; [done|]. by destruct (test x). Qed.

Lemma sorted_snoc (ls : list LocalVirtualGroup) l :
  StronglySorted Z.lt (lvg_Id <$> ls) ->
  (forall x, last ls = Some x -> lvg_Id x < lvg_Id l) ->
  StronglySorted Z.lt (lvg_Id <$> ls ++ [l]).
Proof.
  induction ls as [|x ls IH]; intros Hs Hl.
  { repeat constructor. }
  rewrite fmap_cons in Hs. rewrite <- app_comm_cons, fmap_cons.
  apply StronglySorted_inv in Hs as [Hs Hx]. constructor.
  - apply IH; [done|]. intros y Hy. apply Hl. destruct ls; [done|]. exact Hy.
  - rewrite fmap_app. apply Forall_app. split; [done|]. repeat constructor.
    destruct ls as [|y ls']; [by apply Hl|].
    destruct (last (y :: ls')) as [z|] eqn:E; [|by apply last_None in E].
    specialize (Hl z E). rewrite Forall_fmap, Forall_forall in Hx.
    pose proof (Hx z (last_Some_elem_of _ _ E)). simpl in *. lia.
Qed.

Lemma AppendLVG_quiet l ib ib' :
  StronglySorted Z.lt (lvg_Id <$> LocalVirtualGroups ib) -> lvg_TotalChargeSize l = 0 ->
  AppendLVG l ib = Some ib' -> quiet ib ib' /\ is_Some (GetLVG (lvg_Id l) ib').
Proof.
  intros Hs H0 Happ. assert (ib' = on_lvgs (fun ls => ls ++ [l]) ib /\
    forall x, last (LocalVirtualGroups ib) = Some x -> lvg_Id x < lvg_Id l) as [-> Hl].
  { unfold AppendLVG in Happ. destruct (last _) as [x|]; [|naive_solver].
    destruct (lvg_Id l <=? lvg_Id x) eqn:E; [done|]. injection Happ as <-. split; [done|].
    intros y [= <-]. by apply Z.leb_gt. }
  split; [split; [split; [|split]|]|].
  - by apply sorted_snoc.
  - intros k. unfold lvg_bytes, GetLVG. simpl. rewrite find_app.
    destruct (List.find _ (LocalVirtualGroups ib)); [done|]. simpl. by destruct (is_lvg k l).
  - done.
  - intros p b t. apply (quiet_bill ib). intros. rewrite zsum_app. unfold zsum at 2. simpl.
    rewrite store_rate_0 by done. lia.
  - unfold GetLVG. simpl. rewrite find_app. destruct (List.find _ _); [by eexists|]. simpl.
    unfold is_lvg. rewrite Z.eqb_refl. by eexists.
Qed.

Lemma delete_first_Forall {A} (P : A -> Prop) test (l : list A) :
  Forall P l -> Forall P (delete_first test l).
Proof. induction 1; simpl; [done|]. case_match; [done|]. by constructor. Qed.

Lemma find_delete_lvg id (ls : list LocalVirtualGroup) k :
  StronglySorted Z.lt (lvg_Id <$> ls) ->
  List.find (is_lvg k) (delete_first (is_lvg id) ls) =
  if decide (k = id) then None else List.find (is_lvg k) ls.
Proof.
  induction ls as [|x ls IH]; simpl; intros Hs; [by destruct (decide _)|].
  apply StronglySorted_inv in Hs as [Hs Hx]. destruct (is_lvg id x) eqn:E.
  - apply Z.eqb_eq in E. destruct (decide (k = id)) as [->|Hne].
    + destruct (List.find _ ls) as [y|] eqn:F; [|done]. apply List.find_some in F as [Hy Hid].
      apply Z.eqb_eq in Hid. rewrite Forall_fmap, Forall_forall in Hx.
      specialize (Hx y). simpl in Hx. rewrite list_elem_of_In in Hx. specialize (Hx Hy). lia.
    + unfold is_lvg at 2. by rewrite (proj2 (Z.eqb_neq _ _)) by congruence.
  - simpl. rewrite IH by done. destruct (decide (k = id)) as [->|]; [by rewrite E|done].
Qed.

Lemma DeleteLVG_quiet id ib l :
  StronglySorted Z.lt (lvg_Id <$> LocalVirtualGroups ib) ->
  GetLVG id ib = Some l -> lvg_TotalChargeSize l = 0 -> quiet ib (DeleteLVG id ib).
Proof.
  intros Hs Hl H0. split; [split; [|split]|].
  - simpl. clear Hl. induction (LocalVirtualGroups ib) as [|x ls IH]; simpl; [done|].
    apply StronglySorted_inv in Hs as [Hs Hx]. case_match; [done|]. simpl. constructor; [by apply IH|].
    change (Forall (Z.lt (lvg_Id x)) (lvg_Id <$> ls)) in Hx.
    change (Forall (Z.lt (lvg_Id x)) (lvg_Id <$> delete_first (is_lvg id) ls)).
    rewrite Forall_fmap in *. by apply delete_first_Forall.
  - intros k. unfold lvg_bytes. unfold GetLVG in *. simpl. rewrite find_delete_lvg by done.
    destruct (decide (k = id)) as [->|]; [|done]. rewrite Hl. simpl. lia.
  - done.
  - intros p b t. apply (quiet_bill ib). intros. unfold GetLVG in Hl. clear Hs. unfold zsum.
    induction (LocalVirtualGroups ib) as [|x ls IH]; simpl in *; [done|].
    destruct (is_lvg id x); simpl; [|rewrite IH by done; lia].
    injection Hl as ->. rewrite store_rate_0 by done. lia.
Qed.

(** Bytes that no object change touches *)
Lemma bytes_kept n s s' i :
  objects_ok s -> object_changed s s' i ->
  (forall l, at_obj (weight_in n l) s' i = at_obj (weight_in n l) s i) ->
  at_obj (weight_of n) s' i = at_obj (weight_of n) s i ->
  (forall l, bytes_in n l s' = bytes_in n l s) /\ bytes_of n s' = bytes_of n s.
Proof.
  intros HO Hoc Hin Hof. split; [intros l|]; unfold bytes_in, bytes_of;
    erewrite (obj_sum_change _ s s' i); rewrite ?Hin, ?Hof; try done; try lia.
  1: apply local_weight_in. 2: apply local_weight_of.
  all: intros k o Hk; apply (oj_id _ HO _ _ Hk).
Qed.

Lemma ib_ok_kept n s s' i ib :
  objects_ok s -> object_changed s s' i ->
  (forall l, at_obj (weight_in n l) s' i = at_obj (weight_in n l) s i) ->
  at_obj (weight_of n) s' i = at_obj (weight_of n) s i ->
  ib_ok n s ib -> ib_ok n s' ib.
Proof.
  intros HO Hoc Hin Hof [Hs Hb Ht].
  destruct (bytes_kept n s s' i HO Hoc Hin Hof) as [Hbi Hbo].
  split; [done| |congruence]. intros l. by rewrite Hbi.
Qed.

(** One object of group [lid] enters with [d] bytes, or leaves with [-d]. *)
Lemma ib_ok_charge n s s' i lid d ib :
  ib_ok n s ib -> objects_ok s -> objects_ok s' -> roomy s' -> object_changed s s' i ->
  is_Some (GetLVG lid ib) ->
  (forall l, at_obj (weight_in n l) s' i - at_obj (weight_in n l) s i =
             if decide (l = lid) then d else 0) ->
  at_obj (weight_of n) s' i - at_obj (weight_of n) s i = d ->
  ib_ok n s' (charge_lvg lid d ib).
Proof.
  intros [Hs Hb Ht] HO HO' Hroom Hoc Hl Hin Hof.
  assert (forall k o, objects (res s) !! k = Some o -> ob_Id o = k) as Hids
    by (intros k o Hk; apply (oj_id _ HO _ _ Hk)).
  assert (forall l, bytes_in n l s' = bytes_in n l s + if decide (l = lid) then d else 0) as Hbi.
  { intros l. unfold bytes_in. rewrite (obj_sum_change _ s s' i (local_weight_in n l) Hids Hoc).
    rewrite <- Hin. lia. }
  assert (bytes_of n s' = bytes_of n s + d) as Hbo.
  { unfold bytes_of. rewrite (obj_sum_change _ s s' i (local_weight_of n) Hids Hoc). lia. }
  assert (forall x, 0 <= x <= bytes_of n s' -> u64 x = x) as Hu.
  { intros x Hx. apply u64_id. unfold is_u64. specialize (Hroom n).
    apply andb_true_iff. rewrite Z.leb_le, Z.ltb_lt. lia. }
  split.
  - simpl. by rewrite modify_first_ids.
  - intros l. rewrite lvg_bytes_charge by done. rewrite !Hb, Hbi.
    pose proof (bytes_in_range n lid s' HO') as Hr. rewrite Hbi, decide_True in Hr by done.
    destruct (decide (l = lid)) as [->|]; [|lia]. by apply Hu.
  - simpl. rewrite Ht, <- Hbo. apply Hu.
    pose proof (bytes_in_range n lid s' HO'). lia.
Qed.

(** ** Objects kept well indexed *)

(** The object [i] replaced by one of the same name *)
Lemma objects_ok_set s s' i o0 o :
  objects_ok s -> objects (res s) !! i = Some o0 ->
  ob_Id o = ob_Id o0 -> ob_BucketName o = ob_BucketName o0 -> ob_ObjectName o = ob_ObjectName o0 ->
  objects (res s') = <[i := o]> (objects (res s)) -> object_ids (res s') = object_ids (res s) ->
  bucket_ids (res s') = bucket_ids (res s) -> objectSeq s' = objectSeq s ->
  st_versioned s' = st_versioned s ->
  (forall k, k <> i -> disc_statuses s' !! k = disc_statuses s !! k) ->
  (forall v, disc_statuses s' !! i = Some v ->
     v <> OBJECT_STATUS_DISCONTINUED /\ ob_ObjectStatus o = OBJECT_STATUS_DISCONTINUED) ->
  objects_ok s'.
Proof.
  intros HO Hi Eid Ebn Eon Eo Ei Eb Es Ev Ed Edi. split; rewrite ?Ei, ?Eb, ?Es, ?Ev; try apply HO.
  - intros k ok. rewrite Eo, lookup_insert_Some. intros [[<- <-]|[Hne Hk]].
    + rewrite Eid, Ebn, Eon. by apply (oj_id _ HO).
    + by apply (oj_id _ HO).
  - intros nm k (ok & Hk & Hnm)%(oj_name _ HO). rewrite Eo.
    destruct (decide (k = i)) as [->|].
    + exists o. rewrite lookup_insert_eq. split; [done|]. congruence.
    + exists ok. by rewrite lookup_insert_ne.
  - intros k v Hk. rewrite Eo. destruct (decide (k = i)) as [->|Hne].
    + rewrite lookup_insert_eq. destruct (Edi v Hk). eauto.
    + rewrite lookup_insert_ne by done. rewrite Ed in Hk by done. by apply (oj_status _ HO).
Qed.

(** An object with a new id and a free name *)
Lemma objects_ok_new s s' i o :
  objects_ok s -> object_ids (res s) !! (ob_BucketName o, ob_ObjectName o) = None ->
  is_Some (bucket_ids (res s) !! ob_BucketName o) -> ob_Id o = i ->
  CurVal Uint256 (objectSeq s) < i <= CurVal Uint256 (objectSeq s') ->
  CurVal Uint256 (objectSeq s') < 2 ^ 256 ->
  objects (res s') = <[i := o]> (objects (res s)) ->
  object_ids (res s') = <[(ob_BucketName o, ob_ObjectName o) := i]> (object_ids (res s)) ->
  bucket_ids (res s') = bucket_ids (res s) -> st_versioned s' = st_versioned s ->
  disc_statuses s' = disc_statuses s -> objects_ok s'.
Proof.
  intros HO Hfree Hb Eid Hi Hmax Eo Ei Eb Ev Ed. pose proof (oj_seq _ HO).
  split; rewrite ?Ei, ?Eb, ?Ev, ?Ed; try apply HO; [| |lia|].
  - intros k ok. rewrite Eo, lookup_insert_Some. intros [[<- <-]|[Hne Hk]].
    + rewrite lookup_insert_eq. split_and!; (done || lia).
    + destruct (oj_id _ HO _ _ Hk) as (? & Hnm & ? & ?). rewrite lookup_insert_ne.
      * split_and!; (done || lia).
      * intros Heq. rewrite Heq, Hnm in Hfree. done.
  - intros nm k. rewrite Eo, lookup_insert_Some. intros [[<- <-]|[Hne Hk]].
    + exists o. by rewrite lookup_insert_eq.
    + apply (oj_name _ HO) in Hk as (ok & Hk & Hnm). exists ok. rewrite lookup_insert_ne; [done|].
      intros <-. destruct (oj_id _ HO _ _ Hk) as (? & _ & _ & ?). lia.
  - intros k v (Hv & ok & Hk & Hs)%(oj_status _ HO). split; [done|]. exists ok. rewrite Eo.
    rewrite lookup_insert_ne; [done|]. intros <-. destruct (oj_id _ HO _ _ Hk) as (? & _ & _ & ?). lia.
Qed.

(** The object [i] deleted *)
Lemma objects_ok_del s s' i o :
  objects_ok s -> objects (res s) !! i = Some o ->
  objects (res s') = delete i (objects (res s)) ->
  object_ids (res s') = delete (ob_BucketName o, ob_ObjectName o) (object_ids (res s)) ->
  bucket_ids (res s') = bucket_ids (res s) -> objectSeq s' = objectSeq s ->
  st_versioned s' = st_versioned s ->
  (forall k, k <> i -> disc_statuses s' !! k = disc_statuses s !! k) ->
  disc_statuses s' !! i = None -> objects_ok s'.
Proof.
  intros HO Hi Eo Ei Eb Es Ev Ed Edi. split; rewrite ?Ei, ?Eb, ?Es, ?Ev; try apply HO.
  - intros k ok. rewrite Eo, lookup_delete_Some. intros [Hne Hk].
    destruct (oj_id _ HO _ _ Hk) as (? & Hnm & ? & ?). rewrite lookup_delete_ne; [done|].
    intros Heq. destruct (oj_id _ HO _ _ Hi) as (_ & Hnm' & _). congruence.
  - intros nm k. rewrite Eo, lookup_delete_Some. intros [Hne Hk].
    apply (oj_name _ HO) in Hk as (ok & Hk & Hnm). exists ok.
    rewrite lookup_delete_ne; [done|]. intros <-. congruence.
  - intros k v Hk. assert (k <> i) as Hne by congruence. rewrite Ed in Hk by done.
    rewrite Eo, lookup_delete_ne by done. by apply (oj_status _ HO).
Qed.

(** Only the buckets changed, and every object still has one. *)
Lemma objects_ok_buckets s s' :
  objects_ok s -> objects (res s') = objects (res s) -> object_ids (res s') = object_ids (res s) ->
  (forall k o, objects (res s) !! k = Some o -> is_Some (bucket_ids (res s') !! ob_BucketName o)) ->
  objectSeq s' = objectSeq s -> st_versioned s' = st_versioned s ->
  disc_statuses s' = disc_statuses s -> objects_ok s'.
Proof.
  intros HO Eo Ei Hb Es Ev Ed. split; rewrite ?Eo, ?Ei, ?Es, ?Ev, ?Ed; try apply HO.
  intros k o Hk. destruct (oj_id _ HO _ _ Hk) as (? & ? & _ & ?). eauto.
Qed.

(** Fewer bytes *)
Lemma roomy_less s s' i :
  objects_ok s -> roomy s -> object_changed s s' i ->
  (forall n, at_obj (weight_of n) s' i <= at_obj (weight_of n) s i) -> roomy s'.
Proof.
  intros HO Hr Hoc Hle n. specialize (Hr n). specialize (Hle n). unfold bytes_of in *.
  rewrite (obj_sum_change _ s s' i (local_weight_of n)); [lia| |done].
  intros k o Hk. apply (oj_id _ HO _ _ Hk).
Qed.

Lemma no_objects_bytes n s :
  (forall k o, objects (res s) !! k = Some o -> ob_BucketName o <> n) ->
  bytes_of n s = 0 /\ forall l, bytes_in n l s = 0.
Proof.
  intros Hno. assert (forall k o, objects (res s) !! k = Some o -> weight_of n s o = 0) as Hw.
  { intros k o Hk. unfold weight_of. rewrite bool_decide_eq_false_2; [done|]. by eapply Hno. }
  split; [|intros l]; unfold bytes_of, bytes_in, obj_sum; rewrite (map_sum_ext _ (fun _ _ => 0)).
  all: try by apply map_sum_zero.
  - exact Hw.
  - intros k o Hk. unfold weight_in. rewrite (Hw _ _ Hk). by case_match.
Qed.

(** ** One bucket changes *)

(** Every bucket has another name. *)
Lemma names_differ s id b id' b' :
  buckets_ok s -> buckets (res s) !! id = Some b -> buckets (res s) !! id' = Some b' ->
  id' <> id -> b_BucketName b' <> b_BucketName b.
Proof.
  intros HB H1 H2 Hne Heq. destruct (bk_id _ HB _ _ H1) as (_ & E1 & _).
  destruct (bk_id _ HB _ _ H2) as (_ & E2 & _). congruence.
Qed.

Lemma due_change p s s' id b b' f t :
  buckets_ok s -> buckets (res s) !! id = Some b -> b_BucketName b' = b_BucketName b ->
  buckets (res s') = <[id := b']> (buckets (res s)) ->
  (forall k, k <> id -> internals s' !! k = internals s !! k) ->
  (forall m, m <> b_BucketName b -> limited s' m = limited s m) ->
  due p s' f t = due p s f t - by_payer (b_PaymentAddress b) (owed p s id b) f t +
                 by_payer (b_PaymentAddress b') (owed p s' id b') f t.
Proof.
  intros HB Hb Hn Hbs Hint Hlim. unfold due. rewrite Hbs, map_sum_insert.
  rewrite <- insert_delete_eq in Hbs.
  assert (forall m : gmap Z BucketInfo, contrib
    (fun id b => by_payer (b_PaymentAddress b) (owed p s' id b) f t) m id +
    map_sum (fun id b => by_payer (b_PaymentAddress b) (owed p s' id b) f t) (delete id m) =
    map_sum (fun id b => by_payer (b_PaymentAddress b) (owed p s' id b) f t) m) as Hs'.
  { intros m. rewrite map_sum_delete_contrib. lia. }
  rewrite <- (Hs' (buckets (res s))).
  rewrite (map_sum_ext _ (fun id b => by_payer (b_PaymentAddress b) (owed p s id b) f t)).
  - rewrite map_sum_delete_contrib. unfold contrib. rewrite Hb. lia.
  - intros k bk [Hne Hk]%lookup_delete_Some. unfold owed. rewrite Hint by done.
    rewrite Hlim; [done|]. by eapply names_differ.
Qed.

(** The bucket [id], and an object [i] of it, changed. *)
Record bucket_changed s s' (id : Z) b b' ib' (i : Z) : Prop := mkBucketChanged {
  bc_old : buckets (res s) !! id = Some b;
  bc_id : b_Id b' = b_Id b;
  bc_name : b_BucketName b' = b_BucketName b;
  bc_owner : b_Owner b' = b_Owner b;
  bc_buckets : buckets (res s') = <[id := b']> (buckets (res s));
  bc_ids : bucket_ids (res s') = bucket_ids (res s);
  bc_internals : internals s' = <[id := ib']> (internals s);
  bc_seq : bucketSeq s' = bucketSeq s;
  bc_status : forall m, m <> b_BucketName b -> limit_status s' !! m = limit_status s !! m;
  bc_limits : forall k, is_Some (rate_limits s !! k) -> is_Some (rate_limits s' !! k);
  bc_limit : forall owner, limited s' (b_BucketName b) = true ->
    AccAddressFromHexUnsafe (b_Owner b) = Some owner ->
    is_Some (rate_limits s' !! (b_PaymentAddress b', owner, b_BucketName b));
  bc_object : object_changed s s' i;
  bc_home : forall o, objects (res s) !! i = Some o \/ objects (res s') !! i = Some o ->
    ob_BucketName o = b_BucketName b;
}.

Lemma limited_other s s' n :
  (forall m, m <> n -> limit_status s' !! m = limit_status s !! m) ->
  forall m, m <> n -> limited s' m = limited s m.
Proof. intros H m Hm. unfold limited. by rewrite H. Qed.

Lemma bucket_changed_ok s s' id b b' ib' i :
  buckets_ok s -> bucket_changed s s' id b b' ib' i -> buckets_ok s'.
Proof.
  intros HB [Hb Hid Hn Ho Hbs Hids Hint Hseq Hst Hrl Hlim _ _].
  destruct (bk_id _ HB _ _ Hb) as (Eid & En & Es & _). split.
  - intros k bk. rewrite Hbs, lookup_insert_Some. intros [[<- <-]|[Hne Hk]].
    + rewrite Hid, Hn, Hids, Hseq, Hint, lookup_insert_eq. eauto.
    + destruct (bk_id _ HB _ _ Hk) as (? & ? & ? & ?). rewrite Hids, Hseq, Hint.
      rewrite lookup_insert_ne by done. eauto.
  - intros m k. rewrite Hids, Hbs. intros (bk & Hk & Hm)%(bk_name _ HB).
    destruct (decide (k = id)) as [->|].
    + exists b'. rewrite lookup_insert_eq. split; [done|]. congruence.
    + exists bk. by rewrite lookup_insert_ne.
  - intros m Hm. rewrite Hids. destruct (decide (m = b_BucketName b)) as [->|Hne]; [by eexists|].
    apply (bk_status _ HB). by rewrite <- Hst.
  - intros k bk owner. rewrite Hbs, lookup_insert_Some. intros [[<- <-]|[Hne Hk]].
    + rewrite Hn, Ho. apply Hlim.
    + rewrite (limited_other _ _ _ Hst) by (by eapply names_differ). intros Hl Hown.
      by apply Hrl, (bk_limit _ HB _ _ owner Hk).
  - rewrite Hseq. apply HB.
Qed.

Lemma Ledger_change p s s' ow ow' id b b' ib ib' i :
  Ledger p s ow -> bucket_changed s s' id b b' ib' i ->
  internals s !! id = Some ib -> objects_ok s' -> roomy s' ->
  ib_ok (b_BucketName b) s' ib' ->
  (forall f t, ow' f t = ow f t -
     by_payer (b_PaymentAddress b) (unless (limited s (b_BucketName b)) (bill_rate p b ib)) f t +
     by_payer (b_PaymentAddress b') (unless (limited s' (b_BucketName b)) (bill_rate p b' ib')) f t) ->
  Ledger p s' ow'.
Proof.
  intros [HG HB HO Hbytes Hroom Hflow] Hch Hib HO' Hroom' Hib' How. split; try done.
  - by eapply bucket_changed_ok.
  - destruct Hch as [Hb Hid Hn Ho Hbs Hids Hint Hseq Hst Hrl Hlim Hoc Hhome].
    intros k bk ibk. rewrite Hbs, Hint, lookup_insert_Some. intros [[<- <-]|[Hne Hk]].
    + rewrite lookup_insert_eq. intros [= <-]. by rewrite Hn.
    + rewrite lookup_insert_ne by done. intros Hik.
      apply (ib_ok_kept _ s s' i); [done|done| | |by eapply Hbytes].
      all: assert (b_BucketName bk <> b_BucketName b) as Hnn by (by eapply names_differ).
      all: assert (forall s0 o, ob_BucketName o = b_BucketName b ->
             weight_of (b_BucketName bk) s0 o = 0) as Hw0
        by (intros s0 o Hon; unfold weight_of; by rewrite bool_decide_eq_false_2 by congruence).
      * intros l. unfold at_obj, weight_in.
        destruct (objects (res s) !! i) as [o1|] eqn:E1, (objects (res s') !! i) as [o2|] eqn:E2;
          rewrite ?Hw0 by (apply Hhome; auto); repeat case_match; done.
      * unfold at_obj.
        destruct (objects (res s) !! i) as [o1|] eqn:E1, (objects (res s') !! i) as [o2|] eqn:E2;
          rewrite ?Hw0 by (apply Hhome; auto); done.
  - intros f t. destruct Hch as [Hb Hid Hn Ho Hbs Hids Hint Hseq Hst Hrl Hlim Hoc Hhome].
    rewrite How, Hflow, (due_change p s s' id b b' f t); try done.
    + unfold owed. rewrite Hib, Hint, lookup_insert_eq, Hn. unfold by_payer. lia.
    + intros k Hk. by rewrite Hint, lookup_insert_ne.
    + by apply limited_other.
Qed.

(** No object changed. *)
Lemma object_same s s' i :
  st_versioned s' = st_versioned s -> objects (res s') = objects (res s) ->
  disc_statuses s' = disc_statuses s -> object_changed s s' i.
Proof. intros H1 H2 H3. split; [done|..]; intros; by rewrite ?H2, ?H3. Qed.

Lemma fresh_object s :
  objects_ok s -> objects (res s) !! (CurVal Uint256 (objectSeq s) + 1) = None.
Proof.
  intros HO. destruct (objects _ !! _) as [o|] eqn:E; [|done].
  destruct (oj_id _ HO _ _ E) as (_ & _ & _ & ?). lia.
Qed.

Lemma bytes_same n s s' :
  objects_ok s -> st_versioned s' = st_versioned s -> objects (res s') = objects (res s) ->
  disc_statuses s' = disc_statuses s ->
  (forall l, bytes_in n l s' = bytes_in n l s) /\ bytes_of n s' = bytes_of n s.
Proof.
  intros HO H1 H2 H3. apply (bytes_kept n s s' (CurVal Uint256 (objectSeq s) + 1)); [done| | |].
  - by apply object_same.
  - intros l. unfold at_obj. by rewrite H2, fresh_object.
  - unfold at_obj. by rewrite H2, fresh_object.
Qed.

(** A bucket changed, and no object. *)
Lemma bucket_only s s' id b b' ib' :
  buckets_ok s -> objects_ok s ->
  buckets (res s) !! id = Some b ->
  b_Id b' = b_Id b -> b_BucketName b' = b_BucketName b -> b_Owner b' = b_Owner b ->
  b_PaymentAddress b' = b_PaymentAddress b ->
  res s' = on_buckets <[id := b']> (res s) -> internals s' = <[id := ib']> (internals s) ->
  limit_status s' = limit_status s -> rate_limits s' = rate_limits s ->
  disc_statuses s' = disc_statuses s -> st_versioned s' = st_versioned s ->
  bucketSeq s' = bucketSeq s ->
  bucket_changed s s' id b b' ib' (CurVal Uint256 (objectSeq s) + 1).
Proof.
  intros HB HO Hb Hid Hn Ho Hp Hr Hi Hst Hrl Hd Hv Hseq. split; rewrite ?Hr; try done.
  - intros m _. by rewrite Hst.
  - by rewrite Hrl.
  - intros owner. unfold limited. rewrite Hst, Hrl, Hp. intros H1 H2. by apply (bk_limit _ HB id).
  - apply object_same; by rewrite ?Hr.
  - intros o. simpl. rewrite fresh_object by done. naive_solver.
Qed.

Lemma ib_ok_bytes n s s' ib :
  objects_ok s -> st_versioned s' = st_versioned s -> objects (res s') = objects (res s) ->
  disc_statuses s' = disc_statuses s -> ib_ok n s ib -> ib_ok n s' ib.
Proof.
  intros HO H1 H2 H3 [Hs Hb Ht]. destruct (bytes_same n s s' HO H1 H2 H3) as [Hin Hof].
  split; [done| |congruence]. intros l. by rewrite Hin.
Qed.

Lemma Ledger_bucket p s s' ow ow' b b' ib ib' :
  Ledger p s ow -> bucket_changed s s' (b_Id b) b b' ib' (CurVal Uint256 (objectSeq s) + 1) ->
  internals s !! b_Id b = Some ib -> same_bytes ib ib' ->
  objects (res s') = objects (res s) -> object_ids (res s') = object_ids (res s) ->
  objectSeq s' = objectSeq s -> disc_statuses s' = disc_statuses s ->
  (forall f t, ow' f t = ow f t -
     by_payer (b_PaymentAddress b) (unless (limited s (b_BucketName b)) (bill_rate p b ib)) f t +
     by_payer (b_PaymentAddress b') (unless (limited s' (b_BucketName b)) (bill_rate p b' ib')) f t) ->
  Ledger p s' ow'.
Proof.
  intros HL Hch Hib Hsame Eo Eoi Es Ed How. pose proof (lg_objects _ _ _ HL) as HO.
  assert (st_versioned s' = st_versioned s) as Ev by apply Hch.
  eapply (Ledger_change p s s' ow ow'); try done.
  - apply (objects_ok_buckets s); try done. intros k o Hk. rewrite (bc_ids _ _ _ _ _ _ _ Hch).
    apply (oj_id _ HO _ _ Hk).
  - intros n. destruct (bytes_same n s s') as [_ ->]; try done. apply HL.
  - eapply ib_ok_same; [|exact Hsame]. apply (ib_ok_bytes _ s); try done.
    eapply (lg_bytes _ _ _ HL); [apply Hch|done].
Qed.

(** More limits set *)
Lemma Ledger_limits p s ow g :
  (forall k, is_Some (rate_limits s !! k) -> is_Some (g (rate_limits s) !! k)) ->
  Ledger p s ow -> Ledger p (on_rate_limits g s) ow.
Proof.
  intros Hg [HG HB HO Hb Hr Hf]. split; try done.
  - destruct HB as [H1 H2 H3 H4 H5]. split; try done. intros id b owner Hbk Hl Ho.
    by apply Hg, (H4 id b owner).
  - by destruct HO.
  - intros id b ib H1 H2. by destruct (Hb id b ib H1 H2).
Qed.

(** An object of the bucket changed, and with it the bucket's charged bytes. *)
Definition bucket_part s :=
  (buckets (res s), bucket_ids (res s), bucketSeq s, limit_status s, rate_limits s).

Lemma Ledger_object p s s' ow ow' b ib ib' i :
  Ledger p s ow -> buckets (res s) !! b_Id b = Some b -> internals s !! b_Id b = Some ib ->
  bucket_part s' = bucket_part s -> internals s' = <[b_Id b := ib']> (internals s) ->
  object_changed s s' i ->
  (forall o, objects (res s) !! i = Some o \/ objects (res s') !! i = Some o ->
     ob_BucketName o = b_BucketName b) ->
  objects_ok s' -> roomy s' -> ib_ok (b_BucketName b) s' ib' ->
  (forall f t, ow' f t = ow f t + by_payer (b_PaymentAddress b)
     (unless (limited s (b_BucketName b)) (fun t => bill_rate p b ib' t - bill_rate p b ib t)) f t) ->
  Ledger p s' ow'.
Proof.
  intros HL Hb Hib Hpart Hint Hoc Hhome HO' Hroom Hib' How.
  assert (limited s' (b_BucketName b) = limited s (b_BucketName b)) as Hlim.
  { unfold bucket_part in Hpart. injection Hpart as _ _ _ Hst _. unfold limited. by rewrite Hst. }
  eapply (Ledger_change p s s' ow ow' (b_Id b) b b ib ib' i); try done.
  - unfold bucket_part in Hpart. injection Hpart as E1 E2 E3 E4 E5. split; try done.
    + by rewrite E1, insert_id.
    + intros m _. by rewrite E4.
    + by rewrite E5.
    + intros owner. rewrite Hlim, E5. intros H1 H2. by apply (bk_limit _ (lg_buckets _ _ _ HL) (b_Id b)).
  - intros f t. rewrite How, Hlim. unfold by_payer, unless. repeat case_match; lia.
Qed.

(** ** Objects in and out of the bytes *)

(** The object [i], if any, is charged for nothing. *)
Definition unweighed s (i : Z) : Prop := forall n, at_obj (weight_of n) s i = 0.

Lemma unweighed_in s i n l : unweighed s i -> at_obj (weight_in n l) s i = 0.
Proof.
  intros H. specialize (H n). unfold at_obj, weight_in in *.
  destruct (objects (res s) !! i); [|done]. by case_match.
Qed.

Lemma unweighed_none s i : objects (res s) !! i = None -> unweighed s i.
Proof. intros H n. unfold at_obj. by rewrite H. Qed.

Lemma unweighed_unsealed s i o :
  objects (res s) !! i = Some o -> is_sealed s o = false -> unweighed s i.
Proof. intros H Hs n. unfold at_obj, weight_of. by rewrite H, Hs, andb_false_r. Qed.

Lemma weight_sealed n s o :
  is_sealed s o = true -> weight_of n s o = if bool_decide (ob_BucketName o = n) then charge_of s o else 0.
Proof. intros H. unfold weight_of. rewrite H, andb_true_r. done. Qed.

Lemma ib_ok_unweighed n s s' i ib ib' :
  ib_ok n s ib -> objects_ok s -> object_changed s s' i -> unweighed s i -> unweighed s' i ->
  quiet ib ib' -> ib_ok n s' ib'.
Proof.
  intros Hib HO Hoc Hu Hu' [Hq _]. eapply ib_ok_same; [|exact Hq].
  eapply ib_ok_kept; try done; [|by rewrite Hu, Hu'].
  intros l. by rewrite !unweighed_in.
Qed.

Lemma ib_ok_out n s s' i o ib ib' :
  ib_ok n s ib -> objects_ok s -> objects_ok s' -> roomy s' -> object_changed s s' i ->
  objects (res s) !! i = Some o -> ob_BucketName o = n -> is_sealed s o = true -> unweighed s' i ->
  is_Some (GetLVG (ob_LocalVirtualGroupId o) ib) ->
  quiet (charge_lvg (ob_LocalVirtualGroupId o) (- charge_of s o) ib) ib' -> ib_ok n s' ib'.
Proof.
  intros Hib HO HO' Hr Hoc Hi Hn Hs Hu Hl [Hq _]. eapply ib_ok_same; [|exact Hq].
  assert (weight_of n s o = charge_of s o) as Hw
    by (rewrite weight_sealed by done; by rewrite bool_decide_eq_true_2).
  eapply ib_ok_charge; try done.
  - intros l. rewrite unweighed_in by done. unfold at_obj, weight_in. rewrite Hi, Hw.
    destruct (Z.eqb_spec (ob_LocalVirtualGroupId o) l), (decide (l = ob_LocalVirtualGroupId o)); lia.
  - rewrite Hu. unfold at_obj. rewrite Hi, Hw. lia.
Qed.

Lemma charge_of_versions s s' o : st_versioned s' = st_versioned s -> charge_of s' o = charge_of s o.
Proof. intros H. unfold charge_of, St_GetVersionedParamsWithTS. by rewrite H. Qed.

Lemma ib_ok_in n s s' i o lid d ib ib1 :
  ib_ok n s ib -> objects_ok s -> objects_ok s' -> roomy s' -> object_changed s s' i ->
  unweighed s i -> objects (res s') !! i = Some o -> ob_BucketName o = n -> is_sealed s' o = true ->
  ob_LocalVirtualGroupId o = lid -> charge_of s o = d ->
  quiet ib ib1 -> is_Some (GetLVG lid ib1) -> ib_ok n s' (charge_lvg lid d ib1).
Proof.
  intros Hib HO HO' Hr Hoc Hu Hi Hn Hs <- <- [Hq _] Hl.
  assert (weight_of n s' o = charge_of s o) as Hw.
  { rewrite weight_sealed by done. rewrite bool_decide_eq_true_2 by done.
    apply charge_of_versions, Hoc. }
  apply (ib_ok_charge n s s' i); try done; [by eapply ib_ok_same|..].
  - intros l. rewrite (unweighed_in s) by done. unfold at_obj, weight_in. rewrite Hi, Hw.
    destruct (Z.eqb_spec (ob_LocalVirtualGroupId o) l), (decide (l = ob_LocalVirtualGroupId o)); lia.
  - rewrite Hu. unfold at_obj. rewrite Hi, Hw. lia.
Qed.

Lemma ib_ok_time n s ib time : ib_ok n s ib -> ib_ok n s (set_price_time time ib).
Proof. intros [Hs Hb Ht]. by split. Qed.

(** An object deleted *)
Lemma roomy_gone s s' i :
  objects_ok s -> roomy s -> object_changed s s' i -> unweighed s' i -> roomy s'.
Proof.
  intros HO Hr Hoc Hu. apply (roomy_less s s' i); try done. intros n. rewrite Hu. unfold at_obj.
  destruct (objects (res s) !! i); [by apply weight_of_nonneg|done].
Qed.

(** The rate the bucket's bill changes by *)
Definition rebill p s b ib ib' : Addr -> Addr -> Z :=
  by_payer (b_PaymentAddress b)
    (unless (limited s (b_BucketName b)) (fun t => bill_rate p b ib' t - bill_rate p b ib t)).

Lemma rebill_quiet p s b ib ib' f t : quiet ib ib' -> rebill p s b ib ib' f t = 0.
Proof. intros [_ Hq]. unfold rebill, by_payer, unless. rewrite Hq. repeat case_match; lia. Qed.

(** The object [o] of the bucket [b] deleted *)
Record object_gone s s' b o ib' : Prop := mkObjectGone {
  og_bucket : bucket_part s' = bucket_part s;
  og_objects : objects (res s') = delete (ob_Id o) (objects (res s));
  og_ids : object_ids (res s') = delete (ob_BucketName o, ob_ObjectName o) (object_ids (res s));
  og_internals : internals s' = <[b_Id b := ib']> (internals s);
  og_seq : objectSeq s' = objectSeq s;
  og_versions : st_versioned s' = st_versioned s;
  og_statuses : forall k, k <> ob_Id o -> disc_statuses s' !! k = disc_statuses s !! k;
  og_status : disc_statuses s' !! ob_Id o = None;
}.

(** What is left of the bytes of the bucket *)
Definition without s o ib ib' : Prop :=
  if is_sealed s o
  then is_Some (GetLVG (ob_LocalVirtualGroupId o) ib) /\
       quiet (charge_lvg (ob_LocalVirtualGroupId o) (- charge_of s o) ib) ib'
  else quiet ib ib'.

Lemma part_bucket_ids s s' :
  bucket_part s' = bucket_part s -> bucket_ids (res s') = bucket_ids (res s).
Proof. intros H. exact (f_equal (fun x => x.1.1.1.2) H). Qed.

Lemma Ledger_object_gone p s s' ow ow' b o ib ib' :
  Ledger p s ow -> buckets (res s) !! b_Id b = Some b -> internals s !! b_Id b = Some ib ->
  objects (res s) !! ob_Id o = Some o -> ob_BucketName o = b_BucketName b ->
  object_gone s s' b o ib' -> without s o ib ib' ->
  (forall f t, ow' f t = ow f t + rebill p s b ib ib' f t) -> Ledger p s' ow'.
Proof.
  intros HL Hb Hib Ho Hn [Ep Eo Ei Eint Es Ev Ed Edi] Hout How.
  pose proof (lg_objects _ _ _ HL) as HO.
  assert (object_changed s s' (ob_Id o)) as Hoc.
  { split; [done| |done]. intros k Hk. by rewrite Eo, lookup_delete_ne. }
  assert (objects_ok s') as HO' by (eapply (objects_ok_del s); eauto using part_bucket_ids).
  assert (unweighed s' (ob_Id o)) as Hu by (apply unweighed_none; by rewrite Eo, lookup_delete_eq).
  assert (roomy s') as Hr by (by eapply roomy_gone; [| apply HL|..]).
  pose proof (lg_bytes _ _ _ HL _ _ _ Hb Hib) as Hok.
  eapply (Ledger_object p s s' ow ow' b ib ib' (ob_Id o)); try done.
  - intros o1 [H1|H1]; [congruence|]. by rewrite Eo, lookup_delete_eq in H1.
  - unfold without in Hout. destruct (is_sealed s o) eqn:E.
    + destruct Hout. by eapply ib_ok_out.
    + eapply ib_ok_unweighed; eauto using unweighed_unsealed.
Qed.

(** The object [o] of the bucket [b] replaced by [o'] *)
Record object_put s s' b o o' ib' : Prop := mkObjectPut {
  op_bucket : bucket_part s' = bucket_part s;
  op_id : ob_Id o' = ob_Id o;
  op_home : ob_BucketName o' = ob_BucketName o;
  op_name : ob_ObjectName o' = ob_ObjectName o;
  op_objects : objects (res s') = <[ob_Id o := o']> (objects (res s));
  op_ids : object_ids (res s') = object_ids (res s);
  op_internals : internals s' = <[b_Id b := ib']> (internals s);
  op_seq : objectSeq s' = objectSeq s;
  op_versions : st_versioned s' = st_versioned s;
  op_statuses : forall k, k <> ob_Id o -> disc_statuses s' !! k = disc_statuses s !! k;
  op_status : forall v, disc_statuses s' !! ob_Id o = Some v ->
    v <> OBJECT_STATUS_DISCONTINUED /\ ob_ObjectStatus o' = OBJECT_STATUS_DISCONTINUED;
}.

Lemma put_objects_ok s s' b o o' ib' :
  objects_ok s -> objects (res s) !! ob_Id o = Some o -> object_put s s' b o o' ib' ->
  objects_ok s' /\ object_changed s s' (ob_Id o).
Proof.
  intros HO Ho [Ep Eid Eh En Eo Ei Eint Es Ev Ed Edi]. split.
  - eapply (objects_ok_set s); eauto using part_bucket_ids.
  - split; [done| |done]. intros k Hk. by rewrite Eo, lookup_insert_ne.
Qed.

Lemma Ledger_object_put p s s' ow ow' b o o' ib ib' :
  Ledger p s ow -> buckets (res s) !! b_Id b = Some b -> internals s !! b_Id b = Some ib ->
  objects (res s) !! ob_Id o = Some o -> ob_BucketName o = b_BucketName b ->
  object_put s s' b o o' ib' -> roomy s' -> ib_ok (b_BucketName b) s' ib' ->
  (forall f t, ow' f t = ow f t + rebill p s b ib ib' f t) -> Ledger p s' ow'.
Proof.
  intros HL Hb Hib Ho Hn Hput Hr Hok How.
  destruct (put_objects_ok _ _ _ _ _ _ (lg_objects _ _ _ HL) Ho Hput) as [HO' Hoc].
  destruct Hput as [Ep Eid Eh En Eo Ei Eint Es Ev Ed Edi].
  eapply (Ledger_object p s s' ow ow' b ib ib' (ob_Id o)); try done.
  intros o1 [H1|H1]; [congruence|]. rewrite Eo, lookup_insert_eq in H1. congruence.
Qed.

(** Replaced by one that weighs the same *)
Lemma Ledger_object_same p s s' ow ow' b o o' ib :
  Ledger p s ow -> buckets (res s) !! b_Id b = Some b -> internals s !! b_Id b = Some ib ->
  objects (res s) !! ob_Id o = Some o -> ob_BucketName o = b_BucketName b ->
  object_put s s' b o o' ib ->
  (forall n l, weight_in n l s' o' = weight_in n l s o) ->
  (forall n, weight_of n s' o' = weight_of n s o) ->
  (forall f t, ow' f t = ow f t) -> Ledger p s' ow'.
Proof.
  intros HL Hb Hib Ho Hn Hput Hwi Hwo How. pose proof (lg_objects _ _ _ HL) as HO.
  destruct (put_objects_ok _ _ _ _ _ _ HO Ho Hput) as [HO' Hoc].
  assert (objects (res s') !! ob_Id o = Some o') as Ho'
    by (rewrite (op_objects _ _ _ _ _ _ Hput); apply lookup_insert_eq).
  assert (sorted_ok : ib_ok (b_BucketName b) s ib) by (by eapply (lg_bytes _ _ _ HL)).
  eapply (Ledger_object_put p s s' ow ow' b o o' ib ib); try done.
  - apply (roomy_less s s' (ob_Id o)); try done; [apply HL|]. intros n. unfold at_obj.
    rewrite Ho, Ho', Hwo. done.
  - apply (ib_ok_kept _ s s' (ob_Id o)); try done; [intros l|]; unfold at_obj; by rewrite Ho, Ho'.
  - intros f t. rewrite How, rebill_quiet; [lia|]. apply quiet_refl, sorted_ok.
Qed.

(** The store without the object [o] *)
Definition drop o s : StorageStore :=
  on_disc_statuses (delete (ob_Id o))
    (DeleteObjectInfo (ob_BucketName o) (ob_ObjectName o) (ob_Id o) s).

Lemma drop_ok s o n ib ib' :
  objects_ok s -> roomy s -> objects (res s) !! ob_Id o = Some o -> ob_BucketName o = n ->
  ib_ok n s ib -> without s o ib ib' ->
  objects_ok (drop o s) /\ unweighed (drop o s) (ob_Id o) /\ ib_ok n (drop o s) ib'.
Proof.
  intros HO Hr Ho Hn Hok Hout.
  assert (object_changed s (drop o s) (ob_Id o)) as Hoc.
  { split; [done|..]; intros k Hk; simpl; by rewrite lookup_delete_ne. }
  assert (objects_ok (drop o s)) as HO'.
  { eapply (objects_ok_del s); try done; simpl; [|apply lookup_delete_eq].
    intros k Hk. by rewrite lookup_delete_ne. }
  assert (unweighed (drop o s) (ob_Id o)) as Hu by (apply unweighed_none; simpl; apply lookup_delete_eq).
  split; [done|]. split; [done|]. unfold without in Hout. destruct (is_sealed s o) eqn:E.
  - destruct Hout. eapply ib_ok_out; try done. by apply (roomy_gone s _ (ob_Id o)).
  - eapply ib_ok_unweighed; eauto using unweighed_unsealed.
Qed.

(** Replaced by one that is sealed in the group [lid] of [ib2] *)
Lemma put_sealed_ok s s' b o o' ib ib1 ib2 ib' lid :
  objects_ok s -> roomy s -> roomy s' -> objects (res s) !! ob_Id o = Some o ->
  ob_BucketName o = b_BucketName b -> ib_ok (b_BucketName b) s ib ->
  object_put s s' b o o' ib' -> without s o ib ib1 -> quiet ib1 ib2 -> is_Some (GetLVG lid ib2) ->
  is_sealed s' o' = true -> ob_LocalVirtualGroupId o' = lid ->
  ib_ok (b_BucketName b) (drop o s) ib2 /\
  ib_ok (b_BucketName b) s' (charge_lvg lid (charge_of s o') ib2).
Proof.
  intros HO Hr Hr' Ho Hn Hok Hput Hout Hq Hl Hs Hlid.
  destruct (put_objects_ok _ _ _ _ _ _ HO Ho Hput) as [HO' Hoc].
  destruct (drop_ok s o (b_BucketName b) ib ib1) as (HOm & Hum & Hokm); try done.
  destruct Hput as [Ep Eid Eh En Eo Ei Eint Es Ev Ed Edi].
  assert (object_changed (drop o s) s' (ob_Id o)) as Hoc'.
  { split; [done|..]; intros k Hk; simpl.
    - by rewrite Eo, lookup_insert_ne, lookup_delete_ne.
    - by rewrite Ed, lookup_delete_ne. }
  split; [by eapply ib_ok_same, Hq|].
  apply (ib_ok_in _ (drop o s) s' (ob_Id o) o' lid _ ib1 ib2); try done.
  - by rewrite Eo, lookup_insert_eq.
  - congruence.
Qed.

(** The new object [o] of the bucket [b] *)
Record object_born s s' b o ib' : Prop := mkObjectBorn {
  bn_bucket : bucket_part s' = bucket_part s;
  bn_new : CurVal Uint256 (objectSeq s) < ob_Id o <= CurVal Uint256 (objectSeq s');
  bn_bound : CurVal Uint256 (objectSeq s') < 2 ^ 256;
  bn_free : object_ids (res s) !! (ob_BucketName o, ob_ObjectName o) = None;
  bn_objects : objects (res s') = <[ob_Id o := o]> (objects (res s));
  bn_ids : object_ids (res s') = <[(ob_BucketName o, ob_ObjectName o) := ob_Id o]> (object_ids (res s));
  bn_internals : internals s' = <[b_Id b := ib']> (internals s);
  bn_versions : st_versioned s' = st_versioned s;
  bn_statuses : disc_statuses s' = disc_statuses s;
}.

Lemma born_objects_ok s s' b o ib' :
  objects_ok s -> is_Some (bucket_ids (res s) !! ob_BucketName o) -> object_born s s' b o ib' ->
  objects_ok s' /\ object_changed s s' (ob_Id o) /\ objects (res s) !! ob_Id o = None /\
  objects (res s') !! ob_Id o = Some o.
Proof.
  intros HO Hb [Ep Hnew Hmax Hfree Eo Ei Eint Ev Ed]. split_and!.
  - eapply (objects_ok_new s); eauto using part_bucket_ids.
  - split; [done| |by rewrite Ed]. intros k Hk. by rewrite Eo, lookup_insert_ne.
  - destruct (objects _ !! _) as [o1|] eqn:E; [|done].
    destruct (oj_id _ HO _ _ E) as (_ & _ & _ & ?). lia.
  - by rewrite Eo, lookup_insert_eq.
Qed.

(** The bytes with the new object: in the group [lid] of [ib1], or none *)
Lemma born_ib_ok s s' b o ib ib1 lid :
  objects_ok s -> roomy s' -> is_Some (bucket_ids (res s) !! ob_BucketName o) ->
  ob_BucketName o = b_BucketName b -> ib_ok (b_BucketName b) s ib ->
  (exists ib', object_born s s' b o ib') -> is_sealed s' o = true -> ob_LocalVirtualGroupId o = lid ->
  quiet ib ib1 -> is_Some (GetLVG lid ib1) ->
  ib_ok (b_BucketName b) s' (charge_lvg lid (charge_of s o) ib1).
Proof.
  intros HO Hr Hb Hn Hok [ib' Hborn] Hs Hlid Hq Hl.
  destruct (born_objects_ok _ _ _ _ _ HO Hb Hborn) as (HO' & Hoc & Hno & Ho).
  eapply (ib_ok_in _ s s' (ob_Id o)); eauto using unweighed_none.
Qed.

Lemma Ledger_object_born p s s' ow ow' b o ib ib' :
  Ledger p s ow -> buckets (res s) !! b_Id b = Some b -> internals s !! b_Id b = Some ib ->
  ob_BucketName o = b_BucketName b -> object_born s s' b o ib' -> roomy s' ->
  (if is_sealed s' o then ib_ok (b_BucketName b) s' ib' else quiet ib ib') ->
  (forall f t, ow' f t = ow f t + rebill p s b ib ib' f t) -> Ledger p s' ow'.
Proof.
  intros HL Hb Hib Hn Hborn Hr Hok How.
  assert (is_Some (bucket_ids (res s) !! ob_BucketName o)) as Hbk.
  { destruct (bk_id _ (lg_buckets _ _ _ HL) _ _ Hb) as (_ & ? & _). rewrite Hn. by eexists. }
  destruct (born_objects_ok _ _ _ _ _ (lg_objects _ _ _ HL) Hbk Hborn) as (HO' & Hoc & Hno & Ho).
  destruct Hborn as [Ep Hnew Hmax Hfree Eo Ei Eint Ev Ed].
  eapply (Ledger_object p s s' ow ow' b ib ib' (ob_Id o)); try done.
  - intros o1 [H1|H1]; congruence.
  - destruct (is_sealed s' o) eqn:E; [done|].
    eapply (ib_ok_unweighed _ s s' (ob_Id o)); eauto using unweighed_none, unweighed_unsealed.
    + by eapply (lg_bytes _ _ _ HL).
    + apply HL.
Qed.

(** ** A bucket comes, a bucket goes *)

(** The bucket [b] under the new id [id]; it has no groups. *)
Record bucket_added s s' (id : Z) b ib : Prop := mkBucketAdded {
  ba_free : bucket_ids (res s) !! b_BucketName b = None;
  ba_id : b_Id b = id;
  ba_seq : CurVal Uint256 (bucketSeq s) < id <= CurVal Uint256 (bucketSeq s');
  ba_max : CurVal Uint256 (bucketSeq s') < 2 ^ 256;
  ba_ids : bucket_ids (res s') = <[b_BucketName b := id]> (bucket_ids (res s));
  ba_buckets : buckets (res s') = <[id := b]> (buckets (res s));
  ba_objects : objects (res s') = objects (res s);
  ba_object_ids : object_ids (res s') = object_ids (res s);
  ba_internals : internals s' = <[id := ib]> (internals s);
  ba_groups : LocalVirtualGroups ib = [];
  ba_total : ib_TotalChargeSize ib = 0;
  ba_status : limit_status s' = limit_status s;
  ba_limits : rate_limits s' = rate_limits s;
  ba_statuses : disc_statuses s' = disc_statuses s;
  ba_versions : st_versioned s' = st_versioned s;
  ba_objectSeq : objectSeq s' = objectSeq s;
}.

Section Added.
Context (s s' : StorageStore) (id : Z) (b : BucketInfo) (ib : InternalBucketInfo).
Hypothesis Hadd : bucket_added s s' id b ib.
Hypothesis HB : buckets_ok s.

Lemma added_new : buckets (res s) !! id = None.
Proof.
  destruct (buckets _ !! id) eqn:E; [|done]. pose proof (ba_seq _ _ _ _ _ Hadd).
  destruct (bk_id _ HB _ _ E) as (_ & _ & ? & _). lia.
Qed.

Lemma added_unlimited n : limited s' n = limited s n /\ limited s (b_BucketName b) = false.
Proof.
  unfold limited. rewrite (ba_status _ _ _ _ _ Hadd). split; [done|].
  destruct (limit_status s !! b_BucketName b) eqn:E; [|done].
  destruct (bk_status _ HB (b_BucketName b)) as [? Hs]; [by eexists|].
  by rewrite (ba_free _ _ _ _ _ Hadd) in Hs.
Qed.

Lemma added_buckets_ok : buckets_ok s'.
Proof.
  destruct Hadd as [Hfree Hid Hseq Hmax Ei Eb _ _ Eint _ _ Est Erl _ _ _].
  pose proof (bk_seq _ HB). split.
  - intros k bk. rewrite Eb, Ei, Eint, lookup_insert_Some. intros [[<- <-]|[Hne Hk]].
    + rewrite !lookup_insert_eq. split_and!; (done || lia || eauto).
    + destruct (bk_id _ HB _ _ Hk) as (? & Hnm & ? & ?).
      rewrite !lookup_insert_ne by (done || congruence). split_and!; (done || lia).
  - intros n k. rewrite Ei, Eb, lookup_insert_Some. intros [[<- <-]|[Hne Hk]].
    + exists b. by rewrite lookup_insert_eq.
    + pose proof added_new as Hnew. apply (bk_name _ HB) in Hk as (bk & Hk & Hn). exists bk.
      rewrite lookup_insert_ne by congruence. done.
  - intros n. rewrite Est, Ei, lookup_insert_is_Some'. intros ?%(bk_status _ HB). by right.
  - intros k bk owner. rewrite Eb, Erl, lookup_insert_Some.
    destruct (added_unlimited (b_BucketName bk)) as [-> Hunl].
    intros [[<- <-]|[Hne Hk]]; [by rewrite Hunl|]. by eapply (bk_limit _ HB).
  - lia.
Qed.

Lemma added_ib_ok : objects_ok s -> ib_ok (b_BucketName b) s' ib.
Proof.
  intros HO. destruct Hadd as [Hfree _ _ _ _ _ Eo _ _ Hlv Ht _ _ Ed Ev _].
  destruct (bytes_same (b_BucketName b) s s' HO Ev Eo Ed) as [Hin Hof].
  destruct (no_objects_bytes (b_BucketName b) s) as [H0 H0'].
  { intros k o Hk Heq. destruct (oj_id _ HO _ _ Hk) as (_ & _ & [? Hs] & _). congruence. }
  split; [by rewrite Hlv; constructor| |congruence].
  intros l. rewrite Hin, H0'. unfold lvg_bytes, GetLVG. by rewrite Hlv.
Qed.

Lemma due_added p f t :
  due p s' f t = due p s f t + by_payer (b_PaymentAddress b) (bill_rate p b ib) f t.
Proof.
  pose proof added_new. pose proof (ba_internals _ _ _ _ _ Hadd) as Eint.
  unfold due. rewrite (ba_buckets _ _ _ _ _ Hadd), map_sum_insert_fresh by done.
  rewrite (map_sum_ext (fun k bk => by_payer _ (owed p s' k bk) f t)
             (fun k bk => by_payer (b_PaymentAddress bk) (owed p s k bk) f t)).
  - unfold owed at 1. rewrite Eint, lookup_insert_eq.
    destruct (added_unlimited (b_BucketName b)) as [-> ->]. unfold by_payer, unless. lia.
  - intros k bk Hk. unfold owed. destruct (added_unlimited (b_BucketName bk)) as [-> _].
    by rewrite Eint, lookup_insert_ne by congruence.
Qed.
End Added.

Lemma Ledger_add p s s' ow ow' id b ib :
  Ledger p s ow -> bucket_added s s' id b ib ->
  (forall f t, ow' f t = ow f t + by_payer (b_PaymentAddress b) (bill_rate p b ib) f t) ->
  Ledger p s' ow'.
Proof.
  intros [HG HB HO Hbytes Hroom Hflow] Hadd How.
  pose proof Hadd as [_ _ _ _ Ei Eb Eo Eoi Eint _ _ _ _ Ed Ev Es].
  split; [done|..].
  - by eapply added_buckets_ok.
  - apply (objects_ok_buckets s); try done. intros k o Hk. rewrite Ei, lookup_insert_is_Some'.
    right. apply (oj_id _ HO _ _ Hk).
  - intros k bk ibk. rewrite Eb, Eint, lookup_insert_Some. intros [[<- <-]|[Hne Hk]].
    + rewrite lookup_insert_eq. intros [= <-]. by eapply added_ib_ok.
    + rewrite lookup_insert_ne by done. intros Hik. apply (ib_ok_bytes _ s); try done. by eapply Hbytes.
  - intros n. destruct (bytes_same n s s' HO Ev Eo Ed) as [_ ->]. apply Hroom.
  - intros f t. rewrite How, Hflow. symmetry. by eapply due_added.
Qed.

(** The bucket [b] with the id [id] is deleted; it had no objects. *)
Record bucket_gone s s' (id : Z) b : Prop := mkBucketGone {
  bg_old : buckets (res s) !! id = Some b;
  bg_empty : forall k o, objects (res s) !! k = Some o -> ob_BucketName o <> b_BucketName b;
  bg_ids : bucket_ids (res s') = delete (b_BucketName b) (bucket_ids (res s));
  bg_buckets : buckets (res s') = delete id (buckets (res s));
  bg_objects : objects (res s') = objects (res s);
  bg_object_ids : object_ids (res s') = object_ids (res s);
  bg_internals : internals s' = delete id (internals s);
  bg_status : limit_status s' = delete (b_BucketName b) (limit_status s);
  bg_limits : rate_limits s' = rate_limits s;
  bg_statuses : disc_statuses s' = disc_statuses s;
  bg_versions : st_versioned s' = st_versioned s;
  bg_bucketSeq : bucketSeq s' = bucketSeq s;
  bg_objectSeq : objectSeq s' = objectSeq s;
}.

Lemma gone_limited s s' id b n :
  bucket_gone s s' id b -> n <> b_BucketName b -> limited s' n = limited s n.
Proof.
  intros Hg Hn. unfold limited. rewrite (bg_status _ _ _ _ Hg), lookup_delete_ne by congruence. done.
Qed.

Lemma gone_buckets_ok s s' id b : buckets_ok s -> bucket_gone s s' id b -> buckets_ok s'.
Proof.
  intros HB Hg. pose proof Hg as [Hb _ Ei Eb _ _ Eint Est Erl _ _ Es _].
  destruct (bk_id _ HB _ _ Hb) as (_ & Hnm & _). split.
  - intros k bk. rewrite Eb, Ei, Eint, Es, lookup_delete_Some. intros [Hne Hk].
    destruct (bk_id _ HB _ _ Hk) as (? & ? & ? & ?).
    rewrite !lookup_delete_ne by (done || congruence). done.
  - intros n k. rewrite Eb, Ei, lookup_delete_Some. intros [Hne Hk].
    apply (bk_name _ HB) in Hk as (bk & Hk & Hn). exists bk.
    rewrite lookup_delete_ne; [done|]. congruence.
  - intros n. rewrite Est, Ei. intros [x [Hne Hx]%lookup_delete_Some].
    rewrite lookup_delete_ne by done. apply (bk_status _ HB). by eexists.
  - intros k bk owner. rewrite Eb, Erl, lookup_delete_Some. intros [Hne Hk].
    rewrite (gone_limited _ _ _ _ _ Hg) by (eapply names_differ; eauto).
    by eapply (bk_limit _ HB).
  - rewrite Es. apply HB.
Qed.

Lemma due_gone p s s' id b f t :
  buckets_ok s -> bucket_gone s s' id b ->
  due p s' f t = due p s f t - by_payer (b_PaymentAddress b) (owed p s id b) f t.
Proof.
  intros HB Hg. unfold due. rewrite (bg_buckets _ _ _ _ Hg).
  rewrite (map_sum_ext _ (fun id b => by_payer (b_PaymentAddress b) (owed p s id b) f t)).
  - rewrite map_sum_delete_contrib. unfold contrib. by rewrite (bg_old _ _ _ _ Hg).
  - intros k bk [Hne Hk]%lookup_delete_Some. unfold owed.
    rewrite (gone_limited _ _ _ _ _ Hg) by (eapply names_differ; eauto; apply Hg).
    by rewrite (bg_internals _ _ _ _ Hg), lookup_delete_ne.
Qed.

Lemma Ledger_gone p s s' ow ow' id b ib :
  Ledger p s ow -> bucket_gone s s' id b -> internals s !! id = Some ib ->
  (forall f t, ow' f t = ow f t -
     by_payer (b_PaymentAddress b) (unless (limited s (b_BucketName b)) (bill_rate p b ib)) f t) ->
  Ledger p s' ow'.
Proof.
  intros [HG HB HO Hbytes Hroom Hflow] Hg Hib How.
  pose proof Hg as [Hb Hno Ei Eb Eo Eoi Eint Est Erl Ed Ev Es Eos]. split; [done|..].
  - by eapply gone_buckets_ok.
  - apply (objects_ok_buckets s); try done. intros k o Hk.
    rewrite Ei, lookup_delete_ne by (intros Heq; by apply (Hno _ _ Hk)).
    apply (oj_id _ HO _ _ Hk).
  - intros k bk ibk. rewrite Eb, Eint, !lookup_delete_Some. intros [Hne Hk] [_ Hik].
    apply (ib_ok_bytes _ s); try done. by eapply Hbytes.
  - intros n. destruct (bytes_same n s s' HO Ev Eo Ed) as [_ ->]. apply Hroom.
  - intros f t. rewrite How, Hflow, (due_gone p s s' id b) by done. unfold owed.
    rewrite Hib. unfold by_payer. lia.
Qed.

End Ledger.
