(* ===== verification/StorageRuns.v ===== *)
(** * x/storage: runs and the ledger

    What a successful run of each operation leaves: the store it reaches, the
    flows it moved, and with them the ledger ([Books]), preserved. *)

From S2P Require Import Prelude Sdk Bytes StorageTypes Grn Permission PermissionKeeper.
From S2P Require Import StoragePermission StorageGC FeeMarket.
From S2P Require Import SpTypes SpKeeper VirtualGroupTypes VirtualGroupKeeper VirtualGroupFacts.
From S2P Require Import VirtualGroupPayment PaymentTypes PaymentStore PaymentStream PaymentFlows.
From S2P Require Import PaymentFlowsFacts PaymentBooks PaymentPaid.
From S2P Require Import StorageStore StorageCharge StorageGroups StorageObjects StorageBuckets.
From S2P Require Import StorageCheck StorageBills StorageLedger.

#[local] Arguments CurVal : simpl never.
#[local] Arguments NextVal : simpl never.

Section Runs.
Context {B N : Type} {HBank : BankKeeper B} {HAddr : Addresses} {HAddrLaws : AddressLaws}
  {HCrypto : StorageCrypto} {HNft : NftContracts N} {HUint : UintText} {HRegexps : Regexps}.
Abbreviation CM := (M (Chain B N) storage_error).
Implicit Types (c : Chain B N) (ctx : StorageCtx) (b : BucketInfo) (o : ObjectInfo)
  (ib : InternalBucketInfo) (s : StorageStore).

(** ** Code that only reads *)

Section Frames.
Context {X : Type} (f : Chain B N -> X).
#[local] Hint Resolve keeps_owner_of keeps_must_ib keeps_secondary_num keeps_check_bill : frames.
Lemma keeps_find_bucket n : keeps f (find_bucket n).
Proof. unfold find_bucket. frame. Qed.
Lemma keeps_find_object n m : keeps f (find_object n m).
Proof. unfold find_object. frame. Qed.
Lemma keeps_primary b : keeps f (MustGetPrimarySPForBucket b).
Proof. unfold MustGetPrimarySPForBucket. frame. Qed.
Lemma keeps_VerifySP sp a : keeps f (VerifySP sp a).
Proof. unfold VerifySP. frame. Qed.
#[local] Hint Resolve keeps_VerifySP : frames.
Lemma keeps_VerifySig sp d sg a : keeps f (VerifySPAndSignature sp d sg a).
Proof. unfold VerifySPAndSignature. frame. Qed.
Lemma keeps_bucket_status b : keeps f (CheckBucketStatus b).
Proof. unfold CheckBucketStatus. frame. Qed.
Lemma keeps_check_agent b sp a : keeps f (check_agent b sp a).
Proof. unfold check_agent. frame. Qed.
Lemma keeps_or_checksums x y : keeps f (or_checksums x y).
Proof. unfold or_checksums. frame. Qed.
Lemma keeps_get_gvg i e : keeps f (get_gvg i e).
Proof. unfold get_gvg. frame. Qed.
#[local] Hint Resolve keeps_get_gvg : frames.
Lemma keeps_secondary_keys ids : keeps f (secondary_keys ids).
Proof. induction ids; simpl; frame. Qed.
#[local] Hint Resolve keeps_secondary_keys : frames.
Lemma keeps_bls g h x : keeps f (VerifyGVGSecondarySPsBlsSignature g h x).
Proof. unfold VerifyGVGSecondarySPsBlsSignature. frame. Qed.
#[local] Hint Resolve keeps_bls : frames.
Lemma keeps_verify_gvgs i sp l : keeps f (verifyGVGSignatures i sp l).
Proof. induction l; simpl; frame. Qed.
Lemma keeps_gc_provider a : keeps f (gc_provider a).
Proof. unfold gc_provider. frame. Qed.
Lemma keeps_check_payer ctx b : keeps f (check_payer ctx b).
Proof. unfold check_payer. frame. Qed.
Lemma keeps_must_shadow n m : keeps f (MustGetShadowObjectInfo n m).
Proof. unfold MustGetShadowObjectInfo. frame. Qed.
Lemma keeps_payment_account p a : keeps f (VerifyPaymentAccount p a).
Proof. unfold VerifyPaymentAccount. frame. Qed.
#[local] Hint Resolve keeps_payment_account keeps_VerifySig : frames.
Lemma keeps_check_approval ctx sp a x op : keeps f (check_approval ctx sp a x op).
Proof. unfold check_approval. frame. Qed.
Lemma keeps_find_migration b : keeps f (find_migration b).
Proof. unfold find_migration. frame. Qed.
Lemma keeps_new_payment b p : keeps f (new_payment_account b p).
Proof. unfold new_payment_account. frame. Qed.
End Frames.

(** The permission checks, the garbage collection lists and the contracts are
    not in the core. *)
Lemma keeps_core_perm {A} (k : M PermState perm_error A) : keeps core (on_perm k : CM A).
Proof. by apply keeps_zoom. Qed.
Lemma keeps_core_gc {A} (k : M GCState perm_error A) : keeps core (on_gc k : CM A).
Proof. by apply keeps_zoom. Qed.
Lemma keeps_core_evm x : keeps core (CallEVM x : CM unit).
Proof. unfold CallEVM. frame. Qed.
#[local] Hint Resolve keeps_core_perm keeps_core_gc : frames.
Lemma keeps_core_check_bucket ctx b a act opts : keeps core (check_bucket ctx b a act opts : CM unit).
Proof. unfold check_bucket, bucket_effect. frame. Qed.
Lemma keeps_core_check_object ctx b o a act : keeps core (check_object ctx b o a act : CM unit).
Proof. unfold check_object, object_effect. frame. Qed.

(** ** The ledger of a chain *)

Definition Books c : Prop := Ledger (prices c) (st c) (owes c).

(** The core kept: the same store, prices and debts *)
Record same c c' : Prop := mkSame {
  sm_st : st c' = st c;
  sm_prices : prices c' = prices c;
  sm_owes : forall f t, owes c' f t = owes c f t;
}.

Lemma same_core c c' : core c' = core c -> same c c'.
Proof. intros [Hs Hp _ Ho]%moves_core. split; [done|done|]. intros f t. rewrite Ho. lia. Qed.
Lemma same_refl c : same c c.
Proof. by split. Qed.
Lemma same_trans c1 c2 c3 : same c1 c2 -> same c2 c3 -> same c1 c3.
Proof. intros [S1 P1 O1] [S2 P2 O2]. split; [congruence..|]. intros f t. by rewrite O2, O1. Qed.

Lemma Books_same c c' : same c c' -> Books c -> Books c'.
Proof.
  intros [Hs Hp Ho] H. unfold Books. rewrite Hs, Hp. eapply Ledger_view; [done|exact Ho|exact H].
Qed.

Lemma keeps_same {A} (k : CM A) c r c' : keeps core k -> k c = (r, c') -> same c c'.
Proof. intros Hk Hrun. apply same_core. by apply (keeps_run _ _ _ _ _ Hk Hrun). Qed.

(** ** Groups *)

(** A found group stored again with other sizes *)
Lemma set_gvg_same id g g' c u c' :
  (forall k i, group_keys (prices c) !! k = Some i -> i = k) ->
  GetGVG id (vg (wd c)) = Some g -> group_account g' = group_account g -> gvg_Id g' = gvg_Id g ->
  set_gvg g' c = (Ret u, c') -> same c c' /\ sps (wd c') = sps (wd c) /\ chain_pay c' = chain_pay c /\
  gvgs (vg (wd c')) = <[id := g']> (gvgs (vg (wd c))).
Proof.
  intros HG Hg Ha Hid Hrun. unfold set_gvg, on_world in Hrun.
  apply zoom_Ret in Hrun as (w & Hw & ->). unfold on_vg in Hw. apply modify_Ret in Hw as ->.
  unfold GetGVG in Hg. assert (gvg_Id g = id) as Hk.
  { apply HG. unfold prices. simpl. by rewrite lookup_fmap, Hg. }
  split; [|split_and!; [done|done|]; simpl; unfold SetGVG; by rewrite Hid, Hk].
  split; [done| |done]. unfold prices, with_wd, with_vg, SetGVG. simpl.
  rewrite !fmap_insert, Ha, Hid, Hk. f_equal; apply insert_id; rewrite lookup_fmap, Hg; simpl; congruence.
Qed.

Lemma available_Ret gvgID size c g c' :
  on_world (GetGlobalVirtualGroupIfAvailable gvgID size) c = (Ret g, c') ->
  c' = c /\ GetGVG gvgID (vg (wd c)) = Some g.
Proof.
  unfold on_world. intros (w & Hw & ->)%zoom_Ret. unfold GetGlobalVirtualGroupIfAvailable in Hw.
  msteps Hw. unfold GetTotalStakingStoreSize, GVGStakingPerBytes in Hw. minv.
  split; [|done]. repeat case_match; minv; by destruct c.
Qed.

Definition sorted_groups ib : Prop := StronglySorted Z.lt (lvg_Id <$> LocalVirtualGroups ib).

Lemma GetLVG_stored test d ib l :
  is_Some (GetLVG l ib) -> is_Some (GetLVG l (on_lvgs (modify_first test (add_lvg_stored d)) ib)).
Proof.
  unfold GetLVG. simpl. rewrite <- !(fmap_is_Some lvg_TotalChargeSize).
  by rewrite find_modify_charge.
Qed.

Lemma bind_lvg_Ret gvgID gid payload ib c lid ib1 c' :
  bind_lvg gvgID gid payload ib c = (Ret (lid, ib1), c') -> sorted_groups ib ->
  c' = c /\ quiet ib ib1 /\ is_Some (GetLVG lid ib1).
Proof.
  unfold bind_lvg. intros Hrun Hs. destruct (GetLVGByGVGID gvgID ib) as [l|] eqn:E.
  - apply ret_Ret in Hrun as [[= <- <-] <-]. split; [done|]. split; [by apply quiet_stored|].
    apply GetLVG_stored. apply List.find_some in E as [Hin _]. exists l.
    apply sorted_find_lvg; [done|]. by apply list_elem_of_In.
  - msteps Hrun. simplify_eq. split; [done|]. by eapply AppendLVG_quiet in Hx0.
Qed.

Lemma UnlockAndCharge_Ret ctx b ib o c x c' :
  (if ob_PayloadSize o =? 0 then ChargeObjectStoreFee ctx b ib o
   else UnlockAndChargeObjectStoreFee ctx b ib o) c = (Ret x, c') ->
  exists c1, same c c1 /\ ChargeObjectStoreFee ctx b ib o c1 = (Ret x, c').
Proof.
  destruct (_ =? 0); [by exists c|]. unfold UnlockAndChargeObjectStoreFee.
  intros (u & c1 & Hu & Hrun)%bind_Ret. exists c1. split; [|done].
  eapply keeps_same; [|exact Hu]. apply keeps_core_unlock.
Qed.

(** Charging leaves the groups alone. *)
Section GroupFrames.
Abbreviation groups_of := (fun c => vg (wd c)).
#[local] Hint Resolve keeps_price_at keeps_versioned_at keeps_charge_size keeps_tax_at
  keeps_lock_fee keeps_price_changed keeps_bill keeps_must_ib keeps_owner_of keeps_check_bill : frames.
Lemma keeps_vg_flows ctx l : keeps groups_of (apply_flows ctx l : CM unit).
Proof. by apply keeps_zoom. Qed.
Lemma keeps_vg_stream ctx ch : keeps groups_of (change_stream ctx ch : CM StreamRecord).
Proof. by apply keeps_zoom. Qed.
#[local] Hint Resolve keeps_vg_flows keeps_vg_stream : frames.
Lemma keeps_vg_via_object ctx b ib o size del :
  keeps groups_of (ChargeViaObjectChange ctx b ib o size del : CM _).
Proof. unfold ChargeViaObjectChange. frame. Qed.
Lemma keeps_vg_via_bucket ctx b ib ch : keeps groups_of (ChargeViaBucketChange ctx b ib ch : CM _).
Proof. unfold ChargeViaBucketChange, ApplyBillChanges, deleteBucketFlowRateLimitStatus, on_st. frame. Qed.
#[local] Hint Resolve keeps_vg_via_object keeps_vg_via_bucket : frames.
Lemma keeps_vg_charge ctx b ib o : keeps groups_of (ChargeObjectStoreFee ctx b ib o : CM _).
Proof. unfold ChargeObjectStoreFee. frame. Qed.
#[local] Hint Resolve keeps_vg_charge : frames.
Lemma keeps_vg_unlock ctx b ib o : keeps groups_of (UnlockAndChargeObjectStoreFee ctx b ib o : CM _).
Proof. unfold UnlockAndChargeObjectStoreFee, UnlockObjectStoreFee, unlock_fee. frame. Qed.
End GroupFrames.

(** Sealed into the group [lid] of the bucket, at the old or a new price *)
Record sealed ctx c c' b o o' ib ib1 ib' (lid : Z) : Prop := mkSealed {
  sd_old : internals (st c) !! b_Id b = Some ib;
  sd_object : o' = set_ob_lvg lid o;
  sd_bound : quiet ib ib1;
  sd_group : is_Some (GetLVG lid ib1);
  sd_charged : recharged ctx lid (charge_of (st c) o) ib1 ib';
  sd_st : st c' = SetInternalBucketInfo (b_Id b) ib' (st c);
  sd_prices : prices c' = prices c;
  sd_owes : zero_ok ib1 -> zero_ok ib' -> forall f t, owes c' f t = owes c f t +
    by_payer (b_PaymentAddress b) (unless (limited (st c) (b_BucketName b))
      (fun t => bill_rate (prices c) b ib' t - bill_rate (prices c) b ib t)) f t;
}.

Lemma SealObjectOnVirtualGroup_Ret ctx b gvgID o c o' c' :
  SealObjectOnVirtualGroup ctx b gvgID o c = (Ret o', c') ->
  (forall k i, group_keys (prices c) !! k = Some i -> i = k) ->
  (forall ib, internals (st c) !! b_Id b = Some ib -> sorted_groups ib) ->
  exists ib ib1 ib' lid, sealed ctx c c' b o o' ib ib1 ib' lid.
Proof.
  intros Hrun HG Hs. unfold SealObjectOnVirtualGroup in Hrun.
  apply bind_Ret in Hrun as (g & ? & [-> Hg]%available_Ret & Hrun).
  apply bind_Ret in Hrun as (ib & c0 & Hib & Hrun). unfold MustGetInternalBucketInfo in Hib.
  msteps Hib. apply bind_Ret in Hrun as ([lid ib1] & c0 & Hb & Hrun).
  apply bind_lvg_Ret in Hb as (-> & Hq & Hl); [|by apply Hs].
  apply bind_Ret in Hrun as ([b2 ib'] & c2 & Hch & Hrun). 
  assert (vg (wd c2) = vg (wd c)) as Hvg.
  { eapply (keeps_run (fun c => vg (wd c))), Hch. destruct (_ =? 0);
      [apply keeps_vg_charge|apply keeps_vg_unlock]. }
  apply UnlockAndCharge_Ret in Hch as (c1 & Hsame & Hch).
  apply ChargeObjectStoreFee_Ret in Hch as (_ & Hre & Hst & Hpr & How). simpl in *.
  destruct Hsame as [S1 P1 O1].
  apply bind_Ret in Hrun as (? & c3 & Hset & Hrun).
  eapply set_gvg_same in Hset as (S2 & _); [|by rewrite Hpr, P1|by rewrite Hvg|done|done].
  destruct S2 as [S2 P2 O2]. apply bind_Ret in Hrun as (? & c4 & ->%modify_Ret & [<- <-]%ret_Ret).
  exists ib, ib1, ib', lid. split; try done.
  - rewrite <- S1. exact Hre.
  - simpl. by rewrite S2, Hst, S1.
  - change (prices c3 = prices c). congruence.
  - intros Hz Hz' f t. change (owes c3 f t = owes c f t + by_payer (b_PaymentAddress b)
      (unless (limited (st c) (b_BucketName b))
         (fun t => bill_rate (prices c) b ib' t - bill_rate (prices c) b ib t)) f t).
    rewrite O2, How, O1 by done. unfold bill, IsBucketRateLimited. rewrite P1, S1.
    destruct Hq as [_ Hq]. unfold by_payer, unless. case_match; [|done]. by rewrite Hq.
Qed.

(** Out of its group; an empty group goes. *)
Lemma DeleteObjectFromVirtualGroup_Ret b o c u c' :
  DeleteObjectFromVirtualGroup b o c = (Ret u, c') ->
  (forall k i, group_keys (prices c) !! k = Some i -> i = k) ->
  (forall ib, internals (st c) !! b_Id b = Some ib -> sorted_groups ib) ->
  exists ib ib', internals (st c) !! b_Id b = Some ib /\ quiet ib ib' /\
    st c' = SetInternalBucketInfo (b_Id b) ib' (st c) /\ prices c' = prices c /\
    forall f t, owes c' f t = owes c f t.
Proof.
  intros Hrun HG Hs. unfold DeleteObjectFromVirtualGroup in Hrun.
  apply bind_Ret in Hrun as (ib & c0 & Hib & Hrun). unfold MustGetInternalBucketInfo in Hib.
  msteps Hib. specialize (Hs _ Hx). msteps Hrun. rename x into lvg.
  apply bind_Ret in Hrun as (g & c0 & Hg & Hrun). unfold get_gvg in Hg. msteps Hg.
  set (ib1 := on_lvgs _ ib) in Hrun.
  apply bind_Ret in Hrun as (ib' & c0 & Hib' & Hrun).
  assert (c0 = c /\ quiet ib ib') as [-> Hq].
  { pose proof (quiet_stored (is_lvg (ob_LocalVirtualGroupId o)) (- ob_PayloadSize o) ib Hs) as H1.
    destruct (lvg_TotalChargeSize _ =? 0) eqn:E; minv; [|done].
    destruct (negb _); minv. split; [done|]. eapply quiet_trans; [exact H1|].
    eapply (DeleteLVG_quiet _ _ (add_lvg_stored (- ob_PayloadSize o) lvg)); [apply H1| |].
    - unfold GetLVG, ib1. simpl. rewrite find_modify_lvg, decide_True by done.
      by unfold GetLVG in Hx0; rewrite Hx0.
    - by apply Z.eqb_eq. }
  apply bind_Ret in Hrun as (? & c3 & Hset & ->%modify_Ret).
  eapply set_gvg_same in Hset as ([S P O] & _); [|done..].
  exists ib, ib'. split_and!; try done. simpl. by rewrite S.
Qed.

(** ** Taking an object out *)

(** The bucket's bytes and bill after a change of its groups; [ib] before,
    [ib'] after *)
Record rebilled c c' b ib ib' : Prop := mkRebilled {
  rb_old : internals (st c) !! b_Id b = Some ib;
  rb_st : st c' = SetInternalBucketInfo (b_Id b) ib' (st c);
  rb_prices : prices c' = prices c;
  rb_owes : forall f t, owes c' f t = owes c f t +
    by_payer (b_PaymentAddress b) (unless (limited (st c) (b_BucketName b))
      (fun t => bill_rate (prices c) b ib' t - bill_rate (prices c) b ib t)) f t;
}.

Lemma uncharge_object_Ret ctx b o c u c' :
  uncharge_object ctx b o c = (Ret u, c') ->
  exists ib, is_Some (GetLVG (ob_LocalVirtualGroupId o) ib) /\
    rebilled c c' b ib (charge_lvg (ob_LocalVirtualGroupId o) (- charge_of (st c) o) ib).
Proof.
  unfold uncharge_object. intros Hrun.
  apply bind_Ret in Hrun as (ib & c0 & Hib & Hrun). unfold MustGetInternalBucketInfo in Hib.
  msteps Hib. apply bind_Ret in Hrun as (ib' & c1 & Hun & ->%modify_Ret).
  apply UnChargeObjectStoreFee_Ret in Hun as (-> & Hl & _ & [S P _ O]).
  exists ib. split; [done|]. split; [done| |done|exact O]. simpl. by rewrite S.
Qed.

Lemma SetInternal_twice id ib1 ib2 s :
  SetInternalBucketInfo id ib2 (SetInternalBucketInfo id ib1 s) = SetInternalBucketInfo id ib2 s.
Proof. unfold SetInternalBucketInfo, on_internals. simpl. by rewrite insert_insert_eq. Qed.

Lemma ib_charge_sorted id d ib : sorted_groups ib -> sorted_groups (charge_lvg id d ib).
Proof. unfold sorted_groups. simpl. by rewrite modify_first_ids. Qed.

Lemma withdraw_object_Ret ctx b o c u c' :
  withdraw_object ctx b o c = (Ret u, c') ->
  (forall k i, group_keys (prices c) !! k = Some i -> i = k) ->
  (forall ib, internals (st c) !! b_Id b = Some ib -> sorted_groups ib) ->
  exists ib ib', is_Some (GetLVG (ob_LocalVirtualGroupId o) ib) /\
    quiet (charge_lvg (ob_LocalVirtualGroupId o) (- charge_of (st c) o) ib) ib' /\
    rebilled c c' b ib ib'.
Proof.
  intros Hrun HG Hs.
  assert (exists c1, uncharge_object ctx b o c = (Ret tt, c1) /\
    DeleteObjectFromVirtualGroup b o c1 = (Ret u, c')) as (c1 & Hun & Hdel).
  { unfold withdraw_object in Hrun. apply bind_Ret in Hrun as (ib & c0 & Hib & Hrun).
    apply bind_Ret in Hrun as (ib' & c1 & Hun & Hrun).
    apply bind_Ret in Hrun as ([] & c2 & Hset & Hrun). exists c2. split; [|done].
    unfold uncharge_object. rewrite (bind_run _ _ _ _ _ Hib), (bind_run _ _ _ _ _ Hun). done. }
  apply uncharge_object_Ret in Hun as (ib & Hl & [Hib S P O]).
  set (ib1 := charge_lvg _ _ ib) in *.
  apply DeleteObjectFromVirtualGroup_Ret in Hdel as (ib2 & ib' & Hib2 & Hq & S' & P' & O').
  - rewrite S in Hib2. simpl in Hib2. rewrite lookup_insert_eq in Hib2. injection Hib2 as <-.
    exists ib, ib'. split; [done|]. split; [done|]. split; [done| |congruence|].
    + by rewrite S', S, SetInternal_twice.
    + intros f t. rewrite O', O. destruct Hq as [_ Hq]. unfold by_payer, unless.
      case_match; [|done]. by rewrite Hq.
  - by rewrite P.
  - intros ib2. rewrite S. simpl. rewrite lookup_insert_eq. intros [= <-].
    by apply ib_charge_sorted, Hs.
Qed.

(** ** Steps the ledger does not see *)

Definition seen c := (ledger_view (st c), prices c, out_flows (chain_pay c)).

Lemma keeps_seen_core {A} (k : CM A) : keeps core k -> keeps seen k.
Proof.
  intros Hk c. exact (f_equal (fun x => (ledger_view x.1.1.1, x.1.1.2, x.1.2)) (Hk c)).
Qed.

Lemma Books_seen c c' : seen c' = seen c -> Books c -> Books c'.
Proof.
  intros Hs HB. unfold seen in Hs.
  pose proof (f_equal (fun x => x.1.1) Hs) as Hv. pose proof (f_equal (fun x => x.1.2) Hs) as Hp.
  pose proof (f_equal snd Hs) as Ho. cbn [fst snd] in Hv, Hp, Ho. unfold Books. rewrite Hp.
  eapply Ledger_view; [exact Hv| |exact HB]. intros f t. unfold owes, paid. by rewrite Ho.
Qed.

Lemma seen_res c c' : seen c' = seen c -> res (st c') = res (st c).
Proof. intros H. exact (f_equal (fun x => x.1.1.1.1.1.1.1.1.1) H). Qed.

Section Seen.
#[local] Hint Resolve keeps_find_bucket keeps_find_object keeps_primary keeps_VerifySP keeps_VerifySig
  keeps_bucket_status keeps_check_agent keeps_or_checksums keeps_get_gvg keeps_bls keeps_verify_gvgs
  keeps_gc_provider keeps_check_payer keeps_must_shadow keeps_payment_account keeps_check_approval
  keeps_find_migration keeps_new_payment keeps_owner_of keeps_must_ib : frames.

Lemma keeps_seen_perm {A} (k : M PermState perm_error A) : keeps seen (on_perm k : CM A).
Proof. apply keeps_seen_core, keeps_core_perm. Qed.
Lemma keeps_seen_gc {A} (k : M GCState perm_error A) : keeps seen (on_gc k : CM A).
Proof. apply keeps_seen_core, keeps_core_gc. Qed.
Lemma keeps_seen_evm x : keeps seen (CallEVM x : CM unit).
Proof. apply keeps_seen_core, keeps_core_evm. Qed.
Lemma keeps_seen_check_bucket ctx b a act opts : keeps seen (check_bucket ctx b a act opts : CM unit).
Proof. apply keeps_seen_core, keeps_core_check_bucket. Qed.
Lemma keeps_seen_check_object ctx b o a act : keeps seen (check_object ctx b o a act : CM unit).
Proof. apply keeps_seen_core, keeps_core_check_object. Qed.
Lemma keeps_seen_object_effect ctx b o a act : keeps seen (object_effect ctx b o a act : CM _).
Proof. unfold object_effect. apply keeps_bind; [frame|]. intros. apply keeps_seen_perm. Qed.
Lemma keeps_seen_lock ctx b time payload : keeps seen (lockObjectStoreFee ctx b time payload : CM unit).
Proof. apply keeps_seen_core, keeps_core_lock. Qed.
Lemma keeps_seen_unlock ctx b time payload : keeps seen (unlock_fee ctx b time payload : CM unit).
Proof. apply keeps_seen_core, keeps_core_unlock. Qed.
Lemma keeps_seen_LockObject ctx b o : keeps seen (LockObjectStoreFee ctx b o : CM unit).
Proof. apply keeps_seen_lock. Qed.
Lemma keeps_seen_LockShadow ctx b sh : keeps seen (LockShadowObjectStoreFee ctx b sh : CM unit).
Proof. apply keeps_seen_lock. Qed.
Lemma keeps_seen_UnlockObject ctx b o : keeps seen (UnlockObjectStoreFee ctx b o : CM unit).
Proof. apply keeps_seen_unlock. Qed.
Lemma keeps_seen_lock_one b : keeps seen (lock_one b : CM unit).
Proof. unfold lock_one, on_st. frame. Qed.
Lemma keeps_seen_unlock_one b : keeps seen (unlock_one b : CM unit).
Proof. unfold unlock_one, on_st. frame. Qed.
Lemma keeps_seen_shadows f : keeps seen (on_st (on_shadows f) : CM unit).
Proof. unfold on_st. frame. Qed.
#[local] Hint Resolve keeps_seen_unlock keeps_seen_unlock_one keeps_seen_shadows : frames.
Lemma keeps_seen_drop ctx b n m : keeps seen (drop_update ctx b n m : CM _).
Proof.
  unfold drop_update, UnlockShadowObjectFeeAndDeleteShadowObjectInfo, UnlockShadowObjectStoreFee. frame.
Qed.
#[local] Hint Resolve keeps_seen_drop : frames.
Lemma keeps_seen_drop_if ctx b o : keeps seen (drop_if_updating ctx b o : CM unit).
Proof. unfold drop_if_updating. frame. Qed.
Lemma keeps_seen_check_quota ctx b q : keeps seen (check_quota ctx b q : CM unit).
Proof. unfold check_quota, on_st. frame. Qed.
End Seen.

(** ** The stored bucket and object *)

Definition stored_bucket c b : Prop := buckets (res (st c)) !! b_Id b = Some b.
Definition stored_object c o : Prop := objects (res (st c)) !! ob_Id o = Some o.

Lemma find_bucket_Ret n c b c' :
  find_bucket n c = (Ret b, c') -> Books c ->
  c' = c /\ stored_bucket c b /\ b_BucketName b = n.
Proof.
  unfold find_bucket. intros Hrun HB. msteps Hrun. split; [done|].
  unfold St_GetBucketInfo, GetBucketInfo in Hx.
  destruct (bucket_ids _ !! n) as [id|] eqn:E; [|done].
  apply (bk_name _ (lg_buckets _ _ _ HB)) in E as (b1 & Hb & Hn). simpl in Hx.
  rewrite Hx in Hb. injection Hb as <-. split; [|done]. unfold stored_bucket.
  destruct (bk_id _ (lg_buckets _ _ _ HB) _ _ Hx) as [-> _]. done.
Qed.

Lemma find_object_Ret n m c o c' :
  find_object n m c = (Ret o, c') -> Books c ->
  c' = c /\ stored_object c o /\ ob_BucketName o = n /\ ob_ObjectName o = m.
Proof.
  unfold find_object. intros Hrun HB. msteps Hrun. split; [done|].
  unfold St_GetObjectInfo, GetObjectInfo in Hx.
  destruct (object_ids _ !! (n, m)) as [id|] eqn:E; [|done].
  apply (oj_name _ (lg_objects _ _ _ HB)) in E as (o1 & Ho & Hn). simpl in Hx.
  rewrite Hx in Ho. injection Ho as <-. injection Hn as <- <-. split; [|done]. unfold stored_object.
  destruct (oj_id _ (lg_objects _ _ _ HB) _ _ Hx) as [-> _]. done.
Qed.

Lemma Books_ib c b :
  Books c -> stored_bucket c b ->
  exists ib, internals (st c) !! b_Id b = Some ib /\ ib_ok (b_BucketName b) (st c) ib.
Proof.
  intros HB Hb. destruct (bk_id _ (lg_buckets _ _ _ HB) _ _ Hb) as (_ & _ & _ & [ib Hib]).
  exists ib. split; [done|]. by eapply (lg_bytes _ _ _ HB).
Qed.

Lemma Books_sorted c b ib :
  Books c -> stored_bucket c b -> internals (st c) !! b_Id b = Some ib -> sorted_groups ib.
Proof. intros HB Hb Hib. apply (lg_bytes _ _ _ HB _ _ _ Hb Hib). Qed.

Lemma SetBucketInfo_same b s : buckets (res s) !! b_Id b = Some b -> SetBucketInfo b s = s.
Proof.
  intros H. unfold SetBucketInfo, on_res, on_buckets. rewrite insert_id by done.
  by destruct s as [[]].
Qed.

Lemma set_bucket_Ret b c u c' :
  set_bucket b c = (Ret u, c') -> stored_bucket c b -> c' = c.
Proof.
  unfold set_bucket, on_st. intros ->%modify_Ret Hb. unfold with_st.
  rewrite SetBucketInfo_same by done. by destruct c.
Qed.

Lemma stored_bucket_seen c c' b : seen c' = seen c -> stored_bucket c b -> stored_bucket c' b.
Proof. intros E. unfold stored_bucket. by rewrite (seen_res _ _ E). Qed.
Lemma stored_object_seen c c' o : seen c' = seen c -> stored_object c o -> stored_object c' o.
Proof. intros E. unfold stored_object. by rewrite (seen_res _ _ E). Qed.

End Runs.

#[export] Hint Resolve keeps_find_bucket keeps_find_object keeps_primary keeps_VerifySP keeps_VerifySig
  keeps_bucket_status keeps_check_agent keeps_or_checksums keeps_get_gvg keeps_bls keeps_verify_gvgs
  keeps_gc_provider keeps_check_payer keeps_must_shadow keeps_payment_account keeps_check_approval
  keeps_find_migration keeps_new_payment keeps_owner_of keeps_must_ib keeps_seen_perm keeps_seen_gc
  keeps_seen_evm keeps_seen_check_bucket keeps_seen_check_object keeps_seen_object_effect
  keeps_seen_LockObject keeps_seen_LockShadow keeps_seen_UnlockObject keeps_seen_lock_one keeps_seen_unlock_one keeps_seen_shadows
  keeps_seen_drop keeps_seen_drop_if keeps_seen_check_quota keeps_secondary_num : frames.

(** [pass H]: the first statement of the run [H] is one the ledger does not
    see; the ledger and the stored bucket and object are those of the next
    state. *)
Ltac rebase E :=
  match type of E with seen ?c1 = seen ?c =>
    repeat match goal with
    | H : Books c |- _ => apply (Books_seen _ _ E) in H
    | H : stored_bucket c _ |- _ => apply (stored_bucket_seen _ _ _ E) in H
    | H : stored_object c _ |- _ => apply (stored_object_seen _ _ _ E) in H
    end
  end.
Ltac pass H :=
  match type of H with
  | bind ?k _ ?c = (Ret _, _) =>
      let x := fresh "x" in let c1 := fresh "c" in let Hk := fresh "Hk" in let E := fresh "E" in
      apply bind_Ret in H as (x & c1 & Hk & H);
      assert (seen c1 = seen c) as E by (eapply (keeps_run seen); [|exact Hk]; frame);
      rebase E
  end.
(** The stored bucket set again *)
Ltac reset_bucket H :=
  match type of H with
  | bind (set_bucket _) _ _ = _ =>
      let Hk := fresh "Hk" in
      apply bind_Ret in H as (? & ? & Hk & H); apply set_bucket_Ret in Hk as ->; [|assumption]
  end.
Ltac passes H := repeat (mstep H || reset_bucket H || pass H).

Section Objects.
Context {B N : Type} {HBank : BankKeeper B} {HAddr : Addresses} {HAddrLaws : AddressLaws}
  {HCrypto : StorageCrypto} {HNft : NftContracts N} {HUint : UintText} {HRegexps : Regexps}.
Abbreviation CM := (M (Chain B N) storage_error).
Implicit Types (c : Chain B N) (ctx : StorageCtx) (b : BucketInfo) (o : ObjectInfo)
  (ib : InternalBucketInfo) (s : StorageStore).

Lemma found {A} n (k : BucketInfo -> CM A) c x c' :
  bind (find_bucket n) k c = (Ret x, c') -> Books c ->
  exists b, stored_bucket c b /\ b_BucketName b = n /\ k b c = (Ret x, c').
Proof.
  intros (b & c1 & Hb & Hrun)%bind_Ret HB. apply find_bucket_Ret in Hb as (-> & ? & ?); [|done]. eauto.
Qed.
Lemma found_object {A} n m (k : ObjectInfo -> CM A) c x c' :
  bind (find_object n m) k c = (Ret x, c') -> Books c ->
  exists o, stored_object c o /\ ob_BucketName o = n /\ ob_ObjectName o = m /\ k o c = (Ret x, c').
Proof.
  intros (o & c1 & Ho & Hrun)%bind_Ret HB. apply find_object_Ret in Ho as (-> & ? & ? & ?); [|done].
  eauto 6.
Qed.

(** ** Deleting objects *)

Lemma Books_gone c c' b o ib ib' :
  Books c -> stored_bucket c b -> stored_object c o -> ob_BucketName o = b_BucketName b ->
  internals (st c) !! b_Id b = Some ib -> object_gone (st c) (st c') b o ib' ->
  without (st c) o ib ib' -> prices c' = prices c ->
  (forall f t, owes c' f t = owes c f t + rebill (prices c) (st c) b ib ib' f t) -> Books c'.
Proof.
  intros HB Hb Ho Hn Hib Hg Hw Hp How. unfold Books. rewrite Hp. by eapply Ledger_object_gone.
Qed.

(** Only a discontinued object has a status kept aside. *)
Lemma no_status c o :
  Books c -> stored_object c o -> ob_ObjectStatus o <> OBJECT_STATUS_DISCONTINUED ->
  disc_statuses (st c) !! ob_Id o = None.
Proof.
  intros HB Ho Hs. destruct (disc_statuses _ !! _) as [v|] eqn:E; [|done].
  apply (oj_status _ (lg_objects _ _ _ HB)) in E as (_ & o1 & Ho1 & Hs1).
  unfold stored_object in Ho. congruence.
Qed.

Lemma created_unsealed s o : status_is OBJECT_STATUS_CREATED o = true -> is_sealed s o = false.
Proof.
  unfold status_is, is_sealed, status_of. rewrite bool_decide_eq_true. intros ->.
  by apply bool_decide_eq_false.
Qed.

(** An object that is not sealed, removed *)
Lemma remove_unsealed c b o u c' :
  remove_object (b_BucketName b) (ob_ObjectName o) (ob_Id o) c = (Ret u, c') ->
  Books c -> stored_bucket c b -> stored_object c o -> ob_BucketName o = b_BucketName b ->
  status_is OBJECT_STATUS_CREATED o = true -> Books c'.
Proof.
  intros Hrun HB Hb Ho Hn Hc. pose proof (created_unsealed (st c) o Hc) as Hs.
  unfold status_is in Hc. apply bool_decide_eq_true in Hc. destruct (Books_ib _ _ HB Hb) as (ib & Hib & Hok).
  apply modify_Ret in Hrun as ->. pose proof (quiet_refl _ (io_sorted _ _ _ Hok)) as Hq.
  eapply (Books_gone c _ b o ib ib); try done.
  - split; try done; simpl; [by rewrite Hn|by rewrite insert_id|].
    apply no_status; [done..|]. by rewrite Hc.
  - unfold without. by rewrite Hs.
  - intros f t. rewrite rebill_quiet by done. symmetry. apply Z.add_0_r.
Qed.

Lemma CancelCreateObject_Books ctx operator n m src c u c' :
  CancelCreateObject ctx operator n m src c = (Ret u, c') -> Books c -> Books c'.
Proof.
  intros Hrun HB. unfold CancelCreateObject in Hrun.
  apply found in Hrun as (b & Hb & Hbn & Hrun); [|done].
  apply found_object in Hrun as (o & Ho & Hon & Hom & Hrun); [|done].
  passes Hrun. apply negb_false_iff in Hx. subst n m.
  eapply remove_unsealed; eauto.
Qed.

Lemma seen_statuses c c' : seen c' = seen c -> disc_statuses (st c') = disc_statuses (st c).
Proof. intros H. exact (f_equal (fun x => x.1.1.1.1.1.2) H). Qed.

(** An object replaced by one of the same place, size and times *)
Record alike o o' : Prop := mkAlike {
  al_id : ob_Id o' = ob_Id o;
  al_home : ob_BucketName o' = ob_BucketName o;
  al_name : ob_ObjectName o' = ob_ObjectName o;
  al_group : ob_LocalVirtualGroupId o' = ob_LocalVirtualGroupId o;
  al_size : ob_PayloadSize o' = ob_PayloadSize o;
  al_time : GetLatestUpdatedTime o' = GetLatestUpdatedTime o;
}.

Lemma alike_weights s s' o o' :
  alike o o' -> st_versioned s' = st_versioned s -> is_sealed s' o' = is_sealed s o ->
  (forall n, weight_of n s' o' = weight_of n s o) /\
  (forall n l, weight_in n l s' o' = weight_in n l s o).
Proof.
  intros [_ H1 _ H2 H3 H4] Hv Hs.
  assert (forall n, weight_of n s' o' = weight_of n s o) as Hw.
  { intros n. unfold weight_of. rewrite H1, Hs. unfold charge_of, St_GetVersionedParamsWithTS.
    by rewrite H3, H4, Hv. }
  split; [done|]. intros n l. unfold weight_in. by rewrite H2, Hw.
Qed.

Lemma Books_alike c c' b o o' :
  Books c -> stored_bucket c b -> stored_object c o -> ob_BucketName o = b_BucketName b ->
  alike o o' -> is_sealed (st c') o' = is_sealed (st c) o ->
  (forall ib, internals (st c) !! b_Id b = Some ib -> object_put (st c) (st c') b o o' ib) ->
  prices c' = prices c -> (forall f t, owes c' f t = owes c f t) -> Books c'.
Proof.
  intros HB Hb Ho Hn Hal Hs Hput Hp How. destruct (Books_ib _ _ HB Hb) as (ib & Hib & _).
  specialize (Hput _ Hib). destruct (alike_weights (st c) (st c') o o' Hal) as [Hwo Hwi]; [apply Hput|done|].
  unfold Books. rewrite Hp. by eapply (Ledger_object_same _ (st c)).
Qed.

Lemma set_object_Books c b o o' u c' :
  set_object o' c = (Ret u, c') -> Books c -> stored_bucket c b -> stored_object c o ->
  ob_BucketName o = b_BucketName b -> alike o o' -> ob_ObjectStatus o' = ob_ObjectStatus o ->
  Books c'.
Proof.
  intros Hrun HB Hb Ho Hn Hal Hst. apply modify_Ret in Hrun as ->. pose proof Hal as [Hid ? ? _ _ _].
  eapply (Books_alike c _ b o o'); try done.
  - unfold is_sealed, status_of. by rewrite Hst, Hid.
  - intros ib Hib. split; try done; simpl; [by rewrite Hid|by rewrite insert_id|].
    intros v (Hv & o1 & Ho1 & Hs1)%(oj_status _ (lg_objects _ _ _ HB)). split; [done|].
    unfold stored_object in Ho. congruence.
Qed.

Lemma RejectSealObject_Books ctx operator n m c u c' :
  RejectSealObject ctx operator n m c = (Ret u, c') -> Books c -> Books c'.
Proof.
  intros Hrun HB. unfold RejectSealObject in Hrun.
  apply found in Hrun as (b & Hb & Hbn & Hrun); [|done].
  apply found_object in Hrun as (o & Ho & Hon & Hom & Hrun); [|done].
  passes Hrun. apply bind_Ret in Hrun as (? & c1 & Hrem & Hrun).
  enough (Books c1) as HB1.
  { eapply Books_seen, HB1. eapply (keeps_run seen), Hrun. frame. }
  clear Hrun. destruct (ob_IsUpdating o) eqn:Eu; passes Hrem.
  - eapply (set_object_Books _ b o); eauto; [congruence|by split].
  - subst n m. eapply remove_unsealed; eauto.
    apply andb_false_iff in Hx as [Hx|Hx]; [|done]. by apply negb_false_iff.
Qed.

Lemma CancelUpdateObjectContent_Books ctx operator n m c u c' :
  CancelUpdateObjectContent ctx operator n m c = (Ret u, c') -> Books c -> Books c'.
Proof.
  intros Hrun HB. unfold CancelUpdateObjectContent in Hrun.
  apply found in Hrun as (b & Hb & Hbn & Hrun); [|done].
  apply found_object in Hrun as (o & Ho & Hon & Hom & Hrun); [|done].
  passes Hrun. apply bind_Ret in Hrun as (? & c1 & Hset & Hrun).
  eapply Books_seen; [eapply (keeps_run seen), Hrun; frame|].
  eapply (set_object_Books _ b o); eauto; [congruence|by split].
Qed.

Lemma UpdateObjectInfo_Books ctx operator n m v c u c' :
  UpdateObjectInfo ctx operator n m v c = (Ret u, c') -> Books c -> Books c'.
Proof.
  intros Hrun HB. unfold UpdateObjectInfo in Hrun.
  apply found in Hrun as (b & Hb & Hbn & Hrun); [|done].
  apply found_object in Hrun as (o & Ho & Hon & Hom & Hrun); [|done].
  passes Hrun. eapply (set_object_Books _ b o); eauto; [congruence|by split].
Qed.

(** Out of the store and of its group; the object's bytes are not those of the
    bucket any more. *)
Lemma doDeleteObject_Ret b o status c u c' ib :
  doDeleteObject b o status c = (Ret u, c') -> stored_bucket c b ->
  (forall k i, group_keys (prices c) !! k = Some i -> i = k) ->
  internals (st c) !! b_Id b = Some ib -> sorted_groups ib ->
  exists ib', quiet ib ib' /\
    st c' = DeleteObjectInfo (b_BucketName b) (ob_ObjectName o) (ob_Id o)
              (SetInternalBucketInfo (b_Id b) ib' (st c)) /\
    prices c' = prices c /\ forall f t, owes c' f t = owes c f t.
Proof.
  intros Hrun Hb HG Hib Hs. unfold doDeleteObject in Hrun. reset_bucket Hrun.
  apply bind_Ret in Hrun as (? & ? & ->%modify_Ret & Hrun).
  apply bind_Ret in Hrun as (? & c2 & Hdel & Hrun).
  assert (same c2 c') as [S P O].
  { apply bind_Ret in Hrun as (? & c3 & Hgc & Hrun).
    eapply same_trans; [eapply keeps_same, Hgc; apply keeps_core_gc|].
    eapply keeps_same, Hrun. destruct (_ && _); [apply keeps_core_evm|apply keeps_ret]. }
  destruct (negb _).
  - apply DeleteObjectFromVirtualGroup_Ret in Hdel as (ib1 & ib' & Hib1 & Hq & S1 & P1 & O1).
    + simpl in Hib1. rewrite Hib in Hib1. injection Hib1 as <-. exists ib'. split; [done|].
      split_and!; [by rewrite S, S1|by rewrite P, P1|]. intros f t. rewrite O, O1. done.
    + done.
    + simpl. intros ib1. rewrite Hib. by intros [= <-].
  - apply ret_Ret in Hdel as [_ <-]. exists ib. split; [by apply quiet_refl|].
    split_and!; [|done|exact O]. rewrite S. simpl. unfold SetInternalBucketInfo, on_internals.
    rewrite insert_id by done. by destruct (st c).
Qed.

(** What the release of an object leaves of the bucket's bytes *)
Definition half_out s o ib ib1 : Prop :=
  if is_sealed s o
  then is_Some (GetLVG (ob_LocalVirtualGroupId o) ib) /\
       ib1 = charge_lvg (ob_LocalVirtualGroupId o) (- charge_of s o) ib
  else ib1 = ib.

Lemma half_out_sorted s o ib ib1 : half_out s o ib ib1 -> sorted_groups ib -> sorted_groups ib1.
Proof.
  unfold half_out. case_match; [intros [_ ->]; apply ib_charge_sorted|by intros ->].
Qed.

Lemma half_out_without s o ib ib1 ib' : half_out s o ib ib1 -> quiet ib1 ib' -> without s o ib ib'.
Proof. unfold half_out, without. case_match; [by intros [? ->]|by intros ->]. Qed.

Lemma rebill_next p s b ib ib1 ib' f t :
  quiet ib1 ib' -> rebill p s b ib ib' f t = rebill p s b ib ib1 f t.
Proof.
  intros [_ Hq]. unfold rebill, by_payer, unless. destruct (decide _); [|done].
  destruct (limited _ _); [done|]. by rewrite Hq.
Qed.

(** The state before the last part of a deletion, from the state [c] *)
Record released c c3 b o ib ib1 (g : gmap Z ObjectStatus -> gmap Z ObjectStatus) : Prop := mkReleased {
  rl_old : internals (st c) !! b_Id b = Some ib;
  rl_half : half_out (st c) o ib ib1;
  rl_st : ledger_view (st c3) =
    ledger_view (SetInternalBucketInfo (b_Id b) ib1 (on_disc_statuses g (st c)));
  rl_statuses : forall m k, k <> ob_Id o -> g m !! k = m !! k;
  rl_status : g (disc_statuses (st c)) !! ob_Id o = None;
  rl_prices : prices c3 = prices c;
  rl_owes : forall f t, owes c3 f t = owes c f t + rebill (prices c) (st c) b ib ib1 f t;
}.

Lemma finish_delete c c3 b o v ib ib1 g u c' :
  Books c -> stored_bucket c b -> stored_object c o -> ob_BucketName o = b_BucketName b ->
  released c c3 b o ib ib1 g -> doDeleteObject b o v c3 = (Ret u, c') ->
  Books c' /\ exists ib', object_gone (st c) (st c') b o ib'.
Proof.
  intros HB Hb Ho Hn [Hib Hhalf Hst Hg Hgi Hp How] Hrun.
  pose proof (f_equal (fun x => x.1.1.1.1.1.1.1) Hst) as Eres.
  pose proof (f_equal (fun x => x.1.1.1.1.1.1.2) Hst) as Eint.
  unfold ledger_view in Eres, Eint. simpl in Eres, Eint.
  eapply doDeleteObject_Ret in Hrun as (ib' & Hq & S' & P' & O').
  - assert (object_gone (st c) (st c') b o ib') as Hgone.
    { destruct (st c3) eqn:E3. unfold ledger_view in Hst. simpl in Hst.
      injection Hst as -> -> -> -> -> -> -> ->. simpl in S'. rewrite S'. split; simpl; try done.
      - by rewrite Hn.
      - by rewrite insert_insert_eq.
      - intros k Hk. by apply Hg. }
    split; [|by exists ib'].
    eapply (Books_gone c c' b o ib ib'); try done; [by eapply half_out_without|congruence|].
    intros f t. rewrite O', How, (rebill_next _ _ _ _ ib1 ib') by done. done.
  - unfold stored_bucket. by rewrite Eres.
  - rewrite Hp. apply HB.
  - by rewrite Eint, lookup_insert_eq.
  - eapply half_out_sorted; [done|]. by eapply Books_sorted.
Qed.

Lemma status_sealed s o status :
  status_of s o = Some status ->
  is_sealed s o = bool_decide (status = OBJECT_STATUS_SEALED).
Proof. unfold is_sealed. intros ->. apply bool_decide_ext. naive_solver. Qed.

Lemma seen_parts c c' : seen c' = seen c ->
  ledger_view (st c') = ledger_view (st c) /\ prices c' = prices c /\
  forall f t, owes c' f t = owes c f t.
Proof.
  intros H. split_and!.
  - exact (f_equal (fun x => x.1.1) H).
  - exact (f_equal (fun x => x.1.2) H).
  - intros f t. unfold owes, paid. pose proof (f_equal snd H) as E. simpl in E. by rewrite E.
Qed.

(** A chain whose store differs from that of [c] in the discontinued statuses *)
Record noted c c1 (g : gmap Z ObjectStatus -> gmap Z ObjectStatus) : Prop := mkNoted {
  nt_st : ledger_view (st c1) = ledger_view (on_disc_statuses g (st c));
  nt_prices : prices c1 = prices c;
  nt_owes : forall f t, owes c1 f t = owes c f t;
}.

Lemma noted_seen c c1 c2 g : noted c c1 g -> seen c2 = seen c1 -> noted c c2 g.
Proof.
  intros [H1 H2 H3] (E1 & E2 & E3)%seen_parts. split; [by rewrite E1|by rewrite E2|].
  intros f t. by rewrite E3.
Qed.

(** Nothing charged is given up for an object that is not sealed. *)
Lemma release_unsealed c c1 b o g :
  Books c -> stored_bucket c b -> noted c c1 g ->
  (forall m k, k <> ob_Id o -> g m !! k = m !! k) -> g (disc_statuses (st c)) !! ob_Id o = None ->
  is_sealed (st c) o = false ->
  exists ib, released c c1 b o ib ib g.
Proof.
  intros HB Hb [S P O] Hg Hgi Hs. destruct (Books_ib _ _ HB Hb) as (ib & Hib & Hok). exists ib. split; try done.
  - unfold half_out. by rewrite Hs.
  - rewrite S. unfold ledger_view. simpl. by rewrite insert_id.
  - intros f t. rewrite O, rebill_quiet; [lia|]. apply quiet_refl, Hok.
Qed.

Lemma release_sealed ctx c c1 c2 b o g u :
  Books c -> stored_bucket c b -> noted c c1 g ->
  (forall m k, k <> ob_Id o -> g m !! k = m !! k) -> g (disc_statuses (st c)) !! ob_Id o = None ->
  is_sealed (st c) o = true ->
  uncharge_object ctx b o c1 = (Ret u, c2) -> exists ib ib1, released c c2 b o ib ib1 g.
Proof.
  intros HB Hb [S P O] Hg Hgi Hs (ib & Hl & [Hib S2 P2 O2])%uncharge_object_Ret.
  destruct (st c1) as [] eqn:E1. unfold ledger_view in S. simpl in S, Hib, S2.
  injection S as -> -> -> -> -> -> -> ->. 
  eexists ib, _. split; try done.
  - unfold half_out. rewrite Hs. done.
  - rewrite S2. done.
  - congruence.
  - intros f t. rewrite O2, O. unfold rebill, limited in *. simpl. by rewrite P.
Qed.

Lemma noted_refl c : noted c c (fun m => m).
Proof. by split. Qed.

Lemma DeleteObject_Books ctx operator n m src c u c' :
  DeleteObject ctx operator n m src c = (Ret u, c') -> Books c -> Books c'.
Proof.
  intros Hrun HB. unfold DeleteObject in Hrun. pose proof HB as HB0.
  apply found in Hrun as (b & Hb & Hbn & Hrun); [|done].
  apply found_object in Hrun as (o & Ho & Hon & Hom & Hrun); [|done].
  msteps Hrun. unfold status_is in Hx. apply bool_decide_eq_false in Hx.
  destruct (status_is OBJECT_STATUS_CREATED o) eqn:Ec; [by eapply CancelCreateObject_Books|].
  clear HB0. pass Hrun. pass Hrun.
  assert (is_sealed (st c1) o = true) as Hs.
  { unfold is_sealed, status_of. unfold status_is in Ec. apply bool_decide_eq_false in Ec.
    apply bool_decide_eq_true. by destruct (ob_ObjectStatus o). }
  apply bind_Ret in Hrun as (? & c2 & Hun & Hrun).
  eapply (release_sealed ctx c1 c1 c2 b o (fun m => m)) in Hun as (ib & ib1 & Hr); try done.
  - eapply (finish_delete c1 c2 b o); eauto. congruence.
  - by apply no_status.
Qed.

(** The object with its status taken, released and deleted *)
Lemma release_Ret ctx c c1 b o g status u c2 :
  release ctx b o status c1 = (Ret u, c2) -> Books c -> stored_bucket c b -> noted c c1 g ->
  (forall m k, k <> ob_Id o -> g m !! k = m !! k) -> g (disc_statuses (st c)) !! ob_Id o = None ->
  status_of (st c) o = Some status -> exists ib ib1, released c c2 b o ib ib1 g.
Proof.
  intros Hrun HB Hb Hn Hg Hgi Hst. pose proof (status_sealed _ _ _ Hst) as Hs.
  destruct status; simpl in Hrun.
  - assert (seen c2 = seen c1) as E by (eapply (keeps_run seen), Hrun; frame).
    destruct (release_unsealed c c2 b o g) as [ib ?]; eauto using noted_seen.
  - apply bind_Ret in Hrun as (? & c3 & Hun & Hrun).
    eapply release_sealed in Hun as (ib & ib1 & [H1 H2 H3 H4 H5 H6 H7]); eauto.
    assert (seen c2 = seen c3) as (E1 & E2 & E3)%seen_parts by (eapply (keeps_run seen), Hrun; frame).
    exists ib, ib1. split; try done; [by rewrite E1|by rewrite E2|]. intros f t. by rewrite E3.
  - apply ret_Ret in Hrun as [_ <-]. 
    destruct (release_unsealed c c1 b o g) as [ib ?]; eauto.
Qed.

Lemma ForceDeleteObject_Books ctx id c u c' :
  ForceDeleteObject ctx id c = (Ret u, c') -> Books c -> Books c'.
Proof.
  intros Hrun HB. unfold ForceDeleteObject in Hrun. rewrite bind_get in Hrun.
  destruct (GetObjectInfoById id c) as [o|] eqn:Eo; [|by apply ret_Ret in Hrun as [_ <-]].
  unfold GetObjectInfoById in Eo. destruct (oj_id _ (lg_objects _ _ _ HB) _ _ Eo) as [Hid _].
  assert (stored_object c o) as Ho by (unfold stored_object; by rewrite Hid).
  apply found in Hrun as (b & Hb & Hbn & Hrun); [|done].
  apply bind_Ret in Hrun as (status & c1 & Hst & Hrun).
  unfold getAndDeleteDiscontinueObjectStatus in Hst. rewrite bind_get in Hst.
  apply bind_Ret in Hst as (v & ? & [Hv ->]%or_fail_Ret & Hst).
  apply bind_Ret in Hst as (? & ? & ->%modify_Ret & [<- <-]%ret_Ret).
  apply bind_Ret in Hrun as (sp & c2 & Hsp & Hrun).
  apply (keeps_run (fun c => c) _ _ _ _ (keeps_primary _ b)) in Hsp as ->.
  apply bind_Ret in Hrun as (? & c3 & Hrel & Hrun).
  eapply (release_Ret ctx c _ b o (delete id)) in Hrel as (ib & ib1 & Hr); try done.
  - by eapply finish_delete.
  - intros m k Hk. rewrite lookup_delete_ne by congruence. done.
  - by rewrite Hid, lookup_delete_eq.
  - apply (oj_status _ (lg_objects _ _ _ HB)) in Hv as Hv'. destruct Hv' as (_ & o1 & Ho1 & Hs1).
    unfold status_of. assert (o1 = o) as -> by congruence. rewrite Hs1, Hid. done.
Qed.

(** ** Creating objects *)

Lemma next_val cell x :
  NextVal Uint256 cell = Some x -> 0 <= CurVal Uint256 cell < 2 ^ 256 ->
  x.1 = CurVal Uint256 cell + 1 /\ CurVal Uint256 (Some x.2) = CurVal Uint256 cell + 1 /\
  CurVal Uint256 cell + 1 < 2 ^ 256.
Proof.
  intros Hx Hr. pose proof (NextVal_counts Uint256 cell Hr) as H.
  destruct (_ <? _) eqn:E; [|by rewrite Hx in H].
  destruct H as (cell' & Hn & Hc). rewrite Hx in Hn. injection Hn as ->.
  apply Z.ltb_lt in E. done.
Qed.

Lemma GenNextObjectID_Ret c id c1 :
  GenNextObjectID c = (Ret id, c1) -> Books c ->
  exists cell, c1 = with_st (set_objectSeq (Some cell)) c /\
    CurVal Uint256 (objectSeq (st c)) < id <= CurVal Uint256 (Some cell) /\
    CurVal Uint256 (Some cell) < 2 ^ 256.
Proof.
  unfold GenNextObjectID. intros Hrun HB. rewrite bind_get in Hrun.
  apply bind_Ret in Hrun as (x & ? & [Hx ->]%must_Ret & Hrun).
  apply bind_Ret in Hrun as (? & ? & ->%modify_Ret & [<- <-]%ret_Ret).
  apply next_val in Hx as (H1 & H2 & H3); [|apply (lg_objects _ _ _ HB)].
  exists x.2. split; [done|]. lia.
Qed.

Lemma Books_born c c' b o ib ib' :
  Books c -> stored_bucket c b -> internals (st c) !! b_Id b = Some ib ->
  ob_BucketName o = b_BucketName b -> object_born (st c) (st c') b o ib' -> roomy (st c') ->
  (if is_sealed (st c') o then ib_ok (b_BucketName b) (st c') ib' else quiet ib ib') ->
  prices c' = prices c ->
  (forall f t, owes c' f t = owes c f t + rebill (prices c) (st c) b ib ib' f t) -> Books c'.
Proof. intros. unfold Books. rewrite H6. by eapply (Ledger_object_born _ (st c)). Qed.

Lemma recharged_ok n s ctx lid d ib ib' :
  recharged ctx lid d ib ib' -> ib_ok n s (charge_lvg lid d ib) -> ib_ok n s ib'.
Proof. intros [->| ->] H; [done|by apply ib_ok_time]. Qed.

Lemma store_sealed n m b o c u c' :
  store_new n m b o c = (Ret u, c') -> stored_bucket c b -> ob_ObjectStatus o = OBJECT_STATUS_SEALED ->
  c' = with_st (StoreObjectInfo n m o) c.
Proof.
  unfold store_new. intros Hrun Hb Hs. reset_bucket Hrun. unfold status_is in Hrun. rewrite Hs in Hrun.
  rewrite bool_decide_eq_false_2 in Hrun by done. mstep Hrun. by apply modify_Ret in Hrun as ->.
Qed.

(** An empty object is sealed at once. *)
Lemma enter_empty ctx b gvgID o c cell c2 o' u c' :
  Books c -> stored_bucket c b -> ob_BucketName o = b_BucketName b ->
  object_ids (res (st c)) !! (ob_BucketName o, ob_ObjectName o) = None ->
  CurVal Uint256 (objectSeq (st c)) < ob_Id o <= CurVal Uint256 (Some cell) ->
  CurVal Uint256 (Some cell) < 2 ^ 256 -> ob_ObjectStatus o = OBJECT_STATUS_SEALED ->
  SealObjectOnVirtualGroup ctx b gvgID o (with_st (set_objectSeq (Some cell)) c) = (Ret o', c2) ->
  store_new (ob_BucketName o) (ob_ObjectName o) b o' c2 = (Ret u, c') -> roomy (st c') -> Books c'.
Proof.
  intros HB Hb Hn Hfree Hnew Hmax Hst Hseal Hstore Hroom.
  destruct (Books_ib _ _ HB Hb) as (ib & Hib & Hok).
  apply SealObjectOnVirtualGroup_Ret in Hseal as (ib0 & ib1 & ib' & lid & [E0 -> Hq Hl Hre S P O]);
    [|apply HB|intros ib0 H0; by eapply Books_sorted].
  simpl in E0. rewrite Hib in E0. injection E0 as <-.
  apply store_sealed in Hstore as ->; [|unfold stored_bucket; by rewrite S|done].
  set (o' := set_ob_lvg lid o) in *.
  assert (object_born (st c) (st (with_st (StoreObjectInfo (ob_BucketName o') (ob_ObjectName o') o') c2))
            b o' ib') as Hborn.
  { split; simpl; rewrite ?S; try done. }
  assert (is_Some (bucket_ids (res (st c)) !! ob_BucketName o')) as Hbk.
  { destruct (bk_id _ (lg_buckets _ _ _ HB) _ _ Hb) as (_ & ? & _). simpl. rewrite Hn. by eexists. }
  assert (ib_ok (b_BucketName b) (st (with_st (StoreObjectInfo (ob_BucketName o') (ob_ObjectName o') o') c2)) ib')
    as Hok'.
  { eapply recharged_ok; [exact Hre|].
    eapply (born_ib_ok (st c) _ b o' ib ib1 lid); eauto; [apply HB|].
    unfold is_sealed, status_of. simpl. by rewrite Hst. }
  assert (objects_ok (st c)) as HO by apply HB.
  destruct (born_objects_ok _ _ _ _ _ HO Hbk Hborn) as (HO' & _).
  eapply (Books_born c _ b o' ib ib'); try done.
  - by case_match; [|by unfold is_sealed, status_of in *; simpl in *; rewrite Hst in *].
  - intros f t. apply O; [|by eapply ib_ok_zero].
    eapply ib_ok_zero; [|exact HO]. eapply ib_ok_same, Hq. done.
Qed.

(** Any other object is locked for; it is charged when it is sealed. *)
Lemma enter_locked ctx b o c cell c2 u c' :
  Books c -> stored_bucket c b -> ob_BucketName o = b_BucketName b ->
  object_ids (res (st c)) !! (ob_BucketName o, ob_ObjectName o) = None ->
  CurVal Uint256 (objectSeq (st c)) < ob_Id o <= CurVal Uint256 (Some cell) ->
  CurVal Uint256 (Some cell) < 2 ^ 256 -> ob_ObjectStatus o = OBJECT_STATUS_CREATED ->
  LockObjectStoreFee ctx b o (with_st (set_objectSeq (Some cell)) c) = (Ret tt, c2) ->
  store_new (ob_BucketName o) (ob_ObjectName o) b o c2 = (Ret u, c') -> roomy (st c') -> Books c'.
Proof.
  intros HB Hb Hn Hfree Hnew Hmax Hst Hlock Hstore Hroom.
  destruct (Books_ib _ _ HB Hb) as (ib & Hib & Hok).
  pose proof (quiet_refl _ (io_sorted _ _ _ Hok)) as Hq.
  assert (seen c2 = seen (with_st (set_objectSeq (Some cell)) c)) as E
    by (eapply (keeps_run seen), Hlock; apply keeps_seen_LockObject).
  unfold store_new in Hstore. apply bind_Ret in Hstore as (? & c3 & Hset & Hstore).
  apply set_bucket_Ret in Hset as ->; [|unfold stored_bucket; by rewrite (seen_res _ _ E)].
  apply bind_Ret in Hstore as (? & c4 & Hlk & ->%modify_Ret).
  assert (seen c4 = seen c2) as E' by (eapply (keeps_run seen), Hlk; frame). rewrite E in E'.
  apply seen_parts in E' as (Hv & Hp & Ho).
  assert (object_born (st c) (StoreObjectInfo (ob_BucketName o) (ob_ObjectName o) o (st c4)) b o ib) as Hborn.
  { destruct (st c4). unfold ledger_view in Hv. simpl in Hv.
    injection Hv as -> -> -> -> -> -> -> ->. split; simpl; try done. by rewrite insert_id. }
  eapply (Books_born c _ b o ib ib); try done.
  - unfold is_sealed, status_of. simpl. rewrite Hst. by rewrite bool_decide_eq_false_2.
  - intros f t. rewrite rebill_quiet, Z.add_0_r by done. apply Ho.
Qed.

(** A new object entered in the bucket and stored *)
Lemma enter_Books ctx b o c id c1 o' c2 u c' :
  Books c -> stored_bucket c b -> ob_BucketName o = b_BucketName b ->
  object_ids (res (st c)) !! (ob_BucketName o, ob_ObjectName o) = None ->
  GenNextObjectID c = (Ret id, c1) -> ob_Id o = id ->
  ob_ObjectStatus o = new_status (ob_PayloadSize o) ->
  enter_object ctx b o c1 = (Ret o', c2) ->
  store_new (ob_BucketName o) (ob_ObjectName o) b o' c2 = (Ret u, c') ->
  roomy (st c') -> Books c'.
Proof.
  intros HB Hb Hn Hfree Hgen Hid Hst Hent Hstore Hroom.
  apply GenNextObjectID_Ret in Hgen as (cell & -> & Hnew & Hmax); [|done].
  unfold enter_object, new_status in *. destruct (ob_PayloadSize o =? 0).
  - unfold SealEmptyObjectOnVirtualGroup in Hent. msteps Hent.
    destruct (GlobalVirtualGroupIds x) as [|gid ids]; [by apply fail_Ret in Hent|].
    eapply (enter_empty ctx b gid o c cell); eauto. lia.
  - apply bind_Ret in Hent as ([] & c3 & Hlock & [<- <-]%ret_Ret).
    eapply (enter_locked ctx b o c cell); eauto. lia.
Qed.

Lemma CreateObject_Books ctx operator n m payload opts c id c' :
  CreateObject ctx operator n m payload opts c = (Ret id, c') ->
  Books c -> roomy (st c') -> Books c'.
Proof.
  intros Hrun HB Hroom. unfold CreateObject in Hrun. msteps Hrun.
  apply found in Hrun as (b & Hb & Hbn & Hrun); [|done].
  pass Hrun. pass Hrun. pass Hrun. pass Hrun. pass Hrun. pass Hrun. mstep Hrun.
  apply bind_Ret in Hrun as (i & c7 & Hgen & Hrun).
  apply bind_Ret in Hrun as (o' & c8 & Hent & Hrun).
  apply bind_Ret in Hrun as (? & c9 & Hstore & [<- <-]%ret_Ret).
  eapply enter_Books; [exact HB|exact Hb| | |exact Hgen| | |exact Hent|exact Hstore|exact Hroom]; try done.
  simpl. apply bool_decide_eq_false in Hx0. rewrite <- eq_None_not_Some in Hx0.
  repeat match goal with E : seen _ = seen _ |- _ => rewrite (seen_res _ _ E); clear E end. done.
Qed.

(** The name of a copy must be free, which the code does not check. *)
Lemma CopyObject_Books ctx operator n m n' m' opts c id c' :
  CopyObject ctx operator n m n' m' opts c = (Ret id, c') ->
  object_ids (res (st c)) !! (n', m') = None ->
  Books c -> roomy (st c') -> Books c'.
Proof.
  intros Hrun Hfree HB Hroom. unfold CopyObject in Hrun. pass Hrun.
  apply found in Hrun as (b & Hb & Hbn & Hrun); [|done].
  passes Hrun.
  apply bind_Ret in Hrun as (i & c7 & Hgen & Hrun).
  apply bind_Ret in Hrun as (o' & c8 & Hent & Hrun).
  apply bind_Ret in Hrun as (? & c9 & Hstore & [<- <-]%ret_Ret). rewrite <- Hbn in Hstore.
  eapply enter_Books; [exact HB|exact Hb| | |exact Hgen| | |exact Hent|exact Hstore|exact Hroom]; try done.
  simpl. rewrite Hbn.
  repeat match goal with E : seen _ = seen _ |- _ => rewrite (seen_res _ _ E); clear E end. done.
Qed.

(** ** Sealing *)

(** The content of the object [o] is out of the bytes, not the object. *)
Record taken c c1 b o ib ibw : Prop := mkTaken {
  tk_old : internals (st c) !! b_Id b = Some ib;
  tk_out : without (st c) o ib ibw;
  tk_st : ledger_view (st c1) = ledger_view (SetInternalBucketInfo (b_Id b) ibw (st c));
  tk_prices : prices c1 = prices c;
  tk_owes : forall f t, owes c1 f t = owes c f t + rebill (prices c) (st c) b ib ibw f t;
}.

Lemma taken_seen c c1 c2 b o ib ibw : taken c c1 b o ib ibw -> seen c2 = seen c1 -> taken c c2 b o ib ibw.
Proof.
  intros [H1 H2 H3 H4 H5] (E1 & E2 & E3)%seen_parts. split; try done; [by rewrite E1|by rewrite E2|].
  intros f t. by rewrite E3.
Qed.

Lemma taken_unsealed c b o :
  Books c -> stored_bucket c b -> is_sealed (st c) o = false -> exists ib, taken c c b o ib ib.
Proof.
  intros HB Hb Hs. destruct (Books_ib _ _ HB Hb) as (ib & Hib & Hok).
  pose proof (quiet_refl _ (io_sorted _ _ _ Hok)) as Hq. exists ib. split; try done.
  - unfold without. by rewrite Hs.
  - unfold ledger_view. simpl. by rewrite insert_id.
  - intros f t. rewrite rebill_quiet by done. lia.
Qed.

(** [o1] has the group, size and times of the stored [o]. *)
Lemma taken_withdrawn ctx c b o o1 u c1 :
  withdraw_object ctx b o1 c = (Ret u, c1) -> Books c -> stored_bucket c b ->
  is_sealed (st c) o = true -> alike o o1 -> exists ib ibw, taken c c1 b o ib ibw.
Proof.
  intros Hw HB Hb Hs [_ _ _ Hl Hp Ht].
  apply withdraw_object_Ret in Hw as (ib & ibw & Hg & Hq & [Hib S P O]);
    [|apply HB|intros ib H; by eapply Books_sorted].
  exists ib, ibw. split; try done.
  - unfold without. rewrite Hs. rewrite Hl in *. split; [done|].
    replace (charge_of (st c) o) with (charge_of (st c) o1); [done|].
    unfold charge_of. by rewrite Hp, Ht.
  - by rewrite S.
Qed.

Lemma rebill_sum p s b ib1 ib2 ib3 f t :
  rebill p s b ib1 ib2 f t + rebill p s b ib2 ib3 f t = rebill p s b ib1 ib3 f t.
Proof. unfold rebill, by_payer, unless. repeat case_match; lia. Qed.

Lemma Books_put c c' b o o' ib ib' :
  Books c -> stored_bucket c b -> internals (st c) !! b_Id b = Some ib ->
  stored_object c o -> ob_BucketName o = b_BucketName b ->
  object_put (st c) (st c') b o o' ib' -> roomy (st c') -> ib_ok (b_BucketName b) (st c') ib' ->
  prices c' = prices c ->
  (forall f t, owes c' f t = owes c f t + rebill (prices c) (st c) b ib ib' f t) -> Books c'.
Proof. intros. unfold Books. rewrite H7. by eapply (Ledger_object_put _ (st c)). Qed.

(** What is stored after sealing: [o2], in the group and with the size of [o'] *)
Record resealed c c' o o' o2 : Prop := mkResealed {
  rs_names : ob_Id o2 = ob_Id o /\ ob_BucketName o2 = ob_BucketName o /\ ob_ObjectName o2 = ob_ObjectName o;
  rs_like : alike o' o2;
  rs_status : ob_ObjectStatus o2 = OBJECT_STATUS_SEALED;
  rs_st : ledger_view (st c') = ledger_view (SetObjectInfo o2 (st c));
  rs_prices : prices c' = prices c;
  rs_owes : forall f t, owes c' f t = owes c f t;
}.

Lemma sealed_put c c1 c2 c' ctx b o o1 o' o2 ib ibw ib1 ib' lid :
  Books c -> stored_object c o -> ob_ObjectStatus o <> OBJECT_STATUS_DISCONTINUED ->
  taken c c1 b o ib ibw -> sealed ctx c1 c2 b o1 o' ibw ib1 ib' lid -> resealed c2 c' o o' o2 ->
  object_put (st c) (st c') b o o2 ib'.
Proof.
  intros HB Ho Hst [Hib Hout Hv1 Hp1 Ho1] [_ -> _ _ _ S2 _ _] [(Hid & Hbn & Hon) Hal Hs2 Hv' Hp' Ho'].
  rewrite S2 in Hv'. destruct (st c1). unfold ledger_view in Hv1. simpl in Hv1, Hv'.
  injection Hv1 as -> -> -> -> -> -> -> ->. destruct (st c'). unfold ledger_view in Hv'. simpl in Hv'.
  injection Hv' as -> -> -> -> -> -> -> ->. split; simpl; try done.
  - by rewrite Hid.
  - by rewrite insert_insert_eq.
  - intros v Hv. by rewrite no_status in Hv.
Qed.

Lemma reseal_Books ctx c c1 c2 c' b o o1 o' o2 ib ibw gid :
  Books c -> stored_bucket c b -> stored_object c o -> ob_BucketName o = b_BucketName b ->
  ob_ObjectStatus o <> OBJECT_STATUS_DISCONTINUED -> taken c c1 b o ib ibw ->
  SealObjectOnVirtualGroup ctx b gid o1 c1 = (Ret o', c2) -> resealed c2 c' o o' o2 ->
  roomy (st c') -> Books c'.
Proof.
  intros HB Hb Ho Hn Hst Htk Hseal Hre Hroom.
  assert (ib_ok (b_BucketName b) (st c) ib) as Hok by (by eapply (lg_bytes _ _ _ HB); [|apply Htk]).
  assert (objects_ok (st c)) as HO by apply HB.
  destruct (drop_ok (st c) o (b_BucketName b) ib ibw) as (HOd & _ & Hokw);
    [done|apply HB|done|done|done|apply Htk|].
  assert (internals (st c1) !! b_Id b = Some ibw) as Hint.
  { pose proof (f_equal (fun x => x.1.1.1.1.1.1.2) (tk_st _ _ _ _ _ _ Htk)) as Hi.
    unfold ledger_view in Hi. simpl in Hi. by rewrite Hi, lookup_insert_eq. }
  apply SealObjectOnVirtualGroup_Ret in Hseal as (ib0 & ib1 & ib' & lid & Hsd).
  2: { rewrite (tk_prices _ _ _ _ _ _ Htk). apply HB. }
  2: { intros ib0. rewrite Hint. intros [= <-]. apply Hokw. }
  assert (ib0 = ibw) as -> by (pose proof (sd_old _ _ _ _ _ _ _ _ _ _ Hsd); congruence).
  pose proof (sealed_put _ _ _ _ _ _ _ _ _ _ _ _ _ _ _ HB Ho Hst Htk Hsd Hre) as Hput.
  assert (is_sealed (st c') o2 = true) as Hs2.
  { unfold is_sealed, status_of. rewrite (rs_status _ _ _ _ _ Hre). done. }
  destruct Hsd as [_ Ho' Hq Hl Hrec S2 P2 O2]. destruct Hre as [_ Hal _ Hv' P' O'].
  assert (ob_LocalVirtualGroupId o2 = lid) as Hlid.
  { rewrite (al_group _ _ Hal), Ho'. done. }
  destruct (put_sealed_ok (st c) (st c') b o o2 ib ibw ib1 ib' lid) as [Hz1 Hz2];
    [done|apply HB|done|done|done|done|done|apply Htk|done|done|done|done|].
  destruct Htk as [Hib Hout Hv1 P1 O1].
  assert (charge_of (st c) o2 = charge_of (st c1) o1) as Hch.
  { rewrite (charge_of_versions (st c) (st c1)).
    - unfold charge_of. rewrite (al_size _ _ Hal), (al_time _ _ Hal), Ho'. done.
    - exact (f_equal (fun x => x.1.1.2) Hv1). }
  rewrite Hch in Hz2. apply (recharged_ok _ _ _ _ _ _ _ Hrec) in Hz2.
  destruct (put_objects_ok _ _ _ _ _ _ HO Ho Hput) as [HO' _].
  eapply (Books_put c c' b o o2 ib ib'); try done; [congruence|].
  intros f t. rewrite O', O2, O1 by (eapply ib_ok_zero; eauto).
  rewrite <- (rebill_sum _ _ _ ib ibw ib'). rewrite P1, <- Z.add_assoc. f_equal.
  unfold rebill. f_equal. f_equal. unfold limited.
  pose proof (f_equal (fun x => x.1.1.1.1.1.2) Hv1) as Hls. unfold ledger_view in Hls. simpl in Hls.
  by rewrite Hls.
Qed.

(** Sealing changes no bucket and no object of the store, and of the object
    only the group. *)
Section ResFrames.
Abbreviation resources := (fun c => res (st c)).
#[local] Hint Resolve keeps_price_at keeps_versioned_at keeps_charge_size keeps_tax_at
  keeps_lock_fee keeps_price_changed keeps_bill keeps_must_ib keeps_owner_of keeps_check_bill : frames.
Lemma keeps_res_payment {A} (k : M (State B) PaymentTypes.error A) : keeps resources (on_payment k : CM A).
Proof. by apply keeps_zoom. Qed.
#[local] Hint Resolve keeps_res_payment : frames.
Lemma keeps_res_via_object ctx b ib o size del :
  keeps resources (ChargeViaObjectChange ctx b ib o size del : CM _).
Proof. unfold ChargeViaObjectChange, apply_flows. frame. Qed.
Lemma keeps_res_via_bucket ctx b ib ch : keeps resources (ChargeViaBucketChange ctx b ib ch : CM _).
Proof.
  unfold ChargeViaBucketChange, ApplyBillChanges, deleteBucketFlowRateLimitStatus, on_st, apply_flows. frame.
Qed.
#[local] Hint Resolve keeps_res_via_object keeps_res_via_bucket : frames.
Lemma keeps_res_charge ctx b ib o : keeps resources (ChargeObjectStoreFee ctx b ib o : CM _).
Proof. unfold ChargeObjectStoreFee. frame. Qed.
#[local] Hint Resolve keeps_res_charge : frames.
Lemma keeps_res_unlock ctx b ib o : keeps resources (UnlockAndChargeObjectStoreFee ctx b ib o : CM _).
Proof. unfold UnlockAndChargeObjectStoreFee, UnlockObjectStoreFee, unlock_fee, change_stream. frame. Qed.
#[local] Hint Resolve keeps_res_unlock : frames.
Lemma keeps_res_seal ctx b gid o : keeps resources (SealObjectOnVirtualGroup ctx b gid o : CM _).
Proof.
  unfold SealObjectOnVirtualGroup, bind_lvg, on_world, set_gvg, set_ib, on_st. frame.
Qed.
End ResFrames.

Lemma view_set_object o s s' :
  ledger_view s' = ledger_view s -> ledger_view (SetObjectInfo o s') = ledger_view (SetObjectInfo o s).
Proof.
  destruct s, s'. unfold ledger_view. simpl. by intros [= -> -> -> -> -> -> -> ->].
Qed.

Lemma seal_group ctx b gid o c o' c' :
  SealObjectOnVirtualGroup ctx b gid o c = (Ret o', c') -> exists lid, o' = set_ob_lvg lid o.
Proof.
  unfold SealObjectOnVirtualGroup. intros Hrun.
  do 2 apply bind_Ret in Hrun as (? & ? & _ & Hrun).
  apply bind_Ret in Hrun as ([lid ib1] & ? & _ & Hrun).
  do 3 apply bind_Ret in Hrun as (? & ? & _ & Hrun). apply ret_Ret in Hrun as [<- _]. eauto.
Qed.

Lemma take_update_Ret ctx b o cs n m opts c o1 c1 :
  take_update ctx b (set_ob_checksums cs o) n m opts c = (Ret o1, c1) ->
  Books c -> stored_bucket c b -> stored_object c o ->
  ob_Id o1 = ob_Id o /\ ob_BucketName o1 = ob_BucketName o /\ ob_ObjectName o1 = ob_ObjectName o /\
  ob_ObjectStatus o <> OBJECT_STATUS_DISCONTINUED /\ exists ib ibw, taken c c1 b o ib ibw.
Proof.
  intros Hrun HB Hb Ho. unfold take_update in Hrun.
  destruct (_ && _) eqn:E.
  - apply andb_true_iff in E as [_ Hs]. unfold status_is in Hs. apply bool_decide_eq_true in Hs.
    simpl in Hs. apply bind_Ret in Hrun as (? & c2 & Hw & Hrun).
    assert (seen c1 = seen c2 /\ exists sh k, o1 = with_shadow sh k (set_ob_checksums cs o))
      as (E & sh & k & ->).
    { pass Hrun. pass Hrun. pass Hrun. apply ret_Ret in Hrun as [<- <-]. split; [congruence|eauto]. }
    simpl. split_and!; try done; [by rewrite Hs|].
    eapply (taken_withdrawn ctx c b o) in Hw as (ib & ibw & Htk); try done.
    + exists ib, ibw. by eapply taken_seen.
    + unfold is_sealed, status_of. by rewrite Hs.
  - mstep Hrun. apply ret_Ret in Hrun as [<- <-]. apply negb_false_iff in Hx.
    assert (status_is OBJECT_STATUS_CREATED o = true) as Hc by exact Hx.
    unfold status_is in Hx. apply bool_decide_eq_true in Hx. simpl in Hx.
    split_and!; try done; [by rewrite Hx|].
    destruct (taken_unsealed c b o HB Hb) as [ib Htk]; [by apply created_unsealed|]. eauto.
Qed.

Lemma SealObject_Books ctx operator n m opts c u c' :
  SealObject ctx operator n m opts c = (Ret u, c') -> Books c -> roomy (st c') -> Books c'.
Proof.
  intros Hrun HB Hroom. unfold SealObject in Hrun.
  apply found in Hrun as (b & Hb & Hbn & Hrun); [|done]. mstep Hrun. mstep Hrun. pass Hrun. mstep Hrun.
  apply found_object in Hrun as (o & Ho & Hon & Hom & Hrun); [|done]. pass Hrun.
  apply bind_Ret in Hrun as (o1 & c2 & Htk & Hrun).
  apply take_update_Ret in Htk as (Hid & Hb1 & Hn1 & Hst & ib & ibw & Htk); [|done..].
  apply bind_Ret in Hrun as (g & c3 & Hg & Hrun).
  apply (keeps_run (fun c => c) _ _ _ _ (keeps_get_gvg _ _ _)) in Hg as ->. mstep Hrun.
  apply bind_Ret in Hrun as (ex & c3 & He & Hrun).
  apply (keeps_run (fun c => c) _ _ _ _ (keeps_secondary_num _ _)) in He as ->. mstep Hrun.
  apply bind_Ret in Hrun as (? & c3 & Hbls & Hrun).
  apply (keeps_run (fun c => c) _ _ _ _ (keeps_bls _ _ _ _)) in Hbls as ->.
  apply bind_Ret in Hrun as (o' & c3 & Hseal%on_err_fail_Ret & Hrun).
  destruct (seal_group _ _ _ _ _ _ _ Hseal) as [lid Ho'].
  assert (stored_bucket c3 b) as Hb3.
  { unfold stored_bucket. pose proof (keeps_run _ _ _ _ _ (keeps_res_seal _ _ _ _) Hseal) as Hr.
    pose proof (f_equal (fun x => x.1.1.1.1.1.1.1) (tk_st _ _ _ _ _ _ Htk)) as Hr'.
    unfold ledger_view in Hr'. simpl in Hr, Hr'. by rewrite Hr, Hr'. }
  reset_bucket Hrun. apply bind_Ret in Hrun as (? & c4 & Hul & Hrun).
  assert (seen c4 = seen c3) as (V4 & P4 & O4)%seen_parts by (eapply (keeps_run seen), Hul; frame).
  apply bind_Ret in Hrun as (? & ? & ->%modify_Ret & Hrun).
  assert (seen c' = seen (with_st (SetObjectInfo (set_ob_status OBJECT_STATUS_SEALED o')) c4))
    as (V5 & P5 & O5)%seen_parts by (eapply (keeps_run seen), Hrun; frame).
  eapply (reseal_Books ctx _ c2 c3 c' b o o1 o' (set_ob_status OBJECT_STATUS_SEALED o') ib ibw); eauto.
  - congruence.
  - subst o'. split; simpl; try done.
    + rewrite V5. by apply view_set_object.
    + rewrite P5. exact P4.
    + intros f t. rewrite O5. apply O4.
Qed.

(** ** Updating the content *)

Lemma StoreObjectInfo_same n m o s :
  object_ids (res s) !! (n, m) = Some (ob_Id o) -> StoreObjectInfo n m o s = SetObjectInfo o s.
Proof.
  intros Hn. unfold StoreObjectInfo, SetObjectInfo, on_res, on_objects, on_object_ids. simpl.
  by rewrite (insert_id (object_ids _)).
Qed.

Lemma stored_name c o n m :
  Books c -> stored_object c o -> ob_BucketName o = n -> ob_ObjectName o = m ->
  object_ids (res (st c)) !! (n, m) = Some (ob_Id o).
Proof. intros HB Ho <- <-. by destruct (oj_id _ (lg_objects _ _ _ HB) _ _ Ho) as (_ & ? & _). Qed.

(** The content replaced by none *)
Lemma empty_Books ctx c b o opts updater v c1 c2 c' o' u :
  Books c -> stored_bucket c b -> stored_object c o -> ob_BucketName o = b_BucketName b ->
  ob_ObjectStatus o = OBJECT_STATUS_SEALED -> withdraw_object ctx b o c = (Ret u, c1) ->
  SealEmptyObjectOnVirtualGroup ctx b (emptied ctx opts updater v o) c1 = (Ret o', c2) ->
  c' = with_st (StoreObjectInfo (ob_BucketName o) (ob_ObjectName o) o') c2 ->
  roomy (st c') -> Books c'.
Proof.
  intros HB Hb Ho Hn Hst Hw Hseal -> Hroom.
  eapply (taken_withdrawn ctx c b o) in Hw as (ib & ibw & Htk);
    [|done|done|by unfold is_sealed, status_of; rewrite Hst|by split].
  unfold SealEmptyObjectOnVirtualGroup in Hseal. msteps Hseal.
  destruct (GlobalVirtualGroupIds x) as [|gid ids]; [by apply fail_Ret in Hseal|].
  destruct (seal_group _ _ _ _ _ _ _ Hseal) as [lid Ho'].
  eapply (reseal_Books ctx c c1 c2 _ b o _ o' o' ib ibw gid); eauto; [by rewrite Hst|].
  subst o'. split; simpl; try done. rewrite StoreObjectInfo_same; [done|]. simpl.
  pose proof (keeps_run _ _ _ _ _ (keeps_res_seal _ _ _ _) Hseal) as Hr.
  pose proof (f_equal (fun x => x.1.1.1.1.1.1.1) (tk_st _ _ _ _ _ _ Htk)) as Hr'.
  unfold ledger_view in Hr'. simpl in Hr, Hr'. rewrite Hr, Hr'. by apply stored_name.
Qed.

Lemma UpdateObjectContent_Books ctx operator n m payload opts c u c' :
  UpdateObjectContent ctx operator n m payload opts c = (Ret u, c') ->
  Books c -> roomy (st c') -> Books c'.
Proof.
  intros Hrun HB Hroom. unfold UpdateObjectContent in Hrun.
  apply found in Hrun as (b & Hb & Hbn & Hrun); [|done]. pass Hrun.
  apply found_object in Hrun as (o & Ho & Hon & Hom & Hrun); [|done]. mstep Hrun. mstep Hrun.
  pass Hrun. mstep Hrun. mstep Hrun. pass Hrun. mstep Hrun. pass Hrun.
  apply bind_Ret in Hrun as (o' & c5 & Hch & Hrun).
  apply negb_false_iff in Hx. unfold status_is in Hx. apply bool_decide_eq_true in Hx.
  destruct (payload =? 0).
  - apply bind_Ret in Hch as (? & c6 & Hw & Hseal). apply modify_Ret in Hrun.
    subst n m. eapply empty_Books; eauto; congruence.
  - pass Hch. pass Hch. pass Hch. apply ret_Ret in Hch as [<- <-].
    eapply (set_object_Books _ b o (set_ob_updating true o) tt); eauto; [|congruence|by split].
    apply modify_Ret in Hrun as ->. apply modify_Ret. unfold with_st. f_equal.
    apply StoreObjectInfo_same. by apply (stored_name _ o).
Qed.

(** ** Discontinuing objects *)

Lemma object_bucket c o :
  Books c -> stored_object c o ->
  exists b, stored_bucket c b /\ ob_BucketName o = b_BucketName b.
Proof.
  intros HB Ho. destruct (oj_id _ (lg_objects _ _ _ HB) _ _ Ho) as (_ & _ & [id Hid] & _).
  apply (bk_name _ (lg_buckets _ _ _ HB)) in Hid as (b & Hb & Hn). exists b. split; [|done].
  unfold stored_bucket. by destruct (bk_id _ (lg_buckets _ _ _ HB) _ _ Hb) as [-> _].
Qed.

Lemma discontinue_one c o c1 u c' :
  Books c -> stored_object c o -> ob_ObjectStatus o <> OBJECT_STATUS_DISCONTINUED ->
  saveDiscontinueObjectStatus o c = (Ret tt, c1) ->
  set_object (set_ob_status OBJECT_STATUS_DISCONTINUED o) c1 = (Ret u, c') -> Books c'.
Proof.
  intros HB Ho Hs ->%modify_Ret ->%modify_Ret.
  destruct (object_bucket _ _ HB Ho) as (b & Hb & Hn).
  eapply (Books_alike c _ b o (set_ob_status OBJECT_STATUS_DISCONTINUED o)); try done.
  - unfold is_sealed, status_of. simpl. rewrite lookup_insert_eq. by destruct (ob_ObjectStatus o).
  - intros ib Hib. split; simpl; try done.
    + symmetry. by apply insert_id.
    + intros k Hk. by rewrite lookup_insert_ne.
    + intros v. rewrite lookup_insert_eq. by intros [= <-].
Qed.

Lemma mark_discontinued_Books n ids c u c' :
  mark_discontinued n ids c = (Ret u, c') -> Books c -> Books c'.
Proof.
  revert c. induction ids as [|id ids IH]; simpl; intros c Hrun HB.
  { by apply ret_Ret in Hrun as [_ <-]. }
  rewrite bind_get in Hrun. do 3 mstep Hrun. rename x into o.
  assert (stored_object c o) as Ho.
  { unfold stored_object, GetObjectInfoById in *. destruct (oj_id _ (lg_objects _ _ _ HB) _ _ Hx) as [-> _]. done. }
  apply bind_Ret in Hrun as ([] & c1 & Hsave & Hrun).
  apply bind_Ret in Hrun as (? & c2 & Hset & Hrun). eapply IH; [exact Hrun|].
  eapply discontinue_one; eauto. intros Heq. unfold status_is in Hx1. rewrite Heq in Hx1. done.
Qed.

Lemma DiscontinueObject_Books ctx operator n ids c u c' :
  DiscontinueObject ctx operator n ids c = (Ret u, c') -> Books c -> Books c'.
Proof.
  intros Hrun HB. unfold DiscontinueObject in Hrun. pass Hrun.
  apply found in Hrun as (b & Hb & Hbn & Hrun); [|done]. mstep Hrun. pass Hrun.
  do 3 mstep Hrun. apply bind_Ret in Hrun as (? & c2 & Hm & Hrun).
  apply mark_discontinued_Books in Hm; [|done].
  apply bind_Ret in Hrun as (? & ? & ->%modify_Ret & ->%modify_Ret).
  by eapply Books_seen; [|exact Hm].
Qed.

End Objects.
