(* ===== verification/StorageBucketRuns.v ===== *)
(** * x/storage: runs of the bucket operations and the ledger

    Creating, updating, migrating, limiting and deleting a bucket, and the end
    of a block, preserve the ledger. *)

From S2P Require Import Prelude Sdk Bytes StorageTypes Grn Permission PermissionKeeper.
From S2P Require Import StoragePermission StorageGC FeeMarket.
From S2P Require Import SpTypes SpKeeper VirtualGroupTypes VirtualGroupKeeper VirtualGroupFacts.
From S2P Require Import VirtualGroupPayment PaymentTypes PaymentStore PaymentStream PaymentFlows.
From S2P Require Import PaymentFlowsFacts PaymentBooks PaymentPaid.
From S2P Require Import StorageStore StorageCharge StorageGroups StorageObjects StorageBuckets.
From S2P Require Import StorageCheck StorageBills StorageLedger StorageRuns.

#[local] Arguments CurVal : simpl never.
#[local] Arguments NextVal : simpl never.

Section Buckets.
Context {B N : Type} {HBank : BankKeeper B} {HAddr : Addresses} {HAddrLaws : AddressLaws}
  {HCrypto : StorageCrypto} {HNft : NftContracts N} {HUint : UintText} {HRegexps : Regexps}.
Abbreviation CM := (M (Chain B N) storage_error).
Implicit Types (c : Chain B N) (ctx : StorageCtx) (b : BucketInfo) (o : ObjectInfo)
  (ib : InternalBucketInfo) (s : StorageStore).

(** ** Changes without a charge *)

(** What the bill depends on, and the identity of the bucket *)
Definition bill_part b :=
  (b_Id b, b_BucketName b, b_Owner b, b_PaymentAddress b, b_GvgFamilyId b, b_ChargedReadQuota b).

Lemma bill_part_rate p b b' ib t : bill_part b' = bill_part b -> bill_rate p b' ib t = bill_rate p b ib t.
Proof. unfold bill_part, bill_rate. by intros [= _ _ _ _ -> ->]. Qed.

Lemma set_bucket_Books b b' c u c' :
  set_bucket b' c = (Ret u, c') -> Books c -> stored_bucket c b -> bill_part b' = bill_part b -> Books c'.
Proof.
  intros ->%modify_Ret HB Hb Hp. pose proof Hp as [= Hid Hn Ho Hpay _ _].
  destruct (Books_ib _ _ HB Hb) as (ib & Hib & Hok).
  eapply (Ledger_bucket _ (st c) _ _ _ b b' ib ib); [exact HB| |exact Hib| |done..|].
  - apply bucket_only; try done; try apply HB; simpl; [by rewrite Hid|by rewrite insert_id].
  - apply quiet_refl, Hok.
  - intros f t. change (limited (st (with_st (SetBucketInfo b') c)) (b_BucketName b))
      with (limited (st c) (b_BucketName b)).
    change (owes (with_st (SetBucketInfo b') c) f t) with (owes c f t).
    change (prices (with_st (SetBucketInfo b') c)) with (prices c).
    rewrite Hpay. unfold by_payer, unless. destruct (decide _); [|lia].
    destruct (limited _ _); [lia|]. rewrite (bill_part_rate _ b b') by done. lia.
Qed.

Lemma Toggle_Books a n c u c' :
  ToggleSPAsDelegatedAgent a n c = (Ret u, c') -> Books c -> Books c'.
Proof.
  intros Hrun HB. unfold ToggleSPAsDelegatedAgent in Hrun.
  apply found in Hrun as (b & Hb & Hbn & Hrun); [|done]. mstep Hrun.
  by eapply (set_bucket_Books b).
Qed.

Lemma DiscontinueBucket_Books ctx a n c u c' :
  DiscontinueBucket ctx a n c = (Ret u, c') -> Books c -> Books c'.
Proof.
  intros Hrun HB. unfold DiscontinueBucket in Hrun. pass Hrun.
  apply found in Hrun as (b & Hb & Hbn & Hrun); [|done]. mstep Hrun. pass Hrun. do 3 mstep Hrun.
  apply bind_Ret in Hrun as (? & c2 & Hset & Hrun). eapply (set_bucket_Books b) in Hset; try done.
  apply bind_Ret in Hrun as (? & ? & ->%modify_Ret & ->%modify_Ret).
  by eapply Books_seen; [|exact Hset].
Qed.

Lemma MigrateBucket_Books ctx a n sp ap bytes c u c' :
  MigrateBucket ctx a n sp ap bytes c = (Ret u, c') -> Books c -> Books c'.
Proof.
  intros Hrun HB. unfold MigrateBucket in Hrun.
  apply found in Hrun as (b & Hb & Hbn & Hrun); [|done]. passes Hrun.
  destruct (migrations _ !! _); [by apply panic_Ret in Hrun|].
  unfold on_st in Hrun. pass Hrun. by eapply (set_bucket_Books b).
Qed.

Lemma end_migration_Books b b' c u c' :
  end_migration b' c = (Ret u, c') -> Books c -> stored_bucket c b -> bill_part b' = bill_part b -> Books c'.
Proof.
  intros Hrun HB Hb Hp. unfold end_migration in Hrun.
  apply bind_Ret in Hrun as (? & c2 & Hset & ->%modify_Ret).
  eapply (set_bucket_Books b) in Hset; try done. by eapply Books_seen; [|exact Hset].
Qed.

Lemma CancelBucketMigration_Books a n c u c' :
  CancelBucketMigration a n c = (Ret u, c') -> Books c -> Books c'.
Proof.
  intros Hrun HB. unfold CancelBucketMigration in Hrun.
  apply found in Hrun as (b & Hb & Hbn & Hrun); [|done]. passes Hrun. by eapply (end_migration_Books b).
Qed.

Lemma RejectBucketMigration_Books a n c u c' :
  RejectBucketMigration a n c = (Ret u, c') -> Books c -> Books c'.
Proof.
  intros Hrun HB. unfold RejectBucketMigration in Hrun.
  apply found in Hrun as (b & Hb & Hbn & Hrun); [|done]. passes Hrun. by eapply (end_migration_Books b).
Qed.

(** ** A new payment account or quota *)

(** The bucket [b] and its bytes replaced, [b] limited no more *)
Lemma Books_recharged c c' b b' ib ib' :
  Books c -> stored_bucket c b -> internals (st c) !! b_Id b = Some ib ->
  b_Id b' = b_Id b -> b_BucketName b' = b_BucketName b -> b_Owner b' = b_Owner b ->
  same_bytes ib ib' ->
  ledger_view (st c') = ledger_view (SetInternalBucketInfo (b_Id b) ib' (SetBucketInfo b'
    (on_limit_status (if limited (st c) (b_BucketName b) then delete (b_BucketName b) else id) (st c)))) ->
  prices c' = prices c ->
  (forall f t, owes c' f t = owes c f t -
    by_payer (b_PaymentAddress b) (unless (limited (st c) (b_BucketName b)) (bill_rate (prices c) b ib)) f t +
    by_payer (b_PaymentAddress b') (bill_rate (prices c) b' ib') f t) -> Books c'.
Proof.
  intros HB Hb Hib Hid Hn Ho Hsame Hv Hp How. unfold Books. rewrite Hp.
  assert (limited (st c') (b_BucketName b) = false) as Hlim.
  { pose proof (f_equal (fun x => x.1.1.1.1.1.2) Hv) as Hls. unfold ledger_view in Hls. simpl in Hls.
    unfold limited at 1. rewrite Hls. destruct (limited (st c) _) eqn:E; [|exact E].
    by rewrite lookup_delete_eq. }
  eapply (Ledger_bucket _ (st c) _ _ _ b b' ib ib'); [exact HB| |exact Hib|exact Hsame|..].
  2-5: destruct (st c'); unfold ledger_view in Hv; simpl in Hv; injection Hv as -> -> -> -> -> -> -> ->; done.
  - destruct (st c') eqn:E. unfold ledger_view in Hv; simpl in Hv.
    injection Hv as -> -> -> -> -> -> -> ->. split; simpl; try done.
    + by rewrite Hid.
    + intros m Hm. destruct (limited (st c) _); [|done]. by rewrite lookup_delete_ne.
    + intros owner H. rewrite Hlim in H. done.
    + intros o. rewrite fresh_object by apply HB. naive_solver.
  - intros f t. rewrite How, Hlim. done.
Qed.

(** [b1] is the stored [b] with another visibility. *)
Lemma update_charge_Books ctx b b1 ib a q c x c1 c' u :
  UpdateBucketInfoAndCharge ctx b1 ib a q c = (Ret x, c1) ->
  (do! set_bucket x.1 ;; set_ib x.1 x.2) c1 = (Ret u, c') ->
  Books c -> stored_bucket c b -> internals (st c) !! b_Id b = Some ib ->
  bill_part b1 = bill_part b -> Books c'.
Proof.
  intros Hch Hset HB Hb Hib Hp1. unfold UpdateBucketInfoAndCharge in Hch. mstep Hch.
  destruct x as [b' ib']. apply ChargeViaBucketChange_Ret in Hch as (Hb' & Hib' & _ & S & P & _ & O).
  apply bind_Ret in Hset as (? & ? & ->%modify_Ret & ->%modify_Ret).
  destruct (Books_ib _ _ HB Hb) as (ib0 & Hib0 & Hok). rewrite Hib in Hib0. injection Hib0 as <-.
  assert (zero_ok ib) as Hz by (eapply ib_ok_zero; [exact Hok|apply HB]).
  pose proof Hp1 as [= Hi1 Hn1 Ho1 Hpa1 Hf1 Hq1]. simpl in Hb', Hib'.
  assert (b_BucketName b' = b_BucketName b) as Hnb by (by rewrite Hb').
  unfold IsBucketRateLimited in *. rewrite Hnb in *. fold (limited (st c) (b_BucketName b)) in *.
  eapply (Books_recharged c _ b b' ib ib'); try done; try (by rewrite Hb').
  - rewrite Hib'. split; [apply Hok|done].
  - simpl. rewrite S. assert (b_Id b' = b_Id b) as -> by (by rewrite Hb').
    destruct (limited _ _); done.
  - intros f t. change (owes c1 f t = owes c f t -
      by_payer (b_PaymentAddress b) (unless (limited (st c) (b_BucketName b)) (bill_rate (prices c) b ib)) f t +
      by_payer (b_PaymentAddress b') (bill_rate (prices c) b' ib') f t).
    rewrite O; [|done|by rewrite Hib']. rewrite Hpa1. unfold bill, by_payer, unless.
    destruct (decide (b_PaymentAddress b = f)); [|done]. by rewrite (bill_part_rate _ b b1).
Qed.

Lemma UpdateBucketInfo_Books ctx a n opts c u c' :
  UpdateBucketInfo ctx a n opts c = (Ret u, c') -> Books c -> Books c'.
Proof.
  intros Hrun HB. unfold UpdateBucketInfo in Hrun.
  apply found in Hrun as (b & Hb & Hbn & Hrun); [|done]. mstep Hrun. pass Hrun. mstep Hrun.
  pass Hrun. pass Hrun.
  set (b1 := if bool_decide _ then b else _) in Hrun.
  assert (bill_part b1 = bill_part b) as Hp1 by (unfold b1; by case_match).
  pass Hrun. apply bind_Ret in Hrun as (ib & c5 & Hib & Hrun).
  unfold MustGetInternalBucketInfo in Hib. msteps Hib.
  apply bind_Ret in Hrun as (x3 & c5 & Hch & Hrun).
  eapply (update_charge_Books ctx b b1); eauto. by injection Hp1 as <-.
Qed.

(** ** Rate limits *)

(** Charged again, under the new limit *)
Lemma charge_bucket_Books ctx b c c1 c' ib u v :
  charge_bucket ctx b (set_price_time (now ctx) ib) c = (Ret u, c1) ->
  deleteBucketFlowRateLimitStatus (b_BucketName b) c1 = (Ret v, c') ->
  Books c -> stored_bucket c b -> internals (st c) !! b_Id b = Some ib ->
  limited (st c) (b_BucketName b) = true -> Books c'.
Proof.
  intros Hch ->%modify_Ret HB Hb Hib Hlim. unfold charge_bucket in Hch.
  apply bind_Ret in Hch as (w & c0 & Hbill & Hch).
  destruct (Books_ib _ _ HB Hb) as (ib0 & Hib0 & Hok). rewrite Hib in Hib0. injection Hib0 as <-.
  set (ib1 := set_price_time _ _) in *.
  assert (zero_ok ib1) as Hz by (eapply (ib_ok_zero _ _ ib) in Hok; [exact Hok|apply HB]).
  pose proof (fun t => GetBucketReadStoreBill_Ret _ _ _ _ _ t Hbill Hz) as Hw.
  destruct (Hw 0) as (-> & Hfrom & _).
  apply bind_Ret in Hch as (? & c2 & [S P _ O]%apply_flows_Ret & ->%modify_Ret).
  eapply (Books_recharged c _ b b ib ib1); try done.
  - split; [apply Hok|done].
  - simpl. rewrite Hlim, S, SetBucketInfo_same by done. done.
  - intros f t. change (owes c2 f t = owes c f t -
      by_payer (b_PaymentAddress b) (unless (limited (st c) (b_BucketName b)) (bill_rate (prices c) b ib)) f t +
      by_payer (b_PaymentAddress b) (bill_rate (prices c) b ib1) f t).
    rewrite O, Hlim. rewrite (user_rate_bill _ _ _ (b_PaymentAddress b) (bill_rate (prices c) b ib1))
      by (done || apply Hw). unfold by_payer, unless. case_match; lia.
Qed.

(** Limited and charged no more; the limit itself is set after. *)
Lemma limit_bucket_Books ctx b a owner rate c c1 u :
  unChargeAndLimitBucket ctx b a (b_BucketName b) c = (Ret u, c1) ->
  Books c -> stored_bucket c b -> limited (st c) (b_BucketName b) = false ->
  b_PaymentAddress b = a -> Sdk.AccAddressFromHexUnsafe (b_Owner b) = Some owner ->
  Books (with_st (on_rate_limits (insert (a, owner, b_BucketName b) rate)) c1).
Proof.
  intros Hrun HB Hb Hlim Ha Ho. unfold unChargeAndLimitBucket in Hrun.
  apply bind_Ret in Hrun as (? & ? & ->%modify_Ret & Hrun).
  apply bind_Ret in Hrun as (ib & c2 & Hib & Hrun). unfold MustGetInternalBucketInfo in Hib.
  msteps Hib. simpl in Hx.
  destruct (Books_ib _ _ HB Hb) as (ib0 & Hib0 & Hok). rewrite Hx in Hib0. injection Hib0 as <-.
  apply unCharge_bucket_Ret in Hrun as [S P _ O]; [|eapply ib_ok_zero; [exact Hok|apply HB]].
  unfold Books. change (prices (with_st _ c1)) with (prices c1). rewrite P. simpl. rewrite S.
  eapply (Ledger_bucket _ (st c) _ _ _ b b ib ib); [exact HB| |exact Hx|apply quiet_refl, Hok|done..|].
  - split; simpl; try done.
    + by rewrite insert_id.
    + by rewrite insert_id.
    + intros m Hm. by rewrite lookup_insert_ne.
    + intros k Hk. rewrite lookup_insert_is_Some'. by right.
    + intros ow _ How. rewrite Ho in How. injection How as <-. rewrite Ha, lookup_insert_eq. by eexists.
    + intros o. rewrite fresh_object by apply HB. naive_solver.
  - intros f t. change (owes (with_st _ c1) f t) with (owes c1 f t).
    rewrite O, Hlim. unfold limited. simpl. rewrite lookup_insert_eq. simpl.
    change (owes (with_st _ c) f t) with (owes c f t). unfold by_payer, unless, bill. simpl.
    case_match; lia.
Qed.

Lemma limits_Books c k rate :
  Books c -> Books (with_st (on_rate_limits (insert k rate)) c).
Proof.
  intros HB. apply (Ledger_limits (prices c) (st c) (owes c)); [|exact HB].
  intros k'. rewrite lookup_insert_is_Some'. by right.
Qed.

Lemma setFlowRateLimit_Books ctx b a owner rate c c1 u :
  setFlowRateLimit ctx b a (b_BucketName b) rate c = (Ret u, c1) ->
  Books c -> stored_bucket c b -> b_PaymentAddress b = a ->
  Sdk.AccAddressFromHexUnsafe (b_Owner b) = Some owner ->
  Books (with_st (on_rate_limits (insert (a, owner, b_BucketName b) rate)) c1).
Proof.
  intros Hrun HB Hb Ha Ho. unfold setFlowRateLimit, owner_of in Hrun. msteps Hrun.
  assert (x = owner) as -> by congruence.
  destruct (bool_decide _); [apply ret_Ret in Hrun as [_ <-]; by apply limits_Books|].
  apply bind_Ret in Hrun as (ib & c2 & Hib & Hrun). unfold MustGetInternalBucketInfo in Hib. msteps Hib.
  destruct (bool_decide (is_Some _) && _) eqn:E.
  - apply andb_true_iff in E as [_ Hlim].
    apply bind_Ret in Hrun as (w & c2 & ->%bill_state & Hrun).
    destruct (_ <=? _); [|apply ret_Ret in Hrun as [_ <-]; by apply limits_Books].
    apply bind_Ret in Hrun as (? & c2 & Hch & Hdel). apply limits_Books.
    by eapply charge_bucket_Books.
  - assert (limited (st c) (b_BucketName b) = false) as Hlim.
    { destruct (limited (st c) (b_BucketName b)) eqn:El; [|done].
      pose proof (bk_limit _ (lg_buckets _ _ _ HB) _ _ _ Hb El Ho) as Hs. rewrite Ha in Hs.
      unfold getBucketFlowRateLimit in E. rewrite bool_decide_eq_true_2 in E by done.
      simpl in E. unfold IsBucketRateLimited in E. unfold limited in El. congruence. }
    apply bind_Ret in Hrun as (w & c2 & ->%bill_state & Hrun).
    destruct (_ <? _); [|apply ret_Ret in Hrun as [_ <-]; by apply limits_Books].
    by eapply limit_bucket_Books.
Qed.

Lemma SetBucketFlowRateLimit_Books ctx op owner a n rate c u c' :
  SetBucketFlowRateLimit ctx op owner a n rate c = (Ret u, c') -> Books c -> Books c'.
Proof.
  intros Hrun HB. unfold SetBucketFlowRateLimit in Hrun. msteps Hrun.
  apply bind_Ret in Hrun as (? & c1 & Hset & ->%modify_Ret).
  destruct (St_GetBucketInfo n c) as [b|] eqn:E;
    [|apply ret_Ret in Hset as [_ <-]; by apply limits_Books].
  destruct (_ || _) eqn:Eg; [apply ret_Ret in Hset as [_ <-]; by apply limits_Books|].
  apply orb_false_iff in Eg as [Ep Eo]. apply negb_false_iff, Z.eqb_eq in Ep.
  apply negb_false_iff, bool_decide_eq_true in Eo.
  assert (find_bucket n c = (Ret b, c)) as Hf by (unfold find_bucket; rewrite bind_get; by rewrite E).
  apply find_bucket_Ret in Hf as (_ & Hb & <-); [|done].
  eapply setFlowRateLimit_Books; eauto. rewrite Eo. apply AccAddressFromHex_String.
Qed.

(** ** Migration *)

Lemma keeps_core_world {A} (k : M (World (State B)) vg_error A) :
  keeps vg k -> keeps sps k -> keeps (fun w => out_flows (pay w)) k -> keeps (fun w => settings (pay w)) k ->
  keeps core (on_world k : CM A).
Proof.
  intros H1 H2 H3 H4 c. unfold on_world, zoom. specialize (H1 (wd c)). specialize (H2 (wd c)).
  specialize (H3 (wd c)). specialize (H4 (wd c)). destruct (k (wd c)) as [r w]. unfold settings in H4.
  simpl in *. injection H4 as H4 H5. unfold core, prices, chain_pay. simpl. by rewrite H1, H2, H3, H4, H5.
Qed.

Section Settle.
Context {X : Type} (f : State B -> X).
Hypothesis Hbank : forall k x, f (with_bank k x) = f x.
Hypothesis Hrecords : forall m x, f (with_records m x) = f x.
Hypothesis Hsettle : forall m x, f (with_settle m x) = f x.

Lemma keeps_on_pay {A} (k : M (State B) PaymentTypes.error A) :
  keeps f k -> keeps (fun w : World (State B) => f (pay w)) (on_pay k).
Proof. intros Hk w. unfold on_pay, zoom. specialize (Hk (pay w)). by destruct (k (pay w)). Qed.
Lemma keeps_settle_family (x : SpCtx) sp fam :
  keeps (fun w => f (pay w)) (SettleAndDistributeGVGFamily x sp fam).
Proof.
  unfold SettleAndDistributeGVGFamily. frame; apply keeps_on_pay; [by apply keeps_query|by apply keeps_withdraw].
Qed.
Lemma keeps_settle_gvg (x : SpCtx) g : keeps (fun w => f (pay w)) (SettleAndDistributeGVG x g).
Proof.
  assert (forall a n l, keeps (fun w => f (pay w)) (pay_secondaries x a n l)).
  { intros a n l. induction l; simpl; unfold FindStorageProvider; frame.
    apply keeps_on_pay. by apply keeps_withdraw. }
  unfold SettleAndDistributeGVG. frame; auto. apply keeps_on_pay. by apply keeps_query.
Qed.
End Settle.

Lemma keeps_core_settle_family (x : SpCtx) sp fam :
  keeps core (on_world (SettleAndDistributeGVGFamily x sp fam) : CM unit).
Proof.
  apply keeps_core_world; [apply keeps_vg_settle_family|apply keeps_sps_settle_family|..].
  all: by apply keeps_settle_family.
Qed.
Lemma keeps_core_settle_gvg (x : SpCtx) g : keeps core (on_world (SettleAndDistributeGVG x g) : CM unit).
Proof.
  apply keeps_core_world; [apply keeps_vg_settle_gvg|apply keeps_sps_settle_gvg|..].
  all: by apply keeps_settle_gvg.
Qed.
Lemma keeps_vg_settle_world (x : SpCtx) g :
  keeps (fun c => vg (wd c)) (on_world (SettleAndDistributeGVG x g) : CM unit).
Proof.
  intros c. unfold on_world, zoom. pose proof (keeps_vg_settle_gvg x g (wd c)) as H.
  by destruct (SettleAndDistributeGVG x g (wd c)).
Qed.

(** The same local group on another global one *)
Definition moved (l l' : LocalVirtualGroup) : Prop :=
  lvg_Id l' = lvg_Id l /\ lvg_TotalChargeSize l' = lvg_TotalChargeSize l.

Lemma moved_same_bytes ib ls :
  sorted_groups ib -> Forall2 moved (LocalVirtualGroups ib) ls ->
  same_bytes ib (on_lvgs (fun _ => ls) ib).
Proof.
  intros Hs Hm. split; [|split; [|done]].
  - simpl. unfold sorted_groups in Hs. replace (lvg_Id <$> ls) with (lvg_Id <$> LocalVirtualGroups ib); [done|].
    clear Hs. induction Hm as [|l l' ls1 ls2 [Hi _] _ IH]; [done|]. rewrite !fmap_cons. congruence.
  - intros k. unfold lvg_bytes, GetLVG. simpl. clear Hs.
    induction Hm as [|l l' ls1 ls2 [Hi Hc] _ IH]; [done|]. simpl. unfold is_lvg at 1 3.
    rewrite Hi. case_match; [simpl; by rewrite Hc|done].
Qed.

Lemma rebind_lvg_Ret ctx maps lvg c lvg' c' :
  rebind_lvg ctx maps lvg c = (Ret lvg', c') ->
  (forall k i, group_keys (prices c) !! k = Some i -> i = k) -> same c c' /\ moved lvg lvg'.
Proof.
  intros Hrun HG. unfold rebind_lvg, get_gvg in Hrun. mstep Hrun.
  apply bind_Ret in Hrun as (dst & c1 & Hd & Hrun). msteps Hd.
  apply bind_Ret in Hrun as (src & c1 & Hs & Hrun). msteps Hs.
  apply bind_Ret in Hrun as (? & c1 & Hset%on_err_fail_Ret & Hrun).
  pose proof (keeps_run _ _ _ _ _ (keeps_vg_settle_world _ _) Hset) as Hvg. simpl in Hvg.
  apply (keeps_same _ _ _ _ (keeps_core_settle_gvg _ _)) in Hset.
  apply bind_Ret in Hrun as (? & c2 & H1 & Hrun).
  eapply set_gvg_same in H1 as (S1 & _ & _ & G1);
    [|by rewrite (sm_prices _ _ Hset)|by rewrite Hvg|done|done].
  assert (exists g, GetGVG x (vg (wd c2)) = Some g /\ group_account g = group_account dst /\
            gvg_Id g = gvg_Id dst) as (g & Hg & Ha & Hid).
  { unfold GetGVG in *. rewrite G1, Hvg. destruct (decide (lvg_GvgId lvg = x)) as [<-|].
    - rewrite lookup_insert_eq. eexists. split; [done|]. rewrite Hx0 in Hx1. by injection Hx1 as <-.
    - rewrite lookup_insert_ne by done. eauto. }
  apply bind_Ret in Hrun as (? & c3 & H2 & [<- <-]%ret_Ret).
  eapply set_gvg_same in H2 as (S2 & _);
    [|by rewrite (sm_prices _ _ S1), (sm_prices _ _ Hset)|exact Hg|by rewrite Ha|by rewrite Hid].
  split; [|done]. eauto using same_trans.
Qed.

Lemma rebind_lvgs_Ret ctx maps ls c ls' c' :
  rebind_lvgs ctx maps ls c = (Ret ls', c') ->
  (forall k i, group_keys (prices c) !! k = Some i -> i = k) -> same c c' /\ Forall2 moved ls ls'.
Proof.
  revert c ls'. induction ls as [|l ls IH]; simpl; intros c ls' Hrun HG.
  { apply ret_Ret in Hrun as [<- <-]. split; [apply same_refl|constructor]. }
  apply bind_Ret in Hrun as (l' & c1 & Hl & Hrun). apply rebind_lvg_Ret in Hl as [S1 M1]; [|done].
  apply bind_Ret in Hrun as (more & c2 & Hls & [<- <-]%ret_Ret).
  apply IH in Hls as [S2 M2]; [|by rewrite (sm_prices _ _ S1)].
  split; [by eapply same_trans|by constructor].
Qed.

(** Charged for its new family and groups *)
Lemma RebindingVirtualGroup_Ret ctx b n s ib maps c u c' :
  RebindingVirtualGroup ctx b ib maps c = (Ret u, c') ->
  (forall k i, group_keys (prices c) !! k = Some i -> i = k) -> ib_ok n s ib -> objects_ok s ->
  exists ib', same_bytes ib ib' /\ limited (st c) (b_BucketName b) = false /\
    st c' = SetInternalBucketInfo (b_Id b) ib' (st c) /\ prices c' = prices c /\
    forall f t, owes c' f t = owes c f t + by_payer (b_PaymentAddress b) (bill_rate (prices c) b ib') f t.
Proof.
  intros Hrun HG Hok HO. unfold RebindingVirtualGroup in Hrun.
  apply bind_Ret in Hrun as (ls & c1 & Hls & Hrun). apply rebind_lvgs_Ret in Hls as [[S1 P1 O1] Hm]; [|done].
  pose proof (moved_same_bytes _ _ (io_sorted _ _ _ Hok) Hm) as Hsame.
  apply bind_Ret in Hrun as (ib' & c2 & Hch%on_err_fail_Ret & ->%modify_Ret).
  apply ChargeBucketReadStoreFee_Ret in Hch as (-> & Hlim & [S2 P2 _ O2]);
    [|eapply ib_ok_zero; [by eapply ib_ok_same|done]].
  unfold IsBucketRateLimited in Hlim. rewrite S1 in Hlim.
  exists (set_price_time (now ctx) (on_lvgs (fun _ => ls) ib)).
  split; [exact Hsame|]. split; [exact Hlim|]. split_and!.
  - simpl. by rewrite S2, S1.
  - change (prices c2 = prices c). congruence.
  - intros f t. unfold bill in O2. rewrite P1 in O2. change (owes (with_st _ c2) f t) with (owes c2 f t).
    rewrite O2, O1. done.
Qed.

Lemma CompleteMigrateBucket_Books ctx a n fam maps c u c' :
  CompleteMigrateBucket ctx a n fam maps c = (Ret u, c') -> Books c -> Books c'.
Proof.
  intros Hrun HB. unfold CompleteMigrateBucket in Hrun.
  apply found in Hrun as (b & Hb & Hbn & Hrun); [|done]. mstep Hrun. mstep Hrun. pass Hrun.
  do 3 mstep Hrun. pass Hrun. pass Hrun.
  apply bind_Ret in Hrun as (? & c3 & Hset%on_err_fail_Ret & Hrun).
  pose proof (keeps_run _ _ _ _ _ (keeps_seen_core _ (keeps_core_settle_family _ _ _)) Hset) as E'.
  rebase E'. apply bind_Ret in Hrun as (ib & c4 & Hib & Hrun).
  unfold MustGetInternalBucketInfo in Hib. msteps Hib.
  destruct (Books_ib _ _ HB Hb) as (ib0 & Hib0 & Hok).
  assert (ib0 = ib) as -> by congruence. assert (objects_ok (st c3)) as HO by apply HB.
  apply bind_Ret in Hrun as (? & c4 & Hun%on_err_fail_Ret & Hrun).
  apply UnChargeBucketReadStoreFee_Ret in Hun as [S4 P4 _ O4]; [|by eapply ib_ok_zero].
  apply bind_Ret in Hrun as (? & c5 & Hver%on_err_fail_Ret & Hrun).
  apply (keeps_run (fun c => c) _ _ _ _ (keeps_verify_gvgs _ _ _ _)) in Hver as ->.
  apply bind_Ret in Hrun as (? & c5 & Hre%on_err_fail_Ret & Hrun).
  eapply RebindingVirtualGroup_Ret in Hre as (ib' & Hsame & Hlim & S5 & P5 & O5);
    [|rewrite P4; apply HB|exact Hok|exact HO].
  unfold end_migration in Hrun. apply bind_Ret in Hrun as (? & ? & ->%modify_Ret & ->%modify_Ret).
  simpl in Hlim. rewrite S4 in Hlim.
  eapply (Books_recharged c3 _ b (set_b_status BUCKET_STATUS_CREATED (set_b_family fam b)) ib ib'); try done.
  - simpl. rewrite S5, S4, Hlim. done.
  - change (prices c5 = prices c3). congruence.
  - intros f t. change (owes c5 f t = owes c3 f t -
      by_payer (b_PaymentAddress b) (unless (limited (st c3) (b_BucketName b)) (bill_rate (prices c3) b ib)) f t +
      by_payer (b_PaymentAddress b) (bill_rate (prices c3) (set_b_family fam b) ib') f t).
    rewrite O5, O4, P4. simpl. unfold IsBucketRateLimited. fold (limited (st c3) (b_BucketName b)).
    rewrite Hlim. unfold bill, by_payer, unless. case_match; lia.
Qed.

(** ** Creating a bucket *)

Lemma GenNextBucketId_Ret c id c1 :
  GenNextBucketId c = (Ret id, c1) -> 0 <= CurVal Uint256 (bucketSeq (st c)) < 2 ^ 256 ->
  exists cell, c1 = with_st (set_bucketSeq (Some cell)) c /\
    CurVal Uint256 (bucketSeq (st c)) < id <= CurVal Uint256 (Some cell) /\
    CurVal Uint256 (Some cell) < 2 ^ 256.
Proof.
  unfold GenNextBucketId. intros Hrun HB. rewrite bind_get in Hrun.
  apply bind_Ret in Hrun as (x & ? & [Hx ->]%must_Ret & Hrun).
  apply bind_Ret in Hrun as (? & ? & ->%modify_Ret & [<- <-]%ret_Ret).
  apply next_val in Hx as (H1 & H2 & H3); [|done]. exists x.2. split; [done|]. lia.
Qed.

Lemma keeps_seen_family id : keeps seen (on_world (GetAndCheckGVGFamilyAvailableForNewBucket id) : CM _).
Proof.
  apply keeps_seen_core, keeps_core_world; unfold GetAndCheckGVGFamilyAvailableForNewBucket; frame.
Qed.
#[local] Hint Resolve keeps_seen_family : frames.

(** The bucket is charged for its quota, then stored. *)
Lemma new_bucket_Books ctx b owner c ib c1 id c' u :
  ChargeBucketReadFee ctx b (mkInternal (now ctx) 0 []) c = (Ret ib, c1) ->
  (let! id := GenNextBucketId in
   do! on_st (on_res (on_bucket_ids (insert (b_BucketName b) id))) ;;
   do! set_bucket (set_b_id id b) ;;
   do! on_st (SetInternalBucketInfo id ib) ;;
   do! CallEVM (MintBucket (b_Owner b) id) ;;
   do! on_st (IncrementBucketCount owner) ;;
   ret id) c1 = (Ret u, c') ->
  Books c -> bucket_ids (res (st c)) !! b_BucketName b = None -> id = u -> Books c'.
Proof.
  intros Hch Hrun HB Hfree ->. apply ChargeBucketReadFee_Ret in Hch as (Ht & Hl & [S P _ O]); [|constructor].
  apply bind_Ret in Hrun as (id & c2 & Hgen & Hrun).
  apply GenNextBucketId_Ret in Hgen as (cell & -> & Hnew & Hmax); [|rewrite S; apply HB].
  do 3 apply bind_Ret in Hrun as (? & ? & ->%modify_Ret & Hrun).
  apply bind_Ret in Hrun as (? & c3 & Hev & Hrun).
  apply (keeps_same _ _ _ _ (keeps_core_evm _)) in Hev as [S3 P3 O3].
  apply bind_Ret in Hrun as (? & ? & ->%modify_Ret & [_ <-]%ret_Ret).
  unfold Books. change (prices (with_st _ c3)) with (prices c3). rewrite P3.
  change (prices (with_st _ _)) with (prices c1). rewrite P.
  eapply (Ledger_add _ (st c) _ _ _ id (set_b_id id b) ib); [exact HB| |].
  - rewrite S in Hnew. split; simpl; rewrite ?S3; simpl; rewrite ?S; done.
  - intros f t. change (owes (with_st _ c3) f t) with (owes c3 f t). rewrite O3.
    change (owes (with_st _ _) f t) with (owes c1 f t). rewrite O. done.
Qed.

Lemma CreateBucket_Books ctx owner n sp opts c id c' :
  CreateBucket ctx owner n sp opts c = (Ret id, c') -> Books c -> Books c'.
Proof.
  intros Hrun HB. unfold CreateBucket in Hrun. do 3 mstep Hrun. pass Hrun. do 2 mstep Hrun. pass Hrun.
  mstep Hrun. pass Hrun. pass Hrun. apply bind_Ret in Hrun as (ib & c5 & Hch & Hrun).
  eapply new_bucket_Books; [exact Hch|exact Hrun|exact HB| |done].
  simpl. apply bool_decide_eq_false in Hx0. rewrite <- eq_None_not_Some in Hx0.
  repeat match goal with E : seen _ = seen _ |- _ => rewrite (seen_res _ _ E); clear E end. done.
Qed.

(** ** Deleting a bucket *)

Lemma doDeleteBucket_Ret b c u c' :
  doDeleteBucket b c = (Ret u, c') ->
  ledger_view (st c') = ledger_view (on_limit_status (delete (b_BucketName b)) (on_internals (delete (b_Id b))
    (on_res (on_buckets (delete (b_Id b))) (on_res (on_bucket_ids (delete (b_BucketName b))) (st c))))) /\
  prices c' = prices c /\ forall f t, owes c' f t = owes c f t.
Proof.
  unfold doDeleteBucket. intros Hrun. do 6 apply bind_Ret in Hrun as (? & ? & ->%modify_Ret & Hrun).
  apply bind_Ret in Hrun as (? & c1 & Hgc & Hrun).
  apply (keeps_same _ _ _ _ (keeps_core_gc _)) in Hgc as [S1 P1 O1].
  apply bind_Ret in Hrun as (? & ? & ->%modify_Ret & Hrun).
  apply bind_Ret in Hrun as (? & c2 & Hev & Hrun).
  apply (keeps_same _ _ _ _ (keeps_core_evm _)) in Hev as [S2 P2 O2].
  apply bind_Ret in Hrun as (? & c3 & Hown & ->%modify_Ret).
  apply (keeps_run (fun c => c) _ _ _ _ (keeps_owner_of _ _)) in Hown as ->.
  split_and!.
  - simpl. unfold DecrementBucketCount. rewrite S2. simpl. rewrite S1. simpl. case_match; done.
  - change (prices c2 = prices c). rewrite P2. exact P1.
  - intros f t. change (owes c2 f t = owes c f t). rewrite O2. exact (O1 f t).
Qed.

(** Given up for its quota, then deleted; it has no object. *)
Lemma delete_empty_Books ctx b ib c c1 u v c' :
  UnChargeBucketReadFee ctx b ib c = (Ret u, c1) -> doDeleteBucket b c1 = (Ret v, c') ->
  Books c -> stored_bucket c b -> internals (st c) !! b_Id b = Some ib ->
  (forall k o, objects (res (st c)) !! k = Some o -> ob_BucketName o <> b_BucketName b) -> Books c'.
Proof.
  intros Hun Hdel HB Hb Hib Hno.
  destruct (Books_ib _ _ HB Hb) as (ib0 & Hib0 & Hok). assert (ib0 = ib) as -> by congruence.
  destruct (no_objects_bytes _ _ Hno) as [H0 _].
  apply UnChargeBucketReadFee_Ret in Hun as [S1 P1 _ O1].
  2: { eapply (ib_ok_zero _ _ ib); [exact Hok|apply HB|]. by rewrite (io_total _ _ _ Hok). }
  apply doDeleteBucket_Ret in Hdel as (V & P & O). rewrite S1 in V.
  unfold Books. rewrite P, P1.
  eapply (Ledger_gone _ (st c) _ _ _ (b_Id b) b ib); [exact HB| |exact Hib|].
  - destruct (st c'). unfold ledger_view in V. simpl in V. injection V as -> -> -> -> -> -> -> ->.
    split; done.
  - intros f t. rewrite O, O1. unfold IsBucketRateLimited. fold (limited (st c) (b_BucketName b)).
    unfold by_payer, unless, bill. repeat case_match; lia.
Qed.

Lemma empty_names c n :
  Books c -> (forall m, object_ids (res (st c)) !! (n, m) = None) ->
  forall k o, objects (res (st c)) !! k = Some o -> ob_BucketName o <> n.
Proof.
  intros HB Hno k o Hk <-. destruct (oj_id _ (lg_objects _ _ _ HB) _ _ Hk) as (_ & Hn & _).
  by rewrite Hno in Hn.
Qed.

Lemma DeleteBucket_Books ctx a n src c u c' :
  DeleteBucket ctx a n src c = (Ret u, c') -> Books c -> Books c'.
Proof.
  intros Hrun HB. unfold DeleteBucket in Hrun.
  apply found in Hrun as (b & Hb & Hbn & Hrun); [|done]. mstep Hrun. pass Hrun. do 2 mstep Hrun.
  apply bind_Ret in Hrun as (ib & c1 & Hib & Hrun). unfold MustGetInternalBucketInfo in Hib. msteps Hib.
  mstep Hrun. apply bind_Ret in Hrun as (? & c1 & Hun%on_err_fail_Ret & Hdel).
  eapply delete_empty_Books; eauto. apply empty_names; [done|]. intros m.
  unfold isNonEmptyBucket in Hx0. apply negb_false_iff, bool_decide_eq_true in Hx0.
  rewrite Hbn. destruct (object_ids _ !! _) as [id|] eqn:En; [|done].
  assert (objects_of n (st c0) !! (n, m) = Some id) as Hf by (by apply map_lookup_filter_Some).
  by rewrite Hx0 in Hf.
Qed.

(** ** Forced deletion of a bucket *)

(** [ids] are the objects of the bucket [n]. *)
Definition listed c (n : string) (ids : list Z) : Prop :=
  NoDup ids /\ forall id, id ∈ ids <-> exists m, object_ids (res (st c)) !! (n, m) = Some id.

Lemma bucket_objects_listed c n : Books c -> listed c n (bucket_objects n (st c)).
Proof.
  intros HB. unfold bucket_objects. split.
  - apply NoDup_fmap_2_strong; [|eapply NoDup_fmap_1, iterate_NoDup].
    intros [k1 i1] [k2 i2] H1 H2. simpl. intros <-.
    apply elem_of_iterate, map_lookup_filter_Some in H1 as [H1 _].
    apply elem_of_iterate, map_lookup_filter_Some in H2 as [H2 _].
    apply (oj_name _ (lg_objects _ _ _ HB)) in H1 as (o1 & Ho1 & <-).
    apply (oj_name _ (lg_objects _ _ _ HB)) in H2 as (o2 & Ho2 & <-). congruence.
  - intros id. rewrite list_elem_of_fmap. split.
    + intros ([[n' m] i] & -> & [H1 H2]%elem_of_iterate%map_lookup_filter_Some). simpl in *. subst. eauto.
    + intros [m Hm]. exists ((n, m), id). split; [done|].
      by apply elem_of_iterate, map_lookup_filter_Some.
Qed.

(** One object of the bucket, discontinued or not *)
Definition force_one ctx b id : CM unit :=
  let! c := get in
  let! o := must (GetObjectInfoById id c) in
  let! status :=
    (if status_is OBJECT_STATUS_DISCONTINUED o
     then getAndDeleteDiscontinueObjectStatus (ob_Id o) else ret (ob_ObjectStatus o)) in
  do! release ctx b o status ;;
  doDeleteObject b o status.

Lemma force_one_Books ctx b id c u c' :
  force_one ctx b id c = (Ret u, c') -> Books c -> stored_bucket c b ->
  (exists m, object_ids (res (st c)) !! (b_BucketName b, m) = Some id) ->
  Books c' /\ exists o ib', ob_Id o = id /\ stored_object c o /\ ob_BucketName o = b_BucketName b /\
    object_gone (st c) (st c') b o ib'.
Proof.
  intros Hrun HB Hb [m Hm]. unfold force_one in Hrun. rewrite bind_get in Hrun. mstep Hrun. rename x into o.
  apply (oj_name _ (lg_objects _ _ _ HB)) in Hm as (o1 & Ho1 & [= Hn _]).
  unfold GetObjectInfoById in Hx. assert (o1 = o) as -> by congruence.
  destruct (oj_id _ (lg_objects _ _ _ HB) _ _ Hx) as [Hid _].
  assert (stored_object c o) as Ho by (unfold stored_object; by rewrite Hid).
  apply bind_Ret in Hrun as (status & c1 & Hst & Hrun).
  assert (exists g, noted c c1 g /\ (forall m k, k <> ob_Id o -> g m !! k = m !! k) /\
    g (disc_statuses (st c)) !! ob_Id o = None /\ status_of (st c) o = Some status)
    as (g & Hnt & Hg & Hgi & Hs).
  { destruct (status_is OBJECT_STATUS_DISCONTINUED o) eqn:E; unfold status_is in E.
    - apply bool_decide_eq_true in E. unfold getAndDeleteDiscontinueObjectStatus in Hst.
      rewrite bind_get in Hst. apply bind_Ret in Hst as (v & ? & [Hv ->]%or_fail_Ret & Hst).
      apply bind_Ret in Hst as (? & ? & ->%modify_Ret & [<- <-]%ret_Ret).
      exists (delete (ob_Id o)). split_and!; [done| |apply lookup_delete_eq|].
      + intros m0 k Hk. by rewrite lookup_delete_ne.
      + unfold status_of. by rewrite E.
    - apply bool_decide_eq_false in E. apply ret_Ret in Hst as [<- <-].
      exists (fun m => m). split_and!; [apply noted_refl|done|by apply no_status|].
      unfold status_of. by destruct (ob_ObjectStatus o). }
  apply bind_Ret in Hrun as (? & c2 & Hrel & Hrun).
  eapply release_Ret in Hrel as (ib & ib1 & Hr); eauto.
  destruct (finish_delete c c2 b o status ib ib1 g u c') as [HB' [ib' Hgone]]; try done. eauto 8.
Qed.

Lemma listed_next c c' b id ids o ib' :
  Books c -> listed c (b_BucketName b) (id :: ids) -> stored_object c o -> ob_Id o = id ->
  ob_BucketName o = b_BucketName b -> object_gone (st c) (st c') b o ib' ->
  listed c' (b_BucketName b) ids.
Proof.
  intros HB [Hnd Hl] Ho Hid Hn Hg. apply NoDup_cons in Hnd as [Hni Hnd]. split; [done|]. intros k.
  rewrite (og_ids _ _ _ _ _ Hg). split.
  - intros Hk. destruct (proj1 (Hl k)) as [m Hm]; [by right|]. exists m.
    rewrite lookup_delete_ne; [done|]. intros Heq.
    destruct (oj_id _ (lg_objects _ _ _ HB) _ _ Ho) as (_ & Hnm & _).
    rewrite <- Heq in Hm. rewrite Hnm in Hm. injection Hm as <-. congruence.
  - intros (m & [Hne Hm]%lookup_delete_Some).
    assert (k ∈ id :: ids) as [->|Hk]%elem_of_cons by (apply Hl; eauto); [|done].
    destruct (oj_name _ (lg_objects _ _ _ HB) _ _ Hm) as (o1 & Ho1 & Hn1).
    unfold stored_object in Ho. rewrite Hid, Ho1 in Ho. injection Ho as ->. done.
Qed.

Lemma force_objects_step ctx b cap id ids d c x c' :
  force_objects ctx b cap (id :: ids) d c = (Ret x, c') ->
  (x = (d, false) /\ c' = c) \/
  exists c1, force_one ctx b id c = (Ret tt, c1) /\ force_objects ctx b cap ids (d + 1) c1 = (Ret x, c').
Proof.
  simpl. destruct (cap <=? d); [intros [<- <-]%ret_Ret; by left|]. intros Hrun. right.
  rewrite bind_get in Hrun. apply bind_Ret in Hrun as (o & ? & [Ho ->]%must_Ret & Hrun).
  apply bind_Ret in Hrun as (status & c1 & Hst & Hrun).
  apply bind_Ret in Hrun as ([] & c2 & Hrel & Hrun).
  apply bind_Ret in Hrun as ([] & c3 & Hdel & Hrun). exists c3. split; [|done].
  unfold force_one. rewrite bind_get, Ho. unfold must at 1. rewrite (bind_run _ _ c o c) by done.
  by rewrite (bind_run _ _ _ _ _ Hst), (bind_run _ _ _ _ _ Hrel).
Qed.

Lemma force_objects_Books ctx b cap ids d c x c' :
  force_objects ctx b cap ids d c = (Ret x, c') -> Books c -> stored_bucket c b ->
  listed c (b_BucketName b) ids ->
  Books c' /\ stored_bucket c' b /\ (x.2 = true -> listed c' (b_BucketName b) []).
Proof.
  revert c d. induction ids as [|id ids IH]; intros c d Hrun HB Hb Hl.
  { apply ret_Ret in Hrun as [<- <-]. done. }
  apply force_objects_step in Hrun as [[-> ->]|(c1 & Hone & Hrun)]; [done|].
  eapply force_one_Books in Hone as (HB1 & o & ib' & Hid & Ho & Hn & Hg); [|done|done|].
  - eapply IH; [exact Hrun|exact HB1| |by eapply (listed_next c c1 b id ids o ib')].
    unfold stored_bucket. pose proof (f_equal (fun x => x.1.1.1.1) (og_bucket _ _ _ _ _ Hg)) as Hbk.
    unfold bucket_part in Hbk. simpl in Hbk. by rewrite Hbk.
  - apply Hl. by left.
Qed.

Lemma ForceDeleteBucket_Books ctx id cap c x c' :
  ForceDeleteBucket ctx id cap c = (Ret x, c') -> Books c -> Books c'.
Proof.
  intros Hrun HB. unfold ForceDeleteBucket in Hrun. rewrite bind_get in Hrun.
  destruct (GetBucketInfoById id c) as [b|] eqn:Eb; [|by apply ret_Ret in Hrun as [_ <-]].
  assert (stored_bucket c b) as Hb.
  { unfold stored_bucket, GetBucketInfoById in *. by destruct (bk_id _ (lg_buckets _ _ _ HB) _ _ Eb) as [-> _]. }
  apply bind_Ret in Hrun as (sp & c1 & Hsp & Hrun).
  apply (keeps_run (fun c => c) _ _ _ _ (keeps_primary _ _)) in Hsp as ->.
  apply bind_Ret in Hrun as ([d all] & c1 & Hf & Hrun).
  apply force_objects_Books in Hf as (HB1 & Hb1 & Hl); [|done|done|by apply bucket_objects_listed].
  destruct all; [|by apply ret_Ret in Hrun as [_ <-]]. simpl in Hrun, Hl. specialize (Hl eq_refl).
  apply bind_Ret in Hrun as (ib & c2 & Hib & Hrun). unfold MustGetInternalBucketInfo in Hib. msteps Hib.
  apply bind_Ret in Hrun as (? & c2 & Hun & Hrun).
  apply bind_Ret in Hrun as (? & c3 & Hdel & [_ <-]%ret_Ret).
  eapply delete_empty_Books; eauto. apply empty_names; [done|]. intros m.
  destruct (object_ids _ !! _) as [i|] eqn:E; [|done]. destruct Hl as [_ Hl].
  assert (i ∈ @nil Z) as Hi by (apply Hl; eauto). by apply not_elem_of_nil in Hi.
Qed.

(** ** The start and the end of a block *)

Lemma delete_object_ids_Books ctx max ids d c x c' :
  delete_object_ids ctx max ids d c = (Ret x, c') -> Books c -> Books c'.
Proof.
  revert c d. induction ids as [|id ids IH]; simpl; intros c d Hrun HB.
  { by apply ret_Ret in Hrun as [_ <-]. }
  destruct (max <=? d); [by apply ret_Ret in Hrun as [_ <-]|].
  apply bind_Ret in Hrun as (? & c1 & Hf & Hrun). eapply IH; [exact Hrun|].
  by eapply ForceDeleteObject_Books.
Qed.

Lemma delete_bucket_ids_Books ctx max ids d c x c' :
  delete_bucket_ids ctx max ids d c = (Ret x, c') -> Books c -> Books c'.
Proof.
  revert c d x. induction ids as [|id ids IH]; simpl; intros c d x Hrun HB.
  { by apply ret_Ret in Hrun as [_ <-]. }
  destruct (max <=? d); [by apply ret_Ret in Hrun as [_ <-]|].
  apply bind_Ret in Hrun as (y & c1 & Hf & Hrun). apply ForceDeleteBucket_Books in Hf; [|done].
  apply bind_Ret in Hrun as (z & c2 & Hr & [_ <-]%ret_Ret). by eapply IH.
Qed.

Lemma until_Books step put max l d c x c' :
  (forall max ids d c x c', step max ids d c = (Ret x, c') -> Books c -> Books c') ->
  (forall k ids s, ledger_view (put k ids s) = ledger_view s) ->
  until step put max l d c = (Ret x, c') -> Books c -> Books c'.
Proof.
  intros Hstep Hput. revert c d. induction l as [|[k ids] l IH]; simpl; intros c d Hrun HB.
  { by apply ret_Ret in Hrun as [_ <-]. }
  destruct (max <=? d); [by apply ret_Ret in Hrun as [_ <-]|].
  apply bind_Ret in Hrun as (y & c1 & Hs & Hrun). apply Hstep in Hs; [|done].
  apply bind_Ret in Hrun as (? & ? & ->%modify_Ret & Hrun). eapply IH; [exact Hrun|].
  eapply Books_seen, Hs. unfold seen. simpl. by rewrite Hput.
Qed.

Lemma BeginBlocker_Books ctx c u c' : BeginBlocker ctx c = (Ret u, c') -> Books c -> Books c'.
Proof.
  intros Hrun HB. unfold BeginBlocker in Hrun. rewrite bind_get in Hrun.
  destruct (_ && _); [apply modify_Ret in Hrun as ->|by apply ret_Ret in Hrun as [_ <-]].
  by eapply Books_seen; [|exact HB].
Qed.

(** The check of the payments only reads. *)
Lemma keeps_RunPaymentCheck {X} (f : Chain B N -> X) : keeps f (RunPaymentCheck : CM unit).
Proof.
  assert (forall b ids, keeps f (expected_locks b ids)) as Hl.
  { intros b ids. induction ids; simpl; unfold locked_content; frame; apply keeps_lock_fee. }
  assert (forall b e, keeps f (check_bucket_payment b e)) as Hp.
  { intros b e. unfold check_bucket_payment, or_none. frame; auto. apply keeps_bill. }
  assert (forall l e, keeps f (check_buckets l e)) as Hb by (intros l; induction l; simpl; intros; frame; auto).
  unfold RunPaymentCheck. frame.
Qed.

#[local] Hint Resolve keeps_RunPaymentCheck : frames.

Lemma EndBlocker_Books cfg ctx c u c' : EndBlocker cfg ctx c = (Ret u, c') -> Books c -> Books c'.
Proof.
  intros Hrun HB. unfold EndBlocker in Hrun. rewrite bind_get in Hrun.
  destruct (_ =? 0); [by apply ret_Ret in Hrun as [_ <-]|].
  apply bind_Ret in Hrun as (d & c1 & Ho%on_err_panic_Ret & Hrun).
  unfold DeleteDiscontinueObjectsUntil in Ho. rewrite bind_get in Ho.
  apply until_Books in Ho; [|intros; by eapply delete_object_ids_Books|done|done].
  destruct (_ <=? d); [by apply ret_Ret in Hrun as [_ <-]|].
  apply bind_Ret in Hrun as (? & c2 & Hb & Hrun).
  assert (Books c2) as HB2.
  { destruct (_ && _); [by apply ret_Ret in Hb as [_ <-]|].
    apply bind_Ret in Hb as (? & c3 & Hb%on_err_panic_Ret & [_ <-]%ret_Ret).
    unfold DeleteDiscontinueBucketsUntil in Hb. rewrite bind_get in Hb.
    eapply until_Books in Hb; [done|intros; by eapply delete_bucket_ids_Books|done|done]. }
  pass Hrun. pass Hrun. eapply Books_seen; [|exact HB2]. eapply (keeps_run seen), Hrun.
  unfold or_panic. frame.
Qed.

End Buckets.
