(* ===== verification/StorageTheorems.v ===== *)
(** * x/storage: properties

    The ledger of the module over every sequence of operations, the charging
    of one object against the whole bill, and what a copy over an existing
    object leaves behind, each with a witness on a small chain: three
    providers, a group of them, and a user who creates a bucket. *)

From S2P Require Import PermissionTheorems.
From S2P Require Import Prelude Sdk Bytes StorageTypes Grn Permission PermissionKeeper.
From S2P Require Import StoragePermission StorageGC FeeMarket.
From S2P Require Import SpTypes SpKeeper VirtualGroupTypes VirtualGroupKeeper VirtualGroupFacts.
From S2P Require Import VirtualGroupPayment VirtualGroupTheorems.
From S2P Require Import PaymentTypes PaymentStore PaymentStream PaymentFlows PaymentInstance.
From S2P Require Import PaymentFlowsFacts PaymentBooks PaymentPaid.
From S2P Require Import StorageStore StorageCharge StorageGroups StorageObjects StorageBuckets.
From S2P Require Import StorageCheck StorageBills StorageLedger StorageRuns StorageBucketRuns.

(** ** The operations of the module *)

Inductive storage_op : Type :=
| OpCreateBucket (owner : Addr) (bucketName : string) (primarySp : Addr) (opts : CreateBucketOptions)
| OpDeleteBucket (operator : Addr) (bucketName : string) (sourceType : SourceType)
| OpUpdateBucketInfo (operator : Addr) (bucketName : string) (opts : UpdateBucketOptions)
| OpToggleAgent (operator : string) (bucketName : string)
| OpDiscontinueBucket (operator : Addr) (bucketName : string)
| OpMigrateBucket (operator : Addr) (bucketName : string) (dstSp : Z) (approval : Approval) (bytes : list Z)
| OpCompleteMigrateBucket (operator : Addr) (bucketName : string) (familyID : Z) (mappings : list GVGMapping)
| OpCancelMigration (operator : Addr) (bucketName : string)
| OpRejectMigration (operator : Addr) (bucketName : string)
| OpSetBucketFlowRateLimit (operator owner paymentAccount : Addr) (bucketName : string) (rate : Z)
| OpCreateObject (operator : Addr) (bucketName objectName : string) (payloadSize : Z) (opts : CreateObjectOptions)
| OpCopyObject (operator : Addr) (srcBucket srcObject dstBucket dstObject : string) (opts : CopyObjectOptions)
| OpSealObject (sealAcc : Addr) (bucketName objectName : string) (opts : SealObjectOptions)
| OpCancelCreateObject (operator : Addr) (bucketName objectName : string) (sourceType : SourceType)
| OpRejectSealObject (operator : Addr) (bucketName objectName : string)
| OpUpdateObjectContent (operator : Addr) (bucketName objectName : string) (payloadSize : Z)
    (opts : UpdateObjectOptions)
| OpCancelUpdate (operator : Addr) (bucketName objectName : string)
| OpUpdateObjectInfo (operator : Addr) (bucketName objectName : string) (visibility : VisibilityType)
| OpDeleteObject (operator : Addr) (bucketName objectName : string) (sourceType : SourceType)
| OpDiscontinueObject (operator : Addr) (bucketName : string) (objectIDs : list Z)
| OpBeginBlock
| OpEndBlock (cfg : CheckConfig).

Section Theorems.
Context {B N : Type} {HBank : BankKeeper B} {HAddr : Addresses} {HAddrLaws : AddressLaws}
  {HCrypto : StorageCrypto} {HNft : NftContracts N} {HUint : UintText} {HRegexps : Regexps}.
Abbreviation CM := (M (Chain B N) storage_error).
Implicit Types (c : Chain B N) (ctx : StorageCtx).

Definition exec ctx (op : storage_op) : CM unit :=
  match op with
  | OpCreateBucket a n sp opts => do! CreateBucket ctx a n sp opts ;; ret tt
  | OpDeleteBucket a n src => DeleteBucket ctx a n src
  | OpUpdateBucketInfo a n opts => UpdateBucketInfo ctx a n opts
  | OpToggleAgent a n => ToggleSPAsDelegatedAgent a n
  | OpDiscontinueBucket a n => DiscontinueBucket ctx a n
  | OpMigrateBucket a n sp ap bytes => MigrateBucket ctx a n sp ap bytes
  | OpCompleteMigrateBucket a n fam maps => CompleteMigrateBucket ctx a n fam maps
  | OpCancelMigration a n => CancelBucketMigration a n
  | OpRejectMigration a n => RejectBucketMigration a n
  | OpSetBucketFlowRateLimit op owner a n rate => SetBucketFlowRateLimit ctx op owner a n rate
  | OpCreateObject a n m size opts => do! CreateObject ctx a n m size opts ;; ret tt
  | OpCopyObject a n m n' m' opts => do! CopyObject ctx a n m n' m' opts ;; ret tt
  | OpSealObject a n m opts => SealObject ctx a n m opts
  | OpCancelCreateObject a n m src => CancelCreateObject ctx a n m src
  | OpRejectSealObject a n m => RejectSealObject ctx a n m
  | OpUpdateObjectContent a n m size opts => UpdateObjectContent ctx a n m size opts
  | OpCancelUpdate a n m => CancelUpdateObjectContent ctx a n m
  | OpUpdateObjectInfo a n m v => UpdateObjectInfo ctx a n m v
  | OpDeleteObject a n m src => DeleteObject ctx a n m src
  | OpDiscontinueObject a n ids => DiscontinueObject ctx a n ids
  | OpBeginBlock => BeginBlocker ctx
  | OpEndBlock cfg => EndBlocker cfg ctx
  end.

(** The destination of a copy is not the name of an object. *)
Definition copies_to_free (op : storage_op) c : Prop :=
  match op with
  | OpCopyObject _ _ _ n m _ => object_ids (res (st c)) !! (n, m) = None
  | _ => True
  end.

Lemma exec_Books ctx op c u c' :
  exec ctx op c = (Ret u, c') -> copies_to_free op c -> roomy (st c') -> Books c -> Books c'.
Proof.
  intros Hrun Hfree Hroom HB. destruct op; simpl in Hrun.
  all: try (apply bind_Ret in Hrun as (? & c1 & Hrun & [_ <-]%ret_Ret)).
  - by eapply CreateBucket_Books.
  - by eapply DeleteBucket_Books.
  - by eapply UpdateBucketInfo_Books.
  - by eapply Toggle_Books.
  - by eapply DiscontinueBucket_Books.
  - by eapply MigrateBucket_Books.
  - by eapply CompleteMigrateBucket_Books.
  - by eapply CancelBucketMigration_Books.
  - by eapply RejectBucketMigration_Books.
  - by eapply SetBucketFlowRateLimit_Books.
  - by eapply CreateObject_Books.
  - by eapply CopyObject_Books.
  - by eapply SealObject_Books.
  - by eapply CancelCreateObject_Books.
  - by eapply RejectSealObject_Books.
  - by eapply UpdateObjectContent_Books.
  - by eapply CancelUpdateObjectContent_Books.
  - by eapply UpdateObjectInfo_Books.
  - by eapply DeleteObject_Books.
  - by eapply DiscontinueObject_Books.
  - by eapply BeginBlocker_Books.
  - by eapply EndBlocker_Books.
Qed.

(** The chains reached from one without buckets; an operation that fails is
    reverted. *)
Record no_buckets c : Prop := mkNoBuckets {
  nb_res : bucket_ids (res (st c)) = ∅ /\ buckets (res (st c)) = ∅ /\
           object_ids (res (st c)) = ∅ /\ objects (res (st c)) = ∅;
  nb_status : limit_status (st c) = ∅ /\ disc_statuses (st c) = ∅;
  nb_seq : 0 <= CurVal Uint256 (bucketSeq (st c)) < 2 ^ 256 /\
           0 <= CurVal Uint256 (objectSeq (st c)) < 2 ^ 256;
  nb_min : forall time v, st_versioned (st c) !! time = Some v -> 0 <= MinChargeSize v;
  nb_groups : forall k g, gvgs (vg (wd c)) !! k = Some g -> gvg_Id g = k;
  nb_flows : out_flows (chain_pay c) = ∅;
}.

Inductive reached (c0 : Chain B N) : Chain B N -> Prop :=
| reached_start : no_buckets c0 -> reached c0 c0
| reached_op ctx op c u c' :
    reached c0 c -> exec ctx op c = (Ret u, c') -> copies_to_free op c -> roomy (st c') ->
    reached c0 c'.

Lemma no_buckets_Books c : no_buckets c -> Books c.
Proof.
  intros [(E1 & E2 & E3 & E4) [E5 E6] [H1 H2] Hm Hg Hf]. split.
  - intros k i. unfold prices. simpl. rewrite lookup_fmap. intros (g & Hk & ->)%fmap_Some. by apply Hg.
  - split; try done; rewrite ?E1, ?E2, ?E5; set_unfold; try done.
    intros n [? Hn]. by rewrite lookup_empty in Hn.
  - split; try done; rewrite ?E3, ?E4, ?E6; done.
  - intros id b ib Hb. by rewrite E2 in Hb.
  - intros n. unfold bytes_of, obj_sum. rewrite E4. done.
  - intros f t. unfold owes, paid, due. rewrite Hf, E2. done.
Qed.

Lemma reached_Books (c0 c : Chain B N) : reached c0 c -> Books c.
Proof.
  induction 1 as [H0|ctx op c u c' _ IH Hrun Hfree Hroom].
  - by apply no_buckets_Books.
  - by eapply exec_Books.
Qed.

(** C1: Whatever sequence of the module's operations runs from a chain
    without buckets, from the creation of a bucket to the deletions at the end
    of a block, every account's out flows to every other are those of the
    bills of the buckets it pays for, except the rate-limited ones; the
    charged bytes of a bucket and of each of its groups are those of its
    sealed objects; and the indexes of buckets and objects agree with what is
    stored.  The bytes of a bucket are assumed to fit in 64 bits and an object
    is not copied over another, which [CopyObject] does not check. *)
Theorem storage_ledger_kept (c0 c : Chain B N) :
  reached c0 c -> Ledger (prices c) (st c) (owes c).
Proof. apply reached_Books. Qed.

(** C9: [ChargeViaObjectChange] charges one object by the change of its group
    alone.  The flows it leaves are those of giving up the whole bill of the
    bucket ([GetBucketReadStoreBill]) and charging the whole new one, and of a
    rate-limited bucket none. *)
Theorem incremental_charge_is_the_bill_change ctx b ib o size (is_delete : bool) c ib' flows c'
    prev cur f t :
  ChargeViaObjectChange ctx b ib o size is_delete c = (Ret (ib', flows), c') ->
  GetBucketReadStoreBill b ib c = (Ret prev, c) -> GetBucketReadStoreBill b ib' c = (Ret cur, c) ->
  zero_ok ib -> zero_ok ib' ->
  owes c' f t = owes c f t + (if IsBucketRateLimited (b_BucketName b) c then 0
                              else user_rate f t [neg_bill prev; cur]).
Proof.
  intros (-> & _ & _ & [_ _ _ O])%ChargeViaObjectChange_Ret Hp Hc Hz Hz'. rewrite O.
  destruct (GetBucketReadStoreBill_Ret _ _ _ _ _ t Hp Hz) as (_ & Hf & Hr).
  destruct (GetBucketReadStoreBill_Ret _ _ _ _ _ t Hc Hz') as (_ & Hf' & Hr').
  unfold by_payer, unless. destruct (IsBucketRateLimited _ _); [destruct (decide _); lia|].
  change [neg_bill prev; cur] with (option_list (neg_bill <$> Some prev) ++ option_list (Some cur)).
  rewrite (user_rate_change f t prev cur _ _ (bill_rate (prices c) b ib) _ Hf Hf' Hr Hr').
  unfold by_payer, bill. repeat case_match; lia.
Qed.

(** ** Charging and giving up *)

(** Sizes are 64-bit. *)
Definition sizes_ok (ib : InternalBucketInfo) : Prop :=
  is_u64 (ib_TotalChargeSize ib) = true /\
  Forall (fun l => is_u64 (lvg_TotalChargeSize l) = true) (LocalVirtualGroups ib).

Lemma u64_back x d : is_u64 x = true -> u64 (u64 (x + d) + - d) = x.
Proof.
  intros Hx. unfold u64. rewrite Zplus_mod_idemp_l. replace (x + d + - d) with x by lia.
  by apply u64_id.
Qed.

Lemma charge_lvg_back id d ib : sizes_ok ib -> charge_lvg id (- d) (charge_lvg id d ib) = ib.
Proof.
  intros [Ht Hl]. destruct ib as [time total ls]. unfold charge_lvg, add_total_charge, on_lvgs. simpl in *.
  rewrite u64_back by done. f_equal. induction Hl as [|l ls Hl _ IH]; simpl; [done|].
  destruct (is_lvg id l) eqn:E; simpl.
  - unfold is_lvg in *. simpl. rewrite E. f_equal. destruct l. unfold add_lvg_charge. simpl in *.
    by rewrite u64_back.
  - rewrite E. by rewrite IH.
Qed.

(** Charging an object and giving it up again ([ChargeObjectStoreFee],
    then [UnChargeObjectStoreFee], at any later time) leaves the sizes of the
    bucket and of its groups as they were, and moves the payer's flows by the
    difference of the bucket's own bill at the two price times: by nothing
    when the charge was at the old price. *)
Lemma charge_given_up ctx ctx' b ib o c x c1 ib2 c2 f t :
  ChargeObjectStoreFee ctx b ib o c = (Ret x, c1) ->
  UnChargeObjectStoreFee ctx' b x.2 o c1 = (Ret ib2, c2) ->
  sizes_ok ib -> zero_ok ib -> zero_ok x.2 ->
  ib2 = set_price_time (ib_PriceTime x.2) ib /\
  owes c2 f t = owes c f t + rebill (prices c) (st c) b ib ib2 f t /\
  (ib_PriceTime x.2 = ib_PriceTime ib -> ib2 = ib /\ owes c2 f t = owes c f t).
Proof.
  intros (_ & Hre & S1 & P1 & O1)%ChargeObjectStoreFee_Ret (Hib2 & _ & _ & [S2 P2 _ O2])%UnChargeObjectStoreFee_Ret
    Hs Hz Hz'.
  assert (ib2 = set_price_time (ib_PriceTime x.2) ib) as E2.
  { rewrite S1 in Hib2. destruct Hre as [Hx|Hx]; rewrite Hib2, Hx.
    - rewrite charge_lvg_back by done. by destruct ib.
    - rewrite <- (charge_lvg_back (ob_LocalVirtualGroupId o) (charge_of (st c) o) ib Hs) at 3. done. }
  assert (owes c2 f t = owes c f t + rebill (prices c) (st c) b ib ib2 f t) as Ho.
  { rewrite O2, O1 by done. unfold bill, IsBucketRateLimited, rebill, limited, by_payer, unless.
    rewrite P1, S1. destruct (decide _); [|lia]. destruct (default _ _); lia. }
  split; [done|]. split; [done|]. intros Ep. rewrite Ep in E2.
  assert (ib2 = ib) as -> by (rewrite E2; by destruct ib). split; [done|].
  rewrite Ho. unfold rebill, by_payer, unless. repeat case_match; lia.
Qed.

(** ** Copies *)

Lemma enter_res ctx b o c o' c' :
  enter_object ctx b o c = (Ret o', c') ->
  res (st c') = res (st c) /\ ob_Id o' = ob_Id o /\ ob_BucketName o' = ob_BucketName o /\
  ob_ObjectName o' = ob_ObjectName o.
Proof.
  unfold enter_object. destruct (_ =? 0); intros Hrun.
  - unfold SealEmptyObjectOnVirtualGroup in Hrun. msteps Hrun.
    destruct (GlobalVirtualGroupIds x) as [|gid ids]; [by apply fail_Ret in Hrun|].
    pose proof (keeps_run _ _ _ _ _ (keeps_res_seal _ _ _ _) Hrun) as Hr.
    destruct (seal_group _ _ _ _ _ _ _ Hrun) as [lid ->]. done.
  - apply bind_Ret in Hrun as (? & c1 & Hl & [<- <-]%ret_Ret). split; [|done].
    apply seen_res. by apply (keeps_run _ _ _ _ _ (keeps_seen_LockObject _ _ _) Hl).
Qed.

Lemma store_res n m b o c u c' :
  store_new n m b o c = (Ret u, c') -> stored_bucket c b ->
  objects (res (st c')) = <[ob_Id o := o]> (objects (res (st c))) /\
  object_ids (res (st c')) = <[(n, m) := ob_Id o]> (object_ids (res (st c))).
Proof.
  unfold store_new. intros Hrun Hb. reset_bucket Hrun.
  apply bind_Ret in Hrun as (? & c1 & Hl & ->%modify_Ret).
  assert (seen c1 = seen c) as E by (eapply (keeps_run seen), Hl; frame). simpl.
  by rewrite (seen_res _ _ E).
Qed.


End Theorems.

(** ** A small chain

    The group of providers 1, 2 and 3 of [VirtualGroupTheorems], prices and
    parameters from time 1 on, and the account 10, which has coins. *)

#[global] Instance test_crypto : StorageCrypto := {
  keccak_name n := Z.of_nat (String.length n);
  VerifySignature a data sg := bool_decide (data = sg);
  BlsKeyValid k := true;
  VerifyBlsAggSignature keys doc sg := bool_decide (doc = sg);
  SealObjectSignDoc g i cs := [g; i];
  MigrationBucketSignDoc b sp src dst := [b; sp; src; dst];
  ValidatorTaxPoolAddress := 7001;
}.

(** The tokens of buckets and of objects *)
Abbreviation Tokens := (gset Z * gset Z)%type.
#[global] Instance test_nfts : NftContracts Tokens := {
  nft_run x n :=
    match x with
    | MintBucket _ i => Some ({[i]} ∪ n.1, n.2)
    | BurnBucket i => if decide (i ∈ n.1) then Some (n.1 ∖ {[i]}, n.2) else None
    | MintObject _ i => Some (n.1, {[i]} ∪ n.2)
    | BurnObject i => if decide (i ∈ n.2) then Some (n.1, n.2 ∖ {[i]}) else None
    end;
}.

Abbreviation TestChain := (Chain PaymentInstance.Ledger Tokens).

Definition user : Addr := 10.
Definition storage_versioned : StVersionedParams := mkStVersioned 1000 1 1 128.
Definition storage_params : StorageParams :=
  mkStorageParams storage_versioned 10000 0 100 100 100 10 100 100 0 10.
Definition store0 : StorageStore := mkStorageStore (mkResources ∅ ∅ ∅ ∅ ∅ ∅) ∅ ∅ ∅ ∅ ∅ ∅ ∅ ∅ ∅ ∅ ∅ ∅ ∅
  (Some storage_params) {[ 1 := storage_versioned ]} None None.
Definition test_money : State PaymentInstance.Ledger :=
  mkState test_params {[ 1 := mkVersionedParams 100 (Some (10 ^ 16)) ]}
    {[ user := set_static (10 ^ 12) (NewStreamRecord user 900) ]} ∅ ∅ ∅ ∅ ∅ ∅
    (PaymentInstance.mkLedger
       (<[(ModuleAddress ModuleName, "amoca") := 10 ^ 12]> (balances (bank (pay world1))))
       (accounts (bank (pay world1)))).
Definition test_prices : GlobalSpStorePrice := mkGlobalPrice 1 (2 * 10 ^ 18) (3 * 10 ^ 18) (10 ^ 18).
Definition chain0 : TestChain :=
  mkChain store0 (mkWorld (vg world1) (SetGlobalSpStorePrice test_prices (sps world1)) test_money)
    (mkGCState perm0 ∅ None) (∅, ∅).

Definition at_time (t : Z) : StorageCtx := mkStorageCtx (mkSpCtx (t * 10 ^ 9) 6) false true.
Definition run_at (t : Z) (op : storage_op) : TestChain -> TestChain := after (exec (at_time t) op).

Definition mk_bucket : storage_op := OpCreateBucket user "bucket" 21
  (mkCreateBucket VISIBILITY_TYPE_PRIVATE SOURCE_TYPE_ORIGIN 50 EmptyString
     (Some (mkApproval 10 1 [9])) [9]).
Definition mk_object (n : string) (size : Z) : storage_op := OpCreateObject user "bucket" n size
  (mkCreateObject VISIBILITY_TYPE_PRIVATE "text" SOURCE_TYPE_ORIGIN 0 [[1]] None).
Definition seal_object (n : string) (i : Z) : storage_op :=
  OpSealObject 41 "bucket" n (mkSealObject 1 [1; i] []).

(** A bucket; an object of 200 bytes, sealed; an empty one; a limit the bill
    is over, lifted again; the end of the life of the first object. *)
Definition script : list (Z * storage_op) :=
  [(1000, mk_bucket); (1000, mk_object "a" 200); (1010, seal_object "a" 1);
   (1020, mk_object "b" 0); (1030, OpSetBucketFlowRateLimit user user user "bucket" 5);
   (1040, OpSetBucketFlowRateLimit user user user "bucket" 10000);
   (1050, OpDiscontinueObject 61 "bucket" [1]); (1070, OpEndBlock (mkCheckConfig true 1 false))].

Definition play (l : list (Z * storage_op)) (c : TestChain) : TestChain :=
  foldl (fun c x => run_at x.1 x.2 c) c l.

(** ** Checking a script *)

Definition roomyb (s : StorageStore) : bool :=
  map_all (fun _ o => 0 <=? charge_of s o) (objects (res s)) &&
  (map_sum (fun _ o => charge_of s o) (objects (res s)) <? two64).

Lemma roomyb_sound s : roomyb s = true -> roomy s.
Proof.
  unfold roomyb. intros [Hall Hsum]%andb_true_iff n. apply Z.ltb_lt in Hsum.
  enough (0 <= map_sum (fun _ o => charge_of s o + - weight_of n s o) (objects (res s))) as H.
  { rewrite map_sum_add, map_sum_opp in H. unfold bytes_of, obj_sum. lia. }
  apply map_sum_nonneg. intros k o Hk. apply (map_all_spec _ _ _ _ Hall) in Hk.
  unfold weight_of. case_match; lia.
Qed.

Definition copies_to_freeb (op : storage_op) (c : TestChain) : bool :=
  match op with
  | OpCopyObject _ _ _ n m _ => bool_decide (object_ids (res (st c)) !! (n, m) = None)
  | _ => true
  end.

Fixpoint plays (l : list (Z * storage_op)) (c : TestChain) : bool :=
  match l with
  | [] => true
  | (t, op) :: rest =>
      let c' := run_at t op c in
      match (exec (at_time t) op c).1 with Ret _ => true | _ => false end &&
      copies_to_freeb op c && roomyb (st c') && plays rest c'
  end.

Lemma plays_reached c0 l c : reached c0 c -> plays l c = true -> reached c0 (play l c).
Proof.
  revert c. induction l as [|[t op] l IH]; intros c Hc Hl; [done|].
  simpl in Hl. rewrite !andb_true_iff in Hl. destruct Hl as [[[Hret Hfree] Hroom] Hl].
  simpl. apply IH; [|done]. destruct (exec (at_time t) op c).1 as [u| | |] eqn:E; try done.
  eapply (reached_op c0 (at_time t) op c u); [done|by apply run_outcome| |by apply roomyb_sound].
  destruct op; try done. simpl in *. by apply bool_decide_eq_true in Hfree.
Qed.

Lemma chain0_start : no_buckets chain0.
Proof.
  split; [done|done|by vm_compute| | |done].
  - intros time v. simpl. rewrite lookup_singleton_Some. by intros [_ <-].
  - intros k g Hg. assert (map_all (fun k g => gvg_Id g =? k) (gvgs (vg (wd chain0))) = true) as Hall by by_eval.
    apply (map_all_spec _ _ _ _ Hall) in Hg. by apply Z.eqb_eq.
Qed.

Lemma script_plays : plays script chain0 = true.
Proof. by_eval. Qed.

Lemma reached_script : reached chain0 (play script chain0).
Proof. apply plays_reached; [constructor; apply chain0_start|apply script_plays]. Qed.

(** The user pays the family for the quota of 50 and 128 charged bytes. *)
Lemma storage_ledger_kept_witness :
  Ledger (prices (play script chain0)) (st (play script chain0)) (owes (play script chain0)) /\
  owes (play script chain0) user (DeriveVirtualPaymentAccount GVGFamilyName 1) = 484.
Proof. split; [exact (storage_ledger_kept _ _ reached_script)|by_eval]. Defined.

(** ** The bucket with two objects *)

Definition chain4 : TestChain := play (take 4 script) chain0.
Definition test_family : Addr := DeriveVirtualPaymentAccount GVGFamilyName 1.

Lemma chain4_Books : Books chain4.
Proof.
  apply (reached_Books chain0), plays_reached; [constructor; apply chain0_start|]. by_eval.
Qed.

Definition bucket4 : BucketInfo := default (mkBucket EmptyString EmptyString VISIBILITY_TYPE_PRIVATE 0
  SOURCE_TYPE_ORIGIN 0 0 0 0 BUCKET_STATUS_CREATED false) (buckets (res (st chain4)) !! 1).
Definition internal4 : InternalBucketInfo := default (mkInternal 0 0 []) (internals (st chain4) !! 1).
Definition object4 : ObjectInfo := default (mkObject EmptyString EmptyString EmptyString EmptyString 0 0 0
  VISIBILITY_TYPE_PRIVATE EmptyString 0 OBJECT_STATUS_CREATED 0 SOURCE_TYPE_ORIGIN [] false 0 EmptyString 0)
  (objects (res (st chain4)) !! 1).

(** The value of a run that returns *)
Definition value_of {S E A} (d : A) (r : outcome E A * S) : A :=
  match r.1 with Ret a => a | _ => d end.
Lemma value_of_run {S E A} (d : A) (r : outcome E A * S) :
  match r.1 with Ret _ => true | _ => false end = true -> r = (Ret (value_of d r), r.2).
Proof. destruct r as [[]]; done. Qed.

Definition no_flows : UserFlows := mkUserFlows 0 [].
Definition bill4 (ib : InternalBucketInfo) : UserFlows :=
  value_of no_flows (GetBucketReadStoreBill bucket4 ib chain4).

Lemma bill4_run ib :
  match (GetBucketReadStoreBill bucket4 ib chain4).1 with Ret _ => true | _ => false end = true ->
  GetBucketReadStoreBill bucket4 ib chain4 = (Ret (bill4 ib), chain4).
Proof.
  intros H. apply (value_of_run no_flows) in H. rewrite H at 1. f_equal.
  by apply bill_state in H.
Qed.

Definition take_out := ChargeViaObjectChange (at_time 1030) bucket4 internal4 object4 200 true chain4.
Definition taken_out : InternalBucketInfo * list OutFlow := value_of (internal4, []) take_out.

Lemma take_out_run :
  ChargeViaObjectChange (at_time 1030) bucket4 internal4 object4 200 true chain4 =
  (Ret (taken_out.1, taken_out.2), take_out.2).
Proof.
  rewrite <- surjective_pairing. unfold taken_out. apply value_of_run. by_eval.
Qed.

Lemma bill4_runs :
  GetBucketReadStoreBill bucket4 internal4 chain4 = (Ret (bill4 internal4), chain4) /\
  GetBucketReadStoreBill bucket4 taken_out.1 chain4 = (Ret (bill4 taken_out.1), chain4).
Proof. split; apply bill4_run; by_eval. Qed.

Lemma zero_ok4 : zero_ok internal4 /\ zero_ok taken_out.1.
Proof. split; intros H; by vm_compute in H. Qed.

Lemma take_out_rates :
  IsBucketRateLimited (b_BucketName bucket4) chain4 = false /\
  user_rate user test_family [neg_bill (bill4 internal4); bill4 taken_out.1] = - 600.
Proof. split; by_eval. Qed.

(** Two hundred bytes less, at three coins a byte and second *)
Lemma incremental_charge_is_the_bill_change_witness :
  owes take_out.2 user test_family = owes chain4 user test_family + - 600.
Proof.
  destruct bill4_runs as [Hp Hc]. destruct zero_ok4 as [Hz Hz']. destruct take_out_rates as [Hl Hr].
  pose proof (incremental_charge_is_the_bill_change (at_time 1030) bucket4 internal4 object4 200 true
    chain4 taken_out.1 taken_out.2 take_out.2 (bill4 internal4) (bill4 taken_out.1) user test_family
    take_out_run Hp Hc Hz Hz') as H.
  rewrite Hl, Hr in H. exact H.
Defined.

(** The first object copied onto the second *)
Definition copy_onto_b : M TestChain storage_error Z := CopyObject (at_time 1030) user "bucket" "a" "bucket" "b"
  (mkCopyObject SOURCE_TYPE_ORIGIN VISIBILITY_TYPE_PRIVATE (Some (mkApproval 10 1 [9])) [9]).
Definition object_b : ObjectInfo := default object4 (objects (res (st chain4)) !! 2).

Lemma copy_onto_b_run :
  CopyObject (at_time 1030) user "bucket" "a" "bucket" "b"
    (mkCopyObject SOURCE_TYPE_ORIGIN VISIBILITY_TYPE_PRIVATE (Some (mkApproval 10 1 [9])) [9]) chain4 =
    (Ret 3, (copy_onto_b chain4).2) /\
  object_ids (res (st chain4)) !! ("bucket", "b") = Some 2 /\
  objects (res (st chain4)) !! 2 = Some object_b.
Proof. split_and!; [apply run_outcome; by_eval|by_eval..]. Qed.


(** The first object charged once more, and given up *)
Definition charge_again := ChargeObjectStoreFee (at_time 1030) bucket4 internal4 object4 chain4.
Definition charged : BucketInfo * InternalBucketInfo := value_of (bucket4, internal4) charge_again.
Definition charge_back := UnChargeObjectStoreFee (at_time 1200) bucket4 charged.2 object4 charge_again.2.

Lemma charge_again_runs :
  ChargeObjectStoreFee (at_time 1030) bucket4 internal4 object4 chain4 = (Ret charged, charge_again.2) /\
  UnChargeObjectStoreFee (at_time 1200) bucket4 charged.2 object4 charge_again.2 =
    (Ret (value_of internal4 charge_back), charge_back.2).
Proof. split; [unfold charged|]; apply value_of_run; by_eval. Qed.

Lemma sizes_okb_sound ib :
  is_u64 (ib_TotalChargeSize ib) &&
  forallb (fun l => is_u64 (lvg_TotalChargeSize l)) (LocalVirtualGroups ib) = true -> sizes_ok ib.
Proof.
  rewrite andb_true_iff, forallb_forall. intros [Ht Hl]. split; [done|].
  apply Forall_forall. intros l Hin. apply Hl. by apply list_elem_of_In.
Qed.

Lemma charge_again_sizes : sizes_ok internal4 /\ zero_ok internal4 /\ zero_ok charged.2 /\
  ib_PriceTime charged.2 = ib_PriceTime internal4.
Proof.
  split_and!; [apply sizes_okb_sound; by_eval|intros H; by vm_compute in H..|by_eval].
Qed.

Lemma charge_given_up_witness :
  value_of internal4 charge_back = internal4 /\
  owes charge_back.2 user test_family = owes chain4 user test_family.
Proof.
  destruct charge_again_runs as [Hc Hu]. destruct charge_again_sizes as (Hs & Hz & Hz' & Hp).
  destruct (charge_given_up (at_time 1030) (at_time 1200) bucket4 internal4 object4 chain4 charged
    charge_again.2 (value_of internal4 charge_back) charge_back.2 user test_family Hc Hu Hs Hz Hz') as (_ & _ & H).
  exact (H Hp).
Defined.
