(* ===== verification/Challenge.v ===== *)
(** * x/challenge: data availability challenges

    The keeper of [x/challenge/keeper], the block hooks of [abci.go], the
    messages of [types/message_submit.go] and [message_attest.go], the
    parameters of [types/params.go], the queries and genesis.  A challenge is
    an id with the height it expires at: which object and provider it is about
    is in the event it starts with ([EventStartChallenge], kept in the state),
    and validators vote on it off the chain.  The state is the module's store
    with the chain of x/storage.  Slash records are stored under a hash of
    provider and object, taken to be injective.  A byte slice has no spare
    capacity. *)

From S2P Require Import Prelude Sdk Bytes StorageTypes Grn Permission PermissionKeeper.
From S2P Require Import StoragePermission StorageGC FeeMarket SpTypes SpKeeper SpMsg.
From S2P Require Import VirtualGroupTypes VirtualGroupKeeper VirtualGroupPayment.
From S2P Require Import PaymentTypes PaymentStore PaymentStream PaymentFlows.
From S2P Require Import StorageStore StorageCharge StorageGroups StorageObjects.

(** ** Data *)

Inductive VoteResult : Type :=
| CHALLENGE_FAILED
| CHALLENGE_SUCCEED
| CHALLENGE_other (n : Z).

#[global] Instance VoteResult_eq_dec : EqDecision VoteResult.
Proof. solve_decision. Defined.

Definition vote_code (v : VoteResult) : Z :=
  match v with CHALLENGE_FAILED => 0 | CHALLENGE_SUCCEED => 1 | CHALLENGE_other n => n end.

Record AttestedChallenge : Type := mkAttested { at_Id : Z; at_Result : VoteResult }.

#[global] Instance AttestedChallenge_eq_dec : EqDecision AttestedChallenge.
Proof. solve_decision. Defined.

Record EventStartChallenge : Type := mkStart {
  ev_ChallengeId : Z;
  ev_ObjectId : Z;
  ev_SegmentIndex : Z;
  ev_SpId : Z;
  ev_SpOperatorAddress : Addr;
  ev_RedundancyIndex : Z;
  ev_ChallengerAddress : option Addr;
  ev_ExpiredHeight : Z;
}.

(** A nil [Int] or [LegacyDec] is [None]; a [LegacyDec] is its numerator over
    10^18. *)
Record ChParams : Type := mkChParams {
  ChallengeCountPerBlock : Z;
  ChallengeKeepAlivePeriod : Z;
  SlashCoolingOffPeriod : Z;
  SlashAmountSizeRate : option Z;
  SlashAmountMin : option Z;
  SlashAmountMax : option Z;
  RewardValidatorRatio : option Z;
  RewardSubmitterRatio : option Z;
  RewardSubmitterThreshold : option Z;
  HeartbeatInterval : Z;
  AttestationInturnInterval : Z;
  AttestationKeptCount : Z;
  SpSlashMaxAmount : option Z;
  SpSlashCountingWindow : Z;
}.

Definition zero_ch_params : ChParams :=
  mkChParams 0 0 0 None None None None None None 0 0 0 None 0.

Definition DefaultChParams : ChParams :=
  mkChParams 1 300 300 (Some (85 * 10 ^ 14)) (Some (10 ^ 16)) (Some (10 ^ 18))
    (Some (9 * 10 ^ 17)) (Some (10 ^ 15)) (Some (10 ^ 15)) 1000 120 300 (Some (5 * 10 ^ 18)) 43200.

(** Not nil and not negative *)
Definition nonneg_set (v : option Z) : bool :=
  match v with Some x => negb (x <? 0) | None => false end.

Definition ChParams_Validate (p : ChParams) : bool :=
  negb (ChallengeKeepAlivePeriod p =? 0) &&
  nonneg_set (SlashAmountSizeRate p) &&
  nonneg_set (SlashAmountMin p) &&
  nonneg_set (SlashAmountMax p) &&
  nonneg_set (RewardValidatorRatio p) &&
  nonneg_set (RewardSubmitterRatio p) &&
  nonneg_set (RewardSubmitterThreshold p) &&
  negb (default 0 (SlashAmountMax p) <=? default 0 (SlashAmountMin p)) &&
  negb (dec_one <? default 0 (RewardValidatorRatio p) + default 0 (RewardSubmitterRatio p)) &&
  negb (HeartbeatInterval p =? 0) &&
  negb (AttestationInturnInterval p =? 0) &&
  negb (AttestationKeptCount p =? 0) &&
  nonneg_set (SpSlashMaxAmount p) &&
  negb (SpSlashCountingWindow p =? 0).

(** The store prefixes, and the count of the transient store *)
Record ChallengeStore : Type := mkChallengeStore {
  ch_params : option ChParams;
  challenge_id : Z;
  challenges : gmap Z Z;
  slashes : gmap (Z * Z) Z;
  slash_amounts : gmap Z Z;
  attested_size : option Z;
  attested_cursor : option Z;
  attested : gmap Z AttestedChallenge;
  current_count : Z;
}.

Section Setters.
Implicit Types s : ChallengeStore.
Definition set_ch_params v s := mkChallengeStore v (challenge_id s) (challenges s) (slashes s)
  (slash_amounts s) (attested_size s) (attested_cursor s) (attested s) (current_count s).
Definition setChallengeID v s := mkChallengeStore (ch_params s) v (challenges s) (slashes s)
  (slash_amounts s) (attested_size s) (attested_cursor s) (attested s) (current_count s).
Definition on_challenges f s := mkChallengeStore (ch_params s) (challenge_id s) (f (challenges s))
  (slashes s) (slash_amounts s) (attested_size s) (attested_cursor s) (attested s)
  (current_count s).
Definition on_slashes f s := mkChallengeStore (ch_params s) (challenge_id s) (challenges s)
  (f (slashes s)) (slash_amounts s) (attested_size s) (attested_cursor s) (attested s)
  (current_count s).
Definition on_slash_amounts f s := mkChallengeStore (ch_params s) (challenge_id s) (challenges s)
  (slashes s) (f (slash_amounts s)) (attested_size s) (attested_cursor s) (attested s)
  (current_count s).
Definition set_ring size cursor ring s := mkChallengeStore (ch_params s) (challenge_id s)
  (challenges s) (slashes s) (slash_amounts s) size cursor ring (current_count s).
Definition set_current_count v s := mkChallengeStore (ch_params s) (challenge_id s) (challenges s)
  (slashes s) (slash_amounts s) (attested_size s) (attested_cursor s) (attested s) v.
End Setters.

Record MsgSubmit : Type := mkMsgSubmit {
  ms_Challenger : string;
  ms_SpOperatorAddress : string;
  ms_BucketName : string;
  ms_ObjectName : string;
  ms_SegmentIndex : Z;
  ms_RandomIndex : bool;
}.

Record MsgAttest : Type := mkMsgAttest {
  ma_Submitter : string;
  ma_ChallengeId : Z;
  ma_ObjectId : Z;
  ma_SpOperatorAddress : string;
  ma_VoteResult : VoteResult;
  ma_ChallengerAddress : string;
  ma_VoteValidatorSet : list Z;
  ma_VoteAggSignature : list Z;
}.

(** The fields of a staking validator the module reads *)
Record Validator : Type := mkValidator {
  val_ChallengerAddress : string;
  val_BlsKey : list Z;
}.

(** The sentinel errors of [types/errors.go], and the errors of the keepers *)
Inductive challenge_error : Type :=
| ErrUnknownSp | ErrUnknownBucketObject | ErrInvalidSpStatus | ErrChInvalidObjectStatus
| ErrNotStoredOnSp | ErrExistsRecentSlash | ErrInvalidSegmentIndex | ErrInvalidChallengeID
| ErrInvalidVoteResult | ErrInvalidVoteValidatorSet | ErrInvalidVoteAggSignature
| ErrDuplicatedSlash | ErrChInvalidBlsPubKey | ErrNotEnoughVotes | ErrNotChallenger
| ErrNotInturnChallenger | ErrChInvalidParams | ErrCannotFindGVG | ErrChInvalidSigner
| ErrChNotFound
| ErrOfStorage (e : storage_error)
| ErrOfSp (e : sp_error)
| ErrOfPayment (e : PaymentTypes.error).

(** ** The libraries the module calls *)

(** The historical info of the staking keeper: the validators of a height *)
Class StakingKeeper : Type := { GetHistoricalInfo : Z -> option (list Validator) }.

(** Votes: a bit set given by its words, and an aggregated signature under
    keys *)
Class Votes `{Bls} : Type := {
  bitset_Count : list Z -> Z;
  bitset_Test : list Z -> Z -> bool;
  VerifyAggregated : BlsSignature -> list BlsPublicKey -> list Z -> bool;
}.

(** Keccak-256 gives 32 bytes. *)
Class Keccak : Type := { Keccak256 : list Z -> list Z }.
Class KeccakLaws `{Keccak} : Prop := {
  Keccak256_length : forall l, length (Keccak256 l) = 32%nat;
  Keccak256_bytes : forall l, Forall (fun b => 0 <= b < 256) (Keccak256 l);
}.

(** The block: the context of x/storage, the randao mix of the header and the
    id of the chain *)
Record ChCtx : Type := mkChCtx {
  cc_storage : StorageCtx;
  RandaoMix : list Z;
  ChainID : list Z;
}.

Definition height_of (ctx : ChCtx) : Z := sp_BlockHeight (sc_block (cc_storage ctx)).

(** ** Random numbers ([helper.go]) *)

(** [int32(z)] *)
Definition i32 (z : Z) : Z := (z + 2 ^ 31) mod two32 - 2 ^ 31.

(** [seed[i] = mix[i] ^ seed[i]] for the indices of [mix]; [None] when [mix] is
    longer. *)
Fixpoint mix_in (mix seed : list Z) : option (list Z) :=
  match mix, seed with
  | [], _ => Some seed
  | m :: mix', b :: seed' => cons (Z.lxor m b) <$> mix_in mix' seed'
  | _ :: _, [] => None
  end.

Section Random.
Context {HKeccak : Keccak}.

Definition SeedFromRandaoMix (randaoMix : list Z) (number : Z) : option (list Z) :=
  mix_in randaoMix
    (Keccak256 (be_bytes 8 (two64 - 1 - number)) ++ Keccak256 (be_bytes 8 number)).

(** [Mod] panics on zero. *)
Definition RandomObjectID (seed : list Z) (objectCount : Z) : option Z :=
  if objectCount =? 0 then None
  else Some (be_val (Keccak256 seed) mod objectCount + 1).

Definition CalculateSegments (payloadSize segmentSize : Z) : option Z :=
  if segmentSize =? 0 then None
  else
    let segments := payloadSize / segmentSize in
    Some (if payloadSize mod segmentSize =? 0 then segments else segments + 1).

(** [big.Int.Mod]: the Euclidean remainder *)
Definition big_Mod (x y : Z) : option Z := if y =? 0 then None else Some (x mod Z.abs y).

(** [seed[:32]] panics on a shorter seed. *)
Definition RandomSegmentIndex (seed : list Z) (segments : Z) : option Z :=
  if (length seed <? 32)%nat then None
  else u32 <$> big_Mod (be_val (Keccak256 (take 32 seed))) (i64 segments).

Definition RandomRedundancyIndex (seed : list Z) (sps : Z) : option Z :=
  if (length seed <? 32)%nat then None
  else (fun index => i32 index - 1) <$> big_Mod (be_val (Keccak256 (drop 32 seed))) (i64 sps).

End Random.

Definition RedundancyIndexPrimary : Z := -1.

(** ** Decimals *)

(** [QuoRoundUp] of non-negative numbers; [QuoInt64] truncates. *)
Definition dec_QuoRoundUp (a b : Z) : Z := - ((- (a * dec_one)) / b).
Definition dec_MulInt (a n : Z) : Z := a * n.
Definition dec_QuoInt64 (a n : Z) : Z := Z.quot a n.

Definition oneGBBytes : Z := 1024 * 1024 * 1024.

(** A challenge the end blocker picked *)
Record Picked : Type := mkPicked {
  pk_object : ObjectInfo;
  pk_sp_id : Z;
  pk_sp : StorageProvider;
  pk_place : Z;
  pk_segment : Z;
}.

(** ** The chain with the store of the module *)

Record ChallengeChain (B N : Type) : Type := mkChallengeChain {
  ch : ChallengeStore;
  base : Chain B N;
  started : list EventStartChallenge;
}.
Arguments mkChallengeChain {B N}.
Arguments ch {B N}.
Arguments base {B N}.
Arguments started {B N}.

Section Keeper.
Context {B N : Type} {HBank : BankKeeper B} {HAddr : Addresses} {HCrypto : StorageCrypto}
  {HBls : Bls} {HVotes : Votes} {HKeccak : Keccak} {HStaking : StakingKeeper}.
Abbreviation CC := (ChallengeChain B N).
Abbreviation HM := (M CC challenge_error).
Implicit Types (c : CC) (s : ChallengeStore) (ctx : ChCtx).

Definition with_ch f c : CC := mkChallengeChain (f (ch c)) (base c) (started c).
Definition with_base v c : CC := mkChallengeChain (ch c) v (started c).
Definition emit (l : list EventStartChallenge) c : CC :=
  mkChallengeChain (ch c) (base c) (started c ++ l).

Definition on_ch (f : ChallengeStore -> ChallengeStore) : HM unit := modify (with_ch f).

(** The calls of the keepers of x/storage, x/sp and x/payment *)
Definition on_storage {A} (k : M (Chain B N) storage_error A) : HM A :=
  zoom base with_base ErrOfStorage k.
Definition sp_view c : SpState B unit :=
  mkSpState (sps (wd (base c))) (bank (chain_pay (base c))) tt.
Definition put_sp (x : SpState B unit) c : CC :=
  let b := base c in
  let w := wd b in
  with_base (with_wd (mkWorld (vg w) (store x) (with_bank (sp_bank x) (pay w))) b) c.
Definition on_sp {A} (k : M (SpState B unit) sp_error A) : HM A := zoom sp_view put_sp ErrOfSp k.
Definition on_pay_keeper {A} (k : M (State B) PaymentTypes.error A) : HM A :=
  zoom (fun c => chain_pay (base c)) (fun p c => with_base (put_pay p (base c)) c) ErrOfPayment k.

Definition MustAcc (text : string) : HM Addr := must (Sdk.AccAddressFromHexUnsafe text).

(** ** Parameters, challenges and slashes *)

Definition Ch_GetParams s : ChParams := default zero_ch_params (ch_params s).
Definition Ch_SetParams (p : ChParams) : HM unit :=
  do! guard (negb (ChParams_Validate p)) ErrChInvalidParams ;;
  on_ch (set_ch_params (Some p)).

Definition GetChallengeId s : Z := challenge_id s.

Definition SaveChallenge (id expiredHeight : Z) s : ChallengeStore :=
  on_challenges (insert id expiredHeight) (setChallengeID id s).

Definition RemoveChallengeUntil (height : Z) s : ChallengeStore :=
  on_challenges (filter (fun kv => ~ kv.2 <= height)) s.

Definition ExistsChallenge (id : Z) s : bool := bool_decide (is_Some (challenges s !! id)).

Definition GetChallengeCountCurrentBlock s : Z := current_count s.
Definition IncrChallengeCountCurrentBlock s : ChallengeStore :=
  set_current_count (u64 (current_count s + 1)) s.

Definition SaveSlash (spID objectID height : Z) s : ChallengeStore :=
  on_slashes (insert (spID, objectID) height) s.

Definition RemoveSlashUntil (height : Z) s : ChallengeStore :=
  on_slashes (filter (fun kv => ~ kv.2 <= height)) s.

Definition ExistsSlash (spID objectID : Z) s : bool :=
  bool_decide (is_Some (slashes s !! (spID, objectID))).

Definition SetSpSlashAmount (spID amount : Z) s : ChallengeStore :=
  on_slash_amounts (insert spID amount) s.
Definition GetSpSlashAmount (spID : Z) s : Z := default 0 (slash_amounts s !! spID).
Definition ClearSpSlashAmount s : ChallengeStore := on_slash_amounts (fun _ => ∅) s.

(** ** The attested challenges: a ring of the last ones *)

(** The loop from the slot after [current] to [cursor] *)
Fixpoint walk_ring (fuel : nat) (size cursor current : Z) (ring : gmap Z AttestedChallenge)
    : option (list AttestedChallenge) :=
  match fuel with
  | O => None
  | S fuel' =>
      let current := u64 (current + 1) mod size in
      let here := option_list (ring !! current) in
      if current =? cursor then Some here
      else app here <$> walk_ring fuel' size cursor current ring
  end.

(** No remainder by zero, and a cursor that is not set cannot be read. *)
Definition GetAttestedChallenges : HM (list AttestedChallenge) :=
  let! c := get in
  match attested_size (ch c) with
  | None => ret []
  | Some size =>
      let! cursor := must (attested_cursor (ch c)) in
      if size =? 0 then panic
      else
        match walk_ring (Z.to_nat size) size cursor cursor (attested (ch c)) with
        | Some l => ret l
        | None => nofuel
        end
  end.

Definition enqueueAttestedChallenge (challenge : AttestedChallenge) : HM unit :=
  let! c := get in
  let! size := must (attested_size (ch c)) in
  let! cursor :=
    match attested_cursor (ch c) with
    | None => ret 0
    | Some cursor => if size =? 0 then panic else ret (u64 (cursor + 1) mod size)
    end in
  on_ch (fun s => set_ring (attested_size s) (Some cursor) (<[cursor := challenge]> (attested s)) s).

Fixpoint enqueue_all (l : list AttestedChallenge) : HM unit :=
  match l with
  | [] => ret tt
  | x :: rest => do! enqueueAttestedChallenge x ;; enqueue_all rest
  end.

Definition AppendAttestedChallenge (challenge : AttestedChallenge) : HM unit :=
  let! c := get in
  let toKeep := AttestationKeptCount (Ch_GetParams (ch c)) in
  match attested_size (ch c) with
  | None =>
      do! on_ch (fun s => set_ring (Some toKeep) (attested_cursor s) (attested s) s) ;;
      enqueueAttestedChallenge challenge
  | Some size =>
      do! (if negb (size =? toKeep) then
             let! currentChallenges := GetAttestedChallenges in
             do! on_ch (set_ring (Some toKeep) None ∅) ;;
             enqueue_all currentChallenges
           else ret tt) ;;
      enqueueAttestedChallenge challenge
  end.

(** ** Who may submit an attestation ([keeper.go]) *)

(** The key of the validator in turn, and the interval of its turn *)
Definition getInturnSubmitter ctx (interval : Z) : HM (list Z * (Z * Z)) :=
  let! validators := or_fail (GetHistoricalInfo (height_of ctx)) ErrInvalidVoteValidatorSet in
  let totalIntervals := u64 (interval * Z.of_nat (length validators)) in
  let curTimeStamp := u64 (now (cc_storage ctx)) in
  if (totalIntervals =? 0) || (interval =? 0) then panic
  else
    let remainder := curTimeStamp mod totalIntervals in
    let inTurnIndex := remainder / interval in
    let start := u64 (curTimeStamp - u64 (remainder - u64 (inTurnIndex * interval))) in
    let end_ := u64 (start + interval) in
    let! inturnChallenger := must (validators !! Z.to_nat inTurnIndex) in
    ret (val_BlsKey inturnChallenger, (start, end_)).

Definition isInturnAttestation ctx (submitter : Addr) (validators : list Validator) : HM bool :=
  let! vldr := or_fail (List.find (fun v => bool_decide (val_ChallengerAddress v =
                                                         AccAddress_String submitter)) validators)
                 ErrNotChallenger in
  let! c := get in
  let! x := getInturnSubmitter ctx (AttestationInturnInterval (Ch_GetParams (ch c))) in
  ret (bool_decide (x.1 = val_BlsKey vldr)).

(** ** The signature of an attestation ([bls_signed_msg.go]) *)

Definition acc_bytes (a : Addr) : list Z := be_bytes 20 a.

(** The bytes [GetBlsSignBytes] hashes *)
Definition sign_bytes (chainID : list Z) (challengeId objectId : Z) (result : VoteResult)
    (spOperator : Addr) (challenger : option Addr) : list Z :=
  chainID ++ be_bytes 8 challengeId ++ big_bytes objectId ++ be_bytes 8 (u64 (vote_code result)) ++
  acc_bytes spOperator ++ match challenger with Some a => acc_bytes a | None => [] end.

(** The address in a text that may be empty *)
Definition maybe_acc (text : string) : HM (option Addr) :=
  if bool_decide (text = EmptyString) then ret None
  else let! a := MustAcc text in ret (Some a).

Definition GetBlsSignBytes ctx (msg : MsgAttest) : HM (list Z) :=
  let! spOperator := MustAcc (ma_SpOperatorAddress msg) in
  let! challenger := maybe_acc (ma_ChallengerAddress msg) in
  ret (Keccak256 (sign_bytes (ChainID ctx) (ma_ChallengeId msg) (ma_ObjectId msg)
                    (ma_VoteResult msg) spOperator challenger)).

(** The validators whose bit is set, with their keys; [index] is the index of
    the first. *)
Fixpoint voted (bits : list Z) (index : Z) (validators : list Validator)
    : HM (list (string * BlsPublicKey)) :=
  match validators with
  | [] => ret []
  | val :: rest =>
      if bitset_Test bits index then
        let! votePubKey := or_fail (UnmarshalPublicKey (val_BlsKey val)) ErrChInvalidBlsPubKey in
        let! more := voted bits (index + 1) rest in
        ret ((val_ChallengerAddress val, votePubKey) :: more)
      else voted bits (index + 1) rest
  end.

Definition verifySignature ctx (msg : MsgAttest) (validators : list Validator)
    : HM (list string) :=
  let bits := ma_VoteValidatorSet msg in
  let n := Z.of_nat (length validators) in
  do! guard (n <? bitset_Count bits) ErrInvalidVoteValidatorSet ;;
  let! votes := voted bits 0 validators in
  do! guard (Z.of_nat (length votes) <=? n * 2 / 3) ErrNotEnoughVotes ;;
  let! aggSig := or_fail (UnmarshalSignature (ma_VoteAggSignature msg)) ErrInvalidVoteAggSignature in
  let! signedMsgBts := GetBlsSignBytes ctx msg in
  do! guard (negb (VerifyAggregated aggSig (votes.*2) signedMsgBts)) ErrInvalidVoteAggSignature ;;
  ret (votes.*1).

(** ** Amounts ([msg_server_attest.go]) *)

Definition calculateSlashAmount (objectSize : Z) : HM Z :=
  let! c := get in
  let params := Ch_GetParams (ch c) in
  let! sizeRate := must (SlashAmountSizeRate params) in
  let objectSizeInGB := dec_QuoRoundUp (NewDec objectSize) (NewDec oneGBBytes) in
  let slashAmount := TruncateInt (dec_Mul (dec_Mul objectSizeInGB sizeRate) (NewDec (10 ^ 18))) in
  let! min := must (SlashAmountMin params) in
  if slashAmount <? min then ret min
  else
    let! max := must (SlashAmountMax params) in
    if max <? slashAmount then ret max else ret slashAmount.

(** The submitter's share of an amount *)
Definition submitter_share (total : Z) : HM Z :=
  let! c := get in
  let params := Ch_GetParams (ch c) in
  let! threshold := must (RewardSubmitterThreshold params) in
  let! ratio := must (RewardSubmitterRatio params) in
  let submitterReward := TruncateInt (dec_Mul ratio (NewDec total)) in
  ret (if threshold <? submitterReward then threshold else submitterReward).

(** The rewards of the challenger, of each validator and of the submitter.
    The loop that takes the reward of a validator from the total once for each
    is a product. *)
Definition calculateSlashRewards (total : Z) (challenger : option Addr) (validators : Z)
    : HM (Z * Z * Z) :=
  let! submitterReward := submitter_share total in
  let total := total - submitterReward in
  match challenger with
  | None =>
      if validators =? 0 then panic
      else
        let eachValidatorReward := Z.quot total validators in
        let total := total - Z.max 0 validators * eachValidatorReward in
        ret (0, eachValidatorReward, submitterReward + total)
  | Some _ =>
      let! c := get in
      let! validatorRatio := must (RewardValidatorRatio (Ch_GetParams (ch c))) in
      if validators =? 0 then panic
      else
        let eachValidatorReward :=
          TruncateInt (dec_QuoInt64 (dec_MulInt validatorRatio total) validators) in
        let total := total - Z.max 0 validators * eachValidatorReward in
        ret (total, eachValidatorReward, submitterReward)
  end.

(** The rewards in the order they are paid *)
Definition reward_list (denom : string) (challenger : option Addr) (validators : list string)
    (submitter : Addr) (challengerReward eachValidatorReward submitterReward : Z)
    : list RewardInfo :=
  option_list ((fun a => mkReward (AccAddress_String a) (denom, challengerReward)) <$> challenger) ++
  ((fun val => mkReward val (denom, eachValidatorReward)) <$> validators) ++
  [mkReward (AccAddress_String submitter) (denom, submitterReward)].

Definition doSlashAndRewards (slashAmount spID : Z) (submitter : Addr) (challenger : option Addr)
    (validators : list string) : HM unit :=
  if slashAmount =? 0 then ret tt
  else
    let! x := calculateSlashRewards slashAmount challenger (Z.of_nat (length validators)) in
    let '(challengerReward, eachValidatorReward, submitterReward) := x in
    let! c := get in
    let denom := DepositDenomForSP (sps (wd (base c))) in
    let rewards := reward_list denom challenger validators submitter challengerReward
                     eachValidatorReward submitterReward in
    if (0 <? challengerReward) || (0 <? eachValidatorReward) || (0 <? submitterReward)
    then on_sp (Slash spID rewards) else ret tt.

Definition calculateHeartbeatRewards (total : Z) : HM (Z * Z) :=
  let! submitterReward := submitter_share total in
  ret (total - submitterReward, submitterReward).

Definition withdraw_positive ctx (toAddr : Addr) (amount : Z) : HM unit :=
  if 0 <? amount then
    on_pay_keeper (Keeper_Withdraw (pay_ctx (cc_storage ctx)) ValidatorTaxPoolAddress toAddr amount)
  else ret tt.

Definition doHeartbeatAndRewards ctx (submitter : Addr) : HM unit :=
  let! totalAmount :=
    on_pay_keeper (QueryDynamicBalance (pay_ctx (cc_storage ctx)) ValidatorTaxPoolAddress) in
  if totalAmount =? 0 then ret tt
  else
    let! x := calculateHeartbeatRewards totalAmount in
    let '(validatorReward, submitterReward) := x in
    do! withdraw_positive ctx (ModuleAddress DistrModuleName) validatorReward ;;
    withdraw_positive ctx submitter submitterReward.

(** ** Messages *)

Definition MsgSubmit_ValidateBasic {HRegexps : Regexps} (msg : MsgSubmit) : bool :=
  is_address (ms_Challenger msg) && is_address (ms_SpOperatorAddress msg) &&
  CheckValidBucketName (ms_BucketName msg) && CheckValidObjectName (ms_ObjectName msg).

Definition BlsSignatureLength : nat := 64.

Definition MsgAttest_ValidateBasic (msg : MsgAttest) : bool :=
  is_address (ma_Submitter msg) && is_address (ma_SpOperatorAddress msg) &&
  (bool_decide (ma_VoteResult msg = CHALLENGE_SUCCEED) ||
   bool_decide (ma_VoteResult msg = CHALLENGE_FAILED)) &&
  absent_or_address (ma_ChallengerAddress msg) &&
  negb (bool_decide (ma_VoteValidatorSet msg = [])) &&
  (length (ma_VoteAggSignature msg) =? BlsSignatureLength)%nat.

(** In service, or exiting *)
Definition challengeable (sp : StorageProvider) : bool := IsInService sp || is_exiting sp.

(** The index of the first secondary provider with the operator address *)
Fixpoint find_secondary (spOperator : Addr) (index : Z) (ids : list Z) : HM (option Z) :=
  match ids with
  | [] => ret None
  | spID :: rest =>
      let! c := get in
      let! tmpSp := or_fail (GetStorageProvider spID (sps (wd (base c)))) ErrUnknownSp in
      if spOperator =? OperatorAddress tmpSp then ret (Some (i32 index))
      else find_secondary spOperator (index + 1) rest
  end.

(** The place of the challenged provider in the group of the object *)
Definition place_of (spOperator : Addr) (sp : StorageProvider) (b : BucketInfo) (o : ObjectInfo)
    : HM Z :=
  if spOperator =? OperatorAddress sp then ret RedundancyIndexPrimary
  else
    let! found := on_storage (GetObjectGVG (b_Id b) (ob_LocalVirtualGroupId o)) in
    let! gvg := or_fail found ErrCannotFindGVG in
    let! place := find_secondary spOperator 0 (SecondarySpIds gvg) in
    or_fail place ErrNotStoredOnSp.

(** Saves the next challenge and gives its id. *)
Definition new_challenge (expiredHeight : Z) : HM Z :=
  let! c := get in
  let challengeID := u64 (GetChallengeId (ch c) + 1) in
  do! on_ch (SaveChallenge challengeID expiredHeight) ;;
  ret challengeID.

Definition Submit ctx (msg : MsgSubmit) : HM Z :=
  let! spOperator := MustAcc (ms_SpOperatorAddress msg) in
  let! challenger := MustAcc (ms_Challenger msg) in
  let! c := get in
  let! b := or_fail (St_GetBucketInfo (ms_BucketName msg) (base c)) ErrUnknownBucketObject in
  let! sp := on_storage (MustGetPrimarySPForBucket b) in
  do! guard (negb (challengeable sp)) ErrInvalidSpStatus ;;
  let! o := or_fail (St_GetObjectInfo (ms_BucketName msg) (ms_ObjectName msg) (base c))
              ErrUnknownBucketObject in
  do! guard (negb (status_is OBJECT_STATUS_SEALED o)) ErrChInvalidObjectStatus ;;
  do! guard (ob_PayloadSize o =? 0) ErrInvalidSegmentIndex ;;
  let! redundancyIndex := place_of spOperator sp b o in
  do! guard (ExistsSlash (sp_Id sp) (ob_Id o) (ch c)) ErrExistsRecentSlash ;;
  let! segmentSize := or_fail (St_MaxSegmentSize (GetLatestUpdatedTime o) (st (base c)))
                        ErrInvalidSegmentIndex in
  let! segments := must (CalculateSegments (ob_PayloadSize o) segmentSize) in
  let! segmentIndex :=
    (if ms_RandomIndex msg then must (RandomSegmentIndex (RandaoMix ctx) segments)
     else
       do! guard (u64 (segments - 1) <? ms_SegmentIndex msg) ErrInvalidSegmentIndex ;;
       ret (ms_SegmentIndex msg)) in
  do! on_ch IncrChallengeCountCurrentBlock ;;
  let expiredHeight :=
    u64 (ChallengeKeepAlivePeriod (Ch_GetParams (ch c)) + u64 (height_of ctx)) in
  let! challengeID := new_challenge expiredHeight in
  do! modify (emit [mkStart challengeID (ob_Id o) segmentIndex (sp_Id sp) spOperator
                      redundancyIndex (Some challenger) expiredHeight]) ;;
  ret challengeID.

(** The provider still stores the object; a group that is not found is nil. *)
Definition still_stores (sp : StorageProvider) (b : BucketInfo) (o : ObjectInfo) : HM unit :=
  let! spInState := on_storage (MustGetPrimarySPForBucket b) in
  if sp_Id spInState =? sp_Id sp then ret tt
  else
    let! found := on_storage (GetObjectGVG (b_Id b) (ob_LocalVirtualGroupId o)) in
    let! gvg := must found in
    guard (negb (existsb (Z.eqb (sp_Id sp)) (SecondarySpIds gvg))) ErrNotStoredOnSp.

(** The amount to slash: nothing when the provider would be slashed for more
    than the maximum of the window, unless it is its first. *)
Definition capped_amount (spID amount : Z) : HM Z :=
  let! c := get in
  let slashedAmount := GetSpSlashAmount spID (ch c) in
  if slashedAmount =? 0 then ret amount
  else
    let! maxSlashAmount := must (SpSlashMaxAmount (Ch_GetParams (ch c))) in
    ret (if maxSlashAmount <? slashedAmount + amount then 0 else amount).

Definition slash_provider ctx (sp : StorageProvider) (o : ObjectInfo) (objectID : Z)
    (submitter : Addr) (challenger : option Addr) (validators : list string) : HM unit :=
  let! c := get in
  do! guard (ExistsSlash (sp_Id sp) objectID (ch c)) ErrDuplicatedSlash ;;
  let! amount := calculateSlashAmount (ob_PayloadSize o) in
  let slashedAmount := GetSpSlashAmount (sp_Id sp) (ch c) in
  let! toSlashAmount := capped_amount (sp_Id sp) amount in
  do! doSlashAndRewards toSlashAmount (sp_Id sp) submitter challenger validators ;;
  do! on_ch (SaveSlash (sp_Id sp) objectID (u64 (height_of ctx))) ;;
  on_ch (SetSpSlashAmount (sp_Id sp) (slashedAmount + toSlashAmount)).

Definition heartbeat ctx (challengeID : Z) (submitter : Addr) : HM unit :=
  let! c := get in
  let heartbeatInterval := HeartbeatInterval (Ch_GetParams (ch c)) in
  if heartbeatInterval =? 0 then panic
  else
    do! guard (negb (challengeID mod heartbeatInterval =? 0)) ErrInvalidChallengeID ;;
    doHeartbeatAndRewards ctx submitter.

Definition Attest ctx (msg : MsgAttest) : HM unit :=
  let! submitter := MustAcc (ma_Submitter msg) in
  let! spOperator := MustAcc (ma_SpOperatorAddress msg) in
  let! c := get in
  let! sp := or_fail (GetStorageProviderByOperatorAddr spOperator (sps (wd (base c)))) ErrUnknownSp in
  let! challenger := maybe_acc (ma_ChallengerAddress msg) in
  do! guard (negb (ExistsChallenge (ma_ChallengeId msg) (ch c))) ErrInvalidChallengeID ;;
  let! allValidators := or_fail (GetHistoricalInfo (height_of ctx)) ErrInvalidVoteValidatorSet in
  let! inTurn := isInturnAttestation ctx submitter allValidators in
  do! guard (negb inTurn) ErrNotInturnChallenger ;;
  let! validators := verifySignature ctx msg allValidators in
  let! o := or_fail (GetObjectInfoById (ma_ObjectId msg) (base c)) ErrUnknownBucketObject in
  let! b := or_fail (St_GetBucketInfo (ob_BucketName o) (base c)) (ErrOfStorage ErrNoSuchBucket) in
  do! still_stores sp b o ;;
  do! (if bool_decide (ma_VoteResult msg = CHALLENGE_SUCCEED)
       then slash_provider ctx sp o (ma_ObjectId msg) submitter challenger validators
       else heartbeat ctx (ma_ChallengeId msg) submitter) ;;
  AppendAttestedChallenge (mkAttested (ma_ChallengeId msg) (ma_VoteResult msg)).

Definition Ch_UpdateParams (authority reqAuthority : string) (p : ChParams) : HM unit :=
  do! guard (negb (bool_decide (authority = reqAuthority))) ErrChInvalidSigner ;;
  Ch_SetParams p.

(** ** The start of a block *)

Definition Ch_BeginBlocker ctx : HM unit :=
  let blockHeight := u64 (height_of ctx) in
  do! on_ch (RemoveChallengeUntil blockHeight) ;;
  let! c := get in
  let params := Ch_GetParams (ch c) in
  let coolingOffPeriod := SlashCoolingOffPeriod params in
  do! (if coolingOffPeriod <? blockHeight
       then on_ch (RemoveSlashUntil (blockHeight - coolingOffPeriod)) else ret tt) ;;
  if (0 <? SpSlashCountingWindow params) && (0 <? blockHeight) &&
     (blockHeight mod SpSlashCountingWindow params =? 0)
  then on_ch ClearSpSlashAmount else ret tt.

(** ** The end of a block *)

(** The provider at a place of a group; a place out of range panics. *)
Definition provider_at (gvg : GlobalVirtualGroup) (redundancyIndex : Z) : HM Z :=
  if redundancyIndex =? RedundancyIndexPrimary then ret (PrimarySpId gvg)
  else if redundancyIndex <? 0 then panic
  else must (SecondarySpIds gvg !! Z.to_nat redundancyIndex).

(** One attempt: what a new challenge is about, or [None] where the loop
    continues *)
Definition pick ctx (objectCount iteration : Z) (objectMap : list (Z * Z)) : HM (option Picked) :=
  let! seed := must (SeedFromRandaoMix (RandaoMix ctx) iteration) in
  let! objectID := must (RandomObjectID seed objectCount) in
  let! c := get in
  match GetObjectInfoById objectID (base c) with
  | None => ret None
  | Some o =>
      if negb (status_is OBJECT_STATUS_SEALED o) || (ob_PayloadSize o =? 0) then ret None
      else
        match St_GetBucketInfo (ob_BucketName o) (base c) with
        | None => ret None
        | Some b =>
            let! found := on_storage (GetObjectGVG (b_Id b) (ob_LocalVirtualGroupId o)) in
            match found with
            | None => ret None
            | Some gvg =>
                let! redundancyIndex :=
                  must (RandomRedundancyIndex seed (Z.of_nat (length (SecondarySpIds gvg)) + 1)) in
                let! spOperatorID := provider_at gvg redundancyIndex in
                match GetStorageProvider spOperatorID (sps (wd (base c))) with
                | None => ret None
                | Some sp =>
                    if negb (challengeable sp) ||
                       bool_decide ((spOperatorID, ob_Id o) ∈ objectMap) ||
                       ExistsSlash (sp_Id sp) (ob_Id o) (ch c)
                    then ret None
                    else
                      match St_MaxSegmentSize (GetLatestUpdatedTime o) (st (base c)) with
                      | None => ret None
                      | Some segmentSize =>
                          let! segments := must (CalculateSegments (ob_PayloadSize o) segmentSize) in
                          let! segmentIndex := must (RandomSegmentIndex seed segments) in
                          ret (Some (mkPicked o spOperatorID sp redundancyIndex segmentIndex))
                      end
                end
            end
        end
  end.

Definition start_event (p : Picked) (challengeID expiredHeight : Z) : EventStartChallenge :=
  mkStart challengeID (ob_Id (pk_object p)) (pk_segment p) (sp_Id (pk_sp p))
    (OperatorAddress (pk_sp p)) (pk_place p) None expiredHeight.

(** The loop, with the iterations left; the events are emitted after it. *)
Fixpoint start_challenges ctx (objectCount expiredHeight needed : Z) (left : nat)
    (iteration count : Z) (objectMap : list (Z * Z)) : HM (list EventStartChallenge) :=
  match left with
  | O => ret []
  | S left' =>
      if needed <=? count then ret []
      else
        let iteration := iteration + 1 in
        let! picked := pick ctx objectCount iteration objectMap in
        match picked with
        | None => start_challenges ctx objectCount expiredHeight needed left' iteration count objectMap
        | Some p =>
            let! challengeID := new_challenge expiredHeight in
            let! events := start_challenges ctx objectCount expiredHeight needed left' iteration
                             (count + 1) ((pk_sp_id p, ob_Id (pk_object p)) :: objectMap) in
            ret (start_event p challengeID expiredHeight :: events)
        end
  end.

Definition Ch_EndBlocker ctx : HM unit :=
  let! c := get in
  let count := GetChallengeCountCurrentBlock (ch c) in
  let params := Ch_GetParams (ch c) in
  let needed := ChallengeCountPerBlock params in
  if needed <=? count then ret tt
  else
    let objectCount := GetObjectInfoCount (base c) in
    if objectCount =? 0 then ret tt
    else
      let expiredHeight := u64 (ChallengeKeepAlivePeriod params + u64 (height_of ctx)) in
      let maxIteration := u64 (10 * (needed - count)) in
      let! events := start_challenges ctx objectCount expiredHeight needed
                       (Z.to_nat maxIteration) 0 count [] in
      modify (emit events).

(** ** Genesis and queries *)

Definition Ch_InitGenesis (p : ChParams) : HM unit := on_err (Ch_SetParams p) (fun _ => panic).
Definition Ch_ExportGenesis c : ChParams := Ch_GetParams (ch c).

Definition AttestedChallengeQuery (challengeId : Z) : HM AttestedChallenge :=
  let! challenges := GetAttestedChallenges in
  or_fail (List.find (fun x => at_Id x =? challengeId) challenges) ErrChNotFound.

Definition InturnAttestationSubmitter ctx : HM (list Z * (Z * Z)) :=
  let! c := get in
  getInturnSubmitter ctx (AttestationInturnInterval (Ch_GetParams (ch c))).

End Keeper.

Abbreviation HM B N := (M (ChallengeChain B N) challenge_error).
