(* ===== verification/ChallengeTheorems.v ===== *)
(** * x/challenge: properties

    What the end blocker challenges, how long a challenge lives, who may
    attest and what an attestation takes from a provider, the ring of attested
    challenges and the bytes validators sign, each with a witness. *)

From S2P Require Import Prelude Sdk Bytes StorageTypes Grn Permission PermissionKeeper.
From S2P Require Import StoragePermission StorageGC FeeMarket FeeMarketTheorems.
From S2P Require Import SpTypes SpKeeper SpMsg SpFacts.
From S2P Require Import VirtualGroupTypes VirtualGroupKeeper VirtualGroupPayment.
From S2P Require Import VirtualGroupTheorems.
From S2P Require Import PaymentTypes PaymentStore PaymentStream PaymentFlows PaymentInstance.
From S2P Require Import StorageStore StorageCharge StorageGroups StorageObjects StorageLedger.
From S2P Require Import StorageTheorems Challenge.

(** ** Random choices *)

Section Random.
Context {HKeccak : Keccak} {HLaws : KeccakLaws}.

Lemma be_val_nonneg l : Forall (fun b => 0 <= b < 256) l -> 0 <= be_val l.
Proof.
  unfold be_val. intros Hl. enough (forall acc, 0 <= acc ->
    0 <= foldl (fun acc b => acc * 256 + b) acc l) by (by apply H).
  induction Hl as [|b l Hb _ IH]; intros acc Hacc; simpl; [done|]. apply IH. lia.
Qed.

Lemma keccak_nonneg l : 0 <= be_val (Keccak256 l).
Proof. apply be_val_nonneg, Keccak256_bytes. Qed.

Lemma mix_in_Some mix seed :
  (length mix <= length seed)%nat -> exists l, mix_in mix seed = Some l /\ length l = length seed.
Proof.
  revert seed. induction mix as [|m mix IH]; intros [|b seed] Hl; simpl in *; try lia; eauto.
  destruct (IH seed) as (l & -> & Hlen); [lia|]. exists (Z.lxor m b :: l). simpl. auto.
Qed.

Lemma seed_Some mix number :
  (length mix <= 64)%nat ->
  exists seed, SeedFromRandaoMix mix number = Some seed /\ length seed = 64%nat.
Proof.
  intros Hl. unfold SeedFromRandaoMix. destruct (mix_in_Some mix
    (Keccak256 (be_bytes 8 (two64 - 1 - number)) ++ Keccak256 (be_bytes 8 number)))
    as (l & -> & Hlen); rewrite ?length_app, !Keccak256_length in *; eauto; lia.
Qed.

Lemma object_id_range seed count :
  0 < count -> exists id, RandomObjectID seed count = Some id /\ 1 <= id <= count.
Proof.
  intros Hc. unfold RandomObjectID. destruct (Z.eqb_spec count 0); [lia|].
  eexists. split; [done|]. pose proof (Z.mod_pos_bound (be_val (Keccak256 seed)) count Hc). lia.
Qed.

(** A remainder by a 64-bit number read as signed stays below the number. *)
Lemma signed_mod x n :
  0 < n < two64 -> exists i, big_Mod x (i64 n) = Some i /\ 0 <= i < n.
Proof.
  intros Hn. unfold big_Mod.
  assert (0 < Z.abs (i64 n) <= n) as Habs.
  { unfold i64, two63, two64 in *. pose proof (Z.mod_pos_bound (n + 2 ^ 63) (2 ^ 64) ltac:(lia)).
    destruct (Z.lt_ge_cases n (2 ^ 63)).
    - rewrite Z.mod_small by lia. lia.
    - replace (n + 2 ^ 63) with (n + 2 ^ 63 - 2 ^ 64 + 1 * 2 ^ 64) by lia.
      rewrite Z.mod_add, Z.mod_small by lia. lia. }
  destruct (Z.eqb_spec (i64 n) 0) as [E|]; [lia|]. eexists. split; [done|].
  pose proof (Z.mod_pos_bound x (Z.abs (i64 n)) ltac:(lia)). lia.
Qed.

Lemma segment_range seed segments :
  (32 <= length seed)%nat -> 0 < segments < two64 ->
  exists i, RandomSegmentIndex seed segments = Some i /\ 0 <= i < segments.
Proof.
  intros Hl Hs. unfold RandomSegmentIndex. destruct (Nat.ltb_spec (length seed) 32); [lia|].
  destruct (signed_mod (be_val (Keccak256 (take 32 seed))) segments Hs) as (i & -> & Hi).
  exists (u32 i). split; [done|]. unfold u32, two32.
  pose proof (Z.mod_pos_bound i (2 ^ 32) ltac:(lia)).
  pose proof (Z.mod_le i (2 ^ 32) ltac:(lia) ltac:(lia)). lia.
Qed.

Lemma place_range seed n :
  (32 <= length seed)%nat -> 0 <= n < 2 ^ 31 ->
  exists i, RandomRedundancyIndex seed (n + 1) = Some i /\ -1 <= i < n.
Proof.
  intros Hl Hn. unfold RandomRedundancyIndex. destruct (Nat.ltb_spec (length seed) 32); [lia|].
  destruct (signed_mod (be_val (Keccak256 (skipn 32 seed))) (n + 1)) as (i & -> & Hi).
  { unfold two64. lia. }
  exists (i32 i - 1). split; [done|]. unfold i32, two32. rewrite Z.mod_small by lia. lia.
Qed.

Lemma segments_ceil payload size :
  0 < payload -> 0 < size ->
  exists n, CalculateSegments payload size = Some n /\ 0 < n <= payload /\
    (n - 1) * size < payload <= n * size.
Proof.
  intros Hp Hs. unfold CalculateSegments. destruct (Z.eqb_spec size 0); [lia|]. eexists. split; [done|].
  pose proof (Z.div_mod payload size ltac:(lia)) as Hdm.
  pose proof (Z.mod_pos_bound payload size Hs).
  assert (0 <= payload / size) by (apply Z.div_pos; lia).
  destruct (Z.eqb_spec (payload mod size) 0); nia.
Qed.

End Random.

(** ** What a vote signs *)

Lemma be_bytes_inj n x y :
  0 <= x < 256 ^ Z.of_nat n -> 0 <= y < 256 ^ Z.of_nat n -> be_bytes n x = be_bytes n y -> x = y.
Proof.
  intros Hx Hy E. apply (f_equal be_val) in E. rewrite !be_val_bytes, !Z.mod_small in E by done.
  done.
Qed.

Lemma be_bytes_bytes n x : Forall (fun b => 0 <= b < 256) (be_bytes n x).
Proof.
  induction n; simpl; constructor; [|done]. change 255 with (Z.ones 8).
  rewrite Z.land_ones by lia. apply Z.mod_pos_bound. lia.
Qed.

Lemma nbytes_le x n : 0 <= x < 256 ^ Z.of_nat n -> (nbytes x <= n)%nat.
Proof.
  intros Hx. unfold nbytes. destruct (Z.leb_spec x 0); [lia|].
  assert (Z.log2 x < 8 * Z.of_nat n) as Hl.
  { apply Z.log2_lt_pow2; [lia|]. rewrite Z.pow_mul_r by lia. apply Hx. }
  pose proof (Z.log2_nonneg x). pose proof (Z.div_lt_upper_bound (Z.log2 x) 8 (Z.of_nat n)).
  assert (0 <= Z.log2 x / 8) by (apply Z.div_pos; lia). lia.
Qed.

(** A vote of an attestation that passed the stateless checks, for an object
    whose id has at most 19 bytes: ids are counted from one, and the checks of
    the message do not bound them. *)
Record vote_ok (challengeId objectId : Z) (result : VoteResult) (sp : Addr) (ch : option Addr)
    : Prop := mkVoteOk {
  vo_id : 0 <= challengeId < two64;
  vo_object : 0 <= objectId < 2 ^ 152;
  vo_result : result = CHALLENGE_SUCCEED \/ result = CHALLENGE_FAILED;
  vo_sp : 0 <= sp < 2 ^ 160;
  vo_challenger : forall a, ch = Some a -> 0 <= a < 2 ^ 160;
}.

Lemma sign_bytes_inj chainID id o r sp a id' o' r' sp' a' :
  vote_ok id o r sp a -> vote_ok id' o' r' sp' a' ->
  sign_bytes chainID id o r sp a = sign_bytes chainID id' o' r' sp' a' ->
  id = id' /\ o = o' /\ r = r' /\ sp = sp' /\ a = a'.
Proof.
  intros [Hi Ho Hr Hs Ha] [Hi' Ho' Hr' Hs' Ha'] E. unfold sign_bytes, acc_bytes in E.
  apply app_inv_head in E. apply app_inj_1 in E as [Eid E]; [|by rewrite !be_bytes_length].
  pose proof (f_equal length E) as Hlen. rewrite !length_app, !be_bytes_length in Hlen.
  unfold big_bytes in Hlen. rewrite !be_bytes_length in Hlen.
  pose proof (nbytes_le o 19 Ho). pose proof (nbytes_le o' 19 Ho').
  assert (length (big_bytes o) = length (big_bytes o')) as Hol.
  { unfold big_bytes. rewrite !be_bytes_length.
    destruct a, a'; rewrite ?be_bytes_length in Hlen; simpl in Hlen; lia. }
  apply app_inj_1 in E as [Eo E]; [|done].
  apply app_inj_1 in E as [Er E]; [|by rewrite !be_bytes_length].
  apply app_inj_1 in E as [Es E]; [|by rewrite !be_bytes_length]. split_and!.
  - by apply (be_bytes_inj 8).
  - apply big_bytes_inj in Eo; lia.
  - destruct Hr as [-> | ->], Hr' as [-> | ->]; try done.
  - by apply (be_bytes_inj 20).
  - destruct a as [a|], a' as [a'|]; [|done..]. f_equal. apply (be_bytes_inj 20); auto.
Qed.

(** C32: Votes on different things sign different bytes: on another challenge,
    object, result, provider or challenger, or without a challenger, although
    the object id and the challenger have no fixed length.  Ids of objects are
    below 2^152; [sign_bytes_ambiguous] shows that a bound is needed. *)
Theorem sign_bytes_determine chainID id o r sp a id' o' r' sp' a' :
  vote_ok id o r sp a -> vote_ok id' o' r' sp' a' ->
  (id, o, r, sp, a) <> (id', o', r', sp', a') ->
  sign_bytes chainID id o r sp a <> sign_bytes chainID id' o' r' sp' a'.
Proof.
  intros Hv Hv' Hne E. apply Hne.
  by destruct (sign_bytes_inj _ _ _ _ _ _ _ _ _ _ _ Hv Hv' E) as (-> & -> & -> & -> & ->).
Qed.

(** The same challenge and provider, with an object id of two bytes and a
    challenger, and with one of one byte and none *)
Lemma sign_bytes_determine_witness :
  sign_bytes [109] 7 300 CHALLENGE_SUCCEED 3 None <>
  sign_bytes [109] 7 1 CHALLENGE_SUCCEED 3 (Some 44).
Proof.
  assert (vote_ok 7 300 CHALLENGE_SUCCEED 3 None) as H by (split; try done; lia || auto).
  assert (vote_ok 7 1 CHALLENGE_SUCCEED 3 (Some 44)) as H'
    by (split; try done; [auto|by intros x [= <-]]).
  exact (sign_bytes_determine [109] 7 300 CHALLENGE_SUCCEED 3 None 7 1 CHALLENGE_SUCCEED 3 (Some 44)
    H H' ltac:(discriminate)).
Defined.

(** With an object id of 21 bytes a vote without a challenger, on the provider
    44, has the bytes of a vote on object 1 with the challenger 44. *)
Lemma sign_bytes_ambiguous :
  let o := be_val ([1] ++ be_bytes 8 1 ++ be_bytes 12 5) in
  2 ^ 160 <= o < 2 ^ 168 /\
  sign_bytes [109] 7 o CHALLENGE_SUCCEED 44 None =
  sign_bytes [109] 7 1 CHALLENGE_SUCCEED (5 * 2 ^ 64 + 1) (Some 44).
Proof. vm_compute. repeat split; discriminate. Qed.

(** ** Turns *)

Section Turns.
Context {B N : Type} {HStaking : StakingKeeper}.
Implicit Types c : ChallengeChain B N.

Lemma turn_div t i n : 0 < i -> 0 < n -> t mod (i * n) / i = (t / i) mod n.
Proof.
  intros Hi Hn. rewrite Z.rem_mul_r by lia. rewrite (Z.mul_comm i), Z.div_add by lia.
  rewrite (Z.div_small (t mod i)) by (apply Z.mod_pos_bound; lia). lia.
Qed.

Lemma turn_start t i n : 0 < i -> 0 < n -> t mod (i * n) - (t / i) mod n * i = t mod i.
Proof. intros Hi Hn. rewrite Z.rem_mul_r by lia. lia. Qed.


End Turns.

(** ** The attested challenges *)

(** The last [n] elements *)
Definition last_n {A} (n : nat) (l : list A) : list A := skipn (length l - n) l.

Lemma last_n_reverse {A} n (l : list A) : reverse (last_n n l) = take n (reverse l).
Proof.
  unfold last_n. rewrite <- (take_drop (length l - n) l) at 3. rewrite reverse_app.
  destruct (decide (n <= length l)%nat).
  - assert (length (reverse (skipn (length l - n) l)) = n) as Hn
      by (rewrite length_reverse, length_skipn; lia).
    rewrite take_app_le, take_ge by lia. done.
  - replace (length l - n)%nat with 0%nat by lia. simpl. rewrite take_ge; [by rewrite app_nil_r|].
    rewrite length_app, !length_reverse. rewrite length_skipn. simpl. lia.
Qed.

Lemma last_n_snoc {A} n (l : list A) x :
  (0 < n)%nat -> reverse (last_n n (l ++ [x])) = x :: take (n - 1) (reverse l).
Proof.
  intros Hn. rewrite last_n_reverse, reverse_app. destruct n; [lia|]. simpl. by rewrite Nat.sub_0_r.
Qed.

Lemma last_n_last {A} n m (l l' : list A) :
  last_n n (last_n (n + m) l ++ l') = last_n n (l ++ l').
Proof.
  apply (inj reverse). rewrite !last_n_reverse, !reverse_app, last_n_reverse.
  rewrite !take_app, take_take. f_equal. f_equal. lia.
Qed.

(** Slot [cursor - j] modulo the size holds the element number [j] from the
    end. *)
Record ring_rep (n k : Z) (ring : gmap Z AttestedChallenge) (l : list AttestedChallenge)
    : Prop := mkRingRep {
  rr_cursor : 0 <= k < n;
  rr_length : Z.of_nat (length l) <= n;
  rr_slot : forall j : nat, Z.of_nat j < n -> ring !! ((k - Z.of_nat j) mod n) = reverse l !! j;
}.

(** The ring of the store holds the list: nothing before the first
    attestation. *)
Inductive ring_holds (s : ChallengeStore) (l : list AttestedChallenge) : Prop :=
| holds_nothing : attested_size s = None -> attested_cursor s = None -> attested s = ∅ ->
    l = [] -> ring_holds s l
| holds_ring n k : attested_size s = Some n -> attested_cursor s = Some k -> 0 < n < two64 ->
    ring_rep n k (attested s) l -> ring_holds s l.

(** A ring of size [n], perhaps just emptied *)
Inductive ring_ready (n : Z) (s : ChallengeStore) (l : list AttestedChallenge) : Prop :=
| ready_empty : attested_size s = Some n -> attested_cursor s = None -> attested s = ∅ ->
    l = [] -> ring_ready n s l
| ready_ring k : attested_size s = Some n -> attested_cursor s = Some k ->
    ring_rep n k (attested s) l -> ring_ready n s l.

Lemma walk_ring_collects n k ring l m :
  ring_rep n k ring l -> n < two64 -> (0 < m)%nat -> Z.of_nat m <= n ->
  walk_ring m n k ((k - Z.of_nat m) mod n) ring = Some (reverse (take m (reverse l))).
Proof.
  intros [Hk Hl Hs] Hn. induction m as [|m IH]; intros Hm Hmn; [lia|]. cbn [walk_ring].
  assert (u64 ((k - Z.of_nat (S m)) mod n + 1) mod n = (k - Z.of_nat m) mod n) as ->.
  { unfold u64. rewrite (Z.mod_small (_ + 1)).
    - rewrite Zplus_mod_idemp_l. f_equal. lia.
    - pose proof (Z.mod_pos_bound (k - Z.of_nat (S m)) n ltac:(lia)). lia. }
  rewrite (Hs m) by lia.
  assert (forall o, o = reverse l !! m ->
    reverse (take (S m) (reverse l)) = option_list o ++ reverse (take m (reverse l))) as Htake.
  { intros o ->. destruct (reverse l !! m) as [x|] eqn:E; simpl.
    - by rewrite (take_S_r _ _ _ E), reverse_app.
    - apply lookup_ge_None in E. by rewrite !take_ge by lia. }
  rewrite (Htake _ eq_refl). destruct m as [|m'].
  - rewrite Z.sub_0_r, Z.mod_small by lia. rewrite Z.eqb_refl. simpl. by rewrite app_nil_r.
  - assert (((k - Z.of_nat (S m')) mod n =? k) = false) as ->.
    { apply Z.eqb_neq. intros E.
      destruct (Z.le_gt_cases (Z.of_nat (S m')) k).
      - rewrite Z.mod_small in E; lia.
      - rewrite <- (Z_mod_plus_full _ 1), Z.mod_small in E; lia. }
    rewrite IH by lia. done.
Qed.

(** One more element at the next slot *)
Lemma ring_rep_next n k ring l x :
  ring_rep n k ring l -> ring_rep n ((k + 1) mod n) (<[(k + 1) mod n := x]> ring)
    (last_n (Z.to_nat n) (l ++ [x])).
Proof.
  intros [Hk Hl Hs]. pose proof (Z.mod_pos_bound (k + 1) n ltac:(lia)) as Hk'. split; [done| |].
  - unfold last_n. rewrite length_skipn, length_app. simpl. lia.
  - intros j Hj. rewrite last_n_snoc by lia. destruct j as [|j].
    + rewrite Z.sub_0_r, Zmod_mod, lookup_insert_eq. done.
    + assert (((k + 1) mod n - Z.of_nat (S j)) mod n = (k - Z.of_nat j) mod n) as ->.
      { rewrite Zminus_mod_idemp_l. f_equal. lia. }
      rewrite lookup_insert_ne; [simpl; rewrite lookup_take, decide_True by lia; apply Hs; lia|].
      intros E. assert ((k + 1 - (k - Z.of_nat j)) mod n = 0) as Hz.
      { rewrite Zminus_mod, E, Z.sub_diag. by apply Z.mod_0_l; lia. }
      replace (k + 1 - (k - Z.of_nat j)) with (Z.of_nat (S j)) in Hz by lia.
      rewrite Z.mod_small in Hz; lia.
Qed.

Lemma ring_rep_first n x :
  0 < n -> ring_rep n 0 {[0 := x]} (last_n (Z.to_nat n) ([] ++ [x])).
Proof.
  intros Hn. split; [lia| |].
  - unfold last_n. rewrite length_skipn. simpl. lia.
  - intros j Hj. rewrite last_n_snoc by lia. destruct j as [|j].
    + by rewrite Z.mod_0_l, lookup_singleton_eq by lia.
    + rewrite lookup_singleton_ne; [by rewrite reverse_nil, take_nil|]. intros E. symmetry in E.
      apply Z.mod_divide in E as [q E]; [|lia].
      destruct (Z.lt_ge_cases q 0); [|nia]. assert (q * n <= -1 * n) by nia. lia.
Qed.

Section Ring.
Context {B N : Type}.
Implicit Types c : ChallengeChain B N.

(** What an attestation does not touch *)
Definition off_ring c :=
  (ch_params (ch c), challenge_id (ch c), challenges (ch c), slashes (ch c), slash_amounts (ch c),
   current_count (ch c), base c, started c).

Lemma keeps_enqueue x : keeps off_ring (enqueueAttestedChallenge x : M (ChallengeChain B N) _ _).
Proof. unfold enqueueAttestedChallenge, on_ch. frame. Qed.
#[local] Hint Resolve keeps_enqueue : frames.
Lemma keeps_enqueue_all l : keeps off_ring (enqueue_all l : M (ChallengeChain B N) _ _).
Proof. induction l; simpl; frame. Qed.
#[local] Hint Resolve keeps_enqueue_all : frames.
Lemma keeps_read_ring {X} (f : ChallengeChain B N -> X) : keeps f GetAttestedChallenges.
Proof. unfold GetAttestedChallenges. frame. Qed.
#[local] Hint Resolve keeps_read_ring : frames.
Lemma keeps_append x : keeps off_ring (AppendAttestedChallenge x : M (ChallengeChain B N) _ _).
Proof. unfold AppendAttestedChallenge, on_ch. frame. Qed.

Lemma kept_count_same c c' :
  off_ring c' = off_ring c ->
  AttestationKeptCount (Ch_GetParams (ch c')) = AttestationKeptCount (Ch_GetParams (ch c)).
Proof. unfold off_ring, Ch_GetParams. by intros [= -> _]. Qed.

Lemma read_ring c l : ring_holds (ch c) l -> GetAttestedChallenges c = (Ret l, c).
Proof.
  unfold GetAttestedChallenges, bind, get. intros [-> _ _ -> | n k -> -> Hn Hrep]; [done|]. simpl.
  destruct (Z.eqb_spec n 0); [lia|]. pose proof Hrep as [Hk Hl _].
  pose proof (walk_ring_collects n k (attested (ch c)) l (Z.to_nat n) Hrep) as Hw.
  rewrite Z2Nat.id in Hw by lia.
  replace ((k - n) mod n) with k in Hw
    by (replace (k - n) with (k + -1 * n) by lia; rewrite Z.mod_add, Z.mod_small; lia).
  rewrite Hw by lia. by rewrite take_ge, reverse_involutive by (rewrite length_reverse; lia).
Qed.

Lemma enqueue_holds n c l x :
  ring_ready n (ch c) l -> 0 < n < two64 ->
  exists c' k, enqueueAttestedChallenge x c = (Ret tt, c') /\ attested_size (ch c') = Some n /\
    attested_cursor (ch c') = Some k /\
    ring_rep n k (attested (ch c')) (last_n (Z.to_nat n) (l ++ [x])).
Proof.
  intros H Hn. unfold enqueueAttestedChallenge, bind, get.
  destruct H as [Es Ec Er -> | k Es Ec Hrep]; rewrite Es; simpl; rewrite Ec; simpl.
  - do 2 eexists. split; [done|]. simpl. rewrite Es, Er. split_and!; [done..|].
    apply (ring_rep_first n x). lia.
  - destruct (Z.eqb_spec n 0); [lia|]. do 2 eexists. split; [done|]. simpl. rewrite Es.
    split_and!; [done..|]. pose proof (rr_cursor _ _ _ _ Hrep).
    unfold u64. rewrite (Z.mod_small (k + 1) two64) by lia. by apply ring_rep_next.
Qed.

Lemma enqueue_all_ready n l' c l :
  ring_ready n (ch c) l -> Z.of_nat (length l) <= n -> 0 < n < two64 ->
  exists c', enqueue_all l' c = (Ret tt, c') /\
    ring_ready n (ch c') (last_n (Z.to_nat n) (l ++ l')).
Proof.
  intros H Hl Hn. revert c l H Hl. induction l' as [|x l' IH]; intros c l H Hl; simpl.
  - exists c. split; [done|]. rewrite app_nil_r. unfold last_n.
    by replace (length l - Z.to_nat n)%nat with 0%nat by lia.
  - destruct (enqueue_holds n c l x H Hn) as (c1 & k & Hrun & Es & Ec & Hrep).
    rewrite (bind_run _ _ _ _ _ Hrun).
    destruct (IH c1 (last_n (Z.to_nat n) (l ++ [x]))) as (c' & Hrun' & Hready).
    + by eapply ready_ring.
    + apply Hrep.
    + exists c'. split; [done|].
      pose proof (last_n_last (Z.to_nat n) 0 (l ++ [x]) l') as E. rewrite Nat.add_0_r in E.
      rewrite E, <- app_assoc in Hready. done.
Qed.

(** C17: The ring of the store is a bounded queue: it holds the last attested
    challenges, in order, as many as the parameter says, also when the
    parameter changes between two attestations.  Appending a challenge succeeds
    and touches nothing else of the state; reading gives the list. *)
Theorem attested_ring_refines c l x :
  let kept := AttestationKeptCount (Ch_GetParams (ch c)) in
  ring_holds (ch c) l -> 0 < kept < two64 ->
  exists c', AppendAttestedChallenge x c = (Ret tt, c') /\
    ring_holds (ch c') (last_n (Z.to_nat kept) (l ++ [x])) /\
    GetAttestedChallenges c' = (Ret (last_n (Z.to_nat kept) (l ++ [x])), c') /\
    off_ring c' = off_ring c.
Proof.
  intros kept H Hk.
  enough (exists c', AppendAttestedChallenge x c = (Ret tt, c') /\
    ring_holds (ch c') (last_n (Z.to_nat kept) (l ++ [x]))) as (c' & Hrun & Hh).
  { exists c'. split; [done|]. split; [done|]. split; [by apply read_ring|].
    by eapply (keeps_run off_ring _ _ _ _ (keeps_append x)). }
  unfold AppendAttestedChallenge. rewrite bind_get. fold kept. pose proof (read_ring c l H) as Hread.
  destruct H as [-> Ec Er -> | n k Es Ec Hn Hrep].
  - destruct (enqueue_holds kept (with_ch (fun s => set_ring (Some kept) (attested_cursor s)
      (attested s) s) c) [] x) as (c' & k & Hrun & Es & Ek & Hrep); [by apply ready_empty|done|].
    exists c'. split; [exact Hrun|]. by eapply holds_ring.
  - rewrite Es. destruct (Z.eqb_spec n kept) as [->|]; simpl.
    + destruct (enqueue_holds kept c l x) as (c' & k' & Hrun & Es' & Ek & Hrep'); [|done|].
      { by eapply ready_ring. }
      exists c'. split; [exact Hrun|]. by eapply holds_ring.
    + destruct (enqueue_all_ready kept l (with_ch (set_ring (Some kept) None ∅) c) [])
        as (c1 & Hall & Hready); [by apply ready_empty|simpl; lia|done|]. simpl in Hready.
      destruct (enqueue_holds kept c1 (last_n (Z.to_nat kept) l) x Hready Hk)
        as (c' & k' & Hrun & Es' & Ek & Hrep').
      exists c'. split.
      * unfold bind at 1 2. rewrite Hread. unfold bind, on_ch, modify. by rewrite Hall.
      * eapply holds_ring; [done..|].
        pose proof (last_n_last (Z.to_nat kept) 0 l [x]) as E. rewrite Nat.add_0_r in E.
        by rewrite E in Hrep'.
Qed.

End Ring.

(** ** Amounts *)

(** What validated parameters give *)
Record params_ok (p : ChParams) (rate min max vratio sratio threshold cap : Z) : Prop := mkParamsOk {
  po_rate : SlashAmountSizeRate p = Some rate /\ 0 <= rate;
  po_min : SlashAmountMin p = Some min /\ 0 <= min;
  po_max : SlashAmountMax p = Some max /\ min < max;
  po_vratio : RewardValidatorRatio p = Some vratio /\ 0 <= vratio;
  po_sratio : RewardSubmitterRatio p = Some sratio /\ 0 <= sratio;
  po_ratios : vratio + sratio <= dec_one;
  po_threshold : RewardSubmitterThreshold p = Some threshold /\ 0 <= threshold;
  po_cap : SpSlashMaxAmount p = Some cap /\ 0 <= cap;
  po_heartbeat : HeartbeatInterval p <> 0;
  po_kept : AttestationKeptCount p <> 0;
}.

Lemma nonneg_set_true v : nonneg_set v = true -> exists x, v = Some x /\ 0 <= x.
Proof. destruct v; simpl; [intros ?%negb_true_iff%Z.ltb_ge; eauto|done]. Qed.

Lemma Validate_ok p :
  ChParams_Validate p = true ->
  exists rate min max vratio sratio threshold cap,
    params_ok p rate min max vratio sratio threshold cap.
Proof.
  unfold ChParams_Validate. rewrite !andb_true_iff, !negb_true_iff.
  intros (((((((((((((_ & Hr) & Hmin) & Hmax) & Hv) & Hs) & Ht) & Hmm) & Hsum) & Hh) & _) & Hk) & Hc) & _).
  apply nonneg_set_true in Hr as (rate & Er & ?), Hmin as (min & Emin & ?), Hmax as (max & Emax & ?),
    Hv as (v & Ev & ?), Hs as (s & Es & ?), Ht as (t & Et & ?), Hc as (cap & Ec & ?).
  rewrite Emin, Emax in Hmm. rewrite Ev, Es in Hsum. simpl in Hmm, Hsum.
  exists rate, min, max, v, s, t, cap. split; try done; try split; try done; lia.
Qed.

(** A ratio of a total, rounded down: a decimal is its numerator over 10^18. *)
Lemma share_floor ratio total :
  0 <= ratio -> 0 <= total -> TruncateInt (dec_Mul ratio (NewDec total)) = ratio * total / dec_one.
Proof.
  intros Hr Ht. unfold dec_Mul. rewrite (Z.mul_comm ratio). fold (dec_Mul (NewDec total) ratio).
  rewrite dec_Mul_NewDec. unfold TruncateInt. rewrite Z.quot_div_nonneg by (unfold dec_one; nia).
  by rewrite (Z.mul_comm total).
Qed.

Lemma share_bound ratio total :
  0 <= ratio <= dec_one -> 0 <= total -> 0 <= ratio * total / dec_one <= total.
Proof.
  intros Hr Ht. split; [apply Z.div_pos; unfold dec_one; nia|].
  apply Z.div_le_upper_bound; unfold dec_one in *; nia.
Qed.

(** How an amount is divided: the parts of the challenger, of each of [n]
    validators and of the submitter.  The submitter gets its ratio up to the
    threshold.  Of the rest the validators share their ratio and the challenger
    gets what is left; without a challenger they share all of it, and the
    submitter gets what does not divide. *)
Definition slash_split (p : ChParams) (amount : Z) (challenged : bool) (n : Z) : Z * Z * Z :=
  let s := Z.min (default 0 (RewardSubmitterThreshold p))
                 (default 0 (RewardSubmitterRatio p) * amount / dec_one) in
  let rest := amount - s in
  if challenged then
    let e := default 0 (RewardValidatorRatio p) * rest / (n * dec_one) in (rest - n * e, e, s)
  else let e := rest / n in (0, e, s + (rest - n * e)).

Section Amounts.
Context {B N : Type} {HBank : BankKeeper B} {HAddr : Addresses} {HCrypto : StorageCrypto}
  {HBls : Bls} {HVotes : Votes} {HKeccak : Keccak} {HStaking : StakingKeeper}.
Implicit Types c : ChallengeChain B N.

Lemma GetParams_set (s : ChallengeStore) p : ch_params s = Some p -> Ch_GetParams s = p.
Proof. unfold Ch_GetParams. by intros ->. Qed.

Lemma submitter_share_Ret total c x c' p rate min max vratio sratio threshold cap :
  submitter_share total c = (Ret x, c') -> ch_params (ch c) = Some p ->
  params_ok p rate min max vratio sratio threshold cap -> 0 <= total ->
  c' = c /\ x = Z.min threshold (sratio * total / dec_one) /\ 0 <= x <= total.
Proof.
  unfold submitter_share, Ch_GetParams. intros Hrun Hp Hok Ht. rewrite bind_get in Hrun.
  rewrite Hp in Hrun. simpl in Hrun.
  destruct Hok as [_ _ _ [_ Hv] [Es Hs] Hsum [Et Ht'] _ _ _]. rewrite Es, Et in Hrun.
  cbn in Hrun. injection Hrun as <- <-. split; [done|]. rewrite share_floor by done.
  pose proof (share_bound sratio total ltac:(lia) Ht). case_match; lia.
Qed.

Lemma validators_floor vratio rest n :
  0 <= vratio -> 0 <= rest -> 0 < n ->
  TruncateInt (dec_QuoInt64 (dec_MulInt vratio rest) n) = vratio * rest / (n * dec_one).
Proof.
  intros Hv Hr Hn. unfold TruncateInt, dec_QuoInt64, dec_MulInt.
  rewrite (Z.quot_div_nonneg (vratio * rest)), Z.quot_div_nonneg, Z.div_div by
    (try apply Z.div_pos; unfold dec_one; nia). done.
Qed.

(** The rewards of a slash are its amount, in full. *)
Lemma calculateSlashRewards_Ret total challenger n c r c' p rate min max vratio sratio threshold cap :
  calculateSlashRewards total challenger n c = (Ret r, c') -> ch_params (ch c) = Some p ->
  params_ok p rate min max vratio sratio threshold cap -> 0 <= total -> 0 < n ->
  c' = c /\ r = slash_split p total (bool_decide (is_Some challenger)) n /\
  let '(a, e, s) := r in
  0 <= a /\ 0 <= e /\ 0 <= s /\ a + n * e + s = total /\ (challenger = None -> a = 0).
Proof.
  unfold calculateSlashRewards, slash_split. intros Hrun Hp Hok Ht Hn.
  apply bind_Ret in Hrun as (s0 & c0 & Hs & Hrun).
  eapply submitter_share_Ret in Hs as (-> & Es & Hs); [|done..].
  destruct Hok as [_ _ _ [Ev Hv] [Er Hs'] Hsum [Et _] _ _ _]. rewrite Ev, Er, Et.
  cbn [from_option id]. rewrite <- Es.
  rewrite Z.max_r in Hrun by lia. destruct (Z.eqb_spec n 0); [lia|]. destruct challenger.
  - rewrite bind_get, (GetParams_set _ p Hp), Ev in Hrun. cbn in Hrun. injection Hrun as <- <-.
    rewrite bool_decide_true by eauto. set (rest := total - s0).
    rewrite validators_floor by (subst rest; lia).
    pose proof (Z.mul_div_le (vratio * rest) (n * dec_one) ltac:(unfold dec_one; lia)).
    assert (0 <= vratio * rest / (n * dec_one)) by (apply Z.div_pos; unfold dec_one; nia).
    subst rest. split_and!; try done; try lia. unfold dec_one in *. nia.
  - mstep Hrun. rewrite bool_decide_false by (by intros []). rewrite Z.quot_div_nonneg by lia.
    pose proof (Z.mul_div_le (total - s0) n ltac:(lia)).
    assert (0 <= (total - s0) / n) by (apply Z.div_pos; lia). simplify_eq. split_and!; try done; lia.
Qed.

Lemma calculateSlashAmount_Ret size c v c' p rate min max vratio sratio threshold cap :
  calculateSlashAmount size c = (Ret v, c') -> ch_params (ch c) = Some p ->
  params_ok p rate min max vratio sratio threshold cap -> c' = c /\ min <= v <= max.
Proof.
  unfold calculateSlashAmount. intros Hrun Hp Hok. rewrite bind_get, (GetParams_set _ p Hp) in Hrun.
  destruct Hok as [[Er _] [Emin _] [Emax Hmm] _ _ _ _ _ _ _]. rewrite Er, Emin, Emax in Hrun.
  unfold must, bind, ret in Hrun. cbv beta iota in Hrun. revert Hrun.
  generalize (TruncateInt (dec_Mul (dec_Mul (dec_QuoRoundUp (NewDec size) (NewDec oneGBBytes)) rate)
    (NewDec (10 ^ 18)))). intros amount Hrun.
  destruct (Z.ltb_spec amount min); [|destruct (Z.ltb_spec max amount)]; injection Hrun as <- <-;
    (split; [done|lia]).
Qed.

(** What a provider already slashed for [slashed] in the window loses of [full] *)
Definition within_cap (p : ChParams) (slashed full : Z) : Z :=
  if (slashed =? 0) || (slashed + full <=? default 0 (SpSlashMaxAmount p)) then full else 0.

Lemma capped_amount_Ret id amount c v c' p rate min max vratio sratio threshold cap :
  capped_amount id amount c = (Ret v, c') -> ch_params (ch c) = Some p ->
  params_ok p rate min max vratio sratio threshold cap ->
  c' = c /\ v = within_cap p (GetSpSlashAmount id (ch c)) amount.
Proof.
  unfold capped_amount, within_cap. intros Hrun Hp Hok. rewrite bind_get, (GetParams_set _ p Hp) in Hrun.
  destruct Hok as [_ _ _ _ _ _ _ [Ec _] _ _]. rewrite Ec in *.
  destruct (Z.eqb_spec (GetSpSlashAmount id (ch c)) 0) as [E|]; [by mstep Hrun|].
  cbn in Hrun. injection Hrun as <- <-. split; [done|]. simpl. repeat case_match; lia.
Qed.

(** The losses of a window stay below every bound of the maximum of a window
    and of a slash. *)
Lemma within_cap_bound p rate min max vratio sratio threshold cap slashed full bound :
  params_ok p rate min max vratio sratio threshold cap -> full <= max -> Z.max cap max <= bound ->
  0 <= slashed <= bound -> slashed + within_cap p slashed full <= bound.
Proof.
  intros Hok Hf Hb Hs. unfold within_cap. rewrite (proj1 (po_cap _ _ _ _ _ _ _ _ Hok)). simpl.
  destruct (Z.eqb_spec slashed 0), (Z.leb_spec (slashed + full) cap); simpl; lia.
Qed.

End Amounts.

(** ** Slashing *)

Section Slashing.
Context {B N : Type} {HBank : BankKeeper B} {HAddr : Addresses} {HBankLaws : BankLaws B}
  {HAddrLaws : AddressLaws} {HCrypto : StorageCrypto} {HBls : Bls}
  {HVotes : Votes} {HKeccak : Keccak} {HStaking : StakingKeeper}.
Implicit Types c : ChallengeChain B N.

Lemma zsum_cons {A} (f : A -> Z) x l : zsum f (x :: l) = f x + zsum f l.
Proof. done. Qed.

Definition credit (x : Addr) (r : RewardInfo) : Z :=
  if decide (Sdk.AccAddressFromHexUnsafe (rw_Address r) = Some x) then (rw_Amount r).2 else 0.

(** The balances after rewards in the coin [d] are paid from the module *)
Lemma pay_rewards_credits rewards (s : SpState B unit) u s' d :
  pay_rewards rewards s = (Ret u, s') -> Forall (fun r => (rw_Amount r).1 = d) rewards ->
  store s' = store s /\ forall x d', GetBalance (sp_bank s') x d' =
    GetBalance (sp_bank s) x d' +
    if decide (d' = d) then
      zsum (credit x) rewards
      - (if decide (x = ModuleAddress SpModuleName) then zsum (fun r => (rw_Amount r).2) rewards else 0)
    else 0.
Proof.
  revert s. induction rewards as [|r rewards IH]; intros s Hrun Hden; simpl in Hrun.
  { msteps Hrun. unfold zsum. simpl. split; [done|]. intros x d'. repeat case_decide; lia. }
  apply Forall_cons in Hden as [Hd Hden]. do 2 mstep Hrun. rewrite Hd in *.
  apply bind_Ret in Hrun as ([] & ? & (b & Hsend & ->)%sp_transfer_Ret & Hrun).
  apply IH in Hrun as [-> Hb]; [|done]. split; [done|]. intros y d'. rewrite Hb.
  cbn [sp_bank with_sp_bank]. rewrite (send_m2a _ _ _ _ _ Hsend).
  rewrite (AmountOf_NewCoins _ _ _ d' Hx0), !zsum_cons.
  assert (credit y r = if decide (y = x) then (rw_Amount r).2 else 0) as ->
    by (unfold credit; rewrite Hx; repeat case_decide; congruence).
  repeat case_decide; lia.
Qed.

(** How often an address is among the texts *)
Definition times (x : Addr) (texts : list string) : Z :=
  Z.of_nat (length (filter (fun t => Sdk.AccAddressFromHexUnsafe t = Some x) texts)).

(** An amount of the coin [denom] leaves the account of the module in the
    parts given: the balances of the accounts in [who], in every coin *)
Definition divided (who : Addr -> Prop) (b b' : B) (denom : string) (amount : Z) (parts : Z * Z * Z)
    (submitter : Addr) (challenger : option Addr) (validators : list string) : Prop :=
  let '(a, e, s) := parts in
  forall x d, who x -> GetBalance b' x d = GetBalance b x d +
    if decide (d = denom) then
      (if decide (challenger = Some x) then a else 0) + times x validators * e
      + (if decide (submitter = x) then s else 0)
      - (if decide (x = ModuleAddress SpModuleName) then amount else 0)
    else 0.

Lemma reward_list_denom d challenger validators submitter a e s :
  Forall (fun r => (rw_Amount r).1 = d) (reward_list d challenger validators submitter a e s).
Proof.
  unfold reward_list. apply Forall_app; split; [by destruct challenger; repeat constructor|].
  apply Forall_app; split; [|by repeat constructor]. apply Forall_fmap, Forall_true. done.
Qed.

Lemma reward_list_total d challenger validators submitter a e s :
  (challenger = None -> a = 0) ->
  zsum (fun r => (rw_Amount r).2) (reward_list d challenger validators submitter a e s) =
  a + Z.of_nat (length validators) * e + s.
Proof.
  intros Ha. unfold reward_list. rewrite !zsum_app, PaymentFlowsFacts.zsum_fmap. simpl.
  rewrite PaymentSettle.zsum_const. unfold zsum. destruct challenger; simpl; [|rewrite Ha by done]; lia.
Qed.

Lemma reward_list_credit d challenger validators submitter a e s x :
  zsum (credit x) (reward_list d challenger validators submitter a e s) =
  (if decide (challenger = Some x) then a else 0) + times x validators * e
  + (if decide (submitter = x) then s else 0).
Proof.
  unfold reward_list. rewrite !zsum_app, PaymentFlowsFacts.zsum_fmap.
  assert (zsum (fun v => credit x (mkReward v (d, e))) validators = times x validators * e) as ->.
  { unfold times, credit. cbn [rw_Address rw_Amount snd].
    induction validators as [|v l IH]; [done|]. unfold zsum in *. simpl. rewrite IH, filter_cons.
    destruct (decide _); simpl; lia. }
  unfold credit, zsum. destruct challenger as [y|]; simpl; rewrite !AccAddressFromHex_String;
    repeat case_decide; simplify_eq; try congruence; lia.
Qed.

Lemma with_base_same c : with_base (base c) c = c.
Proof. by destruct c. Qed.

(** The provider with a smaller deposit *)
Definition cut (amount : Z) (sp : StorageProvider) : StorageProvider :=
  set_sp_deposit (sp_TotalDeposit sp - amount) sp.

(** A slash: nothing for nothing; else the deposit of the provider loses the
    amount, which is divided among the challenger, the validators and the
    submitter, and nothing else of the state changes. *)
Definition slash_effect (who : Addr -> Prop) (p : ChParams) (amount : Z) (sp : StorageProvider)
    submitter challenger validators c c' : Prop :=
  amount = 0 /\ c' = c \/
  0 < amount <= sp_TotalDeposit sp /\
  exists b', c' = put_sp (mkSpState (SetStorageProvider (cut amount sp) (sps (wd (base c)))) b' tt) c /\
    divided who (bank (chain_pay (base c))) b' (DepositDenomForSP (sps (wd (base c)))) amount
      (slash_split p amount (bool_decide (is_Some challenger)) (Z.of_nat (length validators)))
      submitter challenger validators.

Lemma slash_effect_who (who who' : Addr -> Prop) p amount sp submitter challenger validators c c' :
  slash_effect who p amount sp submitter challenger validators c c' -> (forall x, who' x -> who x) ->
  slash_effect who' p amount sp submitter challenger validators c c'.
Proof.
  unfold slash_effect, divided. intros [H|(H & b' & E & Hb)] Hw; [by left|]. right. split; [done|].
  exists b'. split; [done|]. destruct (slash_split _ _ _ _) as [[a e] s]. auto.
Qed.

Lemma Slash_Ret id rewards (s : SpState B unit) u s' d total :
  Slash id rewards s = (Ret u, s') -> DepositDenomForSP (store s) = d ->
  Forall (fun r => (rw_Amount r).1 = d) rewards -> zsum (fun r => (rw_Amount r).2) rewards = total ->
  exists sp b', GetStorageProvider id (store s) = Some sp /\ total <= sp_TotalDeposit sp /\
    s' = mkSpState (SetStorageProvider (cut total sp) (store s)) b' tt /\
    forall x d', GetBalance b' x d' = GetBalance (sp_bank s) x d' +
      if decide (d' = d) then
        zsum (credit x) rewards - (if decide (x = ModuleAddress SpModuleName) then total else 0)
      else 0.
Proof.
  unfold Slash. intros Hrun <- Hden <-. do 4 mstep Hrun.
  apply bind_Ret in Hrun as ([] & s1 & Hpay & Hrun). msteps Hrun.
  eapply pay_rewards_credits in Hpay as [Hst Hb]; [|done].
  exists x, (sp_bank s1). split_and!; [done|lia| |done].
  unfold with_store. rewrite Hst. destruct s1 as [? ? []]. done.
Qed.

Lemma doSlashAndRewards_Ret amount sp submitter challenger validators c u c'
    p rate min max vratio sratio threshold cap :
  doSlashAndRewards amount (sp_Id sp) submitter challenger validators c = (Ret u, c') ->
  ch_params (ch c) = Some p -> params_ok p rate min max vratio sratio threshold cap ->
  GetStorageProvider (sp_Id sp) (sps (wd (base c))) = Some sp -> 0 <= amount ->
  slash_effect (fun _ => True) p amount sp submitter challenger validators c c'.
Proof.
  unfold doSlashAndRewards. intros Hrun Hp Hok Hsp Ha.
  destruct (Z.eqb_spec amount 0) as [->|Hne]; [left; by msteps Hrun|right].
  assert (0 < Z.of_nat (length validators)) as Hn.
  { destruct validators; simpl; [|lia]. exfalso. revert Hrun. unfold calculateSlashRewards.
    intros (? & ? & Hc & _)%bind_Ret. apply bind_Ret in Hc as (? & ? & _ & Hc).
    destruct challenger; simpl in Hc; [|done]. by msteps Hc. }
  apply bind_Ret in Hrun as ([[a e] s] & c0 & Hr & Hrun).
  eapply calculateSlashRewards_Ret in Hr as (-> & Esplit & H1 & H2 & H3 & Hsum & Hnone); [|done..].
  rewrite bind_get in Hrun. destruct (_ || _) eqn:Hpos.
  - unfold on_sp in Hrun. apply zoom_Ret in Hrun as (s1 & Hslash & ->).
    eapply Slash_Ret in Hslash as (sp' & b' & Hsp' & Hle & -> & Hb);
      [|done|apply reward_list_denom|by rewrite reward_list_total, Hsum].
    cbn [store sp_view] in *. rewrite Hsp in Hsp'. injection Hsp' as <-. split; [lia|].
    exists b'. rewrite Hsum. split; [done|]. unfold divided. rewrite <- Esplit. intros x d _.
    rewrite Hb, reward_list_credit, Hsum. cbn [sp_bank sp_view]. repeat case_decide; lia.
  - apply orb_false_iff in Hpos as [[? ?]%orb_false_iff ?]. nia.
Qed.

End Slashing.

(** ** Attestations *)

Section Attestations.
Context {B N : Type} {HBank : BankKeeper B} {HAddr : Addresses} {HCrypto : StorageCrypto}
  {HBls : Bls} {HVotes : Votes} {HKeccak : Keccak} {HStaking : StakingKeeper}.
Implicit Types c : ChallengeChain B N.

Section Reads.
Context {X : Type} (f : ChallengeChain B N -> X).

Lemma keeps_MustAcc text : keeps f (MustAcc text).
Proof. unfold MustAcc. frame. Qed.
Lemma keeps_maybe_acc text : keeps f (maybe_acc text).
Proof. pose proof keeps_MustAcc. unfold maybe_acc. case_bool_decide; frame. Qed.
Lemma keeps_inturn ctx interval : keeps f (getInturnSubmitter ctx interval).
Proof. unfold getInturnSubmitter. frame. Qed.
Lemma keeps_isInturn ctx submitter all : keeps f (isInturnAttestation ctx submitter all).
Proof. pose proof keeps_inturn. unfold isInturnAttestation. frame. Qed.
Lemma keeps_voted bits index all : keeps f (voted bits index all).
Proof. revert index. induction all; intros index; simpl; frame. Qed.
Lemma keeps_verify ctx msg all : keeps f (verifySignature ctx msg all).
Proof.
  pose proof keeps_voted. pose proof keeps_MustAcc. pose proof keeps_maybe_acc.
  unfold verifySignature, GetBlsSignBytes. frame.
Qed.

End Reads.
#[local] Hint Resolve keeps_MustAcc keeps_maybe_acc keeps_isInturn keeps_verify : frames.

(** A computation of x/storage that only reads *)
Lemma on_storage_read {A} (k : M (Chain B N) storage_error A) c a c' :
  keeps (fun b => b) k -> on_storage k c = (Ret a, c') -> c' = c /\ k (base c) = (Ret a, base c).
Proof.
  unfold on_storage. intros Hk (b & Hrun & ->)%zoom_Ret.
  pose proof (keeps_run _ _ _ _ _ Hk Hrun) as Hb. simpl in Hb. subst b. by rewrite with_base_same.
Qed.

Lemma keeps_gvg {X} (f : Chain B N -> X) bucketID lvgID : keeps f (GetObjectGVG bucketID lvgID).
Proof. unfold GetObjectGVG, MustGetInternalBucketInfo. frame. Qed.

Lemma still_stores_Ret sp b o c u c' :
  still_stores sp b o c = (Ret u, c') -> c' = c.
Proof.
  unfold still_stores. intros Hrun. apply bind_Ret in Hrun as (p & c1 & Hp & Hrun).
  apply on_storage_read in Hp as [-> _]; [|apply StorageRuns.keeps_primary]. case_match.
  - by msteps Hrun.
  - apply bind_Ret in Hrun as (found & c1 & Hg & Hrun).
    apply on_storage_read in Hg as [-> _]; [|apply keeps_gvg]. by msteps Hrun.
Qed.

(** More than two thirds of the validators signed the challenge, as its
    object, its provider, its challenger and the outcome identify it. *)
Record voted_for ctx (msg : MsgAttest) (all : list Validator)
    (votes : list (string * BlsPublicKey)) : Prop := mkVotedFor {
  vf_current : GetHistoricalInfo (height_of ctx) = Some all;
  vf_votes : forall i vote, votes !! i = Some vote -> exists j v,
    all !! j = Some v /\ bitset_Test (ma_VoteValidatorSet msg) (Z.of_nat j) = true /\
    vote.1 = val_ChallengerAddress v /\ UnmarshalPublicKey (val_BlsKey v) = Some vote.2;
  vf_once : sublist (votes.*1) (val_ChallengerAddress <$> all);
  vf_majority : 2 * Z.of_nat (length all) < 3 * Z.of_nat (length votes);
  vf_signed : exists sig spOperator challenger,
    UnmarshalSignature (ma_VoteAggSignature msg) = Some sig /\
    Sdk.AccAddressFromHexUnsafe (ma_SpOperatorAddress msg) = Some spOperator /\
    challenger = (if bool_decide (ma_ChallengerAddress msg = EmptyString) then None
                  else Sdk.AccAddressFromHexUnsafe (ma_ChallengerAddress msg)) /\
    VerifyAggregated sig (votes.*2) (Keccak256 (sign_bytes (ChainID ctx) (ma_ChallengeId msg)
      (ma_ObjectId msg) (ma_VoteResult msg) spOperator challenger)) = true;
}.

(** The submitter is a challenger of the validators whose turn it is. *)
Definition in_turn ctx (submitter : Addr) (all : list Validator) c : Prop :=
  exists v span, v ∈ all /\ val_ChallengerAddress v = AccAddress_String submitter /\
    getInturnSubmitter ctx (AttestationInturnInterval (Ch_GetParams (ch c))) c =
      (Ret (val_BlsKey v, span), c).

Lemma maybe_acc_Ret text c a c' :
  maybe_acc text c = (Ret a, c') ->
  c' = c /\ a = if bool_decide (text = EmptyString) then None else Sdk.AccAddressFromHexUnsafe text.
Proof.
  unfold maybe_acc, MustAcc. case_bool_decide; intros Hrun; msteps Hrun; auto.
Qed.

Lemma voted_Ret bits index all c votes c' :
  voted bits index all c = (Ret votes, c') ->
  (forall i vote, votes !! i = Some vote -> exists j v,
    all !! j = Some v /\ bitset_Test bits (index + Z.of_nat j) = true /\
    vote.1 = val_ChallengerAddress v /\ UnmarshalPublicKey (val_BlsKey v) = Some vote.2) /\
  sublist (votes.*1) (val_ChallengerAddress <$> all).
Proof.
  revert index c votes c'. induction all as [|v all IH]; intros index c votes c'; simpl; intros Hrun.
  { msteps Hrun. split; [done|constructor]. }
  destruct (bitset_Test bits index) eqn:Ebit.
  - mstep Hrun. apply bind_Ret in Hrun as (more & c1 & Hmore & Hrun). msteps Hrun.
    apply IH in Hmore as [Hv Hs]. split; [|by constructor]. intros [|i] vote Hi; simplify_eq/=.
    + exists 0%nat, v. by rewrite Z.add_0_r.
    + destruct (Hv i vote Hi) as (j & w & ? & ? & ? & ?). exists (S j), w.
      by replace (index + Z.of_nat (S j)) with (index + 1 + Z.of_nat j) by lia.
  - apply IH in Hrun as [Hv Hs]. split; [|by constructor]. intros i vote Hi.
    destruct (Hv i vote Hi) as (j & w & ? & ? & ? & ?). exists (S j), w.
    by replace (index + Z.of_nat (S j)) with (index + 1 + Z.of_nat j) by lia.
Qed.

Lemma verifySignature_Ret ctx msg all c validators c' :
  verifySignature ctx msg all c = (Ret validators, c') -> GetHistoricalInfo (height_of ctx) = Some all ->
  c' = c /\ exists votes, voted_for ctx msg all votes /\ validators = votes.*1.
Proof.
  intros Hrun Hall. assert (c' = c) as -> by exact (keeps_run (fun c => c) _ _ _ _ (keeps_verify _ _ _ _) Hrun).
  split; [done|]. unfold verifySignature in Hrun. mstep Hrun.
  apply bind_Ret in Hrun as (votes & c1 & Hvotes & Hrun). apply voted_Ret in Hvotes as [Hv Hs].
  do 2 mstep Hrun. apply bind_Ret in Hrun as (bts & c2 & Hb & Hrun). msteps Hrun.
  exists votes. split; [|done]. split; try done.
  - match goal with Hle : (_ <=? _) = false |- _ => apply Z.leb_gt in Hle;
      pose proof (Z.div_mod (Z.of_nat (length all) * 2) 3 ltac:(lia));
      pose proof (Z.mod_pos_bound (Z.of_nat (length all) * 2) 3 ltac:(lia)) end. lia.
  - unfold GetBlsSignBytes, MustAcc in Hb. mstep Hb.
    apply bind_Ret in Hb as (ch0 & c3 & [-> Hch]%maybe_acc_Ret & Hb). msteps Hb.
    do 3 eexists. split_and!; [done..|]. by apply negb_false_iff.
Qed.

(** What a successful attestation checked, and the state [c1] before the
    challenge goes to the ring *)
Record attests ctx (msg : MsgAttest) c submitter sp challenger o all votes c1 c' : Prop := mkAttests {
  as_submitter : Sdk.AccAddressFromHexUnsafe (ma_Submitter msg) = Some submitter;
  as_provider : exists spOperator,
    Sdk.AccAddressFromHexUnsafe (ma_SpOperatorAddress msg) = Some spOperator /\
    GetStorageProviderByOperatorAddr spOperator (sps (wd (base c))) = Some sp;
  as_challenger : challenger = if bool_decide (ma_ChallengerAddress msg = EmptyString) then None
                               else Sdk.AccAddressFromHexUnsafe (ma_ChallengerAddress msg);
  as_live : ExistsChallenge (ma_ChallengeId msg) (ch c) = true;
  as_turn : in_turn ctx submitter all c;
  as_votes : voted_for ctx msg all votes;
  as_object : GetObjectInfoById (ma_ObjectId msg) (base c) = Some o;
  as_done : (if bool_decide (ma_VoteResult msg = CHALLENGE_SUCCEED)
             then slash_provider ctx sp o (ma_ObjectId msg) submitter challenger (votes.*1)
             else heartbeat ctx (ma_ChallengeId msg) submitter) c = (Ret tt, c1);
  as_ring : off_ring c' = off_ring c1;
}.

Lemma isInturn_Ret ctx submitter all c b c' :
  isInturnAttestation ctx submitter all c = (Ret b, c') ->
  c' = c /\ (b = true -> in_turn ctx submitter all c).
Proof.
  intros Hrun.
  assert (c' = c) as -> by exact (keeps_run (fun c => c) _ _ _ _ (keeps_isInturn _ _ _ _) Hrun).
  split; [done|]. intros ->. unfold isInturnAttestation in Hrun. do 2 mstep Hrun.
  apply bind_Ret in Hrun as ([key span] & c1 & Hturn & Hrun). msteps Hrun.
  apply List.find_some in Hx as [Hin Ha%bool_decide_eq_true]. exists x, span.
  split; [by apply list_elem_of_In|]. split; [done|].
  match goal with Hb : bool_decide _ = true |- _ => apply bool_decide_eq_true in Hb; simpl in Hb end.
  by subst key.
Qed.

Lemma Attest_Ret ctx msg c u c' :
  Attest ctx msg c = (Ret u, c') ->
  exists submitter sp challenger o all votes c1,
    attests ctx msg c submitter sp challenger o all votes c1 c'.
Proof.
  unfold Attest, MustAcc. intros Hrun. do 4 mstep Hrun.
  apply bind_Ret in Hrun as (challenger & c1 & [-> Hch]%maybe_acc_Ret & Hrun). do 2 mstep Hrun.
  apply bind_Ret in Hrun as (turn & c1 & [-> Hturn]%isInturn_Ret & Hrun). mstep Hrun.
  apply bind_Ret in Hrun as (validators & c1 & Hv & Hrun).
  apply verifySignature_Ret in Hv as (-> & votes & Hvotes & ->); [|done]. do 2 mstep Hrun.
  apply bind_Ret in Hrun as ([] & c1 & ->%still_stores_Ret & Hrun).
  apply bind_Ret in Hrun as ([] & c1 & Hdone & Hrun).
  apply (keeps_run off_ring _ _ _ _ (keeps_append _)) in Hrun.
  do 7 eexists. split; try done; eauto.
  - by apply negb_false_iff.
  - apply Hturn. by apply negb_false_iff.
Qed.

Lemma heartbeat_keeps ctx id submitter {X} (f : ChallengeChain B N -> X) :
  (forall p c, f (with_base (put_pay p (base c)) c) = f c) -> keeps f (heartbeat ctx id submitter).
Proof.
  intros Hf. unfold heartbeat, doHeartbeatAndRewards, calculateHeartbeatRewards, submitter_share,
    withdraw_positive, on_pay_keeper. frame; apply keeps_zoom; intros p' c; apply Hf.
Qed.

End Attestations.

Section Verdicts.
Context {B N : Type} {HBank : BankKeeper B} {HAddr : Addresses} {HBankLaws : BankLaws B}
  {HAddrLaws : AddressLaws} {HCrypto : StorageCrypto} {HBls : Bls}
  {HVotes : Votes} {HKeccak : Keccak} {HStaking : StakingKeeper}.
Implicit Types c : ChallengeChain B N.

Definition record_slash ctx (spID objectID amount : Z) c : ChallengeChain B N :=
  with_ch (fun s => SetSpSlashAmount spID (GetSpSlashAmount spID (ch c) + amount)
    (SaveSlash spID objectID (u64 (height_of ctx)) s)) c.

Lemma slash_provider_Ret ctx sp o objectID submitter challenger validators c u c'
    p rate min max vratio sratio threshold cap :
  slash_provider ctx sp o objectID submitter challenger validators c = (Ret u, c') ->
  ch_params (ch c) = Some p -> params_ok p rate min max vratio sratio threshold cap ->
  GetStorageProvider (sp_Id sp) (sps (wd (base c))) = Some sp ->
  exists full c1, ExistsSlash (sp_Id sp) objectID (ch c) = false /\
    calculateSlashAmount (ob_PayloadSize o) c = (Ret full, c) /\ min <= full <= max /\
    let amount := within_cap p (GetSpSlashAmount (sp_Id sp) (ch c)) full in
    slash_effect (fun _ => True) p amount sp submitter challenger validators c c1 /\
    c' = record_slash ctx (sp_Id sp) objectID amount c1.
Proof.
  unfold slash_provider. intros Hrun Hp Hok Hsp. do 2 mstep Hrun.
  apply bind_Ret in Hrun as (full & c1 & Hv & Hrun).
  pose proof Hv as Hfull. eapply calculateSlashAmount_Ret in Hv as [-> Hv]; [|done..].
  apply bind_Ret in Hrun as (amount & c1 & Ha & Hrun). pose proof (po_min _ _ _ _ _ _ _ _ Hok) as [_ ?].
  eapply capped_amount_Ret in Ha as [-> Ea]; [|done..]. subst amount.
  apply bind_Ret in Hrun as ([] & c1 & Hs & Hrun).
  eapply doSlashAndRewards_Ret in Hs; [|done..|unfold within_cap; case_match; lia].
  exists full, c1. split_and!; try done; [lia..|]. unfold record_slash.
  assert (ch c1 = ch c) as -> by (by destruct Hs as [[_ ->]|(_ & b & -> & _)]).
  unfold on_ch in Hrun. msteps Hrun. by destruct c1.
Qed.

Lemma slash_effect_registry who p amount sp submitter challenger validators c c' :
  slash_effect who p amount sp submitter challenger validators c c' ->
  GetStorageProvider (sp_Id sp) (sps (wd (base c))) = Some sp ->
  registry (sps (wd (base c))) -> registry (sps (wd (base c'))).
Proof. intros [[_ ->]|(_ & b & -> & _)] Hsp Hreg; [done|]. by apply (registry_write _ sp). Qed.

(** Attestations keep the registry of providers. *)
Lemma Attest_registry ctx msg c u c' p :
  Attest ctx msg c = (Ret u, c') -> ch_params (ch c) = Some p -> ChParams_Validate p = true ->
  registry (sps (wd (base c))) -> registry (sps (wd (base c'))).
Proof.
  intros (? & sp & ? & ? & ? & ? & c1 & Hat)%Attest_Ret Hp Hval Hreg.
  destruct (Validate_ok p Hval) as (? & ? & ? & ? & ? & ? & ? & Hok).
  destruct Hat as [_ (op & _ & [_ Hsp]%find_operator) _ _ _ _ _ Hdone Hring]; [|done].
  unfold off_ring in Hring. injection Hring as _ _ _ _ _ _ -> _. case_bool_decide.
  - eapply slash_provider_Ret in Hdone as (? & c2 & _ & _ & _ & Heff & ->); [|done..].
    by eapply slash_effect_registry in Heff.
  - apply (keeps_run (fun c => sps (wd (base c))) _ _ _ _
      (heartbeat_keeps _ _ _ (fun c => sps (wd (base c))) (fun _ _ => eq_refl))) in Hdone.
    by rewrite Hdone.
Qed.

(** What a successful attestation of a failed provider checked *)
Record slashable ctx (msg : MsgAttest) submitter challenger sp o all votes c : Prop := mkSlashable {
  sl_submitter : Sdk.AccAddressFromHexUnsafe (ma_Submitter msg) = Some submitter;
  sl_challenger : challenger = if bool_decide (ma_ChallengerAddress msg = EmptyString) then None
                               else Sdk.AccAddressFromHexUnsafe (ma_ChallengerAddress msg);
  sl_provider : Sdk.AccAddressFromHexUnsafe (ma_SpOperatorAddress msg) = Some (OperatorAddress sp) /\
                GetStorageProvider (sp_Id sp) (sps (wd (base c))) = Some sp;
  sl_object : GetObjectInfoById (ma_ObjectId msg) (base c) = Some o;
  sl_live : ExistsChallenge (ma_ChallengeId msg) (ch c) = true;
  sl_turn : in_turn ctx submitter all c;
  sl_votes : voted_for ctx msg all votes;
  sl_cooled : ExistsSlash (sp_Id sp) (ma_ObjectId msg) (ch c) = false;
}.

(** Every validator voted, or the account is not one of a validator. *)
Definition all_voted_or_other (all : list Validator) (voters : list string) (x : Addr) : Prop :=
  (forall v, v ∈ all -> val_ChallengerAddress v ∈ voters) \/
  (forall v, v ∈ all -> Sdk.AccAddressFromHexUnsafe (val_ChallengerAddress v) <> Some x).

(** The shares are paid to the voters, also when some validators did not vote. *)
Lemma attestation_effect ctx msg c u c' p :
  Attest ctx msg c = (Ret u, c') -> ma_VoteResult msg = CHALLENGE_SUCCEED ->
  ch_params (ch c) = Some p -> ChParams_Validate p = true -> registry (sps (wd (base c))) ->
  exists submitter challenger sp o all votes full c1,
    slashable ctx msg submitter challenger sp o all votes c /\
    calculateSlashAmount (ob_PayloadSize o) c = (Ret full, c) /\
    default 0 (SlashAmountMin p) <= full <= default 0 (SlashAmountMax p) /\
    let amount := within_cap p (GetSpSlashAmount (sp_Id sp) (ch c)) full in
    slash_effect (fun _ => True) p amount sp submitter challenger (votes.*1) c c1 /\
    off_ring c' = off_ring (record_slash ctx (sp_Id sp) (ma_ObjectId msg) amount c1).
Proof.
  intros Hrun Hres Hp Hval Hreg. destruct (Validate_ok p Hval) as (rate & min & max & v & s & t & cap & Hok).
  apply Attest_Ret in Hrun as (submitter & sp & challenger & o & all & votes & c1 & Hat).
  destruct Hat as [Hsub (op & Eop & Hop) Hch Hlive Hturn Hvotes Ho Hdone Hring].
  apply find_operator in Hop as [<- Hsp]; [|done]. rewrite bool_decide_true in Hdone by done.
  eapply slash_provider_Ret in Hdone as (full & c2 & Hnew & Hcalc & Hamt & Heff & Ec); [|done..].
  subst c1.
  exists submitter, challenger, sp, o, all, votes, full, c2.
  rewrite (proj1 (po_min _ _ _ _ _ _ _ _ Hok)), (proj1 (po_max _ _ _ _ _ _ _ _ Hok)).
  split; [by split|]. split; [done|]. by split.
Qed.


End Verdicts.

(** ** Starting challenges *)

(** Ids count up from the last one. *)
Fixpoint numbered (last : Z) (evs : list EventStartChallenge) : Prop :=
  match evs with
  | [] => True
  | ev :: rest => ev_ChallengeId ev = u64 (last + 1) /\ numbered (ev_ChallengeId ev) rest
  end.

Definition opened (evs : list EventStartChallenge) (s : ChallengeStore) : ChallengeStore :=
  foldl (fun s ev => SaveChallenge (ev_ChallengeId ev) (ev_ExpiredHeight ev) s) s evs.

(** What slashing is about *)
Definition slashing (s : ChallengeStore) := (ch_params s, slashes s, slash_amounts s).

Lemma opened_slashing evs s : slashing (opened evs s) = slashing s.
Proof. revert s. induction evs as [|ev evs IH]; intros s; [done|]. simpl. by rewrite IH. Qed.

Section Starting.
Context {B N : Type} {HBank : BankKeeper B} {HAddr : Addresses} {HCrypto : StorageCrypto}
  {HBls : Bls} {HVotes : Votes} {HKeccak : Keccak} {HStaking : StakingKeeper}.
Implicit Types c : ChallengeChain B N.

(** Challenges are opened in the store [s] and announced; the rest of the
    store, and the chain, stay. *)
Record starts (expiry : Z) (s : ChallengeStore) c c' (evs : list EventStartChallenge) : Prop := mkStarts {
  sta_base : base c' = base c;
  sta_events : started c' = started c ++ evs;
  sta_store : ch c' = opened evs s;
  sta_ids : numbered (challenge_id s) evs;
  sta_expiry : Forall (fun ev => ev_ExpiredHeight ev = expiry) evs;
}.

Lemma keeps_on_storage {A X} (f : ChallengeChain B N -> X) (k : M (Chain B N) storage_error A) :
  keeps (fun b => b) k -> keeps f (on_storage k).
Proof.
  intros Hk c. unfold on_storage, zoom. pose proof (Hk (base c)) as Hb.
  destruct (k (base c)) as [r b]. simpl in *. subst b. by rewrite with_base_same.
Qed.

Lemma keeps_provider_at {X} (f : ChallengeChain B N -> X) gvg i : keeps f (provider_at gvg i).
Proof. unfold provider_at. frame. Qed.
Lemma keeps_pick {X} (f : ChallengeChain B N -> X) ctx count it map :
  keeps f (pick ctx count it map).
Proof.
  pose proof (@keeps_provider_at X f). unfold pick. frame.
  apply keeps_on_storage, keeps_gvg.
Qed.

Lemma keeps_find_secondary {X} (f : ChallengeChain B N -> X) op index ids :
  keeps f (find_secondary op index ids).
Proof. revert index. induction ids; intros index; simpl; frame. Qed.
Lemma keeps_place_of {X} (f : ChallengeChain B N -> X) op sp b o : keeps f (place_of op sp b o).
Proof.
  pose proof (@keeps_find_secondary X f). unfold place_of. frame. apply keeps_on_storage, keeps_gvg.
Qed.

Lemma start_challenges_Ret ctx count expiry needed left it n map c evs c' :
  start_challenges ctx count expiry needed left it n map c = (Ret evs, c') ->
  c' = with_ch (opened evs) c /\ numbered (challenge_id (ch c)) evs /\
  Forall (fun ev => ev_ExpiredHeight ev = expiry) evs.
Proof.
  revert it n map c evs c'. induction left as [|left IH]; intros it n map c evs c'; simpl; intros Hrun.
  { msteps Hrun. destruct c. split_and!; by try constructor. }
  destruct (needed <=? n); [msteps Hrun; destruct c; split_and!; by try constructor|].
  apply bind_Ret in Hrun as (r & c0 & Hp & Hrun).
  pose proof (keeps_run (fun c => c) _ _ _ _ (keeps_pick _ _ _ _ _) Hp) as E. simpl in E. subst c0.
  destruct r as [pk|]; [|by apply IH in Hrun]. unfold new_challenge, on_ch in Hrun.
  apply bind_Ret in Hrun as (id & c1 & Hn & Hrun). msteps Hn.
  apply bind_Ret in Hrun as (evs' & c2 & (-> & Hnum & Hexp)%IH & Hrun). msteps Hrun.
  split_and!; [by destruct c|done|by constructor].
Qed.

(** The height at which a challenge started in the block expires *)
Definition expiry_of ctx (s : ChallengeStore) : Z :=
  u64 (ChallengeKeepAlivePeriod (Ch_GetParams s) + u64 (height_of ctx)).

Lemma EndBlocker_starts ctx c u c' :
  Ch_EndBlocker ctx c = (Ret u, c') -> exists evs, starts (expiry_of ctx (ch c)) (ch c) c c' evs.
Proof.
  unfold Ch_EndBlocker. intros Hrun. rewrite bind_get in Hrun.
  assert (forall e, starts e (ch c) c c []) as Hnone.
  { intros e. split; try done; try constructor; by rewrite ?app_nil_r. }
  case_match; [exists []; by msteps Hrun|]. case_match; [exists []; by msteps Hrun|].
  apply bind_Ret in Hrun as (evs & c1 & (-> & Hnum & Hexp)%start_challenges_Ret & Hrun).
  msteps Hrun. by exists evs.
Qed.

Lemma Submit_starts ctx msg c id c' :
  Submit ctx msg c = (Ret id, c') ->
  exists ev, starts (expiry_of ctx (ch c)) (IncrChallengeCountCurrentBlock (ch c)) c c' [ev] /\
    ev_ChallengeId ev = id.
Proof.
  unfold Submit, MustAcc. intros Hrun. do 4 mstep Hrun.
  apply bind_Ret in Hrun as (sp & c1 & Hp & Hrun).
  apply on_storage_read in Hp as [-> _]; [|apply StorageRuns.keeps_primary]. do 4 mstep Hrun.
  apply bind_Ret in Hrun as (place & c1 & Hp & Hrun).
  pose proof (keeps_run (fun c => c) _ _ _ _ (keeps_place_of _ _ _ _ _) Hp) as E. simpl in E. subst c1.
  do 3 mstep Hrun. apply bind_Ret in Hrun as (index & c1 & Hi & Hrun).
  assert (c1 = c) as -> by (destruct (ms_RandomIndex msg); by msteps Hi).
  unfold new_challenge, on_ch in Hrun. mstep Hrun.
  apply bind_Ret in Hrun as (cid & c1 & Hn & Hrun). msteps Hn. msteps Hrun.
  eexists. split; [split; [done|reflexivity|done|done|by repeat constructor]|done].
Qed.

End Starting.

(** ** The life of the module: blocks with submissions and attestations *)

Section Histories.
Context {B N : Type} {HBank : BankKeeper B} {HAddr : Addresses} {HBankLaws : BankLaws B}
  {HAddrLaws : AddressLaws} {HCrypto : StorageCrypto} {HBls : Bls}
  {HVotes : Votes} {HKeccak : Keccak} {HStaking : StakingKeeper}.
Implicit Types c : ChallengeChain B N.

(** A slash as the deposit shows it: the provider, the object, the height and
    what the deposit lost *)
Record Loss : Type := mkLoss { l_sp : Z; l_object : Z; l_height : Z; l_amount : Z }.

Definition deposit_of (id : Z) c : Z :=
  default 0 (sp_TotalDeposit <$> GetStorageProvider id (sps (wd (base c)))).

(** The provider an attestation names *)
Definition accused (msg : MsgAttest) c : option StorageProvider :=
  a ← Sdk.AccAddressFromHexUnsafe (ma_SpOperatorAddress msg);
  GetStorageProviderByOperatorAddr a (sps (wd (base c))).

Definition losses (msg : MsgAttest) (height : Z) c c' : list Loss :=
  if bool_decide (ma_VoteResult msg = CHALLENGE_SUCCEED) then
    option_list ((fun sp => mkLoss (sp_Id sp) (ma_ObjectId msg) height
                              (deposit_of (sp_Id sp) c - deposit_of (sp_Id sp) c')) <$> accused msg c)
  else [].

(** The parameters the chain may have, at genesis and by [UpdateParams] *)
Variable allowed : ChParams -> Prop.

(** Runs of the chain from genesis, at a height and with the losses of all
    slashes, the last first.  The transient count starts each block at zero.
    Between the module's own steps the rest of the chain may do anything to its
    state; it does not write the module's. *)
Inductive history : Z -> ChallengeChain B N -> list Loss -> Prop :=
| hi_genesis height c p :
    allowed p -> ch c = mkChallengeStore (Some p) 0 ∅ ∅ ∅ None None ∅ 0 -> started c = [] ->
    0 <= height < two63 -> history height c []
| hi_block height c log ctx u c' :
    history height c log -> height_of ctx = height + 1 -> height + 1 < two63 ->
    Ch_BeginBlocker ctx (with_ch (set_current_count 0) c) = (Ret u, c') ->
    history (height + 1) c' log
| hi_submit height c log ctx msg id c' :
    history height c log -> height_of ctx = height -> Submit ctx msg c = (Ret id, c') ->
    history height c' log
| hi_attest height c log ctx msg u c' :
    history height c log -> height_of ctx = height -> registry (sps (wd (base c))) ->
    Attest ctx msg c = (Ret u, c') -> history height c' (losses msg height c c' ++ log)
| hi_params height c log authority req p u c' :
    history height c log -> allowed p -> Ch_UpdateParams authority req p c = (Ret u, c') ->
    history height c' log
| hi_end height c log ctx u c' :
    history height c log -> height_of ctx = height -> Ch_EndBlocker ctx c = (Ret u, c') ->
    history height c' log
| hi_rest height c log c' :
    history height c log -> ch c' = ch c -> started c' = started c -> history height c' log.

Hypothesis allowed_valid : forall p, allowed p -> ChParams_Validate p = true.

Definition set_to_allowed (s : ChallengeStore) : Prop := exists p, ch_params s = Some p /\ allowed p.

(** What all allowed parameters have in common: the counting window, the least
    cooling-off period and the most a provider can lose *)
Variables W cooling cap : Z.
Record slash_params (p : ChParams) : Prop := mkSlashParams {
  sp_window : SpSlashCountingWindow p = W;
  sp_cooling : cooling <= SlashCoolingOffPeriod p;
  sp_cap : default 0 (SpSlashMaxAmount p) <= cap;
  sp_max : default 0 (SlashAmountMax p) <= cap;
}.
Hypothesis allowed_slash : forall p, allowed p -> slash_params p.
Hypothesis W_pos : 0 < W.

Definition window (height : Z) : Z := height / W.
Definition lost_in (id w : Z) (log : list Loss) : Z :=
  zsum (fun l => if decide (l_sp l = id /\ window (l_height l) = w) then l_amount l else 0) log.
Definition spacing : Z := Z.max 1 cooling.

(** Slashes of the same provider and object, the later first *)
Definition spaced (log : list Loss) : Prop :=
  forall i j l l', (i < j)%nat -> log !! i = Some l -> log !! j = Some l' ->
    l_sp l = l_sp l' -> l_object l = l_object l' -> l_height l' + spacing <= l_height l.

Record slash_inv (height : Z) c (log : list Loss) : Prop := mkSlashInv {
  si_params : set_to_allowed (ch c);
  si_height : 0 <= height < two63;
  si_past : Forall (fun l => 0 <= l_height l <= height /\ 0 <= l_amount l) log;
  si_recent : forall l, l ∈ log -> height < l_height l + spacing ->
    exists h, slashes (ch c) !! (l_sp l, l_object l) = Some h /\ l_height l <= h;
  si_slashed : forall k h, slashes (ch c) !! k = Some h -> h <= height;
  si_amounts : forall id, GetSpSlashAmount id (ch c) = lost_in id (window height) log;
  si_capped : forall id w, lost_in id w log <= cap;
  si_spaced : spaced log;
}.

Lemma lost_in_nonneg id w log : Forall (fun l => 0 <= l_amount l) log -> 0 <= lost_in id w log.
Proof.
  induction 1 as [|l log Hl _ IH]; [done|]. unfold lost_in in *. rewrite zsum_cons. case_decide; lia.
Qed.

Lemma slash_inv_same height c c' log :
  slashing (ch c') = slashing (ch c) -> slash_inv height c log -> slash_inv height c' log.
Proof.
  unfold slashing. intros [= Hp Hs Ha] [? ? ? ? ? Hamt ? ?].
  split; try done; unfold set_to_allowed in *; rewrite ?Hp, ?Hs; try done.
  intros id. rewrite <- Hamt. unfold GetSpSlashAmount. by rewrite Ha.
Qed.

Lemma window_next height :
  0 <= height ->
  window (height + 1) = window height /\ (height + 1) mod W <> 0 \/
  window (height + 1) = window height + 1 /\ (height + 1) mod W = 0.
Proof.
  intros Hh. unfold window.
  pose proof (Z.div_mod height W ltac:(lia)). pose proof (Z.mod_pos_bound height W ltac:(lia)).
  destruct (Z.eq_dec (height mod W) (W - 1)) as [E|].
  - right. replace (height + 1) with (0 + (height / W + 1) * W) by lia.
    rewrite Z.div_add, Z.mod_add, Z.div_0_l, Z.mod_0_l by lia. lia.
  - left. assert (height + 1 = W * (height / W) + (height mod W + 1)) as E by lia. split.
    + symmetry. apply (Z.div_unique_pos _ _ _ (height mod W + 1)); lia.
    + pose proof (Z.mod_unique_pos _ W _ (height mod W + 1) ltac:(lia) E). lia.
Qed.

Lemma window_mono a b : a <= b -> window a <= window b.
Proof. intros. apply Z.div_le_mono; lia. Qed.

Lemma lost_in_future id w height log :
  Forall (fun l => 0 <= l_height l <= height /\ 0 <= l_amount l) log -> window height < w ->
  lost_in id w log = 0.
Proof.
  intros Hl Hw. induction Hl as [|l log [[_ Hh%window_mono] _] _ IH]; [done|].
  unfold lost_in in *. rewrite zsum_cons, IH. case_decide; lia.
Qed.

Lemma BeginBlocker_Ret ctx c u c' h p :
  Ch_BeginBlocker ctx c = (Ret u, c') -> height_of ctx = h -> 0 < h < two63 ->
  ch_params (ch c) = Some p ->
  base c' = base c /\ started c' = started c /\ ch_params (ch c') = Some p /\
  challenge_id (ch c') = challenge_id (ch c) /\
  challenges (ch c') = filter (fun kv => ~ kv.2 <= h) (challenges (ch c)) /\
  slashes (ch c') = (if SlashCoolingOffPeriod p <? h
                     then filter (fun kv => ~ kv.2 <= h - SlashCoolingOffPeriod p) (slashes (ch c))
                     else slashes (ch c)) /\
  slash_amounts (ch c') = (if (0 <? SpSlashCountingWindow p) && (h mod SpSlashCountingWindow p =? 0)
                           then ∅ else slash_amounts (ch c)).
Proof.
  unfold Ch_BeginBlocker, on_ch. intros Hrun Hctx Hh Hp. rewrite Hctx in Hrun. unfold two63 in Hh.
  assert (u64 h = h) as E by (unfold u64, two64; apply Z.mod_small; lia). rewrite E in Hrun.
  do 2 mstep Hrun. rewrite (GetParams_set _ p) in Hrun by done.
  destruct (Z.ltb_spec 0 h); [|lia]. rewrite andb_true_r in Hrun.
  destruct (SlashCoolingOffPeriod p <? h); destruct (_ && _); msteps Hrun; done.
Qed.

Lemma slash_inv_block height c log ctx u c' :
  slash_inv height c log -> height_of ctx = height + 1 -> height + 1 < two63 ->
  Ch_BeginBlocker ctx (with_ch (set_current_count 0) c) = (Ret u, c') ->
  slash_inv (height + 1) c' log.
Proof.
  intros [(p & Hp & Hall) Hh Hpast Hrec Hsl Hamt Hcap Hsp] Hctx Hlt Hrun.
  destruct (allowed_slash p Hall) as [Hw Hcool _ _].
  eapply BeginBlocker_Ret in Hrun as (_ & _ & Hp' & _ & _ & Hs' & Ha'); [|done|lia|done].
  rewrite Hw in Ha'. cbn [ch with_ch set_current_count slashes slash_amounts] in Hs', Ha'.
  split; try done; try lia.
  - by exists p.
  - eapply Forall_impl; [exact Hpast|]. simpl. lia.
  - intros l Hl Hnear. destruct (Hrec l Hl) as (h & Hk & Hle); [lia|]. exists h. split; [|done].
    rewrite Hs'. destruct (_ <? _); [|done]. apply map_lookup_filter_Some. split; [done|]. simpl.
    rewrite Forall_forall in Hpast. specialize (Hpast l Hl). unfold spacing in *. lia.
  - intros k h Hk. enough (slashes (ch c) !! k = Some h) as E%Hsl by lia.
    rewrite Hs' in Hk. destruct (_ <? _); [|done]. by apply map_lookup_filter_Some in Hk as [? _].
  - intros id. unfold GetSpSlashAmount. rewrite Ha'. destruct (Z.ltb_spec 0 W); [|lia]. simpl.
    destruct (window_next height (proj1 Hh)) as [[Ew Em]|[Ew Em]].
    + destruct (Z.eqb_spec ((height + 1) mod W) 0); [done|]. rewrite Ew. apply Hamt.
    + rewrite Em. cbn [Z.eqb]. rewrite lookup_empty. symmetry.
      apply (lost_in_future _ _ height); [done|lia].
Qed.

Lemma slash_effect_ch who p amount sp submitter challenger validators c c' :
  slash_effect who p amount sp submitter challenger validators c c' ->
  ch c' = ch c /\ started c' = started c.
Proof. by intros [[_ ->]|(_ & b & -> & _)]. Qed.

Lemma slash_effect_deposit who p amount sp submitter challenger validators c c' :
  slash_effect who p amount sp submitter challenger validators c c' ->
  GetStorageProvider (sp_Id sp) (sps (wd (base c))) = Some sp ->
  deposit_of (sp_Id sp) c - deposit_of (sp_Id sp) c' = amount.
Proof.
  unfold deposit_of. intros [[-> ->]|(_ & b & -> & _)] Hsp; [lia|]. rewrite Hsp. simpl.
  unfold GetStorageProvider, SetStorageProvider. simpl. rewrite lookup_insert_eq. simpl. lia.
Qed.

Lemma slash_inv_add height c c' log id object amount :
  slash_inv height c log -> ExistsSlash id object (ch c) = false -> 0 <= amount ->
  (0 <= GetSpSlashAmount id (ch c) <= cap -> GetSpSlashAmount id (ch c) + amount <= cap) ->
  slashing (ch c') = slashing (SetSpSlashAmount id (GetSpSlashAmount id (ch c) + amount)
                                     (SaveSlash id object height (ch c))) ->
  slash_inv height c' (mkLoss id object height amount :: log).
Proof.
  intros [Hp Hh Hpast Hrec Hsl Hamt Hcap Hsp] Hnew Ha Hroom [= Hp' Hs' Ha'].
  apply bool_decide_eq_false, eq_None_not_Some in Hnew.
  assert (0 <= lost_in id (window height) log) as Hpos.
  { apply lost_in_nonneg. eapply Forall_impl; [exact Hpast|]. by intros l [_ ?]. }
  rewrite Hamt in *. split.
  - unfold set_to_allowed. by rewrite Hp'.
  - done.
  - constructor; [simpl; lia|done].
  - intros l [->|Hl]%elem_of_cons Hnear.
    + exists height. rewrite Hs'. simpl. by rewrite lookup_insert_eq.
    + destruct (Hrec l Hl Hnear) as (h & Hk & Hle). exists h. rewrite Hs', lookup_insert_ne; [done|].
      intros E. rewrite <- E in Hk. congruence.
  - intros k h. rewrite Hs'. intros [[_ <-]|[_ Hk]]%lookup_insert_Some; [done|by eapply Hsl].
  - intros id'. unfold GetSpSlashAmount. rewrite Ha'. unfold lost_in. rewrite zsum_cons. cbn [l_sp l_height l_amount].
    destruct (decide (id = id')) as [->|Hne].
    + rewrite lookup_insert_eq, decide_True by done. simpl. unfold lost_in. lia.
    + rewrite lookup_insert_ne, decide_False by naive_solver. apply Hamt.
  - intros id' w. unfold lost_in. rewrite zsum_cons. cbn [l_sp l_height l_amount].
    fold (lost_in id' w log). case_decide as E; [|apply Hcap].
    destruct E as [<- <-]. specialize (Hcap id (window height)). lia.
  - intros [|i] [|j] l l' Hij Hi Hj Esp Eob; simpl in *; try lia; [|by eapply (Hsp i j); [lia|..]].
    injection Hi as <-. simpl in *. apply list_elem_of_lookup_2 in Hj.
    destruct (Z.lt_ge_cases height (l_height l' + spacing)) as [Hnear|]; [|lia].
    destruct (Hrec l' Hj Hnear) as (h & Hk & _). congruence.
Qed.

Lemma slash_inv_attest height c log ctx msg u c' :
  slash_inv height c log -> height_of ctx = height -> registry (sps (wd (base c))) ->
  Attest ctx msg c = (Ret u, c') -> slash_inv height c' (losses msg height c c' ++ log).
Proof.
  intros Hinv Hctx Hreg (submitter & sp & challenger & o & all & votes & c1 & Hat)%Attest_Ret.
  destruct Hat as [_ (op & Eop & Hop) _ _ _ _ _ Hdone Hring]. unfold losses, accused. rewrite Eop. simpl.
  rewrite Hop. apply find_operator in Hop as [_ Hsp]; [|done]. case_bool_decide.
  - destruct (si_params _ _ _ Hinv) as (p & Hp & Hall).
    destruct (Validate_ok p (allowed_valid p Hall)) as (rate & min & max & v & s & t & most & Hok).
    destruct (allowed_slash p Hall) as [_ _ Hmost Hmax].
    destruct (po_min _ _ _ _ _ _ _ _ Hok) as [_ Hmin]. rewrite (proj1 (po_max _ _ _ _ _ _ _ _ Hok)) in Hmax.
    rewrite (proj1 (po_cap _ _ _ _ _ _ _ _ Hok)) in Hmost. cbn [default from_option id] in Hmost, Hmax.
    eapply slash_provider_Ret in Hdone as (full & c2 & Hnew & _ & Hfull & Heff & Ec); [|done..]. subst c1.
    pose proof (slash_effect_deposit _ _ _ _ _ _ _ _ _ Heff Hsp) as Hdep.
    apply slash_effect_ch in Heff as [Hch _]. unfold off_ring in Hring. injection Hring as Hp' _ _ Hs Ha _ Hb _.
    assert (deposit_of (sp_Id sp) c' = deposit_of (sp_Id sp) c2) as E
      by (unfold deposit_of; by rewrite Hb). simpl. rewrite E, Hdep.
    eapply slash_inv_add; [done..| | |].
    + unfold within_cap. case_match; lia.
    + intros Hr. eapply within_cap_bound; [done|lia|lia|done].
    + unfold slashing. rewrite Hp', Hs, Ha. unfold record_slash. rewrite Hctx. simpl. rewrite Hch.
      unfold u64. by rewrite Z.mod_small by (destruct Hinv as [_ ? _ _ _ _ _ _]; unfold two64, two63 in *; lia).
  - apply (keeps_run (fun c => ch c) _ _ _ _ (heartbeat_keeps _ _ _ (fun c => ch c) (fun _ _ => eq_refl))) in Hdone.
    simpl. eapply slash_inv_same; [|exact Hinv]. unfold off_ring in Hring.
    injection Hring as Hp _ _ Hs Ha _ _ _. unfold slashing. by rewrite Hp, Hs, Ha, Hdone.
Qed.

Lemma UpdateParams_Ret authority req p c u c' :
  Ch_UpdateParams authority req p c = (Ret u, c') -> c' = with_ch (set_ch_params (Some p)) c.
Proof. unfold Ch_UpdateParams, Ch_SetParams, on_ch. intros Hrun. by msteps Hrun. Qed.

Lemma slash_inv_params height c log authority req p u c' :
  slash_inv height c log -> allowed p -> Ch_UpdateParams authority req p c = (Ret u, c') ->
  slash_inv height c' log.
Proof. intros [? ? ? ? ? ? ? ?] Hall ->%UpdateParams_Ret. split; try done. by exists p. Qed.

Lemma history_slash_inv height c log : history height c log -> slash_inv height c log.
Proof.
  induction 1 as [height c p Hall Hc _ Hh|height c log ctx u c' _ IH Hctx Hlt Hrun
    |height c log ctx msg id c' _ IH Hctx Hrun|height c log ctx msg u c' _ IH Hctx Hreg Hrun
    |height c log authority req p u c' _ IH Hall Hrun
    |height c log ctx u c' _ IH Hctx Hrun|height c log c' _ IH Hc _].
  - destruct (Validate_ok p (allowed_valid p Hall)) as (? & ? & ? & ? & ? & ? & ? & Hok).
    destruct (po_cap _ _ _ _ _ _ _ _ Hok) as [Ecap ?].
    pose proof (sp_cap _ (allowed_slash p Hall)) as Hle. rewrite Ecap in Hle. simpl in Hle.
    split; rewrite ?Hc; [by exists p|done|constructor|by intros l ?%elem_of_nil|done|done| |].
    + intros id w. unfold lost_in, zsum. simpl. lia.
    + intros i j l l' _ Hi. by rewrite lookup_nil in Hi.
  - by eapply slash_inv_block.
  - apply Submit_starts in Hrun as (ev & Hst & _). eapply slash_inv_same; [|done].
    rewrite (sta_store _ _ _ _ _ Hst). by rewrite opened_slashing.
  - by eapply slash_inv_attest.
  - by eapply slash_inv_params.
  - apply EndBlocker_starts in Hrun as (evs & Hst). eapply slash_inv_same; [|done].
    rewrite (sta_store _ _ _ _ _ Hst). by rewrite opened_slashing.
  - eapply slash_inv_same; [by rewrite Hc|done].
Qed.

(** C3: Slashing is limited over the life of the chain, also when its
    parameters change: two slashes of a provider for the same object are the
    least cooling-off period apart, at least a block, and in one counting
    window the deposit of a provider never loses more than the largest maximum
    of the window, or the largest slash where that is more.  The length of the
    window is not changed, and the registry of providers is consistent when a
    provider is slashed. *)
Theorem slashing_bounded height c log :
  history height c log ->
  spaced log /\ Forall (fun l => 0 <= l_amount l) log /\ forall id w, lost_in id w log <= cap.
Proof.
  intros [_ _ Hpast _ _ _ Hcap Hsp]%history_slash_inv. split_and!; try done.
  eapply Forall_impl; [exact Hpast|]. by intros l [_ ?].
Qed.

(** An attestation opens and closes nothing. *)
Lemma attests_open ctx msg c submitter sp challenger o all votes c1 c' :
  set_to_allowed (ch c) -> registry (sps (wd (base c))) ->
  attests ctx msg c submitter sp challenger o all votes c1 c' ->
  started c' = started c /\ challenge_id (ch c') = challenge_id (ch c) /\
  challenges (ch c') = challenges (ch c) /\ ch_params (ch c') = ch_params (ch c).
Proof.
  intros (p & Hp & Hall) Hreg [_ (op & _ & [_ Hsp]%find_operator) _ _ _ _ _ Hdone Hring]; [|done].
  unfold off_ring in Hring. injection Hring as -> -> -> _ _ _ _ ->. case_bool_decide.
  - destruct (Validate_ok p (allowed_valid p Hall)) as (rate & min & max & v & s & t & most & Hok).
    eapply slash_provider_Ret in Hdone as (full & c2 & _ & _ & _ & Heff & Ec); [|done..]. subst c1.
    apply slash_effect_ch in Heff as [Hch Hst]. simpl. by rewrite Hch, Hst.
  - apply (keeps_run (fun c => (ch c, started c)) _ _ _ _
      (heartbeat_keeps _ _ _ (fun c => (ch c, started c)) (fun _ _ => eq_refl))) in Hdone.
    by injection Hdone as -> ->.
Qed.

Lemma starts_params e s c c' evs : starts e s c c' evs -> ch_params (ch c') = ch_params s.
Proof. intros Hst. rewrite (sta_store _ _ _ _ _ Hst). by pose proof (opened_slashing evs s) as [= -> _ _]. Qed.

Lemma history_allowed height c log :
  history height c log -> 0 <= height < two63 /\ set_to_allowed (ch c).
Proof.
  induction 1 as [height c p Hall Hc _ Hh|height c log ctx u c' _ [Hh (p & Hp & Hall)] Hctx Hlt Hrun
    |height c log ctx msg id c' _ [Hh Hset] Hctx Hrun|height c log ctx msg u c' _ [Hh Hset] Hctx Hreg Hrun
    |height c log authority req p u c' _ [Hh _] Hall Hrun
    |height c log ctx u c' _ [Hh Hset] Hctx Hrun|height c log c' _ [Hh Hset] Hc _]; split; try done; try lia.
  - rewrite Hc. by exists p.
  - eapply BeginBlocker_Ret in Hrun as (_ & _ & Hp' & _); [|done|lia|done]. by exists p.
  - apply Submit_starts in Hrun as (ev & Hst%starts_params & _). unfold set_to_allowed. by rewrite Hst.
  - apply Attest_Ret in Hrun as (? & ? & ? & ? & ? & ? & c1 & Hat).
    destruct (attests_open _ _ _ _ _ _ _ _ _ _ _ Hset Hreg Hat) as (_ & _ & _ & E).
    unfold set_to_allowed. by rewrite E.
  - apply UpdateParams_Ret in Hrun as ->. by exists p.
  - apply EndBlocker_starts in Hrun as (evs & Hst%starts_params). unfold set_to_allowed. by rewrite Hst.
  - by rewrite Hc.
Qed.

(** The longest time a challenge can be kept alive *)
Variable keep : Z.
Hypothesis allowed_keep : forall p, allowed p -> 0 < ChallengeKeepAlivePeriod p <= keep.
Hypothesis keep_small : keep <= two63.

(** The open challenges are the started ones whose height of expiry is not
    reached; ids are counted from one. *)
Definition alive (height : Z) (evs : list EventStartChallenge) (last : Z) (open : gmap Z Z) : Prop :=
  Z.of_nat (length evs) < two64 ->
  last = Z.of_nat (length evs) /\
  (forall i ev, evs !! i = Some ev -> ev_ChallengeId ev = Z.of_nat i + 1 /\
    ev_ExpiredHeight ev <= height + keep) /\
  (forall id x, open !! id = Some x <->
    exists ev, ev ∈ evs /\ ev_ChallengeId ev = id /\ ev_ExpiredHeight ev = x /\ height < x).

Lemma alive_open height evs last open ev :
  alive height evs last open -> ev_ChallengeId ev = u64 (last + 1) ->
  height < ev_ExpiredHeight ev <= height + keep ->
  alive height (evs ++ [ev]) (ev_ChallengeId ev) (<[ev_ChallengeId ev := ev_ExpiredHeight ev]> open).
Proof.
  intros Hal Hid Hexp Hlen. rewrite length_app in Hlen. simpl in Hlen.
  destruct Hal as (-> & Hev & Hop); [lia|].
  assert (ev_ChallengeId ev = Z.of_nat (length evs) + 1) as E
    by (rewrite Hid; unfold u64; apply Z.mod_small; lia).
  split_and!.
  - rewrite length_app. simpl. lia.
  - intros i ev' [Hi|[Hi Hl]]%lookup_app_Some; [by apply Hev|].
    apply list_lookup_singleton_Some in Hl as [Ei <-]. split; [|lia].
    rewrite E. lia.
  - intros id x. split.
    + intros [[<- <-]|[Hne Hx]]%lookup_insert_Some.
      * exists ev. split; [|by destruct Hexp]. apply elem_of_app. right. by apply list_elem_of_singleton.
      * apply Hop in Hx as (ev' & Hin & ?). exists ev'. split; [|done]. apply elem_of_app. by left.
    + intros (ev' & Hin & <- & <- & Hlt). apply elem_of_app in Hin as [Hin|Hin];
        [|apply list_elem_of_singleton in Hin as ->; by rewrite lookup_insert_eq].
      rewrite lookup_insert_ne; [apply Hop; eauto|].
      apply list_elem_of_lookup_1 in Hin as [i Hi]. pose proof (lookup_lt_Some _ _ _ Hi).
      destruct (Hev i ev' Hi). lia.
Qed.

Lemma alive_starts height s c c' evs e :
  alive height (started c) (challenge_id s) (challenges s) -> starts e s c c' evs ->
  height < e <= height + keep ->
  alive height (started c') (challenge_id (ch c')) (challenges (ch c')).
Proof.
  intros Hal [_ Hev Ho Hnum Hexp] He. rewrite Hev, Ho. clear Hev Ho. revert s Hal Hnum Hexp.
  generalize (started c). clear c c'.
  induction evs as [|ev evs IH]; intros l s Hal Hnum Hexp; [by rewrite app_nil_r|].
  destruct Hnum as [Hid Hnum]. apply Forall_cons in Hexp as [Hx Hexp].
  replace (l ++ ev :: evs) with ((l ++ [ev]) ++ evs) by (by rewrite <- app_assoc).
  apply (IH _ (SaveChallenge (ev_ChallengeId ev) (ev_ExpiredHeight ev) s)); [|done..].
  eapply alive_open; [done..|lia].
Qed.

Lemma alive_block height evs last open :
  alive height evs last open ->
  alive (height + 1) evs last (filter (fun kv => ~ kv.2 <= height + 1) open).
Proof.
  intros Hal Hlen. destruct (Hal Hlen) as (Hl & Hev & Hop). split_and!; [done| |].
  - intros i ev Hi. destruct (Hev i ev Hi). lia.
  - intros id x. rewrite map_lookup_filter_Some, Hop. simpl. split.
    + intros [(ev & ? & ? & ? & ?) ?]. exists ev. split_and!; try done. lia.
    + intros (ev & ? & ? & ? & ?). split; [|lia]. exists ev. split_and!; try done. lia.
Qed.

Lemma expiry_range height ctx s :
  0 <= height < two63 -> height_of ctx = height -> set_to_allowed s ->
  height < expiry_of ctx s <= height + keep.
Proof.
  intros Hh <- (p & Hp & Hall). unfold expiry_of, u64. rewrite (GetParams_set _ p Hp).
  pose proof (allowed_keep p Hall). rewrite (Z.mod_small (height_of ctx)) by (unfold two64, two63 in *; lia).
  rewrite Z.mod_small by (unfold two64, two63 in *; lia). lia.
Qed.

Lemma history_alive height c log :
  history height c log -> alive height (started c) (challenge_id (ch c)) (challenges (ch c)).
Proof.
  induction 1 as [height c p _ Hc Hs Hh|height c log ctx u c' H IH Hctx Hlt Hrun
    |height c log ctx msg id c' H IH Hctx Hrun|height c log ctx msg u c' H IH Hctx Hreg Hrun
    |height c log authority req p u c' H IH Hall Hrun
    |height c log ctx u c' H IH Hctx Hrun|height c log c' _ IH Hc Hs];
    try (apply history_allowed in H as [Hh Hset]).
  - rewrite Hc, Hs. intros _. split_and!; [done|done|]. intros id x. simpl. split; [done|].
    by intros (ev & ?%elem_of_nil & _).
  - destruct Hset as (p & Hp & _).
    eapply BeginBlocker_Ret in Hrun as (_ & -> & _ & -> & -> & _); [|done|lia|done].
    by apply alive_block.
  - apply Submit_starts in Hrun as (ev & Hst & _).
    eapply (alive_starts _ (IncrChallengeCountCurrentBlock (ch c))); [done..|]. by apply expiry_range.
  - apply Attest_Ret in Hrun as (? & ? & ? & ? & ? & ? & c1 & Hat).
    by destruct (attests_open _ _ _ _ _ _ _ _ _ _ _ Hset Hreg Hat) as (-> & -> & -> & _).
  - by apply UpdateParams_Ret in Hrun as ->.
  - apply EndBlocker_starts in Hrun as (evs & Hst). eapply alive_starts; [done..|]. by apply expiry_range.
  - by rewrite Hc, Hs.
Qed.

(** The begin blocker of the height of expiry closes a challenge. *)
Lemma open_challenges height c log id :
  history height c log -> Z.of_nat (length (started c)) < two64 ->
  ExistsChallenge id (ch c) = true <->
  exists ev, ev ∈ started c /\ ev_ChallengeId ev = id /\ height < ev_ExpiredHeight ev.
Proof.
  intros Hh Hlen. destruct (history_alive _ _ _ Hh Hlen) as (_ & _ & Hop).
  unfold ExistsChallenge. rewrite bool_decide_eq_true. split.
  - intros [x (ev & ? & ? & ? & ?)%Hop]. exists ev. split_and!; try done. lia.
  - intros (ev & ? & ? & ?). exists (ev_ExpiredHeight ev). apply Hop. eauto.
Qed.

(** C16: A started challenge can be attested below its height of expiry, what
    can be attested was started and is not above its height of expiry, no two
    challenges have the same id, and none lives longer than the longest
    keep-alive period, over every run of the chain with changes of its
    parameters.  The keep-alive periods are positive and at most 2^63, and
    fewer than 2^64 challenges were started. *)
Theorem challenge_lifetime height c log :
  history height c log -> Z.of_nat (length (started c)) < two64 ->
  (forall ev, ev ∈ started c -> height < ev_ExpiredHeight ev ->
    ExistsChallenge (ev_ChallengeId ev) (ch c) = true) /\
  (forall id, ExistsChallenge id (ch c) = true ->
    exists ev, ev ∈ started c /\ ev_ChallengeId ev = id /\ height <= ev_ExpiredHeight ev) /\
  NoDup (ev_ChallengeId <$> started c) /\
  Forall (fun ev => ev_ExpiredHeight ev <= height + keep) (started c).
Proof.
  intros Hh Hlen. destruct (history_alive _ _ _ Hh Hlen) as (_ & Hev & _). split_and!.
  - intros ev Hin Hlt. eapply open_challenges; [done..|]. by exists ev.
  - intros id Hid. eapply open_challenges in Hid as (ev & ? & ? & ?); [|done..]. exists ev. split_and!; try done. lia.
  - apply NoDup_fmap_2_strong; [|apply NoDup_alt].
    + intros x y [i Hi]%list_elem_of_lookup_1 [j Hj]%list_elem_of_lookup_1 E.
      destruct (Hev i x Hi), (Hev j y Hj). replace j with i in Hj by lia. congruence.
    + intros i j ev Hi Hj. destruct (Hev i ev Hi), (Hev j ev Hj). lia.
  - apply Forall_lookup. intros i ev Hi. by destruct (Hev i ev Hi).
Qed.

End Histories.

(** ** The end of a block *)

Section EndBlock.
Context {B N : Type} {HBank : BankKeeper B} {HAddr : Addresses} {HCrypto : StorageCrypto}
  {HBls : Bls} {HVotes : Votes} {HKeccak : Keccak} {HKeccakLaws : KeccakLaws} {HStaking : StakingKeeper}.
Implicit Types c : ChallengeChain B N.

(** What the rest of the chain keeps, and the widths of the fields *)
Record sound c : Prop := mkSound {
  so_buckets : buckets_ok (st (base c));
  so_objects : objects_ok (st (base c));
  so_registry : registry (sps (wd (base c)));
  so_sizes : forall id o, GetObjectInfoById id (base c) = Some o -> 0 <= ob_PayloadSize o < two64;
  so_segments : forall time v, st_versioned (st (base c)) !! time = Some v -> 0 < MaxSegmentSize v;
  so_groups : forall id gvg, GetGVG id (vg (wd (base c))) = Some gvg ->
    Z.of_nat (length (SecondarySpIds gvg)) < 2 ^ 31;
}.

(** A challenge of the end blocker: a segment of a sealed object that is not
    empty, at the provider that holds its place in the group of the object, in
    service or exiting and without a recent slash for the object *)
Record random_challenge c (ev : EventStartChallenge) : Prop := mkRandomChallenge {
  rc_object : exists o b gvg size n,
    GetObjectInfoById (ev_ObjectId ev) (base c) = Some o /\
    ob_ObjectStatus o = OBJECT_STATUS_SEALED /\ 0 < ob_PayloadSize o /\
    St_GetBucketInfo (ob_BucketName o) (base c) = Some b /\
    GetObjectGVG (b_Id b) (ob_LocalVirtualGroupId o) (base c) = (Ret (Some gvg), base c) /\
    (if decide (ev_RedundancyIndex ev = RedundancyIndexPrimary) then Some (PrimarySpId gvg)
     else SecondarySpIds gvg !! Z.to_nat (ev_RedundancyIndex ev)) = Some (ev_SpId ev) /\
    St_MaxSegmentSize (GetLatestUpdatedTime o) (st (base c)) = Some size /\
    (n - 1) * size < ob_PayloadSize o <= n * size /\ 0 <= ev_SegmentIndex ev < n;
  rc_provider : exists sp, GetStorageProvider (ev_SpId ev) (sps (wd (base c))) = Some sp /\
    ev_SpOperatorAddress ev = OperatorAddress sp /\ challengeable sp = true;
  rc_unslashed : ExistsSlash (ev_SpId ev) (ev_ObjectId ev) (ch c) = false;
  rc_challenger : ev_ChallengerAddress ev = None;
}.

Lemma segment_size_pos c ts size :
  sound c -> St_MaxSegmentSize ts (st (base c)) = Some size -> 0 < size.
Proof.
  intros Hc. unfold St_MaxSegmentSize, St_GetVersionedParamsWithTS.
  intros (v & ([time v'] & Hl & ->)%fmap_Some & ->)%fmap_Some.
  apply (so_segments c Hc time). simpl.
  apply last_Some_elem_of, list_elem_of_filter in Hl as [_ Hl]. by apply elem_of_iterate in Hl.
Qed.

Lemma bucket_group c o b :
  sound c -> St_GetBucketInfo (ob_BucketName o) (base c) = Some b ->
  exists r, GetObjectGVG (b_Id b) (ob_LocalVirtualGroupId o) (base c) = (Ret r, base c) /\
    forall gvg, r = Some gvg -> Z.of_nat (length (SecondarySpIds gvg)) < 2 ^ 31.
Proof.
  intros Hc Hb. unfold St_GetBucketInfo, GetBucketInfo in Hb.
  destruct (bucket_ids _ !! _) as [id|]; [|done].
  apply (bk_id _ (so_buckets c Hc)) in Hb as (-> & _ & _ & [ib Hib]).
  unfold GetObjectGVG, MustGetInternalBucketInfo, bind, get. rewrite Hib. simpl.
  eexists. split; [done|]. intros gvg. destruct (GetLVG _ _); [|done]. apply (so_groups c Hc).
Qed.

Lemma provider_at_runs gvg i c :
  -1 <= i < Z.of_nat (length (SecondarySpIds gvg)) ->
  exists id, provider_at gvg i c = (Ret id, c) /\
    (if decide (i = RedundancyIndexPrimary) then Some (PrimarySpId gvg)
     else SecondarySpIds gvg !! Z.to_nat i) = Some id.
Proof.
  intros Hi. unfold provider_at, RedundancyIndexPrimary.
  destruct (Z.eqb_spec i (-1)); [rewrite decide_True by done; by eexists|].
  rewrite decide_False by done. destruct (Z.ltb_spec i 0); [lia|].
  destruct (lookup_lt_is_Some_2 (SecondarySpIds gvg) (Z.to_nat i)) as [id Hid]; [lia|].
  exists id. by rewrite Hid.
Qed.

Lemma on_storage_runs {A} (k : M (Chain B N) storage_error A) c a :
  k (base c) = (Ret a, base c) -> on_storage k c = (Ret a, c).
Proof. unfold on_storage, zoom. intros ->. simpl. by rewrite with_base_same. Qed.

Lemma must_runs {S E A} (o : option A) a (s : S) : o = Some a -> @must S E A o s = (Ret a, s).
Proof. by intros ->. Qed.

(** An attempt of the end blocker never panics; what it picks is a challenge
    that was not picked before in the block. *)
Lemma pick_runs ctx count it map c :
  sound c -> (length (RandaoMix ctx) <= 64)%nat -> 0 < count ->
  exists r, pick ctx count it map c = (Ret r, c) /\
    forall pk, r = Some pk ->
      ~ ((pk_sp_id pk, ob_Id (pk_object pk)) ∈ map) /\ sp_Id (pk_sp pk) = pk_sp_id pk /\
      forall id expiry, random_challenge c (start_event pk id expiry).
Proof.
  intros Hc Hmix Hcount. unfold pick.
  destruct (seed_Some (RandaoMix ctx) it Hmix) as (seed & Hseed & Hlen).
  rewrite (bind_run _ _ _ _ _ (must_runs _ _ c Hseed)).
  destruct (object_id_range seed count Hcount) as (oid & Hoid & _).
  rewrite (bind_run _ _ _ _ _ (must_runs _ _ c Hoid)), bind_get.
  destruct (GetObjectInfoById oid (base c)) as [o|] eqn:Ho; [|by exists None].
  destruct (negb (status_is OBJECT_STATUS_SEALED o) || (ob_PayloadSize o =? 0)) eqn:Est; [by exists None|].
  apply orb_false_iff in Est as [Hst%negb_false_iff%bool_decide_eq_true Hsize].
  destruct (St_GetBucketInfo (ob_BucketName o) (base c)) as [b|] eqn:Hb; [|by exists None].
  destruct (bucket_group c o b Hc Hb) as (r & Hgvg & Hn).
  rewrite (bind_run _ _ _ _ _ (on_storage_runs _ _ _ Hgvg)). destruct r as [gvg|]; [|by exists None].
  specialize (Hn gvg eq_refl).
  destruct (place_range seed (Z.of_nat (length (SecondarySpIds gvg)))) as (i & Hi & Hir); [lia..|].
  rewrite (bind_run _ _ _ _ _ (must_runs _ _ c Hi)).
  destruct (provider_at_runs gvg i c Hir) as (spid & Hat & Hplace).
  rewrite (bind_run _ _ _ _ _ Hat).
  destruct (GetStorageProvider spid (sps (wd (base c)))) as [sp|] eqn:Hsp; [|by exists None].
  destruct (_ || _) eqn:Eskip; [by exists None|].
  apply orb_false_iff in Eskip as [[Hch%negb_false_iff Hmap%bool_decide_eq_false]%orb_false_iff Hslash].
  destruct (St_MaxSegmentSize _ _) as [size|] eqn:Hseg; [|by exists None].
  pose proof (segment_size_pos c _ _ Hc Hseg). pose proof (so_sizes c Hc _ _ Ho).
  destruct (segments_ceil (ob_PayloadSize o) size) as (n & Hcs & Hnr & Hceil); [lia..|].
  rewrite (bind_run _ _ _ _ _ (must_runs _ _ c Hcs)).
  destruct (segment_range seed n) as (k & Hk & Hkr); [lia..|].
  rewrite (bind_run _ _ _ _ _ (must_runs _ _ c Hk)). eexists. split; [done|].
  intros pk [= <-]. cbn [pk_sp_id pk_object pk_sp].
  destruct (reg_key _ (so_registry c Hc) _ _ Hsp) as [Eid _]. split_and!; [done..|].
  intros id expiry. destruct (oj_id _ (so_objects c Hc) _ _ Ho) as [Eo _].
  split; simpl; rewrite ?Eid, ?Eo; [|by eauto|by rewrite Eid, Eo in Hslash|done].
  exists o, b, gvg, size, n. split_and!; try done; lia.
Qed.

Lemma random_challenge_same c c' ev :
  base c' = base c -> slashes (ch c') = slashes (ch c) -> random_challenge c' ev -> random_challenge c ev.
Proof.
  intros Hb Hs [Ho Hp Hu Hc]. rewrite Hb in *. split; try done. unfold ExistsSlash in *. by rewrite <- Hs.
Qed.

Lemma sound_same c c' : base c' = base c -> sound c -> sound c'.
Proof. intros Hb [? ? ? ? ? ?]. split; by rewrite Hb. Qed.

Definition target (ev : EventStartChallenge) : Z * Z := (ev_SpId ev, ev_ObjectId ev).

Lemma start_challenges_runs ctx count expiry needed left it n map c :
  sound c -> (length (RandaoMix ctx) <= 64)%nat -> 0 < count -> n <= needed ->
  exists evs c', start_challenges ctx count expiry needed left it n map c = (Ret evs, c') /\
    n + Z.of_nat (length evs) <= needed /\ Forall (random_challenge c) evs /\
    NoDup (target <$> evs) /\ (forall ev, ev ∈ evs -> ~ (target ev ∈ map)).
Proof.
  intros Hc Hmix Hcount. revert it n map c Hc. induction left as [|left IH]; intros it n map c Hc Hn; simpl.
  { exists [], c. split_and!; try done; try constructor; [simpl; lia|by intros ev ?%elem_of_nil]. }
  destruct (Z.leb_spec needed n).
  { exists [], c. split_and!; try done; try constructor; [simpl; lia|by intros ev ?%elem_of_nil]. }
  destruct (pick_runs ctx count (it + 1) map c Hc Hmix Hcount) as (r & Hrun & Hpk).
  rewrite (bind_run _ _ _ _ _ Hrun). destruct r as [pk|]; [|by apply IH].
  destruct (Hpk pk eq_refl) as (Hmap & Hid & Hev). unfold new_challenge, on_ch, bind at 1 2 3, get, modify, ret.
  set (id := u64 (GetChallengeId (ch c) + 1)). set (c1 := with_ch (SaveChallenge id expiry) c).
  destruct (IH (it + 1) (n + 1) ((pk_sp_id pk, ob_Id (pk_object pk)) :: map) c1) as
    (evs & c' & Hrest & Hlen & Hall & Hnd & Hout); [by apply (sound_same c)|lia|].
  unfold bind. rewrite Hrest. exists (start_event pk id expiry :: evs), c'.
  assert (target (start_event pk id expiry) = (pk_sp_id pk, ob_Id (pk_object pk))) as E
    by (unfold target; simpl; by rewrite Hid).
  split_and!; [done|simpl; lia| | |].
  - constructor; [done|]. eapply Forall_impl; [exact Hall|]. intros ev. by apply random_challenge_same.
  - rewrite fmap_cons. constructor; [|done]. rewrite E. intros (ev & Et & Hin)%list_elem_of_fmap.
    apply (Hout ev Hin). rewrite <- Et. by constructor.
  - intros ev [->|Hin]%elem_of_cons; [by rewrite E|]. intros Hm. apply (Hout ev Hin). by constructor.
Qed.

(** C15: The end blocker never fails on a sound chain, whatever the RANDAO mix of
    at most 64 bytes: it starts challenges up to the number of a block, less what was submitted,
    each on a segment of a sealed object at a provider that stores it, no two
    on the same object of a provider, numbered from the last id, opens them until
    their expiry and announces them; everything else of the module's store (the
    slashes, the ring of attested challenges, the count of the block) and of the
    chain is as before. *)
Theorem end_blocker_challenges ctx c :
  sound c -> (length (RandaoMix ctx) <= 64)%nat ->
  let params := Ch_GetParams (ch c) in
  exists c' evs, Ch_EndBlocker ctx c = (Ret tt, c') /\
    starts (expiry_of ctx (ch c)) (ch c) c c' evs /\
    Z.of_nat (length evs) <= Z.max 0 (ChallengeCountPerBlock params - current_count (ch c)) /\
    Forall (random_challenge c) evs /\ NoDup (target <$> evs).
Proof.
  intros Hc Hmix params.
  enough (exists c' evs, Ch_EndBlocker ctx c = (Ret tt, c') /\ started c' = started c ++ evs /\
    Z.of_nat (length evs) <= Z.max 0 (ChallengeCountPerBlock params - current_count (ch c)) /\
    Forall (random_challenge c) evs /\ NoDup (target <$> evs)) as (c' & evs & Hrun & Hev & Hrest).
  { exists c', evs. split; [done|]. split; [|done].
    destruct (EndBlocker_starts _ _ _ _ Hrun) as (evs' & Hst).
    pose proof (sta_events _ _ _ _ _ Hst) as E. rewrite Hev in E. by apply app_inv_head in E as <-. }
  assert (forall l : list EventStartChallenge, l = [] -> started c = started c ++ l /\
    Z.of_nat (length l) <= Z.max 0 (ChallengeCountPerBlock params - current_count (ch c)) /\
    Forall (random_challenge c) l /\ NoDup (target <$> l)) as Hnone.
  { intros l ->. rewrite app_nil_r. split_and!; try done; try constructor. simpl. lia. }
  unfold Ch_EndBlocker, GetChallengeCountCurrentBlock. rewrite bind_get. fold params.
  destruct (Z.leb_spec (ChallengeCountPerBlock params) (current_count (ch c))); [exists c, []; auto|].
  pose proof (oj_seq _ (so_objects c Hc)) as [Hseq _].
  unfold GetObjectInfoCount. destruct (Z.eqb_spec (CurVal Uint256 (objectSeq (st (base c)))) 0); [exists c, []; auto|].
  edestruct (start_challenges_runs ctx (CurVal Uint256 (objectSeq (st (base c)))))
    as (evs & c' & Hrun & Hlen & Hall & Hnd & _); [exact Hc|done|lia| |].
  2: { rewrite (bind_run _ _ _ _ _ Hrun). exists (emit evs c'), evs.
    split; [done|]. apply start_challenges_Ret in Hrun as (-> & _). split_and!; try done. lia. }
  lia.
Qed.

End EndBlock.

(** ** A chain with challenges

    The chain of [StorageTheorems] with a sealed object, three validators with
    the addresses 80, 81 and 82 and the default parameters. *)

(** A hash that keeps the low bytes, a bit set of 64-bit words, and a signature
    that is the keys with the message *)
#[global] Instance test_keccak : Keccak := { Keccak256 l := be_bytes 32 (7919 * be_val l + 1) }.
#[global] Instance test_keccak_laws : KeccakLaws.
Proof.
  split; intros l; [apply be_bytes_length|]. apply be_bytes_bytes.
Qed.
#[global] Instance test_votes : Votes := {
  bitset_Count words := zsum (fun w => zsum (fun i => Z.b2z (Z.testbit w i)) (seqZ 0 64)) words;
  bitset_Test words i := Z.testbit (default 0 (words !! Z.to_nat (i / 64))) (i mod 64);
  VerifyAggregated sig keys msg := bool_decide (sig = concat keys ++ msg);
}.
Definition validator_at (i : Z) : Validator := mkValidator (addr_text (80 + i)) [i].
#[global] Instance test_staking : StakingKeeper := {
  GetHistoricalInfo h := if h <? 1 then None else Some (validator_at <$> [0; 1; 2]);
}.

Abbreviation TestChallenges := (ChallengeChain PaymentInstance.Ledger Tokens).

Definition block_at (h : Z) : ChCtx :=
  mkChCtx (mkStorageCtx (mkSpCtx ((1000 + 5 * h) * 10 ^ 9) h) false true) (replicate 64 5) [109; 111].
Definition ch0 : TestChallenges :=
  mkChallengeChain (mkChallengeStore (Some DefaultChParams) 0 ∅ ∅ ∅ None None ∅ 0) chain4 [].

(** The end blocker of block 6 challenges the primary provider; a user
    challenges a secondary one, by its operator 23; both fail. *)
Definition submit_secondary : MsgSubmit := mkMsgSubmit (addr_text 10) (addr_text 23) "bucket" "a" 0 true.
Definition vote_on (id op : Z) (challenger : option Z) : MsgAttest :=
  let hash := Keccak256 (sign_bytes [109; 111] id 1 CHALLENGE_SUCCEED op challenger) in
  mkMsgAttest (addr_text 82) id 1 (addr_text op) CHALLENGE_SUCCEED
    (match challenger with Some a => addr_text a | None => EmptyString end) [7] ([0; 1; 2] ++ hash).
Definition vote_primary : MsgAttest := vote_on 1 21 None.
Definition vote_secondary : MsgAttest := vote_on 2 23 (Some 10).

Definition ch1 : TestChallenges := after (Ch_BeginBlocker (block_at 6)) (with_ch (set_current_count 0) ch0).
Definition ch2 : TestChallenges := after (Ch_EndBlocker (block_at 6)) ch1.
Definition ch3 : TestChallenges := after (Ch_BeginBlocker (block_at 7)) (with_ch (set_current_count 0) ch2).
Definition LongerKeep : ChParams :=
  mkChParams 1 400 300 (Some (85 * 10 ^ 14)) (Some (10 ^ 16)) (Some (10 ^ 18))
    (Some (9 * 10 ^ 17)) (Some (10 ^ 15)) (Some (10 ^ 15)) 1000 120 300 (Some (5 * 10 ^ 18)) 43200.
Definition ch3' : TestChallenges := after (Ch_UpdateParams "gov" "gov" LongerKeep) ch3.
Definition ch4 : TestChallenges := after (Submit (block_at 7) submit_secondary) ch3'.
Definition ch5 : TestChallenges := after (Attest (block_at 7) vote_primary) ch4.
Definition ch6 : TestChallenges := after (Attest (block_at 7) vote_secondary) ch5.

Lemma ch_runs :
  Ch_BeginBlocker (block_at 6) (with_ch (set_current_count 0) ch0) = (Ret tt, ch1) /\
  Ch_EndBlocker (block_at 6) ch1 = (Ret tt, ch2) /\
  Ch_BeginBlocker (block_at 7) (with_ch (set_current_count 0) ch2) = (Ret tt, ch3) /\
  Ch_UpdateParams "gov" "gov" LongerKeep ch3 = (Ret tt, ch3') /\
  Submit (block_at 7) submit_secondary ch3' = (Ret 2, ch4) /\
  Attest (block_at 7) vote_primary ch4 = (Ret tt, ch5) /\
  Attest (block_at 7) vote_secondary ch5 = (Ret tt, ch6).
Proof.
  assert ((Ch_BeginBlocker (block_at 6) (with_ch (set_current_count 0) ch0)).1 = Ret tt) as E1 by by_eval.
  assert ((Ch_EndBlocker (block_at 6) ch1).1 = Ret tt) as E2 by by_eval.
  assert ((Ch_BeginBlocker (block_at 7) (with_ch (set_current_count 0) ch2)).1 = Ret tt) as E3 by by_eval.
  assert ((Ch_UpdateParams "gov" "gov" LongerKeep ch3).1 = Ret tt) as E3' by by_eval.
  assert ((Submit (block_at 7) submit_secondary ch3').1 = Ret 2) as E4 by by_eval.
  assert ((Attest (block_at 7) vote_primary ch4).1 = Ret tt) as E5 by by_eval.
  assert ((Attest (block_at 7) vote_secondary ch5).1 = Ret tt) as E6 by by_eval.
  exact (conj (run_outcome _ _ E1) (conj (run_outcome _ _ E2) (conj (run_outcome _ _ E3)
    (conj (run_outcome _ _ E3') (conj (run_outcome _ _ E4) (conj (run_outcome _ _ E5) (run_outcome _ _ E6))))))).
Qed.

Lemma ch4_registry : registry (sps (wd (base ch4))).
Proof.
  eapply registry_but_global_prices; [|exact sp_state3_registry]. by_eval.
Qed.

Lemma ch_params4 : ch_params (ch ch4) = Some LongerKeep.
Proof. by_eval. Qed.
Lemma vote_primary_succeed : ma_VoteResult vote_primary = CHALLENGE_SUCCEED.
Proof. reflexivity. Qed.
Lemma LongerKeep_valid : ChParams_Validate LongerKeep = true.
Proof. by_eval. Qed.

(** The parameters of the run: the second ones keep challenges for longer. *)
Definition allowed_here (p : ChParams) : Prop := p = DefaultChParams \/ p = LongerKeep.

Lemma allowed_here_valid p : allowed_here p -> ChParams_Validate p = true.
Proof. intros [->| ->]; by_eval. Qed.
Lemma allowed_here_slash p : allowed_here p -> slash_params 43200 300 (5 * 10 ^ 18) p.
Proof. intros [->| ->]; split; by_eval. Qed.
Lemma allowed_here_keep p : allowed_here p -> 0 < ChallengeKeepAlivePeriod p <= 400.
Proof. intros [->| ->]; split; by_eval. Qed.

Lemma ch6_history :
  history allowed_here 7 ch6
    (losses vote_secondary 7 ch5 ch6 ++ losses vote_primary 7 ch4 ch5 ++ []).
Proof.
  destruct ch_runs as (R1 & R2 & R3 & R3' & R4 & R5 & R6).
  pose proof (hi_genesis allowed_here 5 ch0 DefaultChParams (or_introl eq_refl) eq_refl eq_refl
    ltac:(unfold two63; lia)) as H0.
  pose proof (hi_block _ 5 ch0 [] (block_at 6) tt ch1 H0 eq_refl eq_refl R1) as H1.
  pose proof (hi_end _ 6 ch1 [] (block_at 6) tt ch2 H1 eq_refl R2) as H2.
  pose proof (hi_block _ 6 ch2 [] (block_at 7) tt ch3 H2 eq_refl eq_refl R3) as H3.
  pose proof (hi_params allowed_here 7 ch3 [] "gov" "gov" LongerKeep tt ch3' H3 (or_intror eq_refl) R3') as H3'.
  pose proof (hi_submit _ 7 ch3' [] (block_at 7) submit_secondary 2 ch4 H3' eq_refl R4) as H4.
  pose proof (hi_attest _ 7 ch4 [] (block_at 7) vote_primary tt ch5 H4 eq_refl ch4_registry R5) as H5.
  refine (hi_attest _ 7 ch5 _ (block_at 7) vote_secondary tt ch6 H5 eq_refl _ R6).
  exact (Attest_registry _ _ _ _ _ _ R5 ch_params4 LongerKeep_valid ch4_registry).
Qed.

Lemma slashing_bounded_witness :
  let log := losses vote_secondary 7 ch5 ch6 ++ losses vote_primary 7 ch4 ch5 ++ [] in
  l_amount <$> log = [10 ^ 16; 10 ^ 16] /\ spaced 300 log /\ lost_in 43200 3 0 log <= 5 * 10 ^ 18.
Proof.
  pose proof (slashing_bounded allowed_here allowed_here_valid 43200 300 (5 * 10 ^ 18) allowed_here_slash
    ltac:(lia) 7 ch6 _ ch6_history) as (Hs & _ & Hl).
  assert (l_amount <$> (losses vote_secondary 7 ch5 ch6 ++ losses vote_primary 7 ch4 ch5 ++ []) =
    [10 ^ 16; 10 ^ 16]) as E by by_eval.
  exact (conj E (conj Hs (Hl 3 0))).
Defined.

(** Both challenges are open at height 7, the first until 306, the second by
    the new parameters until 407. *)
Lemma challenge_lifetime_witness :
  ev_ExpiredHeight <$> started ch6 = [306; 407] /\
  (forall ev, ev ∈ started ch6 -> 7 < ev_ExpiredHeight ev ->
    ExistsChallenge (ev_ChallengeId ev) (ch ch6) = true) /\
  Forall (fun ev => ev_ExpiredHeight ev <= 7 + 400) (started ch6).
Proof.
  assert (Z.of_nat (length (started ch6)) < two64) as Hn by by_eval.
  pose proof (challenge_lifetime allowed_here allowed_here_valid 400 allowed_here_keep ltac:(unfold two63; lia)
    7 ch6 _ ch6_history Hn) as (H & _ & _ & Hk).
  assert (ev_ExpiredHeight <$> started ch6 = [306; 407]) as E by by_eval.
  exact (conj E (conj H Hk)).
Defined.


Lemma chain4_sizes id o : objects (res (st chain4)) !! id = Some o -> 0 <= ob_PayloadSize o < two64.
Proof.
  assert (map_all (fun _ o => (0 <=? ob_PayloadSize o) && (ob_PayloadSize o <? two64))
    (objects (res (st chain4))) = true) as Hall by by_eval.
  intros Ho. pose proof (map_all_spec _ _ _ _ Hall Ho) as H. clear -H. simpl in H. lia.
Qed.
Lemma chain4_segments time v : st_versioned (st chain4) !! time = Some v -> 0 < MaxSegmentSize v.
Proof.
  assert (map_all (fun _ v => 0 <? MaxSegmentSize v) (st_versioned (st chain4)) = true) as Hall by by_eval.
  intros Hv. pose proof (map_all_spec _ _ _ _ Hall Hv) as H. clear -H. simpl in H. lia.
Qed.
Lemma chain4_groups id g :
  gvgs (vg (wd chain4)) !! id = Some g -> Z.of_nat (length (SecondarySpIds g)) < 2 ^ 31.
Proof.
  assert (map_all (fun _ g => Z.of_nat (length (SecondarySpIds g)) <? 2 ^ 31) (gvgs (vg (wd chain4))) = true)
    as Hall by by_eval.
  intros Hg. pose proof (map_all_spec _ _ _ _ Hall Hg) as H. clear -H. simpl in H. lia.
Qed.
Lemma chain4_registry : registry (sps (wd chain4)).
Proof. eapply registry_but_global_prices; [|exact sp_state3_registry]. by_eval. Qed.

Lemma ch0_sound : sound ch0.
Proof.
  exact (mkSound ch0 (lg_buckets _ _ _ chain4_Books) (lg_objects _ _ _ chain4_Books)
    chain4_registry chain4_sizes chain4_segments chain4_groups).
Qed.

Lemma ch1_sound : sound ch1.
Proof.
  destruct ch_runs as (R1 & _).
  pose proof (BeginBlocker_Ret (block_at 6) _ tt ch1 6 DefaultChParams R1 eq_refl
    ltac:(unfold two63; lia) eq_refl) as (E & _).
  exact (sound_same (with_ch (set_current_count 0) ch0) ch1 E (sound_same ch0 _ eq_refl ch0_sound)).
Qed.

(** The end blocker of block 6 starts one challenge, of object 1. *)
Lemma end_blocker_challenges_witness :
  sound ch1 /\ ev_ObjectId <$> started ch2 = [1] /\
  exists c' evs, Ch_EndBlocker (block_at 6) ch1 = (Ret tt, c') /\ Forall (random_challenge ch1) evs.
Proof.
  assert (length (RandaoMix (block_at 6)) <= 64)%nat as Hm by (simpl; lia).
  pose proof (end_blocker_challenges (block_at 6) ch1 ch1_sound Hm) as (c' & evs & Hrun & _ & _ & Hall & _).
  assert (ev_ObjectId <$> started ch2 = [1]) as E by by_eval.
  exact (conj ch1_sound (conj E (ex_intro _ c' (ex_intro _ evs (conj Hrun Hall))))).
Defined.


(** Three challenges in a ring of two *)
Definition ring_of_two : TestChallenges :=
  with_ch (set_ch_params (Some (mkChParams 1 300 300 None None None None None None 1000 120 2 None 1))) ch0.

Lemma attested_ring_refines_witness :
  let x i := mkAttested i CHALLENGE_FAILED in
  exists c1 c2 c3, AppendAttestedChallenge (x 1) ring_of_two = (Ret tt, c1) /\
    AppendAttestedChallenge (x 2) c1 = (Ret tt, c2) /\ AppendAttestedChallenge (x 3) c2 = (Ret tt, c3) /\
    GetAttestedChallenges c3 = (Ret [x 2; x 3], c3).
Proof.
  assert (ring_holds (ch ring_of_two) []) as H0 by (apply holds_nothing; reflexivity).
  destruct (attested_ring_refines ring_of_two [] (mkAttested 1 CHALLENGE_FAILED) H0 ltac:(split; by_eval))
    as (c1 & R1 & H1 & _ & K1).
  pose proof (kept_count_same ring_of_two c1 K1 : _ = 2) as E1.
  destruct (attested_ring_refines c1 _ (mkAttested 2 CHALLENGE_FAILED) H1 ltac:(rewrite E1; split; by_eval))
    as (c2 & R2 & H2 & _ & K2).
  pose proof (eq_trans (kept_count_same c1 c2 K2) E1) as E2.
  destruct (attested_ring_refines c2 _ (mkAttested 3 CHALLENGE_FAILED) H2 ltac:(rewrite E2; split; by_eval))
    as (c3 & R3 & _ & G3 & _).
  exists c1, c2, c3. split_and!; [done..|]. rewrite E1, E2 in G3. exact G3.
Defined.
